(* ===== verification/_CoqProject ===== *)
-Q . S2P
Prelude.v
GoText.v
Ids.v
World.v
Pii.v
Pseudonym.v
Conventions.v
Authz.v
Chunker.v
ChunkCrypto.v
Blob.v
BlobFS.v
Engine.v
Repo.v
RepoInv.v
FileService.v
FolderService.v
Sha256.v
Wopi.v
SubjectData.v
KamaraSafety.v
EraseSteps.v
Kamara.v
Typed.v
FolderTheorems.v
Access.v
Races.v
SessionStore.v
Zip.v
Termination.v
Task.v
SubjectErase.v
Erasure.v
Http.v
Json.v
Headers.v
Api.v
WopiHost.v
BytesTrim.v
Url.v
GoTemplate.v
Html.v
Forms.v
Discovery.v
Oidcrp.v
Web.v
WebSafety.v
TextEdit.v
BlobVerify.v
Base64.v
Cluster.v
Zitadel.v
Naming.v
Catalog.v
Provision.v
TenantController.v
ControllerFrame.v
ControllerSafety.v
ControllerReady.v
Offboarding.v
Converge.v
ControllerDemo.v
Dek.v
Server.v
Userinfo.v
Svcauth.v
Startup.v
KamaraMain.v
Restore.v
KamaraPages.v
TextForm.v
ErgoWeb.v
Attach.v
ServerUi.v
Fga.v
FgaModels.v
ControllerMain.v
Stub.v
Boot.v
Pages.v
