(* ===== verification/Prelude.v ===== *)
(** * Peristera: a verification development

    ** The program

    Peristera hosts a small office suite per tenant.  Its Go code under src/ has three
    parts.  Kamara (kamara/) stores files: bodies are split into content-defined chunks,
    encrypted and kept once per content in a blob store, while a Postgres database keeps
    objects, versions, manifests, folders and reference counts; an HTTP API, a
    browser front, a WOPI host for the office engine and a restore check stand on top.  Ergonomos (ergonomos/) keeps
    tasks.  The control plane (control-plane/) turns Tenant resources into namespaces,
    databases, Secrets, Deployments, network policies and an identity-provider instance,
    and has an API and a browser front for operators; a stub application shows that a
    tenant's login works.  The apps share lib/: identifiers, transactions,
    personal-data hooks and pseudonyms, audit and search conventions, the OpenFGA
    client, service-to-service tokens, sessions and the browser login.

    ** How it is modelled

    Go functions are Rocq functions with the names of the source.  An operation with
    effects is a program of the state-and-error monad [M] of this file; [throw] is an
    error return, and effects before it stay.  World.v holds what a process talks to: a
    database, a blob directory, OpenFGA tuples, a clock, randomness.  Every call that
    leaves the process consumes one entry of a fault script: it works, fails, or takes
    effect with its answer lost.  Unless a theorem says that no call fails, it holds for
    every script.  [InTx] is a transaction with rollback and with commits whose answer is
    lost.  Integers are [Z] with the wrap-around of their width written out where the
    source relies on it; strings are byte strings; maps are [gmap]s with the constraints
    of the schema as failing statements; timestamps are nanoseconds.

    Third-party code is a parameter with its documented behaviour as a class of laws:
    BLAKE3 and XChaCha20-Poly1305 (ChunkCrypto.v), OpenFGA (Authz.v), the OIDC provider
    (Oidcrp.v, Userinfo.v), Zitadel (Zitadel.v, Offboarding.v), the office engine with the
    XML of its document (Discovery.v), MIME types, multipart bodies, JSON text and e-mail
    syntax (FileService.v, Forms.v, Json.v, Server.v), RSA, PEM and the provider that answers
    a signed assertion (Svcauth.v), OpenFGA over HTTP (Fga.v) and the meaning of its models
    (FgaModels.v), the embedded assets (KamaraMain.v), the parameters of the generated code
    (Server.v), the character references of HTML (Html.v), what a process opens when it starts
    (Boot.v, Restore.v).  The server behind the URL at which
    Ergonomos reaches Kamara is a parameter of ErgoWeb.v; Attach.v puts Kamara's own
    handler there.  The standard library is defined where it is used:
    strings, UTF-8, hex, base32 and base64 (GoText.v, Base64.v, BytesTrim.v), SHA-256
    (Sha256.v), URLs and queries (Naming.v, Url.v), forms (Forms.v), routing, body limits and RFC 3339 (Http.v), JSON decoding
    (Json.v), templates (GoTemplate.v) and their contextual escaping (Html.v), flags
    (Restore.v).  The templates stand in the development as they stand in the source, with a
    backquote for each double quote, and are parsed, escaped and executed by definitions;
    Html.v also has a browser that reads the text.  Witnesses instantiate every parameter with a concrete function and
    evaluate the definitions.

    ** The files

    - Shared: Prelude (errors, results, the monad, Hoare triples, the hint database [go]
      and the tactic [keeps_tac]), GoText, Ids (lib/id), World (lib/dbtx), Pii (lib/pii
      subject, retention, registry), Pseudonym (lib/pii pseudonym, inmemory), Conventions
      (lib/audit, lib/search, lib/pgconv), Authz (lib/authz), SessionStore (lib/session),
      Oidcrp (lib/oidcrp).
    - Kamara's storage: Chunker (internal/chunk), ChunkCrypto (internal/crypto), Blob (the
      interface of internal/blob) and BlobFS (its file system implementation, over a page
      cache with crashes), Engine (internal/engine), Repo and RepoInv (internal/store: the
      statements, and the invariant of the database).
    - Kamara's domain (internal/file): FileService, FolderService, Zip, SubjectData (the
      export and the erasure of a person); KamaraSafety, EraseSteps and Kamara (all
      operations, erasures among them, as a transition system, and what every reachable
      world satisfies), Typed (the types of its rows), FolderTheorems, Termination, Access,
      SubjectErase (what an erasure guarantees), Erasure (the registry over both apps),
      Races (saves, moves and deletions that run at the same time).
    - Authorization: Fga (lib/authz on the wire: stores, models, tuples, checks) and
      FgaModels (the models the processes install, and what they grant).
    - Kamara's surfaces: Wopi and Discovery (internal/wopi), Api, Headers, WopiHost and
      Userinfo (internal/api), Web (cmd/kamara/web.go and the middleware of main.go) with
      WebSafety and TextEdit (its theorems), KamaraPages (internal/web and cmd/a11y-render:
      the templates and the pages), TextForm (a text from the editor's page to its save),
      Startup (the environment the processes read) and KamaraMain (cmd/kamara/main.go: the
      process that serves them together), BlobVerify and Restore (cmd/blobverify: its loops,
      and the command), Dek (the key, from the controller's Secret to Kamara).
    - Ergonomos: Task (internal/task, internal/store), ErgoWeb (cmd/ergonomos,
      internal/kamara), Svcauth (lib/svcauth), Attach (both processes composed).
    - The control plane: Cluster (the API server and apis/v1alpha1), Zitadel
      (internal/zitadel), Naming, Catalog, Provision and TenantController
      (internal/controller), ControllerFrame, ControllerSafety, ControllerReady,
      Offboarding and Converge (its theorems), ControllerDemo (a tenant from creation to
      Ready), Server and ServerUi (internal/server), ControllerMain (cmd/controller and the
      credentials of internal/zitadel), Stub (iam/cmd/stub).
    - The whole suite: GoTemplate (text/template) and Html (html/template and a browser),
      Pages (the templates of Ergonomos, the control plane and the stub, and the theorem
      about all pages), Boot (the processes of a tenant, from the environment to the
      listener).

    ** What the theorems show

    - Storage: every stored row has the type and the bounds its schema promises
      ([rows_well_formed]); in every reachable world no manifest dangles, every blob
      decrypts to its hash, and counts are exact but for the chunks of files whose erasure
      failed half-way, which may be counted too high ([storage_safe]; [run_losing] keeps
      track of them and [Leaks] is the invariant's parameter for them); what was uploaded is
      what is downloaded ([upload_download]); an upload adds exactly the chunks of its body
      or nothing, saves lose no update, concurrent saves, in turns that are proved to be the
      retry loop of the code, finish with consecutive ordinals; the folder tree stays a tree
      as long as operations run one after another, and is deleted exactly, and every walk
      over it ends, whatever the stored links are.
    - Blobs: the file system store refines the abstract one, is crash safe, and durable
      once a put returned; chunking partitions its input and the streaming splitter equals
      the reference; reassembly never yields bytes that do not hash to the manifest.
    - Access: a denied check has no effect; with the model Kamara installs, a file
      uploaded or moved is open to its owner and to those with access to the folder it is
      in, and to nobody else ([file_access_exact]); the client, over a server that reads
      requests as OpenFGA's API is documented ([FgaDoc]), answers on the wire what the
      abstract store says, and connecting again finds the same store and model; a request
      at any front door of Kamara reaches the stores, to read or to write, only through
      calls of the file service for the authenticated caller ([built_from], [calls_for]),
      and without a credential its answer does not depend on them; every request to
      Ergonomos acts for the authenticated caller only; an attachment that Ergonomos
      reports is in Kamara, complete and owned by the user who made it; an exchanged token is the
      provider's answer about exactly the token of that user; WOPI
      sessions are confined to one file and revocable; a browser session stems from one
      login and one callback; a bearer token is good only while the provider vouched for it
      recently; a browser request acts for the session's user, changes no file when it is a
      GET or comes from another site; a save of the text editor stores the text sent on the
      version the form names, or answers a stale form with that text; names
      cannot inject into headers or archives.
    - Pages: every page of the suite renders whatever is stored, and a browser reads in it
      the tags, attributes and texts of the template with each value in its place
      ([pages_as_written]); a text without carriage returns that is opened in the editor and
      sent back without a change is saved as the textarea showed it, byte by byte but for a
      line break at its start and null bytes ([text_editor_roundtrip]); a size is shown in the largest
      unit that fits it ([humanBytes_unit]).
    - Operation: a process that comes up is the one these theorems are stated for, and
      starting it again leaves OpenFGA as it is ([kamara_comes_up], [booted_is_wired]); the
      restore check is exact for the process whose key and issuer it is given
      ([restore_check_exact]).
    - Personal data: erasure, when it reports success, has removed everything of a person in
      both apps, through a registry proved against the contract its hooks are instances of;
      when it fails half-way it leaves no manifest without its blobs.
    - Control plane: off-boarding keeps a tenant until its instance is gone, if that had come
      up and the probe for it is answered; a reconcile never rewrites keys, volumes or
      Secrets, and creates and changes only in its tenant's place; a tenant reported
      Ready is up, and the pods of its apps and of its OpenFGA (not those of its database)
      admit only declared callers of its own namespace; its identity is
      permanent; toggling an optional app converges in one run, and the next run writes
      nothing; only operators reach the
      API and the browser front; the token the controller presents is one the provider
      accepts; the page of the stub names the user who logged in; the stored
      encryption key is the one Kamara reads.

    Lemmas of the form "... leaks", "... truncates", "... dangles", "... race ...",
    "... open" or "... not_durable" are
    runs of the code in which an intended property fails; they mark the limits of the
    theorems beside them.

    ** Bounds and fuel

    Loops over the folder tree ([ancestors_loop], [would_cycle_loop], [collect_tree],
    [zipTree]) carry [tree_fuel], two more than the number of folders: each visits a
    folder once, and the theorems show that the fuel never runs out.  [depth_loop] and
    [climb] use the number of folders the same way; the depth is the same for any larger
    number ([tree_walks_terminate]).  [entry_loop] tries one candidate
    more than there are names in use.  [Split] gets one unit more than its input has
    bytes, and every round that goes on consumes a byte; string loops get the length of
    their input in the same way.  [Evaluator.reach] follows parents for as many rounds as
    there are tuples.  [create_temp] tries as often as os.CreateTemp.  A template is parsed
    with a unit for each of its pieces and escaped with 200, more than any of them nests;
    both are computed once, and a lemma says that they gave a result.  [unit_loop] gets eight
    rounds, more than an int64 has powers of 1024.

    ** Not modelled

    The unused error types of the generated server and its deep copies; network listeners,
    shutdown and the cluster manager of the main packages; the experiments under hack/,
    which no other code uses; the migrations, whose schema the statements of Repo.v and
    Task.v follow; the text of the lines that blobverify prints; log lines.  The browser of
    Html.v is the tokenizer on the constructs the pages have, and does not normalise the line
    breaks of its input.  Operations of one process interleave
    only in Races.v; elsewhere one operation runs at a time.  For the part of an operation
    that is one transaction the isolation of the database justifies that, and for the
    controller the single active reconciler does; it is an assumption for what an operation
    reads before its transaction (the cycle check of MoveFolder), for blobs deleted after it,
    and for erasures, and Races.v shows what can happen there.  Kubernetes reads see the
    stored state.  OpenFGA evaluates a model without the limit on the depth of its resolution
    that the server has, so in very deep folder trees its answer can be an error where
    FgaModels.v has a yes.  The client id, the redirect URL and the scopes of a relying party
    are part of the provider parameter of Oidcrp.v, since the code only hands them to the
    oauth2 library. *)

From stdpp Require Export base tactics option list list_numbers gmap strings sets sorting numbers.
From Stdlib Require Export ZArith Lia.
From Stdlib Require Import Init.Byte.

Global Set Default Goal Selector "!".

(** ** Go errors as values

    Sentinel errors are constructors, [fmt.Errorf] with a [%w] verb is [ErrWrap]
    and every other constructed error is [ErrText].  [ErrUnique] and
    [ErrForeignKey] are the Postgres SQLSTATEs 23505 and 23503; [ErrExternal]
    is the failure of a call to another process (database, OpenFGA, file
    system); [ErrMaxBytes] is [*http.MaxBytesError]; [ErrIam404] and [ErrAPI] are
    the errors of the Zitadel client, the [ErrK8s] ones those of the Kubernetes
    API server. *)
Inductive error :=
  | ErrNotFound | ErrForbidden | ErrVersionConflict | ErrModified
  | ErrNotEmpty | ErrCycle
  | ErrInvalid
  | ErrBlobNotExist
  | ErrUnique | ErrForeignKey
  | ErrExternal
  | ErrMaxBytes
  | ErrIam404 | ErrUserExists
  | ErrK8sNotFound | ErrK8sExists | ErrK8sConflict
  | ErrAPI (status : Z) (message : string)
  | ErrText (msg : string)
  | ErrWrap (msg : string) (e : error).

#[global] Instance error_eq_dec : EqDecision error.
Proof. solve_decision. Defined.

(** [errors.Is]: walk the chain of wrapped errors. *)
Fixpoint errors_is (e target : error) : bool :=
  bool_decide (e = target) ||
  match e with ErrWrap _ e' => errors_is e' target | _ => false end.

(** ** Results *)
Inductive res (A : Type) :=
  | Ok (a : A)
  | Err (e : error).
Arguments Ok {A} a.
Arguments Err {A} e.

#[global] Instance res_eq_dec {A} `{EqDecision A} : EqDecision (res A).
Proof. solve_decision. Defined.

Definition is_ok {A} (r : res A) : bool :=
  match r with Ok _ => true | Err _ => false end.

(** ** The state-and-error monad

    An operation reads and writes a world [W]; an error keeps the effects that
    happened before it, which is what a Go function returning an error does. *)
Definition M (W A : Type) : Type := W → res A * W.

#[global] Instance M_ret {W} : MRet (M W) := λ A a w, (Ok a, w).
#[global] Instance M_bind {W} : MBind (M W) := λ A B f m w,
  match m w with
  | (Ok a, w') => f a w'
  | (Err e, w') => (Err e, w')
  end.

(** Programs are run with the equations below, not by unfolding. *)
#[global] Arguments mbind : simpl never.
#[global] Arguments M_bind : simpl never.

Section monad.
Context {W : Type}.

Definition throw {A} (e : error) : M W A := λ w, (Err e, w).
Definition gets {A} (f : W → A) : M W A := λ w, (Ok (f w), w).
Definition modify (f : W → W) : M W unit := λ w, (Ok tt, f w).
Definition lift {A} (r : res A) : M W A := λ w, (r, w).

(** Run [m] and hand its outcome, error included, to the caller. *)
Definition attempt {A} (m : M W A) : M W (res A) := λ w,
  let '(r, w') := m w in (Ok r, w').

(** [_ = f(...)]: the error is dropped, the effects stay. *)
Definition ignore {A} (m : M W A) : M W unit := λ w, (Ok tt, (m w).2).

(** [if err := ...; err != nil { return fmt.Errorf("msg: %w", err) }] *)
Definition wrap_err {A} (msg : string) (m : M W A) : M W A := λ w,
  match m w with
  | (Err e, w') => (Err (ErrWrap msg e), w')
  | r => r
  end.

(** [for _, x := range l { ... }] with an early return on error. *)
Fixpoint for_each {A} (l : list A) (f : A → M W unit) : M W unit :=
  match l with
  | [] => mret tt
  | x :: l' => f x ;; for_each l' f
  end.

(** The same loop accumulating a value. *)
Fixpoint for_acc {A B} (l : list A) (acc : B) (f : B → A → M W B) : M W B :=
  match l with
  | [] => mret acc
  | x :: l' => acc' ← f acc x; for_acc l' acc' f
  end.
End monad.

(** ** Hoare triples over both outcomes *)
Definition triple {W A} (P : W → Prop) (m : M W A) (Q : res A → W → Prop) : Prop :=
  ∀ w, P w → Q (m w).1 (m w).2.

(** [keeps I m]: [m] preserves [I] whether it succeeds or fails. *)
Definition keeps {W A} (I : W → Prop) (m : M W A) : Prop :=
  triple I m (λ _, I).

(** [frames f m]: [m] leaves the component [f] of the world alone. *)
Definition frames {W A X} (f : W → X) (m : M W A) : Prop :=
  ∀ w, f (m w).2 = f w.

Section triples.
Context {W : Type}.
Implicit Types (P I : W → Prop).

Lemma run_ret {A} (a : A) (w : W) : (mret a : M W A) w = (Ok a, w).
Proof. reflexivity. Qed.

Lemma run_bind {A B} (m : M W A) (k : A → M W B) (w : W) :
  (m ≫= k) w = match m w with
               | (Ok a, w') => k a w'
               | (Err e, w') => (Err e, w') end.
Proof. reflexivity. Qed.

Lemma run_bind_ok {A B} (m : M W A) (k : A → M W B) (w w' : W) (a : A) :
  m w = (Ok a, w') → (m ≫= k) w = k a w'.
Proof. intros E. by rewrite run_bind, E. Qed.

Lemma run_bind_err {A B} (m : M W A) (k : A → M W B) (w w' : W) (e : error) :
  m w = (Err e, w') → (m ≫= k) w = (Err e, w').
Proof. intros E. by rewrite run_bind, E. Qed.

(** Inversion of a successful sequence. *)
Lemma bind_ok_inv {A B} (m : M W A) (k : A → M W B) (w w' : W) (b : B) :
  (m ≫= k) w = (Ok b, w') →
  ∃ a w1, m w = (Ok a, w1) ∧ k a w1 = (Ok b, w').
Proof. rewrite run_bind. destruct (m w) as [[a|e] w1] eqn:E; naive_solver. Qed.

Lemma triple_ret {A} P (a : A) (Q : res A → W → Prop) :
  (∀ w, P w → Q (Ok a) w) → triple P (mret a) Q.
Proof. intros H w Hw. by apply H. Qed.

Lemma triple_bind {A B} P (m : M W A) (k : A → M W B)
    (R : A → W → Prop) (Q : res B → W → Prop) :
  triple P m (λ r w, match r with Ok a => R a w | Err e => Q (Err e) w end) →
  (∀ a, triple (R a) (k a) Q) →
  triple P (m ≫= k) Q.
Proof.
  intros Hm Hk w Hw. specialize (Hm w Hw). rewrite run_bind.
  destruct (m w) as [[a|e] w1]; simpl in *; [by apply Hk | done].
Qed.

Lemma triple_weaken {A} P P' (m : M W A) (Q Q' : res A → W → Prop) :
  triple P m Q → (∀ w, P' w → P w) → (∀ r w, Q r w → Q' r w) → triple P' m Q'.
Proof. intros H HP HQ w Hw. apply HQ, H, HP, Hw. Qed.

Lemma triple_attempt {A} P (m : M W A) (Q : res A → W → Prop) :
  triple P m Q →
  triple P (attempt m) (λ r w, match r with Ok x => Q x w | Err _ => False end).
Proof. intros H w Hw. specialize (H w Hw). unfold attempt. by destruct (m w). Qed.

(** The rule for [attempt m ≫= k]. *)
Lemma triple_try {A B} P (m : M W A) (k : res A → M W B)
    (R : res A → W → Prop) (Q : res B → W → Prop) :
  triple P m R → (∀ r, triple (R r) (k r) Q) → triple P (attempt m ≫= k) Q.
Proof.
  intros Hm Hk. apply (triple_bind _ _ _ R); [|done].
  apply (triple_weaken P P _ (λ r w, match r with Ok x => R x w | Err _ => False end));
    [by apply triple_attempt|done|]. by intros [x|e] w.
Qed.

(** A pure fact the precondition implies can be used in the proof. *)
Lemma triple_pure {A} P (φ : Prop) (m : M W A) (Q : res A → W → Prop) :
  (∀ w, P w → φ) → (φ → triple P m Q) → triple P m Q.
Proof. intros H1 H2 w Hw. apply H2; eauto. Qed.

Lemma triple_throw {A} P (e : error) (Q : res A → W → Prop) :
  (∀ w, P w → Q (Err e) w) → triple P (throw e) Q.
Proof. intros H w Hw. by apply H. Qed.

Lemma triple_lift {A} P (r : res A) (Q : res A → W → Prop) :
  (∀ w, P w → Q r w) → triple P (lift r) Q.
Proof. intros H w Hw. by apply H. Qed.

(** Sequencing after a computation that keeps the precondition. *)
Lemma triple_keeps {A B} P (m : M W A) (k : A → M W B) (Q : res B → W → Prop) :
  keeps P m → (∀ e w, P w → Q (Err e) w) → (∀ a, triple P (k a) Q) → triple P (m ≫= k) Q.
Proof.
  intros Hm He Hk. apply (triple_bind _ _ _ (λ _, P)); [|done].
  intros w Hw. specialize (Hm w Hw). destruct (m w) as [[a|e] w']; cbn in *; auto.
Qed.

Lemma keeps_ret {A} I (a : A) : keeps I (mret a).
Proof. by intros w. Qed.

Lemma keeps_bind {A B} I (m : M W A) (k : A → M W B) :
  keeps I m → (∀ a, keeps I (k a)) → keeps I (m ≫= k).
Proof.
  intros Hm Hk w Hw. specialize (Hm w Hw). rewrite run_bind.
  destruct (m w) as [[a|e] w1]; simpl in *; [by apply Hk | done].
Qed.

Lemma keeps_throw {A} I (e : error) : keeps I (throw (A:=A) e).
Proof. by intros w. Qed.

Lemma keeps_gets {A} I (f : W → A) : keeps I (gets f).
Proof. by intros w. Qed.

Lemma keeps_lift {A} I (r : res A) : keeps I (lift r).
Proof. by intros w. Qed.

Lemma keeps_modify I (f : W → W) : (∀ w, I w → I (f w)) → keeps I (modify f).
Proof. intros H w Hw. by apply H. Qed.

Lemma keeps_attempt {A} I (m : M W A) : keeps I m → keeps I (attempt m).
Proof. intros H w Hw. specialize (H w Hw). unfold attempt. by destruct (m w). Qed.

Lemma keeps_ignore {A} I (m : M W A) : keeps I m → keeps I (ignore m).
Proof. intros H w Hw. apply (H w Hw). Qed.

Lemma keeps_wrap_err {A} I msg (m : M W A) : keeps I m → keeps I (wrap_err msg m).
Proof.
  intros H w Hw. specialize (H w Hw). unfold wrap_err.
  by destruct (m w) as [[a|e] w1].
Qed.

Lemma keeps_for_each {A} I (l : list A) (f : A → M W unit) :
  (∀ x, x ∈ l → keeps I (f x)) → keeps I (for_each l f).
Proof.
  induction l as [|x l IH]; simpl; intros H; [apply keeps_ret|].
  apply keeps_bind; [apply H; left|]. intros _. apply IH. intros y Hy. apply H. by right.
Qed.

Lemma keeps_for_acc {A B} I (l : list A) (acc : B) (f : B → A → M W B) :
  (∀ b x, x ∈ l → keeps I (f b x)) → keeps I (for_acc l acc f).
Proof.
  revert acc; induction l as [|x l IH]; simpl; intros acc H; [apply keeps_ret|].
  apply keeps_bind; [apply H; left|]. intros b. apply IH. intros c y Hy. apply H. by right.
Qed.

(** Framing is preservation of "the component still has its first value". *)
Lemma frames_keeps {A X} (f : W → X) (m : M W A) :
  frames f m ↔ ∀ x, keeps (λ w, f w = x) m.
Proof.
  split.
  - intros H x w Hw. simpl. by rewrite H.
  - intros H w. by apply (H (f w) w).
Qed.
End triples.

Create HintDb go.
#[export] Hint Resolve keeps_ret keeps_throw keeps_gets keeps_lift keeps_attempt
  keeps_ignore keeps_wrap_err : go.

(** Walk a monadic program, splitting binds and branches, and leave the
    primitive steps to the [go] hint database. *)
Ltac keeps_step :=
  match goal with
  | |- keeps _ (_ ≫= _) => apply keeps_bind; [|intros ?]
  | |- keeps _ (match ?x with _ => _ end) => destruct x eqn:?
  | |- keeps _ (if ?b then _ else _) => destruct b eqn:?
  | |- keeps _ (let '_ := ?x in _) => destruct x eqn:?
  | |- keeps _ (for_each _ _) => apply keeps_for_each; intros ? ?
  | |- keeps _ (for_acc _ _ _) => apply keeps_for_acc; intros ? ? ?
  | |- keeps _ _ => solve [auto with go]
  end.
Ltac keeps_tac := repeat (keeps_step; cbv beta).

Lemma Forall2_impl_elem {A B} (R R' : A → B → Prop) l k :
  Forall2 R l k → (∀ x y, x ∈ l → y ∈ k → R x y → R' x y) → Forall2 R' l k.
Proof.
  induction 1 as [|x y l k Hxy _ IH]; intros HR; constructor.
  - apply HR; [left|left|done].
  - apply IH. intros a b Ha Hb. apply HR; by right.
Qed.

(** A run whose result has been evaluated. *)
Lemma run_result {W A} (m : M W A) w r : (m w).1 = r → m w = (r, (m w).2).
Proof. intros <-. apply surjective_pairing. Qed.

(** Decide a closed proposition by evaluation. *)
Ltac eval_decide :=
  match goal with
  | |- ?P => refine (@bool_decide_unpack P _ _); vm_compute; exact I
  end.
