(* ===== verification/GoText.v ===== *)
(** * GoText: the parts of Go's string and encoding libraries the sources use

    A Go [string] is a byte string: here Rocq's [string].  A Go [[]byte] is a
    [list byte].  The file holds [strings], [path], [encoding/hex],
    [encoding/base32], [encoding/base64] and the UTF-8 decoding that ranging
    over a string performs, each as an executable function. *)

From S2P Require Import Prelude.
From stdpp Require Export pretty.
From Stdlib Require Export Init.Byte.
From Stdlib Require Strings.Byte.
From Stdlib Require Strings.Ascii Strings.String.
Export Ascii.AsciiSyntax.
Delimit Scope char_scope with char.

Abbreviation bytes := (list byte).
Abbreviation bz b := (Z.of_N (Byte.to_N b)).

#[global] Instance byte_eq_dec : EqDecision byte := Byte.byte_eq_dec.

Definition byte_of_Z (z : Z) : byte :=
  match Byte.of_N (Z.to_N (z mod 256)) with Some b => b | None => x00 end.

Definition str_bytes (s : string) : bytes := String.list_byte_of_string s.
Definition bytes_str (l : bytes) : string := String.string_of_list_byte l.

Lemma str_bytes_str l : str_bytes (bytes_str l) = l.
Proof. apply String.list_byte_of_string_of_list_byte. Qed.

Lemma bytes_str_bytes s : bytes_str (str_bytes s) = s.
Proof. apply String.string_of_list_byte_of_string. Qed.

Lemma bz_range (b : byte) : (0 <= bz b < 256)%Z.
Proof. pose proof (Byte.to_N_bounded b). lia. Qed.

Lemma byte_of_Z_bz (b : byte) : byte_of_Z (bz b) = b.
Proof. by destruct b. Qed.

Lemma bz_byte_of_Z (z : Z) : bz (byte_of_Z z) = (z mod 256)%Z.
Proof.
  unfold byte_of_Z. pose proof (Z.mod_pos_bound z 256 ltac:(lia)) as Hb.
  destruct (Byte.of_N (Z.to_N (z mod 256))) as [b|] eqn:E.
  - apply Byte.to_of_N in E. rewrite E. lia.
  - apply Byte.of_N_None_iff in E. lia.
Qed.

Lemma bz_inj (a b : byte) : bz a = bz b → a = b.
Proof. intros H. rewrite <- (byte_of_Z_bz a), <- (byte_of_Z_bz b). by rewrite H. Qed.

(** ** Appending strings *)
Lemma str_bytes_app s t : str_bytes (s +:+ t) = str_bytes s ++ str_bytes t.
Proof.
  induction s as [|c s IH]; [done|]. exact (f_equal (cons (Ascii.byte_of_ascii c)) IH).
Qed.

Lemma str_bytes_inj s t : str_bytes s = str_bytes t → s = t.
Proof. intros H. rewrite <- (bytes_str_bytes s), <- (bytes_str_bytes t). by rewrite H. Qed.

Lemma length_str_bytes s : length (str_bytes s) = String.length s.
Proof.
  unfold str_bytes, String.list_byte_of_string.
  induction s as [|c s IH]; simpl; [done|]. by f_equal.
Qed.

Lemma string_app_inv_l (p s t : string) : p +:+ s = p +:+ t → s = t.
Proof. induction p as [|c p IH]; simpl; [done|]. intros H. injection H. apply IH. Qed.

Lemma string_app_nil_r (s : string) : s +:+ "" = s.
Proof. induction s as [|c s IH]; [done|]. exact (f_equal (String c) IH). Qed.

Lemma string_app_assoc (s t u : string) : (s +:+ t) +:+ u = s +:+ (t +:+ u).
Proof. induction s as [|c s IH]; [done|]. exact (f_equal (String c) IH). Qed.

Lemma string_length_app (s t : string) :
  String.length (s +:+ t) = String.length s + String.length t.
Proof. induction s as [|c s IH]; [done|]. exact (f_equal S IH). Qed.

(** ** Package strings *)
Definition has_prefix (s p : string) : bool := String.prefix p s.

Fixpoint trim_prefix (s p : string) : option string :=
  match p, s with
  | EmptyString, _ => Some s
  | String a p', String b s' => if decide (a = b) then trim_prefix s' p' else None
  | _, _ => None
  end.

(** [strings.TrimPrefix]. *)
Definition TrimPrefix (s p : string) : string :=
  match trim_prefix s p with Some r => r | None => s end.

Fixpoint string_rev_onto (acc s : string) : string :=
  match s with
  | EmptyString => acc
  | String c s' => string_rev_onto (String c acc) s'
  end.
Definition string_rev (s : string) : string := string_rev_onto "" s.

Definition has_suffix (s p : string) : bool := has_prefix (string_rev s) (string_rev p).

(** [strings.TrimSuffix]. *)
Definition TrimSuffix (s p : string) : string :=
  match trim_prefix (string_rev s) (string_rev p) with
  | Some r => string_rev r
  | None => s
  end.

(** [strings.Cut s sep] for a one-byte separator. *)
Fixpoint cut_byte (sep : Ascii.ascii) (s : string) : option (string * string) :=
  match s with
  | EmptyString => None
  | String c s' =>
      if decide (c = sep) then Some ("", s')
      else match cut_byte sep s' with
           | Some (a, b) => Some (String c a, b)
           | None => None
           end
  end.

(** [strings.IndexByte s c >= 0]. *)
Fixpoint contains_byte (c : Ascii.ascii) (s : string) : bool :=
  match s with
  | EmptyString => false
  | String d s' => bool_decide (d = c) || contains_byte c s'
  end.

(** [strings.Split s sep] for a one-byte separator. *)
Fixpoint split_byte (sep : Ascii.ascii) (s : string) : list string :=
  match s with
  | EmptyString => [""]
  | String c s' =>
      if decide (c = sep) then "" :: split_byte sep s'
      else match split_byte sep s' with
           | [] => [String c ""]
           | p :: ps => String c p :: ps
           end
  end.

(** [strings.Join]. *)
Fixpoint join (sep : string) (l : list string) : string :=
  match l with
  | [] => ""
  | [x] => x
  | x :: l' => x +:+ sep +:+ join sep l'
  end.

Definition is_space (c : Ascii.ascii) : bool :=
  let n := Ascii.N_of_ascii c in
  bool_decide (n = 32%N) || (bool_decide (9 <= n)%N && bool_decide (n <= 13)%N).

Fixpoint trim_left (s : string) : string :=
  match s with
  | EmptyString => ""
  | String c s' => if is_space c then trim_left s' else s
  end.

(** [strings.TrimSpace] on the ASCII white space (header values and MIME types
    hold no other white space). *)
Definition TrimSpace (s : string) : string :=
  string_rev (trim_left (string_rev (trim_left s))).

Definition lower_ascii (c : Ascii.ascii) : Ascii.ascii :=
  let n := Ascii.N_of_ascii c in
  if bool_decide (65 <= n)%N && bool_decide (n <= 90)%N
  then Ascii.ascii_of_N (n + 32) else c.

Definition upper_ascii (c : Ascii.ascii) : Ascii.ascii :=
  let n := Ascii.N_of_ascii c in
  if bool_decide (97 <= n)%N && bool_decide (n <= 122)%N
  then Ascii.ascii_of_N (n - 32) else c.

Fixpoint string_map (f : Ascii.ascii → Ascii.ascii) (s : string) : string :=
  match s with EmptyString => "" | String c s' => String (f c) (string_map f s') end.

(** [strings.ToLower] and [strings.ToUpper] on ASCII text. *)
Definition ToLower : string → string := string_map lower_ascii.
Definition ToUpper : string → string := string_map upper_ascii.

(** strings.EqualFold and the field matching of encoding/json, on names none of
    whose letters folds to a character outside ASCII. *)
Definition EqualFold (s t : string) : bool := bool_decide (ToLower s = ToLower t).

(** ** Packages path and path/filepath: [Ext] *)
Fixpoint ext_rev (s : string) (acc : string) : string :=
  match s with
  | EmptyString => ""
  | String c s' =>
      if decide (c = "/"%char) then ""
      else if decide (c = "."%char) then String c acc
      else ext_rev s' (String c acc)
  end.
Definition path_ext (name : string) : string := ext_rev (string_rev name) "".

(** Cutting and splitting at a separator. *)
Lemma contains_byte_app c s t : contains_byte c (s +:+ t) = contains_byte c s || contains_byte c t.
Proof.
  induction s as [|d s IH]; [done|]. change (String d s +:+ t) with (String d (s +:+ t)).
  cbn [contains_byte]. by rewrite IH, orb_assoc.
Qed.

Lemma contains_byte_bytes c s :
  contains_byte c s = true ↔ Ascii.byte_of_ascii c ∈ str_bytes s.
Proof.
  induction s as [|d s IH]; cbn.
  - split; [done|]. by intros ?%not_elem_of_nil.
  - rewrite orb_true_iff, bool_decide_eq_true, IH. rewrite elem_of_cons. split; intros [H|H]; auto.
    + left. by subst.
    + left. apply (f_equal Ascii.ascii_of_byte) in H. by rewrite !Ascii.ascii_of_byte_of_ascii in H.
Qed.

Lemma cut_byte_app sep a b :
  contains_byte sep a = false → cut_byte sep (a +:+ String sep b) = Some (a, b).
Proof.
  induction a as [|c a IH]; intros H.
  - change (cut_byte sep (String sep b) = Some ("", b)). cbn. by rewrite decide_True.
  - cbn in H. apply orb_false_iff in H as [H1 H2]. apply bool_decide_eq_false in H1.
    change (cut_byte sep (String c (a +:+ String sep b)) = Some (String c a, b)).
    cbn. rewrite decide_False by done. by rewrite IH.
Qed.

Lemma split_byte_app c s t : split_byte c (s +:+ String c t) = split_byte c s ++ split_byte c t.
Proof.
  induction s as [|d s IH].
  - change ("" +:+ String c t) with (String c t). cbn. by rewrite decide_True.
  - change (String d s +:+ String c t) with (String d (s +:+ String c t)). cbn [split_byte].
    rewrite IH. destruct (decide (d = c)); [done|]. destruct (split_byte c s) eqn:E; [|done].
    exfalso. destruct s as [|x s]; cbn in E; [done|]. destruct (decide (x = c)); [done|].
    by destruct (split_byte c s).
Qed.

Lemma split_byte_plain c s : contains_byte c s = false → split_byte c s = [s].
Proof.
  induction s as [|d s IH]; cbn; [done|]. intros [Hd Hs]%orb_false_iff.
  apply bool_decide_eq_false in Hd. rewrite decide_False by done. by rewrite IH.
Qed.

(** ** encoding/hex *)
Definition hex_digit (n : Z) : Ascii.ascii :=
  if (n <? 10)%Z then Ascii.ascii_of_N (Z.to_N (48 + n))
  else Ascii.ascii_of_N (Z.to_N (87 + n)).

Definition hex_byte (b : byte) : string :=
  String (hex_digit (bz b / 16)) (String (hex_digit (bz b mod 16)) "").

Fixpoint hex_encode (l : bytes) : string :=
  match l with
  | [] => ""
  | b :: l' => hex_byte b +:+ hex_encode l'
  end.

Lemma length_hex_encode l : String.length (hex_encode l) = 2 * length l.
Proof.
  induction l as [|b l IH]; [done|]. cbn [hex_encode length].
  rewrite string_length_app, IH. cbn [hex_byte String.length]. lia.
Qed.

Definition unhex_digit (c : Ascii.ascii) : Z :=
  let n := Z.of_N (Ascii.N_of_ascii c) in if (n <? 58)%Z then n - 48 else n - 87.

Definition unhex_byte (s : string) : byte :=
  match s with
  | String a (String b _) => byte_of_Z (16 * unhex_digit a + unhex_digit b)
  | _ => x00
  end.

Lemma unhex_hex_byte b : unhex_byte (hex_byte b) = b.
Proof. by destruct b. Qed.

Lemma hex_byte_inj a b : hex_byte a = hex_byte b → a = b.
Proof. intros H. rewrite <- (unhex_hex_byte a), <- (unhex_hex_byte b). by rewrite H. Qed.

Lemma hex_encode_inj l1 l2 : hex_encode l1 = hex_encode l2 → l1 = l2.
Proof.
  revert l2; induction l1 as [|a l1 IH]; intros [|b l2]; [done|done|done|].
  intros H. cbn in H. injection H as H1 H2 H3.
  rewrite (IH l2) by done. f_equal. apply hex_byte_inj. unfold hex_byte. by rewrite H1, H2.
Qed.

(** The characters [isHex] of the blob store accepts. *)
Definition is_hex_char (c : Ascii.ascii) : bool :=
  let n := Ascii.N_of_ascii c in
  (bool_decide (48 <= n)%N && bool_decide (n <= 57)%N) ||
  (bool_decide (97 <= n)%N && bool_decide (n <= 102)%N).

Fixpoint string_forallb (p : Ascii.ascii → bool) (s : string) : bool :=
  match s with EmptyString => true | String c s' => p c && string_forallb p s' end.

Lemma string_forallb_app p s t :
  string_forallb p (s +:+ t) = string_forallb p s && string_forallb p t.
Proof.
  induction s as [|c s IH]; [done|].
  change (p c && string_forallb p (s +:+ t) = p c && string_forallb p s && string_forallb p t).
  by rewrite IH, andb_assoc.
Qed.

Lemma hex_encode_is_hex l : string_forallb is_hex_char (hex_encode l) = true.
Proof.
  induction l as [|b l IH]; [done|]. cbn [hex_encode].
  rewrite string_forallb_app, IH. by destruct b.
Qed.

(** ** encoding/base32 and encoding/base64 without padding *)
Definition byte_bits (b : byte) : list bool :=
  (λ i, Z.testbit (bz b) i) <$> [7; 6; 5; 4; 3; 2; 1; 0]%Z.

Definition bits_value (l : list bool) : Z :=
  foldl (λ acc (b : bool), 2 * acc + (if b then 1 else 0))%Z 0%Z l.

Fixpoint groups (fuel k : nat) (l : list bool) : list (list bool) :=
  match fuel, l with
  | S f, _ :: _ => take k (l ++ replicate k false) :: groups f k (drop k l)
  | _, _ => []
  end.

Definition radix_encode (k : nat) (digit : Z → Ascii.ascii) (l : bytes) : string :=
  let bits := concat (byte_bits <$> l) in
  foldr (λ g s, String (digit (bits_value g)) s) "" (groups (length bits) k bits).

Definition base32_digit (n : Z) : Ascii.ascii :=
  Ascii.ascii_of_N (Z.to_N (if (n <? 26)%Z then 65 + n else 24 + n)).

Definition base64url_digit (n : Z) : Ascii.ascii :=
  Ascii.ascii_of_N (Z.to_N
    (if (n <? 26)%Z then 65 + n else if (n <? 52)%Z then 71 + n
     else if (n <? 62)%Z then n - 4 else if (n =? 62)%Z then 45 else 95)).

Definition base32_encode : bytes → string := radix_encode 5 base32_digit.
Definition base64url_encode : bytes → string := radix_encode 6 base64url_digit.

Example base32_foobar : base32_encode (str_bytes "foobar") = "MZXW6YTBOI".
Proof. vm_compute. reflexivity. Qed.

Example base64url_foob : base64url_encode (str_bytes "foob") = "Zm9vYg".
Proof. vm_compute. reflexivity. Qed.

(** ** UTF-8: ranging over a string *)
Definition RuneError : Z := 65533.

Definition cont (lo hi : Z) (b : byte) : bool := ((lo <=? bz b) && (bz b <=? hi))%Z.

(** [utf8.DecodeRuneInString]: the rune and its width; an invalid encoding is
    [(RuneError, 1)]. *)
Definition decode_rune (l : bytes) : Z * nat :=
  match l with
  | [] => (RuneError, 0)
  | b0 :: t =>
      let x := bz b0 in
      if (x <? 128)%Z then (x, 1)
      else if ((194 <=? x) && (x <=? 223))%Z then
        match t with
        | b1 :: _ => if cont 128 191 b1
                     then (((x - 192) * 64 + (bz b1 - 128))%Z, 2) else (RuneError, 1)
        | _ => (RuneError, 1)
        end
      else if ((224 <=? x) && (x <=? 239))%Z then
        let lo := if (x =? 224)%Z then 160%Z else 128%Z in
        let hi := if (x =? 237)%Z then 159%Z else 191%Z in
        match t with
        | b1 :: b2 :: _ =>
            if cont lo hi b1 && cont 128 191 b2
            then ((((x - 224) * 64 + (bz b1 - 128)) * 64 + (bz b2 - 128))%Z, 3)
            else (RuneError, 1)
        | _ => (RuneError, 1)
        end
      else if ((240 <=? x) && (x <=? 244))%Z then
        let lo := if (x =? 240)%Z then 144%Z else 128%Z in
        let hi := if (x =? 244)%Z then 143%Z else 191%Z in
        match t with
        | b1 :: b2 :: b3 :: _ =>
            if cont lo hi b1 && cont 128 191 b2 && cont 128 191 b3
            then (((((x - 240) * 64 + (bz b1 - 128)) * 64 + (bz b2 - 128)) * 64
                  + (bz b3 - 128))%Z, 4)
            else (RuneError, 1)
        | _ => (RuneError, 1)
        end
      else (RuneError, 1)
  end.

Fixpoint runes_fuel (fuel : nat) (l : bytes) : list Z :=
  match fuel, l with
  | S f, _ :: _ => let '(r, n) := decode_rune l in r :: runes_fuel f (drop n l)
  | _, _ => []
  end.

(** The runes [for _, r := range s] visits; every rune is at least one byte
    wide, so [length] steps are enough. *)
Definition runes (s : string) : list Z := runes_fuel (String.length s) (str_bytes s).

(** [utf8.AppendRune] on the runes decoding yields. *)
Definition encode_rune (r : Z) : bytes :=
  if (r <? 128)%Z then [byte_of_Z r]
  else if (r <? 2048)%Z then [byte_of_Z (192 + r / 64); byte_of_Z (128 + r mod 64)]
  else if (r <? 65536)%Z then
    [byte_of_Z (224 + r / 4096); byte_of_Z (128 + r / 64 mod 64); byte_of_Z (128 + r mod 64)]
  else [byte_of_Z (240 + r / 262144); byte_of_Z (128 + r / 4096 mod 64);
        byte_of_Z (128 + r / 64 mod 64); byte_of_Z (128 + r mod 64)].

(** [strings.Map] for a mapping that drops no rune. *)
Definition strings_map (f : Z → Z) (s : string) : string :=
  bytes_str (concat ((λ r, encode_rune (f r)) <$> runes s)).

(** A decoded rune is a byte below 128 or encodes to bytes that are all at
    least 128: separators are never hidden inside a longer encoding. *)
Lemma decode_rune_range l : (0 <= (decode_rune l).1 < 1114112)%Z.
Proof.
  unfold decode_rune, RuneError, cont.
  destruct l as [|b0 [|b1 [|b2 [|b3 t]]]]; cbn [fst];
    repeat match goal with
           | |- context [bz ?b] => pose proof (bz_range b); generalize dependent (bz b); intros
           end;
    repeat case_match; cbn [fst] in *; lia.
Qed.

Lemma high_byte x : (128 <= x < 256)%Z → (128 <= bz (byte_of_Z x))%Z.
Proof. intros H. rewrite bz_byte_of_Z, Z.mod_small; lia. Qed.

Lemma encode_rune_high r b :
  (128 <= r < 1114112)%Z → b ∈ encode_rune r → (128 <= bz b)%Z.
Proof.
  intros Hr.
  assert (∀ x, 128 <= 128 + x mod 64 < 256)%Z as Hm.
  { intros x. pose proof (Z.mod_pos_bound x 64 ltac:(lia)). lia. }
  assert (∀ k d, 0 < d → r < 16 * d → 192 <= k <= 240 → 128 <= k + r / d < 256)%Z as Hd.
  { intros k d Hd Hlt Hk. pose proof (Z.div_pos r d ltac:(lia) Hd).
    pose proof (Z.div_lt_upper_bound r d 16 Hd ltac:(lia)). lia. }
  unfold encode_rune.
  destruct (Z.ltb_spec r 128); [lia|].
  destruct (Z.ltb_spec r 2048).
  { rewrite !elem_of_cons. intros [->|[->|[]%not_elem_of_nil]]; apply high_byte; auto.
    pose proof (Z.div_pos r 64 ltac:(lia) ltac:(lia)).
    pose proof (Z.div_lt_upper_bound r 64 32 ltac:(lia) ltac:(lia)). lia. }
  destruct (Z.ltb_spec r 65536); rewrite !elem_of_cons;
    intros Hb; destruct_or? Hb; subst; try (by apply not_elem_of_nil in Hb);
    apply high_byte; auto; apply Hd; lia.
Qed.

Lemma encode_rune_low r : (0 <= r < 128)%Z → encode_rune r = [byte_of_Z r].
Proof. intros H. unfold encode_rune. by rewrite (proj2 (Z.ltb_lt r 128)) by lia. Qed.
