(* ===== verification/Ids.v ===== *)
(** * Ids: UUIDv7 object identifiers (lib/id/uuid.go)

    [V7 ms rnd] is the identifier [id.V7()] returns when the clock reads [ms]
    milliseconds and [crypto/rand] delivers the ten bytes [rnd]. *)

From S2P Require Import Prelude GoText.

Module Ids.

(** [format]: canonical 8-4-4-4-12 form. *)
Definition format (u : bytes) : string :=
  hex_encode (take 4 u) +:+ "-" +:+
  hex_encode (take 2 (drop 4 u)) +:+ "-" +:+
  hex_encode (take 2 (drop 6 u)) +:+ "-" +:+
  hex_encode (take 2 (drop 8 u)) +:+ "-" +:+
  hex_encode (take 6 (drop 10 u)).

(** Bytes 0-5: [byte(ms>>40), ..., byte(ms)]. *)
Definition ms_bytes (ms : Z) : bytes :=
  let ms := (ms mod 2 ^ 64)%Z in
  (λ k, byte_of_Z (Z.shiftr ms k)) <$> [40; 32; 24; 16; 8; 0]%Z.

(** [u[6] = (u[6] & 0x0f) | 0x70] and [u[8] = (u[8] & 0x3f) | 0x80], as
    positions 0 and 2 of the random tail. *)
Definition set_version_variant (rnd : bytes) : bytes :=
  let put i lo hi (l : bytes) :=
    alter (λ b, byte_of_Z (Z.lor (Z.land (bz b) lo) hi)) i l in
  put 2 63%Z 128%Z (put 0 15%Z 112%Z rnd).

Definition V7_bytes (ms : Z) (rnd : bytes) : bytes :=
  ms_bytes ms ++ set_version_variant rnd.

Definition V7 (ms : Z) (rnd : bytes) : string := format (V7_bytes ms rnd).

(** ** Shape *)
Lemma length_ms_bytes ms : length (ms_bytes ms) = 6.
Proof. reflexivity. Qed.

Lemma length_set_version_variant rnd : length (set_version_variant rnd) = length rnd.
Proof. unfold set_version_variant. by rewrite !length_alter. Qed.

Lemma length_V7_bytes ms rnd : length rnd = 10 → length (V7_bytes ms rnd) = 16.
Proof. intros H. unfold V7_bytes. by rewrite length_app, length_set_version_variant, H. Qed.

Lemma length_format u : length u = 16 → String.length (format u) = 36.
Proof.
  intros H. unfold format. rewrite !string_length_app, !length_hex_encode.
  rewrite !length_take, !length_drop, H. reflexivity.
Qed.

(** Byte-level inverse of [format], used for injectivity. *)
Lemma string_app_inj_length (s1 s2 t1 t2 : string) :
  String.length s1 = String.length s2 → s1 +:+ t1 = s2 +:+ t2 → s1 = s2 ∧ t1 = t2.
Proof.
  intros Hl Heq. assert (str_bytes (s1 +:+ t1) = str_bytes (s2 +:+ t2)) as H by congruence.
  rewrite !str_bytes_app in H. apply app_inj_1 in H as [H1 H2].
  - split; by apply str_bytes_inj.
  - by rewrite !length_str_bytes.
Qed.

Lemma string_app_inj_tail s t u : s +:+ u = t +:+ u → s = t.
Proof.
  intros H. assert (String.length s = String.length t) as Hl.
  { apply (f_equal String.length) in H. rewrite !string_length_app in H. lia. }
  by apply (string_app_inj_length s t u u) in H as [? _].
Qed.

Lemma format_inj u v : length u = 16 → length v = 16 → format u = format v → u = v.
Proof.
  intros Hu Hv. unfold format. intros H.
  repeat (apply string_app_inj_length in H as [? H];
    [|rewrite ?length_hex_encode, ?length_take, ?length_drop; rewrite ?Hu, ?Hv; reflexivity]).
  repeat match goal with E : hex_encode _ = hex_encode _ |- _ => apply hex_encode_inj in E end.
  do 16 (destruct u as [|? u]; [done|]). destruct u; [|done].
  do 16 (destruct v as [|? v]; [done|]). destruct v; [|done].
  simpl in *. simplify_eq. done.
Qed.

(** ** Lexical order *)
Lemma compare_app_same p s t : String.compare (p +:+ s) (p +:+ t) = String.compare s t.
Proof.
  induction p as [|c p IH]; [done|].
  change (match Ascii.compare c c with Eq => String.compare (p +:+ s) (p +:+ t) | o => o end
          = String.compare s t).
  unfold Ascii.compare. by rewrite N.compare_refl.
Qed.

Lemma hex_digit_lt a b :
  (0 <= a)%Z → (a < b)%Z → (b < 16)%Z → Ascii.compare (hex_digit a) (hex_digit b) = Lt.
Proof.
  intros Ha Hab Hb. unfold Ascii.compare. rewrite N.compare_lt_iff. unfold hex_digit.
  destruct (Z.ltb_spec a 10), (Z.ltb_spec b 10);
    rewrite !Ascii.N_ascii_embedding by lia; lia.
Qed.

Lemma compare_hex_lt (a b : byte) (s t : string) :
  (bz a < bz b)%Z → String.compare (hex_byte a +:+ s) (hex_byte b +:+ t) = Lt.
Proof.
  intros H. pose proof (bz_range a). pose proof (bz_range b).
  change (match Ascii.compare (hex_digit (bz a / 16)) (hex_digit (bz b / 16)) with
          | Eq => match Ascii.compare (hex_digit (bz a mod 16)) (hex_digit (bz b mod 16)) with
                  | Eq => String.compare s t | o => o end
          | o => o end = Lt).
  pose proof (Z.div_pos (bz a) 16 ltac:(lia) ltac:(lia)).
  pose proof (Z.div_lt_upper_bound (bz b) 16 16 ltac:(lia) ltac:(lia)).
  pose proof (Z.mod_pos_bound (bz a) 16 ltac:(lia)).
  pose proof (Z.mod_pos_bound (bz b) 16 ltac:(lia)).
  pose proof (Z.div_mod (bz a) 16 ltac:(lia)). pose proof (Z.div_mod (bz b) 16 ltac:(lia)).
  destruct (Z.eq_dec (bz a / 16)%Z (bz b / 16)%Z) as [E|NE].
  - rewrite E. unfold Ascii.compare at 1. rewrite N.compare_refl.
    by rewrite hex_digit_lt by lia.
  - by rewrite hex_digit_lt by lia.
Qed.

Lemma compare_hex_bytes (l1 l2 : bytes) (s t : string) :
  length l1 = length l2 →
  (∃ i a b, take i l1 = take i l2 ∧ l1 !! i = Some a ∧ l2 !! i = Some b ∧ (bz a < bz b)%Z) →
  String.compare (hex_encode l1 +:+ s) (hex_encode l2 +:+ t) = Lt.
Proof.
  intros Hlen (i & a & b & Ht & Ha & Hb & Hlt).
  rewrite <- (take_drop_middle l1 i a Ha), <- (take_drop_middle l2 i b Hb), Ht.
  assert (∀ p q, hex_encode (p ++ q) = hex_encode p +:+ hex_encode q) as Happ.
  { induction p as [|c p IH]; intros q; [done|]. cbn [app hex_encode].
    by rewrite IH, string_app_assoc. }
  rewrite !Happ, !string_app_assoc, compare_app_same. cbn [hex_encode].
  rewrite !string_app_assoc. by apply compare_hex_lt.
Qed.

Lemma ms_bytes_digits ms :
  (0 <= ms < 2 ^ 48)%Z →
  ∃ b0 b1 b2 b3 b4 b5, ms_bytes ms = [b0; b1; b2; b3; b4; b5] ∧
    (ms = ((((bz b0 * 256 + bz b1) * 256 + bz b2) * 256 + bz b3) * 256 + bz b4) * 256 + bz b5)%Z.
Proof.
  intros H. unfold ms_bytes. rewrite Z.mod_small by lia.
  do 6 eexists. split; [reflexivity|].
  rewrite !bz_byte_of_Z, !Z.shiftr_div_pow2 by lia.
  change (2 ^ 40)%Z with 1099511627776%Z. change (2 ^ 32)%Z with 4294967296%Z.
  change (2 ^ 24)%Z with 16777216%Z. change (2 ^ 16)%Z with 65536%Z.
  change (2 ^ 8)%Z with 256%Z. change (2 ^ 0)%Z with 1%Z.
  change (2 ^ 48)%Z with 281474976710656%Z in H.
  Z.to_euclidean_division_equations. lia.
Qed.

(** Identifiers minted in a later millisecond sort after earlier ones. *)
Lemma V7_compare ms1 ms2 r1 r2 :
  (0 <= ms1)%Z → (ms1 < ms2)%Z → (ms2 < 2 ^ 48)%Z →
  String.compare (V7 ms1 r1) (V7 ms2 r2) = Lt.
Proof.
  intros H1 H12 H2.
  destruct (ms_bytes_digits ms1) as (a0&a1&a2&a3&a4&a5&E1&V1); [lia|].
  destruct (ms_bytes_digits ms2) as (b0&b1&b2&b3&b4&b5&E2&V2); [lia|].
  unfold V7, V7_bytes, format. rewrite E1, E2. cbn [app take drop].
  pose proof (bz_range a0); pose proof (bz_range a1); pose proof (bz_range a2);
  pose proof (bz_range a3); pose proof (bz_range a4); pose proof (bz_range a5);
  pose proof (bz_range b0); pose proof (bz_range b1); pose proof (bz_range b2);
  pose proof (bz_range b3); pose proof (bz_range b4); pose proof (bz_range b5).
  assert (∀ x y : byte, x ≠ y → bz x ≠ bz y) as Hne by (intros x y ? ?%bz_inj; done).
  destruct (decide (a0 = b0)) as [->|N0%Hne];
    [|apply compare_hex_bytes; [done|]; exists 0, a0, b0; repeat split; simpl; lia].
  destruct (decide (a1 = b1)) as [->|N1%Hne];
    [|apply compare_hex_bytes; [done|]; exists 1, a1, b1; repeat split; simpl; lia].
  destruct (decide (a2 = b2)) as [->|N2%Hne];
    [|apply compare_hex_bytes; [done|]; exists 2, a2, b2; repeat split; simpl; lia].
  destruct (decide (a3 = b3)) as [->|N3%Hne];
    [|apply compare_hex_bytes; [done|]; exists 3, a3, b3; repeat split; simpl; lia].
  rewrite compare_app_same, compare_app_same.
  destruct (decide (a4 = b4)) as [->|N4%Hne];
    [|apply compare_hex_bytes; [done|]; exists 0, a4, b4; repeat split; simpl; lia].
  apply compare_hex_bytes; [done|]; exists 1, a5, b5; repeat split; simpl; lia.
Qed.

(** ** Claims *)

(** an identifier has 36 characters, its version nibble is 7 and its
    variant bits are 10 (RFC 9562), whatever the clock and the random bytes. *)
Theorem V7_shape ms rnd :
  length rnd = 10 →
  String.length (V7 ms rnd) = 36 ∧
  (∃ b, V7_bytes ms rnd !! 6 = Some b ∧ (bz b / 16 = 7)%Z) ∧
  (∃ b, V7_bytes ms rnd !! 8 = Some b ∧ (bz b / 64 = 2)%Z).
Proof.
  intros H. split; [by apply length_format, length_V7_bytes|].
  do 10 (destruct rnd as [|? rnd]; [done|]).
  split; (eexists; split; [reflexivity|]).
  - by destruct b.
  - by destruct b1.
Qed.

Lemma V7_shape_witness :
  String.length (V7 1751900000000 (replicate 10 xff)) = 36 ∧
  (∃ b, V7_bytes 1751900000000 (replicate 10 xff) !! 6 = Some b ∧ (bz b / 16 = 7)%Z) ∧
  (∃ b, V7_bytes 1751900000000 (replicate 10 xff) !! 8 = Some b ∧ (bz b / 64 = 2)%Z).
Proof. apply (V7_shape 1751900000000 (replicate 10 xff)). reflexivity. Defined.

(** the lexical order of identifiers is the order of the milliseconds they
    were minted in, for every clock value that fits the 48-bit timestamp. *)
Theorem V7_ordered ms1 ms2 r1 r2 :
  (0 <= ms1)%Z → (ms1 < ms2)%Z → (ms2 < 2 ^ 48)%Z →
  String.ltb (V7 ms1 r1) (V7 ms2 r2) = true.
Proof. intros. unfold String.ltb. by rewrite V7_compare. Qed.

Lemma V7_ordered_witness :
  String.ltb (V7 255 (replicate 10 xff)) (V7 256 (replicate 10 x00)) = true.
Proof. apply (V7_ordered 255 256); lia. Defined.

End Ids.
