(* ===== verification/World.v ===== *)
(** * World: what an application process talks to, and its transactions

    The world of a Peristera app: its database [D], the blob directory, the
    tenant's OpenFGA tuples, the clock and the randomness already drawn.  Every
    call that leaves the process can fail, and the script [w_faults] says how:
    each call consumes one entry.  [FFail] is a call that did nothing and
    returned an error, [FLost] a call that took effect although its answer was
    lost; theorems quantify over every script.

    [InTx] is lib/dbtx/dbtx.go. *)

From S2P Require Import Prelude GoText Ids.

(** An OpenFGA tuple key: user, relation, object. *)
Abbreviation fga_tuple := (string * string * string)%type.

Inductive fault := FOk | FFail | FLost.

Record world (D : Type) := World {
  w_db : D;
  w_blobs : gmap string bytes;
  w_fga : gset fga_tuple;
  w_now : Z;              (* nanoseconds *)
  w_draws : nat;          (* calls to crypto/rand so far *)
  w_faults : list fault;
}.
Arguments World {D}.
Arguments w_db {D}.
Arguments w_blobs {D}.
Arguments w_fga {D}.
Arguments w_now {D}.
Arguments w_draws {D}.
Arguments w_faults {D}.

Definition set_db {D : Type} (d : D) (w : world D) : world D :=
  World d (w_blobs w) (w_fga w) (w_now w) (w_draws w) (w_faults w).
Definition set_blobs {D : Type} (b : gmap string bytes) (w : world D) : world D :=
  World (w_db w) b (w_fga w) (w_now w) (w_draws w) (w_faults w).
Definition set_fga {D : Type} (t : gset fga_tuple) (w : world D) : world D :=
  World (w_db w) (w_blobs w) t (w_now w) (w_draws w) (w_faults w).

(** [crypto/rand]: [rand_bytes n k] is what the [n]-th read of [k] bytes yields. *)
Class Platform := {
  rand_bytes : nat → nat → bytes;
  rand_length : ∀ n k, length (rand_bytes n k) = k;
}.

(** The stores a rollback does not touch. *)
Definition w_rest {D : Type} (w : world D) : gmap string bytes * gset fga_tuple :=
  (w_blobs w, w_fga w).

(** [I] looks at the stores only: not at the clock, the randomness or the
    faults still to come. *)
Definition stores_only {D : Type} (I : world D → Prop) : Prop :=
  ∀ w w', w_db w = w_db w' → w_rest w = w_rest w' → I w → I w'.

Section world.
Context {D : Type}.
Abbreviation W := (world D).

Definition next_fault : M W fault := λ w,
  match w_faults w with
  | [] => (Ok FOk, w)
  | f :: fs => (Ok f, World (w_db w) (w_blobs w) (w_fga w) (w_now w) (w_draws w) fs)
  end.

(** A call to another process. *)
Definition call {A} (m : M W A) : M W A :=
  f ← next_fault;
  match f with
  | FOk => m
  | FFail => throw ErrExternal
  | FLost => ignore m ;; throw ErrExternal
  end.

(** One SQL statement: atomic, and without effect when it fails. *)
Definition stmt {A} (f : D → res (A * D)) : M W A :=
  call (λ w, match f (w_db w) with
             | Ok (a, d) => (Ok a, set_db d w)
             | Err e => (Err e, w)
             end).

(** A query. *)
Definition query {A} (f : D → A) : M W A := stmt (λ d, Ok (f d, d)).

Definition draw {P : Platform} (k : nat) : M W bytes := λ w,
  (Ok (rand_bytes (w_draws w) k),
   World (w_db w) (w_blobs w) (w_fga w) (w_now w) (S (w_draws w)) (w_faults w)).

Definition now : M W Z := gets w_now.

(** [id.V7()]. *)
Definition new_id {P : Platform} : M W string :=
  t ← now; r ← draw 10; mret (Ids.V7 (t / 1000000) r).

(** dbtx.InTx: begin, run [fn], commit; any error rolls the database back.
    A commit whose answer is lost did commit. *)
Definition InTx {A} (fn : M W A) : M W A :=
  call (mret tt) ;;
  snap ← gets w_db;
  r ← attempt fn;
  match r with
  | Err e => modify (set_db snap) ;; throw e
  | Ok a =>
      f ← next_fault;
      match f with
      | FOk => mret a
      | FFail => modify (set_db snap) ;; throw (ErrWrap "dbtx: commit" ErrExternal)
      | FLost => throw (ErrWrap "dbtx: commit" ErrExternal)
      end
  end.

(** ** Lemmas *)
Implicit Types (w : W) (I : W → Prop).

Lemma set_db_id w : set_db (w_db w) w = w.
Proof. by destruct w. Qed.

Lemma next_fault_stores w : ∃ f w', next_fault w = (Ok f, w') ∧
  w_db w' = w_db w ∧ w_rest w' = w_rest w ∧ w_now w' = w_now w ∧ w_draws w' = w_draws w.
Proof. unfold next_fault. destruct (w_faults w); naive_solver. Qed.

Lemma keeps_next_fault I : stores_only I → keeps I next_fault.
Proof.
  intros HI w Hw. destruct (next_fault_stores w) as (f&w'&E&Hd&Hr&_). rewrite E.
  by apply (HI w).
Qed.

Lemma keeps_call {A} I (m : M W A) : stores_only I → keeps I m → keeps I (call m).
Proof.
  intros HI Hm. apply keeps_bind; [by apply keeps_next_fault|].
  intros []; [done|apply keeps_throw|].
  apply keeps_bind; [by apply keeps_ignore|intros; apply keeps_throw].
Qed.

Lemma keeps_draw {P : Platform} I k : stores_only I → keeps I (draw k).
Proof. intros HI w Hw. by apply (HI w). Qed.

Lemma keeps_new_id {P : Platform} I : stores_only I → keeps I new_id.
Proof.
  intros HI. apply keeps_bind; [apply keeps_gets|intros t].
  apply keeps_bind; [by apply keeps_draw|intros; apply keeps_ret].
Qed.

Lemma keeps_stmt {A} I (f : D → res (A * D)) :
  stores_only I →
  (∀ w a d, I w → f (w_db w) = Ok (a, d) → I (set_db d w)) →
  keeps I (stmt f).
Proof.
  intros HI H. apply keeps_call; [done|]. intros w Hw.
  destruct (f (w_db w)) as [[a d]|e] eqn:E; simpl; eauto.
Qed.

Lemma keeps_query {A} I (f : D → A) : stores_only I → keeps I (query f).
Proof.
  intros HI. apply keeps_stmt; [done|]. intros w a d Hw [= <- <-]. by rewrite set_db_id.
Qed.

(** A call whose body cannot fail in a fault-free world. *)
Lemma run_call_nil {A} (m : M W A) w : w_faults w = [] → call m w = m w.
Proof. intros H. unfold call. rewrite run_bind. unfold next_fault. by rewrite H. Qed.

Lemma run_stmt_nil {A} (f : D → res (A * D)) w a d :
  w_faults w = [] → f (w_db w) = Ok (a, d) → stmt f w = (Ok a, set_db d w).
Proof. intros H E. unfold stmt. rewrite run_call_nil by done. by rewrite E. Qed.

Lemma run_query_nil {A} (f : D → A) w :
  w_faults w = [] → query f w = (Ok (f (w_db w)), w).
Proof.
  intros H. unfold query. rewrite (run_stmt_nil _ _ (f (w_db w)) (w_db w)) by done.
  by rewrite set_db_id.
Qed.

Lemma run_InTx_nil {A} (fn : M W A) w a w' :
  w_faults w = [] → fn w = (Ok a, w') → w_faults w' = [] → InTx fn w = (Ok a, w').
Proof.
  intros H E H'. unfold InTx. rewrite run_bind, run_call_nil by done. cbn.
  rewrite run_bind. cbn. rewrite run_bind. unfold attempt. rewrite E.
  rewrite run_bind. unfold next_fault. by rewrite H'.
Qed.

Lemma run_InTx_err {A} (fn : M W A) w e w' :
  w_faults w = [] → fn w = (Err e, w') → InTx fn w = (Err e, set_db (w_db w) w').
Proof.
  intros H E. unfold InTx. rewrite run_bind, run_call_nil by done. cbn.
  rewrite run_bind. cbn. rewrite run_bind. unfold attempt. by rewrite E.
Qed.

(** Outcomes of a call. *)
Lemma call_cases {A} (m : M W A) w r w' :
  call m w = (r, w') →
  ∃ w0, w_db w0 = w_db w ∧ w_rest w0 = w_rest w ∧ w_now w0 = w_now w ∧ w_draws w0 = w_draws w ∧
    (m w0 = (r, w') ∨ (r = Err ErrExternal ∧ (w' = w0 ∨ w' = (m w0).2))).
Proof.
  unfold call. rewrite run_bind. destruct (next_fault_stores w) as (f&w0&E&Hd&Hr&Hn&Hdr).
  rewrite E. intros H. exists w0. do 4 (split; [done|]). destruct f; [by left| |].
  - injection H as <- <-. auto.
  - unfold ignore in H. rewrite run_bind in H. injection H as <- <-. auto.
Qed.

(** Outcomes of a statement. *)
Lemma stmt_cases {A} (f : D → res (A * D)) w r w' :
  stmt f w = (r, w') →
  w_rest w' = w_rest w ∧ w_now w' = w_now w ∧ w_draws w' = w_draws w ∧
  ((∃ e, r = Err e ∧ w_db w' = w_db w ∧ (e = ErrExternal ∨ f (w_db w) = Err e)) ∨
   (∃ a d, f (w_db w) = Ok (a, d) ∧ w_db w' = d ∧ (r = Ok a ∨ r = Err ErrExternal))).
Proof.
  unfold stmt, call. rewrite run_bind.
  destruct (next_fault_stores w) as (fl&w0&E&Hd&Hr&Hn&Hdr). rewrite E.
  destruct fl; [cbn|cbn|rewrite run_bind; unfold ignore].
  - rewrite Hd. destruct (f (w_db w)) as [[a d]|e] eqn:Ef; intros [= <- <-].
    + repeat split; try done. right. exists a, d. auto.
    + repeat split; try done. left. exists e. auto.
  - intros [= <- <-]. repeat split; try done. left. exists ErrExternal. auto.
  - rewrite Hd. destruct (f (w_db w)) as [[a d]|e] eqn:Ef; intros [= <- <-].
    + repeat split; try done. right. exists a, d. auto.
    + repeat split; try done. left. exists ErrExternal. auto.
Qed.

Lemma query_cases {A} (f : D → A) w r w' :
  query f w = (r, w') →
  w_db w' = w_db w ∧ w_rest w' = w_rest w ∧ w_now w' = w_now w ∧ w_draws w' = w_draws w ∧
  (r = Ok (f (w_db w)) ∨ r = Err ErrExternal).
Proof.
  intros (Hr&Hn&Hdr&H)%stmt_cases.
  destruct H as [(e&->&Hd&[->|[=]])|(a&d&[= <- <-]&Hd&Hres)]; repeat split; auto.
Qed.

Lemma stmt_frames_rest {A} (f : D → res (A * D)) : frames w_rest (stmt f).
Proof. intros w. destruct (stmt f w) as [r w'] eqn:E. by apply stmt_cases in E as [? _]. Qed.

(** Outcomes of a transaction: either it failed and the database is the one
    it started from, or the body succeeded and its database is committed
    (the caller may still see a commit error when the answer was lost). *)
Lemma InTx_cases {A} (fn : M W A) w :
  ∃ w0, w_db w0 = w_db w ∧ w_rest w0 = w_rest w ∧ w_now w0 = w_now w ∧
    w_draws w0 = w_draws w ∧
    let '(r, w1) := fn w0 in let '(r', w') := InTx fn w in
    (w_db w' = w_db w ∧ is_ok r' = false ∧
       (w_rest w' = w_rest w ∨ w_rest w' = w_rest w1)) ∨
    (∃ a, r = Ok a ∧ w_db w' = w_db w1 ∧ w_rest w' = w_rest w1 ∧ w_now w' = w_now w1 ∧
          w_draws w' = w_draws w1 ∧
          (r' = Ok a ∨ r' = Err (ErrWrap "dbtx: commit" ErrExternal))).
Proof.
  destruct (next_fault_stores w) as (f&w0&E&Hd&Hr&Hn&Hdr).
  exists w0. do 4 (split; [done|]).
  destruct (fn w0) as [r w1] eqn:Efn.
  unfold InTx. rewrite run_bind. unfold call at 1. rewrite run_bind, E.
  destruct f; cbn.
  - rewrite run_bind. cbn. rewrite run_bind. unfold attempt. rewrite Efn.
    destruct r as [a|e]; cbn.
    + rewrite run_bind. destruct (next_fault_stores w1) as (f&w2&E2&Hd2&Hr2&Hn2&Hdr2).
      rewrite E2. destruct f; cbn.
      * right. exists a. repeat split; try congruence; auto.
      * left. split; [done|]. split; [done|]. right. done.
      * right. exists a. repeat split; try congruence; auto.
    + left. split; [done|]. split; [done|]. right. done.
  - left. split; [done|]. split; [done|by left].
  - left. split; [done|]. split; [done|by left].
Qed.

(** The transaction rule: the body may break [I] on the way, and only its
    successful outcome has to restore it. *)
Lemma keeps_InTx {A} I (fn : M W A) :
  stores_only I → frames w_rest fn →
  triple I fn (λ r w, is_ok r = true → I w) →
  keeps I (InTx fn).
Proof.
  intros HI Hf Hfn w Hw.
  destruct (InTx_cases fn w) as (w0&Hd&Hr&_&_&H).
  assert (I w0) as Hw0 by (by apply (HI w)).
  specialize (Hfn w0 Hw0). specialize (Hf w0).
  destruct (fn w0) as [r w1], (InTx fn w) as [r' w']. simpl in *.
  destruct H as [(Hd'&_&Hr')|(a&->&Hd'&Hr'&_)].
  - apply (HI w); [done| |done]. destruct Hr'; congruence.
  - apply (HI w1); [done|done|]. by apply Hfn.
Qed.

(** ** What the body of a transaction establishes when it succeeds

    A failing body is rolled back, so only its successful outcome matters;
    either way it leaves the stores outside the database alone. *)
Definition txspec {A} (Q : D → Prop) (m : M W A) (R : A → D → Prop) : Prop :=
  ∀ w, Q (w_db w) → w_rest (m w).2 = w_rest w ∧
       ∀ a, (m w).1 = Ok a → R a (w_db (m w).2).

Lemma txspec_weaken {A} (Q Q' : D → Prop) (m : M W A) (R R' : A → D → Prop) :
  txspec Q m R → (∀ d, Q' d → Q d) → (∀ a d, R a d → R' a d) → txspec Q' m R'.
Proof. intros H HQ HR w Hw. destruct (H w (HQ _ Hw)) as [H1 H2]. eauto. Qed.

Lemma txspec_ret {A} (Q : D → Prop) (a : A) : txspec Q (mret a) (λ b d, b = a ∧ Q d).
Proof. intros w Hw. split; [done|]. by intros b [= <-]. Qed.

Lemma txspec_throw {A} (Q : D → Prop) e (R : A → D → Prop) : txspec Q (throw e) R.
Proof. intros w Hw. done. Qed.

Lemma txspec_lift {A} (Q : D → Prop) (r : res A) :
  txspec Q (lift r) (λ a d, r = Ok a ∧ Q d).
Proof. intros w Hw. done. Qed.

Lemma txspec_bind {A B} (Q : D → Prop) (m : M W A) (k : A → M W B)
    (R : A → D → Prop) (S : B → D → Prop) :
  txspec Q m R → (∀ a, txspec (R a) (k a) S) → txspec Q (m ≫= k) S.
Proof.
  intros Hm Hk w Hw. destruct (Hm w Hw) as [H1 H2]. rewrite run_bind.
  destruct (m w) as [[a|e] w1]; cbn in *; [|done].
  destruct (Hk a w1 (H2 a eq_refl)) as [H3 H4]. split; [congruence|done].
Qed.

Lemma txspec_stmt {A} (Q : D → Prop) (f : D → res (A * D)) (R : A → D → Prop) :
  (∀ d a d', Q d → f d = Ok (a, d') → R a d') → txspec Q (stmt f) R.
Proof.
  intros H w Hw. destruct (stmt f w) as [r w'] eqn:E. apply stmt_cases in E as (Hr&_&_&E).
  split; [done|]. intros a. cbn. intros ->.
  destruct E as [(e&[=]&_)|(a'&d&Hf&Hd&[[= <-]|[=]])]. rewrite Hd. eauto.
Qed.

Lemma txspec_query {A} (Q : D → Prop) (f : D → A) :
  txspec Q (query f) (λ a d, a = f d ∧ Q d).
Proof. apply txspec_stmt. by intros d a d' HQ [= <- <-]. Qed.

Lemma txspec_keeps {A} (Q : D → Prop) (m : M W A) :
  (∀ rest, keeps (λ w, Q (w_db w) ∧ w_rest w = rest) m) → txspec Q m (λ _, Q).
Proof.
  intros H w Hw. destruct (H (w_rest w) w (conj Hw eq_refl)) as [H1 H2]. done.
Qed.

Lemma txspec_attempt {A} (Q : D → Prop) (m : M W A) (R : A → D → Prop) :
  txspec Q m R → txspec Q (attempt m) (λ r d, ∀ a, r = Ok a → R a d).
Proof.
  intros H w Hw. destruct (H w Hw) as [H1 H2]. unfold attempt.
  destruct (m w) as [r w1]; cbn in *. split; [done|]. intros a [= <-]. done.
Qed.

Lemma txspec_pure {A} (Q : D → Prop) (φ : Prop) (m : M W A) (R : A → D → Prop) :
  (∀ d, Q d → φ) → (φ → txspec Q m R) → txspec Q m R.
Proof. intros H1 H2 w Hw. apply H2; eauto. Qed.

(** A loop with an invariant on the elements done so far. *)
Lemma txspec_for_each {A} (l : list A) (f : A → M W unit) (I : list A → D → Prop) :
  (∀ done x rest, l = done ++ x :: rest → txspec (I done) (f x) (λ _, I (done ++ [x]))) →
  txspec (I []) (for_each l f) (λ _, I l).
Proof.
  intros H. cut (∀ rest done, l = done ++ rest → txspec (I done) (for_each rest f) (λ _, I l)).
  { intros Hc. by apply Hc. }
  induction rest as [|x rest IH]; intros dn Hl; cbn [for_each].
  - rewrite app_nil_r in Hl. subst dn. eapply txspec_weaken; [apply (txspec_ret (I l) tt)|done|].
    by intros a d [_ ?].
  - eapply txspec_bind; [by eapply H|]. intros a. apply IH. by rewrite <- app_assoc.
Qed.

(** Outcomes of a transaction in terms of what its body establishes. *)
Lemma InTx_txspec {A} (Q : D → Prop) (fn : M W A) (R : A → D → Prop) w r w' :
  txspec Q fn R → Q (w_db w) → InTx fn w = (r, w') →
  w_rest w' = w_rest w ∧
  ((w_db w' = w_db w ∧ is_ok r = false) ∨
   (∃ a, R a (w_db w') ∧ (r = Ok a ∨ r = Err (ErrWrap "dbtx: commit" ErrExternal)))).
Proof.
  intros Hfn HQ E. destruct (InTx_cases fn w) as (w0&Hd&Hr&_&_&H).
  rewrite <- Hd in HQ. destruct (Hfn w0 HQ) as [H1 H2].
  destruct (fn w0) as [r1 w1]. rewrite E in H. cbn in *.
  destruct H as [(Hd'&Hok&Hr')|(a&->&Hd'&Hr'&_&_&Hres)].
  - split; [|by left]. destruct Hr'; congruence.
  - split; [congruence|]. right. exists a. rewrite Hd'. split; [by apply H2|].
    done.
Qed.
End world.

#[export] Hint Resolve keeps_query keeps_new_id keeps_draw keeps_next_fault : go.

(** A concrete platform, for evaluating the definitions: the [n]-th read
    yields copies of byte [n mod 256]. *)
Definition counting_platform : Platform.
Proof.
  refine {| rand_bytes := λ n k, replicate k (byte_of_Z (Z.of_nat n)) |}.
  intros n k. apply length_replicate.
Defined.

(** The world at boot: empty stores, no faults scheduled. *)
Definition boot {D} (d : D) : world D := World d ∅ ∅ 0 0 [].
