(* ===== verification/Pii.v ===== *)
(** * Pii: the personal-data contract (lib/pii)

    [Subject] is subject.go, [RetentionClass] retention.go, [Registry]
    registry.go.  A Go panic is an [Err] outcome. *)

From S2P Require Import Prelude GoText World.

Module Pii.

(** ** Subjects *)
Record Subject := MkSubject { Instance : string; UserID : string }.

#[global] Instance Subject_eq_dec : EqDecision Subject.
Proof. solve_decision. Defined.

#[global] Instance Subject_countable : Countable Subject.
Proof.
  refine (inj_countable' (λ s, (Instance s, UserID s)) (λ p, MkSubject p.1 p.2) _).
  by intros [].
Defined.

(** Subject.String *)
Definition subject_string (s : Subject) : string := Instance s +:+ "/" +:+ UserID s.

(** Subject.OpenFGAObject *)
Definition OpenFGAObject (s : Subject) : string := "user:" +:+ subject_string s.

(** Subject.Zero *)
Definition Zero (s : Subject) : bool :=
  bool_decide (Instance s = "") && bool_decide (UserID s = "").

Definition ParseSubject (s : string) : res Subject :=
  match cut_byte "/"%char s with
  | Some (instance, userID) =>
      if bool_decide (instance = "") || bool_decide (userID = "")
      then Err (ErrText "pii: not a canonical subject")
      else Ok (MkSubject instance userID)
  | None => Err (ErrText "pii: not a canonical subject")
  end.

Lemma cut_byte_Some sep s a b :
  cut_byte sep s = Some (a, b) → s = a +:+ String sep b ∧ contains_byte sep a = false.
Proof.
  revert a b; induction s as [|c s IH]; intros a b; cbn; [done|].
  destruct (decide (c = sep)) as [->|Hne].
  - intros [= <- <-]. done.
  - destruct (cut_byte sep s) as [[a' b']|]; [|done]. intros [= <- <-].
    destruct (IH a' b' eq_refl) as [-> Hc]. split; [done|].
    cbn. rewrite Hc, bool_decide_eq_false_2 by done. done.
Qed.

Lemma subject_string_cons s :
  subject_string s = Instance s +:+ String "/"%char (UserID s).
Proof. reflexivity. Qed.

(** printing then parsing a subject gives it back when its instance holds
    no slash and both parts are non-empty, which the IdP guarantees. *)
Theorem ParseSubject_String s :
  contains_byte "/"%char (Instance s) = false → Instance s ≠ "" → UserID s ≠ "" →
  ParseSubject (subject_string s) = Ok s.
Proof.
  intros Hc Hi Hu. unfold ParseSubject. rewrite subject_string_cons.
  rewrite (cut_byte_app "/"%char (Instance s) (UserID s)) by done.
  rewrite !bool_decide_eq_false_2 by done. by destruct s.
Qed.

Lemma ParseSubject_String_witness :
  ParseSubject (subject_string (MkSubject "demo.sslip.io" "27/89")) =
    Ok (MkSubject "demo.sslip.io" "27/89").
Proof. apply (ParseSubject_String (MkSubject "demo.sslip.io" "27/89")); done. Defined.

(** whatever [ParseSubject] accepts prints back to the same text, and has
    the shape the round trip needs. *)
Theorem ParseSubject_sound s x :
  ParseSubject s = Ok x →
  subject_string x = s ∧ contains_byte "/"%char (Instance x) = false ∧
  Instance x ≠ "" ∧ UserID x ≠ "".
Proof.
  unfold ParseSubject. destruct (cut_byte "/"%char s) as [[i u]|] eqn:E; [|done].
  apply cut_byte_Some in E as [-> Hc].
  destruct (bool_decide (i = "")) eqn:Ei; [done|]. destruct (bool_decide (u = "")) eqn:Eu; [done|].
  intros [= <-]. apply bool_decide_eq_false in Ei, Eu. done.
Qed.

Lemma ParseSubject_sound_witness :
  subject_string (MkSubject "a.b" "c/d") = "a.b/c/d" ∧
  contains_byte "/"%char "a.b" = false ∧ "a.b" ≠ "" ∧ "c/d" ≠ "".
Proof. apply (ParseSubject_sound "a.b/c/d" (MkSubject "a.b" "c/d")). reflexivity. Defined.

Lemma subject_string_inj s t :
  contains_byte "/"%char (Instance s) = false → contains_byte "/"%char (Instance t) = false →
  subject_string s = subject_string t → s = t.
Proof.
  intros Hs Ht H. rewrite !subject_string_cons in H.
  pose proof (cut_byte_app "/"%char (Instance s) (UserID s) Hs) as E1.
  pose proof (cut_byte_app "/"%char (Instance t) (UserID t) Ht) as E2.
  rewrite H, E2 in E1. destruct s, t. simpl in *. congruence.
Qed.

(** ** Retention *)
Record RetentionClass := MkRetention { rc_Name : string; rc_Min : Z; rc_LegalBasis : string }.

Definition None_class : RetentionClass := MkRetention "none" 0 "".

Definition classes_init : gmap string RetentionClass := {[ rc_Name None_class := None_class ]}.

Definition RegisterClass (c : RetentionClass) (classes : gmap string RetentionClass)
    : res (gmap string RetentionClass) :=
  if bool_decide (rc_Name c = "") then Err (ErrText "pii: retention class needs a name")
  else match classes !! rc_Name c with
       | Some _ => Err (ErrText "pii: retention class already registered")
       | None => Ok (<[rc_Name c := c]> classes)
       end.

Definition Class_ (name : string) (classes : gmap string RetentionClass) : option RetentionClass :=
  classes !! name.

Definition BlocksErasureAt (c : RetentionClass) (anchor now : Z) (legalHold : bool) : bool :=
  if legalHold then true
  else if (rc_Min c =? 0)%Z then false
  else (now <? anchor + rc_Min c)%Z.

Lemma BlocksErasureAt_spec c anchor now hold :
  BlocksErasureAt c anchor now hold = true ↔
  hold = true ∨ (rc_Min c ≠ 0 ∧ now < anchor + rc_Min c)%Z.
Proof.
  unfold BlocksErasureAt. destruct hold; [tauto|].
  destruct (Z.eqb_spec (rc_Min c) 0) as [E|E].
  - split; [done|]. by intros [?|[? _]].
  - rewrite Z.ltb_lt. split; [by right|]. by intros [?|[_ ?]].
Qed.

(** ** The processing registry *)
Section registry.
Context {D X : Type}.
Abbreviation W := (world D).

Record SubjectData := MkHooks {
  ExportSubject_hook : Subject → M W (option X);
  EraseSubject_hook : Subject → M W unit;
}.

Record Descriptor := MkDescriptor {
  d_Type : string;
  d_Fields : list string;
  d_Retention : RetentionClass;
  d_Hooks : option SubjectData;
}.

Abbreviation Registry := (gmap string Descriptor).

Definition Register (d : Descriptor) (r : Registry) : res Registry :=
  if bool_decide (d_Type d = "") then Err (ErrText "pii: descriptor needs a Type")
  else match d_Hooks d with
  | None => Err (ErrText "pii: descriptor needs Hooks")
  | Some h =>
      let ret := if bool_decide (rc_Name (d_Retention d) = "") then None_class
                 else d_Retention d in
      match r !! d_Type d with
      | Some _ => Err (ErrText "pii: type already registered")
      | None => Ok (<[d_Type d := MkDescriptor (d_Type d) (d_Fields d) ret (Some h)]> r)
      end
  end.

Definition type_le (a b : string * Descriptor) : Prop := String.le a.1 b.1.
#[global] Instance type_le_dec a b : Decision (type_le a b).
Proof. unfold type_le. apply _. Defined.

(** The Article 30 view: every descriptor, sorted by type. *)
Definition Descriptors (r : Registry) : list Descriptor :=
  snd <$> merge_sort type_le (map_to_list r).

Definition hook_export (d : Descriptor) (s : Subject) : M W (option X) :=
  match d_Hooks d with
  | Some h => ExportSubject_hook h s
  | None => throw (ErrText "nil hooks")
  end.

Definition hook_erase (d : Descriptor) (s : Subject) : M W unit :=
  match d_Hooks d with
  | Some h => EraseSubject_hook h s
  | None => throw (ErrText "nil hooks")
  end.

(** [ctx.Err()]: the request may have been cancelled. *)
Definition ctx_err : M W unit := call (mret tt).

Definition ExportSubject (r : Registry) (s : Subject) : M W (gmap string X) :=
  for_acc (Descriptors r) ∅ (λ out d,
    ctx_err ;;
    data ← wrap_err ("pii: export " +:+ d_Type d) (hook_export d s);
    mret (match data with Some x => <[d_Type d := x]> out | None => out end)).

Definition EraseSubject (r : Registry) (s : Subject) : M W unit :=
  for_each (Descriptors r) (λ d,
    ctx_err ;; wrap_err ("pii: erase " +:+ d_Type d) (hook_erase d s)).
End registry.
Arguments SubjectData : clear implicits.
Arguments Descriptor : clear implicits.

End Pii.
