(* ===== verification/Pseudonym.v ===== *)
(** * Pseudonym: per-subject pseudonyms (lib/pii/pseudonym.go, inmemory.go)

    [PseudonymStore] is the Go interface as a class of operations,
    [PseudonymStoreSpec] the contract its comments state, with the abstract
    token map as the observable state.  [TokenFor], [Resolve] and [Erase] are
    proved against the contract; [InMemory] is one implementation, the Postgres
    table of Conventions.v the other. *)

From S2P Require Import Prelude GoText World Pii.
Import Pii.

(** The interface. *)
Class PseudonymStore (D : Type) := {
  Lookup_ps : Subject → M (world D) (option string);
  Save_ps : string → Subject → M (world D) unit;
  Resolve_ps : string → M (world D) (option Subject);
  Delete_ps : Subject → M (world D) unit;
}.

(** [unmapped m s]: no token of [m] stands for [s]. *)
Definition unmapped (m : gmap string Subject) (s : Subject) : Prop :=
  ∀ t, m !! t ≠ Some s.

Definition forget (s : Subject) (m : gmap string Subject) : gmap string Subject :=
  filter (λ kv, kv.2 ≠ s) m.

(** The contract: at most one token per subject, [Save] refuses a subject that
    is already mapped, a failed write either happened or did not.  [ps_ok] says
    which subjects the implementation tells apart and [ps_fresh] which tokens it
    may be given. *)
Class PseudonymStoreSpec (D : Type) `{PseudonymStore D} := {
  ps_map : D → gmap string Subject;
  ps_wf : D → Prop;
  ps_ok : Subject → Prop;
  ps_fresh : D → string → Prop;
  ps_uniq : ∀ d t t' s, ps_wf d →
    ps_map d !! t = Some s → ps_map d !! t' = Some s → t = t';
  ps_lookup_spec : ∀ s w r w', ps_wf (w_db w) → ps_ok s → Lookup_ps s w = (r, w') →
    w_db w' = w_db w ∧
    match r with
    | Ok (Some t) => ps_map (w_db w) !! t = Some s
    | Ok None => unmapped (ps_map (w_db w)) s
    | Err _ => True
    end;
  ps_save_spec : ∀ t s w r w', ps_wf (w_db w) → ps_ok s →
    ps_fresh (w_db w) t → Save_ps t s w = (r, w') →
    (ps_wf (w_db w') ∧ ps_map (w_db w') = ps_map (w_db w) ∧ is_ok r = false) ∨
    (ps_wf (w_db w') ∧ ps_map (w_db w) !! t = None ∧ unmapped (ps_map (w_db w)) s ∧
     ps_map (w_db w') = <[t := s]> (ps_map (w_db w)));
  ps_resolve_spec : ∀ t w r w', ps_wf (w_db w) → Resolve_ps t w = (r, w') →
    w_db w' = w_db w ∧
    match r with Ok o => o = ps_map (w_db w) !! t | Err _ => True end;
  ps_delete_spec : ∀ s w r w', ps_wf (w_db w) → ps_ok s → Delete_ps s w = (r, w') →
    ps_wf (w_db w') ∧
    (ps_map (w_db w') = forget s (ps_map (w_db w)) ∨
     (ps_map (w_db w') = ps_map (w_db w) ∧ is_ok r = false));
}.

Section pseudonyms.
Context {P : Platform} {D : Type} `{PSS : PseudonymStoreSpec D}.
Abbreviation W := (world D).

(** newToken: 120 random bits, base32, lower case, unpadded. *)
Definition token_of (b : bytes) : string := ToLower (base32_encode b).
Definition newToken : M W string := b ← draw 15; mret (token_of b).

Definition TokenFor (s : Subject) : M W string :=
  o ← Lookup_ps s;
  match o with
  | Some tok => mret tok
  | None =>
      tok ← newToken;
      r ← attempt (Save_ps tok s);
      match r with
      | Ok _ => mret tok
      | Err e =>
          r' ← attempt (Lookup_ps s);
          match r' with
          | Ok (Some existing) => mret existing
          | _ => throw e
          end
      end
  end.

Definition Resolve (token : string) : M W (option Subject) := Resolve_ps token.
Definition Erase (s : Subject) : M W unit := Delete_ps s.

(** The store may be given the token the next [newToken] draws. *)
Definition fresh_token (w : W) : Prop :=
  ps_fresh (w_db w) (token_of (rand_bytes (w_draws w) 15)).

Lemma forget_unmapped s m : unmapped (forget s m) s.
Proof. intros t. unfold forget. rewrite map_lookup_filter_Some. by intros [_ ?]. Qed.

Lemma forget_lookup_ne s s' t m : s' ≠ s → m !! t = Some s' → forget s m !! t = Some s'.
Proof. intros Hne Ht. unfold forget. by rewrite map_lookup_filter_Some. Qed.

(** The queries of the store consume no randomness in any implementation we
    use; stated here as what TokenFor needs of [Lookup_ps]. *)
Definition lookup_keeps_draws : Prop :=
  ∀ s w r w', Lookup_ps s w = (r, w') → w_draws w' = w_draws w.

Lemma run_newToken (w : W) :
  newToken w = (Ok (token_of (rand_bytes (w_draws w) 15)),
                World (w_db w) (w_blobs w) (w_fga w) (w_now w) (S (w_draws w)) (w_faults w)).
Proof. reflexivity. Qed.

(** What one allocation can do to the map. *)
Definition allocates (s : Subject) (m m' : gmap string Subject) : Prop :=
  m' = m ∨ ∃ t, m !! t = None ∧ unmapped m s ∧ m' = <[t := s]> m.

Lemma TokenFor_spec s w r w' :
  lookup_keeps_draws → ps_wf (w_db w) → ps_ok s → fresh_token w →
  TokenFor s w = (r, w') →
  ps_wf (w_db w') ∧ allocates s (ps_map (w_db w)) (ps_map (w_db w')) ∧
  (∀ t, r = Ok t → ps_map (w_db w') !! t = Some s).
Proof.
  intros Hdr Hwf Hok Hfresh. unfold TokenFor. rewrite run_bind.
  destruct (Lookup_ps s w) as [r1 w1] eqn:E1. pose proof (Hdr _ _ _ _ E1) as Hd1.
  apply ps_lookup_spec in E1 as [Hdb1 Hr1]; [|done..].
  destruct r1 as [[t|]|e].
  - intros [= <- <-]. rewrite Hdb1. split; [done|]. split; [by left|]. by intros ? [= <-].
  - rewrite run_bind, run_newToken, run_bind. unfold attempt at 1.
    set (w2 := World _ _ _ _ _ _). set (tok := token_of _).
    assert (w_db w2 = w_db w) as Hdb2 by done.
    destruct (Save_ps tok s w2) as [r2 w3] eqn:E2.
    assert (ps_fresh (w_db w) tok) as Hnone.
    { unfold tok, fresh_token in *. by rewrite Hd1. }
    apply ps_save_spec in E2; [|by rewrite ?Hdb2..]. rewrite Hdb2 in E2.
    assert (ps_wf (w_db w3) ∧ allocates s (ps_map (w_db w)) (ps_map (w_db w3)))
      as [Hwf3 Hm3].
    { unfold allocates. destruct E2 as [(?&?&?)|(?&?&?&?)]; eauto 8. }
    destruct r2 as [[]|e2].
    + intros [= <- <-]. split; [done|]. split; [done|]. intros t [= <-].
      destruct E2 as [(?&?&?)|(?&?&?&->)]; [done|]. apply lookup_insert_eq.
    + rewrite run_bind. unfold attempt. destruct (Lookup_ps s w3) as [r3 w4] eqn:E3.
      apply ps_lookup_spec in E3 as [Hdb4 Hr3]; [|done..].
      destruct r3 as [[t|]|e3]; intros [= <- <-]; rewrite Hdb4;
        (split; [done|split; [done|]]); try done.
      intros ? [= <-]. done.
  - intros [= <- <-]. rewrite Hdb1. split; [done|]. split; [by left|]. done.
Qed.

Lemma allocates_lookup s m m' t s' :
  allocates s m m' → m !! t = Some s' → m' !! t = Some s'.
Proof.
  intros [->|(t1&Hn&_&->)] Ht; [done|]. rewrite lookup_insert_ne; [done|]. congruence.
Qed.

(** every caller gets the one token of a subject: a successful [TokenFor]
    returns a token that resolves to the subject, an existing token is
    returned unchanged (also on the branch where the allocation race was
    lost), and no token that exists moves, whatever calls failed. *)
Theorem TokenFor_stable s w r w' :
  lookup_keeps_draws → ps_wf (w_db w) → ps_ok s → fresh_token w →
  TokenFor s w = (r, w') →
  ps_wf (w_db w') ∧
  (∀ t, r = Ok t → ps_map (w_db w') !! t = Some s) ∧
  (∀ t0 t, ps_map (w_db w) !! t0 = Some s → r = Ok t → t = t0) ∧
  (∀ t s', ps_map (w_db w) !! t = Some s' → ps_map (w_db w') !! t = Some s').
Proof.
  intros Hdr Hwf Hok Hfresh E.
  destruct (TokenFor_spec s w r w' Hdr Hwf Hok Hfresh E) as (Hwf'&Hm&Ht).
  split; [done|]. split; [done|]. split.
  - intros t0 t H0 Hr. apply (ps_uniq (w_db w') t t0 s); [done|by apply Ht|].
    by apply (allocates_lookup s (ps_map (w_db w))).
  - intros t s'. by apply (allocates_lookup s).
Qed.

(** erasure unlinks: after a successful [Erase] no token resolves to the
    subject, every other subject keeps its token, and a failed one leaves a
    well-formed store. *)
Theorem Erase_unlinks s w r w' :
  ps_wf (w_db w) → ps_ok s → Erase s w = (r, w') →
  ps_wf (w_db w') ∧
  (is_ok r = true → unmapped (ps_map (w_db w')) s) ∧
  (∀ t s', s' ≠ s → ps_map (w_db w) !! t = Some s' → ps_map (w_db w') !! t = Some s').
Proof.
  intros Hwf Hok E. apply ps_delete_spec in E as [Hwf' Hm]; [|done..].
  split; [done|]. split.
  - intros Hr. destruct Hm as [->|[_ ?]]; [apply forget_unmapped|congruence].
  - intros t s' Hne Ht. destruct Hm as [->|[-> _]]; [by apply forget_lookup_ne|done].
Qed.
End pseudonyms.

(** ** The in-memory store *)
Module InMemory.

Record InMemoryPseudonymStore := MkStore {
  byToken : gmap string Subject;
  bySub : gmap string string;   (* subject.String() to token *)
}.

Definition NewInMemoryPseudonymStore : InMemoryPseudonymStore := MkStore ∅ ∅.

Abbreviation W := (world InMemoryPseudonymStore).

Definition Lookup (s : Subject) : M W (option string) :=
  gets (λ w, bySub (w_db w) !! subject_string s).

(** Rejects an already-mapped subject. *)
Definition Save (token : string) (s : Subject) : M W unit := λ w,
  match bySub (w_db w) !! subject_string s with
  | Some _ => (Err (ErrText "pii: subject already mapped"), w)
  | None => (Ok tt, set_db (MkStore (<[token := s]> (byToken (w_db w)))
                                    (<[subject_string s := token]> (bySub (w_db w)))) w)
  end.

Definition Resolve (token : string) : M W (option Subject) :=
  gets (λ w, byToken (w_db w) !! token).

Definition Delete (s : Subject) : M W unit := λ w,
  match bySub (w_db w) !! subject_string s with
  | Some tok => (Ok tt, set_db (MkStore (delete tok (byToken (w_db w)))
                                        (delete (subject_string s) (bySub (w_db w)))) w)
  | None => (Ok tt, w)
  end.

#[global] Instance InMemory_store : PseudonymStore InMemoryPseudonymStore :=
  {| Lookup_ps := Lookup; Save_ps := Save; Resolve_ps := Resolve; Delete_ps := Delete |}.

(** Subjects come from the IdP: the instance is a domain and holds no slash. *)
Definition domain_subject (s : Subject) : Prop :=
  contains_byte "/"%char (Instance s) = false.

(** The two maps are inverse to each other. *)
Definition wf (d : InMemoryPseudonymStore) : Prop :=
  (∀ t s, byToken d !! t = Some s → domain_subject s ∧ bySub d !! subject_string s = Some t) ∧
  (∀ k t, bySub d !! k = Some t → ∃ s, byToken d !! t = Some s ∧ subject_string s = k).

Lemma wf_bySub d s t :
  wf d → domain_subject s → bySub d !! subject_string s = Some t → byToken d !! t = Some s.
Proof.
  intros [H1 H2] Hs H. destruct (H2 _ _ H) as (s'&Hs'&Heq).
  destruct (H1 _ _ Hs') as [Hd _]. by rewrite (subject_string_inj s' s) in Hs'.
Qed.

Lemma wf_delete d s t :
  wf d → domain_subject s → bySub d !! subject_string s = Some t →
  wf (MkStore (delete t (byToken d)) (delete (subject_string s) (bySub d))) ∧
  delete t (byToken d) = forget s (byToken d).
Proof.
  intros Hwf Hs H. pose proof (wf_bySub _ _ _ Hwf Hs H) as Ht. destruct Hwf as [H1 H2].
  split; [split|].
  - cbn. intros t' s' [Hne Ht']%lookup_delete_Some. destruct (H1 _ _ Ht') as [? Hb].
    split; [done|]. apply lookup_delete_Some. split; [|done]. intros Heq.
    apply Hne. congruence.
  - cbn. intros k t' [Hne Hk]%lookup_delete_Some. destruct (H2 _ _ Hk) as (s'&Hs'&<-).
    exists s'. split; [|done]. apply lookup_delete_Some. split; [|done]. congruence.
  - apply map_eq. intros t'. unfold forget. destruct (decide (t' = t)) as [->|Hne].
    + rewrite lookup_delete_eq. symmetry. apply map_lookup_filter_None. right.
      intros s' Hs'. cbn. intros Hne. congruence.
    + rewrite lookup_delete_ne by done. symmetry.
      destruct (byToken d !! t') as [s'|] eqn:Es'.
      * apply map_lookup_filter_Some. split; [done|]. cbn. intros ->.
        destruct (H1 _ _ Es') as [_ ?]. congruence.
      * apply map_lookup_filter_None. by left.
Qed.

#[global] Instance InMemory_spec : PseudonymStoreSpec InMemoryPseudonymStore.
Proof.
  refine {| ps_map := byToken; ps_wf := wf; ps_ok := domain_subject;
            ps_fresh := λ d t, byToken d !! t = None |}.
  - intros d t t' s [H1 _] Ht Ht'. destruct (H1 _ _ Ht), (H1 _ _ Ht'). congruence.
  - intros s w r w' Hwf Hs [= <- <-]. split; [done|].
    destruct (bySub (w_db w) !! subject_string s) as [t|] eqn:E.
    + by apply wf_bySub.
    + intros t Ht. destruct (proj1 Hwf _ _ Ht). congruence.
  - intros t s w r w' Hwf Hs Ht E. unfold Save_ps, InMemory_store, Save in E.
    destruct (bySub (w_db w) !! subject_string s) as [t'|] eqn:Eb; injection E as <- <-.
    + by left.
    + right. destruct Hwf as [H1 H2]. split; [split|split; [|split]].
      * cbn. intros t1 s1 [[-> ->]|[Hne H]]%lookup_insert_Some.
        { split; [done|]. apply lookup_insert_eq. }
        destruct (H1 _ _ H) as [Hd Hb]. split; [done|]. rewrite lookup_insert_ne; [done|congruence].
      * cbn. intros k t1 [[<- <-]|[Hne H]]%lookup_insert_Some.
        { exists s. split; [apply lookup_insert_eq|done]. }
        destruct (H2 _ _ H) as (s1&Hs1&<-). exists s1. split; [|done].
        rewrite lookup_insert_ne; [done|congruence].
      * done.
      * intros t1 Ht1. destruct (H1 _ _ Ht1). congruence.
      * done.
  - intros t w r w' Hwf [= <- <-]. done.
  - intros s w r w' Hwf Hs E. unfold Delete_ps, InMemory_store, Delete in E.
    destruct (bySub (w_db w) !! subject_string s) as [t|] eqn:Eb; injection E as <- <-.
    + destruct (wf_delete _ _ _ Hwf Hs Eb) as [? Heq]. split; [done|]. by left.
    + split; [done|]. left. symmetry. apply map_filter_id.
      intros t s' Ht. cbn. intros ->. destruct (proj1 Hwf _ _ Ht). congruence.
Defined.

End InMemory.

(** ** Witnesses *)
Definition demo_subject : Subject := MkSubject "demo.sslip.io" "42".

Lemma InMemory_lookup_keeps_draws :
  lookup_keeps_draws (D := InMemory.InMemoryPseudonymStore).
Proof. intros s w r w' [= <- <-]. reflexivity. Defined.

Definition demo_empty := boot InMemory.NewInMemoryPseudonymStore.
Definition demo_run := TokenFor (P := counting_platform) demo_subject demo_empty.

Lemma TokenFor_stable_witness :
  ∃ t, demo_run.1 = Ok t ∧ InMemory.byToken (w_db demo_run.2) !! t = Some demo_subject.
Proof.
  assert (∃ t, demo_run.1 = Ok t) as [t Ht] by (eexists; vm_compute; reflexivity).
  exists t. split; [done|].
  refine (proj1 (proj2 (TokenFor_stable (P := counting_platform) demo_subject demo_empty
    demo_run.1 demo_run.2 _ _ _ _ _)) t Ht).
  - apply InMemory_lookup_keeps_draws.
  - split; intros ? ?; done.
  - reflexivity.
  - vm_compute. reflexivity.
  - apply surjective_pairing.
Defined.

Definition demo_mapped := boot (InMemory.MkStore {["tok" := demo_subject]}
                                  {[subject_string demo_subject := "tok"]}).

Lemma Erase_unlinks_witness :
  (Erase demo_subject demo_mapped).1 = Ok tt ∧
  unmapped (InMemory.byToken (w_db (Erase demo_subject demo_mapped).2)) demo_subject.
Proof.
  split; [vm_compute; reflexivity|].
  refine (proj1 (proj2 (Erase_unlinks demo_subject demo_mapped
    (Erase demo_subject demo_mapped).1 (Erase demo_subject demo_mapped).2 _ _ _)) _).
  - split; intros ? ?; unfold demo_mapped; cbn [w_db boot InMemory.byToken InMemory.bySub];
      intros [<- <-]%lookup_singleton_Some; [done|]. by exists demo_subject.
  - reflexivity.
  - apply surjective_pairing.
  - vm_compute. reflexivity.
Defined.
