(* ===== verification/Conventions.v ===== *)
(** * Conventions: the cross-cutting stores every app shares

    lib/pgconv/pgconv.go (the tables subject_pseudonyms, audit_events and
    search_documents), lib/audit/audit.go and lib/search/search.go.  An app's
    database contains the three tables through the interface [HasConv], so the
    same operations run over Kamara's and Ergonomos's databases. *)

From S2P Require Import Prelude GoText Ids World Pii Pseudonym.
Import Pii.

(** audit.Object and audit.Event; [Detail] is always nil in this code base. *)
Record AuditObject := MkAuditObject { ao_Type : string; ao_ID : string; ao_Permalink : string }.

Record Event := MkEvent {
  ev_ID : string;
  ev_Time : Z;
  ev_ActorToken : string;
  ev_Action : string;
  ev_Object : AuditObject;
}.

(** search.Doc *)
Record Doc := MkDoc {
  doc_ID : string;
  doc_Type : string;
  doc_Permalink : string;
  doc_Owner : Subject;
  doc_Text : string;
}.

(** The convention tables (pgconv.SchemaSQL). *)
Record Conv := MkConv {
  subject_pseudonyms : gmap string Subject;   (* token PRIMARY KEY, subject UNIQUE *)
  audit_events : list Event;                  (* in insertion order, id PRIMARY KEY *)
  search_documents : gmap string Doc;         (* id PRIMARY KEY *)
}.

Definition conv_empty : Conv := MkConv ∅ [] ∅.

(** A database that contains the convention tables. *)
Class HasConv (D : Type) := {
  conv : D → Conv;
  with_conv : Conv → D → D;
  conv_with : ∀ c d, conv (with_conv c d) = c;
  with_conv_id : ∀ d, with_conv (conv d) d = d;
  with_with : ∀ c c' d, with_conv c (with_conv c' d) = with_conv c d;
}.

#[global] Program Instance Conv_self : HasConv Conv :=
  {| conv := λ d, d; with_conv := λ c _, c |}.
Solve All Obligations with done.

Section conventions.
Context {P : Platform} {D : Type} {HC : HasConv D}.
Abbreviation W := (world D).

(** A statement over the convention tables. *)
Definition conv_stmt {A} (f : Conv → res (A * Conv)) : M W A :=
  stmt (λ d, match f (conv d) with
             | Ok (a, c) => Ok (a, with_conv c d)
             | Err e => Err e
             end).

(** ** pgconv.PseudonymStore *)
Definition token_row (s : Subject) (m : gmap string Subject) : option string :=
  fst <$> head (filter (λ kv, kv.2 = s) (map_to_list m)).

Definition pg_Lookup (s : Subject) : M W (option string) :=
  query (λ d, token_row s (subject_pseudonyms (conv d))).

Definition errSubjectMapped : error := ErrText "pgconv: subject already mapped".

(** INSERT ... ON CONFLICT (instance, user_id) DO NOTHING; zero rows affected
    is a lost race. *)
Definition pg_Save (token : string) (s : Subject) : M W unit :=
  n ← conv_stmt (λ c,
    match token_row s (subject_pseudonyms c) with
    | Some _ => Ok (0, c)
    | None =>
        match subject_pseudonyms c !! token with
        | Some _ => Err ErrUnique
        | None => Ok (1, MkConv (<[token := s]> (subject_pseudonyms c))
                                (audit_events c) (search_documents c))
        end
    end);
  if bool_decide (n = 0) then throw errSubjectMapped else mret tt.

Definition pg_Resolve (token : string) : M W (option Subject) :=
  query (λ d, subject_pseudonyms (conv d) !! token).

Definition pg_Delete (s : Subject) : M W unit :=
  conv_stmt (λ c, Ok (tt, MkConv (filter (λ kv, kv.2 ≠ s) (subject_pseudonyms c))
                                 (audit_events c) (search_documents c))).

#[global] Instance pg_store : PseudonymStore D :=
  {| Lookup_ps := pg_Lookup; Save_ps := pg_Save;
     Resolve_ps := pg_Resolve; Delete_ps := pg_Delete |}.

(** ** audit.Sink over Postgres, and the emitter *)
Definition Append (e : Event) : M W unit :=
  conv_stmt (λ c,
    if bool_decide (ev_ID e ∈ ev_ID <$> audit_events c) then Err ErrUnique
    else Ok (tt, MkConv (subject_pseudonyms c) (audit_events c ++ [e]) (search_documents c))).

Definition Emit (actor : Subject) (action : string) (obj : AuditObject) : M W unit :=
  if Zero actor then throw (ErrText "audit: event needs an actor")
  else if bool_decide (action = "") || bool_decide (ao_Type obj = "")
          || bool_decide (ao_ID obj = "")
  then throw (ErrText "audit: event needs action, object type and id")
  else
    token ← TokenFor actor;
    i ← new_id;
    t ← now;
    Append (MkEvent i t token action obj).

(** ** search.Index over Postgres, and the feeder *)
Definition Upsert (d : Doc) : M W unit :=
  conv_stmt (λ c, Ok (tt, MkConv (subject_pseudonyms c) (audit_events c)
                                 (<[doc_ID d := d]> (search_documents c)))).

Definition SearchDelete (i : string) : M W unit :=
  conv_stmt (λ c, Ok (tt, MkConv (subject_pseudonyms c) (audit_events c)
                                 (delete i (search_documents c)))).

Definition Feed (d : Doc) : M W unit :=
  if bool_decide (doc_ID d = "") || bool_decide (doc_Type d = "")
  then throw (ErrText "search: doc needs ID and Type")
  else if Zero (doc_Owner d) then throw (ErrText "search: doc needs an Owner")
  else if bool_decide (doc_Permalink d = "") then throw (ErrText "search: doc needs a Permalink")
  else Upsert d.

Definition Remove (i : string) : M W unit :=
  if bool_decide (i = "") then throw (ErrText "search: Remove needs an id")
  else SearchDelete i.

(** ** The Postgres store meets the pseudonym contract *)
Definition one_token (m : gmap string Subject) : Prop :=
  ∀ t t' s, m !! t = Some s → m !! t' = Some s → t = t'.

Lemma token_row_Some s m t : token_row s m = Some t → m !! t = Some s.
Proof.
  unfold token_row. destruct (filter _ _) as [|[t' s'] l] eqn:E; [done|].
  intros [= <-].
  assert ((t', s') ∈ filter (λ kv, kv.2 = s) (map_to_list m)) as Hin
    by (rewrite E; apply elem_of_cons; by left).
  apply list_elem_of_filter in Hin as [Hs Hin]. cbn in Hs. subst s'.
  by apply elem_of_map_to_list.
Qed.

Lemma token_row_None s m : token_row s m = None → unmapped m s.
Proof.
  unfold token_row. destruct (filter _ _) as [|p l] eqn:E; [|done].
  intros _ t Ht. apply elem_of_map_to_list in Ht.
  assert ((t, s) ∈ filter (λ kv, kv.2 = s) (map_to_list m)) as Hin
    by (apply list_elem_of_filter; done).
  rewrite E in Hin. by apply not_elem_of_nil in Hin.
Qed.

Lemma conv_stmt_cases {A} (f : Conv → res (A * Conv)) w r w' :
  conv_stmt f w = (r, w') →
  w_rest w' = w_rest w ∧ w_now w' = w_now w ∧ w_draws w' = w_draws w ∧
  ((∃ e, r = Err e ∧ w_db w' = w_db w) ∨
   (∃ a c, f (conv (w_db w)) = Ok (a, c) ∧ w_db w' = with_conv c (w_db w) ∧
           (r = Ok a ∨ r = Err ErrExternal))).
Proof.
  intros (?&?&?&Hc)%stmt_cases. do 3 (split; [done|]).
  destruct Hc as [(e&->&?&_)|(a&d&Hf&Hd&Hr)]; [eauto|].
  destruct (f (conv (w_db w))) as [[a' c]|e] eqn:E; [|done].
  injection Hf as <- <-. right. exists a', c. auto.
Qed.

#[global] Instance pg_spec : PseudonymStoreSpec D.
Proof.
  refine {| ps_map := λ d, subject_pseudonyms (conv d);
            ps_wf := λ d, one_token (subject_pseudonyms (conv d));
            ps_ok := λ _, True; ps_fresh := λ _ _, True |}.
  - intros d t t' s Hwf. apply Hwf.
  - intros s w r w' Hwf _ (Hd&_&_&_&Hr)%query_cases. split; [done|].
    destruct Hr as [-> | ->]; [|done].
    destruct (token_row s (subject_pseudonyms (conv (w_db w)))) as [t|] eqn:E.
    + by apply token_row_Some.
    + by apply token_row_None.
  - intros t s w r w' Hwf _ _. unfold Save_ps, pg_store, pg_Save. rewrite run_bind.
    destruct (conv_stmt _ w) as [r1 w1] eqn:E1.
    apply conv_stmt_cases in E1 as (_ & _ & _ & Hc); destruct Hc as [(e&->&Hd)|(n&c&Hf&Hd&Hr)].
    { intros [= <- <-]. left. by rewrite Hd. }
    destruct (token_row s (subject_pseudonyms (conv (w_db w)))) as [t'|] eqn:Et.
    { injection Hf as <- <-. rewrite with_conv_id in Hd.
      destruct Hr as [-> | ->]; cbn; intros [= <- <-]; left; by rewrite Hd. }
    destruct (subject_pseudonyms (conv (w_db w)) !! t) as [s0|] eqn:Ht; [done|].
    injection Hf as <- <-. apply token_row_None in Et.
    assert (subject_pseudonyms (conv (w_db w1)) =
            <[t:=s]> (subject_pseudonyms (conv (w_db w)))) as Hm
      by (by rewrite Hd, conv_with).
    intros E. assert (w' = w1) as -> by (destruct Hr as [-> | ->]; by injection E as <- <-).
    right. rewrite Hm. split; [|done].
    intros t1 t2 s1 H1%lookup_insert_Some H2%lookup_insert_Some.
    destruct H1 as [[<- <-]|[Hn1 H1]], H2 as [[<- H2]|[Hn2 H2]]; [done| | |by eapply Hwf].
    + exfalso. by apply (Et t2).
    + subst s1. exfalso. by apply (Et t1).
  - intros t w r w' Hwf (Hd&_&_&_&Hr)%query_cases. split; [done|]. by destruct Hr as [-> | ->].
  - intros s w r w' Hwf _ (_&_&_&Hc)%conv_stmt_cases.
    destruct Hc as [(e&->&Hd)|(a&c&[= <- <-]&Hd&Hr)]; rewrite Hd; [auto|].
    rewrite conv_with. split; [|by left].
    cbn. intros t1 t2 s1 [H1 _]%map_lookup_filter_Some [H2 _]%map_lookup_filter_Some.
    by eapply Hwf.
Defined.

Lemma pg_lookup_keeps_draws : lookup_keeps_draws (D := D).
Proof. intros s w r w' E. by apply query_cases in E as (_&_&_&?&_). Qed.
(** ** What the emitter and the feeder do to the database *)
Lemma TokenFor_pg_spec s w r w' :
  one_token (subject_pseudonyms (conv (w_db w))) → TokenFor s w = (r, w') →
  one_token (subject_pseudonyms (conv (w_db w'))) ∧
  allocates s (subject_pseudonyms (conv (w_db w))) (subject_pseudonyms (conv (w_db w'))) ∧
  (∀ t, r = Ok t → subject_pseudonyms (conv (w_db w')) !! t = Some s).
Proof. intros Hwf. by apply (TokenFor_spec (PSS := pg_spec) s w r w' pg_lookup_keeps_draws Hwf I I). Qed.

(** An invariant that does not read the convention tables. *)
Definition ignores_conv (I : W → Prop) : Prop :=
  stores_only I ∧ ∀ w c, I w → I (set_db (with_conv c (w_db w)) w).

Lemma keeps_conv_stmt {A} I (f : Conv → res (A * Conv)) :
  ignores_conv I → keeps I (conv_stmt f).
Proof.
  intros [HI Hc]. apply keeps_stmt; [done|]. intros w a d Hw.
  destruct (f (conv (w_db w))) as [[a' c]|e]; [|done]. intros [= <- <-]. by apply Hc.
Qed.

Lemma keeps_newToken I : stores_only I → keeps I (newToken (D := D)).
Proof. intros HI. unfold newToken. keeps_tac. Qed.

Lemma keeps_TokenFor I s : ignores_conv I → keeps I (TokenFor s).
Proof.
  intros HI. pose proof (proj1 HI). unfold TokenFor.
  assert (keeps I (Lookup_ps s)) by (by apply keeps_query).
  assert (∀ t, keeps I (Save_ps t s)).
  { intros t. apply keeps_bind; [by apply keeps_conv_stmt|]. intros n. keeps_tac. }
  pose proof (keeps_newToken I). keeps_tac; auto with go.
Qed.

Lemma keeps_Append I e : ignores_conv I → keeps I (Append e).
Proof. apply keeps_conv_stmt. Qed.

Lemma keeps_Emit I actor action obj : ignores_conv I → keeps I (Emit actor action obj).
Proof.
  intros HI. pose proof (proj1 HI). unfold Emit, now.
  pose proof (keeps_TokenFor I actor HI). pose proof (λ e, keeps_Append I e HI).
  keeps_tac; auto with go.
Qed.

Lemma keeps_Feed I d : ignores_conv I → keeps I (Feed d).
Proof. intros HI. unfold Feed. keeps_tac; by apply keeps_conv_stmt. Qed.

Lemma keeps_Remove I i : ignores_conv I → keeps I (Remove i).
Proof. intros HI. unfold Remove. keeps_tac; by apply keeps_conv_stmt. Qed.

(** Allocation touches the pseudonym table only. *)
Definition only_pseudonyms (w0 w : W) : Prop :=
  w_rest w = w_rest w0 ∧
  ∃ m, w_db w = with_conv (MkConv m (audit_events (conv (w_db w0)))
                                  (search_documents (conv (w_db w0)))) (w_db w0).

Lemma only_pseudonyms_refl w : only_pseudonyms w w.
Proof.
  split; [done|]. exists (subject_pseudonyms (conv (w_db w))).
  rewrite <- (with_conv_id (w_db w)) at 1. f_equal. by destruct (conv (w_db w)).
Qed.

Lemma only_pseudonyms_stores w0 : stores_only (only_pseudonyms w0).
Proof. intros w w' Hd Hr [H1 [m H2]]. split; [congruence|]. exists m. congruence. Qed.

Lemma TokenFor_frame s w : only_pseudonyms w (TokenFor s w).2.
Proof.
  assert (keeps (only_pseudonyms w) (TokenFor s)) as H; [|apply H, only_pseudonyms_refl].
  pose proof (only_pseudonyms_stores w) as HS.
  assert (keeps (only_pseudonyms w) (Lookup_ps s)) by (by apply keeps_query).
  assert (∀ t, keeps (only_pseudonyms w) (Save_ps t s)).
  { intros t. apply keeps_bind; [|intros n; keeps_tac].
    apply keeps_stmt; [done|]. intros w1 a d [Hr [m Hm]] Hf.
    destruct (token_row s _); [injection Hf as <- <-; by rewrite with_conv_id, set_db_id; split; [|exists m]|].
    destruct (subject_pseudonyms _ !! t); [done|]. injection Hf as <- <-.
    split; [done|]. cbn. rewrite Hm, conv_with, with_with. by eexists. }
  unfold TokenFor. pose proof (keeps_newToken (only_pseudonyms w) HS). keeps_tac; auto with go.
Qed.

Lemma new_id_frame (w : W) :
  ∃ i w', new_id w = (Ok i, w') ∧ w_db w' = w_db w ∧ w_rest w' = w_rest w ∧ w_now w' = w_now w.
Proof. do 2 eexists. split; [reflexivity|]. done. Qed.

(** The audit log as a client sees it: nothing, or exactly one event more. *)
Definition audited (actor : Subject) (action : string) (obj : AuditObject) (c c' : Conv) : Prop :=
  ∃ ev, audit_events c' = audit_events c ++ [ev] ∧ ev_Action ev = action ∧
        ev_Object ev = obj ∧ subject_pseudonyms c' !! ev_ActorToken ev = Some actor.

Lemma Emit_spec actor action obj w r w' :
  one_token (subject_pseudonyms (conv (w_db w))) → Emit actor action obj w = (r, w') →
  let c := conv (w_db w) in let c' := conv (w_db w') in
  w_rest w' = w_rest w ∧ w_db w' = with_conv c' (w_db w) ∧
  one_token (subject_pseudonyms c') ∧ search_documents c' = search_documents c ∧
  (∀ t s, subject_pseudonyms c !! t = Some s → subject_pseudonyms c' !! t = Some s) ∧
  (audited actor action obj c c' ∨ (audit_events c' = audit_events c ∧ is_ok r = false)).
Proof.
  intros Hone. unfold Emit.
  assert (w_db w = with_conv (conv (w_db w)) (w_db w)) as Hid by (by rewrite with_conv_id).
  destruct (Zero actor); [intros [= <- <-]; repeat split; auto|].
  destruct (_ || _); [intros [= <- <-]; repeat split; auto|].
  rewrite run_bind. pose proof (TokenFor_frame actor w) as [Hr1 [m Hm]].
  destruct (TokenFor actor w) as [rt w1] eqn:E1. cbn [snd] in *.
  destruct (TokenFor_pg_spec actor w rt w1 Hone E1) as (Hone1&Hal&Htok).
  assert (conv (w_db w1) = MkConv m (audit_events (conv (w_db w)))
                                  (search_documents (conv (w_db w)))) as Hc1
    by (by rewrite Hm, conv_with).
  assert (∀ t s, subject_pseudonyms (conv (w_db w)) !! t = Some s →
                 subject_pseudonyms (conv (w_db w1)) !! t = Some s) as Hkeep
    by (intros t s; by apply (allocates_lookup actor)).
  destruct rt as [tok|e].
  2: { intros [= <- <-]. rewrite Hc1 in *. repeat split; auto; try (by rewrite Hm, ?conv_with). }
  rewrite run_bind. destruct (new_id_frame w1) as (i&w2&E2&Hd2&Hr2&_). rewrite E2, run_bind.
  unfold now, gets. destruct (Append _ w2) as [r3 w3] eqn:E3. intros [= <- <-].
  apply conv_stmt_cases in E3 as (Hr3 & _ & _ & Hc3). rewrite Hd2 in Hc3.
  destruct Hc3 as [(e&->&Hd3)|(a&c&Hf&Hd3&Hr')].
  - rewrite Hd3, Hc1 in *. repeat split; auto; congruence.
  - destruct (bool_decide (_ ∈ _)); [done|]. injection Hf as <- <-.
    rewrite Hd3, conv_with. cbn. rewrite Hc1 in *. cbn in *.
    repeat split; auto; try congruence.
    + by rewrite Hm, with_with.
    + left. eexists. repeat split. cbn. by apply Htok.
Qed.

(** emitting an event appends to the audit log and does nothing else to
    it: the log before is a prefix of the log after whatever calls failed, on
    success exactly one event was added, and that event names its actor by a
    token that resolves to the actor. *)
Theorem Emit_append_only actor action obj w r w' :
  one_token (subject_pseudonyms (conv (w_db w))) → Emit actor action obj w = (r, w') →
  audit_events (conv (w_db w)) `prefix_of` audit_events (conv (w_db w')) ∧
  (is_ok r = true → audited actor action obj (conv (w_db w)) (conv (w_db w'))).
Proof.
  intros Hone E. destruct (Emit_spec _ _ _ _ _ _ Hone E) as (_&_&_&_&_&H).
  destruct H as [H|[-> Hr]].
  - split; [|done]. destruct H as (ev&->&_). by apply prefix_app_r.
  - split; [done|congruence].
Qed.

Lemma Feed_spec d w r w' :
  Feed d w = (r, w') →
  let c := conv (w_db w) in let c' := conv (w_db w') in
  w_rest w' = w_rest w ∧
  ((w_db w' = w_db w ∧ is_ok r = false) ∨
   (w_db w' = with_conv c' (w_db w) ∧ c' = MkConv (subject_pseudonyms c) (audit_events c)
                                  (<[doc_ID d := d]> (search_documents c)))).
Proof.
  unfold Feed. destruct (_ || _); [intros [= <- <-]; auto|].
  destruct (Zero _); [intros [= <- <-]; auto|].
  destruct (bool_decide _); [intros [= <- <-]; auto|].
  intros (Hr & _ & _ & Hc)%conv_stmt_cases. split; [done|].
  destruct Hc as [(e&->&Hd)|(a&c&[= <- <-]&Hd&Hr')]; [by left|].
  right. by rewrite Hd, conv_with.
Qed.

Lemma Remove_spec i w r w' :
  Remove i w = (r, w') →
  let c := conv (w_db w) in let c' := conv (w_db w') in
  w_rest w' = w_rest w ∧
  ((w_db w' = w_db w ∧ is_ok r = false) ∨
   (w_db w' = with_conv c' (w_db w) ∧ c' = MkConv (subject_pseudonyms c) (audit_events c)
                                  (delete i (search_documents c)))).
Proof.
  unfold Remove. destruct (bool_decide _); [intros [= <- <-]; auto|].
  intros (Hr & _ & _ & Hc)%conv_stmt_cases. split; [done|].
  destruct Hc as [(e&->&Hd)|(a&c&[= <- <-]&Hd&Hr')]; [by left|].
  right. by rewrite Hd, conv_with.
Qed.

(** Inside a transaction. *)
Lemma tx_Emit actor action obj d0 :
  one_token (subject_pseudonyms (conv d0)) →
  txspec (λ d, d = d0) (Emit actor action obj)
    (λ _ d, ∃ c, d = with_conv c d0 ∧ one_token (subject_pseudonyms c) ∧
            audited actor action obj (conv d0) c ∧ search_documents c = search_documents (conv d0)).
Proof.
  intros Hone w Hw. rewrite <- Hw in Hone. destruct (Emit actor action obj w) as [r w'] eqn:E.
  destruct (Emit_spec _ _ _ _ _ _ Hone E) as (H1&H2&H3&H4&_&H6). cbn. split; [done|].
  intros a ->. exists (conv (w_db w')). rewrite <- Hw. split_and!; try done.
  destruct H6 as [?|[_ [=]]]. done.
Qed.

Lemma tx_Feed doc d0 :
  txspec (λ d, d = d0) (Feed doc)
    (λ _ d, d = with_conv (MkConv (subject_pseudonyms (conv d0)) (audit_events (conv d0))
                             (<[doc_ID doc := doc]> (search_documents (conv d0)))) d0).
Proof.
  intros w Hw. destruct (Feed doc w) as [r w'] eqn:E. apply Feed_spec in E as (H1&H2).
  cbn. split; [done|]. intros a ->. destruct H2 as [[_ [=]]|[H2 H3]]. by rewrite H2, H3, Hw.
Qed.

Lemma tx_Remove i d0 :
  txspec (λ d, d = d0) (Remove i)
    (λ _ d, d = with_conv (MkConv (subject_pseudonyms (conv d0)) (audit_events (conv d0))
                             (delete i (search_documents (conv d0)))) d0).
Proof.
  intros w Hw. destruct (Remove i w) as [r w'] eqn:E. apply Remove_spec in E as (H1&H2).
  cbn. split; [done|]. intros a ->. destruct H2 as [[_ [=]]|[H2 H3]]. by rewrite H2, H3, Hw.
Qed.
End conventions.

#[export] Hint Resolve keeps_Emit keeps_Feed keeps_Remove : go.

(** ** Witness *)
Definition demo_event_object : AuditObject := MkAuditObject "kamara/file" "f1" "/files/f1".
Definition demo_emit :=
  Emit (P := counting_platform) demo_subject "kamara.file.created" demo_event_object (boot conv_empty).

Lemma Emit_append_only_witness :
  (audit_events (conv (w_db (boot conv_empty))) `prefix_of` audit_events (conv (w_db demo_emit.2)) ∧
   (is_ok demo_emit.1 = true →
    audited demo_subject "kamara.file.created" demo_event_object
      (conv (w_db (boot conv_empty))) (conv (w_db demo_emit.2)))) ∧
  length (audit_events (conv (w_db demo_emit.2))) = 1.
Proof.
  split; [|vm_compute; reflexivity].
  apply (Emit_append_only (P := counting_platform) demo_subject "kamara.file.created"
         demo_event_object (boot conv_empty) demo_emit.1 demo_emit.2).
  - intros t t' s. vm_compute. done.
  - apply surjective_pairing.
Defined.
