(* ===== verification/Authz.v ===== *)
(** * Authz: the OpenFGA client (lib/authz/authz.go)

    OpenFGA itself is another process: what it answers is the parameter
    [OpenFGA], and [OpenFGAOk] is its documented behaviour for tuple writes (a
    write of a new tuple adds it, a delete of an existing one removes it, and an
    accepted request does nothing else).  The client functions turn requests
    into those calls, each of which can fail. *)

From S2P Require Import Prelude GoText World Pii.
Import Pii.

Class OpenFGA := {
  fga_check : gset fga_tuple → fga_tuple → bool;
  fga_list : gset fga_tuple → string → string → string → list string;
  fga_write : gset fga_tuple → fga_tuple → option (gset fga_tuple);
  fga_delete : gset fga_tuple → fga_tuple → option (gset fga_tuple);
}.

Class OpenFGAOk {F : OpenFGA} := {
  fga_write_ok : ∀ T t T', fga_write T t = Some T' → T' = {[t]} ∪ T;
  fga_write_new : ∀ T t, t ∉ T → is_Some (fga_write T t);
  fga_delete_ok : ∀ T t T', fga_delete T t = Some T' → T' = T ∖ {[t]};
  fga_delete_old : ∀ T t, t ∈ T → is_Some (fga_delete T t);
}.

Section authz.
Context {F : OpenFGA} {D : Type}.
Abbreviation W := (world D).

(** authz.Obj *)
Definition Obj (typ i : string) : string := typ +:+ ":" +:+ i.

Definition rawTuple (user relation object : string) : fga_tuple := (user, relation, object).
Definition tuple (user : Subject) (relation object : string) : fga_tuple :=
  rawTuple (OpenFGAObject user) relation object.

(** A status of 300 or more is an error that carries the response text. *)
Definition fga_refused : error := ErrText "openfga: request refused".

Definition fga_update (f : gset fga_tuple → option (gset fga_tuple)) : M W unit :=
  call (λ w, match f (w_fga w) with
             | Some T => (Ok tt, set_fga T w)
             | None => (Err fga_refused, w)
             end).

Definition WriteObjectTuple (user relation object : string) : M W unit :=
  fga_update (λ T, fga_write T (rawTuple user relation object)).
Definition DeleteObjectTuple (user relation object : string) : M W unit :=
  fga_update (λ T, fga_delete T (rawTuple user relation object)).
Definition Write (user : Subject) (relation object : string) : M W unit :=
  fga_update (λ T, fga_write T (tuple user relation object)).
Definition Delete (user : Subject) (relation object : string) : M W unit :=
  fga_update (λ T, fga_delete T (tuple user relation object)).

Definition Check (user : Subject) (relation object : string) : M W bool :=
  call (gets (λ w, fga_check (w_fga w) (tuple user relation object))).

(** Strip the type prefix; an entry of another type is skipped. *)
Definition strip_ids (objectType : string) (objs : list string) : list string :=
  omap (λ o, trim_prefix o (objectType +:+ ":")) objs.

Definition ListObjects (user : Subject) (relation objectType : string) : M W (list string) :=
  objs ← call (gets (λ w, fga_list (w_fga w) (OpenFGAObject user) relation objectType));
  mret (strip_ids objectType objs).

(** ** Lemmas *)
Lemma trim_prefix_app p s : trim_prefix (p +:+ s) p = Some s.
Proof.
  induction p as [|c p IH]; [by destruct s|].
  change (trim_prefix (String c (p +:+ s)) (String c p) = Some s). cbn.
  by rewrite decide_True.
Qed.

Lemma trim_prefix_Some s p r : trim_prefix s p = Some r → s = p +:+ r.
Proof.
  revert s; induction p as [|c p IH]; intros s; [destruct s; by intros [= <-]|].
  destruct s as [|d s]; [done|]. cbn. destruct (decide (c = d)) as [->|]; [|done].
  intros H. exact (f_equal (String d) (IH s H)).
Qed.

Lemma elem_of_strip_ids typ objs i : i ∈ strip_ids typ objs ↔ Obj typ i ∈ objs.
Proof.
  unfold strip_ids. rewrite list_elem_of_omap. split.
  - intros (o&Hin&Ho%trim_prefix_Some). unfold Obj. rewrite string_app_assoc in Ho.
    by subst o.
  - intros H. exists (Obj typ i). split; [done|]. unfold Obj.
    by rewrite <- string_app_assoc, trim_prefix_app.
Qed.

Lemma Obj_inj typ i j : Obj typ i = Obj typ j → i = j.
Proof. unfold Obj. by intros ?%string_app_inv_l%string_app_inv_l. Qed.

Lemma Check_frames_all user rel obj w : 
  ∃ r w', Check user rel obj w = (r, w') ∧ w_db w' = w_db w ∧ w_rest w' = w_rest w ∧
    w_now w' = w_now w ∧ w_draws w' = w_draws w ∧
    (r = Ok (fga_check (w_fga w) (tuple user rel obj)) ∨ r = Err ErrExternal).
Proof.
  unfold Check, call. rewrite run_bind.
  destruct (next_fault_stores w) as (f&w0&E&Hd&Hr&Hn&Hdr). rewrite E.
  assert (w_fga w0 = w_fga w) as Hf by (by injection Hr).
  destruct f; do 2 eexists; (split; [reflexivity|]); cbn; rewrite ?Hf; repeat split; auto.
Qed.

(** Outcomes of a tuple update. *)
Lemma fga_update_cases f w r w' :
  fga_update f w = (r, w') →
  w_db w' = w_db w ∧ w_blobs w' = w_blobs w ∧
  ((w_fga w' = w_fga w ∧ is_ok r = false) ∨ f (w_fga w) = Some (w_fga w')).
Proof.
  unfold fga_update, call. rewrite run_bind.
  destruct (next_fault_stores w) as (fl&w0&E&Hd&Hr&_). rewrite E.
  assert (w_fga w0 = w_fga w) as Hf by (by injection Hr).
  assert (w_blobs w0 = w_blobs w) as Hb by (by injection Hr).
  destruct fl; cbn; unfold ignore; rewrite ?run_bind; cbn; rewrite ?Hf.
  - destruct (f (w_fga w)) as [T|] eqn:Ef; intros [= <- <-]; cbn; auto.
  - intros [= <- <-]; auto.
  - destruct (f (w_fga w)) as [T|] eqn:Ef; intros [= <- <-]; cbn; auto.
Qed.

Lemma keeps_Check I u r o : stores_only I → keeps I (Check u r o).
Proof. intros HI. apply keeps_call; [done|apply keeps_gets]. Qed.

Lemma keeps_ListObjects I u r o : stores_only I → keeps I (ListObjects u r o).
Proof.
  intros HI. apply keeps_bind; [|intros; apply keeps_ret].
  apply keeps_call; [done|apply keeps_gets].
Qed.

(** An invariant that does not read the tuples. *)
Definition ignores_fga (I : W → Prop) : Prop :=
  stores_only I ∧ ∀ w T, I w → I (set_fga T w).

Lemma keeps_fga_update I f : ignores_fga I → keeps I (fga_update f).
Proof.
  intros [HI Hf]. apply keeps_call; [done|]. intros w Hw.
  destruct (f (w_fga w)); cbn; auto.
Qed.

(** Given tuples. *)
Definition tuples_are (T : gset fga_tuple) (w : W) : Prop := w_fga w = T.

Lemma tuples_stores_only T : stores_only (tuples_are T).
Proof. intros w w' _ Hr H. unfold tuples_are in *. unfold w_rest in Hr. injection Hr as _ Hr. congruence. Qed.

Lemma fga_update_ok f w w' : fga_update f w = (Ok tt, w') → f (w_fga w) = Some (w_fga w').
Proof. by intros (_&_&[[_ [=]]|?])%fga_update_cases. Qed.

(** In a fault-free world. *)
Lemma run_Check_nil u rel o w :
  w_faults w = [] → Check u rel o w = (Ok (fga_check (w_fga w) (tuple u rel o)), w).
Proof. intros H. unfold Check. by rewrite run_call_nil. Qed.

Lemma run_fga_update_nil f T w :
  w_faults w = [] → f (w_fga w) = Some T → fga_update f w = (Ok tt, set_fga T w).
Proof. intros H E. unfold fga_update. rewrite run_call_nil by done. by rewrite E. Qed.
End authz.

#[export] Hint Resolve keeps_Check keeps_ListObjects : go.

(** A concrete OpenFGA, for evaluating the definitions: [can_access] is a direct
    [owner] tuple, tuples are a set. *)
Definition owner_fga : OpenFGA := {|
  fga_check T t := let '(u, rel, o) := t in
    bool_decide ((u, (if bool_decide (rel = "can_access") then "owner" else rel), o) ∈ T);
  fga_list T u rel typ :=
    (λ t, t.2) <$> filter (λ t, t.1.1 = u ∧ t.1.2 = "owner" ∧ has_prefix t.2 (typ +:+ ":") = true) (elements T);
  fga_write T t := if bool_decide (t ∈ T) then None else Some ({[t]} ∪ T);
  fga_delete T t := if bool_decide (t ∈ T) then Some (T ∖ {[t]}) else None;
|}.

Lemma owner_fga_ok : OpenFGAOk (F := owner_fga).
Proof.
  split; cbn.
  - intros T t T'. case_bool_decide; [done|]. by intros [= <-].
  - intros T t Ht. rewrite bool_decide_eq_false_2 by done. eauto.
  - intros T t T'. case_bool_decide; [|done]. by intros [= <-].
  - intros T t Ht. rewrite bool_decide_eq_true_2 by done. eauto.
Defined.
