(* ===== verification/Chunker.v ===== *)
(** * Chunker: content-defined chunking (kamara/internal/chunk)

    [gear] is gear.go; [cutpoint] and [Split] are chunker.go.  The size bounds
    and masks are a record so that the definitions can also be evaluated on
    small inputs; [kamara_params] holds the constants of the source.  Integers
    are [Z] with the 64-bit wrap-around written out.  A reader is the list of
    results its [Read] calls deliver, then end of file. *)

From S2P Require Import Prelude GoText.

Module Chunker.

Definition u64 (z : Z) : Z := (z mod 2 ^ 64)%Z.

(** ** gear.go: splitmix64 from a fixed seed *)
Definition gear_seed : Z := 11400714819323198485%Z.  (* 0x9e3779b97f4a7c15 *)

Definition splitmix (x : Z) : Z :=
  let z := u64 (Z.lxor x (Z.shiftr x 30) * 13787848793156543929)%Z in  (* 0xbf58476d1ce4e5b9 *)
  let z := u64 (Z.lxor z (Z.shiftr z 27) * 10723151780598845931)%Z in  (* 0x94d049bb133111eb *)
  Z.lxor z (Z.shiftr z 31).

Fixpoint gear_from (n : nat) (x : Z) : list Z :=
  match n with
  | O => []
  | S n' => let x := u64 (x + gear_seed)%Z in splitmix x :: gear_from n' x
  end.

Definition gear : list Z := gear_from 256 gear_seed.

Definition gear_at (b : byte) : Z := nth (Z.to_nat (bz b)) gear 0%Z.

Lemma length_gear : length gear = 256.
Proof. reflexivity. Qed.

(** ** chunker.go *)
Record Params := MkParams {
  MinSize : Z; AvgSize : Z; MaxSize : Z; maskS : Z; maskL : Z;
}.

Definition avgBits : Z := 20.

Definition kamara_params : Params :=
  MkParams (256 * 1024) (1024 * 1024) (4 * 1024 * 1024)
           (Z.shiftl 1 (avgBits + 2) - 1) (Z.shiftl 1 (avgBits - 2) - 1).

Definition params_ok (p : Params) : Prop :=
  (0 < MinSize p ∧ MinSize p <= AvgSize p ∧ AvgSize p <= MaxSize p)%Z.

Lemma kamara_params_ok : params_ok kamara_params.
Proof. unfold params_ok, kamara_params. simpl. lia. Qed.

Definition blen (l : bytes) : Z := Z.of_nat (length l).

(** [data[a:b]] for [0 <= a <= b]. *)
Definition slice (data : bytes) (a b : Z) : bytes :=
  take (Z.to_nat (b - a)) (drop (Z.to_nat a) data).

(** One of the two loops of [cutpoint]: roll the fingerprint over [l] from
    offset [i]; [inl j] is the early return of [j], [inr fp] falls through. *)
Fixpoint scan (mask fp i : Z) (l : bytes) : Z + Z :=
  match l with
  | [] => inr fp
  | b :: l' =>
      let fp := u64 (Z.shiftl fp 1 + gear_at b)%Z in
      if (Z.land fp mask =? 0)%Z then inl i else scan mask fp (i + 1) l'
  end.

Definition cutpoint (p : Params) (data : bytes) : Z :=
  let n := blen data in
  if (n <=? MinSize p)%Z then n
  else
    let n := if (MaxSize p <? n)%Z then MaxSize p else n in
    let normal := if (n <? AvgSize p)%Z then n else AvgSize p in
    match scan (maskS p) 0 (MinSize p) (slice data (MinSize p) normal) with
    | inl i => i
    | inr fp =>
        match scan (maskL p) fp normal (slice data normal n) with
        | inl i => i
        | inr _ => n
        end
    end.

(** What one [Read] returns: data (possibly none) or an error. *)
Inductive rd_event := RData (bs : bytes) | RErr (e : error).

(** The inner loop: fill [buf] up to [MaxSize], stopping at end of file, at an
    error, or at a read that returned nothing. *)
Fixpoint fill (p : Params) (buf : bytes) (evs : list rd_event)
    : bytes * list rd_event * option error :=
  if (blen buf <? MaxSize p)%Z then
    match evs with
    | [] => (buf, [], None)
    | RErr e :: evs' => (buf, evs', Some e)
    | RData bs :: evs' =>
        let free := (MaxSize p - blen buf)%Z in
        match bs with
        | [] => (buf, evs', None)
        | _ :: _ =>
            if (blen bs <=? free)%Z then fill p (buf ++ bs) evs'
            else (buf ++ take (Z.to_nat free) bs, RData (drop (Z.to_nat free) bs) :: evs', None)
        end
    end
  else (buf, evs, None).

(** [br.Peek(1)]: end of file, or not; an error met here is consumed. *)
Fixpoint peek (evs : list rd_event) : list rd_event * bool :=
  match evs with
  | [] => ([], true)
  | RData [] :: evs' => peek evs'
  | RErr _ :: evs' => (evs', false)
  | RData (_ :: _) :: _ => (evs, false)
  end.

Section split.
Context {W : Type} (p : Params) (fn : bytes → M W unit).

Fixpoint split_loop (fuel : nat) (buf : bytes) (evs : list rd_event) : M W unit :=
  match fuel with
  | O => throw (ErrText "out of fuel")
  | S fuel' =>
      let '(buf, evs, err) := fill p buf evs in
      match err with
      | Some e => throw e
      | None =>
          match buf with
          | [] => mret tt
          | _ :: _ =>
              let c := Z.to_nat (cutpoint p buf) in
              fn (take c buf) ;;
              match drop c buf with
              | [] => let '(evs, eof) := peek evs in
                      if eof then mret tt else split_loop fuel' [] evs
              | rest => split_loop fuel' rest evs
              end
          end
      end
  end.

Definition event_data (e : rd_event) : bytes :=
  match e with RData bs => bs | RErr _ => [] end.
Definition events_data (evs : list rd_event) : bytes := concat (event_data <$> evs).

(** Every iteration that goes on consumes a byte: one more than the number of
    bytes is enough. *)
Definition Split (evs : list rd_event) : M W unit :=
  split_loop (S (length (events_data evs))) [] evs.
End split.

(** The reference chunking of a byte string: cut, and go on after the cut. *)
Fixpoint chunks_fuel (p : Params) (fuel : nat) (data : bytes) : list bytes :=
  match fuel, data with
  | S f, _ :: _ =>
      let c := Z.to_nat (cutpoint p data) in
      take c data :: chunks_fuel p f (drop c data)
  | _, _ => []
  end.
Definition chunks (p : Params) (data : bytes) : list bytes :=
  chunks_fuel p (length data) data.

(** ** cutpoint *)
Lemma length_slice data a b :
  (0 <= a <= b)%Z → (b <= blen data)%Z → blen (slice data a b) = (b - a)%Z.
Proof. unfold blen, slice. intros. rewrite length_take, length_drop. lia. Qed.

Lemma scan_bounds mask fp i l j : scan mask fp i l = inl j → (i <= j < i + blen l)%Z.
Proof.
  revert fp i; induction l as [|b l IH]; intros fp i; simpl; [done|].
  unfold blen in *. simpl length. case_match.
  - intros [= <-]. lia.
  - intros Hj%IH. lia.
Qed.

Lemma cutpoint_range p data :
  params_ok p → data ≠ [] →
  (0 < cutpoint p data <= blen data)%Z ∧ (cutpoint p data <= MaxSize p)%Z ∧
  (MinSize p < blen data → MinSize p <= cutpoint p data)%Z.
Proof.
  intros (Hmin&Hma&Ham) Hne. unfold cutpoint.
  assert (0 < blen data)%Z as Hpos by (unfold blen; destruct data; [done|simpl; lia]).
  destruct (Z.leb_spec (blen data) (MinSize p)); [lia|].
  set (n := if (MaxSize p <? blen data)%Z then MaxSize p else blen data).
  assert (MinSize p <= n <= blen data ∧ n <= MaxSize p)%Z as Hn
    by (unfold n; destruct (Z.ltb_spec (MaxSize p) (blen data)); lia).
  set (normal := if (n <? AvgSize p)%Z then n else AvgSize p).
  assert (MinSize p <= normal <= n)%Z as Hnm
    by (unfold normal; destruct (Z.ltb_spec n (AvgSize p)); lia).
  destruct (scan (maskS p) _ _ _) as [i|fp] eqn:E1.
  - apply scan_bounds in E1. rewrite length_slice in E1 by lia. lia.
  - destruct (scan (maskL p) _ _ _) as [i|fp'] eqn:E2; [|lia].
    apply scan_bounds in E2. rewrite length_slice in E2 by lia. lia.
Qed.

Lemma cutpoint_small p data : (blen data <= MinSize p)%Z → cutpoint p data = blen data.
Proof. intros H. unfold cutpoint. by rewrite (proj2 (Z.leb_le _ _) H). Qed.

Lemma slice_take data a b m :
  (0 <= a)%Z → (b <= Z.of_nat m)%Z → slice (take m data) a b = slice data a b.
Proof.
  intros Ha Hb. unfold slice. rewrite skipn_firstn_comm, firstn_firstn. f_equal. lia.
Qed.

(** The cut depends on the first [MaxSize] bytes only. *)
Lemma cutpoint_take p data :
  params_ok p → cutpoint p (take (Z.to_nat (MaxSize p)) data) = cutpoint p data.
Proof.
  intros (Hmin&Hma&Ham). destruct (Z.le_gt_cases (blen data) (MaxSize p)) as [Hle|Hgt].
  { rewrite take_ge; [done|]. unfold blen in Hle. lia. }
  assert (blen (take (Z.to_nat (MaxSize p)) data) = MaxSize p) as Hl
    by (unfold blen in *; rewrite length_take; lia).
  unfold cutpoint. rewrite Hl.
  destruct (Z.leb_spec (blen data) (MinSize p)); [lia|].
  assert ((MaxSize p <? blen data)%Z = true) as -> by (by apply Z.ltb_lt).
  rewrite Z.ltb_irrefl.
  destruct (Z.leb_spec (MaxSize p) (MinSize p)) as [Heq|Hlt].
  - assert (MaxSize p = MinSize p) as Heq' by lia. assert (AvgSize p = MinSize p) as Ha by lia.
    rewrite Heq', Ha, Z.ltb_irrefl. unfold slice. by rewrite !Z.sub_diag.
  - destruct (Z.ltb_spec (MaxSize p) (AvgSize p)); [lia|].
    rewrite !slice_take by lia. done.
Qed.

(** ** The reference chunking *)
Lemma cut_pos p data : params_ok p → data ≠ [] →
  0 < Z.to_nat (cutpoint p data) <= length data.
Proof.
  intros Hp Hd. destruct (cutpoint_range p data Hp Hd) as [H _]. unfold blen in H. lia.
Qed.

Lemma chunks_fuel_enough p f g data :
  params_ok p → length data <= f → length data <= g →
  chunks_fuel p f data = chunks_fuel p g data.
Proof.
  intros Hp. revert g data; induction f as [|f IH]; intros g data Hf Hg.
  { destruct data; [by destruct g|simpl in Hf; lia]. }
  destruct g as [|g]; [destruct data; [done|simpl in Hg; lia]|].
  destruct data as [|b data]; [done|]. cbn [chunks_fuel]. f_equal.
  pose proof (cut_pos p (b :: data) Hp ltac:(done)).
  apply IH; rewrite length_drop; simpl in *; lia.
Qed.

Lemma chunks_cons p data : params_ok p → data ≠ [] →
  chunks p data = take (Z.to_nat (cutpoint p data)) data
                  :: chunks p (drop (Z.to_nat (cutpoint p data)) data).
Proof.
  intros Hp Hne. unfold chunks. pose proof (cut_pos p data Hp Hne).
  destruct data as [|b data]; [done|]. cbn [length chunks_fuel]. f_equal.
  apply chunks_fuel_enough; [done|rewrite length_drop; simpl in *; lia|done].
Qed.

Lemma chunks_ind p (Q : bytes → list bytes → Prop) : params_ok p →
  Q [] [] →
  (∀ data c, data ≠ [] → c = Z.to_nat (cutpoint p data) →
     Q (drop c data) (chunks p (drop c data)) →
     Q data (take c data :: chunks p (drop c data))) →
  ∀ data, Q data (chunks p data).
Proof.
  intros Hp H0 HS data. remember (length data) as n eqn:Hn.
  revert data Hn. induction (lt_wf n) as [n _ IH]; intros data ->.
  destruct data as [|b data]; [done|].
  rewrite chunks_cons by done. apply HS; [done|done|].
  pose proof (cut_pos p (b :: data) Hp ltac:(done)).
  eapply IH; [|done]. rewrite length_drop. simpl in *. lia.
Qed.

(** ** Split over a well-behaved reader *)

(** Reads that each return some data, then end of file. *)
Definition good (evs : list rd_event) : Prop :=
  Forall (λ e, ∃ b bs, e = RData (b :: bs)) evs.

Lemma events_data_cons e evs : events_data (e :: evs) = event_data e ++ events_data evs.
Proof. reflexivity. Qed.

Lemma events_data_app l1 l2 : events_data (l1 ++ l2) = events_data l1 ++ events_data l2.
Proof. unfold events_data. by rewrite fmap_app, concat_app. Qed.

Lemma good_data_nil evs : good evs → events_data evs = [] → evs = [].
Proof. intros Hg. destruct Hg as [|e evs (b&bs&->) _]; [done|]. by rewrite events_data_cons. Qed.

(** Filling from [g ++ tl], where [g] is good and [tl] begins with an error or
    is empty: either [g] is used up below the limit, or the buffer is full. *)
Lemma fill_good p buf g tl :
  params_ok p → good g → (blen buf <= MaxSize p)%Z →
  (length (buf ++ events_data g) < Z.to_nat (MaxSize p) ∧
     fill p buf (g ++ tl) = fill p (buf ++ events_data g) tl) ∨
  (Z.to_nat (MaxSize p) <= length (buf ++ events_data g) ∧ ∃ g', good g' ∧
     fill p buf (g ++ tl) =
       (take (Z.to_nat (MaxSize p)) (buf ++ events_data g), g' ++ tl, None) ∧
     take (Z.to_nat (MaxSize p)) (buf ++ events_data g) ++ events_data g' = buf ++ events_data g).
Proof.
  intros (Hmin&Hma&Ham) Hg. revert buf.
  induction Hg as [|e g (b&bs&->) Hg IH]; intros buf Hb.
  - rewrite app_nil_r. change ([] ++ tl) with tl.
    destruct (decide (length buf < Z.to_nat (MaxSize p))); [by left|right].
    unfold blen in Hb. split; [lia|]. exists []. split; [constructor|].
    rewrite take_ge by lia. split; [|by rewrite app_nil_r].
    destruct tl; cbn [fill]; unfold blen;
      rewrite (proj2 (Z.ltb_ge _ _)) by lia; done.
  - rewrite events_data_cons. cbn [event_data]. rewrite app_assoc.
    cbn [app fill]. destruct (Z.ltb_spec (blen buf) (MaxSize p)) as [Hlt|Hge].
    + destruct (Z.leb_spec (blen (b :: bs)) (MaxSize p - blen buf)) as [Hfit|Hbig].
      * apply IH. unfold blen in *. rewrite length_app. lia.
      * right. unfold blen in *. rewrite !length_app in *.
        set (k := Z.to_nat (MaxSize p - Z.of_nat (length buf))).
        split; [simpl in *; lia|]. exists (RData (drop k (b :: bs)) :: g).
        assert (take (Z.to_nat (MaxSize p)) ((buf ++ b :: bs) ++ events_data g)
                = buf ++ take k (b :: bs)) as ->.
        { rewrite take_app_le by (rewrite length_app; simpl in *; lia).
          rewrite take_app_ge by lia. do 2 f_equal. unfold k. lia. }
        split; [|split; [done|]].
        -- constructor; [|done]. destruct (drop k (b :: bs)) as [|x l] eqn:E; [|eauto].
           apply (f_equal length) in E. rewrite length_drop in E. simpl in *. lia.
        -- rewrite events_data_cons. cbn [event_data].
           rewrite <- !app_assoc. f_equal. by rewrite app_assoc, take_drop.
    + right. unfold blen in *. rewrite !length_app. split; [lia|].
      exists (RData (b :: bs) :: g). split; [by constructor; eauto|].
      rewrite <- !app_assoc, take_app_le, take_ge by lia. split; done.
Qed.

Section split_lemmas.
Context {W : Type} (p : Params) (fn : bytes → M W unit).
Hypothesis Hp : params_ok p.

Lemma peek_good g : good g → peek g = (g, bool_decide (g = [])).
Proof. intros Hg. by destruct Hg as [|e g (b&bs&->) _]. Qed.

Lemma fill_nil buf : fill p buf [] = (buf, [], None).
Proof. simpl. by destruct (_ <? _)%Z. Qed.

(** One fill of a good reader. *)
Lemma fill_good_nil buf g :
  good g → (blen buf <= MaxSize p)%Z →
  ∃ buf' g', fill p buf g = (buf', g', None) ∧ good g' ∧
    buf' ++ events_data g' = buf ++ events_data g ∧
    buf' = take (Z.to_nat (MaxSize p)) (buf ++ events_data g).
Proof.
  intros Hg Hb. destruct (fill_good p buf g [] Hp Hg Hb) as [[Hl E]|(Hl&g'&Hg'&E&Hd)].
  - rewrite app_nil_r, fill_nil in E. do 2 eexists. split; [done|]. split; [constructor|].
    split; [by rewrite app_nil_r|]. rewrite take_ge; [done|]. lia.
  - rewrite !app_nil_r in E. by exists (take (Z.to_nat (MaxSize p)) (buf ++ events_data g)), g'.
Qed.

Lemma split_loop_good fuel buf g w :
  good g → (blen buf <= MaxSize p)%Z → length (buf ++ events_data g) < fuel →
  split_loop p fn fuel buf g w = for_each (chunks p (buf ++ events_data g)) fn w.
Proof.
  revert buf g w. induction fuel as [|fuel IH]; intros buf g w Hg Hb Hf; [lia|].
  cbn [split_loop]. destruct (fill_good_nil buf g Hg Hb) as (buf'&g'&->&Hg'&Hall&Hbuf').
  rewrite <- Hall in *. clear Hg Hb. destruct buf' as [|b buf'].
  { symmetry in Hbuf'. destruct Hp as (?&?&?).
    assert ([] ++ events_data g' = []) as ->; [|done].
    destruct ([] ++ events_data g'); [done|].
    destruct (Z.to_nat (MaxSize p)) eqn:E; [lia|done]. }
  set (data := (b :: buf') ++ events_data g') in *.
  assert (cutpoint p (b :: buf') = cutpoint p data) as Hcut
    by (rewrite Hbuf'; by apply cutpoint_take).
  rewrite (chunks_cons p data) by done. cbn [for_each]. rewrite Hcut.
  pose proof (cut_pos p (b :: buf') Hp ltac:(done)) as Hc. rewrite Hcut in Hc.
  set (c := Z.to_nat (cutpoint p data)) in *.
  assert (take c data = take c (b :: buf')) as -> by (apply take_app_le; lia).
  assert (drop c data = drop c (b :: buf') ++ events_data g') as Hdrop
    by (apply drop_app_le; lia).
  rewrite !run_bind. destruct (fn _ w) as [[[]|e] w1]; [|done].
  rewrite Hdrop.
  assert (length (drop c (b :: buf') ++ events_data g') < fuel) as Hf'.
  { rewrite <- Hdrop, length_drop.
    assert (0 < length data) by (unfold data; simpl; lia). lia. }
  assert (blen (b :: buf') <= MaxSize p)%Z as Hbb.
  { rewrite Hbuf'. unfold blen. rewrite length_take. destruct Hp as (?&?&?). lia. }
  destruct (drop c (b :: buf')) as [|r rest] eqn:Er.
  - rewrite peek_good by done. case_bool_decide as Eg.
    + by subst g'.
    + apply IH; [done|unfold blen; destruct Hp as (?&?&?); simpl; lia|done].
  - apply IH; [done| |done]. rewrite <- Er. unfold blen in *. rewrite length_drop. lia.
Qed.

(** ** Split over a reader that fails *)
Lemma fill_err buf e tl :
  (blen buf < MaxSize p)%Z → fill p buf (RErr e :: tl) = (buf, tl, Some e).
Proof. intros H. simpl. by rewrite (proj2 (Z.ltb_lt _ _)). Qed.

(** A reader that, after the good reads [g], reports [e] at least twice (the
    HTTP body readers repeat their error). *)
Lemma split_loop_fails fuel buf g e tl :
  good g → (blen buf <= MaxSize p)%Z → length (buf ++ events_data g) < fuel →
  ∃ l, l `prefix_of` chunks p (buf ++ events_data g) ∧
    ∀ w, split_loop p fn fuel buf (g ++ RErr e :: RErr e :: tl) w = (for_each l fn ;; throw e) w.
Proof.
  pose proof Hp as (Hmin&Hma&Ham).
  revert buf g. induction fuel as [|fuel IH]; intros buf g Hg Hb Hf; [lia|].
  cbn [split_loop].
  destruct (fill_good p buf g (RErr e :: RErr e :: tl) Hp Hg Hb)
    as [[Hl E]|(Hl&g'&Hg'&E&Hall)]; rewrite E; clear E.
  { rewrite fill_err by (unfold blen; lia). exists []. split; [apply prefix_nil|done]. }
  set (data := buf ++ events_data g) in *.
  set (buf' := take (Z.to_nat (MaxSize p)) data) in *.
  assert (buf' ≠ []) as Hne.
  { intros E. apply (f_equal length) in E. unfold buf' in E. rewrite length_take in E.
    simpl in E. lia. }
  assert (cutpoint p buf' = cutpoint p data) as Hcut by (by apply cutpoint_take).
  pose proof (cut_pos p buf' Hp Hne) as Hc. rewrite Hcut in Hc.
  destruct buf' as [|b buf''] eqn:Eb; [done|]. rewrite <- Eb in *. rewrite Hcut.
  assert (data ≠ []) as Hd by (intros E; unfold buf' in Eb; rewrite E in Eb; by rewrite take_nil in Eb).
  rewrite (chunks_cons p data) by done. set (c := Z.to_nat (cutpoint p data)) in *.
  assert (take c data = take c buf') as Htk by (rewrite <- Hall; apply take_app_le; lia).
  assert (drop c data = drop c buf' ++ events_data g') as Hdrop
    by (rewrite <- Hall at 1; apply drop_app_le; lia).
  rewrite Htk, Hdrop.
  assert (length (drop c buf' ++ events_data g') < fuel) as Hf'.
  { rewrite <- Hdrop, length_drop. destruct data; [done|simpl in *; lia]. }
  assert (blen (drop c buf') <= MaxSize p)%Z as Hbb.
  { unfold buf', blen. rewrite length_drop, length_take. lia. }
  assert (∃ l, l `prefix_of` chunks p (drop c buf' ++ events_data g') ∧
    ∀ w, match drop c buf' with
         | [] => let '(evs, eof) := peek (g' ++ RErr e :: RErr e :: tl) in
                 if eof then mret tt else split_loop p fn fuel [] evs
         | rest => split_loop p fn fuel rest (g' ++ RErr e :: RErr e :: tl)
         end w = (for_each l fn ;; throw e) w) as (l&Hpre&Hl').
  { destruct (drop c buf') as [|r rest] eqn:Er.
    - destruct Hg' as [|ev g'' (x&xs&->) Hg''].
      + exists []. split; [apply prefix_nil|]. intros w. cbn [peek app].
        destruct fuel as [|fuel']; [simpl in Hf'; lia|]. cbn [split_loop].
        by rewrite fill_err by (unfold blen; simpl; lia).
      + cbn [app peek]. destruct (IH [] (RData (x :: xs) :: g'')) as (l&?&Hl');
          [constructor; eauto|unfold blen; simpl; lia|done|]. by exists l.
    - destruct (IH (r :: rest) g') as (l&?&Hl'); [done..|]. by exists l. }
  exists (take c buf' :: l). split; [by apply prefix_cons|]. intros w.
  specialize (Hl').
  destruct buf' as [|b' bb]; [done|]. cbn [for_each].
  rewrite !run_bind. destruct (fn _ w) as [[[]|e'] w1]; [|done].
  rewrite Hl'. by rewrite run_bind.
Qed.
End split_lemmas.

(** Whatever the reader does, [Split] is a loop over some list of chunks that
    ends in success or in one error. *)
Lemma Split_trace p evs :
  ∃ l o, ∀ W (fn : bytes → M W unit) w, Split p fn evs w = (for_each l fn ;; lift o) w.
Proof.
  unfold Split. generalize (S (length (events_data evs))) as fuel. intros fuel.
  generalize ([] : bytes) as buf. revert evs.
  induction fuel as [|fuel IH]; intros evs buf; cbn [split_loop].
  { exists [], (Err (ErrText "out of fuel")). done. }
  destruct (fill p buf evs) as [[buf1 evs1] [e|]]; [by exists [], (Err e)|].
  destruct buf1 as [|b buf1]; [by exists [], (Ok tt)|].
  set (c := Z.to_nat (cutpoint p (b :: buf1))). set (x := take c (b :: buf1)).
  cut (∃ l o, ∀ W (fn : bytes → M W unit) w, match drop c (b :: buf1) with
                   | [] => let '(evs, eof) := peek evs1 in
                           if eof then mret tt else split_loop p fn fuel [] evs
                   | _ => split_loop p fn fuel (drop c (b :: buf1)) evs1
                   end w = (for_each l fn ;; lift o) w).
  { intros (l&o&H). exists (x :: l), o. intros W fn w. cbn [for_each].
    rewrite !run_bind. destruct (fn x w) as [[[]|e] w1]; [|done].
    destruct (drop c (b :: buf1)); rewrite H; by rewrite run_bind. }
  destruct (drop c (b :: buf1)) as [|r rest]; [|apply IH].
  destruct (peek evs1) as [evs2 []]; [by exists [], (Ok tt)|apply IH].
Qed.

(** The chunks [Split] cuts, whatever the callback does with them. *)
Definition collect : bytes → M (list bytes) unit := λ c, modify (λ acc, acc ++ [c]).

Lemma for_each_collect l acc : for_each l collect acc = (Ok tt, acc ++ l).
Proof.
  revert acc. induction l as [|x l IH]; intros acc; [by rewrite app_nil_r|].
  cbn [for_each]. rewrite run_bind. cbn. rewrite IH. by rewrite <- app_assoc.
Qed.

(** ** Claims *)

(** with the constants of the source, a chunk is never longer than
    [MaxSize], never empty, within the data, and at least [MinSize] unless the
    data itself is shorter. *)
Theorem cutpoint_bounds data :
  data ≠ [] →
  (0 < cutpoint kamara_params data <= blen data)%Z ∧
  (cutpoint kamara_params data <= 4194304)%Z ∧
  (262144 < blen data → 262144 <= cutpoint kamara_params data)%Z.
Proof. intros H. exact (cutpoint_range kamara_params data kamara_params_ok H). Qed.

Lemma cutpoint_bounds_witness :
  (0 < cutpoint kamara_params [x61; x62] <= blen [x61; x62])%Z ∧
  (cutpoint kamara_params [x61; x62] <= 4194304)%Z ∧
  (262144 < blen [x61; x62] → 262144 <= cutpoint kamara_params [x61; x62])%Z.
Proof. apply (cutpoint_bounds [x61; x62]). discriminate. Defined.

Lemma chunks_sizes p data : params_ok p →
  Forall (λ c, 0 < length c ∧ (blen c <= MaxSize p)%Z) (chunks p data) ∧
  (∀ l c c' r, chunks p data = l ++ c :: c' :: r → (MinSize p <= blen c)%Z).
Proof.
  intros Hp. apply (chunks_ind p (λ data cs,
    Forall (λ c, 0 < length c ∧ (blen c <= MaxSize p)%Z) cs ∧
    ∀ l c c' r, cs = l ++ c :: c' :: r → (MinSize p <= blen c)%Z)); [done| |].
  { split; [done|]. by intros []. }
  clear data. intros data c Hne Hc [IH1 IH2].
  destruct (cutpoint_range p data Hp Hne) as (Hr&Hmax&Hmin). unfold blen in *.
  assert (length (take c data) = c) as Hlen by (rewrite length_take; lia).
  split.
  - constructor; [|done]. rewrite Hlen. lia.
  - intros [|x l] c1 c2 r H; injection H as H1 H2.
    + rewrite <- H1, Hlen, Hc, Z2Nat.id by lia. apply Hmin.
      destruct (decide (length data = c)) as [E|].
      2: { destruct (Z.le_gt_cases (blen data) (MinSize p)) as [Hle|]; [|done].
           apply cutpoint_small in Hle. unfold blen in Hle. lia. }
      rewrite <- E, drop_all in H2. done.
    + by apply (IH2 l c1 c2 r).
Qed.

Lemma chunks_concat p data : params_ok p → concat (chunks p data) = data.
Proof.
  intros Hp. apply (chunks_ind p (λ data cs, concat cs = data)); [done..|].
  clear data. intros data c Hne _ IH. cbn [concat]. rewrite IH. apply take_drop.
Qed.

(** chunking loses nothing and respects the size bounds: the chunks
    concatenate to the data, each is non-empty and at most [MaxSize] long, and
    every chunk but the last is at least [MinSize] long. *)
Theorem chunks_partition p data :
  params_ok p →
  concat (chunks p data) = data ∧
  Forall (λ c, 0 < length c ∧ (blen c <= MaxSize p)%Z) (chunks p data) ∧
  (∀ l c c' r, chunks p data = l ++ c :: c' :: r → (MinSize p <= blen c)%Z).
Proof.
  intros Hp. split; [by apply chunks_concat|by apply chunks_sizes].
Qed.

(** Tiny parameters, to run the definitions. *)
Definition tiny : Params := MkParams 2 4 6 3 1.

Lemma chunks_partition_witness :
  concat (chunks tiny (str_bytes "content-defined")) = str_bytes "content-defined" ∧
  Forall (λ c, 0 < length c ∧ (blen c <= MaxSize tiny)%Z) (chunks tiny (str_bytes "content-defined")) ∧
  (∀ l c c' r, chunks tiny (str_bytes "content-defined") = l ++ c :: c' :: r →
     (MinSize tiny <= blen c)%Z).
Proof. apply (chunks_partition tiny). unfold params_ok, tiny; simpl; lia. Defined.

Lemma Split_chunks {W} p (fn : bytes → M W unit) evs w :
  params_ok p → good evs →
  Split p fn evs w = for_each (chunks p (events_data evs)) fn w.
Proof.
  intros Hp Hg. unfold Split. rewrite split_loop_good; [done|done|done| |].
  - destruct Hp as (?&?&?). unfold blen. simpl. lia.
  - simpl. lia.
Qed.

(** C40: chunk boundaries depend on the content only: over any two readers
    that deliver the same data in non-empty pieces and end without an error, however
    the pieces are cut, [Split] does the same, namely hands the callback exactly the reference
    chunks in order (and returns its first error), without running out of fuel. *)
Theorem Split_is_chunks {W} p (fn : bytes → M W unit) evs evs' w :
  params_ok p → good evs → good evs' → events_data evs = events_data evs' →
  Split p fn evs w = Split p fn evs' w ∧
  Split p fn evs w = for_each (chunks p (events_data evs)) fn w.
Proof.
  intros Hp Hg Hg' He. rewrite !Split_chunks by done. by rewrite He.
Qed.


Lemma Split_is_chunks_witness :
  let e1 := [RData (str_bytes "con"); RData (str_bytes "tent-d"); RData (str_bytes "efined")] in
  let e2 := [RData (str_bytes "content-defined")] in
  Split tiny collect e1 [] = Split tiny collect e2 [] ∧
  Split tiny collect e1 [] = for_each (chunks tiny (str_bytes "content-defined")) collect [].
Proof.
  apply (Split_is_chunks tiny collect
    [RData (str_bytes "con"); RData (str_bytes "tent-d"); RData (str_bytes "efined")]
    [RData (str_bytes "content-defined")] []).
  - unfold params_ok, tiny; simpl; lia.
  - repeat constructor; vm_compute; do 2 eexists; reflexivity.
  - repeat constructor; vm_compute; do 2 eexists; reflexivity.
  - vm_compute. reflexivity.
Defined.

Lemma Split_fails {W} p (fn : bytes → M W unit) g e tl :
  params_ok p → good g →
  ∃ l, l `prefix_of` chunks p (events_data g) ∧
    ∀ w, Split p fn (g ++ RErr e :: RErr e :: tl) w = (for_each l fn ;; throw e) w.
Proof.
  intros Hp Hg. unfold Split.
  apply (split_loop_fails p fn Hp _ [] g e tl Hg).
  - destruct Hp as (?&?&?). unfold blen. simpl. lia.
  - rewrite events_data_app. change ([] ++ events_data g) with (events_data g).
    rewrite length_app. lia.
Qed.

(** a failing body is never accepted: when the reader reports an error
    and repeats it, [Split] hands over a prefix of the chunks and then returns
    that error. *)
Theorem Split_surfaces_error {W} p (fn : bytes → M W unit) g e tl :
  params_ok p → good g →
  ∃ l, l `prefix_of` chunks p (events_data g) ∧
    ∀ w, Split p fn (g ++ RErr e :: RErr e :: tl) w = (for_each l fn ;; throw e) w.
Proof. apply Split_fails. Qed.

Lemma Split_surfaces_error_witness :
  ∃ l, l `prefix_of` chunks tiny (events_data [RData (str_bytes "content-d")]) ∧
    ∀ w, Split tiny collect ([RData (str_bytes "content-d")] ++ RErr ErrMaxBytes :: RErr ErrMaxBytes :: []) w
         = (for_each l collect ;; throw ErrMaxBytes) w.
Proof.
  apply (Split_surfaces_error tiny collect [RData (str_bytes "content-d")] ErrMaxBytes []).
  - unfold params_ok, tiny; simpl; lia.
  - repeat constructor; vm_compute; do 2 eexists; reflexivity.
Defined.

(** A read of no bytes and no error is taken for the end of the stream when
    nothing is buffered: the data behind it is lost without an error. *)
Theorem Split_empty_read_truncates {W} p (fn : bytes → M W unit) evs w :
  params_ok p → Split p fn (RData [] :: evs) w = (Ok tt, w).
Proof.
  intros (Hmin&Hma&Ham). unfold Split. cbn [split_loop fill].
  by rewrite (proj2 (Z.ltb_lt _ _)) by (unfold blen; simpl; lia).
Qed.

(** An error that the reader reports only once is lost when [Peek] meets it:
    the truncated stream is accepted. *)
Example Split_peek_drops_error :
  Split (MkParams 2 2 2 3 1) collect [RData (str_bytes "ab"); RErr ErrMaxBytes] []
    = (Ok tt, [str_bytes "ab"]).
Proof. vm_compute. reflexivity. Qed.

End Chunker.
