(* ===== verification/ChunkCrypto.v ===== *)
(** * ChunkCrypto: the at-rest chunk format (kamara/internal/crypto/chunkcrypto.go)

    BLAKE3 and XChaCha20-Poly1305 are third-party code: the parameters of
    [Primitives], with [PrimitivesOk] their documented behaviour (digest size,
    ciphertext size, and that opening what was sealed under the same key, nonce
    and associated data returns the plaintext). *)

From S2P Require Import Prelude GoText World.

Class Primitives := {
  blake3_Sum256 : bytes → bytes;
  aead_Seal : bytes → bytes → bytes → bytes → bytes;         (* key nonce plaintext ad *)
  aead_Open : bytes → bytes → bytes → bytes → option bytes;  (* key nonce ciphertext ad *)
}.

Definition KeySize : nat := 32.
Definition NonceSize : nat := 24.
Definition Overhead : nat := 16.

Class PrimitivesOk {Pr : Primitives} := {
  blake3_length : ∀ m, length (blake3_Sum256 m) = 32;
  aead_length : ∀ k n m a, length (aead_Seal k n m a) = length m + Overhead;
  aead_open_seal : ∀ k n m a, aead_Open k n (aead_Seal k n m a) a = Some m;
}.

Definition FormatVersion : byte := x01.
Definition adDomain : string := "peristera.kamara.v1.chunk".

Record Cipher := MkCipher { c_dek : bytes; c_tenant : string }.

(** crypto.New *)
Definition New (dek : bytes) (tenant : string) : res Cipher :=
  if negb (bool_decide (length dek = KeySize)) then Err (ErrText "crypto: DEK must be 32 bytes")
  else if bool_decide (tenant = "") then Err (ErrText "crypto: tenant required")
  else Ok (MkCipher dek tenant).

(** Cipher.ad: the content-scoped associated data. *)
Definition ad (c : Cipher) (hash : string) : bytes :=
  str_bytes adDomain ++ [x00] ++ str_bytes (c_tenant c) ++ [x00] ++ str_bytes hash
  ++ [x00; FormatVersion].

Section crypto.
Context {Pr : Primitives}.

Definition ChunkHash (plaintext : bytes) : string := hex_encode (blake3_Sum256 plaintext).

(** The blob [Seal] writes, for a given nonce. *)
Definition seal_with (c : Cipher) (nonce plaintext : bytes) : bytes :=
  FormatVersion :: nonce
    ++ aead_Seal (c_dek c) nonce plaintext (ad c (ChunkHash plaintext)).

Definition Seal {P : Platform} {D} (c : Cipher) (plaintext : bytes)
    : M (world D) (string * bytes) :=
  let hash := ChunkHash plaintext in
  nonce ← draw NonceSize;
  mret (hash, seal_with c nonce plaintext).

Definition Open (c : Cipher) (hash : string) (blob : bytes) : res bytes :=
  let hdr := 1 + NonceSize in
  if bool_decide (length blob < hdr + Overhead) then Err (ErrText "crypto: blob too short")
  else match blob with
  | [] => Err (ErrText "crypto: blob too short")
  | v :: _ =>
      if negb (bool_decide (v = FormatVersion)) then Err (ErrText "crypto: unknown format version")
      else
        let nonce := take NonceSize (drop 1 blob) in
        match aead_Open (c_dek c) nonce (drop hdr blob) (ad c hash) with
        | None => Err (ErrWrap "crypto: open" (ErrText "message authentication failed"))
        | Some pt =>
            if negb (bool_decide (ChunkHash pt = hash))
            then Err (ErrText "crypto: chunk hash mismatch")
            else Ok pt
        end
  end.

(** ** Lemmas *)
Lemma ChunkHash_length {Ok' : PrimitivesOk} pt : String.length (ChunkHash pt) = 64.
Proof. unfold ChunkHash. by rewrite length_hex_encode, blake3_length. Qed.

Lemma ChunkHash_hex pt : string_forallb is_hex_char (ChunkHash pt) = true.
Proof. apply hex_encode_is_hex. Qed.

(** Whatever [Open] returns hashes to the key it was asked for. *)
Lemma Open_hash c hash blob pt : Open c hash blob = Ok pt → ChunkHash pt = hash.
Proof.
  unfold Open. case_bool_decide; [done|]. destruct blob as [|v blob]; [done|].
  case_bool_decide; [|done]. cbn [negb]. destruct (aead_Open _ _ _ _) as [pt'|]; [|done].
  case_bool_decide; [|done]. by intros [= <-].
Qed.

Lemma Open_seal_with {Ok' : PrimitivesOk} c nonce pt :
  length nonce = NonceSize → Open c (ChunkHash pt) (seal_with c nonce pt) = Ok pt.
Proof.
  intros Hn. unfold Open, seal_with.
  rewrite bool_decide_eq_false_2.
  2: { simpl length. rewrite length_app, aead_length, Hn. lia. }
  rewrite bool_decide_eq_true_2 by done. cbn [negb].
  change (drop 1 (FormatVersion :: ?x)) with x.
  change (drop (1 + NonceSize) (FormatVersion :: ?x)) with (drop NonceSize x).
  rewrite <- Hn at 1. rewrite take_app_length.
  rewrite <- Hn, drop_app_length, aead_open_seal.
  by rewrite bool_decide_eq_true_2.
Qed.
End crypto.

(** ** Associated data is unambiguous *)
Definition nul_free (s : string) : Prop := x00 ∉ str_bytes s.

Lemma app_sep_inj (sep : byte) (a a' b b' : bytes) :
  sep ∉ a → sep ∉ a' → a ++ sep :: b = a' ++ sep :: b' → a = a' ∧ b = b'.
Proof.
  revert a'; induction a as [|x a IH]; intros [|x' a'] Ha Ha' H; simplify_list_eq.
  - done.
  - apply not_elem_of_cons in Ha' as [? _]. done.
  - apply not_elem_of_cons in Ha as [? _]. done.
  - apply not_elem_of_cons in Ha as [_ Ha]. apply not_elem_of_cons in Ha' as [_ Ha'].
    by destruct (IH a' Ha Ha') as [-> ->].
Qed.

(** ** Claims *)

(** Concrete primitives, for evaluating the definitions: a padded prefix as the
    digest, and an "encryption" that appends a tag computed from the key, the
    nonce and the associated data.  They satisfy the laws and offer no
    security. *)
Definition pad (n : nat) (l : bytes) : bytes := take n (l ++ replicate n x00).

Definition toy_primitives : Primitives := {|
  blake3_Sum256 m := pad 32 (m ++ [byte_of_Z (Z.of_nat (length m))]);
  aead_Seal k n m a := m ++ pad Overhead (reverse (n ++ a ++ k));
  aead_Open k n ct a :=
    let m := take (length ct - Overhead) ct in
    if bool_decide (ct = m ++ pad Overhead (reverse (n ++ a ++ k))) then Some m else None;
|}.

Lemma length_pad n l : length (pad n l) = n.
Proof. unfold pad. rewrite length_take, length_app, length_replicate. lia. Qed.

Lemma toy_primitives_ok : PrimitivesOk (Pr := toy_primitives).
Proof.
  split; simpl.
  - intros m. apply length_pad.
  - intros k n m a. by rewrite length_app, length_pad.
  - intros k n m a. rewrite length_app, length_pad, Nat.add_sub, take_app_length.
    by rewrite bool_decide_eq_true_2.
Defined.

(** sealing and opening a chunk is the identity, for every plaintext,
    cipher and nonce the platform draws, and the key it is stored under is the
    content hash. *)
Theorem Open_Seal {Pr : Primitives} {Ok' : PrimitivesOk} {P : Platform} {D}
    (c : Cipher) (pt : bytes) (w : world D) :
  ∃ blob w', Seal c pt w = (Ok (ChunkHash pt, blob), w') ∧ Open c (ChunkHash pt) blob = Ok pt.
Proof.
  do 2 eexists. split; [reflexivity|]. apply Open_seal_with. apply rand_length.
Qed.

Lemma Open_Seal_witness :
  ∃ blob w', Seal (Pr := toy_primitives) (P := counting_platform)
      (MkCipher (replicate 32 x07) "t") [x61] (boot tt) = (Ok (ChunkHash (Pr := toy_primitives) [x61], blob), w') ∧
    Open (Pr := toy_primitives) (MkCipher (replicate 32 x07) "t")
      (ChunkHash (Pr := toy_primitives) [x61]) blob = Ok [x61].
Proof.
  apply (Open_Seal (Pr := toy_primitives) (Ok' := toy_primitives_ok) (P := counting_platform)
           (MkCipher (replicate 32 x07) "t") [x61] (boot tt)).
Defined.

(** the associated data of two chunks is equal only for the same tenant
    and the same hash (for NUL-free tenant names and hashes), so a blob sealed
    for one tenant or chunk is authenticated for no other. *)
Theorem ad_injective c c' h h' :
  nul_free (c_tenant c) → nul_free (c_tenant c') → nul_free h → nul_free h' →
  ad c h = ad c' h' → c_tenant c = c_tenant c' ∧ h = h'.
Proof.
  unfold ad, nul_free. intros Hc Hc' Hh Hh' H.
  apply app_inv_head in H. apply (app_inv_head [x00]) in H.
  cbn [app] in H. apply app_sep_inj in H as [H1 H2]; [|done..].
  apply app_sep_inj in H2 as [H2 _]; [|done..].
  split; by apply str_bytes_inj.
Qed.

Lemma ad_injective_witness :
  let c := MkCipher [] "a.example" in
  c_tenant c = c_tenant c ∧ "00ff" = "00ff".
Proof.
  apply (ad_injective (MkCipher [] "a.example") (MkCipher [] "a.example") "00ff" "00ff");
    try reflexivity; unfold nul_free; eval_decide.
Defined.
