(* ===== verification/Blob.v ===== *)
(** * Blob: the contract of the content-addressed blob store

    The interface [Store] of kamara/internal/blob/blob.go as its clients see it:
    a map from keys to blobs, [Put] idempotent, [Delete] silent on an absent
    key, every call able to fail.  BlobFS.v proves that the filesystem store
    refines these operations. *)

From S2P Require Import Prelude GoText World.

Definition isHex (s : string) : bool := string_forallb is_hex_char s.

(** The key guard of FS.path. *)
Definition valid_key (key : string) : bool :=
  negb (bool_decide (String.length key < 4)) && isHex key.

Definition errInvalidKey : error := ErrText "blob: invalid key".

Section blob.
Context {D : Type}.
Abbreviation W := (world D).

Definition guard_key (key : string) : M W unit :=
  if valid_key key then mret tt else throw errInvalidKey.

Definition Has (key : string) : M W bool :=
  guard_key key ;; call (gets (λ w, bool_decide (is_Some (w_blobs w !! key)))).

Definition put_blob (key : string) (b : bytes) (m : gmap string bytes) : gmap string bytes :=
  match m !! key with Some _ => m | None => <[key := b]> m end.

Definition Put (key : string) (b : bytes) : M W unit :=
  guard_key key ;; call (modify (λ w, set_blobs (put_blob key b (w_blobs w)) w)).

Definition Get (key : string) : M W bytes :=
  guard_key key ;;
  call (λ w, match w_blobs w !! key with
             | Some b => (Ok b, w)
             | None => (Err ErrBlobNotExist, w)
             end).

Definition Delete (key : string) : M W unit :=
  guard_key key ;; call (modify (λ w, set_blobs (delete key (w_blobs w)) w)).

(** ** Lemmas *)
Implicit Types (w : W) (I : W → Prop).

Lemma keeps_guard_key I key : keeps I (guard_key key).
Proof. unfold guard_key. keeps_tac. Qed.

Lemma keeps_Has I key : stores_only I → keeps I (Has key).
Proof.
  intros HI. apply keeps_bind; [apply keeps_guard_key|intros _].
  apply keeps_call; [done|apply keeps_gets].
Qed.

Lemma keeps_Put I key b :
  stores_only I → (∀ w, I w → I (set_blobs (put_blob key b (w_blobs w)) w)) → keeps I (Put key b).
Proof.
  intros HI H. apply keeps_bind; [apply keeps_guard_key|intros _].
  apply keeps_call; [done|by apply keeps_modify].
Qed.

Lemma keeps_Get I key : stores_only I → keeps I (Get key).
Proof.
  intros HI. apply keeps_bind; [apply keeps_guard_key|intros _].
  apply keeps_call; [done|]. intros w Hw. by destruct (w_blobs w !! key).
Qed.

Lemma keeps_Delete I key :
  stores_only I → (∀ w, I w → I (set_blobs (delete key (w_blobs w)) w)) → keeps I (Delete key).
Proof.
  intros HI H. apply keeps_bind; [apply keeps_guard_key|intros _].
  apply keeps_call; [done|by apply keeps_modify].
Qed.

Lemma put_blob_lookup key b m k : put_blob key b m !! k =
  match m !! k with Some x => Some x | None => if decide (k = key) then Some b else None end.
Proof.
  unfold put_blob. destruct (m !! key) as [x|] eqn:E.
  - destruct (m !! k) eqn:Ek; [done|]. destruct (decide (k = key)) as [->|]; congruence.
  - destruct (decide (k = key)) as [->|Hn].
    + by rewrite E, lookup_insert_eq.
    + rewrite lookup_insert_ne by done. by destruct (m !! k).
Qed.

(** What is outside the blob store, and outside its faults. *)
Definition w_other w : D * gset fga_tuple * Z := (w_db w, w_fga w, w_now w).

Lemma guard_key_cases key w r w' : guard_key key w = (r, w') →
  w' = w ∧ (r = Ok tt ∨ is_ok r = false).
Proof. unfold guard_key. destruct (valid_key key); intros [= <- <-]; auto. Qed.

Lemma Has_cases key w r w' : Has key w = (r, w') →
  w_other w' = w_other w ∧ w_blobs w' = w_blobs w ∧
  (∀ b, r = Ok b → b = bool_decide (is_Some (w_blobs w !! key))).
Proof.
  unfold Has. rewrite run_bind. destruct (guard_key key w) as [r0 w0] eqn:E.
  apply guard_key_cases in E as [-> _]. destruct r0; [|by intros [= <- <-]].
  intros (w1&Hd&Hr&Hn&_&H)%call_cases. injection Hr as Hb Hf. unfold w_other.
  destruct H as [[= <- <-]|[-> [-> | ->]]]; cbn; rewrite ?Hd, ?Hb, ?Hf, ?Hn; split_and!; naive_solver.
Qed.

Lemma Put_cases key b w r w' : Put key b w = (r, w') →
  w_other w' = w_other w ∧
  ((w_blobs w' = w_blobs w ∧ is_ok r = false) ∨ w_blobs w' = put_blob key b (w_blobs w)).
Proof.
  unfold Put. rewrite run_bind. destruct (guard_key key w) as [r0 w0] eqn:E.
  apply guard_key_cases in E as [-> _]. destruct r0; [|intros [= <- <-]; auto].
  intros (w1&Hd&Hr&Hn&_&H)%call_cases. injection Hr as Hb Hf. unfold w_other.
  destruct H as [[= <- <-]|[-> [-> | ->]]]; cbn; rewrite ?Hd, ?Hb, ?Hf, ?Hn; auto.
Qed.

Lemma Delete_cases key w r w' : Delete key w = (r, w') →
  w_other w' = w_other w ∧
  ((w_blobs w' = w_blobs w ∧ is_ok r = false) ∨ w_blobs w' = delete key (w_blobs w)).
Proof.
  unfold Delete. rewrite run_bind. destruct (guard_key key w) as [r0 w0] eqn:E.
  apply guard_key_cases in E as [-> _]. destruct r0; [|intros [= <- <-]; auto].
  intros (w1&Hd&Hr&Hn&_&H)%call_cases. injection Hr as Hb Hf. unfold w_other.
  destruct H as [[= <- <-]|[-> [-> | ->]]]; cbn; rewrite ?Hd, ?Hb, ?Hf, ?Hn; auto.
Qed.

(** In a fault-free world. *)
Lemma run_Has_nil key w : w_faults w = [] → valid_key key = true →
  Has key w = (Ok (bool_decide (is_Some (w_blobs w !! key))), w).
Proof.
  intros H V. unfold Has, guard_key. rewrite run_bind, V. cbn. by rewrite run_call_nil.
Qed.

Lemma run_Put_nil key b w : w_faults w = [] → valid_key key = true →
  Put key b w = (Ok tt, set_blobs (put_blob key b (w_blobs w)) w).
Proof.
  intros H V. unfold Put, guard_key. rewrite run_bind, V. cbn. by rewrite run_call_nil.
Qed.

Lemma run_Get_nil key w b : w_faults w = [] → valid_key key = true →
  w_blobs w !! key = Some b → Get key w = (Ok b, w).
Proof.
  intros H V E. unfold Get, guard_key. rewrite run_bind, V. cbn. rewrite run_call_nil by done.
  by rewrite E.
Qed.
End blob.

#[export] Hint Resolve keeps_Has keeps_Get : go.
