(* ===== verification/BlobFS.v ===== *)
(** * BlobFS: the filesystem blob store (kamara/internal/blob/blob.go)

    A file system with a page cache: directory entries and file data each have
    a live and a durable version, fsync copies one into the other, and a crash
    keeps, entry by entry, one of the two.  The operations of [FS] are written
    as the source writes them, one [call] per system call, so every system call
    can fail, and the state remembers every intermediate file system, so a
    crash can be placed between any two calls. *)

From S2P Require Import Prelude GoText World Blob.
From Stdlib Require Strings.String.
Import Stdlib.Strings.String (substring).

Abbreviation fpath := (list string).

Inductive node := NDir | NFile (inode : nat).
#[global] Instance node_eq_dec : EqDecision node.
Proof. solve_decision. Defined.

(** Paths are relative to the store's root directory, which exists. *)
Record fsys := Fsys {
  fs_ents : gmap fpath node;     (* live directory entries *)
  fs_dur : gmap fpath node;      (* durable directory entries *)
  fs_data : gmap nat bytes;      (* live file contents *)
  fs_sync : gmap nat bytes;      (* durable file contents *)
  fs_next : nat;                 (* next inode number *)
  fs_dirsync : bool;             (* does fsync of a directory work here? *)
}.

(** The file system with every state it went through. *)
Record disk := Disk { d_now : fsys; d_past : list fsys }.

Definition fs_empty (dirsync : bool) : fsys := Fsys ∅ ∅ ∅ ∅ 0 dirsync.
Definition mkfs (dirsync : bool) : disk := Disk (fs_empty dirsync) [].

Definition EINVAL : error := ErrText "invalid argument".
Definition EEXIST : error := ErrText "file exists".

(** ** System calls *)
Section syscalls.
Definition parent (p : fpath) : fpath := take (length p - 1) p.

Definition set_ents (e : gmap fpath node) (s : fsys) : fsys :=
  Fsys e (fs_dur s) (fs_data s) (fs_sync s) (fs_next s) (fs_dirsync s).

Definition sys {A} (f : fsys → res (A * fsys)) : M (world disk) A :=
  stmt (λ d, match f (d_now d) with
             | Ok (a, s) => Ok (a, Disk s (d_now d :: d_past d))
             | Err e => Err e
             end).

Definition os_Stat (p : fpath) : M (world disk) unit :=
  sys (λ s, match fs_ents s !! p with Some _ => Ok (tt, s) | None => Err ErrBlobNotExist end).

Definition os_Mkdir (p : fpath) : M (world disk) unit :=
  sys (λ s, match fs_ents s !! p with
            | Some _ => Ok (tt, s)
            | None => Ok (tt, set_ents (<[p := NDir]> (fs_ents s)) s)
            end).

(** os.MkdirAll: each missing prefix in turn. *)
Definition os_MkdirAll (p : fpath) : M (world disk) unit :=
  for_each (seq 1 (length p)) (λ n, os_Mkdir (take n p)).

(** open(O_CREAT|O_EXCL) *)
Definition os_CreateExcl (p : fpath) : M (world disk) nat :=
  sys (λ s, match fs_ents s !! p with
            | Some _ => Err EEXIST
            | None =>
                let i := fs_next s in
                Ok (i, Fsys (<[p := NFile i]> (fs_ents s)) (fs_dur s)
                            (<[i := []]> (fs_data s)) (fs_sync s) (S i) (fs_dirsync s))
            end).

Definition file_Write (i : nat) (b : bytes) : M (world disk) unit :=
  sys (λ s, Ok (tt, Fsys (fs_ents s) (fs_dur s)
                         (<[i := default [] (fs_data s !! i) ++ b]> (fs_data s))
                         (fs_sync s) (fs_next s) (fs_dirsync s))).

Definition file_Sync (i : nat) : M (world disk) unit :=
  sys (λ s, Ok (tt, Fsys (fs_ents s) (fs_dur s) (fs_data s)
                         (<[i := default [] (fs_data s !! i)]> (fs_sync s))
                         (fs_next s) (fs_dirsync s))).

Definition file_Close : M (world disk) unit := sys (λ s, Ok (tt, s)).

Definition os_Rename (a b : fpath) : M (world disk) unit :=
  sys (λ s, match fs_ents s !! a with
            | None => Err ErrBlobNotExist
            | Some n => Ok (tt, set_ents (<[b := n]> (delete a (fs_ents s))) s)
            end).

Definition os_Remove (p : fpath) : M (world disk) unit :=
  sys (λ s, match fs_ents s !! p with
            | None => Err ErrBlobNotExist
            | Some _ => Ok (tt, set_ents (delete p (fs_ents s)) s)
            end).

Definition os_OpenDir (p : fpath) : M (world disk) unit :=
  sys (λ s, match fs_ents s !! p with Some _ => Ok (tt, s) | None => Err ErrBlobNotExist end).

(** fsync of a directory makes the entries in it durable. *)
Definition dir_Sync (dir : fpath) : M (world disk) unit :=
  sys (λ s,
    if fs_dirsync s then
      Ok (tt, Fsys (fs_ents s)
                   (filter (λ kv, parent kv.1 = dir) (fs_ents s) ∪
                    filter (λ kv, parent kv.1 ≠ dir) (fs_dur s))
                   (fs_data s) (fs_sync s) (fs_next s) (fs_dirsync s))
    else Err EINVAL).

Definition os_ReadFile (p : fpath) : M (world disk) bytes :=
  sys (λ s, match fs_ents s !! p with
            | Some (NFile i) => Ok (default [] (fs_data s !! i), s)
            | Some NDir => Err (ErrText "is a directory")
            | None => Err ErrBlobNotExist
            end).
End syscalls.

(** ** The store *)
(** FS.path, relative to the root: filepath.Join(root, key[0:2], key[2:4], key). *)
Definition path (key : string) : res fpath :=
  if bool_decide (String.length key < 4) || negb (isHex key) then Err errInvalidKey
  else Ok [substring 0 2 key; substring 2 2 key; key].

Module FS.
Section store.
Context {P : Platform}.
Abbreviation W := (world disk).

(** os.CreateTemp(dir, ".tmp-*"): retried while the name is taken, up to
    10000 times. *)
Fixpoint create_temp (fuel : nat) (dir : fpath) : M W (nat * fpath) :=
  match fuel with
  | 0 => throw EEXIST
  | S fuel' =>
      r ← draw 4;
      let name := dir ++ [".tmp-" +:+ hex_encode r] in
      x ← attempt (os_CreateExcl name);
      match x with
      | Ok i => mret (i, name)
      | Err e => if bool_decide (e = EEXIST) then create_temp fuel' dir else throw e
      end
  end.
Definition os_CreateTemp (dir : fpath) : M W (nat * fpath) := create_temp (N.to_nat 10000) dir.

Definition Has (key : string) : M W bool :=
  p ← lift (path key);
  x ← attempt (os_Stat p);
  match x with
  | Ok _ => mret true
  | Err e => if bool_decide (e = ErrBlobNotExist) then mret false else throw e
  end.

Definition syncDir (dir : fpath) : M W unit :=
  os_OpenDir dir ;;
  x ← attempt (dir_Sync dir);
  ignore file_Close ;;
  match x with
  | Ok _ => mret tt
  | Err e => if bool_decide (e = EINVAL) then mret tt else throw e
  end.

(** What Put does once the temporary file exists. *)
Definition put_temp (i : nat) (tmp p : fpath) (blob : bytes) : M W unit :=
  x ← attempt (file_Write i blob);
  match x with
  | Err e => ignore file_Close ;; throw e
  | Ok _ =>
      y ← attempt (file_Sync i);
      match y with
      | Err e => ignore file_Close ;; throw e
      | Ok _ => file_Close ;; os_Rename tmp p ;; syncDir (parent p)
      end
  end.

Definition Put (key : string) (blob : bytes) : M W unit :=
  p ← lift (path key);
  ok ← Has key;
  if ok : bool then mret tt
  else
    os_MkdirAll (parent p) ;;
    t ← os_CreateTemp (parent p);
    r ← attempt (put_temp t.1 t.2 p blob);
    ignore (os_Remove t.2) ;;       (* defer os.Remove(tmpName) *)
    lift r.

Definition Get (key : string) : M W bytes :=
  p ← lift (path key);
  os_ReadFile p.

Definition Delete (key : string) : M W unit :=
  p ← lift (path key);
  x ← attempt (os_Remove p);
  match x with
  | Ok _ => mret tt
  | Err e => if bool_decide (e = ErrBlobNotExist) then mret tt else throw e
  end.
End store.
End FS.

(** ** Crashes *)

(** A crash keeps, for every name, the live or the durable entry; what is under
    a directory that is gone is gone; data that had been fsynced is kept and any
    other data is arbitrary. *)
Definition crash (s s' : fsys) : Prop :=
  ∃ kept : gmap fpath node,
    (∀ p, kept !! p = fs_ents s !! p ∨ kept !! p = fs_dur s !! p) ∧
    (∀ p n, fs_ents s' !! p = Some n ↔
            kept !! p = Some n ∧ ∀ k, 0 < k < length p → kept !! take k p = Some NDir) ∧
    (∀ i b, fs_sync s !! i = Some b → fs_data s !! i = Some b → fs_data s' !! i = Some b).

(** The content at a path. *)
Definition content (s : fsys) (p : fpath) : option bytes :=
  match fs_ents s !! p with
  | Some (NFile i) => fs_data s !! i
  | _ => None
  end.

(** ** The invariant: an entry at a blob path is a complete, fsynced blob *)
Section invariant.
Context (good : string → bytes → Prop).

Definition complete (s : fsys) (k : string) (n : node) : Prop :=
  ∃ i b, n = NFile i ∧ i < fs_next s ∧
         fs_data s !! i = Some b ∧ fs_sync s !! i = Some b ∧ good k b.

Definition fs_inv (s : fsys) : Prop :=
  ∀ k p n, path k = Ok p → fs_ents s !! p = Some n ∨ fs_dur s !! p = Some n → complete s k n.

Definition disk_inv (w : world disk) : Prop :=
  fs_inv (d_now (w_db w)) ∧ Forall fs_inv (d_past (w_db w)).

(** The temporary file: its inode belongs to no blob path. *)
Definition temp (i : nat) (tmp : fpath) (s : fsys) : Prop :=
  i < fs_next s ∧ fs_ents s !! tmp = Some (NFile i) ∧
  ∀ k p, path k = Ok p → fs_ents s !! p ≠ Some (NFile i) ∧ fs_dur s !! p ≠ Some (NFile i).

(** A temporary name is no blob path. *)
Definition not_blob (p : fpath) : Prop := ∀ k, path k ≠ Ok p.
End invariant.

Lemma path_Ok k p : path k = Ok p → valid_key k = true ∧ p = [substring 0 2 k; substring 2 2 k; k].
Proof.
  unfold path, valid_key. destruct (bool_decide _), (isHex k); cbn; try done. by intros [= <-].
Qed.

Lemma path_valid k : valid_key k = true → path k = Ok [substring 0 2 k; substring 2 2 k; k].
Proof. unfold path, valid_key. by destruct (bool_decide _), (isHex k). Qed.

Lemma path_invalid k : valid_key k = false → path k = Err errInvalidKey.
Proof. unfold path, valid_key. by destruct (bool_decide _), (isHex k). Qed.

Lemma path_inj k k' p : path k = Ok p → path k' = Ok p → k = k'.
Proof. intros [_ ->]%path_Ok [_ H]%path_Ok. by injection H. Qed.

Lemma short_not_blob p : length p ≠ 3 → not_blob p.
Proof. intros H k [_ ->]%path_Ok. done. Qed.

Lemma dot_not_blob d s : not_blob (d ++ [String "." s]).
Proof.
  intros k [Hv Hp]%path_Ok.
  apply (f_equal last) in Hp. rewrite last_snoc in Hp. cbn in Hp. injection Hp as <-.
  apply andb_true_iff in Hv as [_ Hv]. cbn in Hv. done.
Qed.

(** A file system step, with what it does to the current state. *)
Lemma sys_cases {A} (f : fsys → res (A * fsys)) w r w' :
  sys f w = (r, w') →
  (w_db w' = w_db w ∧ ∃ e, r = Err e ∧ (e = ErrExternal ∨ f (d_now (w_db w)) = Err e)) ∨
  (∃ a s, f (d_now (w_db w)) = Ok (a, s) ∧
          w_db w' = Disk s (d_now (w_db w) :: d_past (w_db w)) ∧
          (r = Ok a ∨ r = Err ErrExternal)).
Proof.
  intros (_&_&_&H)%stmt_cases. destruct H as [(e&->&Hd&He)|(a&d&Hf&Hd&Hr)].
  - left. split; [done|]. exists e. split; [done|]. destruct He as [->|He]; [by left|].
    destruct (f (d_now (w_db w))) as [[a s]|e']; [done|]. injection He as ->. by right.
  - right. destruct (f (d_now (w_db w))) as [[a' s]|e'] eqn:E; [|done].
    injection Hf as <- <-. by exists a', s.
Qed.

Section triples.
Context {P : Platform} (good : string → bytes → Prop).
Abbreviation W := (world disk).

(** A predicate on the current file system, carried with the invariant on
    every state so far. *)
Definition now_and (Q : fsys → Prop) (w : W) : Prop := disk_inv good w ∧ Q (d_now (w_db w)).

Lemma disk_inv_stores Q : stores_only (now_and Q).
Proof. intros w w' Hd _ H. unfold now_and, disk_inv in *. by rewrite <- Hd. Qed.

Lemma triple_sys {A} (f : fsys → res (A * fsys)) (Q : fsys → Prop) (R : res A → fsys → Prop) :
  (∀ s a s', fs_inv good s → Q s → f s = Ok (a, s') →
     fs_inv good s' ∧ R (Ok a) s' ∧ R (Err ErrExternal) s') →
  (∀ s e, fs_inv good s → Q s → e = ErrExternal ∨ f s = Err e → R (Err e) s) →
  triple (now_and Q) (sys f) (λ r, now_and (R r)).
Proof.
  intros HOk HErr w [[Hi Hp] HQ]. destruct (sys f w) as [r w'] eqn:E. cbn.
  apply sys_cases in E as [[Hd (e&->&He)]|(a&s&Hf&Hd&Hr)].
  - unfold now_and, disk_inv. rewrite Hd. split; [done|]. by apply HErr.
  - destruct (HOk _ _ _ Hi HQ Hf) as (Hi'&HR&HR'). unfold now_and, disk_inv. rewrite Hd. cbn.
    split; [split; [done|by constructor]|]. by destruct Hr as [-> | ->].
Qed.

(** A step that keeps the invariant and [Q]. *)
Lemma keeps_sys {A} (f : fsys → res (A * fsys)) (Q : fsys → Prop) :
  (∀ s a s', fs_inv good s → Q s → f s = Ok (a, s') → fs_inv good s' ∧ Q s') →
  keeps (now_and Q) (sys f).
Proof.
  intros H. apply (triple_weaken (now_and Q) _ _ (λ r, now_and (λ s, Q s))); [|done|done].
  apply triple_sys; [|done]. intros s a s' Hi HQ Hf. by destruct (H s a s').
Qed.
End triples.

Section preservation.
Context (good : string → bytes → Prop).
Implicit Types (s : fsys).

Lemma fs_inv_ents s e :
  (∀ k p n, path k = Ok p → e !! p = Some n → fs_ents s !! p = Some n ∨ complete good s k n) →
  fs_inv good s → fs_inv good (set_ents e s).
Proof.
  intros He Hi k p n Hp [H|H]; cbn in H.
  - destruct (He k p n Hp H) as [H'|H']; [|done]. apply (Hi k p n Hp). by left.
  - apply (Hi k p n Hp). by right.
Qed.

Lemma inv_mkdir s p : not_blob p → fs_inv good s → fs_inv good (set_ents (<[p:=NDir]> (fs_ents s)) s).
Proof.
  intros Hp. apply fs_inv_ents. intros k q n Hq [[<- <-]|[_ H]]%lookup_insert_Some; [|by left].
  by destruct (Hp k).
Qed.

Lemma inv_delete s p : fs_inv good s → fs_inv good (set_ents (delete p (fs_ents s)) s).
Proof. apply fs_inv_ents. intros k q n Hq [_ H]%lookup_delete_Some. by left. Qed.

(** Data of inodes that no blob path uses can change freely. *)
Lemma fs_inv_data s e d sy nx i :
  fs_inv good s → fs_next s ≤ nx →
  (∀ p n, e !! p = Some n → (∃ k, path k = Ok p) → fs_ents s !! p = Some n) →
  (∀ k p, path k = Ok p → fs_ents s !! p ≠ Some (NFile i) ∧ fs_dur s !! p ≠ Some (NFile i)) →
  (∀ j, j ≠ i → d !! j = fs_data s !! j ∧ sy !! j = fs_sync s !! j) →
  fs_inv good (Fsys e (fs_dur s) d sy nx (fs_dirsync s)).
Proof.
  intros Hi Hnx He Hfree Hd k p n Hp H.
  assert (fs_ents s !! p = Some n ∨ fs_dur s !! p = Some n) as H'.
  { destruct H as [H|H]; [left; apply He; eauto|by right]. }
  destruct (Hi k p n Hp H') as (j&b&->&Hj&H1&H2&H3). exists j, b.
  assert (j ≠ i) as Hji by (intros ->; destruct (Hfree k p Hp), H'; done).
  destruct (Hd j Hji) as [E1 E2]. repeat split; cbn; [lia|congruence|congruence|done].
Qed.

Lemma inv_dirsync s dir :
  fs_inv good s →
  fs_inv good (Fsys (fs_ents s)
    (filter (λ kv, parent kv.1 = dir) (fs_ents s) ∪ filter (λ kv, parent kv.1 ≠ dir) (fs_dur s))
    (fs_data s) (fs_sync s) (fs_next s) (fs_dirsync s)).
Proof.
  intros Hi k p n Hp H. apply (Hi k p n Hp). destruct H as [H|H]; [by left|].
  cbn in H. apply lookup_union_Some_raw in H as [H|[_ H]].
  - left. by apply map_lookup_filter_Some in H as [? _].
  - right. by apply map_lookup_filter_Some in H as [? _].
Qed.
End preservation.

(** ** Put, with the postcondition of every step *)

(** What an operation on the keys [K] may not change: the blobs at all other
    keys, and the directories. *)
Definition frame (K : gset string) (s0 s : fsys) : Prop :=
  fs_dirsync s = fs_dirsync s0 ∧
  (∀ k p, k ∉ K → path k = Ok p → content s p = content s0 p) ∧
  (∀ q, length q < 3 → fs_ents s0 !! q = Some NDir → fs_ents s !! q = Some NDir) ∧
  (∀ q, length q < 3 → fs_dur s0 !! q = Some NDir → fs_dur s !! q = Some NDir).

Lemma frame_refl K s : frame K s s.
Proof. done. Qed.

Lemma frame_mono K K' s0 s : K ⊆ K' → frame K s0 s → frame K' s0 s.
Proof. intros HK (H1&H2&H3&H4). split_and!; auto. intros k p Hk. apply H2. set_solver. Qed.

Lemma frame_trans K s0 s1 s2 : frame K s0 s1 → frame K s1 s2 → frame K s0 s2.
Proof.
  intros (H1&H2&H3&H4) (H1'&H2'&H3'&H4'). split_and!; eauto using eq_trans.
Qed.

Lemma temp_not_blob good i tmp s : fs_inv good s → temp i tmp s → not_blob tmp.
Proof. intros _ (_&H&Hf) k Hk. by destruct (Hf k tmp Hk). Qed.

Section frames.
Implicit Types (s : fsys).

Lemma frame_mkdir s q : not_blob q → frame ∅ s (set_ents (<[q:=NDir]> (fs_ents s)) s).
Proof.
  intros Hq. split_and!; try done.
  - intros k p _ Hp. unfold content. cbn. rewrite lookup_insert_ne; [done|].
    intros ->. by apply (Hq k).
  - intros q' _ H. cbn. destruct (decide (q = q')) as [->|]; [by rewrite lookup_insert_eq|].
    by rewrite lookup_insert_ne.
Qed.

Lemma frame_delete s q : not_blob q → 3 ≤ length q → frame ∅ s (set_ents (delete q (fs_ents s)) s).
Proof.
  intros Hq Hl. split_and!; try done.
  - intros k p _ Hp. unfold content. cbn. rewrite lookup_delete_ne; [done|].
    intros ->. by apply (Hq k).
  - intros q' H' H. cbn. rewrite lookup_delete_ne; [done|]. intros ->. lia.
Qed.

Lemma frame_data s d sy i :
  (∀ k p, path k = Ok p → fs_ents s !! p ≠ Some (NFile i) ∧ fs_dur s !! p ≠ Some (NFile i)) →
  (∀ j, j ≠ i → d !! j = fs_data s !! j) →
  frame ∅ s (Fsys (fs_ents s) (fs_dur s) d sy (fs_next s) (fs_dirsync s)).
Proof.
  intros Hf Hd. split_and!; try done. intros k p _ Hp. unfold content. cbn.
  destruct (fs_ents s !! p) as [[|j]|] eqn:E; try done. apply Hd. intros ->.
  by destruct (Hf k p Hp).
Qed.

Lemma frame_create s tmp :
  not_blob tmp → 3 ≤ length tmp →
  (∀ k p, path k = Ok p → fs_ents s !! p ≠ Some (NFile (fs_next s))) →
  frame ∅ s (Fsys (<[tmp := NFile (fs_next s)]> (fs_ents s)) (fs_dur s)
                (<[fs_next s := []]> (fs_data s)) (fs_sync s) (S (fs_next s)) (fs_dirsync s)).
Proof.
  intros Ht Hl Hf. split_and!; try done.
  - intros k p _ Hp. unfold content. cbn. rewrite lookup_insert_ne by (intros ->; by apply (Ht k)).
    destruct (fs_ents s !! p) as [[|j]|] eqn:E; try done. rewrite lookup_insert_ne; [done|].
    intros <-. by apply (Hf k p).
  - intros q Hq H. cbn. rewrite lookup_insert_ne; [done|]. intros ->. lia.
Qed.

Lemma frame_rename s tmp k p n :
  path k = Ok p → not_blob tmp → 3 ≤ length tmp →
  frame {[k]} s (set_ents (<[p:=n]> (delete tmp (fs_ents s))) s).
Proof.
  intros Hp Ht Hl. split_and!; try done.
  - intros k' p' Hk' Hp'. unfold content. cbn. rewrite lookup_insert_ne, lookup_delete_ne; [done| |].
    + intros ->. by apply (Ht k').
    + intros ->. apply Hk'. rewrite (path_inj k k' p'); [set_solver|done|done].
  - intros q Hq H. cbn. pose proof (path_Ok _ _ Hp) as [_ ->].
    rewrite lookup_insert_ne by (intros <-; cbn in Hq; lia). rewrite lookup_delete_ne; [done|].
    intros ->. lia.
Qed.

Lemma frame_dirsync s dir : length dir = 2 →
  frame ∅ s (Fsys (fs_ents s)
    (filter (λ kv, parent kv.1 = dir) (fs_ents s) ∪ filter (λ kv, parent kv.1 ≠ dir) (fs_dur s))
    (fs_data s) (fs_sync s) (fs_next s) (fs_dirsync s)).
Proof.
  intros Hl. split_and!; try done. intros q Hq H. cbn.
  assert (parent q ≠ dir) as Hn.
  { intros <-. unfold parent in Hl. rewrite length_take in Hl. lia. }
  rewrite lookup_union_r.
  - by apply map_lookup_filter_Some.
  - apply map_lookup_filter_None. right. intros n Hn'. cbn. done.
Qed.
End frames.

Section put.
Context {P : Platform} (good : string → bytes → Prop) (s0 : fsys).
Context (k : string) (p : fpath) (blob : bytes) (Hp : path k = Ok p) (Hgood : good k blob).
Abbreviation W := (world disk).
Abbreviation st := (now_and good).

(** Before the rename nothing a reader can see has changed. *)
Definition pre (s : fsys) : Prop := frame ∅ s0 s.
Definition with_temp (i : nat) (tmp : fpath) (d : bytes) (sy : bool) (s : fsys) : Prop :=
  pre s ∧ temp i tmp s ∧ 3 ≤ length tmp ∧
  fs_data s !! i = Some d ∧ (sy = true → fs_sync s !! i = Some d).
(** After it the blob is complete at its path. *)
Definition stored (s : fsys) : Prop :=
  frame {[k]} s0 s ∧ ∃ i, fs_ents s !! p = Some (NFile i) ∧
    fs_data s !! i = Some blob ∧ fs_sync s !! i = Some blob.
Definition durable (s : fsys) : Prop :=
  stored s ∧ (fs_dirsync s0 = true → fs_dur s !! p = fs_ents s !! p).
(** What a failed Put may leave behind. *)
Definition failed (s : fsys) : Prop := pre s ∨ stored s.

Lemma parent_p_length : length (parent p) = 2.
Proof using Hp. clear -Hp. by destruct (path_Ok _ _ Hp) as [_ ->]. Qed.

Lemma st_mono (Q Q' : fsys → Prop) (w : W) : (∀ s, Q s → Q' s) → st Q w → st Q' w.
Proof. intros H [H1 H2]. split; auto. Qed.

Lemma keeps_MkdirAll : keeps (st pre) (os_MkdirAll (parent p)).
Proof.
  apply keeps_for_each. intros n Hn. apply elem_of_seq in Hn. rewrite parent_p_length in Hn.
  assert (not_blob (take n (parent p))) as Hq.
  { apply short_not_blob. rewrite length_take, parent_p_length. lia. }
  apply keeps_sys. intros s a s' Hi Hs. destruct (fs_ents s !! _); intros [= <- <-]; [done|].
  split; [by apply inv_mkdir|]. eapply frame_trans; [done|by apply frame_mkdir].
Qed.

Ltac weaken_st := let w := fresh "w" in let Hw := fresh "Hw" in
  intros w Hw; eapply st_mono; [|exact Hw]; unfold failed, durable; naive_solver.

Lemma triple_CreateExcl tmp : not_blob tmp → 3 ≤ length tmp →
  triple (st pre) (os_CreateExcl tmp)
    (λ r, st (λ s, pre s ∧ ∀ i, r = Ok i → with_temp i tmp [] false s)).
Proof.
  intros Ht Hl. apply triple_sys; [|naive_solver].
  intros s a s' Hi Hs. destruct (fs_ents s !! tmp) eqn:Et; intros [= <- <-].
  assert (∀ k' p', path k' = Ok p' → fs_ents s !! p' ≠ Some (NFile (fs_next s)) ∧
                                    fs_dur s !! p' ≠ Some (NFile (fs_next s))) as Hf.
  { intros k' p' Hp'. split; intros E;
      destruct (Hi k' p' (NFile (fs_next s)) Hp') as (i&b&[= <-]&?&_); auto; lia. }
  assert (pre (Fsys (<[tmp := NFile (fs_next s)]> (fs_ents s)) (fs_dur s)
                (<[fs_next s := []]> (fs_data s)) (fs_sync s) (S (fs_next s)) (fs_dirsync s))) as Hpre.
  { eapply frame_trans; [done|]. apply frame_create; [done..|]. intros k' p' Hk'. by destruct (Hf k' p'). }
  split; [|split; [split; [done|]|split; [done|done]]].
  - apply (fs_inv_data good s _ _ _ _ (fs_next s)); [done|lia| |done|].
    + intros q n [[<- <-]|[_ H]]%lookup_insert_Some [k' Hk']; [by destruct (Ht k')|done].
    + intros j Hj. by rewrite lookup_insert_ne.
  - intros i [= <-]. split_and!; [done| |lia|by apply lookup_insert_eq|done].
    split_and!; cbn; [lia|by rewrite lookup_insert_eq|].
    intros k' p' Hk'. destruct (Hf k' p' Hk') as [H1 H2]. split; [|done].
    rewrite lookup_insert_ne; [done|]. intros ->. by apply (Ht k').
Qed.

Lemma triple_create_temp fuel :
  triple (st pre) (FS.create_temp fuel (parent p))
    (λ r, st (λ s, pre s ∧ ∀ i tmp, r = Ok (i, tmp) → with_temp i tmp [] false s)).
Proof.
  induction fuel as [|fuel IH]; cbn [FS.create_temp]; [apply triple_throw; weaken_st|].
  apply triple_keeps; [apply keeps_draw, disk_inv_stores|intros e; weaken_st|].
  intros r. eapply triple_try.
  { apply triple_CreateExcl; [apply dot_not_blob|].
    rewrite length_app, parent_p_length. cbn. lia. }
  intros [i|e]; [apply triple_ret; weaken_st|].
  case_bool_decide; [|apply triple_throw; weaken_st].
  eapply triple_weaken; [apply IH|weaken_st|done].
Qed.

Lemma triple_Write i tmp :
  triple (st (with_temp i tmp [] false)) (file_Write i blob)
    (λ r, st (λ s, pre s ∧ temp i tmp s ∧ 3 ≤ length tmp ∧
                   (is_ok r = true → with_temp i tmp blob false s))).
Proof.
  apply triple_sys; [|intros s e Hi (?&?&?&?) [-> | [=]]; split_and!; done].
  intros s a s' Hi (Hpre&Ht&Hl&Hd&_) [= <- <-]. rewrite Hd. cbn [default app].
  assert (pre (Fsys (fs_ents s) (fs_dur s) (<[i:=blob]> (fs_data s)) (fs_sync s)
                (fs_next s) (fs_dirsync s))) as Hpre'.
  { eapply frame_trans; [done|]. apply (frame_data _ _ _ i); [apply Ht|].
    intros j Hj. by rewrite lookup_insert_ne. }
  split; [|split_and!; try done].
  - apply (fs_inv_data good s _ _ _ _ i); [done..|apply Ht|].
    intros j Hj. by rewrite lookup_insert_ne.
  - intros _. split_and!; [done..|apply lookup_insert_eq|done].
Qed.

Lemma triple_Sync i tmp :
  triple (st (with_temp i tmp blob false)) (file_Sync i)
    (λ r, st (λ s, pre s ∧ temp i tmp s ∧ 3 ≤ length tmp ∧
                   (is_ok r = true → with_temp i tmp blob true s))).
Proof.
  apply triple_sys; [|intros s e Hi (?&?&?&?) [-> | [=]]; split_and!; done].
  intros s a s' Hi (Hpre&Ht&Hl&Hd&_) [= <- <-]. rewrite Hd. cbn [default].
  assert (pre (Fsys (fs_ents s) (fs_dur s) (fs_data s) (<[i:=blob]> (fs_sync s))
                (fs_next s) (fs_dirsync s))) as Hpre'.
  { eapply frame_trans; [done|]. apply (frame_data _ _ _ i); [apply Ht|done]. }
  split; [|split_and!; try done].
  - apply (fs_inv_data good s _ _ _ _ i); [done..|apply Ht|].
    intros j Hj. by rewrite lookup_insert_ne.
  - intros _. split_and!; [done..|]. intros _. apply lookup_insert_eq.
Qed.

Lemma triple_Rename i tmp :
  triple (st (with_temp i tmp blob true)) (os_Rename tmp p)
    (λ r, st (λ s, (is_ok r = true → stored s) ∧ failed s)).
Proof.
  apply triple_sys; [|intros s e Hi (?&?) _; split; [done|by left]].
  intros s a s' Hi (Hpre&Ht&Hl&Hd&Hsy) Hf. specialize (Hsy eq_refl).
  assert (not_blob tmp) as Hnb by (by eapply temp_not_blob).
  destruct Ht as (Hlt&He&Hfree). rewrite He in Hf. injection Hf as <- <-.
  assert (stored (set_ents (<[p:=NFile i]> (delete tmp (fs_ents s))) s)) as Hst.
  { split; [|exists i; split_and!; try done; apply lookup_insert_eq].
    eapply frame_trans; [eapply frame_mono, Hpre; set_solver|by apply frame_rename]. }
  split_and!; [|done|by right|done|by right].
  apply fs_inv_ents; [|done]. intros k' p' n Hk' [[<- <-]|[_ [_ H]%lookup_delete_Some]]%lookup_insert_Some.
  - right. rewrite (path_inj k' k p) by done. by exists i, blob.
  - by left.
Qed.

Lemma keeps_Close Q : keeps (st Q) file_Close.
Proof. apply keeps_sys. by intros s a s' Hi HQ [= <- <-]. Qed.

Lemma triple_dir_Sync :
  triple (st stored) (dir_Sync (parent p))
    (λ r, st (λ s, stored s ∧ (is_ok r = true ∨ r = Err EINVAL → durable s))).
Proof.
  apply triple_sys.
  - intros s a s' Hi (Hfr&i&He&Hd&Hs) Hf.
    assert (fs_dirsync s = true) as Ed by (by destruct (fs_dirsync s)).
    rewrite Ed in Hf at 1. injection Hf as <- <-. split; [by apply inv_dirsync|].
    match goal with |- (stored ?x ∧ _) ∧ _ => assert (stored x) as Hst end.
    { split; [|by exists i]. eapply frame_trans; [done|].
      eapply frame_mono, frame_dirsync; [set_solver|apply parent_p_length]. }
    split; [|split; [done|by intros [[=]|[=]]]].
    split; [done|]. intros _. split; [done|]. intros _. cbn. rewrite He.
    apply lookup_union_Some_l, map_lookup_filter_Some. done.
  - intros s e Hi Hst He. split; [done|]. intros [?|[= ->]]; [done|]. split; [done|].
    intros Hd. destruct He as [[=]|He]. destruct Hst as [(Hb&_) _].
    rewrite Hb, Hd in He. done.
Qed.

Lemma triple_syncDir :
  triple (st stored) (FS.syncDir (parent p))
    (λ r, st (λ s, stored s ∧ (is_ok r = true → durable s))).
Proof.
  apply triple_keeps; [|intros e; weaken_st|intros _].
  { apply keeps_sys. intros s a s' Hi Hs. by destruct (fs_ents s !! _); intros [= <- <-]. }
  eapply triple_try; [apply triple_dir_Sync|]. intros r.
  apply triple_keeps; [apply keeps_ignore, keeps_Close|intros e; weaken_st|intros _].
  destruct r as [[]|e]; [apply triple_ret; weaken_st|].
  case_bool_decide; [apply triple_ret|apply triple_throw]; subst; weaken_st.
Qed.

(** The deferred removal of the temporary name. *)
Lemma keeps_Remove_temp Q tmp :
  (∀ s, Q s → Q (set_ents (delete tmp (fs_ents s)) s)) → keeps (st Q) (os_Remove tmp).
Proof.
  intros HQ. apply keeps_sys. intros s a s' Hi Hs.
  destruct (fs_ents s !! tmp); intros [= <- <-]. split; [by apply inv_delete|by apply HQ].
Qed.

Lemma pre_delete s q : not_blob q → 3 ≤ length q → pre s → pre (set_ents (delete q (fs_ents s)) s).
Proof. intros Hq Hl Hs. eapply frame_trans; [done|by apply frame_delete]. Qed.

Lemma stored_delete s q : not_blob q → 3 ≤ length q → stored s →
  stored (set_ents (delete q (fs_ents s)) s).
Proof.
  intros Hq Hl (Hfr&i&He&Hd&Hs). split.
  - eapply frame_trans; [done|]. eapply frame_mono, frame_delete; [set_solver|done|done].
  - exists i. split_and!; try done. cbn. rewrite lookup_delete_ne; [done|]. intros ->. by apply (Hq k).
Qed.

Lemma durable_delete s q : not_blob q → 3 ≤ length q → durable s →
  durable (set_ents (delete q (fs_ents s)) s).
Proof.
  intros Hq Hl (Hst&Hd). split; [by apply stored_delete|]. intros Hds. cbn.
  rewrite lookup_delete_ne; [auto|]. intros ->. by apply (Hq k).
Qed.

Lemma triple_put_temp i tmp :
  triple (st (with_temp i tmp [] false)) (FS.put_temp i tmp p blob)
    (λ r, st (λ s, (is_ok r = true → durable s) ∧ failed s)).
Proof.
  unfold FS.put_temp. eapply triple_try; [apply triple_Write|]. intros [[]|e].
  2: { apply triple_keeps; [apply keeps_ignore, keeps_Close|intros ?; weaken_st|intros _].
       apply triple_throw; weaken_st. }
  eapply triple_try.
  { eapply triple_weaken; [apply triple_Sync|weaken_st|done]. }
  intros [[]|e].
  2: { apply triple_keeps; [apply keeps_ignore, keeps_Close|intros ?; weaken_st|intros _].
       apply triple_throw; weaken_st. }
  apply triple_keeps; [apply keeps_Close|intros ?; weaken_st|intros _].
  apply (triple_bind _ _ _ (λ _, st stored)).
  { eapply triple_weaken; [apply triple_Rename|weaken_st|].
    intros [[]|e]; cbn; [intros w Hw|weaken_st].
    exact (st_mono _ _ w (λ s Hs, proj1 Hs eq_refl) Hw). }
  intros []. eapply triple_weaken; [apply triple_syncDir|done|]. intros r; weaken_st.
Qed.

(** Everything Put does after it has found the key absent. *)
Lemma triple_put_new :
  triple (st pre)
    (os_MkdirAll (parent p) ;;
     t ← FS.os_CreateTemp (parent p);
     r ← attempt (FS.put_temp t.1 t.2 p blob);
     ignore (os_Remove t.2) ;; lift r)
    (λ r, st (λ s, (is_ok r = true → durable s) ∧ failed s)).
Proof.
  apply triple_keeps; [apply keeps_MkdirAll|intros e; weaken_st|intros _].
  apply (triple_bind _ _ _ (λ t, st (with_temp t.1 t.2 [] false))).
  { eapply triple_weaken; [apply triple_create_temp|done|].
    intros [[i tmp]|e]; [intros w Hw|weaken_st].
    exact (st_mono _ _ w (λ s Hs, proj2 Hs i tmp eq_refl) Hw). }
  intros [i tmp]. cbn [fst snd]. apply (triple_pure _ (not_blob tmp ∧ 3 ≤ length tmp)).
  { intros w [[Hi _] (_&Ht&Hl&_)]. split; [by eapply temp_not_blob|done]. }
  intros [Hnb Hl]. eapply triple_try; [apply triple_put_temp|]. intros r.
  apply triple_keeps; [|intros e; weaken_st|].
  - apply keeps_ignore, keeps_Remove_temp. intros s [H1 H2]. split.
    + intros Hr. apply durable_delete; auto.
    + destruct H2; [left; by apply pre_delete|right; by apply stored_delete].
  - intros _. apply triple_lift. weaken_st.
Qed.

(** Has leaves the file system alone and tells the truth when it answers. *)
Lemma triple_Has :
  triple (st (λ s, s = s0)) (FS.Has k)
    (λ r, st (λ s, s = s0 ∧ ∀ b, r = Ok b → b = bool_decide (is_Some (fs_ents s0 !! p)))).
Proof.
  unfold FS.Has. rewrite Hp. apply (triple_bind _ _ _ (λ q, st (λ s, s = s0 ∧ q = p))).
  { apply triple_lift. weaken_st. }
  intros q. apply (triple_pure _ (q = p)); [by intros w [_ [_ ?]]|intros ->].
  apply (triple_try _ _ _ (λ r, st (λ s, s = s0 ∧
    (is_ok r = true → is_Some (fs_ents s0 !! p)) ∧
    (r = Err ErrBlobNotExist → fs_ents s0 !! p = None)))).
  { apply triple_sys.
    - intros s a s' Hi [-> _]. destruct (fs_ents s0 !! p) eqn:E; intros [= <- <-]; split_and!; by eauto.
    - intros s e Hi [-> _]. destruct (fs_ents s0 !! p) eqn:E; intros [-> | [= <-]]; done. }
  intros [[]|e].
  - apply triple_ret. intros w [Hi (Hs&H&_)]. split; [done|]. split; [done|].
    intros b [= <-]. by rewrite bool_decide_eq_true_2 by auto.
  - case_bool_decide as He; [apply triple_ret|apply triple_throw; weaken_st].
    intros w [Hi (Hs&_&H)]. split; [done|]. split; [done|]. intros b [= <-].
    rewrite H by congruence. by rewrite bool_decide_eq_false_2 by (by intros []).
Qed.

Lemma triple_Put :
  triple (st (λ s, s = s0)) (FS.Put k blob)
    (λ r, st (λ s, if bool_decide (is_Some (fs_ents s0 !! p)) then s = s0
                   else (is_ok r = true → durable s) ∧ failed s)).
Proof.
  assert (failed s0) as Hf by (left; apply frame_refl).
  unfold FS.Put. rewrite Hp. apply (triple_bind _ _ _ (λ q, st (λ s, s = s0 ∧ q = p))).
  { apply triple_lift. weaken_st. }
  intros q. apply (triple_pure _ (q = p)); [by intros w [_ [_ ?]]|intros ->].
  apply (triple_bind _ _ _ (λ b, st (λ s, s = s0 ∧ b = bool_decide (is_Some (fs_ents s0 !! p))))).
  { eapply triple_weaken; [apply triple_Has|weaken_st|]. intros [b|e]; [weaken_st|].
    intros w [Hi [Hs _]]. split; [done|]. rewrite Hs. by case_bool_decide. }
  intros b. apply (triple_pure _ (b = bool_decide (is_Some (fs_ents s0 !! p)))); [by intros w [_ [_ ?]]|].
  intros ->. case_bool_decide.
  - apply triple_ret. weaken_st.
  - eapply triple_weaken; [apply triple_put_new| |done]. intros w [Hi [Hs _]]. split; [done|].
    rewrite Hs. apply frame_refl.
Qed.

Lemma triple_Get :
  triple (st (λ s, s = s0)) (FS.Get k)
    (λ r, st (λ s, s = s0 ∧ match r with
                            | Ok b => content s0 p = Some b
                            | Err e => e = ErrExternal ∨ (e = ErrBlobNotExist ∧ content s0 p = None)
                            end)).
Proof.
  unfold FS.Get. rewrite Hp. apply (triple_bind _ _ _ (λ q, st (λ s, s = s0 ∧ q = p))).
  { apply triple_lift. weaken_st. }
  intros q. apply (triple_pure _ (q = p)); [by intros w [_ [_ ?]]|intros ->].
  apply triple_sys; unfold content.
  - intros s a s' Hi [-> _]. destruct (fs_ents s0 !! p) as [[|i]|] eqn:E; try done.
    intros [= <- <-]. destruct (Hi k p (NFile i)) as (j&b&[= <-]&_&Hd&_); auto.
    rewrite Hd. cbn. split_and!; auto.
  - intros s e Hi [-> _] He. split; [done|]. destruct He as [->|He]; [by left|].
    destruct (fs_ents s0 !! p) as [[|i]|] eqn:E; try done.
    + destruct (Hi k p NDir) as (j&b&[=]&_); auto.
    + injection He as <-. by right.
Qed.

Lemma triple_Delete :
  triple (st (λ s, s = s0)) (FS.Delete k)
    (λ r, st (λ s, frame {[k]} s0 s ∧ (content s p = None ∨ (s = s0 ∧ is_ok r = false)))).
Proof. clear blob Hgood.
  unfold FS.Delete. rewrite Hp. apply (triple_bind _ _ _ (λ q, st (λ s, s = s0 ∧ q = p))).
  { apply triple_lift. weaken_st. }
  intros q. apply (triple_pure _ (q = p)); [by intros w [_ [_ ?]]|intros ->].
  apply (triple_try _ _ _ (λ r, st (λ s, frame {[k]} s0 s ∧
    (content s p = None ∨ (s = s0 ∧ is_ok r = false ∧ r ≠ Err ErrBlobNotExist))))).
  { apply triple_sys.
    - intros s a s' Hi [-> _]. destruct (fs_ents s0 !! p) eqn:E; intros [= <- <-].
      split; [by apply inv_delete|].
      assert (frame {[k]} s0 (set_ents (delete p (fs_ents s0)) s0)) as Hfr.
      { split_and!; try done.
        - intros k' p' Hk' Hp'. unfold content. cbn. rewrite lookup_delete_ne; [done|].
          intros ->. apply Hk'. rewrite (path_inj k k' p'); [set_solver|done..].
        - intros q Hq H. cbn. rewrite lookup_delete_ne; [done|]. intros <-.
          destruct (path_Ok _ _ Hp) as [_ ->]. cbn in Hq. lia. }
      assert (content (set_ents (delete p (fs_ents s0)) s0) p = None) as Hc.
      { unfold content. cbn. by rewrite lookup_delete_eq. }
      auto.
    - intros s e Hi [-> _] He. split; [apply frame_refl|]. destruct He as [->|He]; [by right|].
      destruct (fs_ents s0 !! p) eqn:E; [done|]. left. unfold content. by rewrite E. }
  intros [[]|e]; [apply triple_ret; weaken_st|].
  case_bool_decide as He; [apply triple_ret|apply triple_throw]; subst; weaken_st.
Qed.
End put.

(** ** Operations, their runs and the contract *)
Inductive store_op := OpHas (k : string) | OpPut (k : string) (b : bytes)
  | OpGet (k : string) | OpDelete (k : string).
Inductive answer := ABool (b : bool) | AUnit | ABytes (b : bytes).

Definition op_key (o : store_op) : string :=
  match o with OpHas k | OpPut k _ | OpGet k | OpDelete k => k end.

(** The filesystem store and the contract of Blob.v, operation by operation. *)
Definition fs_run {P : Platform} (o : store_op) : M (world disk) answer :=
  match o with
  | OpHas k => b ← FS.Has k; mret (ABool b)
  | OpPut k b => FS.Put k b ;; mret AUnit
  | OpGet k => b ← FS.Get k; mret (ABytes b)
  | OpDelete k => FS.Delete k ;; mret AUnit
  end.

Definition store_run {D} (o : store_op) : M (world D) answer :=
  match o with
  | OpHas k => b ← Blob.Has k; mret (ABool b)
  | OpPut k b => Blob.Put k b ;; mret AUnit
  | OpGet k => b ← Blob.Get k; mret (ABytes b)
  | OpDelete k => Blob.Delete k ;; mret AUnit
  end.

Definition run_all {P : Platform} (ops : list store_op) : M (world disk) unit :=
  for_each ops (λ o, ignore (fs_run o)).

(** The map a file system stands for. *)
Definition abs (s : fsys) (m : gmap string bytes) : Prop :=
  ∀ k p, path k = Ok p → content s p = m !! k.

(** Every file system state of a run, crash points included. *)
Definition history (w : world disk) : list fsys := d_now (w_db w) :: d_past (w_db w).

Section ops.
Context {P : Platform} (good : string → bytes → Prop).

Lemma fs_run_invalid o w : path (op_key o) = Err errInvalidKey → fs_run o w = (Err errInvalidKey, w).
Proof.
  intros H. destruct o; cbn in *; rewrite run_bind; cbv [FS.Has FS.Put FS.Get FS.Delete];
    by rewrite H, run_bind.
Qed.

Lemma path_cases k : (∃ p, path k = Ok p) ∨ path k = Err errInvalidKey.
Proof.
  destruct (valid_key k) eqn:V; [left; eexists; by apply path_valid|right; by apply path_invalid].
Qed.

Lemma disk_inv_now w : disk_inv good w → now_and good (λ s, s = d_now (w_db w)) w.
Proof. done. Qed.

(** What one operation does. *)
Lemma fs_run_spec o w p :
  disk_inv good w → (∀ k b, o = OpPut k b → good k b) → path (op_key o) = Ok p →
  let s := d_now (w_db w) in let s' := d_now (w_db (fs_run o w).2) in let r := (fs_run o w).1 in
  disk_inv good (fs_run o w).2 ∧
  match o with
  | OpHas k => s' = s ∧ (is_ok r = true → r = Ok (ABool (bool_decide (is_Some (fs_ents s !! p)))))
  | OpPut k b => (is_ok r = true → r = Ok AUnit) ∧
      if bool_decide (is_Some (fs_ents s !! p)) then s' = s
      else (is_ok r = true → durable s k p b s') ∧ failed s k p b s'
  | OpGet k => s' = s ∧ match r with
                        | Ok a => ∃ b, a = ABytes b ∧ content s p = Some b
                        | Err e => e = ErrExternal ∨ (e = ErrBlobNotExist ∧ content s p = None)
                        end
  | OpDelete k => (is_ok r = true → r = Ok AUnit) ∧ frame {[k]} s s' ∧
      (content s' p = None ∨ (s' = s ∧ is_ok r = false))
  end.
Proof.
  intros Hi Hg Hp. destruct o as [k|k b|k|k]; cbn [op_key fs_run] in *; rewrite run_bind.
  - pose proof (triple_Has good (d_now (w_db w)) k p Hp w (disk_inv_now w Hi)) as [H1 [H2 H3]].
    destruct (FS.Has k w) as [[b|e] w1]; cbn in *; (split; [exact H1|]); (split; [exact H2|]); [|done].
    intros _. by rewrite (H3 b).
  - pose proof (triple_Put good (d_now (w_db w)) k p b Hp (Hg k b eq_refl) w (disk_inv_now w Hi)) as [H1 H2].
    destruct (FS.Put k b w) as [[[]|e] w1]; cbn in *; (split; [exact H1|]); (split; [done|exact H2]).
  - pose proof (triple_Get good (d_now (w_db w)) k p Hp w (disk_inv_now w Hi)) as [H1 [H2 H3]].
    destruct (FS.Get k w) as [[b|e] w1]; cbn in *; (split; [exact H1|]); (split; [exact H2|]); [by exists b|done].
  - pose proof (triple_Delete good (d_now (w_db w)) k p Hp w (disk_inv_now w Hi)) as [H1 [H2 H3]].
    destruct (FS.Delete k w) as [[[]|e] w1]; cbn in *; (split; [exact H1|]); (split; [done|]); auto.
Qed.

Lemma keeps_fs_run o : (∀ k b, o = OpPut k b → good k b) → keeps (disk_inv good) (fs_run o).
Proof.
  intros Hg w Hi. destruct (path_cases (op_key o)) as [[p Hp]|Hp].
  - by apply (fs_run_spec o w p).
  - by rewrite fs_run_invalid.
Qed.

Lemma keeps_run_all ops : (∀ k b, OpPut k b ∈ ops → good k b) → keeps (disk_inv good) (run_all ops).
Proof.
  intros Hg. apply keeps_for_each. intros o Ho. apply keeps_ignore, keeps_fs_run. intros k b ->. auto.
Qed.

(** A crash cannot make a complete blob incomplete. *)
Lemma crash_complete s s' k p n :
  fs_inv good s → crash s s' → path k = Ok p → fs_ents s' !! p = Some n →
  ∃ b, content s' p = Some b ∧ good k b.
Proof.
  intros Hi (kept&Hk&He&Hd) Hp Hn. pose proof (proj1 (He p n) Hn) as [Hkp _].
  destruct (Hi k p n Hp) as (i&b&->&_&H1&H2&Hg).
  { destruct (Hk p) as [E|E]; rewrite E in Hkp; auto. }
  exists b. split; [|done]. unfold content. rewrite Hn. auto.
Qed.
End ops.

(** C18: crash safety of the blob store.  After any sequence of store operations,
    whatever system calls failed, a crash at any point between two system calls
    leaves at each content-addressed path either nothing or, whole, a blob that
    some Put wrote under that key: never a half-written file. *)
Theorem FS_crash_safe {P : Platform} ops (w : world disk) dirsync s s' k p n :
  w_db w = mkfs dirsync → s ∈ history (run_all ops w).2 → crash s s' →
  path k = Ok p → fs_ents s' !! p = Some n →
  ∃ b, content s' p = Some b ∧ OpPut k b ∈ ops.
Proof.
  intros Hw Hs. pose (good k b := OpPut k b ∈ ops).
  apply (crash_complete good s s' k p n).
  assert (disk_inv good (run_all ops w).2) as [H1 H2].
  { apply (keeps_run_all good); [done|]. unfold disk_inv. rewrite Hw.
    split; [|by apply Forall_nil]. intros k' p' n' _ [H|H]; cbn in H; by rewrite lookup_empty in H. }
  apply elem_of_cons in Hs as [-> | Hs]; [done|]. by eapply Forall_forall in H2.
Qed.

(** C19: a Put of a new key that returned without error is durable: when the
    shard directories already are, every crash after it keeps the whole blob. *)
Theorem FS_Put_durable {P : Platform} good k p b (w w' : world disk) s' :
  disk_inv good w → good k b → path k = Ok p →
  let s := d_now (w_db w) in
  fs_dirsync s = true → fs_ents s !! p = None →
  (∀ i, 0 < i < 3 → fs_ents s !! take i p = Some NDir ∧ fs_dur s !! take i p = Some NDir) →
  FS.Put k b w = (Ok tt, w') → crash (d_now (w_db w')) s' → content s' p = Some b.
Proof.
  intros Hi Hg Hp s Hds Hn Hdir E (kept&Hk&He&Hd).
  pose proof (triple_Put good s k p b Hp Hg w (disk_inv_now good w Hi)) as [_ H].
  rewrite E, bool_decide_eq_false_2 in H; [|by rewrite Hn; intros []].
  destruct H as [H _]. destruct (H eq_refl) as [[(_&_&F1&F2) (i&Hi1&Hi2&Hi3)] Hdur].
  cbn [snd] in *. rewrite Hi1 in Hdur. specialize (Hdur Hds).
  assert (kept !! p = Some (NFile i)) as Hkp by (destruct (Hk p) as [-> | ->]; done).
  unfold content. rewrite (proj2 (He p (NFile i))); [by apply Hd|].
  split; [done|]. intros j Hj. pose proof (path_Ok _ _ Hp) as [_ Hpe].
  assert (length p = 3) as Hl by (by rewrite Hpe). rewrite Hl in Hj.
  destruct (Hdir j Hj) as [D1 D2].
  assert (length (take j p) < 3) as Hlt by (rewrite length_take; lia).
  destruct (Hk (take j p)) as [-> | ->]; auto.
Qed.

(** The contract as a pure function: the answer and the contents after. *)
Definition store_fun (o : store_op) (m : gmap string bytes) : res answer * gmap string bytes :=
  match o with
  | OpHas k => (Ok (ABool (bool_decide (is_Some (m !! k)))), m)
  | OpPut k b => (Ok AUnit, put_blob k b m)
  | OpGet k => (match m !! k with Some b => Ok (ABytes b) | None => Err ErrBlobNotExist end, m)
  | OpDelete k => (Ok AUnit, delete k m)
  end.

Lemma store_run_valid o m f : valid_key (op_key o) = true →
  let '(r, w) := store_run o (World tt m ∅ 0 0 [f]) in
  let '(a, m') := store_fun o m in
  match f with
  | FOk => r = a ∧ w_blobs w = m'
  | FFail => r = Err ErrExternal ∧ w_blobs w = m
  | FLost => r = Err ErrExternal ∧ w_blobs w = m'
  end.
Proof.
  intros V. destruct o as [k|k b|k|k], f; cbn in *;
    cbv [Blob.Has Blob.Put Blob.Get Blob.Delete guard_key]; rewrite V; repeat (rewrite run_bind; cbn);
    try done; unfold call; repeat (rewrite run_bind; cbn); unfold ignore; cbn;
    try done; by destruct (m !! k).
Qed.

Lemma abs_frame k p s s' m x :
  path k = Ok p → abs s m → frame {[k]} s s' → content s' p = x →
  abs s' (partial_alter (λ _, x) k m).
Proof.
  intros Hp Ha (_&Hf&_) Hx k' p' Hp'. destruct (decide (k' = k)) as [->|Hn].
  - rewrite lookup_partial_alter_eq. congruence.
  - rewrite lookup_partial_alter_ne by done. rewrite (Hf k' p'); [by apply Ha|set_solver|done].
Qed.

Lemma abs_frame_empty s s' m : abs s m → frame ∅ s s' → abs s' m.
Proof. intros Ha (_&Hf&_) k p Hp. rewrite (Hf k p); [by apply Ha|set_solver|done]. Qed.

Lemma present_content good s k p m : fs_inv good s → path k = Ok p → abs s m →
  bool_decide (is_Some (fs_ents s !! p)) = bool_decide (is_Some (m !! k)).
Proof.
  intros Hi Hp Ha. rewrite <- (Ha k p Hp). apply bool_decide_ext. unfold content.
  destruct (fs_ents s !! p) as [n|] eqn:E; [|done].
  destruct (Hi k p n) as (i&b&->&_&->&_); [done|by left|]. split; eauto.
Qed.

Lemma stored_abs s0 k p b s m :
  path k = Ok p → abs s0 m → m !! k = None → stored s0 k p b s → abs s (put_blob k b m).
Proof.
  intros Hp Ha Hm (Hf&i&He&Hd&_). unfold put_blob. rewrite Hm.
  apply (abs_frame k p s0 s m (Some b)); [done..|]. unfold content. by rewrite He.
Qed.

(** C16: the filesystem store implements the contract its clients are verified
    against: each operation, whatever system calls fail, has the success, the
    answer and the resulting contents of the map operation under some outcome of
    its one call. *)
Theorem FS_refines_Store {P : Platform} good o (w : world disk) m :
  disk_inv good w → (∀ k b, o = OpPut k b → good k b) → abs (d_now (w_db w)) m →
  disk_inv good (fs_run o w).2 ∧
  ∃ f, let '(r, w') := store_run o (World tt m ∅ 0 0 [f]) in
       abs (d_now (w_db (fs_run o w).2)) (w_blobs w') ∧
       is_ok (fs_run o w).1 = is_ok r ∧ (is_ok r = true → (fs_run o w).1 = r).
Proof.
  intros Hi Hg Ha. split; [by apply keeps_fs_run|].
  destruct (path_cases (op_key o)) as [[p Hp]|Hp].
  2: { exists FOk. rewrite fs_run_invalid by done.
       assert (valid_key (op_key o) = false) as V.
       { destruct (valid_key (op_key o)) eqn:V; [|done]. apply path_valid in V. congruence. }
       destruct o; cbn in *; cbv [Blob.Has Blob.Put Blob.Get Blob.Delete guard_key]; rewrite V; done. }
  pose proof (path_Ok _ _ Hp) as [V _]. pose proof (fs_run_spec good o w p Hi Hg Hp) as [_ Hs].
  cut (∃ f, match f with
    | FOk => (fs_run o w).1 = (store_fun o m).1 ∧ abs (d_now (w_db (fs_run o w).2)) (store_fun o m).2
    | FFail => is_ok (fs_run o w).1 = false ∧ abs (d_now (w_db (fs_run o w).2)) m
    | FLost => is_ok (fs_run o w).1 = false ∧ abs (d_now (w_db (fs_run o w).2)) (store_fun o m).2
    end).
  { intros [f Hf]. exists f. pose proof (store_run_valid o m f V) as HV.
    destruct (store_run o _) as [r w'], (store_fun o m) as [a m'].
    destruct f, HV as [-> ->], Hf as [-> ?]; cbn; split_and!; done. }
  destruct Hi as [Hi _].
  destruct o as [k|k b|k|k]; cbn [op_key store_fun fst snd] in *.
  - destruct Hs as [-> Hr]. rewrite <- (present_content good _ k p m) by done.
    destruct (fs_run _ w).1; [exists FOk|exists FFail]; auto.
  - destruct Hs as [Hr Hs]. rewrite (present_content good _ k p m) in Hs by done.
    case_bool_decide as Hm.
    + destruct Hm as [b' Hm]. unfold put_blob. rewrite Hm, Hs.
      destruct (fs_run _ w).1; [exists FOk|exists FFail]; auto.
    + rewrite <- eq_None_not_Some in Hm. destruct Hs as [Hok Hfail].
      destruct (fs_run _ w).1; cbn in Hok.
      * exists FOk. split; [auto|]. destruct Hok as [Hst _]; [done|]. by eapply stored_abs.
      * destruct Hfail as [Hpre|Hst]; [exists FFail|exists FLost]; (split; [done|]).
        -- by eapply abs_frame_empty.
        -- by eapply stored_abs.
  - destruct Hs as [-> Hr]. rewrite <- (Ha k p Hp). destruct (fs_run _ w).1 as [a|e].
    + destruct Hr as (b&->&->). by exists FOk.
    + destruct Hr as [->|[-> ->]]; [by exists FFail|by exists FOk].
  - destruct Hs as (Hr&Hf&Hc). destruct Hc as [Hc|[-> Hc]].
    + assert (abs (d_now (w_db (fs_run (OpDelete k) w).2)) (delete k m))
        by (by apply (abs_frame k p (d_now (w_db w)) _ m None)).
      destruct (fs_run _ w).1; [exists FOk|exists FLost]; auto.
    + exists FFail. auto.
Qed.

(** ** Paths stay under the root *)
Lemma forallb_substring q n m s : string_forallb q s = true → string_forallb q (substring n m s) = true.
Proof.
  revert n m. induction s as [|c s IH]; intros [|n] [|m]; cbn; try done;
    intros [Hc Hs]%andb_true_iff; auto. by rewrite Hc, IH.
Qed.

Lemma substring_pos n m s : n < String.length s → 0 < m → substring n m s ≠ "".
Proof.
  revert n m. induction s as [|c s IH]; intros [|n] [|m]; cbn; intros; try lia; try done.
  apply IH; lia.
Qed.

(** A path component that names an entry of its directory and nothing else. *)
Definition plain (c : string) : Prop :=
  c ≠ "" ∧ c ≠ "." ∧ c ≠ ".." ∧ contains_byte "/"%char c = false.

Lemma hex_plain c : isHex c = true → c ≠ "" → plain c.
Proof.
  intros H Hc. split_and!; [done|by intros ->|by intros ->|].
  clear Hc. unfold isHex in H. induction c as [|a c IH]; [done|]. cbn in *.
  apply andb_true_iff in H as [Ha H]. rewrite (IH H), orb_false_r.
  apply bool_decide_eq_false. intros ->. done.
Qed.

(** a key cannot name anything outside the store's root, nor another key's
    file: every accepted path is three plain components, and distinct keys have
    distinct paths. *)
Theorem path_contained k k' p :
  path k = Ok p → length p = 3 ∧ Forall plain p ∧ (path k' = Ok p → k' = k).
Proof.
  intros Hp. split; [by destruct (path_Ok _ _ Hp) as [_ ->]|].
  split; [|intros Hp'; by apply (path_inj k' k p)].
  apply path_Ok in Hp as [[Hl Hx]%andb_true_iff ->].
  apply negb_true_iff, bool_decide_eq_false in Hl.
  repeat apply Forall_cons_2; [| | |by apply Forall_nil_2]; apply hex_plain;
    try (by apply forallb_substring); try done; try (apply substring_pos; lia).
  intros ->. cbn in Hl. lia.
Qed.

(** ** Crashes of concrete file systems *)
Definition crash_state (kept : gmap fpath node) (s : fsys) : fsys :=
  Fsys (filter (λ kv, Forall (λ k, kept !! take k kv.1 = Some NDir) (seq 1 (length kv.1 - 1))) kept)
       (filter (λ kv, Forall (λ k, kept !! take k kv.1 = Some NDir) (seq 1 (length kv.1 - 1))) kept)
       (fs_data s) (fs_sync s) (fs_next s) (fs_dirsync s).

Lemma crash_state_ok kept s :
  (∀ p, kept !! p = fs_ents s !! p ∨ kept !! p = fs_dur s !! p) → crash s (crash_state kept s).
Proof.
  intros Hk. exists kept. split_and!; [done| |done]. intros p n. cbn.
  rewrite map_lookup_filter_Some, Forall_forall. cbn. split.
  - intros [H1 H2]. split; [done|]. intros k Hk'. apply H2, elem_of_seq. lia.
  - intros [H1 H2]. split; [done|]. intros k Hk'%elem_of_seq. apply H2. lia.
Qed.

Definition crash_live (s : fsys) : fsys := crash_state (fs_ents s) s.
Definition crash_durable (s : fsys) : fsys := crash_state (fs_dur s) s.

(** A store whose shard directories for "abcd" are on disk. *)
Definition sharded : disk :=
  let dirs := <[["ab"] := NDir]> (<[["ab"; "cd"] := NDir]> ∅) in
  Disk (Fsys dirs dirs ∅ ∅ 0 true) [].
Definition put_abcd := FS.Put (P := counting_platform) "abcd" [x01; x02].

Lemma FS_crash_safe_witness :
  let w := (run_all (P := counting_platform) [OpPut "abcd" [x01]] (boot (mkfs true))).2 in
  ∃ b, content (crash_live (d_now (w_db w))) ["ab"; "cd"; "abcd"] = Some b ∧
       OpPut "abcd" b ∈ [OpPut "abcd" [x01]].
Proof.
  apply (FS_crash_safe (P := counting_platform) [OpPut "abcd" [x01]] (boot (mkfs true)) true
    (d_now (w_db (run_all (P := counting_platform) [OpPut "abcd" [x01]] (boot (mkfs true))).2))
    _ "abcd" ["ab"; "cd"; "abcd"] (NFile 0)).
  - reflexivity.
  - left.
  - apply crash_state_ok. by left.
  - reflexivity.
  - vm_compute. reflexivity.
Defined.

Lemma sharded_inv good : disk_inv good (boot sharded).
Proof.
  split; [|by apply Forall_nil].
  intros k p n Hp H. exfalso. apply path_Ok in Hp as [_ Hp].
  assert ((<[["ab"] := NDir]> (<[["ab"; "cd"] := NDir]> ∅) : gmap fpath node) !! p = Some n) as H'
    by (by destruct H).
  apply lookup_insert_Some in H' as [[<- _]|[_ H']]; [done|].
  apply lookup_insert_Some in H' as [[<- _]|[_ H']]; [done|]. by rewrite lookup_empty in H'.
Qed.

Lemma FS_Put_durable_witness :
  content (crash_durable (d_now (w_db (put_abcd (boot sharded)).2))) ["ab"; "cd"; "abcd"]
  = Some [x01; x02].
Proof.
  apply (FS_Put_durable (P := counting_platform) (λ _ _, True) "abcd" ["ab"; "cd"; "abcd"]
    [x01; x02] (boot sharded) (put_abcd (boot sharded)).2).
  - apply sharded_inv.
  - exact I.
  - reflexivity.
  - reflexivity.
  - reflexivity.
  - intros i Hi. destruct i as [|[|[|i]]]; try lia; by vm_compute.
  - apply run_result. vm_compute. reflexivity.
  - apply crash_state_ok. by right.
Defined.

Lemma FS_refines_Store_witness :
  disk_inv (λ _ _, True) (fs_run (P := counting_platform) (OpHas "abcd") (boot sharded)).2 ∧
  ∃ f, let '(r, w') := store_run (OpHas "abcd") (World tt ∅ ∅ 0 0 [f]) in
       abs (d_now (w_db (fs_run (P := counting_platform) (OpHas "abcd") (boot sharded)).2)) (w_blobs w') ∧
       is_ok (fs_run (P := counting_platform) (OpHas "abcd") (boot sharded)).1 = is_ok r ∧
       (is_ok r = true → (fs_run (P := counting_platform) (OpHas "abcd") (boot sharded)).1 = r).
Proof.
  apply (FS_refines_Store (P := counting_platform) (λ _ _, True) (OpHas "abcd") (boot sharded) ∅).
  - apply sharded_inv.
  - done.
  - intros k p Hp. rewrite lookup_empty. unfold content.
    destruct (fs_ents (d_now (w_db (boot sharded))) !! p) as [n|] eqn:E; [|done].
    destruct (sharded_inv (λ _ _, False) ) as [Hi _].
    destruct (Hi k p n Hp) as (i&b&_&_&_&_&[]). by left.
Defined.

Lemma path_contained_witness :
  length ["ab"; "cd"; "abcd"] = 3 ∧ Forall plain ["ab"; "cd"; "abcd"] ∧
  (path "abcd" = Ok ["ab"; "cd"; "abcd"] → "abcd" = "abcd").
Proof. apply (path_contained "abcd" "abcd" ["ab"; "cd"; "abcd"]). reflexivity. Defined.

(** The first Put under a new shard fsyncs the leaf directory only: the entries
    of the shard directories themselves are not durable, and a crash after Put
    returned can lose the blob. *)
Theorem Put_new_shard_not_durable :
  ∃ w' s', put_abcd (boot (mkfs true)) = (Ok tt, w') ∧ crash (d_now (w_db w')) s' ∧
    content s' ["ab"; "cd"; "abcd"] = None.
Proof.
  exists (put_abcd (boot (mkfs true))).2, (crash_durable (d_now (w_db (put_abcd (boot (mkfs true))).2))).
  split_and!; [apply run_result; vm_compute; reflexivity|apply crash_state_ok; by right|vm_compute; reflexivity].
Qed.

(** A Put that finds the key present returns at once: after a Put whose
    directory fsync failed, the retry succeeds without making the entry durable. *)
Definition dirsync_fails : world disk :=
  World sharded ∅ ∅ 0 0 (replicate 9 FOk ++ [FFail]).

Theorem Put_retry_not_durable :
  ∃ e w1 w2 s', put_abcd dirsync_fails = (Err e, w1) ∧ put_abcd w1 = (Ok tt, w2) ∧
    crash (d_now (w_db w2)) s' ∧ content s' ["ab"; "cd"; "abcd"] = None.
Proof.
  exists ErrExternal, (put_abcd dirsync_fails).2, (put_abcd (put_abcd dirsync_fails).2).2,
    (crash_durable (d_now (w_db (put_abcd (put_abcd dirsync_fails).2).2))).
  split; [exact (run_result put_abcd dirsync_fails (Err ErrExternal) ltac:(vm_compute; reflexivity))|].
  split; [exact (run_result put_abcd (put_abcd dirsync_fails).2 (Ok tt) ltac:(vm_compute; reflexivity))|].
  split; [apply crash_state_ok; by right|vm_compute; reflexivity].
Qed.
