(* ===== verification/Engine.v ===== *)
(** * Engine: the chunking pipeline (kamara/internal/engine/engine.go)

    [Ingest] composes the chunker, the cipher and the blob store; [Reassemble]
    streams a manifest back.  The variables their closures capture (the manifest
    built so far, the bytes written so far) are local state beside the world. *)

From S2P Require Import Prelude GoText World Chunker ChunkCrypto Blob.
Import Chunker.

Record ChunkRef := MkChunkRef { cr_Hash : string; cr_Size : Z }.

#[global] Instance ChunkRef_eq_dec : EqDecision ChunkRef.
Proof. solve_decision. Defined.

(** ** Local state beside the world *)
Section local.
Context {W S : Type}.

Definition on_world {A} (m : M W A) : M (W * S) A := λ '(w, s),
  let '(r, w') := m w in (r, (w', s)).
Definition on_local (f : S → S) : M (W * S) unit := λ '(w, s), (Ok tt, (w, f s)).

Lemma keeps_on_world {A} (I : W → Prop) (m : M W A) :
  keeps I m → keeps (λ ws, I ws.1) (on_world m).
Proof. intros H [w s] Hw. specialize (H w Hw). cbn. by destruct (m w). Qed.

Lemma keeps_on_local (I : W → Prop) f : keeps (λ ws : W * S, I ws.1) (on_local f).
Proof. by intros [w s]. Qed.
End local.

#[export] Hint Resolve keeps_on_world keeps_on_local : go.

Section engine.
Context {Pr : Primitives} {P : Platform} {D : Type}.
Abbreviation W := (world D).
Abbreviation ingest_state := (list ChunkRef * Z)%type.

(** The callback of Ingest. *)
Definition ingest_chunk (c : Cipher) (plain : bytes) : M (W * ingest_state) unit :=
  let hash := ChunkHash plain in
  has ← on_world (Has hash);
  (if has : bool then mret tt
   else s ← on_world (Seal c plain); on_world (Put hash s.2)) ;;
  on_local (λ '(refs, total), (refs ++ [MkChunkRef hash (blen plain)], (total + blen plain)%Z)).

Definition Ingest (c : Cipher) (body : list rd_event) : M W (list ChunkRef * Z) := λ w,
  let '(r, (w', st)) := Split kamara_params (ingest_chunk c) body (w, ([], 0%Z)) in
  match r with
  | Ok _ => (Ok st, w')
  | Err e => (Err e, w')
  end.

(** [w.Write]: the consumer can fail too. *)
Definition out_write (b : bytes) : M (W * bytes) unit := λ '(w, out),
  match next_fault w with
  | (Ok FOk, w') => (Ok tt, (w', out ++ b))
  | (Ok FLost, w') => (Err ErrExternal, (w', out ++ b))
  | (_, w') => (Err ErrExternal, (w', out))
  end.

Definition reassemble_chunk (c : Cipher) (ref : ChunkRef) : M (W * bytes) unit :=
  sealed ← on_world (Get (cr_Hash ref));
  plain ← lift (Open c (cr_Hash ref) sealed);
  out_write plain.

Definition Reassemble (c : Cipher) (refs : list ChunkRef) : M (W * bytes) unit :=
  for_each refs (reassemble_chunk c).

(** ** The store invariant: every blob opens, under its own key *)
Definition opens (c : Cipher) (m : gmap string bytes) (h : string) (pt : bytes) : Prop :=
  ∃ b, m !! h = Some b ∧ Open c h b = Ok pt.

Definition blobs_ok (c : Cipher) (m : gmap string bytes) : Prop :=
  ∀ h, is_Some (m !! h) → ∃ pt, opens c m h pt.

(** No stored plaintext collides with a chunk of [data] under BLAKE3. *)
Definition no_collision (c : Cipher) (m : gmap string bytes) (data : bytes) : Prop :=
  (∀ x pt, x ∈ chunks kamara_params data → opens c m (ChunkHash x) pt → pt = x) ∧
  (∀ x y, x ∈ chunks kamara_params data → y ∈ chunks kamara_params data → ChunkHash x = ChunkHash y → x = y).

Lemma ChunkHash_valid {Ok' : PrimitivesOk} pt : valid_key (ChunkHash pt) = true.
Proof.
  unfold valid_key, isHex. rewrite ChunkHash_hex, ChunkHash_length. done.
Qed.

Lemma opens_fun c m h pt pt' : opens c m h pt → opens c m h pt' → pt = pt'.
Proof. intros (b&H1&H2) (b'&H3&H4). congruence. Qed.

Lemma opens_hash c m h pt : opens c m h pt → ChunkHash pt = h.
Proof. intros (b&_&H). by apply Open_hash in H. Qed.

Lemma opens_mono c m m' h pt : m ⊆ m' → opens c m h pt → opens c m' h pt.
Proof. intros Hm (b&H1&H2). exists b. split; [by eapply lookup_weaken|done]. Qed.

Lemma put_blob_sub k b m : m ⊆ put_blob k b m.
Proof. unfold put_blob. destruct (m !! k) eqn:E; [done|by apply insert_subseteq]. Qed.

(** ** What ingesting a list of chunks does to the world *)
Definition ref_of (x : bytes) : ChunkRef := MkChunkRef (ChunkHash x) (blen x).

Definition total_size (l : list bytes) : Z := foldr (λ x n, blen x + n)%Z 0%Z l.

(** Blobs are only added, and only sealed chunks of [l] under their hash. *)
Definition grows (c : Cipher) (l : list bytes) (w w' : W) : Prop :=
  w_db w' = w_db w ∧ w_fga w' = w_fga w ∧ w_now w' = w_now w ∧ w_blobs w ⊆ w_blobs w' ∧
  ∀ h b, w_blobs w' !! h = Some b → w_blobs w !! h = Some b ∨
    ∃ nonce x, length nonce = NonceSize ∧ x ∈ l ∧ h = ChunkHash x ∧ b = seal_with c nonce x.

Lemma grows_refl c l w : grows c l w w.
Proof. repeat split; auto. Qed.

Lemma grows_trans c l1 l2 l w w1 w2 :
  l1 ⊆ l → l2 ⊆ l → grows c l1 w w1 → grows c l2 w1 w2 → grows c l w w2.
Proof.
  intros S1 S2 (A1&A2&A3&A4&A5) (B1&B2&B3&B4&B5). repeat split; try congruence.
  - by etrans.
  - intros h b [H|(n&x&?&?&?&?)]%B5.
    + apply A5 in H as [H|(n&x&?&?&?&?)]; [by left|]. right. exists n, x. auto.
    + right. exists n, x. auto.
Qed.

Lemma grows_other c l w w' :
  w_other w' = w_other w → w_blobs w' = w_blobs w → grows c l w w'.
Proof.
  unfold w_other. intros Ho Hb. injection Ho as H1 H2 H3. split_and!; try done; rewrite Hb; auto.
Qed.

Lemma ingest_chunk_spec c x w refs total r w' st :
  ingest_chunk c x (w, (refs, total)) = (r, (w', st)) →
  grows c [x] w w' ∧
  (r = Ok tt → st = (refs ++ [ref_of x], (total + blen x)%Z) ∧ is_Some (w_blobs w' !! ChunkHash x)).
Proof.
  unfold ingest_chunk. rewrite run_bind. cbn [on_world].
  destruct (Has (ChunkHash x) w) as [rh w1] eqn:E1. apply Has_cases in E1 as (Ho1&Hb1&Hh).
  assert (grows c [x] w w1) as G1 by (by apply grows_other).
  destruct rh as [[]|e]; [| |intros [= <- <- <-]; done].
  - rewrite run_bind. intros [= <- <- <-]. split; [done|]. intros _. split; [done|].
    rewrite Hb1. specialize (Hh true eq_refl). by apply eq_sym, bool_decide_eq_true in Hh.
  - rewrite run_bind, run_bind. unfold Seal, on_world. rewrite run_bind. cbn.
    set (nonce := rand_bytes (w_draws w1) NonceSize).
    match goal with |- context [Put ?k ?b ?v] => destruct (Put k b v) as [rp w3] eqn:E3 end.
    apply Put_cases in E3 as (Ho3&Hb3). cbn in Ho3, Hb3. unfold w_other in Ho3. cbn in Ho3.
    assert (grows c [x] w1 w3) as G3.
    { injection Ho3 as H1 H2 H3. repeat split; try done.
      - destruct Hb3 as [[-> _]| ->]; [done|apply put_blob_sub].
      - intros h b Hl. destruct Hb3 as [[Hb3 _]|Hb3]; rewrite Hb3 in Hl; [by left|].
        rewrite put_blob_lookup in Hl. destruct (w_blobs w1 !! h); [by left|].
        destruct (decide (h = ChunkHash x)); [|done]. injection Hl as <-.
        right. exists nonce, x. split_and!; [apply rand_length|left|done|done]. }
    assert (grows c [x] w w3) as G by (by eapply grows_trans).
    destruct rp as [[]|e]; intros [= <- <- <-]; [|done]. split; [done|]. intros _. split; [done|].
    destruct Hb3 as [[_ [=]]|Hb3]. rewrite Hb3, put_blob_lookup, decide_True by done.
    by destruct (w_blobs w1 !! _).
Qed.

Lemma ingest_list_spec c l w refs total r w' st :
  for_each l (ingest_chunk c) (w, (refs, total)) = (r, (w', st)) →
  grows c l w w' ∧
  (r = Ok tt → st = (refs ++ (ref_of <$> l), (total + total_size l)%Z) ∧
               ∀ x, x ∈ l → is_Some (w_blobs w' !! ChunkHash x)).
Proof.
  revert w refs total. induction l as [|x l IH]; intros w refs total; cbn [for_each].
  { intros [= <- <- <-]. split; [apply grows_refl|]. intros _. split; [|set_solver].
    cbn. by rewrite app_nil_r, Z.add_0_r. }
  rewrite run_bind. destruct (ingest_chunk c x _) as [r1 [w1 [refs1 total1]]] eqn:E1.
  apply ingest_chunk_spec in E1 as [G1 H1]. destruct r1 as [[]|e].
  2: { intros [= <- <- <-]. split; [|done]. eapply grows_trans; [| |done|apply grows_refl]; set_solver. }
  destruct (H1 eq_refl) as [[= -> ->] Hx]. intros [G2 H2]%IH.
  split; [eapply grows_trans; [| |done|done]; set_solver|].
  intros Hr. destruct (H2 Hr) as [-> Hl]. split.
  - cbn. rewrite <- app_assoc. unfold total_size. f_equal. lia.
  - intros y [-> | Hy]%elem_of_cons; [|auto]. destruct Hx as [b Hb]. exists b.
    destruct G2 as (_&_&_&Hsub&_). by eapply lookup_weaken.
Qed.

(** Ingest, whatever the body does and whatever fails. *)
Lemma Ingest_spec c body w :
  ∃ l o, (∀ w, Split kamara_params (ingest_chunk c) body w = (for_each l (ingest_chunk c) ;; lift o) w) ∧
    grows c l w (Ingest c body w).2 ∧
    ∀ refs total, (Ingest c body w).1 = Ok (refs, total) →
      o = Ok tt ∧ refs = ref_of <$> l ∧ total = total_size l ∧
      ∀ x, x ∈ l → is_Some (w_blobs (Ingest c body w).2 !! ChunkHash x).
Proof.
  destruct (Split_trace kamara_params body) as (l&o&H). exists l, o.
  split; [apply H|]. unfold Ingest. rewrite H, run_bind.
  destruct (for_each l _ _) as [r [w' st]] eqn:E. apply ingest_list_spec in E as [G Hr].
  destruct r as [[]|e]; cbn; [|done]. destruct (Hr eq_refl) as [-> Hx].
  destruct o as [[]|e]; cbn; [|done]. split; [done|]. intros refs total [= <- <-]. auto.
Qed.

(** The manifest of a successful ingest is the list of chunks the splitter cuts from
    that body, and its total is their length. *)
Lemma Ingest_cuts c body w refs total w' :
  Ingest c body w = (Ok (refs, total), w') →
  ∃ l, Split kamara_params collect body [] = (Ok tt, l) ∧ refs = ref_of <$> l ∧ total = total_size l ∧
    ∀ x, x ∈ l → is_Some (w_blobs w' !! ChunkHash x).
Proof.
  destruct (Split_trace kamara_params body) as (l&o&H).
  assert (Split kamara_params collect body [] = (o, l)) as Hc
    by (rewrite H, run_bind, for_each_collect; done).
  unfold Ingest. rewrite H, run_bind.
  destruct (for_each l _ _) as [r [w1 st]] eqn:E. apply ingest_list_spec in E as [G Hr].
  destruct r as [[]|e]; [|done]. destruct (Hr eq_refl) as [-> Hx].
  destruct o as [[]|e]; [|done]. intros [= <- <- <-]. exists l. auto.
Qed.

Lemma grows_blobs_ok {Ok' : PrimitivesOk} c l w w' :
  grows c l w w' → blobs_ok c (w_blobs w) → blobs_ok c (w_blobs w').
Proof.
  intros (_&_&_&Hs&Hn) Hok h [b Hb]. destruct (Hn h b Hb) as [H|(n&x&Hl&_&->&->)].
  - destruct (Hok h) as [pt Hpt]; [eauto|]. exists pt. by eapply opens_mono.
  - exists x, (seal_with c n x). split; [done|]. by apply Open_seal_with.
Qed.

(** Every ingested chunk opens to itself, unless its hash collides. *)
Lemma grows_opens {Ok' : PrimitivesOk} c l w w' x :
  grows c l w w' → blobs_ok c (w_blobs w) → x ∈ l → is_Some (w_blobs w' !! ChunkHash x) →
  (∀ pt, opens c (w_blobs w) (ChunkHash x) pt → pt = x) →
  (∀ y, y ∈ l → ChunkHash x = ChunkHash y → x = y) →
  opens c (w_blobs w') (ChunkHash x) x.
Proof.
  intros (_&_&_&Hs&Hn) Hok Hx [b Hb] Hc1 Hc2. destruct (Hn _ b Hb) as [H|(n&y&Hl&Hy&He&->)].
  - destruct (Hok (ChunkHash x)) as [pt Hpt]; [eauto|]. rewrite <- (Hc1 pt Hpt) at 2.
    by eapply opens_mono.
  - rewrite (Hc2 y Hy He) in *. exists (seal_with c n y). split; [done|]. by apply Open_seal_with.
Qed.

(** ** Fault-free runs *)
Lemma ingest_chunk_nil {Ok' : PrimitivesOk} c x w st :
  w_faults w = [] →
  ∃ w' st', ingest_chunk c x (w, st) = (Ok tt, (w', st')) ∧ w_faults w' = [].
Proof.
  intros Hf. destruct st as [refs total]. pose proof (ChunkHash_valid x) as V.
  unfold ingest_chunk. rewrite run_bind. cbn [on_world]. rewrite run_Has_nil by done.
  case_bool_decide; [rewrite run_bind; eauto|].
  rewrite run_bind, run_bind. unfold Seal, on_world. rewrite run_bind. cbn.
  rewrite run_Put_nil by done. cbn. eauto.
Qed.

Lemma ingest_list_nil {Ok' : PrimitivesOk} c l w st :
  w_faults w = [] →
  ∃ w' st', for_each l (ingest_chunk c) (w, st) = (Ok tt, (w', st')) ∧ w_faults w' = [].
Proof.
  revert w st. induction l as [|x l IH]; intros w st Hf; cbn [for_each]; [eauto|].
  destruct (ingest_chunk_nil c x w st Hf) as (w1&st1&E&Hf1).
  rewrite (run_bind_ok _ _ _ _ _ E). by apply IH.
Qed.

Lemma total_size_concat l : total_size l = blen (concat l).
Proof.
  unfold blen, total_size. induction l as [|x l IH]; [done|]. cbn. rewrite IH, length_app. unfold blen. lia.
Qed.

Lemma Reassemble_nil {Ok' : PrimitivesOk} c refs l w out :
  w_faults w = [] →
  Forall2 (λ ref x, valid_key (cr_Hash ref) = true ∧ opens c (w_blobs w) (cr_Hash ref) x) refs l →
  Reassemble c refs (w, out) = (Ok tt, (w, out ++ concat l)).
Proof.
  intros Hf H. revert out. induction H as [|ref x refs l [V (b&Hb&Ho)] _ IH]; intros out.
  { cbn. by rewrite app_nil_r. }
  unfold Reassemble in *. cbn [for_each].
  assert (reassemble_chunk c ref (w, out) = (Ok tt, (w, out ++ x))) as E.
  { unfold reassemble_chunk. rewrite run_bind. cbn [on_world]. rewrite (run_Get_nil _ _ b) by done.
    rewrite run_bind, Ho. cbn [lift out_write]. unfold next_fault. by rewrite Hf. }
  rewrite (run_bind_ok _ _ _ _ _ E), IH. cbn. by rewrite app_assoc.
Qed.

(** Whatever the store holds and whatever fails, the bytes written are
    plaintexts that hash to the manifest's entries, in order. *)
Lemma Reassemble_prefix c refs w out r w' out' :
  Reassemble c refs (w, out) = (r, (w', out')) →
  ∃ l, out' = out ++ concat l ∧ length l ≤ length refs ∧
       Forall2 (λ ref x, ChunkHash x = cr_Hash ref) (take (length l) refs) l ∧
       (r = Ok tt → length l = length refs).
Proof.
  unfold Reassemble. revert w out. induction refs as [|ref refs IH]; intros w out; cbn [for_each].
  { intros [= <- <- <-]. exists []. cbn. by rewrite app_nil_r. }
  rewrite run_bind. unfold reassemble_chunk at 1. rewrite run_bind. cbn [on_world].
  assert (∀ e : error, ∃ l, out = out ++ concat l ∧ length l ≤ length (ref :: refs) ∧
    Forall2 (λ ref x, ChunkHash x = cr_Hash ref) (take (length l) (ref :: refs)) l ∧
    (Err e = Ok tt → length l = length (ref :: refs))) as Hnil.
  { intros e. exists []. cbn. rewrite app_nil_r. split_and!; auto; [lia|done]. }
  destruct (Get (cr_Hash ref) w) as [[sealed|e] w1].
  2: { intros [= <- <- <-]. apply Hnil. }
  rewrite run_bind. destruct (Open c (cr_Hash ref) sealed) as [x|e] eqn:Ho; cbn [lift].
  2: { intros [= <- <- <-]. apply Hnil. }
  apply Open_hash in Ho.
  assert (∀ o, o = out ++ x → ∃ l, o = out ++ concat l ∧ length l ≤ length (ref :: refs) ∧
    Forall2 (λ ref x, ChunkHash x = cr_Hash ref) (take (length l) (ref :: refs)) l) as Hone.
  { intros o ->. exists [x]. cbn. rewrite app_nil_r. split_and!; auto; lia. }
  cbn [out_write]. unfold next_fault.
  destruct (w_faults w1) as [|[] fs]; cbn; intros E.
  1,2: apply IH in E as (l&->&Hl&HF&Hr); exists (x :: l); cbn; rewrite <- app_assoc;
    split_and!; auto; try lia; intros Hr'; by rewrite Hr.
  - injection E as <- <- <-. apply Hnil.
  - injection E as <- <- <-. destruct (Hone _ eq_refl) as (l&?&?&?). exists l. split_and!; done.
Qed.
End engine.

(** ** Claims *)

(** storing a stream and reading it back is the identity.  In a world where
    no call fails, for every reader that delivers [data] in pieces, Ingest
    succeeds with the manifest of the reference chunks and the exact size, and
    Reassemble of that manifest writes exactly [data], provided no stored
    plaintext collides with a chunk of it under BLAKE3. *)
Theorem Ingest_Reassemble {Pr : Primitives} {Ok' : PrimitivesOk} {P : Platform} {D : Type}
    c body (w : world D) :
  w_faults w = [] → good body → blobs_ok c (w_blobs w) →
  no_collision c (w_blobs w) (events_data body) →
  ∃ refs w', Ingest c body w = (Ok (refs, blen (events_data body)), w') ∧
    refs = ref_of <$> chunks kamara_params (events_data body) ∧
    Reassemble c refs (w', []) = (Ok tt, (w', events_data body)).
Proof.
  intros Hf Hg Hok [Hc1 Hc2]. set (l := chunks kamara_params (events_data body)) in *.
  pose proof (chunks_concat kamara_params (events_data body) kamara_params_ok) as Hcat.
  destruct (ingest_list_nil c l w ([], 0%Z) Hf) as (w'&st&E&Hf').
  pose proof (ingest_list_spec _ _ _ _ _ _ _ _ E) as [G Hst].
  destruct (Hst eq_refl) as [-> Hin]. cbn in E.
  exists (ref_of <$> l), w'. split_and!; [|done|].
  - unfold Ingest. rewrite Split_chunks by (done || apply kamara_params_ok). fold l.
    rewrite E, total_size_concat. unfold l. by rewrite Hcat.
  - rewrite (Reassemble_nil c _ l) by
      (done || (apply Forall2_fmap_l, Forall_Forall2_diag, Forall_forall; intros x Hx;
        split; [apply ChunkHash_valid|by apply (grows_opens c l w w' x); auto])).
    unfold l. by rewrite Hcat.
Qed.

Lemma Ingest_Reassemble_witness :
  let c := MkCipher (replicate 32 x07) "t" in
  let body := [RData [x61]; RData [x62]] in
  ∃ refs w', Ingest (Pr := toy_primitives) (P := counting_platform) c body (boot tt)
      = (Ok (refs, blen (events_data body)), w') ∧
    refs = ref_of (Pr := toy_primitives) <$> chunks kamara_params (events_data body) ∧
    Reassemble (Pr := toy_primitives) c refs (w', []) = (Ok tt, (w', events_data body)).
Proof.
  apply (Ingest_Reassemble (Pr := toy_primitives) (Ok' := toy_primitives_ok) (P := counting_platform)
    (MkCipher (replicate 32 x07) "t") [RData [x61]; RData [x62]] (boot tt)).
  - reflexivity.
  - repeat constructor; do 2 eexists; reflexivity.
  - intros h [b Hb]. cbn in Hb. by rewrite lookup_empty in Hb.
  - split.
    + intros x pt _ (b&Hb&_). cbn in Hb. by rewrite lookup_empty in Hb.
    + intros x y Hx Hy _.
      assert (chunks kamara_params (events_data [RData [x61]; RData [x62]]) = [[x61; x62]]) as E
        by (vm_compute; reflexivity).
      rewrite E in Hx, Hy. apply list_elem_of_singleton in Hx, Hy. congruence.
Defined.

(** C28: a reader never receives wrong bytes.  Whatever the blob store holds and
    whatever fails, what Reassemble has written is the concatenation of
    plaintexts that hash to the first entries of the manifest, in order, and all
    of them when it reports success. *)
Theorem Reassemble_integrity {Pr : Primitives} {P : Platform} {D : Type} c refs (w : world D) :
  let '(r, (w', out)) := Reassemble c refs (w, []) in
  ∃ l, out = concat l ∧ length l ≤ length refs ∧
       Forall2 (λ ref x, ChunkHash x = cr_Hash ref) (take (length l) refs) l ∧
       (r = Ok tt → length l = length refs).
Proof.
  destruct (Reassemble c refs (w, [])) as [r [w' out]] eqn:E.
  by apply (Reassemble_prefix c refs w [] r w' out).
Qed.

(** storing is deduplicated and touches nothing but the blob store: a body
    whose chunks are all stored already writes no blob, and no ingestion ever
    changes or removes a stored blob, whatever calls fail. *)
Theorem Ingest_dedup {Pr : Primitives} {P : Platform} {D : Type}
    c body (w : world D) :
  good body →
  let w' := (Ingest c body w).2 in
  w_db w' = w_db w ∧ w_fga w' = w_fga w ∧ w_blobs w ⊆ w_blobs w' ∧
  ((∀ x, x ∈ chunks kamara_params (events_data body) → is_Some (w_blobs w !! ChunkHash x)) →
   w_blobs w' = w_blobs w).
Proof.
  intros Hg. cbn. unfold Ingest. rewrite Split_chunks by (done || apply kamara_params_ok).
  set (l := chunks kamara_params (events_data body)).
  destruct (for_each l _ _) as [r [w' st]] eqn:E. apply ingest_list_spec in E as [(H1&H2&_&H4&H5) _].
  assert ((match r with Ok _ => (Ok st, w') | Err e => (Err e, w') end : res _ * world D).2 = w') as ->
    by (by destruct r).
  split_and!; [done..|]. intros Hall. apply map_eq. intros h.
  destruct (w_blobs w' !! h) as [b|] eqn:Eb.
  - destruct (H5 h b Eb) as [H|(n&x&_&Hx&->&_)]; [done|].
    destruct (Hall x Hx) as [b' Hb']. rewrite Hb', <- Eb. by eapply lookup_weaken.
  - by rewrite (lookup_weaken_None _ _ _ Eb H4).
Qed.

Lemma Ingest_dedup_witness :
  let c := MkCipher (replicate 32 x07) "t" in
  let w' := (Ingest (Pr := toy_primitives) (P := counting_platform) c [RData [x61]] (boot tt)).2 in
  w_db w' = tt ∧ w_fga w' = ∅ ∧ ∅ ⊆ w_blobs w' ∧
  ((∀ x, x ∈ chunks kamara_params (events_data [RData [x61]]) →
       is_Some ((∅ : gmap string bytes) !! ChunkHash (Pr := toy_primitives) x)) →
   w_blobs w' = ∅).
Proof.
  apply (Ingest_dedup (Pr := toy_primitives) (P := counting_platform)
    (MkCipher (replicate 32 x07) "t") [RData [x61]] (boot tt)).
  repeat constructor; do 2 eexists; reflexivity.
Defined.
