(* ===== verification/Repo.v ===== *)
(** * Repo: Kamara's database (kamara/internal/store/repos.go and migrations/)

    The tables as records and maps, one definition per statement, with the
    schema's constraints written out: primary keys, UNIQUE (object_id, ordinal),
    the foreign keys and their ON DELETE actions.  A constraint that fails is a
    statement that fails and changes nothing. *)

From S2P Require Import Prelude GoText Ids World Pii Pseudonym Conventions Chunker Engine.
Import Pii.

(** file.Object, file.Version and file.Folder (file.go, folder.go). *)
Record Object := MkObject {
  o_ID : string;
  o_Owner : Subject;
  o_Name : string;
  o_Size : Z;
  o_FolderID : option string;
  o_ContentType : string;
  o_Created : Z;
  o_Updated : Z;
}.
#[global] Instance Object_eq_dec : EqDecision Object.
Proof. solve_decision. Defined.

Definition o_Permalink (i : string) : string := "/files/" +:+ i.

Record Version := MkVersion {
  v_ID : string;
  v_Ordinal : Z;
  v_Size : Z;
  v_Created : Z;
}.

Record Folder := MkFolder {
  f_ID : string;
  f_Owner : Subject;
  f_ParentID : option string;
  f_Name : string;
  f_Created : Z;
  f_Updated : Z;
}.
#[global] Instance Folder_eq_dec : EqDecision Folder.
Proof. solve_decision. Defined.

Definition f_Permalink (i : string) : string := "/folders/" +:+ i.

(** A row of versions, chunks, version_chunks and wopi_sessions. *)
Record version_row := VRow { vr_object : string; vr_version : Version }.
Record chunk_row := CRow { c_size : Z; c_refs : Z }.
Record manifest_row := MRow { m_version : string; m_idx : nat; m_hash : string }.
Record Session := MkSession {
  ws_ObjectID : string;
  ws_Subject : Subject;
  ws_CanWrite : bool;
  ws_Expires : Z;
}.

Record KDB := MkKDB {
  objects : gmap string Object;
  folders : gmap string Folder;
  versions : gmap string version_row;
  chunks_tbl : gmap string chunk_row;
  version_chunks : list manifest_row;
  wopi_sessions : gmap string Session;
  k_conv : Conv;
}.

Definition kdb_empty : KDB := MkKDB ∅ ∅ ∅ ∅ [] ∅ conv_empty.

Definition with_objects (x : gmap string Object) (d : KDB) : KDB :=
  MkKDB x (folders d) (versions d) (chunks_tbl d) (version_chunks d) (wopi_sessions d) (k_conv d).
Definition with_folders (x : gmap string Folder) (d : KDB) : KDB :=
  MkKDB (objects d) x (versions d) (chunks_tbl d) (version_chunks d) (wopi_sessions d) (k_conv d).
Definition with_versions (x : gmap string version_row) (d : KDB) : KDB :=
  MkKDB (objects d) (folders d) x (chunks_tbl d) (version_chunks d) (wopi_sessions d) (k_conv d).
Definition with_chunks (x : gmap string chunk_row) (d : KDB) : KDB :=
  MkKDB (objects d) (folders d) (versions d) x (version_chunks d) (wopi_sessions d) (k_conv d).
Definition with_manifest (x : list manifest_row) (d : KDB) : KDB :=
  MkKDB (objects d) (folders d) (versions d) (chunks_tbl d) x (wopi_sessions d) (k_conv d).
Definition with_sessions (x : gmap string Session) (d : KDB) : KDB :=
  MkKDB (objects d) (folders d) (versions d) (chunks_tbl d) (version_chunks d) x (k_conv d).

#[global] Program Instance KDB_conv : HasConv KDB := {|
  conv := k_conv;
  with_conv := λ c d, MkKDB (objects d) (folders d) (versions d) (chunks_tbl d)
                            (version_chunks d) (wopi_sessions d) c |}.
Solve All Obligations with (by intros; repeat match goal with d : KDB |- _ => destruct d end).

(** The range of the column type [int]. *)
Definition int4_max : Z := 2147483647.
Definition out_of_range : error := ErrText "integer out of range".

Abbreviation KW := (world KDB).

(** A nullable foreign key. *)
Definition fk_ok {A} (ref : option string) (tbl : gmap string A) : bool :=
  match ref with None => true | Some i => bool_decide (is_Some (tbl !! i)) end.

(** Statements that read the database clock ([now()]). *)
Definition stmt_now {A} (f : Z → KDB → res (A * KDB)) : M KW A :=
  t ← now; stmt (f t).

(** UPDATE of one row by primary key: no row, no effect. *)
Definition update_row {A} (f : A → A) (i : string) (tbl : gmap string A) : gmap string A :=
  alter f i tbl.

(** ORDER BY: the column decides; what Postgres does with ties is not relied on. *)
Definition by_Z {A} (key : A → Z) (x y : A) : Prop := (key x <= key y)%Z.
Definition by_name {A} (key : A → string) (x y : A) : Prop := String.leb (key x) (key y) = true.
#[global] Instance by_Z_dec {A} (key : A → Z) : RelDecision (by_Z key).
Proof. intros x y. unfold by_Z. apply _. Defined.
#[global] Instance by_name_dec {A} (key : A → string) : RelDecision (by_name key).
Proof. intros x y. unfold by_name. apply _. Defined.

Definition rows {A} (tbl : gmap string A) : list A := snd <$> map_to_list tbl.
Definition select {A} (p : A → Prop) `{!∀ x, Decision (p x)} (tbl : gmap string A) : list A :=
  filter p (rows tbl).

(** ** Objects *)
Definition InsertObject (o : Object) : M KW unit :=
  stmt (λ d,
    if bool_decide (is_Some (objects d !! o_ID o)) then Err ErrUnique
    else if negb (fk_ok (o_FolderID o) (folders d)) then Err ErrForeignKey
    else Ok (tt, with_objects (<[o_ID o := o]> (objects d)) d)).

Definition SetObjectFolder (i : string) (folderID : option string) : M KW unit :=
  stmt_now (λ t d,
    if bool_decide (is_Some (objects d !! i)) && negb (fk_ok folderID (folders d))
    then Err ErrForeignKey
    else Ok (tt, with_objects (update_row (λ o,
           MkObject (o_ID o) (o_Owner o) (o_Name o) (o_Size o) folderID (o_ContentType o)
                    (o_Created o) t) i (objects d)) d)).

Definition SetObjectName (i name : string) : M KW unit :=
  stmt_now (λ t d, Ok (tt, with_objects (update_row (λ o,
    MkObject (o_ID o) (o_Owner o) name (o_Size o) (o_FolderID o) (o_ContentType o)
             (o_Created o) t) i (objects d)) d)).

Definition SetObjectSize (i : string) (size : Z) : M KW unit :=
  stmt_now (λ t d, Ok (tt, with_objects (update_row (λ o,
    MkObject (o_ID o) (o_Owner o) (o_Name o) size (o_FolderID o) (o_ContentType o)
             (o_Created o) t) i (objects d)) d)).

Definition GetObject (i : string) : M KW (option Object) := query (λ d, objects d !! i).

Definition ByIDs (ids : list string) : M KW (list Object) :=
  if bool_decide (ids = []) then mret []
  else query (λ d, merge_sort (by_Z o_Created) (select (λ o, o_ID o ∈ ids) (objects d))).

Definition ByOwner (s : Subject) : M KW (list Object) :=
  query (λ d, merge_sort (by_Z o_Created) (select (λ o, o_Owner o = s) (objects d))).

(** The versions an object has. *)
Definition versions_of (i : string) (d : KDB) : list Version :=
  vr_version <$> select (λ r, vr_object r = i) (versions d).
Definition version_ids_of (i : string) (d : KDB) : list string := v_ID <$> versions_of i d.

(** DELETE FROM objects, with its cascades to versions and version_chunks. *)
Definition delete_object (i : string) (d : KDB) : KDB :=
  let gone := version_ids_of i d in
  MkKDB (delete i (objects d)) (folders d)
        (filter (λ kv, vr_object kv.2 ≠ i) (versions d))
        (chunks_tbl d)
        (filter (λ r, m_version r ∉ gone) (version_chunks d))
        (wopi_sessions d) (k_conv d).

Definition DeleteObject (i : string) : M KW unit := stmt (λ d, Ok (tt, delete_object i d)).

(** ** Versions and manifests *)
Definition insert_version_row (objectID versionID : string) (ordinal size : Z) : M KW unit :=
  stmt_now (λ t d,
    if (int4_max <? ordinal)%Z then Err out_of_range
    else if bool_decide (is_Some (versions d !! versionID))
         || bool_decide (ordinal ∈ v_Ordinal <$> versions_of objectID d) then Err ErrUnique
    else if negb (bool_decide (is_Some (objects d !! objectID))) then Err ErrForeignKey
    else Ok (tt, with_versions (<[versionID := VRow objectID (MkVersion versionID ordinal size t)]>
                                  (versions d)) d)).

Definition upsert_chunk (h : string) (size : Z) : M KW unit :=
  stmt (λ d,
    match chunks_tbl d !! h with
    | None => Ok (tt, with_chunks (<[h := CRow size 1]> (chunks_tbl d)) d)
    | Some c =>
        if (int4_max <=? c_refs c)%Z then Err out_of_range
        else Ok (tt, with_chunks (<[h := CRow (c_size c) (c_refs c + 1)]> (chunks_tbl d)) d)
    end).

Definition insert_manifest_row (versionID : string) (idx : nat) (h : string) : M KW unit :=
  stmt (λ d,
    if bool_decide ((versionID, idx) ∈ (λ r, (m_version r, m_idx r)) <$> version_chunks d)
    then Err ErrUnique
    else if negb (bool_decide (is_Some (versions d !! versionID)))
         || negb (bool_decide (is_Some (chunks_tbl d !! h))) then Err ErrForeignKey
    else Ok (tt, with_manifest (version_chunks d ++ [MRow versionID idx h]) d)).

(** A unique violation on the version row is the domain's version conflict. *)
Definition conflict_on_unique (r : res unit) : res unit :=
  match r with
  | Err e => if bool_decide (e = ErrUnique) then Err ErrVersionConflict else Err e
  | Ok _ => Ok tt
  end.

Fixpoint insert_manifest (versionID : string) (idx : nat) (refs : list ChunkRef) : M KW unit :=
  match refs with
  | [] => mret tt
  | ref :: refs' =>
      upsert_chunk (cr_Hash ref) (cr_Size ref) ;;
      insert_manifest_row versionID idx (cr_Hash ref) ;;
      insert_manifest versionID (S idx) refs'
  end.

Definition InsertVersion (objectID versionID : string) (ordinal size : Z) (refs : list ChunkRef)
    : M KW unit :=
  r ← attempt (insert_version_row objectID versionID ordinal size);
  lift (conflict_on_unique r) ;;
  insert_manifest versionID 0 refs.

(** ORDER BY ordinal DESC *)
Definition newest_first (l : list Version) : list Version :=
  reverse (merge_sort (by_Z v_Ordinal) l).

Definition latest_version (i : string) (d : KDB) : option Version :=
  head (newest_first (versions_of i d)).

Definition by_idx (x y : manifest_row) : Prop := m_idx x ≤ m_idx y.
#[global] Instance by_idx_dec : RelDecision by_idx.
Proof. intros x y. unfold by_idx. apply _. Defined.

Definition manifest_rows (versionID : string) (d : KDB) : list manifest_row :=
  merge_sort by_idx (filter (λ r, m_version r = versionID) (version_chunks d)).

(** The join with chunks. *)
Definition manifest_refs (versionID : string) (d : KDB) : list ChunkRef :=
  omap (λ r, (λ c, MkChunkRef (m_hash r) (c_size c)) <$> chunks_tbl d !! m_hash r)
       (manifest_rows versionID d).

Definition manifest_of (i : string) (d : KDB) : list ChunkRef :=
  match latest_version i d with
  | Some v => manifest_refs (v_ID v) d
  | None => []
  end.

Definition ManifestOf (i : string) : M KW (list ChunkRef) := query (manifest_of i).

(** MAX(ordinal), NULL over no rows. *)
Definition max_ordinal (i : string) (d : KDB) : option Z :=
  match v_Ordinal <$> versions_of i d with
  | [] => None
  | o :: os => Some (foldr Z.max o os)
  end.

Definition MaxOrdinal (i : string) : M KW (option Z) := query (max_ordinal i).

Definition ListVersions (i : string) : M KW (list Version) :=
  query (λ d, newest_first (versions_of i d)).

(** ** Chunk accounting *)
Definition chunk_hashes_of (i : string) (d : KDB) : list string :=
  m_hash <$> filter (λ r, m_version r ∈ version_ids_of i d) (version_chunks d).

Definition ChunkHashesOf (i : string) : M KW (list string) := query (chunk_hashes_of i).

Fixpoint count_hashes (hs : list string) : gmap string Z :=
  match hs with
  | [] => ∅
  | h :: hs' => partial_alter (λ n, Some (default 0 n + 1)%Z) h (count_hashes hs')
  end.

Definition dec_ref_row (h : string) (n : Z) : M KW unit :=
  stmt (λ d, Ok (tt, with_chunks
    (update_row (λ c, CRow (c_size c) (c_refs c - n)) h (chunks_tbl d)) d)).

(** WHERE ref_count <= 0 *)
Definition orphaned (h : string) (d : KDB) : bool :=
  match chunks_tbl d !! h with Some c => (c_refs c <=? 0)%Z | None => false end.

Definition DecRef (hashes : list string) : M KW (list string) :=
  if bool_decide (hashes = []) then mret []
  else
    let counts := map_to_list (count_hashes hashes) in
    for_each counts (λ '(h, n), dec_ref_row h n) ;;
    query (λ d, filter (λ h, orphaned h d = true) counts.*1).

Definition DeleteChunks (hashes : list string) : M KW unit :=
  if bool_decide (hashes = []) then mret tt
  else stmt (λ d,
    if bool_decide (Exists (λ r, m_hash r ∈ hashes) (version_chunks d)) then Err ErrForeignKey
    else Ok (tt, with_chunks (filter (λ kv, kv.1 ∉ hashes) (chunks_tbl d)) d)).

(** ** Folders *)
Definition InsertFolder (f : Folder) : M KW unit :=
  stmt (λ d,
    if bool_decide (is_Some (folders d !! f_ID f)) then Err ErrUnique
    else if negb (fk_ok (f_ParentID f) (<[f_ID f := f]> (folders d))) then Err ErrForeignKey
    else Ok (tt, with_folders (<[f_ID f := f]> (folders d)) d)).

Definition GetFolderRow (i : string) : M KW (option Folder) := query (λ d, folders d !! i).

Definition FoldersInParent (owner : Subject) (parent : option string) : M KW (list Folder) :=
  query (λ d, merge_sort (by_name f_Name)
    (select (λ f, f_Owner f = owner ∧ f_ParentID f = parent) (folders d))).

Definition ObjectsInFolder (owner : Subject) (folder : option string) : M KW (list Object) :=
  query (λ d, merge_sort (by_name o_Name)
    (select (λ o, o_Owner o = owner ∧ o_FolderID o = folder) (objects d))).

Definition has_children (i : string) (d : KDB) : Prop :=
  Exists (λ f, f_ParentID f = Some i) (rows (folders d)) ∨
  Exists (λ o, o_FolderID o = Some i) (rows (objects d)).
#[global] Instance has_children_dec i d : Decision (has_children i d).
Proof. unfold has_children. apply _. Defined.

Definition FolderHasChildren (i : string) : M KW bool := query (λ d, bool_decide (has_children i d)).

Definition SetFolderParent (i : string) (parent : option string) : M KW unit :=
  stmt_now (λ t d,
    if bool_decide (is_Some (folders d !! i)) && negb (fk_ok parent (folders d))
    then Err ErrForeignKey
    else Ok (tt, with_folders (update_row (λ f,
           MkFolder (f_ID f) (f_Owner f) parent (f_Name f) (f_Created f) t) i (folders d)) d)).

Definition SetFolderName (i name : string) : M KW unit :=
  stmt_now (λ t d, Ok (tt, with_folders (update_row (λ f,
    MkFolder (f_ID f) (f_Owner f) (f_ParentID f) name (f_Created f) t) i (folders d)) d)).

(** ON DELETE RESTRICT on folders.parent_id and objects.folder_id. *)
Definition delete_folder_stmt (i : string) : M KW unit :=
  stmt (λ d,
    if bool_decide (is_Some (folders d !! i)) && bool_decide (has_children i d) then Err ErrForeignKey
    else Ok (tt, with_folders (delete i (folders d)) d)).

Definition DeleteFolderRow (i : string) : M KW unit :=
  r ← attempt (delete_folder_stmt i);
  match r with
  | Ok _ => mret tt
  | Err e => if bool_decide (e = ErrForeignKey) then throw ErrNotEmpty else throw e
  end.

Definition FoldersByOwner (s : Subject) : M KW (list Folder) :=
  query (λ d, merge_sort (by_Z f_Created) (select (λ f, f_Owner f = s) (folders d))).

(** ** WOPI sessions *)
Definition WopiPut (tokenHash : string) (s : Session) : M KW unit :=
  stmt (λ d, match wopi_sessions d !! tokenHash with
             | Some _ => Ok (tt, d)
             | None => Ok (tt, with_sessions (<[tokenHash := s]> (wopi_sessions d)) d)
             end).
Definition WopiGet (tokenHash : string) : M KW (option Session) :=
  query (λ d, wopi_sessions d !! tokenHash).
Definition WopiDeleteExpired (before : Z) : M KW unit :=
  stmt (λ d, Ok (tt, with_sessions (filter (λ kv, ¬ (ws_Expires kv.2 < before)%Z) (wopi_sessions d)) d)).
Definition WopiDeleteByObject (i : string) : M KW unit :=
  stmt (λ d, Ok (tt, with_sessions (filter (λ kv, ws_ObjectID kv.2 ≠ i) (wopi_sessions d)) d)).
