(* ===== verification/RepoInv.v ===== *)
(** * RepoInv: the storage invariant of Kamara's database

    What the schema and the domain maintain together: keys, foreign keys,
    unique ordinals, and chunk accounting (the reference count of a chunk is never
    below the number of manifest rows that name it; it is that number, and
    positive, unless an erasure that failed half way has left the chunk behind).
    Each statement or statement sequence of Repo.v gets its effect as an equation
    on the database, and the invariant is shown to survive it. *)

From S2P Require Import Prelude GoText Ids World Pii Pseudonym Conventions Chunker Engine Repo.
Import Pii.

(** How many manifest rows name a chunk. *)
Definition refs_to (h : string) (d : KDB) : nat :=
  length (filter (λ r, m_hash r = h) (version_chunks d)).

(** The chunks whose count may exceed their references.  The invariant and every
    lemma about it hold for any such set. *)
Class Leaks := leaked : string → Prop.

Section inv.
Context {Lk : Leaks}.

(** The invariant, relative to the blobs that are stored. *)
Record db_inv (B : gmap string bytes) (d : KDB) : Prop := {
  inv_okey : ∀ i o, objects d !! i = Some o → o_ID o = i;
  inv_fkey : ∀ i f, folders d !! i = Some f → f_ID f = i;
  inv_vkey : ∀ i r, versions d !! i = Some r → v_ID (vr_version r) = i;
  inv_ofolder : ∀ i o f, objects d !! i = Some o → o_FolderID o = Some f → is_Some (folders d !! f);
  inv_fparent : ∀ i f p, folders d !! i = Some f → f_ParentID f = Some p → is_Some (folders d !! p);
  inv_vobject : ∀ i r, versions d !! i = Some r → is_Some (objects d !! vr_object r);
  inv_ordinal : ∀ i j r q, versions d !! i = Some r → versions d !! j = Some q →
    vr_object r = vr_object q → v_Ordinal (vr_version r) = v_Ordinal (vr_version q) → i = j;
  inv_mversion : ∀ r, r ∈ version_chunks d → is_Some (versions d !! m_version r);
  inv_mchunk : ∀ r, r ∈ version_chunks d → is_Some (chunks_tbl d !! m_hash r);
  inv_mkey : NoDup ((λ r, (m_version r, m_idx r)) <$> version_chunks d);
  inv_refs : ∀ h c, chunks_tbl d !! h = Some c →
    (Z.of_nat (refs_to h d) <= c_refs c)%Z ∧
    (¬ leaked h → c_refs c = Z.of_nat (refs_to h d) ∧ 0 < refs_to h d);
  inv_blobs : ∀ r, r ∈ version_chunks d → is_Some (B !! m_hash r);
  inv_token : one_token (subject_pseudonyms (k_conv d));
}.

(** ** Reading tables *)
Lemma elem_of_rows {A} (tbl : gmap string A) x : x ∈ rows tbl ↔ ∃ i, tbl !! i = Some x.
Proof.
  unfold rows. rewrite list_elem_of_fmap. split.
  - intros ([i y]&->&H). exists i. by apply elem_of_map_to_list.
  - intros [i H]. exists (i, x). split; [done|]. by apply elem_of_map_to_list.
Qed.

Lemma elem_of_select {A} (p : A → Prop) `{!∀ x, Decision (p x)} (tbl : gmap string A) x :
  x ∈ select p tbl ↔ p x ∧ ∃ i, tbl !! i = Some x.
Proof. unfold select. by rewrite list_elem_of_filter, elem_of_rows. Qed.

Lemma elem_of_versions_of i d v :
  v ∈ versions_of i d ↔ ∃ k, versions d !! k = Some (VRow i v).
Proof.
  unfold versions_of. rewrite list_elem_of_fmap. split.
  - intros ([o w]&->&[<- [k Hk]]%elem_of_select). by exists k.
  - intros [k Hk]. exists (VRow i v). split; [done|]. apply elem_of_select. eauto.
Qed.

Lemma elem_of_version_ids B i d k :
  db_inv B d → k ∈ version_ids_of i d ↔ ∃ v, versions d !! k = Some (VRow i v).
Proof.
  intros HI. unfold version_ids_of. rewrite list_elem_of_fmap. split.
  - intros (v&->&[k' Hk]%elem_of_versions_of). exists v.
    pose proof (inv_vkey _ _ HI k' _ Hk) as E. cbn in E. by rewrite E.
  - intros [v Hk]. exists v. split; [symmetry; apply (inv_vkey _ _ HI k _ Hk)|].
    apply elem_of_versions_of. eauto.
Qed.

(** ** Adding a file *)
Definition add_object (o : Object) (d : KDB) : KDB := with_objects (<[o_ID o := o]> (objects d)) d.

Lemma tx_InsertObject o d0 :
  txspec (λ d, d = d0) (InsertObject o)
    (λ _ d, d = add_object o d0 ∧ objects d0 !! o_ID o = None ∧ fk_ok (o_FolderID o) (folders d0) = true).
Proof.
  apply txspec_stmt. intros d a d' ->. case_bool_decide as H; [done|].
  destruct (fk_ok _ _) eqn:Ef; [|done]. intros [= <- <-]. split_and!; [done| |done].
  by apply eq_None_not_Some.
Qed.

Lemma fk_ok_true {A} ref (tbl : gmap string A) i :
  fk_ok ref tbl = true → ref = Some i → is_Some (tbl !! i).
Proof. intros H ->. by apply bool_decide_eq_true in H. Qed.

Lemma inv_add_object B o d :
  db_inv B d → objects d !! o_ID o = None → fk_ok (o_FolderID o) (folders d) = true →
  db_inv B (add_object o d).
Proof.
  intros HI Hn Hf. destruct HI. split; cbn; try done.
  - intros i o' [[<- <-]|[_ H]]%lookup_insert_Some; auto.
  - intros i o' f [[<- <-]|[_ H]]%lookup_insert_Some; [by apply fk_ok_true|eauto].
  - intros i r H. rewrite lookup_insert_is_Some. destruct (decide (o_ID o = vr_object r)); eauto.
Qed.

(** ** Adding a version with its manifest *)
Definition add_version (oid vid : string) (ordinal size t : Z) (d : KDB) : KDB :=
  with_versions (<[vid := VRow oid (MkVersion vid ordinal size t)]> (versions d)) d.

Lemma tx_insert_version_row oid vid ordinal size d0 :
  txspec (λ d, d = d0) (insert_version_row oid vid ordinal size)
    (λ _ d, ∃ t, d = add_version oid vid ordinal size t d0 ∧ versions d0 !! vid = None ∧
       ordinal ∉ v_Ordinal <$> versions_of oid d0 ∧ is_Some (objects d0 !! oid)).
Proof.
  unfold insert_version_row, stmt_now. eapply txspec_bind.
  { apply (txspec_keeps (λ d, d = d0)). intros rest. apply keeps_gets. }
  intros t. apply txspec_stmt. intros d a d' ->. destruct (_ <? _)%Z; [done|].
  case_bool_decide as H1; [done|]. case_bool_decide as H2; [done|].
  case_bool_decide as H3; [|done]. intros [= <- <-]. exists t. split_and!; try done.
  by apply eq_None_not_Some.
Qed.

Lemma inv_add_version B oid vid ordinal size t d :
  db_inv B d → versions d !! vid = None → ordinal ∉ v_Ordinal <$> versions_of oid d →
  is_Some (objects d !! oid) → db_inv B (add_version oid vid ordinal size t d).
Proof.
  intros HI Hv Ho Hobj. pose proof HI as HI'. destruct HI. split; cbn; try done.
  - intros i r [[<- <-]|[_ H]]%lookup_insert_Some; auto.
  - intros i r [[<- <-]|[_ H]]%lookup_insert_Some; eauto.
  - assert (∀ j q, versions d !! j = Some q → vr_object q = oid →
      v_Ordinal (vr_version q) = ordinal → False) as Hx.
    { intros j [o v] H <- <-. apply Ho, list_elem_of_fmap. exists v. split; [done|].
      apply elem_of_versions_of. by exists j. }
    intros i j r q [[<- <-]|[_ H]]%lookup_insert_Some [[<- <-]|[_ H']]%lookup_insert_Some He Hor;
      cbn in *; [done| | |eauto]; exfalso; eauto.
  - intros r Hr. rewrite lookup_insert_is_Some. destruct (decide (vid = m_version r)); eauto.
Qed.

(** One manifest entry: the chunk's count goes up with the row. *)
Definition bump (size : Z) (c : option chunk_row) : chunk_row :=
  match c with None => CRow size 1 | Some c => CRow (c_size c) (c_refs c + 1) end.

Definition add_ref (vid : string) (idx : nat) (ref : ChunkRef) (d : KDB) : KDB :=
  with_manifest (version_chunks d ++ [MRow vid idx (cr_Hash ref)])
    (with_chunks (<[cr_Hash ref := bump (cr_Size ref) (chunks_tbl d !! cr_Hash ref)]> (chunks_tbl d)) d).

Fixpoint add_refs (vid : string) (idx : nat) (refs : list ChunkRef) (d : KDB) : KDB :=
  match refs with
  | [] => d
  | ref :: refs' => add_refs vid (S idx) refs' (add_ref vid idx ref d)
  end.

Lemma tx_upsert_chunk h size d0 :
  txspec (λ d, d = d0) (upsert_chunk h size)
    (λ _ d, d = with_chunks (<[h := bump size (chunks_tbl d0 !! h)]> (chunks_tbl d0)) d0).
Proof.
  apply txspec_stmt. intros d a d' ->. destruct (chunks_tbl d0 !! h) as [c|]; cbn.
  - destruct (_ <=? _)%Z; [done|]. by intros [= <- <-].
  - by intros [= <- <-].
Qed.

Lemma tx_insert_manifest_row vid idx h d0 :
  txspec (λ d, d = d0) (insert_manifest_row vid idx h)
    (λ _ d, d = with_manifest (version_chunks d0 ++ [MRow vid idx h]) d0 ∧
       (vid, idx) ∉ (λ r, (m_version r, m_idx r)) <$> version_chunks d0 ∧
       is_Some (versions d0 !! vid)).
Proof.
  apply txspec_stmt. intros d a d' ->. case_bool_decide as H1; [done|].
  case_bool_decide as H2; [|done]. case_bool_decide as H3; [|done]. by intros [= <- <-].
Qed.

Lemma refs_to_add_ref vid idx ref d h :
  refs_to h (add_ref vid idx ref d) =
  if decide (h = cr_Hash ref) then S (refs_to h d) else refs_to h d.
Proof.
  unfold refs_to. cbn. rewrite filter_app, length_app.
  destruct (decide (h = cr_Hash ref)) as [->|Hn].
  - rewrite filter_cons_True by done. cbn. lia.
  - rewrite filter_cons_False by (cbn; congruence). cbn. lia.
Qed.

Lemma inv_add_ref B vid idx ref d :
  db_inv B d → (vid, idx) ∉ (λ r, (m_version r, m_idx r)) <$> version_chunks d →
  is_Some (versions d !! vid) → is_Some (B !! cr_Hash ref) → db_inv B (add_ref vid idx ref d).
Proof.
  intros HI Hk Hv Hb. pose proof HI as HI'. destruct HI. split; cbn; try done.
  - intros r [Hr| ->%list_elem_of_singleton]%elem_of_app; eauto.
  - intros r Hr. rewrite lookup_insert_is_Some. destruct (decide (cr_Hash ref = m_hash r)); [by left|].
    right. split; [done|]. apply elem_of_app in Hr as [Hr| ->%list_elem_of_singleton]; eauto; done.
  - rewrite fmap_app. apply NoDup_app. split; [done|]. split; [|cbn; apply NoDup_singleton].
    intros x Hx ->%list_elem_of_singleton. done.
  - intros h c H.
    change ((Z.of_nat (refs_to h (add_ref vid idx ref d)) <= c_refs c)%Z ∧
      (¬ leaked h → c_refs c = Z.of_nat (refs_to h (add_ref vid idx ref d)) ∧
                    0 < refs_to h (add_ref vid idx ref d))).
    rewrite refs_to_add_ref. destruct (decide (h = cr_Hash ref)) as [->|Hn].
    + rewrite lookup_insert_eq in H. injection H as <-. unfold bump.
      destruct (chunks_tbl d !! cr_Hash ref) as [c|] eqn:E; cbn.
      * destruct (inv_refs0 _ _ E) as [Hle Heq]. split; [lia|]. intros Hl. destruct (Heq Hl). lia.
      * assert (refs_to (cr_Hash ref) d = 0) as ->; [|lia].
        unfold refs_to. destruct (filter _ _) as [|r l] eqn:Ef; [done|].
        assert (r ∈ filter (λ r, m_hash r = cr_Hash ref) (version_chunks d)) as Hr
          by (rewrite Ef; left).
        apply list_elem_of_filter in Hr as [Hh Hr]. destruct (inv_mchunk0 r Hr) as [c Hc].
        congruence.
    + rewrite lookup_insert_ne in H by done. auto.
  - intros r [Hr| ->%list_elem_of_singleton]%elem_of_app; eauto.
Qed.

Lemma tx_insert_manifest B vid idx refs d0 :
  (∀ ref, ref ∈ refs → is_Some (B !! cr_Hash ref)) →
  txspec (λ d, d = d0 ∧ db_inv B d0) (insert_manifest vid idx refs)
    (λ _ d, d = add_refs vid idx refs d0 ∧ db_inv B d).
Proof.
  revert idx d0. induction refs as [|ref refs IH]; intros idx d0 HB; cbn [insert_manifest add_refs].
  { intros w [Hd H]. split; [done|]. intros a _. cbn. by rewrite Hd. }
  apply (txspec_pure _ (db_inv B d0)); [by intros d [_ ?]|intros HI].
  eapply txspec_bind.
  { eapply txspec_weaken; [apply tx_upsert_chunk|by intros d [-> _]|]. exact (λ _ _ H, H). }
  intros []. eapply txspec_bind.
  { eapply txspec_weaken; [apply tx_insert_manifest_row|by intros d ->|]. exact (λ _ _ H, H). }
  intros []. eapply txspec_weaken; [apply (IH (S idx) (add_ref vid idx ref d0))| |done].
  - intros r Hr. apply HB. by right.
  - intros d (->&H1&H2). split; [done|]. apply inv_add_ref; auto. apply HB. left.
Qed.

Lemma tx_InsertVersion B oid vid ordinal size refs d0 :
  (∀ ref, ref ∈ refs → is_Some (B !! cr_Hash ref)) →
  txspec (λ d, d = d0 ∧ db_inv B d0) (InsertVersion oid vid ordinal size refs)
    (λ _ d, db_inv B d ∧ ordinal ∉ v_Ordinal <$> versions_of oid d0 ∧ versions d0 !! vid = None ∧
            ∃ t, d = add_refs vid 0 refs (add_version oid vid ordinal size t d0)).
Proof.
  intros HB. apply (txspec_pure _ (db_inv B d0)); [by intros d [_ ?]|intros HI].
  eapply txspec_bind.
  { eapply txspec_weaken; [apply txspec_attempt, tx_insert_version_row|by intros d [-> _]|].
    exact (λ _ _ H, H). }
  intros r. eapply txspec_bind.
  { eapply txspec_weaken; [apply txspec_lift|exact (λ _ H, H)|]. exact (λ _ _ H, H). }
  intros u w [Hr Hw].
  assert (r = Ok tt) as -> by (destruct r as [[]|e]; cbn in Hr; [done|by destruct (bool_decide _)]).
  destruct (Hw tt eq_refl) as (t&Hd&H1&H2&H3).
  assert (db_inv B (add_version oid vid ordinal size t d0)) as HI' by (by apply inv_add_version).
  destruct (tx_insert_manifest B vid 0 refs _ HB w (conj Hd HI')) as [E1 E2].
  split; [done|]. intros a Ha. destruct (E2 a Ha) as [-> ?]. eauto 10.
Qed.

(** ** Deleting a file and accounting for its chunks *)
Definition occ (h : string) (hs : list string) : nat := length (filter (λ x, x = h) hs).

Lemma occ_cons h x hs : occ h (x :: hs) = if decide (x = h) then S (occ h hs) else occ h hs.
Proof. unfold occ. rewrite filter_cons. by destruct (decide (x = h)). Qed.

Lemma count_hashes_lookup hs h :
  count_hashes hs !! h = if decide (occ h hs = 0) then None else Some (Z.of_nat (occ h hs)).
Proof.
  induction hs as [|x hs IH]; [by cbn; rewrite lookup_empty|]. rewrite occ_cons. cbn [count_hashes].
  destruct (decide (x = h)) as [->|Hn]; [|by rewrite lookup_partial_alter_ne].
  rewrite lookup_partial_alter_eq, IH.
  destruct (decide (occ h hs = 0)) as [E|E], (decide (S _ = 0)) as [|];
    try lia; cbn [default from_option]; unfold id; f_equal; lia.
Qed.

Definition dec_all (counts : list (string * Z)) (tbl : gmap string chunk_row) : gmap string chunk_row :=
  foldl (λ t '(h, n), update_row (λ c, CRow (c_size c) (c_refs c - n)) h t) tbl counts.

Lemma dec_all_lookup counts tbl h :
  NoDup counts.*1 →
  dec_all counts tbl !! h =
    (λ c, CRow (c_size c) (c_refs c - default 0%Z ((list_to_map counts : gmap string Z) !! h)))
    <$> tbl !! h.
Proof.
  unfold dec_all. revert tbl. induction counts as [|[k n] counts IH]; intros tbl Hnd; cbn.
  { rewrite lookup_empty. cbn. destruct (tbl !! h) as [[]|]; cbn; [|done]. do 2 f_equal. lia. }
  cbn in Hnd. apply NoDup_cons in Hnd as [Hk Hnd]. rewrite IH by done. unfold update_row.
  destruct (decide (k = h)) as [->|Hn].
  - rewrite lookup_alter_eq, lookup_insert_eq. rewrite (not_elem_of_list_to_map_1 _ _ Hk).
    destruct (tbl !! h); cbn; [|done]. do 2 f_equal. lia.
  - by rewrite lookup_alter_ne, lookup_insert_ne.
Qed.

Definition counts_of (i : string) (d : KDB) : list (string * Z) :=
  map_to_list (count_hashes (chunk_hashes_of i d)).

(** The database after the deletion and the decrements. *)
Definition released (i : string) (d : KDB) : KDB :=
  with_chunks (dec_all (counts_of i d) (chunks_tbl d)) (delete_object i d).

Definition reclaim_orphans (i : string) (d : KDB) : list string :=
  filter (λ h, orphaned h (released i d) = true) (counts_of i d).*1.

Definition reclaim_db (i : string) (d : KDB) : KDB :=
  with_chunks (filter (λ kv, kv.1 ∉ reclaim_orphans i d) (chunks_tbl (released i d))) (released i d).

Lemma released_lookup i d h :
  chunks_tbl (released i d) !! h =
    (λ c, CRow (c_size c) (c_refs c - Z.of_nat (occ h (chunk_hashes_of i d)))) <$> chunks_tbl d !! h.
Proof.
  cbn. unfold counts_of. rewrite dec_all_lookup by apply NoDup_fst_map_to_list.
  rewrite list_to_map_to_list, count_hashes_lookup.
  destruct (decide (occ _ _ = 0)) as [->|]; done.
Qed.

Lemma length_filter_split {A} (p q : A → Prop) `{!∀ x, Decision (p x), !∀ x, Decision (q x)} l :
  length (filter p l) = length (filter p (filter (λ x, ¬ q x) l)) + length (filter p (filter q l)).
Proof.
  induction l as [|x l IH]; [done|]. rewrite (filter_cons q), (filter_cons (λ x, ¬ q x)).
  rewrite (filter_cons p). destruct (decide (q x)), (decide (¬ q x)); try done;
    rewrite ?filter_cons; destruct (decide (p x)); cbn [length]; lia.
Qed.

Lemma length_filter_fmap {A B} (f : A → B) (p : B → Prop) `{!∀ x, Decision (p x)} l :
  length (filter p (f <$> l)) = length (filter (λ x, p (f x)) l).
Proof.
  induction l as [|x l IH]; [done|]. rewrite fmap_cons, !filter_cons.
  destruct (decide (p (f x))); cbn [length]; by rewrite IH.
Qed.

Lemma list_filter_all {A} (p : A → Prop) `{!∀ x, Decision (p x)} (l : list A) :
  (∀ x, x ∈ l → p x) → filter p l = l.
Proof.
  induction l as [|x l IH]; [done|]. intros Hp. rewrite filter_cons_True by (apply Hp; left).
  f_equal. apply IH. intros y Hy. apply Hp. by right.
Qed.

Lemma NoDup_fmap_filter {A B} (f : A → B) (p : A → Prop) `{!∀ x, Decision (p x)} l :
  NoDup (f <$> l) → NoDup (f <$> filter p l).
Proof.
  induction l as [|x l IH]; [done|]. rewrite fmap_cons, filter_cons.
  intros [Hx Hl]%NoDup_cons. destruct (decide (p x)); [|auto].
  rewrite fmap_cons. apply NoDup_cons. split; [|auto].
  rewrite list_elem_of_fmap. intros (y&Hy&[_ Hin]%list_elem_of_filter). apply Hx.
  apply list_elem_of_fmap. eauto.
Qed.

Lemma refs_to_delete i d h :
  refs_to h d = refs_to h (delete_object i d) + occ h (chunk_hashes_of i d).
Proof.
  unfold refs_to, occ, chunk_hashes_of. cbn.
  rewrite length_filter_fmap, (length_filter_split _ (λ r, m_version r ∈ version_ids_of i d)). done.
Qed.

Lemma refs_to_pos h d : 0 < refs_to h d ↔ ∃ r, r ∈ version_chunks d ∧ m_hash r = h.
Proof.
  unfold refs_to. split.
  - destruct (filter _ _) as [|r l] eqn:E; cbn; [lia|]. intros _. exists r.
    assert (r ∈ filter (λ r, m_hash r = h) (version_chunks d)) as [??]%list_elem_of_filter
      by (rewrite E; left). done.
  - intros (r&Hr&Hh). destruct (filter _ _) as [|r' l] eqn:E; cbn; [|lia].
    assert (r ∈ filter (λ r, m_hash r = h) (version_chunks d)) as Hin by (by apply list_elem_of_filter).
    rewrite E in Hin. by apply not_elem_of_nil in Hin.
Qed.

(** An orphan is a chunk no manifest row names any more. *)
Lemma orphans_unreferenced B i d h :
  db_inv B d → h ∈ reclaim_orphans i d → refs_to h (reclaim_db i d) = 0.
Proof.
  intros HI [Ho _]%list_elem_of_filter. unfold orphaned in Ho. rewrite released_lookup in Ho.
  destruct (chunks_tbl d !! h) as [c|] eqn:E; [|done]. cbn in Ho.
  destruct (inv_refs _ _ HI h c E) as [Hc _]. pose proof (refs_to_delete i d h).
  change (refs_to h (reclaim_db i d)) with (refs_to h (delete_object i d)). lia.
Qed.

Lemma delete_object_versions i d k r :
  versions (delete_object i d) !! k = Some r ↔ versions d !! k = Some r ∧ vr_object r ≠ i.
Proof. cbn. by rewrite map_lookup_filter_Some. Qed.

Lemma inv_reclaim B i d : db_inv B d → db_inv B (reclaim_db i d).
Proof.
  intros HI. pose proof HI as HI'. destruct HI.
  assert (∀ r, r ∈ version_chunks (delete_object i d) →
    r ∈ version_chunks d ∧ m_version r ∉ version_ids_of i d) as Hm
    by (intros r [??]%list_elem_of_filter; done).
  split; cbn; try done.
  - intros j o [_ H]%lookup_delete_Some. eauto.
  - intros j r [H _]%map_lookup_filter_Some. eauto.
  - intros j o f [_ H]%lookup_delete_Some. eauto.
  - intros j r [H Hr]%map_lookup_filter_Some. cbn in Hr.
    rewrite lookup_delete_ne by done. eauto.
  - intros j k r q [Hr _]%map_lookup_filter_Some [Hq _]%map_lookup_filter_Some. eauto.
  - intros r [Hr Hn]%Hm. destruct (inv_mversion0 r Hr) as [v Hv]. exists v.
    apply map_lookup_filter_Some. split; [done|]. cbn. intros <-. apply Hn.
    apply (elem_of_version_ids B); [done|]. destruct v as [o v]. by exists v.
  - intros r Hr. pose proof (Hm r Hr) as [Hr' Hn]. destruct (inv_mchunk0 r Hr') as [c Hc].
    exists (CRow (c_size c) (c_refs c - Z.of_nat (occ (m_hash r) (chunk_hashes_of i d)))).
    apply map_lookup_filter_Some. split.
    + pose proof (released_lookup i d (m_hash r)) as E. rewrite Hc in E. exact E.
    + cbn. intros Ho. apply (orphans_unreferenced B) in Ho; [|done].
      assert (0 < refs_to (m_hash r) (reclaim_db i d)); [|lia]. apply refs_to_pos. by exists r.
  - by apply NoDup_fmap_filter.
  - intros h c [H Hno]%map_lookup_filter_Some. cbn in Hno.
    change (chunks_tbl (released i d) !! h = Some c) in H. rewrite released_lookup in H.
    destruct (chunks_tbl d !! h) as [c0|] eqn:E; [|done]. cbn in H. injection H as <-.
    destruct (inv_refs0 h c0 E) as [Hle Hex]. pose proof (refs_to_delete i d h) as Hs.
    repeat change (length (filter _ _)) with (refs_to h (delete_object i d)). cbn [c_refs].
    split; [lia|]. intros Hl. destruct (Hex Hl) as [Hc Hp]. split; [lia|].
    destruct (decide (refs_to h (delete_object i d) = 0)) as [Hz|]; [|lia]. exfalso. apply Hno.
    apply list_elem_of_filter. split.
    + unfold orphaned. rewrite released_lookup, E. cbn. apply Z.leb_le. lia.
    + unfold counts_of. apply list_elem_of_fmap.
      exists (h, Z.of_nat (occ h (chunk_hashes_of i d))). split; [done|].
      apply elem_of_map_to_list. rewrite count_hashes_lookup, decide_False by lia. done.
  - intros r [Hr _]%Hm. auto.
Qed.

Lemma tx_DecRef hashes d0 :
  txspec (λ d, d = d0) (DecRef hashes)
    (λ orphans d, let counts := map_to_list (count_hashes hashes) in
       d = with_chunks (dec_all counts (chunks_tbl d0)) d0 ∧
       orphans = filter (λ h, orphaned h d = true) counts.*1).
Proof.
  unfold DecRef. case_bool_decide as He.
  { subst. cbn. rewrite map_to_list_empty. intros w Hw. split; [done|]. intros a [= <-].
    cbn. rewrite Hw. split; [by destruct d0|done]. }
  set (counts := map_to_list _). eapply txspec_bind.
  - apply (txspec_weaken (λ d, d = with_chunks (dec_all [] (chunks_tbl d0)) d0) _ _
      (λ _ d, d = with_chunks (dec_all counts (chunks_tbl d0)) d0)).
    + apply (txspec_for_each counts _ (λ l d, d = with_chunks (dec_all l (chunks_tbl d0)) d0)).
      intros dn [h n] rest _. apply txspec_stmt. intros d a d' -> [= <- <-].
      unfold dec_all. by rewrite foldl_app.
    + intros d ->. by destruct d0.
    + exact (λ _ _ H, H).
  - intros []. eapply txspec_weaken; [apply txspec_query|exact (λ _ H, H)|].
    intros a d [-> Hd]. by split.
Qed.

Lemma tx_DeleteChunks hashes d0 :
  txspec (λ d, d = d0) (DeleteChunks hashes)
    (λ _ d, d = with_chunks (filter (λ kv, kv.1 ∉ hashes) (chunks_tbl d0)) d0).
Proof.
  unfold DeleteChunks. case_bool_decide as He.
  - intros w Hw. split; [done|]. intros a _. cbn. rewrite Hw, map_filter_id; [by destruct d0|].
    intros. subst. set_solver.
  - apply txspec_stmt. intros d a d' ->. case_bool_decide; [done|]. by intros [= <- <-].
Qed.

(** ** Statements that keep the files' versions and manifests *)
Lemma inv_with_conv B d c :
  db_inv B d → one_token (subject_pseudonyms c) → db_inv B (with_conv c d).
Proof. intros [] Hc. by split. Qed.

Lemma inv_sessions B d x : db_inv B d → db_inv B (with_sessions x d).
Proof. intros []. by split. Qed.

(** Any change of an existing file's row that keeps its id and has a valid folder. *)
Lemma inv_update_object B d i f :
  (∀ o, o_ID (f o) = o_ID o) →
  (∀ o p, objects d !! i = Some o → o_FolderID (f o) = Some p → is_Some (folders d !! p)) →
  db_inv B d → db_inv B (with_objects (update_row f i (objects d)) d).
Proof.
  intros Hid Hf HI. destruct HI. split; cbn; unfold update_row; try done.
  - intros j o H%lookup_alter_Some. destruct H as [(->&o'&H&->)|[_ H]]; [rewrite Hid|]; eauto.
  - intros j o p H%lookup_alter_Some. destruct H as [(->&o'&H&->)|[_ H]]; eauto.
  - intros j r H. destruct (decide (i = vr_object r)) as [->|].
    + rewrite lookup_alter_eq, fmap_is_Some. eauto.
    + rewrite lookup_alter_ne by done. eauto.
Qed.

Lemma inv_update_folder B d i f :
  (∀ x, f_ID (f x) = f_ID x) →
  (∀ x p, folders d !! i = Some x → f_ParentID (f x) = Some p → is_Some (folders d !! p)) →
  db_inv B d → db_inv B (with_folders (update_row f i (folders d)) d).
Proof.
  intros Hid Hf HI. destruct HI.
  assert (∀ j, is_Some (folders d !! j) → is_Some (alter f i (folders d) !! j)) as Hs.
  { intros j H. destruct (decide (i = j)) as [->|].
    - by rewrite lookup_alter_eq, fmap_is_Some.
    - by rewrite lookup_alter_ne. }
  split; cbn; unfold update_row; try done.
  - intros j x H%lookup_alter_Some. destruct H as [(->&x'&H&->)|[_ H]]; [rewrite Hid|]; eauto.
  - intros j o p H1 H2. apply Hs. eauto.
  - intros j x p H%lookup_alter_Some Hp. apply Hs. destruct H as [(->&x'&H&->)|[_ H]]; eauto.
Qed.

Lemma inv_add_folder B d f :
  folders d !! f_ID f = None → fk_ok (f_ParentID f) (<[f_ID f := f]> (folders d)) = true →
  db_inv B d → db_inv B (with_folders (<[f_ID f := f]> (folders d)) d).
Proof.
  intros Hn Hf HI. destruct HI.
  assert (∀ j, is_Some (folders d !! j) → is_Some (<[f_ID f := f]> (folders d) !! j)) as Hs.
  { intros j H. rewrite lookup_insert_is_Some. destruct (decide (f_ID f = j)); auto. }
  split; cbn; try done.
  - intros i x [[<- <-]|[_ H]]%lookup_insert_Some; auto.
  - intros i o p H1 H2. apply Hs. eauto.
  - intros i x p [[<- <-]|[_ H]]%lookup_insert_Some Hp; [by eapply fk_ok_true|]. apply Hs. eauto.
Qed.

Lemma inv_delete_folder B d i :
  ¬ has_children i d → db_inv B d → db_inv B (with_folders (delete i (folders d)) d).
Proof.
  intros Hc HI. destruct HI. split; cbn; try done.
  - intros j x [_ H]%lookup_delete_Some. auto.
  - intros j o p Ho Hp. rewrite lookup_delete_is_Some. split; [|eauto]. intros <-. apply Hc. right.
    apply Exists_exists. exists o. split; [|done]. apply elem_of_rows. eauto.
  - intros j x p [_ H]%lookup_delete_Some Hp. rewrite lookup_delete_is_Some. split; [|eauto].
    intros <-. apply Hc. left. apply Exists_exists. exists x. split; [|done]. apply elem_of_rows. eauto.
Qed.

Lemma inv_blobs_weaken B B' d :
  (∀ r, r ∈ version_chunks d → is_Some (B !! m_hash r) → is_Some (B' !! m_hash r)) →
  db_inv B d → db_inv B' d.
Proof. intros H []. split; eauto. Qed.

(** ** The latest version of a file *)
#[global] Instance by_Z_total {A} (key : A → Z) : Total (by_Z key).
Proof. intros x y. unfold by_Z. lia. Qed.
#[global] Instance by_Z_refl {A} (key : A → Z) : Reflexive (by_Z key).
Proof. intros x. unfold by_Z. lia. Qed.
#[global] Instance by_Z_trans {A} (key : A → Z) : Transitive (by_Z key).
Proof. intros x y z. unfold by_Z. lia. Qed.

Lemma sorted_last {A} (R : A → A → Prop) `{!Reflexive R} l v x :
  StronglySorted R l → last l = Some v → x ∈ l → R x v.
Proof.
  induction 1 as [|y l Hs IH Hf]; [done|]. intros Hl [-> | Hx]%elem_of_cons.
  - destruct l as [|z l]; [by injection Hl as ->|]. rewrite Forall_forall in Hf. apply Hf.
    apply last_Some_elem_of. by rewrite last_cons_cons in Hl.
  - destruct l as [|z l]; [by apply not_elem_of_nil in Hx|]. apply IH; [|done].
    by rewrite last_cons_cons in Hl.
Qed.

Definition newest (i : string) (d : KDB) (v : Version) : Prop :=
  v ∈ versions_of i d ∧ ∀ u, u ∈ versions_of i d → (v_Ordinal u <= v_Ordinal v)%Z.

Lemma latest_newest i d v : latest_version i d = Some v → newest i d v.
Proof.
  unfold latest_version, newest_first. rewrite head_reverse. intros H.
  pose proof (merge_sort_Permutation (by_Z v_Ordinal) (versions_of i d)) as HP.
  split.
  - rewrite <- HP. by apply last_Some_elem_of.
  - intros u Hu. rewrite <- HP in Hu. eapply (sorted_last (by_Z v_Ordinal)); [|done|done].
    apply (StronglySorted_merge_sort (by_Z v_Ordinal)).
Qed.

Lemma versions_of_ordinal B i d u v :
  db_inv B d → u ∈ versions_of i d → v ∈ versions_of i d → v_Ordinal u = v_Ordinal v → u = v.
Proof.
  intros HI [k Hk]%elem_of_versions_of [j Hj]%elem_of_versions_of He.
  assert (k = j) as -> by (by eapply (inv_ordinal _ _ HI)). congruence.
Qed.

Lemma newest_latest B i d v : db_inv B d → newest i d v → latest_version i d = Some v.
Proof.
  intros HI [Hv Hmax]. destruct (latest_version i d) as [u|] eqn:E.
  - destruct (latest_newest i d u E) as [Hu Hmu]. f_equal. apply (versions_of_ordinal B i d); auto.
    specialize (Hmax u Hu). specialize (Hmu v Hv). lia.
  - unfold latest_version, newest_first in E. rewrite head_reverse in E. apply last_None in E.
    pose proof (merge_sort_Permutation (by_Z v_Ordinal) (versions_of i d)) as HP.
    rewrite E in HP. rewrite <- HP in Hv. by apply not_elem_of_nil in Hv.
Qed.

(** MAX(ordinal) is the ordinal of the newest version. *)
Lemma foldr_max_spec o os : (∀ x, x ∈ o :: os → x <= foldr Z.max o os)%Z ∧ foldr Z.max o os ∈ o :: os.
Proof.
  induction os as [|y os [IH1 IH2]]; cbn.
  - split; [|left]. intros x ->%list_elem_of_singleton. lia.
  - split.
    + intros x [-> | [-> | Hx]%elem_of_cons]%elem_of_cons.
      * assert (o <= foldr Z.max o os)%Z by (apply IH1; left). lia.
      * lia.
      * assert (x <= foldr Z.max o os)%Z by (apply IH1; by right). lia.
    + destruct (Z.max_spec y (foldr Z.max o os)) as [[_ ->]|[_ ->]]; [|right; left].
      apply elem_of_cons in IH2 as [-> | ?]; [left|right; by right].
Qed.

Lemma max_ordinal_newest i d m :
  max_ordinal i d = Some m ↔ ∃ v, newest i d v ∧ v_Ordinal v = m.
Proof.
  unfold max_ordinal, newest. destruct (v_Ordinal <$> versions_of i d) as [|o os] eqn:E.
  - split; [done|]. intros (v&[Hv _]&_). apply fmap_nil_inv in E. rewrite E in Hv.
    by apply not_elem_of_nil in Hv.
  - destruct (foldr_max_spec o os) as [H1 H2]. rewrite <- E in H1, H2.
    apply list_elem_of_fmap in H2 as (v&Hv&Hin).
    assert (∀ u, u ∈ versions_of i d → (v_Ordinal u <= foldr Z.max o os)%Z) as Hmax.
    { intros u Hu. apply H1, list_elem_of_fmap. eauto. }
    split.
    + intros [= <-]. exists v. rewrite <- Hv. eauto.
    + intros (u&[Hu Hmu]&<-). f_equal. specialize (Hmax u Hu). specialize (Hmu v Hin). lia.
Qed.

Lemma max_ordinal_None i d : max_ordinal i d = None ↔ versions_of i d = [].
Proof.
  unfold max_ordinal. destruct (versions_of i d); cbn; [done|]. split; [done|]. by intros [=].
Qed.

(** ** What other operations may not change about a file *)
Definition own_rows (k : string) (d : KDB) : list manifest_row :=
  filter (λ r, m_version r = k) (version_chunks d).

Definition same_file (oid : string) (d d' : KDB) : Prop :=
  (∀ k v, versions d !! k = Some (VRow oid v) ↔ versions d' !! k = Some (VRow oid v)) ∧
  (∀ k v, versions d !! k = Some (VRow oid v) → own_rows k d' = own_rows k d).

#[global] Instance same_file_preorder oid : PreOrder (same_file oid).
Proof.
  split; [done|]. intros d1 d2 d3 [H1 H2] [H3 H4]. split.
  - intros k v. by rewrite H1.
  - intros k v Hk. rewrite (H4 k v) by (by apply H1). eauto.
Qed.

Lemma same_file_tables oid d d' :
  versions d' = versions d → version_chunks d' = version_chunks d → same_file oid d d'.
Proof. intros H1 H2. split; unfold own_rows; by rewrite ?H1, ?H2. Qed.

Lemma same_file_add_version oid oid' vid ordinal size t d :
  oid ≠ oid' → versions d !! vid = None → same_file oid d (add_version oid' vid ordinal size t d).
Proof.
  intros Hn Hv. split; [|done]. intros k v. cbn. rewrite lookup_insert_Some. split.
  - intros H. right. split; [congruence|done].
  - intros [[<- [= <- _]]|[_ H]]; done.
Qed.

Lemma same_file_add_refs oid vid idx refs d :
  (∀ v, versions d !! vid ≠ Some (VRow oid v)) → same_file oid d (add_refs vid idx refs d).
Proof.
  revert idx d. induction refs as [|ref refs IH]; intros idx d Hv; cbn; [done|].
  transitivity (add_ref vid idx ref d); [|by apply IH].
  split; [done|]. intros k v Hk. unfold own_rows. cbn. rewrite filter_app, filter_cons_False.
  - by rewrite filter_nil, app_nil_r.
  - cbn. intros ->. by apply (Hv v).
Qed.

Lemma same_file_reclaim B oid i d : db_inv B d → oid ≠ i → same_file oid d (reclaim_db i d).
Proof.
  intros HI Hn. split.
  - intros k v. cbn. rewrite map_lookup_filter_Some. cbn. naive_solver.
  - intros k v Hk. unfold own_rows. cbn. rewrite list_filter_filter_l; [done|].
    intros r <- Hin. apply (elem_of_version_ids B) in Hin as [v' Hv']; [|done]. congruence.
Qed.

Lemma own_rows_manifest k d : manifest_rows k d = merge_sort by_idx (own_rows k d).
Proof. done. Qed.

Definition manifest_hashes (k : string) (d : KDB) : list string := m_hash <$> manifest_rows k d.

Lemma elem_of_manifest_hashes k d h :
  h ∈ manifest_hashes k d ↔ ∃ r, r ∈ version_chunks d ∧ m_version r = k ∧ m_hash r = h.
Proof.
  unfold manifest_hashes, manifest_rows. rewrite list_elem_of_fmap. split.
  - intros (r&->&Hr). rewrite merge_sort_Permutation in Hr. apply list_elem_of_filter in Hr as [? ?]. eauto.
  - intros (r&Hr&<-&<-). exists r. split; [done|]. rewrite merge_sort_Permutation.
    by apply list_elem_of_filter.
Qed.

Lemma manifest_refs_hashes B k d : db_inv B d → cr_Hash <$> manifest_refs k d = manifest_hashes k d.
Proof.
  intros HI. unfold manifest_refs, manifest_hashes.
  assert (∀ r, r ∈ manifest_rows k d → is_Some (chunks_tbl d !! m_hash r)) as Hc.
  { intros r Hr. unfold manifest_rows in Hr. rewrite merge_sort_Permutation in Hr.
    apply list_elem_of_filter in Hr as [_ Hr]. by apply (inv_mchunk _ _ HI). }
  induction (manifest_rows k d) as [|r l IH]; [done|]. cbn.
  destruct (Hc r) as [c Hcr]; [left|]. rewrite Hcr. cbn. f_equal. apply IH. intros q Hq. apply Hc. by right.
Qed.

Lemma same_file_latest B B' oid d d' :
  db_inv B d → db_inv B' d' → same_file oid d d' → latest_version oid d' = latest_version oid d.
Proof.
  intros HI HI' [Hv _].
  assert (∀ u, u ∈ versions_of oid d ↔ u ∈ versions_of oid d') as Hu.
  { intros u. rewrite !elem_of_versions_of. split; intros [k Hk]; exists k; by apply Hv. }
  assert (∀ u, newest oid d u ↔ newest oid d' u) as Hn.
  { intros u. unfold newest. rewrite <- Hu. split; intros [H1 H2]; split; auto; intros x Hx;
      apply H2; by apply Hu. }
  destruct (latest_version oid d) as [v|] eqn:E.
  - eapply newest_latest; [done|]. by apply Hn, latest_newest.
  - destruct (latest_version oid d') as [v|] eqn:E'; [|done].
    apply latest_newest, Hn in E'. eapply newest_latest in E'; [|done]. congruence.
Qed.

(** ** The manifest a new version gets *)
Fixpoint mk_rows (vid : string) (idx : nat) (refs : list ChunkRef) : list manifest_row :=
  match refs with
  | [] => []
  | ref :: refs' => MRow vid idx (cr_Hash ref) :: mk_rows vid (S idx) refs'
  end.

(** [d] is [d0] with one more version of [oid]. *)
Definition new_version (oid vid : string) (ordinal size : Z) (refs : list ChunkRef) (d0 d : KDB) : Prop :=
  versions d0 !! vid = None ∧ ordinal ∉ v_Ordinal <$> versions_of oid d0 ∧
  ∃ t, versions d = <[vid := VRow oid (MkVersion vid ordinal size t)]> (versions d0) ∧
       version_chunks d = version_chunks d0 ++ mk_rows vid 0 refs.

Lemma add_refs_tables vid idx refs d :
  versions (add_refs vid idx refs d) = versions d ∧
  version_chunks (add_refs vid idx refs d) = version_chunks d ++ mk_rows vid idx refs ∧
  objects (add_refs vid idx refs d) = objects d.
Proof.
  revert idx d. induction refs as [|ref refs IH]; intros idx d; cbn; [by rewrite app_nil_r|].
  destruct (IH (S idx) (add_ref vid idx ref d)) as (->&->&->). cbn. by rewrite <- app_assoc.
Qed.

Lemma mk_rows_spec vid idx refs r :
  r ∈ mk_rows vid idx refs → m_version r = vid ∧ idx ≤ m_idx r.
Proof.
  revert idx. induction refs as [|ref refs IH]; intros idx; cbn; [by intros ?%not_elem_of_nil|].
  intros [-> | Hr]%elem_of_cons; [done|]. apply IH in Hr as [? ?]. split; [done|lia].
Qed.

Lemma mk_rows_sorted vid idx refs : StronglySorted by_idx (mk_rows vid idx refs).
Proof.
  revert idx. induction refs as [|ref refs IH]; intros idx; cbn; constructor; [done|].
  apply Forall_forall. intros r Hr. apply mk_rows_spec in Hr as [_ Hr]. unfold by_idx. cbn. lia.
Qed.

Lemma mk_rows_idx_inj vid idx refs r q :
  r ∈ mk_rows vid idx refs → q ∈ mk_rows vid idx refs → m_idx r = m_idx q → r = q.
Proof.
  revert idx. induction refs as [|ref refs IH]; intros idx; cbn; [by intros ?%not_elem_of_nil|].
  intros [-> | Hr]%elem_of_cons [-> | Hq]%elem_of_cons He; [done| | |eauto].
  - apply mk_rows_spec in Hq as [_ Hq]. cbn in He. lia.
  - apply mk_rows_spec in Hr as [_ Hr]. cbn in He. lia.
Qed.

Lemma mk_rows_hashes vid idx refs : m_hash <$> mk_rows vid idx refs = cr_Hash <$> refs.
Proof. revert idx. induction refs as [|ref refs IH]; intros idx; cbn; [done|]. by rewrite IH. Qed.

#[global] Instance by_idx_total : Total by_idx.
Proof. intros x y. unfold by_idx. lia. Qed.
#[global] Instance by_idx_trans : Transitive by_idx.
Proof. intros x y z. unfold by_idx. lia. Qed.

Lemma sort_mk_rows vid refs : merge_sort by_idx (mk_rows vid 0 refs) = mk_rows vid 0 refs.
Proof.
  apply (StronglySorted_unique_strong by_idx).
  - intros x y Hx Hy H1 H2. rewrite merge_sort_Permutation in Hx.
    apply (mk_rows_idx_inj vid 0 refs); [done|done|]. unfold by_idx in *. lia.
  - apply (StronglySorted_merge_sort by_idx).
  - apply mk_rows_sorted.
  - apply merge_sort_Permutation.
Qed.

Lemma own_rows_fresh B vid d : db_inv B d → versions d !! vid = None → own_rows vid d = [].
Proof.
  intros HI Hv. unfold own_rows. destruct (filter _ _) as [|r l] eqn:E; [done|].
  assert (r ∈ filter (λ r, m_version r = vid) (version_chunks d)) as Hr by (rewrite E; left).
  apply list_elem_of_filter in Hr as [Hm Hr]. destruct (inv_mversion _ _ HI r Hr). congruence.
Qed.

Lemma new_version_manifest B oid vid ordinal size refs d0 d :
  db_inv B d0 → new_version oid vid ordinal size refs d0 d →
  manifest_hashes vid d = cr_Hash <$> refs.
Proof.
  intros HI (Hv&_&t&_&Hc). unfold manifest_hashes. rewrite own_rows_manifest. unfold own_rows.
  rewrite Hc, filter_app. change (filter _ (version_chunks d0)) with (own_rows vid d0).
  rewrite (own_rows_fresh B) by done. cbn [app].
  rewrite list_filter_all, sort_mk_rows; [apply mk_rows_hashes|].
  intros r Hr. by apply mk_rows_spec in Hr as [? _].
Qed.

Lemma new_version_latest B oid vid ordinal size refs d0 d :
  db_inv B d → new_version oid vid ordinal size refs d0 d →
  (∀ u, u ∈ versions_of oid d0 → (v_Ordinal u < ordinal)%Z) →
  ∃ t, latest_version oid d = Some (MkVersion vid ordinal size t).
Proof.
  intros HI (Hv&_&t&Hvs&_) Hmax. exists t. eapply newest_latest; [done|]. split.
  - apply elem_of_versions_of. exists vid. rewrite Hvs. apply lookup_insert_eq.
  - intros u [k Hk]%elem_of_versions_of. rewrite Hvs in Hk. cbn.
    apply lookup_insert_Some in Hk as [[_ [= <-]]|[_ Hk]]; [done|].
    assert (v_Ordinal u < ordinal)%Z; [|lia]. apply Hmax, elem_of_versions_of. eauto.
Qed.
End inv.

(** Where nothing is said about the accounting of particular chunks. *)
#[global] Instance any_leak : Leaks | 100 := λ _, True.
