(* ===== verification/FileService.v ===== *)
(** * FileService: Kamara's file domain (kamara/internal/file/file.go)

    Upload, download, versions, listing and deletion of files: the operations
    of [Service] with their authorization checks, their transactions and what
    they do outside them. *)

From S2P Require Import Prelude GoText Ids World Pii Pseudonym Conventions Authz Chunker ChunkCrypto Blob Engine Repo.
Import Pii Chunker.

(** mime.TypeByExtension depends on tables of the host: a parameter. *)
Class Mime := { TypeByExtension : string → string }.

Definition Type_ : string := "kamara/file".
Definition FolderType : string := "kamara/folder".
Definition Relation : string := "owner".
Definition ParentRelation : string := "parent".
Definition AccessRelation : string := "can_access".

Definition obj (i : string) : string := Type_ +:+ ":" +:+ i.
Definition folderObj (i : string) : string := FolderType +:+ ":" +:+ i.

(** The service: its cipher, and whether a session revoker is wired. *)
Record Service := MkService { s_cipher : Cipher; s_revoker : bool }.

(** ** Content types *)
Definition contentTypeOf {Mi : Mime} (name : string) : string :=
  let ct := TypeByExtension (path_ext name) in
  TrimSpace (match cut_byte ";"%char ct with Some (before, _) => before | None => ct end).

Definition MaxTextEditBytes : Z := 1048576.

Definition textEditableTypes : list string :=
  ["application/json"; "application/javascript"; "application/xml"; "application/yaml";
   "application/toml"; "application/x-sh"; "application/sql"].

Definition text_editable (size : Z) (ct : string) : bool :=
  if (MaxTextEditBytes <? size)%Z then false
  else if bool_decide (ct = "") || has_prefix ct "text/" then true
  else bool_decide (ct ∈ textEditableTypes).

Definition TextEditable (o : Object) : bool := text_editable (o_Size o) (o_ContentType o).

Definition Previewable (o : Object) : bool :=
  has_prefix (o_ContentType o) "image/" && negb (bool_decide (o_ContentType o = "image/svg+xml")).

Definition TextEditableName {Mi : Mime} (name : string) : bool :=
  text_editable 0 (contentTypeOf name).

Section service.
Context {Pr : Primitives} {P : Platform} {F : OpenFGA} {Mi : Mime}.
Context (s : Service).

(** ** Authorization *)
Definition authorizeAccess (caller : Subject) (object : string) : M KW unit :=
  ok ← Check caller AccessRelation object;
  if ok : bool then mret tt
  else throw (ErrWrap (subject_string caller +:+ " on " +:+ object) ErrForbidden).

Definition authorize (caller : Subject) (objectID : string) : M KW unit :=
  authorizeAccess caller (obj objectID).
Definition authorizeFolder (caller : Subject) (folderID : string) : M KW unit :=
  authorizeAccess caller (folderObj folderID).

Definition file_audit (i : string) : AuditObject := MkAuditObject Type_ i (o_Permalink i).
Definition file_doc (i : string) (owner : Subject) (name : string) : Doc :=
  MkDoc i Type_ (o_Permalink i) owner name.

(** ** Upload *)

(** The transaction of Upload. *)
Definition upload_tx (o : Object) (verID : string) (refs : list ChunkRef) : M KW unit :=
  InTx (
    InsertObject o ;;
    InsertVersion (o_ID o) verID 0 (o_Size o) refs ;;
    Emit (o_Owner o) "kamara.file.created" (file_audit (o_ID o)) ;;
    Feed (file_doc (o_ID o) (o_Owner o) (o_Name o))).

(** Everything after the blobs are stored. *)
Definition upload_commit (owner : Subject) (folderID : option string) (name : string)
    (refs : list ChunkRef) (total : Z) : M KW Object :=
  t ← now;
  i ← new_id;
  let o := MkObject i owner name total folderID (contentTypeOf name) t t in
  verID ← new_id;
  upload_tx o verID refs ;;
  wrap_err "file: writing owner tuple" (Write owner Relation (obj i)) ;;
  match folderID with
  | None => mret tt
  | Some f => wrap_err "file: writing parent tuple"
                (WriteObjectTuple (folderObj f) ParentRelation (obj i))
  end ;;
  mret o.

Definition Upload (owner : Subject) (folderID : option string) (name : string)
    (body : list rd_event) : M KW Object :=
  if bool_decide (name = "") then throw (ErrText "file: name required")
  else
    match folderID with
    | None => mret tt
    | Some f => authorizeFolder owner f
    end ;;
    r ← Ingest (s_cipher s) body;
    upload_commit owner folderID name r.1 r.2.

(** ** Download: the result with the bytes written so far *)
Definition Download (caller : Subject) (objectID : string) : M (KW * bytes) unit :=
  on_world (authorize caller objectID) ;;
  refs ← on_world (ManifestOf objectID);
  Reassemble (s_cipher s) refs.

(** ** Versions *)
(** The transaction after SELECT MAX(ordinal) answered [m]. *)
Definition write_version_at (caller : Subject) (objectID verID : string) (base : option Z)
    (refs : list ChunkRef) (total : Z) (m : option Z) : M KW Z :=
  match m with
  | None => throw ErrNotFound
  | Some maxOrd =>
      if match base with Some b => negb (bool_decide (maxOrd = b)) | None => false end
      then throw ErrModified
      else
        let ordinal := (maxOrd + 1)%Z in
        InsertVersion objectID verID ordinal total refs ;;
        SetObjectSize objectID total ;;
        Emit caller "kamara.file.version_written" (file_audit objectID) ;;
        mret ordinal
  end.

Definition write_version_tx (caller : Subject) (objectID verID : string) (base : option Z)
    (refs : list ChunkRef) (total : Z) : M KW Z :=
  InTx (m ← MaxOrdinal objectID; write_version_at caller objectID verID base refs total m).

Definition maxAttempts : nat := 5.

(** Whether an attempt that failed with [e] is followed by another, and how many are
    left then. *)
Definition next_attempt (left : nat) (e : error) : option nat :=
  if errors_is e ErrVersionConflict then
    match left with
    | S (S _ as left') => Some left'
    | _ => None
    end
  else None.

(** [left] attempts remain. *)
Fixpoint write_version_loop (left : nat) (caller : Subject) (objectID : string) (base : option Z)
    (refs : list ChunkRef) (total : Z) : M KW Z :=
  verID ← new_id;
  r ← attempt (write_version_tx caller objectID verID base refs total);
  match r with
  | Ok ordinal => mret ordinal
  | Err e =>
      if errors_is e ErrVersionConflict then
        match left with
        | S (S _ as left') => write_version_loop left' caller objectID base refs total
        | _ => throw e
        end
      else throw e
  end.

(** The ordinal is returned as a number; the source formats it. *)
Definition writeVersion (caller : Subject) (objectID : string) (body : list rd_event)
    (base : option Z) : M KW Z :=
  authorize caller objectID ;;
  r ← Ingest (s_cipher s) body;
  write_version_loop maxAttempts caller objectID base r.1 r.2.

Definition WriteVersion caller objectID body : M KW Z := writeVersion caller objectID body None.
Definition WriteVersionAt caller objectID base body : M KW Z :=
  writeVersion caller objectID body (Some base).

Definition ListFileVersions (caller : Subject) (objectID : string) : M KW (list Version) :=
  authorize caller objectID ;; ListVersions objectID.

Definition LatestOrdinal (caller : Subject) (objectID : string) : M KW Z :=
  authorize caller objectID ;;
  m ← MaxOrdinal objectID;
  match m with Some ord => mret ord | None => throw ErrNotFound end.

(** ** Listing and metadata *)
Definition List_ (caller : Subject) : M KW (list Object) :=
  ids ← ListObjects caller AccessRelation Type_; ByIDs ids.

Definition Get_ (caller : Subject) (objectID : string) : M KW Object :=
  authorize caller objectID ;;
  o ← GetObject objectID;
  match o with Some o => mret o | None => throw ErrNotFound end.

(** ** Deletion *)
Definition reclaimObject (objectID : string) : M KW (list string) :=
  hashes ← ChunkHashesOf objectID;
  DeleteObject objectID ;;
  orphans ← DecRef hashes;
  DeleteChunks orphans ;;
  mret orphans.

(** The transaction: the orphaned hashes and the folder the file was in. *)
Definition delete_tx (caller : Subject) (objectID : string) : M KW (list string * option string) :=
  InTx (
    Emit caller "kamara.file.deleted" (file_audit objectID) ;;
    o ← GetObject objectID;
    orphans ← reclaimObject objectID;
    Remove objectID ;;
    mret (orphans, o ≫= o_FolderID)).

(** Best-effort removal of the blobs no manifest names any more. *)
Definition reclaim_blobs (orphans : list string) : M KW unit :=
  for_each orphans (λ h, ignore (Blob.Delete h)).

Definition revoke_sessions (objectID : string) : M KW unit :=
  if s_revoker s then ignore (WopiDeleteByObject objectID) else mret tt.

Definition delete_cleanup (caller : Subject) (objectID : string) (orphans : list string)
    (folderID : option string) : M KW unit :=
  reclaim_blobs orphans ;;
  match folderID with
  | None => mret tt
  | Some f => ignore (DeleteObjectTuple (folderObj f) ParentRelation (obj objectID))
  end ;;
  revoke_sessions objectID ;;
  Authz.Delete caller Relation (obj objectID).

Definition Delete_ (caller : Subject) (objectID : string) : M KW unit :=
  authorize caller objectID ;;
  r ← delete_tx caller objectID;
  delete_cleanup caller objectID r.1 r.2.
End service.

(** A concrete service, for evaluating the definitions. *)
Definition no_mime : Mime := {| TypeByExtension := λ _, "" |}.
Definition demo_service : Service := MkService (MkCipher (replicate 32 x07) "t") true.
Definition demo_user : Subject := MkSubject "t" "u1".
Definition demo_body : list rd_event := [RData [x61; x62]].
