(* ===== verification/FolderService.v ===== *)
(** * FolderService: the folder hierarchy (kamara/internal/file/folder.go)

    Creation, listing, renaming, moving and deletion of folders and files in
    the tree, with the cycle check of moves and the breadth-first collection of
    recursive deletion. *)

From S2P Require Import Prelude GoText Ids World Pii Pseudonym Conventions Authz Chunker ChunkCrypto Blob Engine Repo FileService.
Import Pii Chunker.

Definition folder_audit (i : string) : AuditObject := MkAuditObject FolderType i (f_Permalink i).
Definition folder_doc (i : string) (owner : Subject) (name : string) : Doc :=
  MkDoc i FolderType (f_Permalink i) owner name.

Record Listing := MkListing { l_Folders : list Folder; l_Files : list Object }.

(** Loops over the tree carry fuel; [tree_fuel] is enough because every
    iteration marks a folder that was not marked before. *)
Definition out_of_fuel : error := ErrText "out of fuel".
Definition tree_fuel : M KW nat := gets (λ w, S (S (size (folders (w_db w))))).

Section folders.
Context {Pr : Primitives} {P : Platform} {F : OpenFGA} {Mi : Mime}.
Context (s : Service).

(** ** Creating and reading *)
Definition create_folder_tx (f : Folder) : M KW unit :=
  InTx (
    InsertFolder f ;;
    Emit (f_Owner f) "kamara.folder.created" (folder_audit (f_ID f)) ;;
    Feed (folder_doc (f_ID f) (f_Owner f) (f_Name f))).

Definition authorize_dest (caller : Subject) (dest : option string) : M KW unit :=
  match dest with None => mret tt | Some f => authorizeFolder caller f end.

Definition CreateFolder (owner : Subject) (parent : option string) (name : string) : M KW Folder :=
  if bool_decide (name = "") then throw (ErrText "file: folder name required")
  else
    authorize_dest owner parent ;;
    t ← now;
    i ← new_id;
    let f := MkFolder i owner parent name t t in
    create_folder_tx f ;;
    wrap_err "folder: writing owner tuple" (Write owner Relation (folderObj i)) ;;
    match parent with
    | None => mret tt
    | Some p => wrap_err "folder: writing parent tuple"
                  (WriteObjectTuple (folderObj p) ParentRelation (folderObj i))
    end ;;
    mret f.

Definition GetFolder (caller : Subject) (folderID : string) : M KW Folder :=
  authorizeFolder caller folderID ;;
  f ← GetFolderRow folderID;
  match f with Some f => mret f | None => throw ErrNotFound end.

Definition ListChildren (caller : Subject) (folder : option string) : M KW Listing :=
  authorize_dest caller folder ;;
  fs ← FoldersInParent caller folder;
  os ← ObjectsInFolder caller folder;
  mret (MkListing fs os).

(** The chain from [cur] upwards, nearest first. *)
Fixpoint ancestors_loop (fuel : nat) (seen : gset string) (cur : option string) : M KW (list Folder) :=
  match fuel with
  | O => throw out_of_fuel
  | S fuel' =>
      match cur with
      | None => mret []
      | Some c =>
          if bool_decide (c ∈ seen) then mret []
          else
            f ← GetFolderRow c;
            match f with
            | None => mret []
            | Some f =>
                chain ← ancestors_loop fuel' ({[c]} ∪ seen) (f_ParentID f);
                mret (f :: chain)
            end
      end
  end.

Definition Ancestors (caller : Subject) (folderID : string) : M KW (list Folder) :=
  authorizeFolder caller folderID ;;
  fuel ← tree_fuel;
  chain ← ancestors_loop fuel ∅ (Some folderID);
  mret (reverse chain).

Definition AllFolders (caller : Subject) : M KW (list Folder) := FoldersByOwner caller.

(** ** Renaming and moving *)
Definition RenameFile (caller : Subject) (objectID name : string) : M KW unit :=
  if bool_decide (name = "") then throw (ErrText "file: name required")
  else
    authorize caller objectID ;;
    o ← GetObject objectID;
    match o with
    | None => throw ErrNotFound
    | Some o =>
        InTx (
          SetObjectName objectID name ;;
          Emit caller "kamara.file.renamed" (MkAuditObject Type_ objectID (o_Permalink (o_ID o))) ;;
          Feed (MkDoc objectID Type_ (o_Permalink (o_ID o)) (o_Owner o) name))
    end.

Definition reparent (child : string) (old dest : option string) : M KW unit :=
  match old with
  | None => mret tt
  | Some f => wrap_err "file: clearing old parent tuple"
                (DeleteObjectTuple (folderObj f) ParentRelation child)
  end ;;
  match dest with
  | None => mret tt
  | Some f => wrap_err "file: writing parent tuple"
                (WriteObjectTuple (folderObj f) ParentRelation child)
  end.

Definition move_file_tx (caller : Subject) (objectID : string) (dest : option string) (o : Object)
    : M KW unit :=
  InTx (
    SetObjectFolder objectID dest ;;
    Emit caller "kamara.file.moved" (MkAuditObject Type_ objectID (o_Permalink (o_ID o)))).

Definition MoveFile (caller : Subject) (objectID : string) (dest : option string) : M KW unit :=
  authorize caller objectID ;;
  authorize_dest caller dest ;;
  o ← GetObject objectID;
  match o with
  | None => throw ErrNotFound
  | Some o =>
      move_file_tx caller objectID dest o ;;
      reparent (obj objectID) (o_FolderID o) dest
  end.

Definition RenameFolder (caller : Subject) (folderID name : string) : M KW unit :=
  if bool_decide (name = "") then throw (ErrText "file: folder name required")
  else
    authorizeFolder caller folderID ;;
    f ← GetFolderRow folderID;
    match f with
    | None => throw ErrNotFound
    | Some f =>
        InTx (
          SetFolderName folderID name ;;
          Emit caller "kamara.folder.renamed" (MkAuditObject FolderType folderID (f_Permalink (f_ID f))) ;;
          Feed (MkDoc folderID FolderType (f_Permalink (f_ID f)) (f_Owner f) name))
    end.

(** Walk from [cur] to the root; meeting [moving], or a folder twice, is a cycle. *)
Fixpoint would_cycle_loop (fuel : nat) (moving : string) (seen : gset string) (cur : option string)
    : M KW bool :=
  match fuel with
  | O => throw out_of_fuel
  | S fuel' =>
      match cur with
      | None => mret false
      | Some c =>
          if bool_decide (c = moving) || bool_decide (c ∈ seen) then mret true
          else
            f ← GetFolderRow c;
            match f with
            | None => mret false
            | Some f => would_cycle_loop fuel' moving ({[c]} ∪ seen) (f_ParentID f)
            end
      end
  end.

Definition wouldCycle (moving dest : string) : M KW bool :=
  fuel ← tree_fuel; would_cycle_loop fuel moving ∅ (Some dest).

Definition move_folder_tx (caller : Subject) (folderID : string) (dest : option string) (f : Folder)
    : M KW unit :=
  InTx (
    SetFolderParent folderID dest ;;
    Emit caller "kamara.folder.moved" (MkAuditObject FolderType folderID (f_Permalink (f_ID f)))).

(** The checks of MoveFolder on its destination. *)
Definition check_dest (caller : Subject) (folderID : string) (dest : option string) : M KW unit :=
  match dest with
  | None => mret tt
  | Some d =>
      authorizeFolder caller d ;;
      cyclic ← wouldCycle folderID d;
      if cyclic : bool then throw ErrCycle else mret tt
  end.

Definition MoveFolder (caller : Subject) (folderID : string) (dest : option string) : M KW unit :=
  authorizeFolder caller folderID ;;
  check_dest caller folderID dest ;;
  f ← GetFolderRow folderID;
  match f with
  | None => throw ErrNotFound
  | Some f =>
      move_folder_tx caller folderID dest f ;;
      reparent (folderObj folderID) (f_ParentID f) dest
  end.

(** ** Deleting *)
Definition delete_folder_tx (caller : Subject) (folderID : string) : M KW unit :=
  InTx (
    Emit caller "kamara.folder.deleted" (folder_audit folderID) ;;
    DeleteFolderRow folderID ;;
    Remove folderID).

Definition clear_parent (child : string) (parent : option string) : M KW unit :=
  match parent with
  | None => mret tt
  | Some p => ignore (DeleteObjectTuple (folderObj p) ParentRelation child)
  end.

Definition DeleteFolder (caller : Subject) (folderID : string) : M KW unit :=
  authorizeFolder caller folderID ;;
  has ← FolderHasChildren folderID;
  if has : bool then throw ErrNotEmpty
  else
    f ← GetFolderRow folderID;
    match f with
    | None => throw ErrNotFound
    | Some f =>
        delete_folder_tx caller folderID ;;
        clear_parent (folderObj folderID) (f_ParentID f) ;;
        Authz.Delete caller Relation (folderObj folderID)
    end.

(** The subfolders not met before, in order, and the set of those met. *)
Fixpoint add_unseen (subs : list Folder) (seen : gset string) : list Folder * gset string :=
  match subs with
  | [] => ([], seen)
  | sub :: subs' =>
      if bool_decide (f_ID sub ∈ seen) then add_unseen subs' seen
      else let '(l, seen') := add_unseen subs' ({[f_ID sub]} ∪ seen) in (sub :: l, seen')
  end.

(** Breadth-first collection: [todo] is the part of the list not yet visited.
    The result is the folders in order of discovery and the files. *)
Fixpoint collect_tree (fuel : nat) (caller : Subject) (todo : list Folder) (seen : gset string)
    : M KW (list Folder * list Object) :=
  match fuel with
  | O => throw out_of_fuel
  | S fuel' =>
      match todo with
      | [] => mret ([], [])
      | f :: todo' =>
          objs ← ObjectsInFolder caller (Some (f_ID f));
          subs ← FoldersInParent caller (Some (f_ID f));
          let '(new, seen') := add_unseen subs seen in
          r ← collect_tree fuel' caller (todo' ++ new) seen';
          mret (f :: r.1, objs ++ r.2)
      end
  end.

Definition delete_tree_object (caller : Subject) (o : Object) : M KW (list string) :=
  Emit caller "kamara.file.deleted" (file_audit (o_ID o)) ;;
  gone ← reclaimObject (o_ID o);
  Remove (o_ID o) ;;
  mret gone.

Definition delete_tree_folder (caller : Subject) (f : Folder) : M KW unit :=
  Emit caller "kamara.folder.deleted" (folder_audit (f_ID f)) ;;
  DeleteFolderRow (f_ID f) ;;
  Remove (f_ID f).

Definition delete_tree_tx (caller : Subject) (root : Folder) (folderID : string)
    : M KW (list Folder * list Object * list string) :=
  InTx (
    fuel ← tree_fuel;
    r ← collect_tree fuel caller [root] {[folderID]};
    orphans ← for_acc r.2 [] (λ acc o, gone ← delete_tree_object caller o; mret (acc ++ gone));
    for_each (reverse r.1) (delete_tree_folder caller) ;;
    mret (r.1, r.2, orphans)).

(** The first error is kept, the loop goes on. *)
Definition keep_first (acc : option error) (r : res unit) : option error :=
  match acc, r with
  | None, Err e => Some e
  | _, _ => acc
  end.

Definition clear_object_tuples (caller : Subject) (acc : option error) (o : Object)
    : M KW (option error) :=
  revoke_sessions s (o_ID o) ;;
  clear_parent (obj (o_ID o)) (o_FolderID o) ;;
  r ← attempt (Authz.Delete caller Relation (obj (o_ID o)));
  mret (keep_first acc r).

Definition clear_folder_tuples (caller : Subject) (acc : option error) (f : Folder)
    : M KW (option error) :=
  clear_parent (folderObj (f_ID f)) (f_ParentID f) ;;
  r ← attempt (Authz.Delete caller Relation (folderObj (f_ID f)));
  mret (keep_first acc r).

Definition DeleteFolderTree (caller : Subject) (folderID : string) : M KW unit :=
  authorizeFolder caller folderID ;;
  root ← GetFolderRow folderID;
  match root with
  | None => throw ErrNotFound
  | Some root =>
      r ← delete_tree_tx caller root folderID;
      let '(fs, os, orphans) := r in
      reclaim_blobs orphans ;;
      e1 ← for_acc os None (clear_object_tuples caller);
      e2 ← for_acc fs e1 (clear_folder_tuples caller);
      match e2 with Some e => throw e | None => mret tt end
  end.
End folders.
