(* ===== verification/Sha256.v ===== *)
(** * Sha256: crypto/sha256.Sum256

    The standard library function that hashes session tokens, on 32-bit words
    kept as [Z] with their wrap-around. *)

From S2P Require Import Prelude GoText.

Module Sha256.

Definition u32 (z : Z) : Z := (z mod 2 ^ 32)%Z.
Definition add (x y : Z) : Z := u32 (x + y).
Definition rotr (n x : Z) : Z := Z.lor (Z.shiftr x n) (u32 (Z.shiftl x (32 - n))).
Definition shr (n x : Z) : Z := Z.shiftr x n.
Definition xor3 (x y z : Z) : Z := Z.lxor x (Z.lxor y z).
Definition not32 (x : Z) : Z := Z.lxor x (2 ^ 32 - 1).

Definition Ch (x y z : Z) : Z := Z.lxor (Z.land x y) (Z.land (not32 x) z).
Definition Maj (x y z : Z) : Z := xor3 (Z.land x y) (Z.land x z) (Z.land y z).
Definition S0 (x : Z) : Z := xor3 (rotr 2 x) (rotr 13 x) (rotr 22 x).
Definition S1 (x : Z) : Z := xor3 (rotr 6 x) (rotr 11 x) (rotr 25 x).
Definition s0 (x : Z) : Z := xor3 (rotr 7 x) (rotr 18 x) (shr 3 x).
Definition s1 (x : Z) : Z := xor3 (rotr 17 x) (rotr 19 x) (shr 10 x).

Definition K : list Z := [
  1116352408; 1899447441; 3049323471; 3921009573; 961987163; 1508970993; 2453635748; 2870763221;
  3624381080; 310598401; 607225278; 1426881987; 1925078388; 2162078206; 2614888103; 3248222580;
  3835390401; 4022224774; 264347078; 604807628; 770255983; 1249150122; 1555081692; 1996064986;
  2554220882; 2821834349; 2952996808; 3210313671; 3336571891; 3584528711; 113926993; 338241895;
  666307205; 773529912; 1294757372; 1396182291; 1695183700; 1986661051; 2177026350; 2456956037;
  2730485921; 2820302411; 3259730800; 3345764771; 3516065817; 3600352804; 4094571909; 275423344;
  430227734; 506948616; 659060556; 883997877; 958139571; 1322822218; 1537002063; 1747873779;
  1955562222; 2024104815; 2227730452; 2361852424; 2428436474; 2756734187; 3204031479; 3329325298]%Z.

Definition H0 : list Z := [
  1779033703; 3144134277; 1013904242; 2773480762; 1359893119; 2600822924; 528734635; 1541459225]%Z.

(** Big-endian words. *)
Definition word_of (l : bytes) : Z := foldl (λ acc b, acc * 256 + bz b)%Z 0%Z l.
Definition word_bytes (w : Z) : bytes :=
  (λ k, byte_of_Z (Z.shiftr w k)) <$> [24; 16; 8; 0]%Z.

Fixpoint words (n : nat) (l : bytes) : list Z :=
  match n with O => [] | S n' => word_of (take 4 l) :: words n' (drop 4 l) end.

(** The message schedule, newest word first. *)
Fixpoint schedule (n : nat) (w : list Z) : list Z :=
  match n with
  | O => w
  | S n' =>
      let at_ i := nth i w 0%Z in
      schedule n' (add (add (s1 (at_ 1)) (at_ 6)) (add (s0 (at_ 14)) (at_ 15)) :: w)
  end.

Definition round (st : list Z) (kw : Z * Z) : list Z :=
  match st with
  | [a; b; c; d; e; f; g; h] =>
      let t1 := add (add h (S1 e)) (add (Ch e f g) (add kw.1 kw.2)) in
      let t2 := add (S0 a) (Maj a b c) in
      [add t1 t2; a; b; c; add d t1; e; f; g]
  | _ => st
  end.

Definition compress (h : list Z) (block : bytes) : list Z :=
  let w := reverse (schedule 48 (reverse (words 16 block))) in
  zip_with add h (foldl round h (zip K w)).

(** 0x80, zeros, and the bit length, to a multiple of 64 bytes. *)
Definition pad (m : bytes) : bytes :=
  let n := Z.of_nat (length m) in
  m ++ [x80] ++ replicate (Z.to_nat ((55 - n) mod 64)) x00 ++
  ((λ k, byte_of_Z (Z.shiftr (n * 8) k)) <$> [56; 48; 40; 32; 24; 16; 8; 0]%Z).

Fixpoint blocks (fuel : nat) (l : bytes) : list bytes :=
  match fuel, l with
  | S f, _ :: _ => take 64 l :: blocks f (drop 64 l)
  | _, _ => []
  end.

Definition Sum256 (m : bytes) : bytes :=
  let p := pad m in
  concat (word_bytes <$> foldl compress H0 (blocks (length p) p)).

Example sum_abc : hex_encode (Sum256 (str_bytes "abc")) =
  "ba7816bf8f01cfea414140de5dae2223b00361a396177a9cb410ff61f20015ad".
Proof. vm_compute. reflexivity. Qed.

Example sum_empty : hex_encode (Sum256 []) =
  "e3b0c44298fc1c149afbf4c8996fb92427ae41e4649b934ca495991b7852b855".
Proof. vm_compute. reflexivity. Qed.

Example sum_two_blocks : hex_encode (Sum256 (str_bytes "abcdbcdecdefdefgefghfghighijhijkijkljklmklmnlmnomnopnopq")) =
  "248d6a61d20638b8e5c026930c3e6039a33ce45964ff2167f6ecedd419db06c1".
Proof. vm_compute. reflexivity. Qed.

(** A digest has 32 bytes. *)
Lemma length_round st kw : length st = 8 → length (round st kw) = 8.
Proof. destruct st as [|a [|b [|c [|d [|e [|f [|g [|h [|]]]]]]]]]; done. Qed.

Lemma length_rounds l st : length st = 8 → length (foldl round st l) = 8.
Proof. revert st. induction l as [|x l IH]; intros st H; cbn; [done|]. by apply IH, length_round. Qed.

Lemma length_compress h b : length h = 8 → length (compress h b) = 8.
Proof. intros H. unfold compress. rewrite length_zip_with, length_rounds; [lia|done]. Qed.

Lemma length_Sum256 m : length (Sum256 m) = 32.
Proof.
  unfold Sum256. assert (∀ bs h, length h = 8 → length (foldl compress h bs) = 8) as Hc.
  { induction bs as [|b bs IH]; intros h Hh; cbn; [done|]. by apply IH, length_compress. }
  specialize (Hc (blocks (length (pad m)) (pad m)) H0 eq_refl). revert Hc.
  generalize (foldl compress H0 (blocks (length (pad m)) (pad m))).
  intros l Hl. destruct l as [|a [|b [|c [|d [|e [|f [|g [|h [|]]]]]]]]]; done.
Qed.
End Sha256.
