(* ===== verification/Wopi.v ===== *)
(** * Wopi: editing sessions (kamara/internal/wopi/wopi.go)

    Tokens for the office engine: minted once, stored by hash, checked against
    the clock and OpenFGA on every use. *)

From S2P Require Import Prelude GoText Ids World Pii Pseudonym Conventions Authz Chunker ChunkCrypto Blob Engine Repo FileService Sha256.
Import Pii Chunker.

Module Wopi.
Definition DefaultTTL : Z := 10 * 3600 * 1000000000.

(** NewSessions *)
Definition NewSessions (ttl : Z) : Z := if (ttl <=? 0)%Z then DefaultTTL else ttl.

Definition hash (token : string) : string := hex_encode (Sha256.Sum256 (str_bytes token)).

Lemma base64url_nonempty (l : bytes) : l ≠ [] → base64url_encode l ≠ "".
Proof. destruct l as [|b l]; [done|]. intros _. unfold base64url_encode, radix_encode. by destruct b. Qed.

Section sessions.
Context {P : Platform} {F : OpenFGA}.
Context (ttl : Z).

Definition Mint (subject : Subject) (objectID : string) (canWrite : bool) : M KW string :=
  raw ← draw 32;
  let token := base64url_encode raw in
  now_ ← now;
  WopiPut (hash token) (MkSession objectID subject canWrite (now_ + ttl)) ;;
  ignore (WopiDeleteExpired now_) ;;
  mret token.

Definition Validate (token : string) : M KW Session :=
  if bool_decide (token = "") then throw ErrInvalid
  else
    row ← WopiGet (hash token);
    match row with
    | None => throw ErrInvalid
    | Some sess =>
        t ← now;
        if (ws_Expires sess <? t)%Z then throw ErrInvalid
        else
          ok ← Check (ws_Subject sess) AccessRelation (Type_ +:+ ":" +:+ ws_ObjectID sess);
          if ok : bool then mret sess else throw ErrInvalid
    end.

Definition Revoke (objectID : string) : M KW unit := WopiDeleteByObject objectID.

(** When a token is good. *)
Definition valid (w : KW) (token : string) (sess : Session) : Prop :=
  token ≠ "" ∧ wopi_sessions (w_db w) !! hash token = Some sess ∧ (w_now w <= ws_Expires sess)%Z ∧
  fga_check (w_fga w) (tuple (ws_Subject sess) AccessRelation (obj (ws_ObjectID sess))) = true.

Lemma Validate_spec token w r w' :
  Validate token w = (r, w') →
  w_db w' = w_db w ∧ w_rest w' = w_rest w ∧ w_now w' = w_now w ∧
  match r with
  | Ok sess => valid w token sess
  | Err e => e = ErrExternal ∨ e = ErrInvalid ∧ ∀ sess, ¬ valid w token sess
  end.
Proof.
  unfold Validate. case_bool_decide as Ht.
  { intros [= <- <-]. split_and!; [done..|right]. split; [done|]. by intros sess (?&_). }
  rewrite run_bind. destruct (WopiGet (hash token) w) as [r1 w1] eqn:E1.
  apply query_cases in E1 as (D1&R1&N1&_&[-> | ->]).
  2: { intros [= <- <-]. auto. }
  destruct (wopi_sessions (w_db w) !! hash token) as [sess|] eqn:Es.
  2: { intros [= <- <-]. split_and!; [done..|right]. split; [done|]. intros sess (_&?&_). congruence. }
  rewrite run_bind. cbn [now gets]. rewrite N1. destruct (Z.ltb_spec (ws_Expires sess) (w_now w)) as [Hlt|Hge].
  { intros [= <- <-]. split_and!; [done..|right]. split; [done|]. intros sess' (_&Hs&Hn&_).
    assert (sess' = sess) as -> by congruence. lia. }
  rewrite run_bind.
  destruct (Check_frames_all (ws_Subject sess) AccessRelation (Type_ +:+ ":" +:+ ws_ObjectID sess) w1)
    as (r2&w2&E2&D2&R2&N2&_&Hr2). rewrite E2. injection R1 as B1 F1. injection R2 as B2 F2.
  rewrite F1 in Hr2. fold (obj (ws_ObjectID sess)) in Hr2 |- *.
  destruct Hr2 as [-> | ->]; [|intros [= <- <-]; split_and!; try congruence; [unfold w_rest; congruence|by left]].
  assert (w_rest w2 = w_rest w) as R by (unfold w_rest; congruence).
  destruct (fga_check (w_fga w) _) eqn:Ec; intros [= <- <-]; split_and!; try congruence.
  - done.
  - right. split; [done|]. intros sess' (_&Hs&_&Hc). assert (sess' = sess) as -> by congruence. congruence.
Qed.

(** a session token is exactly as good as its row, the clock and OpenFGA say
    at the time of the call.  Whatever fails, validation changes nothing, accepts
    only a token whose row is stored under its hash, has not expired and whose
    subject still has access to the file, and reports an invalid session only for a
    token that is not; without faults it accepts every good token. *)
Theorem Validate_exact token w :
  (let '(r, w') := Validate token w in
   w_db w' = w_db w ∧ w_rest w' = w_rest w ∧
   match r with
   | Ok sess => valid w token sess
   | Err e => e = ErrExternal ∨ e = ErrInvalid ∧ ∀ sess, ¬ valid w token sess
   end) ∧
  (∀ sess, w_faults w = [] → valid w token sess → Validate token w = (Ok sess, w)).
Proof.
  split.
  - destruct (Validate token w) as [r w'] eqn:E. apply Validate_spec in E as (?&?&_&?). auto.
  - intros sess Hf (Ht&Hs&Hn&Hc). unfold Validate. rewrite bool_decide_eq_false_2 by done.
    unfold WopiGet. rewrite run_bind, run_query_nil, Hs by done. rewrite run_bind. cbn [now gets].
    rewrite (proj2 (Z.ltb_ge _ _)) by done. rewrite run_bind, run_Check_nil by done.
    fold (obj (ws_ObjectID sess)). by rewrite Hc.
Qed.

Lemma Mint_spec subject objectID canWrite w token w' :
  (0 <= ttl)%Z → Mint subject objectID canWrite w = (Ok token, w') →
  token = base64url_encode (rand_bytes (w_draws w) 32) ∧
  (wopi_sessions (w_db w) !! hash token = None →
   wopi_sessions (w_db w') !! hash token = Some (MkSession objectID subject canWrite (w_now w + ttl))).
Proof.
  intros Httl E. unfold Mint in E. rewrite run_bind in E. cbn [draw] in E. rewrite run_bind in E. cbn [now gets] in E.
  set (tok := base64url_encode (rand_bytes (w_draws w) 32)) in *. cbv zeta in E. cbn [w_now] in E.
  set (sess := MkSession objectID subject canWrite (w_now w + ttl)) in *.
  apply bind_ok_inv in E as ([]&w2&E2&E). apply bind_ok_inv in E as ([]&w3&E3&E). injection E as <- <-.
  split; [done|]. intros Hn.
  apply stmt_cases in E2 as (_&_&_&[(e&[=]&_)|(a&d&Hf&D2&_)]). cbn in Hf. rewrite Hn in Hf. injection Hf as _ <-.
  unfold ignore in E3. injection E3 as <-.
  destruct (WopiDeleteExpired (w_now w) w2) as [r4 w4] eqn:E4.
  apply stmt_cases in E4 as (_&_&_&[(e&_&D4&_)|(a'&d&[= <- <-]&D4&_)]); cbn; rewrite D4, D2; cbn.
  - apply lookup_insert_eq.
  - apply map_lookup_filter_Some. split; [apply lookup_insert_eq|]. cbn. lia.
Qed.

(** a minted token opens its own session.  A token that was minted, whatever
    failed on the way, and whose hash was not in use, resolves until it expires to
    exactly the file, the user and the permission it was minted for, as long as
    its row is stored and the user has access. *)
Theorem Mint_Validate subject objectID canWrite w token w1 w2 :
  (0 <= ttl)%Z → wopi_sessions (w_db w) !! hash token = None →
  Mint subject objectID canWrite w = (Ok token, w1) →
  wopi_sessions (w_db w2) !! hash token = wopi_sessions (w_db w1) !! hash token →
  (w_now w2 <= w_now w + ttl)%Z → w_faults w2 = [] →
  fga_check (w_fga w2) (tuple subject AccessRelation (obj objectID)) = true →
  Validate token w2 = (Ok (MkSession objectID subject canWrite (w_now w + ttl)), w2).
Proof.
  intros Httl Hn E Hrow Hnow Hf Hc. destruct (Mint_spec _ _ _ _ _ _ Httl E) as [Htok Hs]. specialize (Hs Hn).
  assert (token ≠ "") as Ht.
  { rewrite Htok. apply base64url_nonempty. intros Hz. apply (f_equal length) in Hz. by rewrite rand_length in Hz. }
  unfold Validate. rewrite bool_decide_eq_false_2 by done.
  unfold WopiGet. rewrite run_bind, run_query_nil, Hrow, Hs by done. rewrite run_bind. cbn [now gets].
  cbn [ws_Expires]. rewrite (proj2 (Z.ltb_ge _ _)) by lia. rewrite run_bind, run_Check_nil by done.
  cbn [ws_Subject ws_ObjectID]. fold (obj objectID). by rewrite Hc.
Qed.

(** revocation is immediate.  After a revocation of a file's sessions that
    reported success, no token resolves to a session for that file, for as long as no
    new session is stored for it. *)
Theorem Revoke_closes objectID w w1 w2 token :
  Revoke objectID w = (Ok tt, w1) → wopi_sessions (w_db w2) = wopi_sessions (w_db w1) →
  ∀ sess w3, Validate token w2 = (Ok sess, w3) → ws_ObjectID sess ≠ objectID.
Proof.
  intros E Hs sess w3 (_&_&_&_&Hv&_)%Validate_spec. rewrite Hs in Hv.
  apply stmt_cases in E as (_&_&_&[(e&[=]&_)|(a&d&[= <- <-]&D1&_)]). rewrite D1 in Hv. cbn in Hv.
  by apply map_lookup_filter_Some in Hv as [_ Hv].
Qed.
End sessions.

(** ** Witnesses *)
Module Demo.
#[local] Existing Instance counting_platform.
#[local] Existing Instance owner_fga.

Definition file_tuple : fga_tuple := tuple demo_user "owner" (obj "f1").
Definition w0 : KW := set_fga {[file_tuple]} (boot kdb_empty).
Definition mint : M KW string := Mint 1000 demo_user "f1" true.
Definition token : string := match (mint w0).1 with Ok t => t | Err _ => "" end.
Definition w1 : KW := (mint w0).2.

Lemma mint_ok : mint w0 = (Ok token, w1).
Proof. exact (run_result mint w0 (Ok token) ltac:(vm_compute; reflexivity)). Defined.

Lemma Mint_Validate_witness :
  Validate token w1 = (Ok (MkSession "f1" demo_user true (w_now w0 + 1000)), w1).
Proof.
  apply (Mint_Validate 1000 demo_user "f1" true w0 token w1 w1).
  - lia.
  - reflexivity.
  - exact mint_ok.
  - reflexivity.
  - vm_compute. discriminate.
  - vm_compute. reflexivity.
  - vm_compute. reflexivity.
Defined.

(** A second session, for another file, survives the revocation of the first. *)
Definition mint2 : M KW string := Mint 1000 demo_user "f2" false.
Definition token2 : string := match (mint2 w1).1 with Ok t => t | Err _ => "" end.
Definition revoke : M KW unit := Revoke "f1".
Definition w1' : KW := set_fga {[file_tuple; tuple demo_user "owner" (obj "f2")]} (mint2 w1).2.
Definition w2 : KW := (revoke w1').2.
Definition sess2 : Session := MkSession "f2" demo_user false (w_now w0 + 1000).

Lemma revoke_ok : revoke w1' = (Ok tt, w2).
Proof. exact (run_result revoke w1' (Ok tt) ltac:(vm_compute; reflexivity)). Defined.

Definition check2 : M KW Session := Validate token2.
Lemma check2_ok : check2 w2 = (Ok sess2, (check2 w2).2).
Proof. exact (run_result check2 w2 (Ok sess2) ltac:(vm_compute; reflexivity)). Defined.

Example revoked : (Validate token w2).1 = Err ErrInvalid.
Proof. vm_compute. reflexivity. Qed.

Lemma Revoke_closes_witness : ws_ObjectID sess2 ≠ "f1".
Proof.
  pose proof revoke_ok as E1. pose proof check2_ok as E2. unfold revoke in E1. unfold check2 in E2.
  revert E1 E2. generalize w1' w2. intros x y E1 E2.
  exact (Revoke_closes "f1" x y y token2 E1 eq_refl sess2 _ E2).
Defined.
End Demo.
End Wopi.
