(* ===== verification/SubjectData.v ===== *)
(** * SubjectData: export and erasure of a person's files and folders

    kamara/internal/file/subject_data.go, the hooks Kamara registers with lib/pii.
    Erasure is a sequence of statements, not one transaction. *)

From S2P Require Import Prelude GoText Ids World Pii Pseudonym Conventions Authz Chunker ChunkCrypto Blob Engine Repo FileService FolderService.
Import Pii Chunker.

(** ** The order of folder deletion *)

Definition put_folder (m : gmap string Folder) (f : Folder) : gmap string Folder := <[f_ID f := f]> m.
Definition by_id (fs : list Folder) : gmap string Folder := foldl put_folder ∅ fs.

(** Steps from [cur] to a root among the set; a folder met twice ends the walk,
    so one step more than there are folders is enough ([depth_any_fuel]). *)
Fixpoint depth_loop (fuel : nat) (m : gmap string Folder) (seen : gset string) (cur : option string) : nat :=
  match fuel, cur with
  | S fuel', Some c =>
      if bool_decide (c ∈ seen) then 0
      else match m !! c with
           | None => 0
           | Some p => S (depth_loop fuel' m ({[c]} ∪ seen) (f_ParentID p))
           end
  | _, _ => 0
  end.

Definition depth (m : gmap string Folder) (f : Folder) : nat :=
  depth_loop (S (size m)) m {[f_ID f]} (f_ParentID f).

Definition deeper (m : gmap string Folder) (x y : Folder) : Prop := depth m y ≤ depth m x.
#[global] Instance deeper_dec m : RelDecision (deeper m).
Proof. intros x y. unfold deeper. apply _. Defined.

Definition deepestFirst (fs : list Folder) : list Folder := merge_sort (deeper (by_id fs)) fs.

(** ** The hooks *)
Record file_export := MkFileExport {
  xf_id : string; xf_name : string; xf_size : Z; xf_folder : option string; xf_created : Z; xf_permalink : string }.
Record folder_export := MkFolderExport {
  xd_id : string; xd_name : string; xd_parent : option string; xd_created : Z; xd_permalink : string }.
Record subject_export := MkSubjectExport { x_files : list file_export; x_folders : list folder_export }.

Definition export_file (o : Object) : file_export :=
  MkFileExport (o_ID o) (o_Name o) (o_Size o) (o_FolderID o) (o_Created o) (o_Permalink (o_ID o)).
Definition export_folder (f : Folder) : folder_export :=
  MkFolderExport (f_ID f) (f_Name f) (f_ParentID f) (f_Created f) (f_Permalink (f_ID f)).

Section hooks.
Context {P : Platform} {F : OpenFGA}.

Definition ExportSubject (s : Subject) : M KW (option subject_export) :=
  objs ← ByOwner s;
  fldrs ← FoldersByOwner s;
  mret (if bool_decide (objs = []) && bool_decide (fldrs = []) then None
        else Some (MkSubjectExport (export_file <$> objs) (export_folder <$> fldrs))).

Definition erase_object (s : Subject) (o : Object) : M KW unit :=
  hashes ← ChunkHashesOf (o_ID o);
  DeleteObject (o_ID o) ;;
  orphans ← DecRef hashes;
  DeleteChunks orphans ;;
  for_each orphans (λ h, ignore (Blob.Delete h)) ;;
  Remove (o_ID o) ;;
  match o_FolderID o with
  | None => mret tt
  | Some f => ignore (DeleteObjectTuple (folderObj f) ParentRelation (obj (o_ID o)))
  end ;;
  Authz.Delete s Relation (obj (o_ID o)).

Definition erase_folder (s : Subject) (f : Folder) : M KW unit :=
  DeleteFolderRow (f_ID f) ;;
  Remove (f_ID f) ;;
  match f_ParentID f with
  | None => mret tt
  | Some p => ignore (DeleteObjectTuple (folderObj p) ParentRelation (folderObj (f_ID f)))
  end ;;
  Authz.Delete s Relation (folderObj (f_ID f)).

Definition EraseSubject (s : Subject) : M KW unit :=
  objs ← ByOwner s;
  for_each objs (erase_object s) ;;
  fldrs ← FoldersByOwner s;
  for_each (deepestFirst fldrs) (erase_folder s).

Definition subjectData : SubjectData KDB subject_export := MkHooks ExportSubject EraseSubject.
End hooks.

(** ** The walk to the root ends by itself *)
Lemma unseen_shrinks (m : gmap string Folder) (seen : gset string) c :
  is_Some (m !! c) → c ∉ seen → size (dom m ∖ ({[c]} ∪ seen)) < size (dom m ∖ seen).
Proof.
  intros Hc Hs. apply subset_size. split; [set_solver|]. intros Hsub.
  assert (c ∈ dom m ∖ seen) as Hin by (apply elem_of_difference; split; [by apply elem_of_dom|done]).
  apply Hsub in Hin. set_solver.
Qed.

(** Beyond the number of folders not met yet, more fuel changes nothing: also
    where the parent links form a cycle. *)
Lemma depth_loop_fuel m fuel fuel' seen cur :
  size (dom m ∖ seen) < fuel → size (dom m ∖ seen) < fuel' →
  depth_loop fuel m seen cur = depth_loop fuel' m seen cur.
Proof.
  revert fuel' seen cur. induction fuel as [|fuel IH]; intros fuel' seen cur Hf Hf'; [lia|].
  destruct fuel' as [|fuel']; [lia|]. cbn. destruct cur as [c|]; [|done].
  case_bool_decide as Hc; [done|]. destruct (m !! c) as [p|] eqn:Ec; [|done]. f_equal.
  pose proof (unseen_shrinks m seen c ltac:(eauto) Hc). apply IH; lia.
Qed.

Lemma depth_any_fuel m f fuel :
  size m < fuel → depth_loop fuel m {[f_ID f]} (f_ParentID f) = depth m f.
Proof.
  intros Hf. unfold depth. assert (size (dom m ∖ {[f_ID f]}) ≤ size m).
  { rewrite <- (size_dom (D := gset string) m). apply subseteq_size. set_solver. }
  apply depth_loop_fuel; lia.
Qed.
