(* ===== verification/KamaraSafety.v ===== *)
(** * KamaraSafety: no operation loses, corrupts or leaks a file

    The world invariant of Kamara (database invariant and every stored blob
    opens) and the relation [evolves]: what an operation may do to a world,
    namely keep the invariant and leave every file of the kept
    set [K] with its versions, its manifests and its blobs.  Every operation of the
    domain is shown to evolve the world, under every fault script. *)

From S2P Require Import Prelude GoText Ids World Pii Pseudonym Conventions Authz Chunker ChunkCrypto Blob Engine Repo RepoInv FileService FolderService Wopi.
Import Pii Chunker.

Section safety.
Context {Pr : Primitives} {PrOk : PrimitivesOk} {P : Platform} {F : OpenFGA} {Mi : Mime}.
Context {Lk : Leaks}.
Context (s : Service).
Abbreviation c := (s_cipher s).

Definition kam_inv (w : KW) : Prop :=
  db_inv (w_blobs w) (w_db w) ∧ blobs_ok c (w_blobs w).

(** What happens to the database, relative to the stored blobs [B]. *)
Definition db_step (K : string → Prop) (B : gmap string bytes) (d0 d : KDB) : Prop :=
  db_inv B d ∧ ∀ oid, K oid →
    same_file oid d0 d ∧ (is_Some (objects d0 !! oid) → is_Some (objects d !! oid)).

(** The blobs of the kept files stay as they are. *)
Definition blobs_kept (K : string → Prop) (d0 : KDB) (B0 B : gmap string bytes) : Prop :=
  ∀ oid k v r, K oid → versions d0 !! k = Some (VRow oid v) → r ∈ own_rows k d0 →
    B !! m_hash r = B0 !! m_hash r.

Definition evolves (K : string → Prop) (w0 w : KW) : Prop :=
  db_step K (w_blobs w) (w_db w0) (w_db w) ∧ blobs_ok c (w_blobs w) ∧
  blobs_kept K (w_db w0) (w_blobs w0) (w_blobs w).

Lemma evolves_inv K w0 w : evolves K w0 w → kam_inv w.
Proof. intros ([? _]&?&_). by split. Qed.

Lemma evolves_refl K w : kam_inv w → evolves K w w.
Proof. intros [H1 H2]. split_and!; [split|..]; done. Qed.

Lemma evolves_trans K w0 w1 w2 : evolves K w0 w1 → evolves K w1 w2 → evolves K w0 w2.
Proof.
  intros ([A1 A2]&_&A3) ([B1 B2]&B4&B3). split_and!; [split; [done|]|done|].
  - intros oid Hn. destruct (A2 oid Hn) as [? ?], (B2 oid Hn) as [? ?].
    split; [by etrans|auto].
  - intros oid k v r Hn Hk Hr. destruct (A2 oid Hn) as [[Hv Hrows] _].
    rewrite (B3 oid k v r Hn); [by eapply A3|by apply Hv|by rewrite (Hrows k v)].
Qed.

Lemma evolves_stores K w0 : stores_only (evolves K w0).
Proof.
  intros w w' Hd Hr. injection Hr as Hb _. unfold evolves. by rewrite Hd, Hb.
Qed.

Lemma evolves_fga K w0 : ignores_fga (evolves K w0).
Proof. split; [apply evolves_stores|done]. Qed.

Lemma db_step_trans K B d0 d1 d2 : db_step K B d0 d1 → db_step K B d1 d2 → db_step K B d0 d2.
Proof.
  intros [A1 A2] [B1 B2]. split; [done|]. intros oid Hn.
  destruct (A2 oid Hn) as [? ?], (B2 oid Hn) as [? ?]. split; [by etrans|auto].
Qed.

(** A statement that leaves versions, manifests and the set of files alone. *)
Lemma db_step_quiet K B d0 d :
  db_inv B d → versions d = versions d0 → version_chunks d = version_chunks d0 →
  (∀ i, is_Some (objects d0 !! i) → is_Some (objects d !! i)) → db_step K B d0 d.
Proof. intros H1 H2 H3 H4. split; [done|]. intros oid _. split; [by apply same_file_tables|auto]. Qed.

Lemma db_step_conv K B d0 cv :
  db_inv B d0 → one_token (subject_pseudonyms cv) → db_step K B d0 (with_conv cv d0).
Proof. intros H1 H2. apply db_step_quiet; [by apply inv_with_conv|done..]. Qed.

(** ** Transactions *)

(** The body of a transaction keeps the database evolving. *)
Definition tx_evolves {A} (K : string → Prop) (B : gmap string bytes) (m : M KW A)
    (R : A → KDB → Prop) : Prop :=
  ∀ d0, db_inv B d0 → txspec (λ d, d = d0) m (λ a d, db_step K B d0 d ∧ R a d).

Lemma tx_evolves_bind {A X} K B (m : M KW A) (k : A → M KW X) R S :
  tx_evolves K B m R →
  (∀ a d1, db_inv B d1 → R a d1 → txspec (λ d, d = d1) (k a) (λ x d, db_step K B d1 d ∧ S x d)) →
  tx_evolves K B (m ≫= k) S.
Proof.
  intros Hm Hk d0 HI. eapply txspec_bind; [by apply Hm|]. intros a w [Hs HR].
  destruct (Hk a (w_db w) (proj1 Hs) HR w eq_refl) as [H1 H2]. split; [done|].
  intros x Hx. destruct (H2 x Hx) as [H3 H4]. split; [by eapply db_step_trans|done].
Qed.

Lemma tx_evolves_query {A} K B (f : KDB → A) : tx_evolves K B (query f) (λ a d, a = f d).
Proof.
  intros d0 HI. eapply txspec_weaken; [apply txspec_query|exact (λ _ H, H)|].
  intros a d [-> ->]. split; [|done]. by apply db_step_quiet.
Qed.

Lemma tx_evolves_ret {A} K B (a : A) : tx_evolves K B (mret a) (λ x _, x = a).
Proof.
  intros d0 HI w Hw. split; [done|]. intros x [= <-]. cbn. rewrite Hw. split; [|done].
  by apply db_step_quiet.
Qed.

Lemma tx_evolves_throw {A} K B e (R : A → KDB → Prop) : tx_evolves K B (throw e) R.
Proof. intros d0 HI. apply txspec_throw. Qed.

Lemma tx_evolves_weaken {A} K B (m : M KW A) (R R' : A → KDB → Prop) :
  tx_evolves K B m R → (∀ a d, R a d → R' a d) → tx_evolves K B m R'.
Proof.
  intros H HR d0 HI. eapply txspec_weaken; [by apply H|exact (λ _ H, H)|]. intros a d [? ?]. auto.
Qed.

Lemma tx_evolves_Emit K B actor action ao :
  tx_evolves K B (Emit actor action ao) (λ _ _, True).
Proof.
  intros d0 HI. eapply txspec_weaken; [apply tx_Emit, (inv_token _ _ HI)|exact (λ _ H, H)|].
  intros a d (cv&->&H&_). split; [by apply db_step_conv|done].
Qed.

Lemma tx_evolves_Feed K B doc : tx_evolves K B (Feed doc) (λ _ _, True).
Proof.
  intros d0 HI. eapply txspec_weaken; [apply tx_Feed|exact (λ _ H, H)|]. intros a d ->.
  split; [|done]. apply db_step_conv; [done|apply (inv_token _ _ HI)].
Qed.

Lemma tx_evolves_Remove K B i : tx_evolves K B (Remove i) (λ _ _, True).
Proof.
  intros d0 HI. eapply txspec_weaken; [apply tx_Remove|exact (λ _ H, H)|]. intros a d ->.
  split; [|done]. apply db_step_conv; [done|apply (inv_token _ _ HI)].
Qed.

(** The transaction rule: the world evolves whatever happens, and a success
    leaves the postcondition of the body. *)
Lemma InTx_evolves {A} K (fn : M KW A) (R : A → KDB → Prop) w0 w r w' :
  evolves K w0 w →
  txspec (λ d, d = w_db w) fn (λ a d, db_step K (w_blobs w) (w_db w) d ∧ R a d) →
  InTx fn w = (r, w') →
  evolves K w0 w' ∧ w_rest w' = w_rest w ∧ ∀ a, r = Ok a → R a (w_db w').
Proof.
  intros HE Hfn E. pose proof HE as ([HI _]&Hok&_).
  destruct (InTx_txspec _ _ _ _ _ _ Hfn eq_refl E) as [Hr H].
  assert (w_blobs w' = w_blobs w) as Hb by (by injection Hr).
  destruct H as [[Hd Hno]|(a&[Hs HR]&Hres)].
  - split_and!; [by apply (evolves_stores K w0 w)|done|]. by intros a ->.
  - split_and!; [|done|].
    + apply (evolves_trans K w0 w); [done|]. split_and!; rewrite Hb; done.
    + intros b ->. by destruct Hres as [[= <-]|[=]].
Qed.

Lemma keeps_InTx_evolves {A} K (fn : M KW A) w0 :
  (∀ B, tx_evolves K B fn (λ _ _, True)) → keeps (evolves K w0) (InTx fn).
Proof.
  intros H w Hw. destruct (InTx fn w) as [r w'] eqn:E.
  by destruct (InTx_evolves K fn _ w0 w r w' Hw (H _ _ (proj1 (evolves_inv K w0 w Hw))) E).
Qed.

#[local] Hint Resolve evolves_stores evolves_fga : go.

(** ** Steps outside transactions *)
Lemma evolves_grows K w0 w w' l : evolves K w0 w → grows c l w w' → evolves K w0 w'.
Proof.
  intros HE HG. apply (evolves_trans K w0 w); [done|].
  pose proof HE as ([HI _]&Hok&_). pose proof HG as (Hd&_&_&Hs&_).
  assert (∀ r, r ∈ version_chunks (w_db w) → w_blobs w' !! m_hash r = w_blobs w !! m_hash r) as Hb.
  { intros r Hr. destruct (inv_blobs _ _ HI r Hr) as [b Hb]. rewrite Hb. by eapply lookup_weaken. }
  split_and!.
  - rewrite Hd. apply db_step_quiet; [|done..]. eapply inv_blobs_weaken; [|done].
    intros r Hr. by rewrite Hb.
  - by eapply grows_blobs_ok.
  - intros oid k v r _ _ [_ Hr]%list_elem_of_filter. auto.
Qed.

Definition refs_present (refs : list ChunkRef) (w : KW) : Prop :=
  ∀ ref, ref ∈ refs → is_Some (w_blobs w !! cr_Hash ref).

Lemma triple_Ingest K w0 body :
  triple (evolves K w0) (Ingest c body) (λ r w, evolves K w0 w ∧
    ∀ refs total, r = Ok (refs, total) → refs_present refs w).
Proof.
  intros w Hw. destruct (Ingest_spec c body w) as (l&o&_&HG&H).
  split; [by eapply evolves_grows|]. intros refs total Hr.
  destruct (H refs total Hr) as (_&->&_&Hl). intros ref (x&->&Hx)%list_elem_of_fmap. by apply Hl.
Qed.

Lemma refs_present_stores K w0 refs : stores_only (λ w, evolves K w0 w ∧ refs_present refs w).
Proof.
  intros w w' Hd Hr [H1 H2]. split; [by apply (evolves_stores K w0 w)|]. injection Hr as Hb _.
  unfold refs_present. by rewrite <- Hb.
Qed.

(** Deleting a blob that no manifest row names. *)
Lemma keeps_Delete_orphan K w0 (Q : KDB → Prop) h :
  (∀ d, Q d → refs_to h d = 0) →
  keeps (λ w, evolves K w0 w ∧ Q (w_db w)) (Blob.Delete h).
Proof.
  intros HQ w [HE Hw]. destruct (Blob.Delete h w) as [r w'] eqn:E.
  apply Delete_cases in E as [Ho Hb]. injection Ho as Hd Hf Hn. cbn [snd]. rewrite Hd. split; [|done].
  apply (evolves_trans K w0 w); [done|]. pose proof HE as ([HI _]&Hok&_).
  assert (∀ r, r ∈ version_chunks (w_db w) → w_blobs w' !! m_hash r = w_blobs w !! m_hash r) as Hk.
  { intros q Hq. destruct Hb as [[-> _]| ->]; [done|]. apply lookup_delete_ne. intros ->.
    specialize (HQ _ Hw). assert (0 < refs_to (m_hash q) (w_db w)); [|lia].
    apply refs_to_pos. eauto. }
  split_and!.
  - rewrite Hd. apply db_step_quiet; [|done..]. eapply inv_blobs_weaken; [|done].
    intros q Hq. by rewrite Hk.
  - destruct Hb as [[-> _]| ->]; [done|]. intros h' [b Hl].
    apply lookup_delete_Some in Hl as [Hne Hl]. destruct (Hok h') as [pt (b'&Hb'&Hop)]; [eauto|].
    exists pt, b'. by rewrite lookup_delete_ne.
  - intros oid k v q _ _ [_ Hq]%list_elem_of_filter. auto.
Qed.

Definition unreferenced (hs : list string) (d : KDB) : Prop := ∀ h, h ∈ hs → refs_to h d = 0.

Lemma keeps_reclaim_blobs K w0 hs :
  keeps (λ w, evolves K w0 w ∧ unreferenced hs (w_db w)) (reclaim_blobs hs).
Proof.
  apply keeps_for_each. intros h Hh. apply keeps_ignore, keeps_Delete_orphan. auto.
Qed.

Lemma triple_reclaim_blobs K w0 hs :
  triple (λ w, evolves K w0 w ∧ unreferenced hs (w_db w)) (reclaim_blobs hs) (λ _, evolves K w0).
Proof.
  intros w Hw. by destruct (keeps_reclaim_blobs K w0 hs w Hw).
Qed.

Lemma evolves_sessions K w0 w m :
  evolves K w0 w → evolves K w0 (set_db (with_sessions m (w_db w)) w).
Proof.
  intros HE. apply (evolves_trans K w0 w); [done|]. pose proof HE as ([HI _]&Hok&_).
  split_and!; [|done|done]. apply db_step_quiet; [by apply inv_sessions|done..].
Qed.

Lemma keeps_sessions_stmt K w0 (f : gmap string Session → gmap string Session) :
  keeps (evolves K w0) (stmt (λ d, Ok (tt, with_sessions (f (wopi_sessions d)) d))).
Proof.
  apply keeps_stmt; [apply evolves_stores|]. intros w a d HE [= <- <-]. by apply evolves_sessions.
Qed.

Lemma keeps_Mint K w0 ttl subject i canWrite :
  keeps (evolves K w0) (Wopi.Mint ttl subject i canWrite).
Proof.
  unfold Wopi.Mint. apply keeps_bind; [apply keeps_draw, evolves_stores|intros raw].
  apply keeps_bind; [apply keeps_gets|intros t].
  apply keeps_bind; [|intros _; apply keeps_bind; [apply keeps_ignore, (keeps_sessions_stmt K w0)|intros _; apply keeps_ret]].
  apply keeps_stmt; [apply evolves_stores|]. intros w a d HE. case_match; intros [= <- <-].
  - by rewrite set_db_id.
  - by apply evolves_sessions.
Qed.

Lemma keeps_revoke_sessions K w0 i : keeps (evolves K w0) (revoke_sessions s i).
Proof.
  unfold revoke_sessions. destruct (s_revoker s); [|apply keeps_ret].
  apply keeps_ignore, (keeps_sessions_stmt K w0).
Qed.

Lemma keeps_authorizeAccess K w0 caller o : keeps (evolves K w0) (authorizeAccess caller o).
Proof. unfold authorizeAccess. keeps_tac. Qed.

Lemma keeps_fga K w0 f : keeps (evolves K w0) (fga_update f).
Proof. apply keeps_fga_update, evolves_fga. Qed.

#[local] Hint Resolve keeps_authorizeAccess keeps_fga keeps_revoke_sessions : go.

(** ** The transactions of the file domain *)
Lemma tx_evolves_InsertObject K B o :
  tx_evolves K B (InsertObject o) (λ _ d, True).
Proof.
  intros d0 HI. eapply txspec_weaken; [apply tx_InsertObject|exact (λ _ H, H)|].
  intros _ d (->&H1&H2). split; [|done]. apply db_step_quiet; [by apply inv_add_object|done..|].
  intros i Hi. cbn. rewrite lookup_insert_is_Some. destruct (decide (o_ID o = i)); auto.
Qed.

Lemma tx_evolves_InsertVersion (K : string → Prop) B oid vid ordinal size refs :
  ¬ K oid → (∀ ref, ref ∈ refs → is_Some (B !! cr_Hash ref)) →
  tx_evolves K B (InsertVersion oid vid ordinal size refs) (λ _ _, True).
Proof.
  intros HT HB d0 HI. eapply txspec_weaken; [by apply (tx_InsertVersion B)|by intros d ->|].
  intros _ d (HI'&H1&H2&t&->). split; [|done]. split; [done|]. intros oid' Hn.
  assert (oid' ≠ oid) by (by intros ->). split.
  - etrans; [by apply (same_file_add_version oid' oid vid ordinal size t)|].
    apply same_file_add_refs. cbn. intros v. rewrite lookup_insert_eq. congruence.
  - intros Hi. clear -Hi. revert Hi. generalize 0 as idx.
    change (objects d0) with (objects (add_version oid vid ordinal size t d0)).
    generalize (add_version oid vid ordinal size t d0) as d.
    induction refs as [|ref refs IH]; intros d idx Hi; cbn; [done|]. by apply IH.
Qed.

Lemma tx_evolves_SetObjectSize K B i size : tx_evolves K B (SetObjectSize i size) (λ _ _, True).
Proof.
  intros d0 HI. unfold SetObjectSize, stmt_now. eapply txspec_bind.
  { apply (txspec_keeps (λ d, d = d0)). intros rest. apply keeps_gets. }
  intros t. apply txspec_stmt. intros d a d' -> [= <- <-]. split; [|done].
  apply db_step_quiet; [|done..|].
  - apply inv_update_object; [done| |done]. intros o p H1 H2. by eapply (inv_ofolder _ _ HI).
  - intros j Hj. cbn. unfold update_row. destruct (decide (i = j)) as [->|].
    + by rewrite lookup_alter_eq, fmap_is_Some.
    + by rewrite lookup_alter_ne.
Qed.

Lemma tx_reclaimObject i d0 :
  txspec (λ d, d = d0) (reclaimObject i)
    (λ orphans d, orphans = reclaim_orphans i d0 ∧ d = reclaim_db i d0).
Proof.
  unfold reclaimObject. eapply txspec_bind.
  { eapply txspec_weaken; [apply txspec_query|exact (λ _ H, H)|exact (λ _ _ H, H)]. }
  intros hashes. apply (txspec_pure _ (hashes = chunk_hashes_of i d0)); [by intros d [-> ->]|].
  intros ->. eapply txspec_bind.
  { apply (txspec_stmt _ _ (λ _ d, d = delete_object i d0)).
    intros d a d' [_ ->] [= <- <-]. done. }
  intros []. eapply txspec_bind; [apply tx_DecRef|]. intros orphans. cbv zeta.
  apply (txspec_pure _ (orphans = reclaim_orphans i d0)); [by intros d [-> ->]|]. intros ->.
  eapply txspec_bind.
  { eapply txspec_weaken; [apply (tx_DeleteChunks _ (released i d0))|by intros d [-> _]|].
    exact (λ _ _ H, H). }
  intros []. eapply txspec_weaken; [apply txspec_ret|exact (λ _ H, H)|]. by intros a d [-> ->].
Qed.

Lemma db_step_reclaim (K : string → Prop) B i d0 :
  ¬ K i → db_inv B d0 → db_step K B d0 (reclaim_db i d0).
Proof.
  intros HT HI. split; [by apply inv_reclaim|]. intros oid Hn. assert (oid ≠ i) by (by intros ->).
  split; [by eapply same_file_reclaim|]. intros Hi. cbn. by rewrite lookup_delete_ne.
Qed.

Lemma refs_to_reclaim i d h : refs_to h (reclaim_db i d) ≤ refs_to h d.
Proof.
  rewrite (refs_to_delete i d h). change (refs_to h (reclaim_db i d)) with (refs_to h (delete_object i d)).
  lia.
Qed.

Lemma tx_evolves_seq {A X} K B (m : M KW A) (k : A → M KW X) R S :
  tx_evolves K B m R → (∀ a, tx_evolves K B (k a) S) → tx_evolves K B (m ≫= k) S.
Proof.
  intros Hm Hk. eapply tx_evolves_bind; [done|]. intros a d1 HI _. by apply Hk.
Qed.

(** Unreferenced hashes stay so while nothing is added to the manifests. *)
Lemma tx_unreferenced_conv {A} K B (m : M KW A) hs :
  (∀ d0, db_inv B d0 → txspec (λ d, d = d0) m
      (λ _ d, ∃ cv, d = with_conv cv d0 ∧ one_token (subject_pseudonyms cv))) →
  ∀ d0, db_inv B d0 → unreferenced hs d0 →
    txspec (λ d, d = d0) m (λ _ d, db_step K B d0 d ∧ unreferenced hs d).
Proof.
  intros H d0 HI Hu. eapply txspec_weaken; [by apply H|exact (λ _ H, H)|].
  intros a d (cv&->&Hc). split; [by apply db_step_conv|done].
Qed.

Lemma tx_Emit_conv B actor action ao d0 :
  db_inv B d0 → txspec (λ d, d = d0) (Emit actor action ao)
      (λ _ d, ∃ cv, d = with_conv cv d0 ∧ one_token (subject_pseudonyms cv)).
Proof.
  intros HI. eapply txspec_weaken; [apply tx_Emit, (inv_token _ _ HI)|exact (λ _ H, H)|].
  intros a d (cv&->&H&_). eauto.
Qed.

Lemma tx_Remove_conv B i d0 :
  db_inv B d0 → txspec (λ d, d = d0) (Remove i)
      (λ _ d, ∃ cv, d = with_conv cv d0 ∧ one_token (subject_pseudonyms cv)).
Proof.
  intros HI. eapply txspec_weaken; [apply tx_Remove|exact (λ _ H, H)|]. intros a d ->.
  eexists. split; [done|]. apply (inv_token _ _ HI).
Qed.

(** The kept files exist. *)
Definition kept_exist (K : string → Prop) (d : KDB) : Prop := ∀ i, K i → is_Some (objects d !! i).

Lemma evolves_exist K w0 w : kept_exist K (w_db w0) → evolves K w0 w → kept_exist K (w_db w).
Proof. intros H ([_ Hs]&_) i Hi. by apply (Hs i Hi), H. Qed.

(** A new file cannot take the id of a kept one: its INSERT would fail. *)
Lemma tx_evolves_upload K B o verID refs d0 :
  db_inv B d0 → kept_exist K d0 → (∀ ref, ref ∈ refs → is_Some (B !! cr_Hash ref)) →
  txspec (λ d, d = d0) (InsertObject o ;; InsertVersion (o_ID o) verID 0 (o_Size o) refs ;;
    Emit (o_Owner o) "kamara.file.created" (file_audit (o_ID o)) ;;
    Feed (file_doc (o_ID o) (o_Owner o) (o_Name o))) (λ _ d, db_step K B d0 d ∧ True).
Proof.
  intros HI HK HB. destruct (objects d0 !! o_ID o) as [o'|] eqn:Eo.
  { eapply txspec_bind; [apply tx_InsertObject|]. intros [] w (_&H&_). congruence. }
  assert (¬ K (o_ID o)) as HT by (intros Hk; destruct (HK _ Hk); congruence).
  revert d0 HI HK Eo.
  cut (tx_evolves K B (InsertObject o ;; InsertVersion (o_ID o) verID 0 (o_Size o) refs ;;
    Emit (o_Owner o) "kamara.file.created" (file_audit (o_ID o)) ;;
    Feed (file_doc (o_ID o) (o_Owner o) (o_Name o))) (λ _ _, True)).
  { intros H d0 HI _ _. by apply H. }
  eapply tx_evolves_seq; [apply tx_evolves_InsertObject|intros _].
  eapply tx_evolves_seq; [by apply tx_evolves_InsertVersion|intros _].
  eapply tx_evolves_seq; [apply tx_evolves_Emit|intros _]. apply tx_evolves_Feed.
Qed.

Lemma tx_evolves_write_version (K : string → Prop) B caller oid verID base refs total :
  ¬ K oid → (∀ ref, ref ∈ refs → is_Some (B !! cr_Hash ref)) →
  tx_evolves K B (m ← MaxOrdinal oid;
    match m with
    | None => throw ErrNotFound
    | Some maxOrd =>
        if match base with Some b => negb (bool_decide (maxOrd = b)) | None => false end
        then throw ErrModified
        else
          InsertVersion oid verID (maxOrd + 1)%Z total refs ;;
          SetObjectSize oid total ;;
          Emit caller "kamara.file.version_written" (file_audit oid) ;;
          mret (maxOrd + 1)%Z
    end) (λ _ _, True).
Proof.
  intros HT HB. eapply tx_evolves_seq; [apply tx_evolves_query|]. intros [maxOrd|].
  2: { apply tx_evolves_throw. }
  destruct (match base with Some b => _ | None => _ end); [apply tx_evolves_throw|].
  eapply tx_evolves_seq; [by apply tx_evolves_InsertVersion|intros _].
  eapply tx_evolves_seq; [apply tx_evolves_SetObjectSize|intros _].
  eapply tx_evolves_seq; [apply tx_evolves_Emit|intros _].
  eapply tx_evolves_weaken; [apply tx_evolves_ret|done].
Qed.

Lemma tx_evolves_delete (K : string → Prop) B caller oid :
  ¬ K oid →
  tx_evolves K B (
    Emit caller "kamara.file.deleted" (file_audit oid) ;;
    o ← GetObject oid;
    orphans ← reclaimObject oid;
    Remove oid ;;
    mret (orphans, o ≫= o_FolderID)) (λ r d, unreferenced r.1 d).
Proof.
  intros HT. eapply tx_evolves_seq; [apply tx_evolves_Emit|intros _].
  eapply tx_evolves_seq; [apply tx_evolves_query|intros o].
  eapply (tx_evolves_bind _ _ _ _ (λ orphans d, unreferenced orphans d)).
  { intros d0 HI. eapply txspec_weaken; [apply tx_reclaimObject|exact (λ _ H, H)|].
    intros a d [-> ->]. split; [by apply db_step_reclaim|].
    intros h Hh. by eapply orphans_unreferenced. }
  intros orphans d1 HI1 Hu.
  eapply txspec_bind.
  { apply (tx_unreferenced_conv K B _ orphans (tx_Remove_conv B oid)); done. }
  intros []. eapply txspec_weaken; [apply txspec_ret|exact (λ _ H, H)|]. by intros a d [-> ?].
Qed.

(** ** Operations on files *)


(** ** Operations on files *)
Lemma keeps_upload_commit K w0 owner folderID name refs total :
  kept_exist K (w_db w0) →
  triple (λ w, evolves K w0 w ∧ refs_present refs w)
    (upload_commit owner folderID name refs total) (λ _, evolves K w0).
Proof.
  intros HK. pose proof (refs_present_stores K w0 refs) as HS. unfold upload_commit.
  apply triple_keeps; [apply keeps_gets|by intros e w [? _]|intros t].
  apply triple_keeps; [by apply keeps_new_id|by intros e w [? _]|intros i].
  apply triple_keeps; [by apply keeps_new_id|by intros e w [? _]|intros verID].
  apply (triple_bind _ _ _ (λ _, evolves K w0)).
  - intros w [HE HR]. destruct (upload_tx _ _ _ w) as [r w'] eqn:E.
    assert (evolves K w0 w') by (eapply InTx_evolves; [exact HE| |exact E];
      apply tx_evolves_upload; [apply (evolves_inv K w0 w HE)|by eapply evolves_exist|exact HR]).
    by destruct r.
  - intros []. change (keeps (evolves K w0) (wrap_err "file: writing owner tuple" (Write owner Relation (obj i)) ;;
      match folderID with None => mret tt | Some f => wrap_err "file: writing parent tuple"
                (WriteObjectTuple (folderObj f) ParentRelation (obj i)) end ;;
      mret (MkObject i owner name total folderID (contentTypeOf name) t t))).
    unfold Write, WriteObjectTuple. keeps_tac.
Qed.

Lemma keeps_Upload K w0 owner folderID name body :
  kept_exist K (w_db w0) → keeps (evolves K w0) (Upload s owner folderID name body).
Proof.
  intros HK. unfold Upload. case_bool_decide; [apply keeps_throw|].
  apply keeps_bind; [unfold authorizeFolder; keeps_tac|intros _].
  apply (triple_bind _ _ _ (λ r w, evolves K w0 w ∧ refs_present r.1 w)).
  - eapply triple_weaken; [apply triple_Ingest|exact (λ _ H, H)|].
    intros [[refs total]|e] w [H1 H2]; [eauto|done].
  - intros [refs total]. by apply keeps_upload_commit.
Qed.

Lemma keeps_write_version_tx K w0 caller oid verID base refs total :
  ¬ K oid →
  triple (λ w, evolves K w0 w ∧ refs_present refs w)
    (write_version_tx caller oid verID base refs total)
    (λ _ w, evolves K w0 w ∧ refs_present refs w).
Proof.
  intros HK w [HE HR]. destruct (write_version_tx _ _ _ _ _ _ w) as [r w'] eqn:E.
  apply (InTx_evolves K _ (λ _ _, True) w0 w r w' HE) in E as (H1&H2&_).
  - split; [done|]. injection H2 as Hb _. cbn. unfold refs_present. by rewrite Hb.
  - apply tx_evolves_write_version; [done|exact HR|apply (evolves_inv K w0 w HE)].
Qed.

Lemma keeps_write_version_loop K w0 left caller oid base refs total :
  ¬ K oid →
  triple (λ w, evolves K w0 w ∧ refs_present refs w)
    (write_version_loop left caller oid base refs total) (λ _, evolves K w0).
Proof.
  intros HK. induction left as [|left IH]; cbn [write_version_loop].
  all: apply triple_keeps; [apply keeps_new_id, refs_present_stores|by intros e w [? _]|intros verID].
  all: eapply triple_try; [by apply keeps_write_version_tx|]; intros [ord|e];
    [by apply triple_ret; intros w [? _]|].
  all: destruct (errors_is e ErrVersionConflict); [|by apply triple_throw; intros w [? _]].
  - by apply triple_throw; intros w [? _].
  - destruct left; [by apply triple_throw; intros w [? _]|exact IH].
Qed.

Lemma keeps_writeVersion K w0 caller oid body base :
  ¬ K oid → keeps (evolves K w0) (writeVersion s caller oid body base).
Proof.
  intros HK. unfold writeVersion, authorize.
  apply keeps_bind; [auto with go|intros _].
  apply (triple_bind _ _ _ (λ r w, evolves K w0 w ∧ refs_present r.1 w)).
  - eapply triple_weaken; [apply triple_Ingest|exact (λ _ H, H)|].
    intros [[refs total]|e] w [H1 H2]; [eauto|done].
  - intros [refs total]. by apply keeps_write_version_loop.
Qed.

Lemma triple_delete_tx K w0 caller oid :
  ¬ K oid →
  triple (evolves K w0) (delete_tx caller oid)
    (λ r w, evolves K w0 w ∧ ∀ x, r = Ok x → unreferenced x.1 (w_db w)).
Proof.
  intros HK w HE. destruct (delete_tx caller oid w) as [r w'] eqn:E.
  apply (InTx_evolves K _ (λ x d, unreferenced x.1 d) w0 w r w' HE) in E as (H1&H2&H3); [done|].
  apply tx_evolves_delete; [done|apply (evolves_inv K w0 w HE)].
Qed.

Lemma keeps_Delete_ K w0 caller oid :
  ¬ K oid → keeps (evolves K w0) (Delete_ s caller oid).
Proof.
  intros HK. unfold Delete_, authorize. apply keeps_bind; [auto with go|intros _].
  apply (triple_bind _ _ _ (λ r w, evolves K w0 w ∧ unreferenced r.1 (w_db w))).
  - eapply triple_weaken; [by apply triple_delete_tx|exact (λ _ H, H)|].
    intros [x|e] w [H1 H2]; [eauto|done].
  - intros [orphans folderID]. unfold delete_cleanup. cbn [fst snd].
    apply (triple_bind _ _ _ (λ _, evolves K w0)).
    + eapply triple_weaken; [apply triple_reclaim_blobs|exact (λ _ H, H)|]. by intros [[]|e].
    + intros _. unfold DeleteObjectTuple, Authz.Delete.
      match goal with |- triple _ ?m _ => change (keeps (evolves K w0) m) end. keeps_tac.
Qed.

(** ** Statements on folders and locations *)
Lemma txspec_now {A} (d0 : KDB) (f : Z → KDB → res (A * KDB)) (R : A → KDB → Prop) :
  (∀ t a d, f t d0 = Ok (a, d) → R a d) → txspec (λ d, d = d0) (stmt_now f) R.
Proof.
  intros H. unfold stmt_now. eapply txspec_bind.
  { apply (txspec_keeps (λ d, d = d0)). intros rest. apply keeps_gets. }
  intros t. apply txspec_stmt. intros d a d' ->. apply H.
Qed.

Lemma update_row_is_Some {A} (f : A → A) i (tbl : gmap string A) j :
  is_Some (tbl !! j) → is_Some (update_row f i tbl !! j).
Proof.
  intros H. unfold update_row. destruct (decide (i = j)) as [->|].
  - by rewrite lookup_alter_eq, fmap_is_Some.
  - by rewrite lookup_alter_ne.
Qed.

Lemma tx_evolves_SetObjectName K B i name : tx_evolves K B (SetObjectName i name) (λ _ _, True).
Proof.
  intros d0 HI. apply txspec_now. intros t a d [= <- <-]. split; [|done].
  apply db_step_quiet; [|done..|intros; by apply update_row_is_Some].
  apply inv_update_object; [done| |done]. intros o p H1 H2. by eapply (inv_ofolder _ _ HI).
Qed.

Lemma tx_evolves_SetObjectFolder K B i dest : tx_evolves K B (SetObjectFolder i dest) (λ _ _, True).
Proof.
  intros d0 HI. apply txspec_now. intros t a d. destruct (_ && _) eqn:Eg; [done|].
  intros [= <- <-]. split; [|done].
  apply db_step_quiet; [|done..|intros; by apply update_row_is_Some].
  apply inv_update_object; [done| |done]. intros o p Ho Hp. cbn in Hp.
  apply andb_false_iff in Eg as [Eg|Eg].
  - apply bool_decide_eq_false in Eg. destruct Eg. eauto.
  - apply negb_false_iff in Eg. by eapply fk_ok_true.
Qed.

Lemma tx_evolves_InsertFolder K B f : tx_evolves K B (InsertFolder f) (λ _ _, True).
Proof.
  intros d0 HI. apply txspec_stmt. intros d a d' ->. case_bool_decide as H1; [done|].
  destruct (fk_ok _ _) eqn:Ef; [|done]. intros [= <- <-]. split; [|done].
  apply db_step_quiet; [|done..]. apply inv_add_folder; [by apply eq_None_not_Some|done|done].
Qed.

Lemma tx_evolves_SetFolderParent K B i dest : tx_evolves K B (SetFolderParent i dest) (λ _ _, True).
Proof.
  intros d0 HI. apply txspec_now. intros t a d. destruct (_ && _) eqn:Eg; [done|].
  intros [= <- <-]. split; [|done]. apply db_step_quiet; [|done..].
  apply inv_update_folder; [done| |done]. intros x p Hx Hp. cbn in Hp.
  apply andb_false_iff in Eg as [Eg|Eg].
  - apply bool_decide_eq_false in Eg. destruct Eg. eauto.
  - apply negb_false_iff in Eg. by eapply fk_ok_true.
Qed.

Lemma tx_evolves_SetFolderName K B i name : tx_evolves K B (SetFolderName i name) (λ _ _, True).
Proof.
  intros d0 HI. apply txspec_now. intros t a d [= <- <-]. split; [|done].
  apply db_step_quiet; [|done..]. apply inv_update_folder; [done| |done].
  intros x p H1 H2. by eapply (inv_fparent _ _ HI).
Qed.

(** Deleting a folder row, with the hashes known to be unreferenced. *)
Lemma tx_DeleteFolderRow K B i hs d0 :
  db_inv B d0 → unreferenced hs d0 →
  txspec (λ d, d = d0) (DeleteFolderRow i) (λ _ d, db_step K B d0 d ∧ unreferenced hs d).
Proof.
  intros HI Hu. unfold DeleteFolderRow. eapply txspec_bind.
  - apply txspec_attempt, (txspec_stmt _ _ (λ _ d, db_step K B d0 d ∧ unreferenced hs d)).
    intros d a d' ->. destruct (_ && _) eqn:Eg; [done|]. intros [= <- <-]. split; [|done].
    apply db_step_quiet; [|done..]. apply andb_false_iff in Eg as [Eg|Eg].
    + apply bool_decide_eq_false, eq_None_not_Some in Eg. rewrite delete_id by done. by destruct d0.
    + apply bool_decide_eq_false in Eg. by apply inv_delete_folder.
  - intros [[]|e].
    + eapply txspec_weaken; [apply txspec_ret|exact (λ _ H, H)|]. intros [] d [_ H]. exact (H tt eq_refl).
    + case_bool_decide; apply txspec_throw.
Qed.

(** ** Operations on folders *)
Lemma keeps_CreateFolder K w0 owner parent name :
  keeps (evolves K w0) (CreateFolder owner parent name).
Proof.
  unfold CreateFolder, now, authorize_dest, authorizeFolder, create_folder_tx, Write, WriteObjectTuple.
  keeps_tac. apply keeps_InTx_evolves. intros B.
  eapply tx_evolves_seq; [apply tx_evolves_InsertFolder|intros _].
  eapply tx_evolves_seq; [apply tx_evolves_Emit|intros _]. apply tx_evolves_Feed.
Qed.

Lemma keeps_reparent K w0 child old dest : keeps (evolves K w0) (reparent child old dest).
Proof. unfold reparent, DeleteObjectTuple, WriteObjectTuple. keeps_tac. Qed.

#[local] Hint Resolve keeps_reparent : go.

Lemma keeps_RenameFile K w0 caller oid name : keeps (evolves K w0) (RenameFile caller oid name).
Proof.
  unfold RenameFile, authorize, GetObject. keeps_tac. apply keeps_InTx_evolves. intros B.
  eapply tx_evolves_seq; [apply tx_evolves_SetObjectName|intros _].
  eapply tx_evolves_seq; [apply tx_evolves_Emit|intros _]. apply tx_evolves_Feed.
Qed.

Lemma keeps_MoveFile K w0 caller oid dest : keeps (evolves K w0) (MoveFile caller oid dest).
Proof.
  unfold MoveFile, authorize, authorize_dest, authorizeFolder, GetObject, move_file_tx. keeps_tac.
  apply keeps_InTx_evolves. intros B.
  eapply tx_evolves_seq; [apply tx_evolves_SetObjectFolder|intros _]. apply tx_evolves_Emit.
Qed.

Lemma keeps_RenameFolder K w0 caller i name : keeps (evolves K w0) (RenameFolder caller i name).
Proof.
  unfold RenameFolder, authorizeFolder, GetFolderRow. keeps_tac. apply keeps_InTx_evolves. intros B.
  eapply tx_evolves_seq; [apply tx_evolves_SetFolderName|intros _].
  eapply tx_evolves_seq; [apply tx_evolves_Emit|intros _]. apply tx_evolves_Feed.
Qed.

Lemma keeps_would_cycle_loop K w0 fuel moving seen cur :
  keeps (evolves K w0) (would_cycle_loop fuel moving seen cur).
Proof.
  revert seen cur. induction fuel as [|fuel IH]; intros seen cur; cbn [would_cycle_loop];
    unfold GetFolderRow; keeps_tac; apply IH.
Qed.

Lemma keeps_MoveFolder K w0 caller i dest : keeps (evolves K w0) (MoveFolder caller i dest).
Proof.
  pose proof (keeps_would_cycle_loop K w0).
  unfold MoveFolder, check_dest, wouldCycle, tree_fuel, authorizeFolder, GetFolderRow, move_folder_tx.
  keeps_tac; auto.
  apply keeps_InTx_evolves. intros B.
  eapply tx_evolves_seq; [apply tx_evolves_SetFolderParent|intros _]. apply tx_evolves_Emit.
Qed.

Lemma keeps_clear_parent K w0 child parent : keeps (evolves K w0) (clear_parent child parent).
Proof. unfold clear_parent, DeleteObjectTuple. keeps_tac. Qed.

#[local] Hint Resolve keeps_clear_parent : go.

Lemma keeps_DeleteFolder K w0 caller i : keeps (evolves K w0) (DeleteFolder caller i).
Proof.
  unfold DeleteFolder, authorizeFolder, GetFolderRow, FolderHasChildren, delete_folder_tx, Authz.Delete.
  keeps_tac. apply keeps_InTx_evolves. intros B.
  eapply tx_evolves_seq; [apply tx_evolves_Emit|intros _].
  eapply tx_evolves_seq; [|intros _; apply tx_evolves_Remove].
  intros d0 HI. apply (tx_DeleteFolderRow K B i []); [done|]. by intros h ?%not_elem_of_nil.
Qed.

(** ** Recursive deletion *)

(** The folders of a subtree, and the files in it. *)
Inductive below (d : KDB) (root : string) : string → Prop :=
  | below_root : below d root root
  | below_child f p : below d root p → folders d !! f_ID f = Some f → f_ParentID f = Some p →
      below d root (f_ID f).

Definition tree_file (d : KDB) (root oid : string) : Prop :=
  ∃ o p, objects d !! oid = Some o ∧ o_FolderID o = Some p ∧ below d root p.

Lemma elem_of_add_unseen f subs seen : f ∈ (add_unseen subs seen).1 → f ∈ subs.
Proof.
  revert seen. induction subs as [|x subs IH]; intros seen; cbn; [done|].
  case_bool_decide; [intros Hf; right; eauto|].
  specialize (IH ({[f_ID x]} ∪ seen)). destruct (add_unseen subs _) as [l seen']. cbn in *.
  intros [-> | Hf]%elem_of_cons; [left|right; auto].
Qed.

(** The collection reads only, and stays inside the subtree. *)
Lemma tx_collect_tree B fuel caller root todo seen d0 :
  db_inv B d0 → (∀ f, f ∈ todo → below d0 root (f_ID f)) →
  txspec (λ d, d = d0) (collect_tree fuel caller todo seen)
    (λ r d, d = d0 ∧ (∀ f, f ∈ r.1 → below d0 root (f_ID f)) ∧
            (∀ o, o ∈ r.2 → tree_file d0 root (o_ID o))).
Proof.
  intros HI. revert todo seen. induction fuel as [|fuel IH]; intros todo seen Htodo;
    cbn [collect_tree]; [apply txspec_throw|].
  destruct todo as [|f todo].
  { intros w Hw. split; [done|]. intros a [= <-]. cbn. split_and!; [done|..];
      by intros ? ?%not_elem_of_nil. }
  eapply txspec_bind; [apply txspec_query|]. intros objs.
  apply (txspec_pure _ (∀ o, o ∈ objs → tree_file d0 root (o_ID o))).
  { intros d [-> ->] o Ho. rewrite merge_sort_Permutation in Ho.
    apply elem_of_select in Ho as [[_ Hf] [k Hk]].
    exists o, (f_ID f). rewrite (inv_okey _ _ HI k o Hk). split_and!; [done|done|].
    apply Htodo. left. }
  intros Hobjs. eapply txspec_bind.
  { eapply txspec_weaken; [apply (txspec_query (λ d, d = d0))|by intros d [_ ->]|exact (λ _ _ H, H)]. }
  intros subs. apply (txspec_pure _ (∀ g, g ∈ subs → below d0 root (f_ID g))).
  { intros d [-> ->] g Hg. rewrite merge_sort_Permutation in Hg.
    apply elem_of_select in Hg as [[_ Hf] [k Hk]]. apply (below_child _ _ g (f_ID f)); [|by rewrite (inv_fkey _ _ HI k g Hk)|done].
    apply Htodo. left. }
  intros Hsubs. destruct (add_unseen subs seen) as [new seen'] eqn:En.
  eapply txspec_bind.
  { eapply txspec_weaken; [apply (IH (todo ++ new) seen')|by intros d [_ ->]|exact (λ _ _ H, H)].
    intros g [Hg|Hg]%elem_of_app; [apply Htodo; by right|]. apply Hsubs.
    apply (elem_of_add_unseen g subs seen). by rewrite En. }
  intros [fs os]. eapply txspec_weaken; [apply txspec_ret|exact (λ _ H, H)|].
  intros a d [-> (->&H1&H2)]. cbn in *. split_and!; [done|..].
  - intros g [-> | Hg]%elem_of_cons; [apply Htodo; left|auto].
  - intros o [Ho|Ho]%elem_of_app; auto.
Qed.

Lemma txspec_for_acc {A X} (l : list A) (f : X → A → M KW X) (I : X → KDB → Prop) :
  (∀ acc x, x ∈ l → txspec (I acc) (f acc x) I) →
  ∀ acc, txspec (I acc) (for_acc l acc f) I.
Proof.
  induction l as [|x l IH]; intros H acc; cbn [for_acc].
  - eapply txspec_weaken; [apply txspec_ret|exact (λ _ H, H)|]. by intros a d [-> ?].
  - eapply txspec_bind; [apply H; left|]. intros acc'. apply IH. intros a y Hy. apply H. by right.
Qed.

Lemma tx_delete_tree_object (K : string → Prop) B caller o acc d0 :
  ¬ K (o_ID o) → db_inv B d0 → unreferenced acc d0 →
  txspec (λ d, d = d0) (gone ← delete_tree_object caller o; mret (acc ++ gone))
    (λ acc' d, db_step K B d0 d ∧ unreferenced acc' d).
Proof.
  intros HK HI Hu. unfold delete_tree_object.
  apply (txspec_bind _ _ _ (λ gone d, db_step K B d0 d ∧ unreferenced (acc ++ gone) d)).
  2: { intros gone. eapply txspec_weaken; [apply txspec_ret|exact (λ _ H, H)|]. by intros a d [-> ?]. }
  eapply txspec_bind; [apply (tx_unreferenced_conv K B _ acc (tx_Emit_conv B _ _ _) d0 HI Hu)|].
  intros u w1 [Hs1 Hu1]. set (d1 := w_db w1) in *.
  cut (txspec (λ d, d = d1) (gone ← reclaimObject (o_ID o); Remove (o_ID o) ;; mret gone)
    (λ gone d, db_step K B d1 d ∧ unreferenced (acc ++ gone) d)).
  { intros H. destruct (H w1 eq_refl) as [H1 H2]. split; [done|]. intros a Ha.
    destruct (H2 a Ha) as [H3 H4]. split; [by eapply db_step_trans|done]. }
  eapply txspec_bind; [apply tx_reclaimObject|]. intros gone.
  apply (txspec_pure _ (gone = reclaim_orphans (o_ID o) d1)); [by intros d [-> _]|]. intros ->.
  assert (db_inv B d1) as HI1 by apply Hs1.
  assert (db_step K B d1 (reclaim_db (o_ID o) d1)) as Hs2 by (by apply db_step_reclaim).
  assert (unreferenced (acc ++ reclaim_orphans (o_ID o) d1) (reclaim_db (o_ID o) d1)) as Hu2.
  { intros h [Hh|Hh]%elem_of_app; [|by eapply orphans_unreferenced].
    pose proof (refs_to_reclaim (o_ID o) d1 h). specialize (Hu1 h Hh). lia. }
  eapply txspec_bind.
  { eapply txspec_weaken; [apply (tx_unreferenced_conv K B _ _ (tx_Remove_conv B (o_ID o)) _ (proj1 Hs2) Hu2)
      |by intros d [_ ->]|]. exact (λ _ _ H, H). }
  intros []. eapply txspec_weaken; [apply txspec_ret|exact (λ _ H, H)|].
  intros a d [-> [H1 H2]]. split; [by eapply db_step_trans|done].
Qed.

(** From a step relation out of one database to one out of its successors. *)
Lemma txspec_step {A} K B d0 (m : M KW A) (hs : list string) (R : A → KDB → Prop) :
  (∀ d1, db_inv B d1 → unreferenced hs d1 →
     txspec (λ d, d = d1) m (λ a d, db_step K B d1 d ∧ R a d)) →
  txspec (λ d, db_step K B d0 d ∧ unreferenced hs d) m (λ a d, db_step K B d0 d ∧ R a d).
Proof.
  intros H w [Hs Hu]. destruct (H (w_db w) (proj1 Hs) Hu w eq_refl) as [H1 H2].
  split; [done|]. intros a Ha. destruct (H2 a Ha). split; [by eapply db_step_trans|done].
Qed.

Lemma tx_delete_tree (K : string → Prop) B caller root folderID d0 :
  db_inv B d0 → f_ID root = folderID → (∀ oid, K oid → ¬ tree_file d0 folderID oid) →
  txspec (λ d, d = d0) (fuel ← tree_fuel;
    r ← collect_tree fuel caller [root] {[folderID]};
    orphans ← for_acc r.2 [] (λ acc o, gone ← delete_tree_object caller o; mret (acc ++ gone));
    for_each (reverse r.1) (delete_tree_folder caller) ;;
    mret (r.1, r.2, orphans)) (λ r d, db_step K B d0 d ∧ unreferenced r.2 d).
Proof.
  intros HI Hroot HK. eapply txspec_bind.
  { apply (txspec_keeps (λ d, d = d0)). intros rest. apply keeps_gets. }
  intros fuel. eapply txspec_bind.
  { apply (tx_collect_tree B fuel caller folderID); [done|].
    intros f ->%list_elem_of_singleton. rewrite Hroot. apply below_root. }
  intros [fs os]. cbn [fst snd].
  apply (txspec_pure _ (∀ o, o ∈ os → ¬ K (o_ID o))).
  { intros d (_&_&H) o Ho Hk. by apply (HK _ Hk), H. }
  intros Hos. apply (txspec_bind _ _ _ (λ acc d, db_step K B d0 d ∧ unreferenced acc d)).
  { eapply txspec_weaken; [apply (txspec_for_acc os _ (λ acc d, db_step K B d0 d ∧ unreferenced acc d))| |
      exact (λ _ _ H, H)].
    - intros acc o Ho. apply txspec_step. intros d1 HI1 Hu1. by apply tx_delete_tree_object; auto.
    - intros d (->&_&_). split; [by apply db_step_quiet|]. by intros h ?%not_elem_of_nil. }
  intros orphans. apply (txspec_bind _ _ _ (λ _ d, db_step K B d0 d ∧ unreferenced orphans d)).
  { apply (txspec_for_each (reverse fs) _ (λ _ d, db_step K B d0 d ∧ unreferenced orphans d)).
    intros dn f rest _. unfold delete_tree_folder.
    eapply txspec_bind.
    { apply txspec_step. intros d1 HI1 Hu1.
      apply (tx_unreferenced_conv K B _ orphans (tx_Emit_conv B _ _ _) d1 HI1 Hu1). }
    intros []. eapply txspec_bind.
    { apply txspec_step. intros d1 HI1 Hu1. by apply tx_DeleteFolderRow. }
    intros []. apply txspec_step. intros d1 HI1 Hu1.
    apply (tx_unreferenced_conv K B _ orphans (tx_Remove_conv B _) d1 HI1 Hu1). }
  intros []. eapply txspec_weaken; [apply txspec_ret|exact (λ _ H, H)|]. by intros a d [-> ?].
Qed.

Lemma keeps_clear_object_tuples K w0 caller acc o :
  keeps (evolves K w0) (clear_object_tuples s caller acc o).
Proof. unfold clear_object_tuples, Authz.Delete. keeps_tac. Qed.

Lemma keeps_clear_folder_tuples K w0 caller acc f :
  keeps (evolves K w0) (clear_folder_tuples caller acc f).
Proof. unfold clear_folder_tuples, Authz.Delete. keeps_tac. Qed.

#[local] Hint Resolve keeps_clear_object_tuples keeps_clear_folder_tuples : go.

Lemma triple_delete_tree_tx (K : string → Prop) w0 w caller root folderID :
  evolves K w0 w → f_ID root = folderID → (∀ oid, K oid → ¬ tree_file (w_db w) folderID oid) →
  let '(r, w') := delete_tree_tx caller root folderID w in
  evolves K w0 w' ∧ ∀ x, r = Ok x → unreferenced x.2 (w_db w').
Proof.
  intros HE Hroot HK. destruct (delete_tree_tx caller root folderID w) as [r w'] eqn:E.
  apply (InTx_evolves K _ (λ x d, unreferenced x.2 d) w0 w r w' HE) in E as (H1&H2&H3); [done|].
  apply tx_delete_tree; [apply (evolves_inv K w0 w HE)|done|done].
Qed.

Lemma evolves_DeleteFolderTree (K : string → Prop) w0 w caller folderID :
  evolves K w0 w → (∀ oid, K oid → ¬ tree_file (w_db w) folderID oid) →
  evolves K w0 (DeleteFolderTree s caller folderID w).2.
Proof.
  intros HE HK.
  cut (triple (λ w', evolves K w0 w' ∧ w_db w' = w_db w) (DeleteFolderTree s caller folderID)
         (λ _, evolves K w0)); [by intros H; apply (H w)|].
  assert (stores_only (λ w', evolves K w0 w' ∧ w_db w' = w_db w)) as HS.
  { intros w1 w2 Hd Hr [H1 H2]. split; [by apply (evolves_stores K w0 w1)|congruence]. }
  unfold DeleteFolderTree.
  apply triple_keeps; [unfold authorizeFolder, authorizeAccess; keeps_tac|by intros e w' [? _]|intros _].
  apply (triple_bind _ _ _ (λ r w', evolves K w0 w' ∧ w_db w' = w_db w ∧ r = folders (w_db w) !! folderID)).
  { intros w1 [H1 H2]. unfold GetFolderRow. destruct (query _ w1) as [r w2] eqn:E.
    pose proof (evolves_stores K w0 w1 w2) as Hst.
    apply query_cases in E as (Hd&Hr&_&_&Hres).
    assert (evolves K w0 w2) by (by apply Hst).
    destruct Hres as [-> | ->]; [|done]. cbn. rewrite Hd, H2. done. }
  intros [root|]; [|by apply triple_throw; intros w' [? _]].
  apply (triple_bind _ _ _ (λ r w', evolves K w0 w' ∧ unreferenced r.2 (w_db w'))).
  - intros w1 (H1&H2&H3).
    pose proof (triple_delete_tree_tx K w0 w1 caller root folderID H1) as H.
    destruct (delete_tree_tx caller root folderID w1) as [r w2].
    destruct H as [HE2 Hu].
    + destruct (evolves_inv K w0 w HE) as [HI _]. by apply (inv_fkey _ _ HI folderID root).
    + rewrite H2. done.
    + destruct r; cbn; [eauto|done].
  - intros [[fs os] orphans]. cbn [snd]. apply (triple_bind _ _ _ (λ _, evolves K w0)).
    + eapply triple_weaken; [apply triple_reclaim_blobs|exact (λ _ H, H)|]. by intros [[]|e].
    + intros _. match goal with |- triple _ ?m _ => change (keeps (evolves K w0) m) end. keeps_tac.
Qed.

(** ** Reading *)
Lemma keeps_ancestors_loop K w0 fuel seen cur : keeps (evolves K w0) (ancestors_loop fuel seen cur).
Proof.
  revert seen cur. induction fuel as [|fuel IH]; intros seen cur; cbn [ancestors_loop];
    unfold GetFolderRow; keeps_tac; apply IH.
Qed.

Lemma keeps_reads K w0 caller i folder :
  keeps (evolves K w0) (ListFileVersions caller i) ∧
  keeps (evolves K w0) (LatestOrdinal caller i) ∧
  keeps (evolves K w0) (List_ caller) ∧
  keeps (evolves K w0) (Get_ caller i) ∧
  keeps (evolves K w0) (GetFolder caller i) ∧
  keeps (evolves K w0) (ListChildren caller folder) ∧
  keeps (evolves K w0) (Ancestors caller i) ∧
  keeps (evolves K w0) (AllFolders caller).
Proof.
  pose proof (keeps_ancestors_loop K w0).
  unfold ListFileVersions, LatestOrdinal, List_, Get_, GetFolder, ListChildren, Ancestors, AllFolders,
    authorize, authorizeFolder, authorize_dest, ListVersions, MaxOrdinal, ByIDs, GetObject, GetFolderRow,
    FoldersInParent, ObjectsInFolder, FoldersByOwner, tree_fuel, authorizeFolder.
  split_and!; keeps_tac; auto.
Qed.

Lemma keeps_Download K w0 caller i :
  keeps (λ ws : KW * bytes, evolves K w0 ws.1) (Download s caller i).
Proof.
  unfold Download, authorize, ManifestOf, Reassemble.
  apply keeps_bind; [apply keeps_on_world; auto with go|intros _].
  apply keeps_bind; [apply keeps_on_world; auto with go|intros refs].
  apply keeps_for_each. intros ref _. unfold reassemble_chunk.
  apply keeps_bind; [apply keeps_on_world; auto with go|intros b].
  apply keeps_bind; [apply keeps_lift|intros x]. intros [w out] Hw. cbn in *.
  destruct (next_fault_stores w) as (f&w'&E&Hd&Hr&_). rewrite E.
  assert (evolves K w0 w') by (by apply (evolves_stores K w0 w)). by destruct f.
Qed.
End safety.
