(* ===== verification/EraseSteps.v ===== *)
(** * EraseSteps: what an erasure does to the stores, statement by statement

    EraseSubject (SubjectData.v) is not one transaction.  Whatever statement fails,
    the world evolves in the sense of KamaraSafety.v with the chunks of the erased
    files in the set [leaked]: their counts may stay above their references.  An
    erasure that returns success has released every reference, so nothing is
    leaked. *)

From S2P Require Import Prelude GoText Ids World Pii Pseudonym Conventions Authz Chunker ChunkCrypto Blob Engine Repo RepoInv FileService FolderService SubjectData KamaraSafety.
Import Pii Chunker.

(** References still to be released, after the rows that held them are gone. *)
Definition owed (l : list (string * Z)) (h : string) : Z := default 0%Z ((list_to_map l : gmap string Z) !! h).
Definition settled : string → Z := λ _, 0%Z.

Lemma owed_cons h n l k : h ∉ l.*1 → owed ((h, n) :: l) k = if decide (k = h) then n else owed l k.
Proof.
  intros Hn. unfold owed. cbn. destruct (decide (k = h)) as [->|Hne].
  - by rewrite lookup_insert_eq.
  - by rewrite lookup_insert_ne.
Qed.

Lemma owed_pos l k : (∀ x, x ∈ l → 0 <= x.2)%Z → (0 <= owed l k)%Z.
Proof.
  intros H. unfold owed. destruct ((list_to_map l : gmap string Z) !! k) as [n|] eqn:E; [|done].
  apply elem_of_list_to_map_2 in E. apply (H (k, n) E).
Qed.

Lemma owed_counts hs h : owed (map_to_list (count_hashes hs)) h = Z.of_nat (occ h hs).
Proof.
  unfold owed. rewrite list_to_map_to_list, count_hashes_lookup.
  destruct (decide (occ h hs = 0)) as [->|]; done.
Qed.

Lemma counts_pos hs x : x ∈ map_to_list (count_hashes hs) → (0 <= x.2)%Z ∧ x.1 ∈ hs.
Proof.
  destruct x as [h n]. intros Hx%elem_of_map_to_list. rewrite count_hashes_lookup in Hx.
  destruct (decide _) as [|Ho]; [done|]. injection Hx as <-. cbn. split; [lia|].
  unfold occ in Ho. destruct (filter (λ x, x = h) hs) as [|y l] eqn:E; [done|].
  assert (y ∈ filter (λ x, x = h) hs) as [-> Hy]%list_elem_of_filter by (rewrite E; left). done.
Qed.

Lemma elem_of_chunk_hashes i d h :
  h ∈ chunk_hashes_of i d ↔ ∃ r, r ∈ version_chunks d ∧ m_version r ∈ version_ids_of i d ∧ m_hash r = h.
Proof.
  unfold chunk_hashes_of. rewrite list_elem_of_fmap. split.
  - intros (r&->&[Hr Hin]%list_elem_of_filter). eauto.
  - intros (r&H1&H2&<-). exists r. split; [done|]. by apply list_elem_of_filter.
Qed.

Section erase.
Context {Pr : Primitives} {PrOk : PrimitivesOk} {P : Platform} {F : OpenFGA} {Mi : Mime}.
Context {Lk : Leaks}.
Context (sv : Service) (K : string → Prop) (w0 : KW).

(** The chunks of the listed files may leak. *)
Definition covered (ids : list string) (d : KDB) : Prop :=
  ∀ i h, i ∈ ids → h ∈ chunk_hashes_of i d → leaked h.

(** A world in which an erasure is under way: the rows it works on, and no chunk
    counted below its references plus what is still owed. *)
Definition erasing (ids : list string) (owe : string → Z) (os : gmap string Object) (fs : gmap string Folder)
    (w : KW) : Prop :=
  objects (w_db w) = os ∧ folders (w_db w) = fs ∧ covered ids (w_db w) ∧ evolves sv K w0 w ∧
  ∀ h ch, chunks_tbl (w_db w) !! h = Some ch → (Z.of_nat (refs_to h (w_db w)) + owe h <= c_refs ch)%Z.

Lemma erasing_stores ids owe os fs : stores_only (erasing ids owe os fs).
Proof.
  intros w w' Hd Hr (H1&H2&H3&H4&H5). unfold erasing. rewrite <- Hd. split_and!; [done..| |done].
  by apply (evolves_stores sv K w0 w).
Qed.

Lemma erasing_conv ids owe os fs w cv :
  one_token (subject_pseudonyms cv) → erasing ids owe os fs w →
  erasing ids owe os fs (set_db (with_conv cv (w_db w)) w).
Proof.
  intros Hcv (H1&H2&H3&H4&H5). split_and!; [done..| |done].
  apply (evolves_trans sv K w0 w); [done|]. pose proof H4 as ([HI _]&Hok&_).
  split_and!; [by apply db_step_conv|done|done].
Qed.

Lemma erasing_Remove ids owe os fs i : keeps (erasing ids owe os fs) (Remove i).
Proof.
  intros w Hw. destruct (Remove i w) as [r w'] eqn:E. cbn [snd].
  apply Remove_spec in E as (Hr&[[Hd _]|[Hd Hcv]]).
  - by apply (erasing_stores ids owe os fs w).
  - apply (erasing_stores ids owe os fs (set_db (with_conv (conv (w_db w')) (w_db w)) w)); [by rewrite Hd at 2|by rewrite Hr|].
    apply erasing_conv; [|done]. destruct Hw as (_&_&_&([HI _]&_)&_). rewrite Hcv. apply (inv_token _ _ HI).
Qed.

Lemma erasing_fga ids owe os fs f : keeps (erasing ids owe os fs) (fga_update f).
Proof. apply keeps_fga_update. split; [apply erasing_stores|done]. Qed.

Lemma erasing_weaken ids owe owe' os fs w :
  (∀ h, owe' h <= owe h)%Z → erasing ids owe os fs w → erasing ids owe' os fs w.
Proof.
  intros Ho (H1&H2&H3&H4&H5). split_and!; [done..|]. intros h ch Hc. specialize (H5 h ch Hc).
  specialize (Ho h). lia.
Qed.

#[local] Hint Resolve erasing_stores erasing_Remove erasing_fga : go.

(** A change of the chunk table alone. *)
Lemma inv_with_chunks B d t :
  db_inv B d → (∀ r, r ∈ version_chunks d → is_Some (t !! m_hash r)) →
  (∀ h ch, t !! h = Some ch → (Z.of_nat (refs_to h d) <= c_refs ch)%Z ∧
     (¬ leaked h → c_refs ch = Z.of_nat (refs_to h d) ∧ 0 < refs_to h d)) →
  db_inv B (with_chunks t d).
Proof. intros [] Hm Hr. by split. Qed.

Lemma evolves_with_chunks w t :
  evolves sv K w0 w → (∀ r, r ∈ version_chunks (w_db w) → is_Some (t !! m_hash r)) →
  (∀ h ch, t !! h = Some ch → (Z.of_nat (refs_to h (w_db w)) <= c_refs ch)%Z ∧
     (¬ leaked h → c_refs ch = Z.of_nat (refs_to h (w_db w)) ∧ 0 < refs_to h (w_db w))) →
  evolves sv K w0 (set_db (with_chunks t (w_db w)) w).
Proof.
  intros HE Hm Hr. apply (evolves_trans sv K w0 w); [done|]. pose proof HE as ([HI _]&Hok&_).
  split_and!; [|done|done]. apply db_step_quiet; [by apply inv_with_chunks|done..].
Qed.

(** The row of a file goes with its versions and manifests. *)
Lemma inv_delete_object B i d :
  db_inv B d → (∀ h, h ∈ chunk_hashes_of i d → leaked h) → db_inv B (delete_object i d).
Proof.
  intros HI Hl. pose proof (inv_reclaim B i d HI) as HR.
  assert (∀ r, r ∈ version_chunks (delete_object i d) → r ∈ version_chunks d) as Hsub
    by (by intros r [_ ?]%list_elem_of_filter).
  pose proof (inv_mchunk _ _ HI) as Hmc. pose proof (inv_refs _ _ HI) as Hrf.
  destruct HR. split; try done.
  - intros r Hr. by apply Hmc, Hsub.
  - intros h ch Hc. destruct (Hrf h ch Hc) as [Hle Hex].
    pose proof (refs_to_delete i d h) as Hd. split; [lia|]. intros Hn. destruct (Hex Hn) as [E1 E2].
    assert (occ h (chunk_hashes_of i d) = 0) as Ho; [|lia].
    unfold occ. destruct (filter (λ x, x = h) (chunk_hashes_of i d)) as [|x l] eqn:E; [done|].
    assert (x ∈ filter (λ x, x = h) (chunk_hashes_of i d)) as [-> Hx]%list_elem_of_filter
      by (rewrite E; left). by destruct Hn; apply Hl.
Qed.

Lemma covered_delete ids i d : covered ids d → covered ids (delete_object i d).
Proof.
  intros Hc j h Hj (r&[_ Hr]%list_elem_of_filter&Hv&<-)%elem_of_chunk_hashes.
  apply (Hc j); [done|]. apply elem_of_chunk_hashes. exists r. split_and!; [done| |done].
  unfold version_ids_of in *. apply list_elem_of_fmap in Hv as (v&->&[k Hk]%elem_of_versions_of).
  apply list_elem_of_fmap. exists v. split; [done|]. apply elem_of_versions_of. exists k.
  by apply delete_object_versions in Hk as [? _].
Qed.

Lemma erasing_delete_row ids i os fs w :
  ¬ K i → i ∈ ids → erasing ids settled os fs w →
  erasing ids (owed (map_to_list (count_hashes (chunk_hashes_of i (w_db w))))) (delete i os) fs
    (set_db (delete_object i (w_db w)) w).
Proof.
  intros HK Hi (H1&H2&H3&H4&H5). split_and!; [cbn; congruence|done|by apply covered_delete| |].
  - apply (evolves_trans sv K w0 w); [done|]. pose proof H4 as ([HI _]&Hok&_).
    split_and!; [|done|done]. split; [apply inv_delete_object; [done|]; intros h; by apply H3|].
    intros oid Ho. assert (oid ≠ i) as Hne by (by intros ->).
    destruct (db_step_reclaim K (w_blobs w) i (w_db w) HK HI) as [_ Hs]. by apply Hs.
  - intros h ch Hc. specialize (H5 h ch Hc). pose proof (refs_to_delete i (w_db w) h) as Hd.
    rewrite owed_counts. unfold settled in H5. cbn [w_db set_db]. lia.
Qed.

(** Paying back one hash. *)
Lemma dec_ref_pays ids h n l os fs :
  h ∉ l.*1 → leaked h → (∀ x, x ∈ (h, n) :: l → 0 <= x.2)%Z →
  triple (erasing ids (owed ((h, n) :: l)) os fs) (dec_ref_row h n)
    (λ r w, erasing ids settled os fs w ∧ (is_ok r = true → erasing ids (owed l) os fs w)).
Proof.
  intros Hn Hl Hp w Hw. destruct (dec_ref_row h n w) as [r w'] eqn:E.
  assert (∀ l' os' fs' w', (∀ x, x ∈ l' → 0 <= x.2)%Z → erasing ids (owed l') os' fs' w' →
    erasing ids settled os' fs' w') as Hset.
  { intros l' os' fs' w1 Hx. apply erasing_weaken. intros k. by apply owed_pos. }
  apply stmt_cases in E as (Hr&_&_&Hc). cbn [fst snd].
  destruct Hc as [(e&->&Hd&_)|(a&d&[= <- <-]&Hd&Hres)].
  { split; [|done]. apply (erasing_stores _ _ _ _ w); [done|done|]. by apply (Hset ((h, n) :: l)). }
  assert (erasing ids (owed l) os fs w') as Hok.
  { apply (erasing_stores _ _ _ _ (set_db (with_chunks
      (update_row (λ c, CRow (c_size c) (c_refs c - n)) h (chunks_tbl (w_db w))) (w_db w)) w));
      [by rewrite Hd|by rewrite Hr|].
    destruct Hw as (H1&H2&H3&H4&H5). pose proof H4 as ([HI _]&_).
    assert (∀ k ch, update_row (λ c, CRow (c_size c) (c_refs c - n)) h (chunks_tbl (w_db w)) !! k = Some ch →
      (Z.of_nat (refs_to k (w_db w)) + owed l k <= c_refs ch)%Z ∧ (k = h ∨ chunks_tbl (w_db w) !! k = Some ch)) as Hk.
    { intros k ch. unfold update_row. destruct (decide (k = h)) as [->|Hne].
      - rewrite lookup_alter_eq. destruct (chunks_tbl (w_db w) !! h) as [c0|] eqn:E0; [|done].
        intros [= <-]. specialize (H5 h c0 E0). rewrite owed_cons, decide_True in H5 by done. cbn.
        unfold owed. rewrite (not_elem_of_list_to_map_1 _ _ Hn). cbn. split; [lia|by left].
      - rewrite lookup_alter_ne by done. intros Hc. specialize (H5 k ch Hc).
        rewrite owed_cons, decide_False in H5 by done. split; [lia|by right]. }
    split_and!; [done|done|done| |intros k ch Hc; by apply Hk].
    apply evolves_with_chunks; [done| |].
    - intros q Hq. by apply update_row_is_Some, (inv_mchunk _ _ HI).
    - intros k ch [Hle Hor]%Hk. assert (0 <= owed l k)%Z as Ho.
      { apply owed_pos. intros x Hx. apply Hp. by right. }
      split; [lia|]. intros Hnl. destruct Hor as [->|Hc]; [done|]. by apply (inv_refs _ _ HI k ch Hc). }
  split; [|done]. apply (Hset l); [|done]. intros x Hx. apply Hp. by right.
Qed.

Lemma dec_refs_pay ids l os fs :
  NoDup l.*1 → (∀ x, x ∈ l → (0 <= x.2)%Z ∧ leaked x.1) →
  triple (erasing ids (owed l) os fs) (for_each l (λ '(h, n), dec_ref_row h n)) (λ _, erasing ids settled os fs).
Proof.
  induction l as [|[h n] l IH]; intros Hnd Hp; cbn [for_each].
  - by apply triple_ret.
  - cbn in Hnd. apply NoDup_cons in Hnd as [Hn Hnd].
    apply (triple_bind _ _ _ (λ _, erasing ids (owed l) os fs)).
    + intros w Hw. destruct (dec_ref_pays ids h n l os fs Hn) with (w := w) as [H1 H2]; [|intros x Hx; by apply Hp|done|].
      { apply (Hp (h, n)). left. }
      destruct (dec_ref_row h n w) as [[[]|e] w']; cbn in *; auto.
    + intros []. apply IH; [done|]. intros x Hx. apply Hp. by right.
Qed.

Definition erasing_with ids (orphans : list string) os fs (w : KW) : Prop :=
  erasing ids settled os fs w ∧ unreferenced orphans (w_db w).

Lemma erasing_with_stores ids orphans os fs : stores_only (erasing_with ids orphans os fs).
Proof. intros w w' Hd Hr [H1 H2]. split; [by apply (erasing_stores _ _ _ _ w)|by rewrite <- Hd]. Qed.

Lemma DecRef_erasing ids hashes os fs :
  (∀ h, h ∈ hashes → leaked h) →
  triple (erasing ids (owed (map_to_list (count_hashes hashes))) os fs) (DecRef hashes)
    (λ r w, erasing ids settled os fs w ∧ ∀ orphans, r = Ok orphans → unreferenced orphans (w_db w)).
Proof.
  intros Hl. unfold DecRef. case_bool_decide as He.
  { subst. intros w Hw. cbn. split; [exact Hw|]. intros l [= <-] h ?%not_elem_of_nil. done. }
  set (l := map_to_list (count_hashes hashes)).
  assert (∀ x, x ∈ l → (0 <= x.2)%Z ∧ leaked x.1) as Hp by (intros x [? ?]%counts_pos; auto).
  apply (triple_bind _ _ _ (λ _, erasing ids settled os fs)).
  - intros w Hw. pose proof (dec_refs_pay ids l os fs ltac:(apply NoDup_fst_map_to_list) Hp w Hw) as H.
    destruct (for_each l _ w) as [[[]|e] w']; cbn in H |- *; [done|]. split; [done|by intros].
  - intros [] w Hw. destruct (query _ w) as [r w'] eqn:E. apply query_cases in E as (Hd&Hr&_&_&Hres).
    cbn. split; [by apply (erasing_stores _ _ _ _ w)|]. intros orphans ->. destruct Hres as [[= ->]|[=]].
    intros h [Ho _]%list_elem_of_filter. rewrite Hd. unfold orphaned in Ho.
    destruct Hw as (_&_&_&_&B3). destruct (chunks_tbl (w_db w) !! h) as [ch|] eqn:Ec; [|done].
    specialize (B3 h ch Ec). unfold settled in B3. apply Z.leb_le in Ho. lia.
Qed.

Lemma DeleteChunks_erasing ids orphans os fs :
  keeps (erasing_with ids orphans os fs) (DeleteChunks orphans).
Proof.
  unfold DeleteChunks. case_bool_decide; [apply keeps_ret|].
  apply keeps_stmt; [apply erasing_with_stores|]. intros w a d [(H1&H2&H3&H4&H5) Hu].
  case_bool_decide; [done|]. intros [= <- <-]. pose proof H4 as ([HI _]&_).
  split; [|exact Hu]. split_and!; [done|done|done| |].
  - apply evolves_with_chunks; [done| |].
    + intros r Hr. destruct (inv_mchunk _ _ HI r Hr) as [ch Hch]. exists ch.
      apply map_lookup_filter_Some. split; [done|].
      cbn. intros Hin. specialize (Hu _ Hin). assert (0 < refs_to (m_hash r) (w_db w)); [|lia].
      apply refs_to_pos. eauto.
    + intros h ch [Hch _]%map_lookup_filter_Some. by apply (inv_refs _ _ HI).
  - intros h ch [Hch _]%map_lookup_filter_Some. by apply (H5 h ch).
Qed.

Lemma Blob_Delete_erasing ids orphans h os fs :
  h ∈ orphans → keeps (erasing_with ids orphans os fs) (Blob.Delete h).
Proof.
  intros Hh w [(H1&H2&H3&H4&H5) Hu].
  destruct (keeps_Delete_orphan sv K w0 (λ d, objects d = os ∧ folders d = fs ∧ covered ids d ∧
    (∀ h ch, chunks_tbl d !! h = Some ch → (Z.of_nat (refs_to h d) + settled h <= c_refs ch)%Z) ∧
    unreferenced orphans d) h ltac:(intros d (_&_&_&_&Hd); by apply Hd) w) as (E&D1&D2&D3&D4&D5); [done|].
  by split.
Qed.

(** One file: its row goes or stays; on success it is gone. *)
Lemma erase_object_spec ids s o os fs :
  ¬ K (o_ID o) → o_ID o ∈ ids →
  triple (erasing ids settled os fs) (erase_object s o) (λ r w,
    (is_ok r = false ∧ erasing ids settled os fs w) ∨ erasing ids settled (delete (o_ID o) os) fs w).
Proof.
  intros HK Hi. unfold erase_object. intros w Hw. rewrite run_bind.
  destruct (ChunkHashesOf (o_ID o) w) as [r1 w1] eqn:E1. apply query_cases in E1 as (D1&R1&_&_&Hr1).
  assert (erasing ids settled os fs w1) as Hw1 by (by apply (erasing_stores _ _ _ _ w)).
  destruct Hr1 as [-> | ->]; [|by left]. rewrite run_bind. rewrite <- D1.
  destruct (DeleteObject (o_ID o) w1) as [r2 w2] eqn:E2. apply stmt_cases in E2 as (R2&_&_&Hc).
  destruct Hc as [(e&->&D2&_)|(a&d&[= <- <-]&D2&Hr2)].
  { left. split; [done|]. by apply (erasing_stores _ _ _ _ w1). }
  pose proof (erasing_delete_row ids (o_ID o) os fs w1 HK Hi Hw1) as Hdel. set (hashes := chunk_hashes_of (o_ID o) (w_db w1)) in *.
  assert (∀ h, h ∈ hashes → leaked h) as Hl by (intros h; by apply Hw1).
  assert (erasing ids (owed (map_to_list (count_hashes hashes))) (delete (o_ID o) os) fs w2) as Hw2.
  { eapply erasing_stores; [| |exact Hdel]; [by rewrite D2|by rewrite R2]. }
  right. destruct Hr2 as [-> | ->].
  2: { cbn. eapply erasing_weaken; [|exact Hw2]. intros h. apply owed_pos. intros x [? _]%counts_pos. done. }
  set (os' := delete (o_ID o) os) in *. revert w2 D2 R2 Hw2. clear Hdel. intros w2 _ _ Hw2. revert w2 Hw2.
  match goal with |- ∀ w2, _ → erasing _ _ _ _ (?m w2).2 =>
    change (triple (erasing ids (owed (map_to_list (count_hashes hashes))) os' fs) m (λ _, erasing ids settled os' fs)) end.
  apply (triple_bind _ _ _ (λ orphans, erasing_with ids orphans os' fs)).
  { intros w2 Hw2. destruct (DecRef_erasing ids hashes os' fs Hl w2 Hw2) as [H1 H2].
    destruct (DecRef hashes w2) as [[orphans|e] w3]; cbn in *; [|done]. split; [done|by apply H2]. }
  intros orphans. apply triple_keeps; [apply DeleteChunks_erasing|by intros e w' [? _]|intros _].
  apply triple_keeps.
  { apply keeps_for_each. intros h Hh. apply keeps_ignore. by apply Blob_Delete_erasing. }
  { by intros e w' [? _]. }
  intros _. intros w3 [Hw3 _]. revert w3 Hw3.
  match goal with |- ∀ w3, _ → erasing _ _ _ _ (?m w3).2 => change (keeps (erasing ids settled os' fs) m) end.
  unfold DeleteObjectTuple, Authz.Delete. keeps_tac.
Qed.

Lemma erasing_delete_folder ids i os fs w :
  ¬ has_children i (w_db w) → erasing ids settled os fs w →
  erasing ids settled os (delete i fs) (set_db (with_folders (delete i (folders (w_db w))) (w_db w)) w).
Proof.
  intros Hc (H1&H2&H3&H4&H5). split_and!; [done|cbn; by rewrite H2|done| |done].
  apply (evolves_trans sv K w0 w); [done|]. pose proof H4 as ([HI _]&Hok&_).
  split_and!; [|done|done]. apply db_step_quiet; [by apply inv_delete_folder|done..].
Qed.

Lemma erase_folder_spec ids s f os fs :
  triple (erasing ids settled os fs) (erase_folder s f) (λ r w,
    (is_ok r = false ∧ erasing ids settled os fs w) ∨ erasing ids settled os (delete (f_ID f) fs) w).
Proof.
  unfold erase_folder, DeleteFolderRow. intros w Hw. rewrite run_bind, run_bind. unfold attempt.
  destruct (delete_folder_stmt (f_ID f) w) as [r1 w1] eqn:E1. apply stmt_cases in E1 as (R1&_&_&Hc).
  destruct Hc as [(e&->&D1&_)|(a&d&Hf&D1&Hr1)].
  { left. case_bool_decide; (split; [done|]); by apply (erasing_stores _ _ _ _ w). }
  destruct (_ && _) eqn:Eg; [done|]. injection Hf as <- <-. right.
  assert (erasing ids settled os (delete (f_ID f) fs) w1) as Hw1.
  { apply (erasing_stores _ _ _ _ (set_db (with_folders (delete (f_ID f) (folders (w_db w))) (w_db w)) w));
      [by rewrite D1|by rewrite R1|].
    apply andb_false_iff in Eg as [Hn|Hn]; apply bool_decide_eq_false in Hn.
    - apply eq_None_not_Some in Hn. pose proof Hw as (_&<-&_). rewrite delete_id by done.
      by destruct w as [[] ? ? ? ? ?].
    - by apply erasing_delete_folder. }
  destruct Hr1 as [-> | ->]; [|by case_bool_decide]. cbn [fst snd]. revert w1 D1 R1 Hw1. intros w1 _ _ Hw1. revert w1 Hw1.
  intros w1 Hw1. rewrite run_ret. revert w1 Hw1.
  match goal with |- ∀ w1, _ → erasing _ _ _ _ (?m w1).2 => change (keeps (erasing ids settled os (delete (f_ID f) fs)) m) end.
  unfold DeleteObjectTuple, Authz.Delete. keeps_tac.
Qed.
End erase.

(** Some of the listed rows are gone; on success all of them. *)
Definition thinned {A} (ids : list string) (all : bool) (t t' : gmap string A) : Prop :=
  (∀ i, t' !! i = t !! i ∨ t' !! i = None ∧ i ∈ ids) ∧ (all = true → ∀ i, i ∈ ids → t' !! i = None).

Lemma thinned_step {A} x ids all (t t' : gmap string A) :
  thinned ids all (delete x t) t' → thinned (x :: ids) all t t'.
Proof.
  intros [H1 H2]. split.
  - intros i. destruct (H1 i) as [E|[E Hi]].
    + destruct (decide (x = i)) as [<-|Hne].
      * rewrite lookup_delete_eq in E. right. split; [done|left].
      * left. by rewrite E, lookup_delete_ne.
    + right. split; [done|by right].
  - intros Ha i [-> | Hi]%elem_of_cons; [|by apply H2].
    destruct (H1 x) as [E|[E _]]; [|done]. by rewrite E, lookup_delete_eq.
Qed.

Lemma thinned_refl {A} ids (t : gmap string A) : thinned ids false t t.
Proof. split; [by left|done]. Qed.

(** Rows of other owners survive. *)
Lemma thinned_others {A} ids all (t t' : gmap string A) (other : A → Prop) i x :
  thinned ids all t t' → (∀ y, t !! i = Some y → other y → i ∉ ids) → other x →
  t !! i = Some x ↔ t' !! i = Some x.
Proof.
  intros [H _] Ho Hx. destruct (H i) as [E|[E Hi]]; [by rewrite E|]. rewrite E. split; [|done].
  intros Ht. exfalso. by apply (Ho x).
Qed.

Section erase_all.
Context {Pr : Primitives} {PrOk : PrimitivesOk} {P : Platform} {F : OpenFGA} {Mi : Mime}.
Context {Lk : Leaks}.
Context (sv : Service) (K : string → Prop) (w0 : KW).

Lemma erase_objects ids s l os fs :
  (∀ o, o ∈ l → ¬ K (o_ID o) ∧ o_ID o ∈ ids) →
  triple (erasing sv K w0 ids settled os fs) (for_each l (erase_object s)) (λ r w,
    ∃ os', thinned (o_ID <$> l) (is_ok r) os os' ∧ erasing sv K w0 ids settled os' fs w).
Proof.
  revert os. induction l as [|o l IH]; intros os Hl; cbn [for_each].
  { intros w Hw. exists os. split; [|done]. split; [by left|]. by intros _ i ?%not_elem_of_nil. }
  intros w Hw. rewrite run_bind. destruct (Hl o ltac:(left)) as [HK Hi].
  pose proof (erase_object_spec sv K w0 ids s o os fs HK Hi w Hw) as H.
  destruct (erase_object s o w) as [[[]|e] w1]; cbn [fst snd is_ok] in *.
  - destruct H as [[[=] _]|H]. destruct (IH (delete (o_ID o) os)) with (w := w1) as (os'&Ht&He);
      [intros x Hx; apply Hl; by right|done|]. exists os'. split; [|done]. by apply thinned_step.
  - destruct H as [[_ H]|H]; [exists os; split; [apply thinned_refl|done]|].
    exists (delete (o_ID o) os). split; [|done]. apply thinned_step, thinned_refl.
Qed.

Lemma erase_folders ids s l os fs :
  triple (erasing sv K w0 ids settled os fs) (for_each l (erase_folder s)) (λ r w,
    ∃ fs', thinned (f_ID <$> l) (is_ok r) fs fs' ∧ erasing sv K w0 ids settled os fs' w).
Proof.
  revert fs. induction l as [|f l IH]; intros fs; cbn [for_each].
  { intros w Hw. exists fs. split; [|done]. split; [by left|]. by intros _ i ?%not_elem_of_nil. }
  intros w Hw. rewrite run_bind. pose proof (erase_folder_spec sv K w0 ids s f os fs w Hw) as H.
  destruct (erase_folder s f w) as [[[]|e] w1]; cbn [fst snd is_ok] in *.
  - destruct H as [[[=] _]|H]. destruct (IH _ w1 H) as (fs'&Ht&He). exists fs'. split; [|done].
    by apply thinned_step.
  - destruct H as [[_ H]|H]; [exists fs; split; [apply thinned_refl|done]|].
    exists (delete (f_ID f) fs). split; [|done]. apply thinned_step, thinned_refl.
Qed.

(** The files and folders of a person, in the order they are erased, and the
    chunks of those files. *)
Definition owned_files (s : Subject) (d : KDB) : list Object :=
  merge_sort (by_Z o_Created) (select (λ o, o_Owner o = s) (objects d)).
Definition owned_folders (s : Subject) (d : KDB) : list Folder :=
  deepestFirst (merge_sort (by_Z f_Created) (select (λ f, f_Owner f = s) (folders d))).
Definition object_ids (s : Subject) (d : KDB) : list string := o_ID <$> owned_files s d.
Definition folder_ids (s : Subject) (d : KDB) : list string := f_ID <$> owned_folders s d.
Definition erased_hashes (s : Subject) (d : KDB) : list string :=
  object_ids s d ≫= λ i, chunk_hashes_of i d.

Lemma elem_of_object_ids B s d i :
  db_inv B d → i ∈ object_ids s d ↔ ∃ o, objects d !! i = Some o ∧ o_Owner o = s.
Proof.
  intros HI. unfold object_ids, owned_files. rewrite list_elem_of_fmap. split.
  - intros (o&->&Ho). rewrite merge_sort_Permutation in Ho. apply elem_of_select in Ho as [Ho [k Hk]].
    exists o. by rewrite (inv_okey _ _ HI k o Hk).
  - intros (o&Ho&Hs). exists o. rewrite merge_sort_Permutation, elem_of_select.
    split; [symmetry; by apply (inv_okey _ _ HI)|]. eauto.
Qed.

Lemma elem_of_folder_ids B s d i :
  db_inv B d → i ∈ folder_ids s d ↔ ∃ f, folders d !! i = Some f ∧ f_Owner f = s.
Proof.
  intros HI. unfold folder_ids, owned_folders, deepestFirst. rewrite list_elem_of_fmap. split.
  - intros (f&->&Hf). rewrite !merge_sort_Permutation in Hf. apply elem_of_select in Hf as [Hf [k Hk]].
    exists f. by rewrite (inv_fkey _ _ HI k f Hk).
  - intros (f&Hf&Hs). exists f. rewrite !merge_sort_Permutation, elem_of_select.
    split; [symmetry; by apply (inv_fkey _ _ HI)|]. eauto.
Qed.

Lemma elem_of_erased_hashes s d h :
  h ∈ erased_hashes s d ↔ ∃ i, i ∈ object_ids s d ∧ h ∈ chunk_hashes_of i d.
Proof. unfold erased_hashes. rewrite list_elem_of_bind. naive_solver. Qed.

Lemma inv_erasing s w :
  evolves sv K w0 w → (∀ h, h ∈ erased_hashes s (w_db w) → leaked h) →
  erasing sv K w0 (object_ids s (w_db w)) settled (objects (w_db w)) (folders (w_db w)) w.
Proof.
  intros HE Hl. pose proof HE as ([HI _]&_). split_and!; [done|done| |done|].
  - intros i h Hi Hh. apply Hl, elem_of_erased_hashes. eauto.
  - intros h ch Hch. destruct (inv_refs _ _ HI h ch Hch) as [? _]. unfold settled. lia.
Qed.

(** Whatever fails: the world evolves, and only rows of that person are gone. *)
Lemma EraseSubject_spec s w r w' :
  evolves sv K w0 w → (∀ i, i ∈ object_ids s (w_db w) → ¬ K i) →
  (∀ h, h ∈ erased_hashes s (w_db w) → leaked h) → SubjectData.EraseSubject s w = (r, w') →
  evolves sv K w0 w' ∧
  thinned (object_ids s (w_db w)) (is_ok r) (objects (w_db w)) (objects (w_db w')) ∧
  thinned (folder_ids s (w_db w)) (is_ok r) (folders (w_db w)) (folders (w_db w')).
Proof.
  intros HE HK Hl E. pose proof (inv_erasing s w HE Hl) as Hw. set (ids := object_ids s (w_db w)) in *.
  cut (∃ os' fs', erasing sv K w0 ids settled os' fs' w' ∧ thinned ids (is_ok r) (objects (w_db w)) os' ∧
    thinned (folder_ids s (w_db w)) (is_ok r) (folders (w_db w)) fs').
  { intros (os'&fs'&(<-&<-&_&HE'&_)&H1&H2). done. }
  revert E. unfold SubjectData.EraseSubject. rewrite run_bind. destruct (ByOwner s w) as [r1 w1] eqn:E1.
  apply query_cases in E1 as (D1&R1&_&_&Hr1).
  assert (erasing sv K w0 ids settled (objects (w_db w)) (folders (w_db w)) w1) as Hw1
    by (by apply (erasing_stores sv K w0 _ _ _ _ w)).
  destruct Hr1 as [-> | ->].
  2: { intros [= <- <-]. do 2 eexists. split_and!; [exact Hw1|apply thinned_refl..]. }
  rewrite run_bind. destruct (erase_objects ids s (owned_files s (w_db w)) (objects (w_db w)) (folders (w_db w)))
    with (w := w1) as (os'&Ht&Hw2); [|done|].
  { intros o Ho. assert (o_ID o ∈ ids) as Hi by (by apply list_elem_of_fmap_2). split; [by apply HK|done]. }
  unfold owned_files in Ht, Hw2. destruct (for_each _ (erase_object s) w1) as [[[]|e] w2]; cbn [fst snd is_ok] in *.
  2: { intros [= <- <-]. do 2 eexists. split_and!; [exact Hw2|exact Ht|apply thinned_refl]. }
  rewrite run_bind. destruct (FoldersByOwner s w2) as [r3 w3] eqn:E3.
  apply query_cases in E3 as (D3&R3&_&_&Hr3).
  assert (erasing sv K w0 ids settled os' (folders (w_db w)) w3) as Hw3 by (by apply (erasing_stores sv K w0 _ _ _ _ w2)).
  destruct Hr3 as [-> | ->].
  2: { intros [= <- <-]. exists os', (folders (w_db w)). split_and!; [done| |apply thinned_refl].
       destruct Ht as [Ht _]. by split. }
  intros E. pose proof Hw2 as (_&Hfs&_). rewrite Hfs in E.
  destruct (erase_folders ids s (owned_folders s (w_db w)) _ _ w3 Hw3) as (fs'&Hf&Hw4).
  unfold owned_folders in Hf, Hw4. rewrite E in Hf, Hw4. cbn [fst snd] in Hf, Hw4. exists os', fs'. split_and!; [done| |done].
  destruct Ht as [Ht1 Ht2]. split; [done|]. intros _. by apply Ht2.
Qed.
End erase_all.

(** ** An erasure that succeeds leaks nothing *)
Section erase_ok.
Context {Pr : Primitives} {PrOk : PrimitivesOk} {P : Platform} {F : OpenFGA} {Mi : Mime}.
Context {Lk : Leaks}.
Context (B : gmap string bytes).

Definition tables_ok (w : KW) : Prop := db_inv B (w_db w).

Lemma tables_ok_stores : stores_only tables_ok.
Proof. intros w w' Hd _. unfold tables_ok. by rewrite Hd. Qed.

Lemma tables_ok_fga f : keeps tables_ok (fga_update f).
Proof. apply keeps_fga_update. split; [apply tables_ok_stores|done]. Qed.

Lemma tables_ok_Remove i : keeps tables_ok (Remove i).
Proof.
  intros w Hw. destruct (Remove i w) as [r w'] eqn:E. unfold tables_ok. cbn [snd].
  apply Remove_spec in E as (_&[[Hd _]|[Hd Hcv]]); rewrite Hd; [done|].
  apply inv_with_conv; [done|]. rewrite Hcv. apply (inv_token _ _ Hw).
Qed.

Lemma tables_ok_Blob_Delete h : keeps tables_ok (Blob.Delete h).
Proof.
  intros w Hw. destruct (Blob.Delete h w) as [r w'] eqn:E. apply Delete_cases in E as [Ho _].
  injection Ho as Hd _ _. unfold tables_ok. cbn. by rewrite Hd.
Qed.

#[local] Hint Resolve tables_ok_stores tables_ok_fga tables_ok_Remove tables_ok_Blob_Delete : go.

(** The statements on the tables, one after another, are those of reclaimObject. *)
Lemma erase_object_ok s o w w' :
  tables_ok w → erase_object s o w = (Ok tt, w') → tables_ok w'.
Proof.
  intros Hw E. unfold erase_object in E.
  apply bind_ok_inv in E as (hashes&w1&E1&E). apply query_cases in E1 as (D1&_&_&_&[[= ->]|[=]]).
  apply bind_ok_inv in E as ([]&w2&E2&E). apply stmt_cases in E2 as (_&_&_&[(e&[=]&_)|(a&d&[= <- <-]&D2&_)]).
  rewrite D1 in D2. apply bind_ok_inv in E as (orphans&w3&E3&E).
  destruct (tx_DecRef (chunk_hashes_of (o_ID o) (w_db w)) _ w2 D2) as [_ H3]. rewrite E3 in H3.
  cbn [fst snd] in H3. destruct (H3 orphans eq_refl) as [D3 Ho]. clear H3. subst orphans.
  apply bind_ok_inv in E as ([]&w4&E4&E). cbn [snd] in D3.
  match type of E4 with DeleteChunks ?hs _ = _ =>
    destruct (tx_DeleteChunks hs _ w3 D3) as [_ H4] end. rewrite E4 in H4. specialize (H4 _ eq_refl). cbn [snd] in H4.
  assert (w_db w4 = reclaim_db (o_ID o) (w_db w)) as D4.
  { rewrite H4, D3. done. }
  assert (tables_ok w4) as Hw4 by (unfold tables_ok; rewrite D4; by apply inv_reclaim).
  match type of E with ?m w4 = _ => assert (keeps tables_ok m) as Hk end.
  { unfold DeleteObjectTuple, Authz.Delete. keeps_tac. }
  specialize (Hk w4 Hw4). by rewrite E in Hk.
Qed.

Lemma erase_folder_ok s f w r w' : tables_ok w → erase_folder s f w = (r, w') → tables_ok w'.
Proof.
  intros Hw E. cut (keeps tables_ok (erase_folder s f)).
  { intros Hk. specialize (Hk w Hw). by rewrite E in Hk. }
  unfold erase_folder, DeleteFolderRow, delete_folder_stmt, DeleteObjectTuple, Authz.Delete. keeps_tac.
  apply keeps_attempt, keeps_stmt; [apply tables_ok_stores|]. intros w1 a d Hw1.
  destruct (_ && _) eqn:Eg; [done|]. intros [= <- <-]. unfold tables_ok. cbn.
  apply andb_false_iff in Eg as [Hn|Hn]; apply bool_decide_eq_false in Hn.
  - apply eq_None_not_Some in Hn. rewrite delete_id by done. by destruct Hw1.
  - by apply inv_delete_folder.
Qed.

Lemma for_each_ok {A} (f : A → M KW unit) l w w' :
  (∀ x w w', x ∈ l → tables_ok w → f x w = (Ok tt, w') → tables_ok w') →
  tables_ok w → for_each l f w = (Ok tt, w') → tables_ok w'.
Proof.
  revert w. induction l as [|x l IH]; intros w Hf Hw; cbn [for_each]; [by intros [= <-]|].
  intros ([]&w1&E1&E)%bind_ok_inv. apply (IH w1); [|by apply (Hf x w); [left|..]|done].
  intros y v v' Hy. apply Hf. by right.
Qed.

Lemma EraseSubject_ok s w w' :
  tables_ok w → SubjectData.EraseSubject s w = (Ok tt, w') → tables_ok w'.
Proof.
  intros Hw E. unfold SubjectData.EraseSubject in E.
  apply bind_ok_inv in E as (objs&w1&E1&E). apply query_cases in E1 as (D1&R1&_).
  apply bind_ok_inv in E as ([]&w2&E2&E). apply bind_ok_inv in E as (fldrs&w3&E3&E).
  apply query_cases in E3 as (D3&R3&_).
  assert (tables_ok w1) as Hw1 by (unfold tables_ok; by rewrite D1).
  assert (tables_ok w2) as Hw2 by (eapply (for_each_ok (erase_object s)); [|exact Hw1|exact E2]; intros *; intros _; apply erase_object_ok).
  assert (tables_ok w3) as Hw3 by (unfold tables_ok; by rewrite D3).
  eapply (for_each_ok (erase_folder s)); [|exact Hw3|exact E]. intros *. intros _. apply erase_folder_ok.
Qed.
End erase_ok.

(** The accounting of some chunks, and the rest of the invariant. *)
Lemma inv_exact (Lk : Leaks) B B' d :
  db_inv (Lk := any_leak) B d → db_inv (Lk := Lk) B' d → db_inv (Lk := Lk) B d.
Proof. intros [] [_ _ _ _ _ _ _ _ _ _ Hr _ _]. by split. Qed.

(** Erasure evolves the world; when it fails, with the chunks of that person's
    files leaked. *)
Lemma EraseSubject_evolves {Pr : Primitives} {PrOk : PrimitivesOk} {P : Platform} {F : OpenFGA} {Mi : Mime}
    (Lk : Leaks) (sv : Service) (K : string → Prop) s w r w' :
  kam_inv (Lk := Lk) sv w → (∀ i, i ∈ object_ids s (w_db w) → ¬ K i) →
  SubjectData.EraseSubject s w = (r, w') →
  (is_ok r = false → ∀ h, h ∈ erased_hashes s (w_db w) → leaked (Leaks := Lk) h) →
  evolves (Lk := Lk) sv K w w'.
Proof.
  intros HI HK E Hl. destruct (is_ok r) eqn:Er.
  2: { by destruct (EraseSubject_spec sv K w s w r w' (evolves_refl sv K w HI) HK (Hl eq_refl) E). }
  destruct r as [[]|]; [|done].
  assert (kam_inv (Lk := any_leak) sv w) as HI'.
  { destruct HI as [HI Hok]. split; [|done]. pose proof (inv_refs _ _ HI) as Hr. destruct HI. split; try done.
    intros h ch Hc. destruct (Hr h ch Hc) as [? _]. split; [done|]. intros Hn. by destruct Hn. }
  destruct (EraseSubject_spec (Lk := any_leak) sv K w s w (Ok tt) w' (evolves_refl sv K w HI') HK (λ _ _, I) E)
    as (([HI1 Hs]&Hok&Hb)&_).
  split_and!; [split; [|exact Hs]|done|done].
  eapply (inv_exact Lk); [exact HI1|]. apply (EraseSubject_ok (w_blobs w) s w w'); [apply HI|done].
Qed.
