(* ===== verification/Kamara.v ===== *)
(** * Kamara: the file service as a transition system

    Every operation of the domain, the erasure of a person's data and the minting
    of editing sessions, as one step of a transition system whose other
    steps are the environment's (time passes, randomness is drawn, faults are
    scheduled, other writers change authorization tuples).  The theorems are
    about every reachable world and every run. *)

From S2P Require Import Prelude GoText Ids World Pii Pseudonym Conventions Authz Chunker ChunkCrypto Blob Engine Repo RepoInv FileService FolderService Wopi SubjectData KamaraSafety EraseSteps.
Import Pii Chunker.

Inductive kop :=
  | KUpload (owner : Subject) (folder : option string) (name : string) (body : list rd_event)
  | KDownload (caller : Subject) (i : string)
  | KWrite (caller : Subject) (i : string) (body : list rd_event) (base : option Z)
  | KVersions (caller : Subject) (i : string)
  | KOrdinal (caller : Subject) (i : string)
  | KList (caller : Subject)
  | KGet (caller : Subject) (i : string)
  | KDelete (caller : Subject) (i : string)
  | KCreateFolder (owner : Subject) (parent : option string) (name : string)
  | KGetFolder (caller : Subject) (i : string)
  | KListChildren (caller : Subject) (folder : option string)
  | KAncestors (caller : Subject) (i : string)
  | KAllFolders (caller : Subject)
  | KRenameFile (caller : Subject) (i name : string)
  | KMoveFile (caller : Subject) (i : string) (dest : option string)
  | KRenameFolder (caller : Subject) (i name : string)
  | KMoveFolder (caller : Subject) (i : string) (dest : option string)
  | KDeleteFolder (caller : Subject) (i : string)
  | KDeleteTree (caller : Subject) (i : string)
  | KMint (subject : Subject) (i : string) (canWrite : bool) (ttl : Z)
  | KErase (subject : Subject).

Section kamara.
Context {Pr : Primitives} {P : Platform} {F : OpenFGA} {Mi : Mime}.
Context (s : Service).

Definition run_op (o : kop) : M KW unit :=
  match o with
  | KUpload owner folder name body => Upload s owner folder name body ;; mret tt
  | KDownload caller i => λ w, let '(r, (w', _)) := Download s caller i (w, []) in (r, w')
  | KWrite caller i body base => writeVersion s caller i body base ;; mret tt
  | KVersions caller i => ListFileVersions caller i ;; mret tt
  | KOrdinal caller i => LatestOrdinal caller i ;; mret tt
  | KList caller => List_ caller ;; mret tt
  | KGet caller i => Get_ caller i ;; mret tt
  | KDelete caller i => Delete_ s caller i
  | KCreateFolder owner parent name => CreateFolder owner parent name ;; mret tt
  | KGetFolder caller i => GetFolder caller i ;; mret tt
  | KListChildren caller folder => ListChildren caller folder ;; mret tt
  | KAncestors caller i => Ancestors caller i ;; mret tt
  | KAllFolders caller => AllFolders caller ;; mret tt
  | KRenameFile caller i name => RenameFile caller i name
  | KMoveFile caller i dest => MoveFile caller i dest
  | KRenameFolder caller i name => RenameFolder caller i name
  | KMoveFolder caller i dest => MoveFolder caller i dest
  | KDeleteFolder caller i => DeleteFolder caller i
  | KDeleteTree caller i => DeleteFolderTree s caller i
  | KMint subject i canWrite ttl => Wopi.Mint ttl subject i canWrite ;; mret tt
  | KErase subject => SubjectData.EraseSubject subject
  end.

(** An operation, or the environment: anything that leaves Kamara's database
    and blob store alone. *)
Inductive kstep : option kop → KW → KW → Prop :=
  | kstep_op o w : kstep (Some o) w (run_op o w).2
  | kstep_env w w' : w_db w' = w_db w → w_blobs w' = w_blobs w → kstep None w w'.

(** The operations that are meant to change or remove the file [oid]. *)
Definition targets (l : option kop) (d : KDB) (oid : string) : Prop :=
  match l with
  | Some (KWrite _ i _ _) | Some (KDelete _ i) => i = oid
  | Some (KDeleteTree _ root) => tree_file d root oid
  | Some (KErase subject) => ∃ o, objects d !! oid = Some o ∧ o_Owner o = subject
  | _ => False
  end.

(** The chunks an erasure that fails may leave counted without a reference: those
    of the person's files. *)
Definition lost_by (l : option kop) (w : KW) : list string :=
  match l with
  | Some (KErase subject) =>
      if is_ok (SubjectData.EraseSubject subject w).1 then [] else erased_hashes subject (w_db w)
  | _ => []
  end.

(** Runs, and runs in which no step targets [oid]. *)
Inductive run : KW → KW → Prop :=
  | run_refl w : run w w
  | run_step l w1 w2 w3 : kstep l w1 w2 → run w2 w3 → run w1 w3.

Inductive run_avoiding (oid : string) : KW → KW → Prop :=
  | avoid_refl w : run_avoiding oid w w
  | avoid_step l w1 w2 w3 :
      ¬ targets l (w_db w1) oid → kstep l w1 w2 → run_avoiding oid w2 w3 → run_avoiding oid w1 w3.

(** Runs with the chunks that erasures which failed on the way may have left. *)
Inductive run_losing : list string → KW → KW → Prop :=
  | losing_refl w : run_losing [] w w
  | losing_step l L w1 w2 w3 : kstep l w1 w2 → run_losing L w2 w3 → run_losing (lost_by l w1 ++ L) w1 w3.

(** The content of a file: the plaintexts of the chunks of its latest version. *)
Definition stored_as (w : KW) (oid : string) (data : bytes) : Prop :=
  ∃ v xs, latest_version oid (w_db w) = Some v ∧
    Forall2 (opens (s_cipher s) (w_blobs w)) (manifest_hashes (v_ID v) (w_db w)) xs ∧
    concat xs = data.

(** ** Every step evolves the world *)
Context {PrOk : PrimitivesOk}.

Lemma kstep_evolves {Lk : Leaks} (K : string → Prop) l w w' :
  kstep l w w' → kam_inv s w → kept_exist K (w_db w) → (∀ h, h ∈ lost_by l w → leaked h) →
  (∀ oid, K oid → ¬ targets l (w_db w) oid) → evolves s K w w'.
Proof.
  intros Hs HI HK Hl Ht. pose proof (evolves_refl s K w HI) as HE.
  destruct Hs as [o w|w w' Hd Hb].
  2: { destruct HE as (H1&H2&H3). unfold evolves. rewrite Hd, Hb. done. }
  destruct o; cbn [run_op targets] in *;
    try match goal with |- evolves _ _ _ ((_ ≫= _) w).2 =>
      apply (keeps_bind (evolves s K w)); [|intros ?; apply keeps_ret|done] end.
  - by apply keeps_Upload.
  - pose proof (keeps_Download s K w caller i (w, []) HE) as H.
    by destruct (Download s caller i (w, [])) as [r [w' out]].
  - apply keeps_writeVersion. intros Hk. by apply (Ht i).
  - by apply (keeps_reads s K w caller i None).
  - by apply (keeps_reads s K w caller i None).
  - by apply (keeps_reads s K w caller "" None).
  - by apply (keeps_reads s K w caller i None).
  - apply (keeps_Delete_ s K w); [|done]. intros Hk. by apply (Ht i).
  - by apply keeps_CreateFolder.
  - by apply (keeps_reads s K w caller i None).
  - by apply (keeps_reads s K w caller "" folder).
  - by apply (keeps_reads s K w caller i None).
  - by apply (keeps_reads s K w caller "" None).
  - by apply (keeps_RenameFile s K w).
  - by apply (keeps_MoveFile s K w).
  - by apply (keeps_RenameFolder s K w).
  - by apply (keeps_MoveFolder s K w).
  - by apply (keeps_DeleteFolder s K w).
  - by apply evolves_DeleteFolderTree.
  - apply (keeps_Mint s K w).
  - destruct (SubjectData.EraseSubject subject w) as [r w'] eqn:E.
    eapply EraseSubject_evolves; [exact HI| |exact E|].
    + intros i Hi Hk. apply (Ht i Hk). by eapply elem_of_object_ids; [apply (proj1 HI)|].
    + intros Hr. cbn in Hl. rewrite E in Hl. cbn [fst] in Hl. by rewrite Hr in Hl.
Qed.

Lemma run_losing_inv {Lk : Leaks} L w w' :
  run_losing L w w' → (∀ h, h ∈ L → leaked h) → kam_inv s w → kam_inv s w'.
Proof.
  induction 1 as [|l L w1 w2 w3 Hs _ IH]; [done|]. intros HL HI.
  apply IH; [intros h Hh; apply HL, elem_of_app; by right|].
  apply (evolves_inv s (λ _, False) w1). eapply kstep_evolves; [done|done|by intros i []| |by intros oid []].
  intros h Hh. apply HL, elem_of_app. by left.
Qed.

(** Every run loses some list of chunks. *)
Lemma run_run_losing w w' : run w w' ↔ ∃ L, run_losing L w w'.
Proof.
  split.
  - induction 1 as [|l w1 w2 w3 Hs _ [L IH]]; [by exists []; constructor|]. eexists. by econstructor.
  - intros [L H]. induction H; [constructor|by econstructor].
Qed.

Lemma kstep_inv l w w' : kstep l w w' → kam_inv s w → kam_inv s w'.
Proof.
  intros Hs HI. apply (evolves_inv s (λ _, False) w). eapply kstep_evolves; [done|done|by intros i []|done|by intros oid []].
Qed.

Lemma run_inv w w' : run w w' → kam_inv s w → kam_inv s w'.
Proof. induction 1; eauto using kstep_inv. Qed.

Lemma run_trans w1 w2 w3 : run w1 w2 → run w2 w3 → run w1 w3.
Proof. induction 1; eauto using run. Qed.

Lemma boot_inv {Lk : Leaks} : kam_inv s (boot kdb_empty).
Proof.
  split.
  - split; cbn; try (intros *; by rewrite ?lookup_empty); try (by intros r ?%not_elem_of_nil).
    by apply NoDup_nil_2.
  - intros h [b Hb]. cbn in Hb. by rewrite lookup_empty in Hb.
Qed.

(** A kept file keeps its content. *)
Lemma evolves_stored_as (K : string → Prop) w w' oid data :
  K oid → kam_inv s w → evolves s K w w' → stored_as w oid data → stored_as w' oid data.
Proof.
  intros HK [HI _] ([HI' Hs]&_&Hb) (v&xs&Hv&Hx&<-). destruct (Hs oid HK) as [Hsame _].
  assert (∃ k, versions (w_db w) !! k = Some (VRow oid v)) as [k Hk]
    by (by apply elem_of_versions_of, latest_newest).
  pose proof (inv_vkey _ _ HI k _ Hk) as Hid. cbn in Hid. rewrite <- Hid in Hk.
  exists v, xs. split_and!; [|clear Hid|done].
  - by rewrite (same_file_latest _ _ oid _ _ HI HI' Hsame).
  - assert (manifest_hashes (v_ID v) (w_db w') = manifest_hashes (v_ID v) (w_db w)) as ->.
    { unfold manifest_hashes. rewrite !own_rows_manifest. by rewrite (proj2 Hsame _ v Hk). }
    eapply Forall2_impl_elem; [exact Hx|]. clear Hx.
    intros h x Hh _ (b&Hbl&Ho). exists b. split; [|done]. rewrite <- Hbl.
    apply elem_of_manifest_hashes in Hh as (r&Hr&Hm&<-).
    apply (Hb oid (v_ID v) v r); [done|done|]. by apply list_elem_of_filter.
Qed.

Lemma run_avoiding_stored oid w w' data :
  run_avoiding oid w w' → kam_inv s w → is_Some (objects (w_db w) !! oid) →
  stored_as w oid data → kam_inv s w' ∧ stored_as w' oid data.
Proof.
  induction 1 as [|l w1 w2 w3 Ht Hs _ IH]; [done|]. intros HI Ho Hd.
  assert (evolves s (λ i, i = oid) w1 w2) as HE.
  { eapply kstep_evolves; [done|done|by intros i ->|done|by intros i ->]. }
  apply IH.
  - by apply (evolves_inv s (λ i, i = oid) w1).
  - by apply (evolves_exist s (λ i, i = oid) w1 w2); [intros i ->| |].
  - by apply (evolves_stored_as (λ i, i = oid) w1).
Qed.

(** ** The content an upload or a save leaves *)

(** Statements that leave versions and manifests alone. *)
Definition same_tables (d0 d : KDB) : Prop :=
  versions d = versions d0 ∧ version_chunks d = version_chunks d0.

Lemma tx_upload_new B o verID refs d0 :
  db_inv B d0 → (∀ ref, ref ∈ refs → is_Some (B !! cr_Hash ref)) →
  txspec (λ d, d = d0) (InsertObject o ;; InsertVersion (o_ID o) verID 0 (o_Size o) refs ;;
    Emit (o_Owner o) "kamara.file.created" (file_audit (o_ID o)) ;;
    Feed (file_doc (o_ID o) (o_Owner o) (o_Name o)))
    (λ _ d, new_version (o_ID o) verID 0 (o_Size o) refs d0 d ∧ objects d0 !! o_ID o = None ∧
            objects d = <[o_ID o := o]> (objects d0)).
Proof.
  intros HI HB. eapply txspec_bind; [apply tx_InsertObject|]. intros [].
  apply (txspec_pure _ (objects d0 !! o_ID o = None ∧ fk_ok (o_FolderID o) (folders d0) = true));
    [by intros d (_&?&?)|]. intros [Hn Hfk].
  assert (db_inv B (add_object o d0)) as HI1 by (by apply inv_add_object).
  apply (txspec_bind _ _ _ (λ _ d, db_inv B d ∧ new_version (o_ID o) verID 0 (o_Size o) refs d0 d ∧
                                   objects d = <[o_ID o := o]> (objects d0))).
  { eapply txspec_weaken; [apply (tx_InsertVersion B _ _ _ _ _ (add_object o d0) HB)|by intros d (->&_)|].
    intros [] d (HId&Hord&Hvid&t&->). split; [done|].
    destruct (add_refs_tables verID 0 refs (add_version (o_ID o) verID 0 (o_Size o) t (add_object o d0)))
      as (H1&H2&H3).
    split; [|by rewrite H3]. split_and!; [done|done|]. exists t. by rewrite H1, H2. }
  intros []. apply (txspec_bind _ _ _ (λ _ d, new_version (o_ID o) verID 0 (o_Size o) refs d0 d ∧
                                              objects d = <[o_ID o := o]> (objects d0))).
  - intros w (HId&Hnv&Ho).
    destruct (tx_Emit_conv B (o_Owner o) "kamara.file.created" (file_audit (o_ID o)) _ HId w eq_refl) as [E1 E2].
    split; [done|]. intros a Ha. destruct (E2 a Ha) as (cv&->&_). done.
  - intros []. intros w [Hnv Ho].
    destruct (tx_Feed (file_doc (o_ID o) (o_Owner o) (o_Name o)) _ w eq_refl) as [E1 E2].
    split; [done|]. intros a Ha. rewrite (E2 a Ha). done.
Qed.

(** Database and blobs untouched. *)
Definition same_data (w0 w : KW) : Prop := w_db w = w_db w0 ∧ w_blobs w = w_blobs w0.

Lemma same_data_stores w0 : stores_only (same_data w0).
Proof. intros w w' Hd Hr [H1 H2]. injection Hr as Hb _. split; congruence. Qed.

#[local] Hint Resolve same_data_stores : go.

Lemma keeps_same_fga w0 f : keeps (same_data w0) (fga_update f).
Proof. apply keeps_fga_update. split; [apply same_data_stores|done]. Qed.

#[local] Hint Resolve keeps_same_fga : go.

Lemma keeps_same_authorize w0 caller o : keeps (same_data w0) (authorizeAccess caller o).
Proof. unfold authorizeAccess. keeps_tac. Qed.

#[local] Hint Resolve keeps_same_authorize : go.

Lemma keeps_same {A} (m : M KW A) w a w' :
  keeps (same_data w) m → m w = (Ok a, w') → same_data w w'.
Proof. intros H E. specialize (H w (conj eq_refl eq_refl)). by rewrite E in H. Qed.

(** What a successful commit leaves. *)
Lemma upload_commit_ok owner folderID name refs total w o w' :
  kam_inv s w → refs_present refs w →
  upload_commit owner folderID name refs total w = (Ok o, w') →
  w_blobs w' = w_blobs w ∧ db_inv (w_blobs w) (w_db w') ∧ o_Size o = total ∧
  objects (w_db w') !! o_ID o = Some o ∧ objects (w_db w) !! o_ID o = None ∧
  ∃ vid, new_version (o_ID o) vid 0 total refs (w_db w) (w_db w').
Proof.
  intros [HI Hok] HR E. unfold upload_commit in E.
  apply bind_ok_inv in E as (t&w1&E1&E). injection E1 as <- <-.
  apply bind_ok_inv in E as (i&w2&E2&E). assert (same_data w w2) as S2
    by (eapply keeps_same; [|exact E2]; auto with go).
  apply bind_ok_inv in E as (verID&w3&E3&E). assert (same_data w2 w3) as S3
    by (eapply keeps_same; [|exact E3]; auto with go).
  apply bind_ok_inv in E as ([]&w4&E4&E).
  destruct S2 as [D2 B2], S3 as [D3 B3].
  set (o1 := MkObject i owner name total folderID (contentTypeOf name) (w_now w) (w_now w)) in *.
  assert (db_inv (w_blobs w) (w_db w3)) as HI3 by congruence.
  assert (∀ ref, ref ∈ refs → is_Some (w_blobs w !! cr_Hash ref)) as HR' by exact HR.
  unfold upload_tx in E4.
  pose proof (tx_evolves_upload (λ _, False) (w_blobs w) o1 verID refs (w_db w3) HI3 ltac:(by intros ? []) HR') as T1.
  pose proof (tx_upload_new (w_blobs w) o1 verID refs (w_db w3) HI3 HR') as T2.
  pose proof (InTx_txspec _ _ _ _ _ _ T1 eq_refl E4) as [Hr4 [[_ [=]]|(a&[[HI4 _] _]&_)]].
  pose proof (InTx_txspec _ _ _ _ _ _ T2 eq_refl E4) as [_ [[_ [=]]|(a'&(Hnv&Hn&Hs')&_)]].
  assert (objects (w_db w4) !! o_ID o1 = Some o1) as Hs by (rewrite Hs'; apply lookup_insert_eq).
  assert (same_data w4 w' ∧ o = o1) as [[D5 B5] ->].
  { apply bind_ok_inv in E as ([]&w5&E5&E). apply bind_ok_inv in E as ([]&w6&E6&E).
    injection E as <- <-. split; [|done].
    assert (same_data w4 w5) as [? ?] by (eapply keeps_same; [|exact E5]; unfold Write; auto with go).
    assert (same_data w5 w6) as [? ?]
      by (eapply keeps_same; [|exact E6]; unfold WriteObjectTuple; destruct folderID; auto with go).
    split; congruence. }
  injection Hr4 as B4 _. rewrite D5, B5, B4, B3, B2. split_and!; try done; [congruence|].
  exists verID. by rewrite <- D2, <- D3.
Qed.

Lemma new_object_latest B B' o vid total refs d d' :
  db_inv B d → db_inv B' d' → objects d !! o = None → new_version o vid 0 total refs d d' →
  ∃ v, latest_version o d' = Some v ∧ manifest_hashes (v_ID v) d' = cr_Hash <$> refs.
Proof.
  intros HI HI' Hn Hnv.
  destruct (new_version_latest B' o vid 0 total refs d d' HI' Hnv) as [t Ht].
  { intros u [k Hk]%elem_of_versions_of. destruct (inv_vobject _ _ HI k _ Hk) as [x Hx].
    cbn in Hx. congruence. }
  eexists. split; [exact Ht|]. by apply (new_version_manifest B o vid 0 total refs d d').
Qed.

(** The chunks of a body, opened from the store after it was ingested. *)
Lemma ingested_open body w refs total w' :
  kam_inv s w → good body → no_collision (s_cipher s) (w_blobs w) (events_data body) →
  Ingest (s_cipher s) body w = (Ok (refs, total), w') →
  grows (s_cipher s) (chunks kamara_params (events_data body)) w w' ∧ kam_inv s w' ∧
  refs_present refs w' ∧ total = blen (events_data body) ∧
  Forall2 (opens (s_cipher s) (w_blobs w')) (cr_Hash <$> refs) (chunks kamara_params (events_data body)).
Proof.
  intros HI Hg [Hc1 Hc2] E. unfold Ingest in E.
  rewrite Split_chunks in E by (done || apply kamara_params_ok).
  set (l := chunks kamara_params (events_data body)) in *.
  destruct (for_each l _ _) as [r [w1 st]] eqn:El. apply ingest_list_spec in El as [G Hst].
  destruct r as [[]|e]; [|done]. destruct (Hst eq_refl) as [-> Hin].
  cbn [app] in E. injection E as <- <- <-.
  assert (evolves s (λ _, False) w w1) as HE by (eapply evolves_grows; [by apply evolves_refl|done]).
  split; [done|]. split; [by apply (evolves_inv s (λ _, False) w)|]. split_and!.
  - intros ref (x&->&Hx)%list_elem_of_fmap. by apply Hin.
  - rewrite total_size_concat. unfold l. by rewrite (chunks_concat _ _ kamara_params_ok).
  - rewrite <- list_fmap_compose. apply Forall2_fmap_l, Forall_Forall2_diag, Forall_forall. intros x Hx. cbn.
    apply (grows_opens (s_cipher s) l w w1 x); auto. apply HI.
Qed.

(** Reading a stored file when nothing fails. *)
Lemma Download_opens B caller oid w data :
  db_inv B (w_db w) → w_faults w = [] → stored_as w oid data →
  fga_check (w_fga w) (tuple caller AccessRelation (obj oid)) = true →
  Download s caller oid (w, []) = (Ok tt, (w, data)).
Proof.
  intros HI Hf (v&xs&Hv&Hx&<-) Hc.
  assert (on_world (authorize caller oid) (w, [] : bytes) = (Ok tt, (w, []))) as E1.
  { cbn. unfold authorize, authorizeAccess. by rewrite run_bind, run_Check_nil, Hc. }
  assert (on_world (ManifestOf oid) (w, [] : bytes) = (Ok (manifest_of oid (w_db w)), (w, []))) as E2.
  { cbn. unfold ManifestOf. by rewrite run_query_nil. }
  unfold Download. rewrite (run_bind_ok _ _ _ _ _ E1), (run_bind_ok _ _ _ _ _ E2).
  unfold manifest_of. rewrite Hv, (Reassemble_nil _ _ xs); [done|done|].
  rewrite <- (manifest_refs_hashes _ _ _ HI) in Hx. rewrite Forall2_fmap_l in Hx.
  eapply Forall2_impl; [exact Hx|]. intros ref x Ho. split; [|done].
  apply opens_hash in Ho. rewrite <- Ho. apply ChunkHash_valid.
Qed.

Lemma Download_stored caller oid w data :
  kam_inv s w → w_faults w = [] → stored_as w oid data →
  fga_check (w_fga w) (tuple caller AccessRelation (obj oid)) = true →
  Download s caller oid (w, []) = (Ok tt, (w, data)).
Proof. intros [HI _]. by apply (Download_opens (w_blobs w)). Qed.

Lemma Upload_stored owner folderID name body w o w' :
  kam_inv s w → good body → no_collision (s_cipher s) (w_blobs w) (events_data body) →
  Upload s owner folderID name body w = (Ok o, w') →
  kam_inv s w' ∧ stored_as w' (o_ID o) (events_data body) ∧
  objects (w_db w') !! o_ID o = Some o ∧ o_Size o = blen (events_data body).
Proof.
  intros HI Hg Hc E. pose proof (keeps_Upload s (λ _, False) w owner folderID name body) as HU.
  specialize (HU ltac:(by intros ? []) w (evolves_refl s _ w HI)). rewrite E in HU.
  apply evolves_inv in HU. split; [exact HU|].
  unfold Upload in E. case_bool_decide; [done|].
  apply bind_ok_inv in E as (a&w1&E1&E).
  assert (same_data w w1) as [D1 B1].
  { eapply keeps_same; [|exact E1]. destruct folderID; unfold authorizeFolder; auto with go. }
  apply bind_ok_inv in E as ([refs total]&w2&E2&E). cbn [fst snd] in E.
  assert (kam_inv s w1) as HI1 by (unfold kam_inv; by rewrite D1, B1).
  rewrite <- B1 in Hc.
  destruct (ingested_open body w1 refs total w2 HI1 Hg Hc E2) as (G&HI2&HR&->&Hop).
  destruct (upload_commit_ok _ _ _ _ _ _ _ _ HI2 HR E) as (B3&HI3&Hsz&Ho&Hn&vid&Hnv).
  destruct (new_object_latest _ _ _ _ _ _ _ _ (proj1 HI2) HI3 Hn Hnv) as (v&Hv&Hm).
  split_and!; [|done|done]. exists v, (chunks kamara_params (events_data body)).
  rewrite Hm, B3. split_and!; [done|done|by apply chunks_concat, kamara_params_ok].
Qed.

(** ** Saving a version *)

(** What a committed save did to the database. *)
Definition saved (oid : string) (base : option Z) (refs : list ChunkRef) (total ordinal : Z)
    (d0 d : KDB) : Prop :=
  max_ordinal oid d0 = Some (ordinal - 1)%Z ∧ (∀ b, base = Some b → b = (ordinal - 1)%Z) ∧
  ∃ vid, new_version oid vid ordinal total refs d0 d.

(** The transaction after its query, whatever ordinal that has read. *)
Lemma tx_write_at B caller oid verID base refs total m d0 :
  db_inv B d0 → (∀ ref, ref ∈ refs → is_Some (B !! cr_Hash ref)) →
  txspec (λ d, d = d0) (write_version_at caller oid verID base refs total m)
    (λ ord d, m = Some (ord - 1)%Z ∧ (∀ b, base = Some b → b = (ord - 1)%Z) ∧
       db_inv B d ∧ new_version oid verID ord total refs d0 d).
Proof.
  intros HI HB. destruct m as [maxOrd|]; [|apply txspec_throw]. cbn [write_version_at].
  destruct (match base with Some b => _ | None => _ end) eqn:Eb; [apply txspec_throw|].
  assert (∀ b, base = Some b → b = maxOrd) as Hb.
  { intros b ->. apply negb_false_iff, bool_decide_eq_true in Eb. done. }
  apply (txspec_bind _ _ _ (λ _ d, db_inv B d ∧ new_version oid verID (maxOrd + 1) total refs d0 d)).
  { eapply txspec_weaken; [apply (tx_InsertVersion B _ _ _ _ _ d0 HB)|by intros d ->|].
    intros [] d (HId&Hord&Hvid&t&->). split; [done|].
    destruct (add_refs_tables verID 0 refs (add_version oid verID (maxOrd + 1) total t d0)) as (H1&H2&_).
    split_and!; [done|done|]. exists t. by rewrite H1, H2. }
  intros [].
  apply (txspec_bind _ _ _ (λ _ d, db_inv B d ∧ new_version oid verID (maxOrd + 1) total refs d0 d)).
  { intros w [HId Hnv].
    destruct (tx_evolves_SetObjectSize (λ _, False) B oid total _ HId w eq_refl) as [E1 E2].
    assert (txspec (λ d, d = w_db w) (SetObjectSize oid total) (λ _ d, same_tables (w_db w) d)) as Ht.
    { apply txspec_now. by intros t a d [= <- <-]. }
    destruct (Ht w eq_refl) as [_ E3]. split; [done|]. intros a Ha.
    destruct (E2 a Ha) as [[HI' _] _]. destruct (E3 a Ha) as [V1 V2]. split; [done|].
    destruct Hnv as (N1&N2&t&N3&N4). split_and!; [done|done|]. exists t. by rewrite V1, V2. }
  intros [].
  apply (txspec_bind _ _ _ (λ _ d, db_inv B d ∧ new_version oid verID (maxOrd + 1) total refs d0 d)).
  { intros w [HId Hnv].
    destruct (tx_Emit_conv B caller "kamara.file.version_written" (file_audit oid) _ HId w eq_refl) as [E1 E2].
    split; [done|]. intros a Ha. destruct (E2 a Ha) as (cv&->&Hcv). split; [by apply inv_with_conv|done]. }
  intros []. eapply txspec_weaken; [apply txspec_ret|exact (λ _ H, H)|].
  intros a d [-> Hnv]. replace (maxOrd + 1 - 1)%Z with maxOrd by lia. destruct Hnv. eauto.
Qed.

Lemma tx_write_new B caller oid verID base refs total d0 :
  db_inv B d0 → (∀ ref, ref ∈ refs → is_Some (B !! cr_Hash ref)) →
  txspec (λ d, d = d0) (m ← MaxOrdinal oid; write_version_at caller oid verID base refs total m)
    (λ ord d, saved oid base refs total ord d0 d).
Proof.
  intros HI HB. eapply txspec_bind; [apply txspec_query|]. intros m.
  apply (txspec_pure _ (m = max_ordinal oid d0)); [by intros d [-> ->]|]. intros ->.
  eapply txspec_weaken; [by apply (tx_write_at B)|by intros d [_ ->]|].
  intros ord d (Hm&Hb&_&Hnv). unfold saved. eauto.
Qed.

Lemma write_version_tx_spec caller oid verID base refs total w r w' :
  kam_inv s w → refs_present refs w →
  write_version_tx caller oid verID base refs total w = (r, w') →
  kam_inv s w' ∧ w_rest w' = w_rest w ∧
  ((w_db w' = w_db w ∧ is_ok r = false) ∨
   (∃ ord, saved oid base refs total ord (w_db w) (w_db w') ∧
      (r = Ok ord ∨ r = Err (ErrWrap "dbtx: commit" ErrExternal)))).
Proof.
  intros HI HR E. pose proof E as E'.
  apply (InTx_evolves s (λ _, False) _ (λ _ _, True) w w r w' (evolves_refl s _ w HI)) in E' as (H1&H2&_).
  2: { apply tx_evolves_write_version; [by intros []|exact HR|apply HI]. }
  split; [by eapply evolves_inv|]. split; [done|].
  by destruct (InTx_txspec _ _ _ _ _ _ (tx_write_new (w_blobs w) caller oid verID base refs total
    (w_db w) (proj1 HI) HR) eq_refl E) as [_ H].
Qed.

Lemma write_version_loop_spec left caller oid base refs total w r w' :
  kam_inv s w → refs_present refs w →
  write_version_loop left caller oid base refs total w = (r, w') →
  kam_inv s w' ∧ w_rest w' = w_rest w ∧
  ((w_db w' = w_db w ∧ is_ok r = false) ∨
   (∃ ord, saved oid base refs total ord (w_db w) (w_db w') ∧
      (r = Ok ord ∨ r = Err (ErrWrap "dbtx: commit" ErrExternal)))).
Proof.
  revert w. induction left as [|left IH]; intros w HI HR; cbn [write_version_loop];
    rewrite run_bind; destruct (new_id_frame w) as (verID&w1&E1&D1&R1&_); rewrite E1, run_bind;
    unfold attempt at 1; destruct (write_version_tx _ _ _ _ _ _ w1) as [r1 w2] eqn:E2;
    (assert (kam_inv s w1) as HI1 by (injection R1 as B1 _; unfold kam_inv; by rewrite D1, B1));
    (assert (refs_present refs w1) as HR1 by (injection R1 as B1 _; unfold refs_present; by rewrite B1));
    destruct (write_version_tx_spec _ _ _ _ _ _ _ _ _ HI1 HR1 E2) as (HI2&R2&Hc);
    rewrite D1 in Hc.
  all: (assert (w_rest w2 = w_rest w) as R by congruence).
  all: destruct r1 as [ord|e];
    [intros [= <- <-]; split_and!; [done|done|];
      destruct Hc as [[_ [=]]|(o&Hs&[[= <-]|[=]])]; right; eauto|].
  all: assert (∀ x, (throw e : M KW Z) w2 = (x, w') → kam_inv s w' ∧ w_rest w' = w_rest w ∧
    ((w_db w' = w_db w ∧ is_ok x = false) ∨
     (∃ ord, saved oid base refs total ord (w_db w) (w_db w') ∧
        (x = Ok ord ∨ x = Err (ErrWrap "dbtx: commit" ErrExternal))))) as Hthrow
    by (intros x [= <- <-]; split_and!; [done|done|]; destruct Hc as [[? _]|(o&Hs&[[=]|[= ->]])]; eauto).
  - destruct (errors_is e ErrVersionConflict); apply Hthrow.
  - destruct (errors_is e ErrVersionConflict) eqn:Ee; [|apply Hthrow].
    destruct left as [|left']; [apply Hthrow|].
    destruct Hc as [[D2 _]|(o&_&[[=]|[= ->]])]; [|done].
    intros E. apply IH in E; [|done|].
    + rewrite D2, R in E. done.
    + injection R2 as B2 _. injection R1 as B1 _. unfold refs_present. by rewrite B2, B1.
Qed.

Lemma saved_latest B B' oid base refs total ord d d' :
  db_inv B d → db_inv B' d' → saved oid base refs total ord d d' →
  ∃ v, latest_version oid d' = Some v ∧ manifest_hashes (v_ID v) d' = cr_Hash <$> refs ∧
       v_Ordinal v = ord ∧ v_Size v = total.
Proof.
  intros HI HI' (Hm&_&vid&Hnv).
  destruct (new_version_latest B' oid vid ord total refs d d' HI' Hnv) as [t Ht].
  { apply max_ordinal_newest in Hm as (v&[_ Hv]&Ho). intros u Hu. specialize (Hv u Hu). lia. }
  eexists. split; [exact Ht|]. split_and!; [|done|done].
  by apply (new_version_manifest B oid vid ord total refs d d').
Qed.

(** A save, with every outcome. *)
Lemma writeVersion_spec caller oid body base w r w' :
  kam_inv s w → writeVersion s caller oid body base w = (r, w') →
  kam_inv s w' ∧
  ((w_db w' = w_db w ∧ is_ok r = false) ∨
   (∃ refs total ord, saved oid base refs total ord (w_db w) (w_db w') ∧
      (r = Ok ord ∨ r = Err (ErrWrap "dbtx: commit" ErrExternal)))).
Proof.
  intros HI E.
  pose proof (keeps_writeVersion s (λ _, False) w caller oid body base ltac:(by intros [])
                w (evolves_refl s _ w HI)) as HU.
  rewrite E in HU. apply evolves_inv in HU. split; [exact HU|]. clear HU.
  unfold writeVersion in E. rewrite run_bind in E.
  pose proof (keeps_same_authorize w caller (obj oid) w (conj eq_refl eq_refl)) as [D1 B1].
  unfold authorize in E. destruct (authorizeAccess caller (obj oid) w) as [[[]|e] w1];
    [|injection E as <- <-; by left]. cbn in D1, B1.
  rewrite run_bind in E. destruct (Ingest_spec (s_cipher s) body w1) as (l&o&_&G&Hok).
  assert (kam_inv s w1) as HI1 by (unfold kam_inv; by rewrite D1, B1).
  destruct (Ingest (s_cipher s) body w1) as [[[refs total]|e] w2] eqn:E2; cbn [fst snd] in *.
  2: { injection E as <- <-. left. destruct G as (D2&_). split; [congruence|done]. }
  destruct (Hok refs total eq_refl) as (_&->&_&Hin).
  assert (kam_inv s w2) as HI2.
  { apply (evolves_inv s (λ _, False) w1). eapply evolves_grows; [by apply evolves_refl|done]. }
  apply write_version_loop_spec in E as (_&_&Hc); [|done|].
  - destruct G as (D2&_). rewrite D2, D1 in Hc. destruct Hc as [?|(ord&?&?)]; [by left|].
    right. eauto.
  - intros ref (x&->&Hx)%list_elem_of_fmap. by apply Hin.
Qed.

(** A save of a body that is read without error: nothing, or one more version that
    holds exactly the body; then the error can only be a lost answer. *)
Lemma writeVersion_effect caller oid body base w r w' :
  kam_inv s w → good body → no_collision (s_cipher s) (w_blobs w) (events_data body) →
  writeVersion s caller oid body base w = (r, w') →
  kam_inv s w' ∧
  ((w_db w' = w_db w ∧ is_ok r = false) ∨
   (∃ refs total ord, saved oid base refs total ord (w_db w) (w_db w') ∧ stored_as w' oid (events_data body) ∧
      (r = Ok ord ∨ r = Err (ErrWrap "dbtx: commit" ErrExternal)))).
Proof.
  intros HI Hg Hc E. unfold writeVersion in E. rewrite run_bind in E.
  destruct (keeps_same_authorize w caller (obj oid) w (conj eq_refl eq_refl)) as [D1 B1].
  unfold authorize in E. destruct (authorizeAccess caller (obj oid) w) as [[[]|e] w1]; cbn [snd] in D1, B1.
  2: { injection E as <- <-. split; [unfold kam_inv; by rewrite D1, B1|by left]. }
  assert (kam_inv s w1) as HI1 by (unfold kam_inv; by rewrite D1, B1). rewrite <- B1 in Hc.
  rewrite run_bind in E. destruct (Ingest_spec (s_cipher s) body w1) as (l'&o&_&G'&_).
  destruct (Ingest (s_cipher s) body w1) as [[[refs total]|e] w2] eqn:E2; cbn [fst snd] in *.
  2: { injection E as <- <-. split; [apply (evolves_inv s (λ _, False) w1); eapply evolves_grows; [by apply evolves_refl|done]|].
       left. destruct G' as (D2&_). by rewrite D2, D1. }
  destruct (ingested_open body w1 refs total w2 HI1 Hg Hc E2) as (G&HI2&HR&->&Hop).
  destruct (write_version_loop_spec _ _ _ _ _ _ _ _ _ HI2 HR E) as (HI3&R3&Hs). destruct G as (D2&_).
  split; [done|]. destruct Hs as [[D3 Hr]|(ord&Hs&Hr)]; [left; split; [congruence|done]|right].
  destruct (saved_latest _ _ _ _ _ _ _ _ _ (proj1 HI2) (proj1 HI3) Hs) as (v&Hv&Hm&_).
  rewrite D2, D1 in Hs. injection R3 as B3 _. exists refs, (blen (events_data body)), ord. split_and!; [done| |done].
  exists v, (chunks kamara_params (events_data body)).
  rewrite Hm, B3. split_and!; [done|done|by apply chunks_concat, kamara_params_ok].
Qed.

Lemma writeVersion_stored caller oid body base w ord w' :
  kam_inv s w → good body → no_collision (s_cipher s) (w_blobs w) (events_data body) →
  writeVersion s caller oid body base w = (Ok ord, w') →
  kam_inv s w' ∧ stored_as w' oid (events_data body) ∧
  max_ordinal oid (w_db w) = Some (ord - 1)%Z ∧ (∀ b, base = Some b → b = (ord - 1)%Z).
Proof.
  intros HI Hg Hc E. destruct (writeVersion_effect _ _ _ _ _ _ _ HI Hg Hc E)
    as [HI' [[_ [=]]|(refs&total&ord'&(H1&H2&_)&Hst&[[= <-]|[=]])]]. auto.
Qed.

(** A save on a version that is not the newest, when nothing fails. *)
Lemma WriteVersionAt_stale caller oid b n body w :
  w_faults w = [] → fga_check (w_fga w) (tuple caller AccessRelation (obj oid)) = true → good body →
  max_ordinal oid (w_db w) = Some n → b ≠ n →
  ∃ w', WriteVersionAt s caller oid b body w = (Err ErrModified, w') ∧
    w_db w' = w_db w ∧ w_fga w' = w_fga w ∧ w_faults w' = [].
Proof.
  intros Hf Ha Hg Hn Hb. unfold WriteVersionAt, writeVersion, authorize, authorizeAccess.
  rewrite run_bind, run_bind, run_Check_nil, Ha by done. cbn [negb]. rewrite run_ret, run_bind.
  destruct (ingest_list_nil (s_cipher s) (chunks kamara_params (events_data body)) w ([], 0%Z) Hf) as (w1&[refs total]&E&Hf1).
  pose proof (ingest_list_spec _ _ _ _ _ _ _ _ E) as [(D1&F1&_) _].
  assert (Ingest (s_cipher s) body w = (Ok (refs, total), w1)) as ->.
  { unfold Ingest. rewrite Split_chunks by (done || apply kamara_params_ok). by rewrite E. }
  cbn [fst snd]. change (write_version_loop maxAttempts) with (write_version_loop (S 4)). cbn [write_version_loop].
  rewrite run_bind. set (w2 := World (w_db w1) (w_blobs w1) (w_fga w1) (w_now w1) (S (w_draws w1)) (w_faults w1)).
  change (new_id w1) with (Ok (Ids.V7 (w_now w1 / 1000000) (rand_bytes (w_draws w1) 10)), w2). cbv iota beta.
  rewrite run_bind. unfold attempt, write_version_tx, InTx, MaxOrdinal.
  rewrite run_bind, run_call_nil by done. cbn [mret M_ret]. rewrite run_bind. cbn [gets]. unfold gets.
  rewrite run_bind. unfold attempt. rewrite run_bind, run_query_nil by done. cbn [w_db w2]. rewrite D1, Hn.
  cbn [write_version_at]. rewrite bool_decide_eq_false_2 by congruence. cbn [negb].
  eexists. split; [reflexivity|]. split_and!; [done|done|done].
Qed.

(** A body stored complete as a new file: one row, one version, and the manifest of
    the chunks the splitter cuts from it, each with its blob. *)
Definition filed (owner : Subject) (folderID : option string) (name : string) (body : list rd_event)
    (o : Object) (w w' : KW) : Prop :=
  o_Owner o = owner ∧ o_Name o = name ∧ o_FolderID o = folderID ∧
  objects (w_db w) !! o_ID o = None ∧ objects (w_db w') = <[o_ID o := o]> (objects (w_db w)) ∧
  ∃ vid l, Split kamara_params collect body [] = (Ok tt, l) ∧ o_Size o = total_size l ∧
    new_version (o_ID o) vid 0 (o_Size o) (ref_of <$> l) (w_db w) (w_db w') ∧
    ∀ x, x ∈ l → is_Some (w_blobs w' !! ChunkHash x).

(** The commit of an upload: nothing, or one row with one version. *)
Lemma upload_commit_spec owner folderID name refs total w r w' :
  kam_inv s w → refs_present refs w → upload_commit owner folderID name refs total w = (r, w') →
  w_blobs w' = w_blobs w ∧
  (w_db w' = w_db w ∧ is_ok r = false ∨
   ∃ o vid, o_Owner o = owner ∧ o_Name o = name ∧ o_FolderID o = folderID ∧ o_Size o = total ∧
     objects (w_db w) !! o_ID o = None ∧ objects (w_db w') = <[o_ID o := o]> (objects (w_db w)) ∧
     new_version (o_ID o) vid 0 total refs (w_db w) (w_db w') ∧ (r = Ok o ∨ is_ok r = false)).
Proof.
  intros [HI _] HR E. unfold upload_commit in E. rewrite run_bind in E. cbn [now gets] in E. unfold now, gets in E.
  rewrite run_bind in E. destruct (new_id_frame w) as (i&w3&E3&D3&R3&_). rewrite E3 in E.
  rewrite run_bind in E. destruct (new_id_frame w3) as (vid&w4&E4&D4&R4&_). rewrite E4 in E.
  rewrite run_bind in E.
  set (o1 := MkObject i owner name total folderID (contentTypeOf name) (w_now w) (w_now w)) in *.
  destruct (upload_tx o1 vid refs w4) as [r5 w5] eqn:E5.
  rewrite <- D3, <- D4 in HI. injection R3 as B3 _. injection R4 as B4 _.
  pose proof (InTx_txspec _ _ _ _ _ _ (tx_upload_new (w_blobs w) o1 vid refs (w_db w4) HI HR)
    eq_refl E5) as [R5 Hc]. rewrite D4, D3 in Hc. injection R5 as B5 _.
  assert (w_blobs w5 = w_blobs w) as B by congruence. destruct r5 as [[]|e].
  2: { injection E as <- <-. split; [done|]. destruct Hc as [[D5 _]|([]&(Hnv&Hn&Ho)&_)]; [by left|].
       right. exists o1, vid. split_and!; auto. }
  destruct Hc as [[_ [=]]|([]&(Hnv&Hn&Ho)&_)].
  match type of E with ?m w5 = _ =>
    assert (keeps (same_data w5) m) as Hk by (unfold Write, WriteObjectTuple; keeps_tac);
    assert (∀ a w'', m w5 = (Ok a, w'') → a = o1) as Ha end.
  { intros a w'' Ea. apply bind_ok_inv in Ea as ([]&?&_&Ea). apply bind_ok_inv in Ea as ([]&?&_&Ea).
    by injection Ea as <- <-. }
  destruct (Hk w5 (conj eq_refl eq_refl)) as [D6 B6]. rewrite E in D6, B6. cbn in D6, B6.
  split; [congruence|]. right. exists o1, vid. rewrite D6. split_and!; try done.
  destruct r as [a|e]; [|by right]. left. f_equal. by eapply Ha.
Qed.

(** An upload, with every outcome. *)
Lemma Upload_spec owner folderID name body w r w' :
  kam_inv s w → Upload s owner folderID name body w = (r, w') →
  same_tables (w_db w) (w_db w') ∧ objects (w_db w') = objects (w_db w) ∧ is_ok r = false ∨
  ∃ o, filed owner folderID name body o w w' ∧ (r = Ok o ∨ is_ok r = false).
Proof.
  intros HI E. unfold Upload in E. case_bool_decide; [injection E as <- <-; by left|].
  rewrite run_bind in E.
  match type of E with context [match ?m w with _ => _ end] =>
    assert (same_data w (m w).2) as [D1 B1]
      by (destruct folderID; [apply keeps_same_authorize|]; by split);
    destruct (m w) as [[[]|e] w1] end; cbn in D1, B1.
  2: { injection E as <- <-. left. by rewrite D1. }
  assert (kam_inv s w1) as HI1 by (unfold kam_inv; by rewrite D1, B1).
  rewrite run_bind in E. destruct (Ingest_spec (s_cipher s) body w1) as (l'&o&_&G&_).
  destruct (Ingest (s_cipher s) body w1) as [[[refs total]|e] w2] eqn:E2; cbn [fst snd] in *.
  2: { injection E as <- <-. left. destruct G as (D2&_). by rewrite D2, D1. }
  destruct (Ingest_cuts _ _ _ _ _ _ E2) as (l&Hcut&->&->&Hin).
  assert (kam_inv s w2) as HI2.
  { apply (evolves_inv s (λ _, False) w1). eapply evolves_grows; [by apply evolves_refl|done]. }
  assert (refs_present (ref_of <$> l) w2) as HR
    by (intros ref (x&->&Hx)%list_elem_of_fmap; by apply Hin).
  destruct G as (D2&_). apply upload_commit_spec in E as [B3 [[D3 Hr]|(o1&vid&?&?&?&Hs&Hn&Ho&Hnv&Hr)]]; [| |done|done].
  - left. by rewrite D3, D2, D1.
  - right. exists o1. split; [|done]. unfold filed. rewrite <- D1, <- D2. split_and!; try done.
    exists vid, l. rewrite Hs, B3. done.
Qed.
End kamara.

(** ** Claims *)
Section claims.
Context {Pr : Primitives} {PrOk : PrimitivesOk} {P : Platform} {F : OpenFGA} {Mi : Mime}.
Context (s : Service).

(** C1: storage safety.  In every world that is reachable from the empty one by
    any operations (erasures of persons among them), any environment steps and any
    faults (failed calls, lost answers, lost commits): no manifest dangles (the
    blob of every manifest row is stored, decrypts and hashes to its key), no
    chunk's reference count is below the number of manifest rows that name it, and
    it is exactly that number, and positive, for every chunk that is not among
    those of the files of an erasure that failed ([L]; an erasure is not one
    transaction); and two versions of a file never share an ordinal. *)
Theorem storage_safe L w :
  run_losing s L (boot kdb_empty) w →
  (∀ r, r ∈ version_chunks (w_db w) →
     ∃ pt, opens (s_cipher s) (w_blobs w) (m_hash r) pt ∧ ChunkHash pt = m_hash r) ∧
  (∀ h ch, chunks_tbl (w_db w) !! h = Some ch →
     (Z.of_nat (refs_to h (w_db w)) <= c_refs ch)%Z ∧
     (h ∉ L → c_refs ch = Z.of_nat (refs_to h (w_db w)) ∧ 0 < refs_to h (w_db w))) ∧
  (∀ r, r ∈ version_chunks (w_db w) → is_Some (chunks_tbl (w_db w) !! m_hash r)) ∧
  (∀ i u v, u ∈ versions_of i (w_db w) → v ∈ versions_of i (w_db w) →
     v_Ordinal u = v_Ordinal v → u = v).
Proof.
  intros Hr. destruct (run_losing_inv s (Lk := λ h, h ∈ L) _ _ _ Hr (λ _ H, H) (boot_inv s)) as [HI Hok]. split_and!.
  - intros r Hm. destruct (Hok (m_hash r) (inv_blobs _ _ HI r Hm)) as [pt Hpt].
    exists pt. split; [done|by eapply opens_hash].
  - apply (inv_refs _ _ HI).
  - apply (inv_mchunk _ _ HI).
  - intros i u v Hu Hv. by apply (versions_of_ordinal (w_blobs w) i (w_db w) u v HI).
Qed.

(** C5: what was uploaded is what is downloaded.  An upload that returned
    success, under any faults, is followed by any run of other operations and
    environment steps that does not target the file; then a caller with access
    whose download meets no fault receives exactly the uploaded bytes (as long as
    no plaintext already stored collided with a chunk of the upload under
    BLAKE3). *)
Theorem upload_download w w1 w2 owner folderID name body o caller :
  run s (boot kdb_empty) w → good body →
  no_collision (s_cipher s) (w_blobs w) (events_data body) →
  Upload s owner folderID name body w = (Ok o, w1) →
  run_avoiding s (o_ID o) w1 w2 → w_faults w2 = [] →
  fga_check (w_fga w2) (tuple caller AccessRelation (obj (o_ID o))) = true →
  Download s caller (o_ID o) (w2, []) = (Ok tt, (w2, events_data body)).
Proof.
  intros Hr Hg Hc E Hav Hf Ha. pose proof (run_inv s _ _ Hr (boot_inv s)) as HI.
  destruct (Upload_stored s _ _ _ _ _ _ _ HI Hg Hc E) as (HI1&Hst&Ho&_).
  destruct (run_avoiding_stored s _ _ _ _ Hav HI1 ltac:(eauto) Hst) as [HI2 Hst2].
  by apply Download_stored.
Qed.

(** what was saved is what is downloaded.  A save of new content that
    returned success, under any faults, took the ordinal after the newest one;
    and after any run that does not target the file again, a download that meets
    no fault returns exactly the saved bytes. *)
Theorem save_download w w1 w2 editor oid base body ord caller :
  run s (boot kdb_empty) w → good body →
  no_collision (s_cipher s) (w_blobs w) (events_data body) →
  writeVersion s editor oid body base w = (Ok ord, w1) →
  run_avoiding s oid w1 w2 → w_faults w2 = [] →
  fga_check (w_fga w2) (tuple caller AccessRelation (obj oid)) = true →
  max_ordinal oid (w_db w) = Some (ord - 1)%Z ∧
  Download s caller oid (w2, []) = (Ok tt, (w2, events_data body)).
Proof.
  intros Hr Hg Hc E Hav Hf Ha. pose proof (run_inv s _ _ Hr (boot_inv s)) as HI.
  destruct (writeVersion_stored s _ _ _ _ _ _ _ HI Hg Hc E) as (HI1&Hst&Hm&_).
  split; [done|].
  assert (is_Some (objects (w_db w1) !! oid)) as Ho.
  { destruct Hst as (v&_&Hv&_). apply latest_newest in Hv as [[k Hk]%elem_of_versions_of _].
    apply (inv_vobject _ _ (proj1 HI1) k _ Hk). }
  destruct (run_avoiding_stored s _ _ _ _ Hav HI1 Ho Hst) as [HI2 Hst2]. by apply Download_stored.
Qed.

(** C6: no lost update.  A save against base version [b] either changes nothing
    in the database and reports an error, or appends exactly one version, whose
    ordinal follows [b], to a file whose newest ordinal was [b] (and an error is
    reported then only when the answer of the commit was lost).  In particular a
    stale base never writes. *)
Theorem WriteVersionAt_no_lost_update w caller oid b body :
  run s (boot kdb_empty) w →
  let '(r, w') := WriteVersionAt s caller oid b body w in
  (w_db w' = w_db w ∧ is_ok r = false) ∨
  (max_ordinal oid (w_db w) = Some b ∧
   (∃ vid size refs, new_version oid vid (b + 1) size refs (w_db w) (w_db w')) ∧
   max_ordinal oid (w_db w') = Some (b + 1)%Z ∧
   (r = Ok (b + 1)%Z ∨ r = Err (ErrWrap "dbtx: commit" ErrExternal))).
Proof.
  intros Hr. pose proof (run_inv s _ _ Hr (boot_inv s)) as HI.
  destruct (WriteVersionAt s caller oid b body w) as [r w'] eqn:E.
  destruct (writeVersion_spec s _ _ _ _ _ _ _ HI E) as [HI' [?|(refs&total&ord&Hs&Hres)]]; [by left|].
  right. pose proof Hs as (Hm&Hb&vid&Hnv). specialize (Hb b eq_refl).
  assert (ord = b + 1)%Z as -> by lia. replace (b + 1 - 1)%Z with b in Hm by lia.
  split_and!; [done|eauto| |done].
  destruct (saved_latest _ _ _ _ _ _ _ _ _ (proj1 HI) (proj1 HI') Hs) as (v&Hv&_&Ho&_).
  apply max_ordinal_newest. exists v. split; [by apply latest_newest|done].
Qed.

End claims.

(** ** Witnesses: one file uploaded, saved and read back *)
Module Demo.
#[local] Existing Instance toy_primitives.
#[local] Existing Instance toy_primitives_ok.
#[local] Existing Instance counting_platform.
#[local] Existing Instance owner_fga.
#[local] Existing Instance no_mime.

Definition start : KW := boot kdb_empty.
Definition upload : M KW Object := Upload demo_service demo_user None "a.txt" demo_body.
Definition file : Object :=
  match (upload start).1 with Ok o => o | Err _ => MkObject "" demo_user "" 0 None "" 0 0 end.
Definition after_upload : KW := (upload start).2.
Definition save : M KW Z := writeVersion demo_service demo_user (o_ID file) [RData [x63]] (Some 0%Z).

Lemma upload_ok : upload start = (Ok file, after_upload).
Proof. exact (run_result upload start (Ok file) ltac:(vm_compute; reflexivity)). Defined.

Lemma start_no_collision data x :
  chunks kamara_params data = [x] → no_collision (s_cipher demo_service) (w_blobs start) data.
Proof.
  intros E. split.
  - intros y pt _ (b&Hb&_). cbn in Hb. by rewrite lookup_empty in Hb.
  - intros y z Hy Hz _. rewrite E in Hy, Hz. apply list_elem_of_singleton in Hy, Hz. congruence.
Defined.

Definition upload_op : kop := KUpload demo_user None "a.txt" demo_body.

Definition uploaded : KW := (run_op demo_service upload_op start).2.
Definition after_save : KW := (save uploaded).2.

Lemma save_ok : save uploaded = (Ok 1%Z, after_save).
Proof. exact (run_result save uploaded (Ok 1%Z) ltac:(vm_compute; reflexivity)). Defined.

Lemma uploaded_run : run demo_service start uploaded.
Proof. exact (run_step demo_service _ _ _ _ (kstep_op demo_service upload_op start) (run_refl _ _)). Defined.

Lemma uploaded_other : w_blobs uploaded !! ChunkHash [x63] = None.
Proof. vm_compute. reflexivity. Defined.

(** An erasure whose first decrement fails: the chunk of the erased file stays
    counted, with no manifest row that names it. *)
Definition erasure_fails : list fault := [FOk; FOk; FOk; FFail].
Definition with_faults (fs : list fault) (w : KW) : KW :=
  World (w_db w) (w_blobs w) (w_fga w) (w_now w) (w_draws w) fs.
Definition leaking : KW := with_faults erasure_fails uploaded.
Definition leaked_world : KW := (run_op demo_service (KErase demo_user) leaking).2.

Lemma leaked_run : run_losing demo_service [ChunkHash [x61; x62]] start leaked_world.
Proof.
  assert (lost_by (Some (KErase demo_user)) leaking = [ChunkHash [x61; x62]]) as E by (vm_compute; reflexivity).
  apply (losing_step demo_service (Some upload_op) [ChunkHash [x61; x62]] _ uploaded); [apply kstep_op|].
  apply (losing_step demo_service None [ChunkHash [x61; x62]] _ leaking); [by apply kstep_env|].
  change [ChunkHash [x61; x62]] with ([ChunkHash [x61; x62]] ++ []). rewrite <- E.
  eapply losing_step; [apply kstep_op|apply losing_refl].
Defined.

(** An erasure that fails between the deletion of a row and the release of its
    chunks leaves a chunk that is counted but not referenced: nothing will reclaim
    it, since no file is left whose deletion would. *)
Lemma failed_erasure_leaks :
  is_ok (run_op demo_service (KErase demo_user) leaking).1 = false ∧
  objects (w_db leaked_world) = ∅ ∧ version_chunks (w_db leaked_world) = [] ∧
  (c_refs <$> chunks_tbl (w_db leaked_world) !! ChunkHash [x61; x62]) = Some 1%Z ∧
  is_Some (w_blobs leaked_world !! ChunkHash [x61; x62]).
Proof. split_and!; try (vm_compute; reflexivity). vm_compute. eauto. Qed.

Lemma storage_safe_witness :
  (∀ r, r ∈ version_chunks (w_db leaked_world) →
     ∃ pt, opens (s_cipher demo_service) (w_blobs leaked_world) (m_hash r) pt ∧ ChunkHash pt = m_hash r) ∧
  (∀ h ch, chunks_tbl (w_db leaked_world) !! h = Some ch →
     (Z.of_nat (refs_to h (w_db leaked_world)) <= c_refs ch)%Z ∧
     (h ∉ [ChunkHash [x61; x62]] → c_refs ch = Z.of_nat (refs_to h (w_db leaked_world)) ∧
                                   0 < refs_to h (w_db leaked_world))) ∧
  (∀ r, r ∈ version_chunks (w_db leaked_world) → is_Some (chunks_tbl (w_db leaked_world) !! m_hash r)) ∧
  (∀ i u v, u ∈ versions_of i (w_db leaked_world) → v ∈ versions_of i (w_db leaked_world) →
     v_Ordinal u = v_Ordinal v → u = v).
Proof. apply (storage_safe demo_service [ChunkHash [x61; x62]] leaked_world leaked_run). Defined.

Lemma upload_download_witness :
  Download demo_service demo_user (o_ID file) (after_upload, []) = (Ok tt, (after_upload, [x61; x62])).
Proof.
  apply (upload_download demo_service start after_upload after_upload demo_user None "a.txt"
           demo_body file demo_user).
  - apply run_refl.
  - repeat constructor; do 2 eexists; reflexivity.
  - apply (start_no_collision _ [x61; x62]). vm_compute. reflexivity.
  - apply upload_ok.
  - apply avoid_refl.
  - vm_compute. reflexivity.
  - vm_compute. reflexivity.
Defined.

Lemma save_download_witness :
  max_ordinal (o_ID file) (w_db uploaded) = Some (1 - 1)%Z ∧
  Download demo_service demo_user (o_ID file) (after_save, []) = (Ok tt, (after_save, [x63])).
Proof.
  apply (save_download demo_service uploaded after_save after_save demo_user (o_ID file) (Some 0%Z)
           [RData [x63]] 1%Z demo_user).
  - apply uploaded_run.
  - repeat constructor; do 2 eexists; reflexivity.
  - assert (chunks kamara_params (events_data [RData [x63]]) = [[x63]]) as E by (vm_compute; reflexivity).
    split; rewrite E.
    + intros y pt ->%list_elem_of_singleton (b&Hb&_). pose proof uploaded_other. congruence.
    + intros y z ->%list_elem_of_singleton ->%list_elem_of_singleton _. done.
  - apply save_ok.
  - apply avoid_refl.
  - vm_compute. reflexivity.
  - vm_compute. reflexivity.
Defined.

Lemma WriteVersionAt_no_lost_update_witness :
  let '(r, w') := WriteVersionAt demo_service demo_user (o_ID file) 7 [RData [x63]] uploaded in
  (w_db w' = w_db uploaded ∧ is_ok r = false) ∨
  (max_ordinal (o_ID file) (w_db uploaded) = Some 7%Z ∧
   (∃ vid size refs, new_version (o_ID file) vid (7 + 1) size refs (w_db uploaded) (w_db w')) ∧
   max_ordinal (o_ID file) (w_db w') = Some (7 + 1)%Z ∧
   (r = Ok (7 + 1)%Z ∨ r = Err (ErrWrap "dbtx: commit" ErrExternal))).
Proof.
  apply (WriteVersionAt_no_lost_update demo_service uploaded demo_user (o_ID file) 7 [RData [x63]]
           uploaded_run).
Defined.

End Demo.
