(* ===== verification/Typed.v ===== *)
(** * Typed: every row of Kamara's tables is well formed
    (kamara/internal/file/file.go, folder.go and kamara/internal/store/repos.go)

    What the types of the columns do not say and the code relies on: names are never
    empty, owners are never the zero subject, sizes and ordinals are never negative, and
    the size of a file is the size of its latest version.  Statements inside a
    transaction may break this on the way; no reachable world does. *)

From S2P Require Import Prelude GoText Ids World Pii Pseudonym Conventions Authz Chunker ChunkCrypto Blob Engine Repo RepoInv.
From S2P Require Import FileService FolderService Wopi SubjectData KamaraSafety Kamara.
Import Pii Chunker.

(** ** Well-formed rows *)
Definition object_ok (o : Object) : Prop := o_Name o ≠ "" ∧ (0 <= o_Size o)%Z ∧ Zero (o_Owner o) = false.
Definition folder_ok (f : Folder) : Prop := f_Name f ≠ "" ∧ Zero (f_Owner f) = false.
Definition version_ok (v : Version) : Prop := (0 <= v_Ordinal v <= int4_max)%Z ∧ (0 <= v_Size v)%Z.

(** The tables but for the sizes. *)
Record rows_ok (d : KDB) : Prop := {
  ro_object : ∀ i o, objects d !! i = Some o → object_ok o;
  ro_folder : ∀ i f, folders d !! i = Some f → folder_ok f;
  ro_version : ∀ k r, versions d !! k = Some r → version_ok (vr_version r) ∧ is_Some (objects d !! vr_object r);
}.

Definition newest_row (i : string) (d : KDB) (v : Version) : Prop :=
  (∃ k, versions d !! k = Some (VRow i v)) ∧ ∀ k u, versions d !! k = Some (VRow i u) → (v_Ordinal u <= v_Ordinal v)%Z.

(** The size of the file is that of its newest version. *)
Definition sized (d : KDB) (i : string) : Prop :=
  ∀ o, objects d !! i = Some o → ∃ v, newest_row i d v ∧ v_Size v = o_Size o.

Definition typed (d : KDB) : Prop := rows_ok d ∧ ∀ i, sized d i.

(** All that [typed] reads. *)
Definition same_rows (d d' : KDB) : Prop := objects d' = objects d ∧ folders d' = folders d ∧ versions d' = versions d.

(** Predicates on those three tables. *)
Class OnRows (Q : KDB → Prop) : Prop := on_rows : ∀ d d', same_rows d d' → Q d → Q d'.

#[global] Instance rows_ok_on : OnRows rows_ok.
Proof. intros d d' (Ho&Hf&Hv) []. split; rewrite ?Ho, ?Hf, ?Hv; done. Qed.
Lemma sized_on i d d' : same_rows d d' → sized d i → sized d' i.
Proof. intros (Ho&Hf&Hv) H. unfold sized, newest_row in *. by rewrite Ho, Hv. Qed.
#[global] Instance typed_on : OnRows typed.
Proof. intros d d' Hs [H1 H2]. split; [by eapply on_rows|]. intros i. by eapply sized_on. Qed.

Section typed.
Context {Pr : Primitives} {P : Platform} {F : OpenFGA} {Mi : Mime}.
Context (s : Service).

(** ** Statements that leave the rows alone *)
Lemma tx_quiet {A} Q (m : M KW A) : OnRows Q →
  (∀ d0, txspec (λ d, d = d0) m (λ _ d, same_rows d0 d)) → txspec Q m (λ _, Q).
Proof.
  intros HQ H w Hw. destruct (H (w_db w) w eq_refl) as [H1 H2]. split; [done|]. intros a Ha. eapply on_rows; [|done]. by eapply H2.
Qed.

Lemma tx_conv {A} Q (m : M KW A) :
  OnRows Q → (∀ I, ignores_conv I → keeps I m) → txspec Q m (λ _, Q).
Proof.
  intros HQ Hm. apply txspec_keeps. intros rest. apply Hm. split.
  - intros w w' Hd Hr [H1 H2]. by rewrite <- Hd, <- Hr.
  - intros w c [H1 H2]. split; [|done]. eapply on_rows; [|exact H1]. done.
Qed.

Lemma tx_Emit_rows Q actor action ao : OnRows Q → txspec Q (Emit actor action ao) (λ _, Q).
Proof. intros HQ. apply tx_conv; [done|]. intros. by apply keeps_Emit. Qed.
Lemma tx_Feed_rows Q x : OnRows Q → txspec Q (Feed x) (λ _, Q).
Proof. intros HQ. apply tx_conv; [done|]. intros. by apply keeps_Feed. Qed.
Lemma tx_Remove_rows Q i : OnRows Q → txspec Q (Remove i) (λ _, Q).
Proof. intros HQ. apply tx_conv; [done|]. intros. by apply keeps_Remove. Qed.

(** An event needs an actor. *)
Lemma tx_Emit_actor Q actor action ao :
  OnRows Q → txspec Q (Emit actor action ao) (λ _ d, Zero actor = false ∧ Q d).
Proof.
  intros HQ. destruct (Zero actor) eqn:Ez.
  - intros w Hw. unfold Emit. rewrite Ez. done.
  - eapply txspec_weaken; [by apply tx_Emit_rows|exact (λ _ H, H)|]. intros a d H. done.
Qed.

Lemma tx_read {A} (Q : KDB → Prop) (g : KDB → A) : txspec Q (query g) (λ _, Q).
Proof. eapply txspec_weaken; [apply (txspec_query Q)|exact (λ _ H, H)|]. by intros ? ? [_ ?]. Qed.

Lemma tx_return {A} (Q : KDB → Prop) (a : A) : txspec Q (mret a) (λ _, Q).
Proof. eapply txspec_weaken; [apply (txspec_ret Q)|exact (λ _ H, H)|]. by intros ? ? [_ ?]. Qed.

Lemma tx_stmt_now {A} Q (f : Z → KDB → res (A * KDB)) (R : A → KDB → Prop) :
  (∀ t d a d', Q d → f t d = Ok (a, d') → R a d') → txspec Q (stmt_now f) R.
Proof.
  intros H. eapply txspec_bind; [apply (txspec_keeps Q); intros rest; apply keeps_gets|].
  intros t. apply txspec_stmt. intros d a d'. apply H.
Qed.

(** ** Statements on the rows *)
Lemma tx_chunks_rows Q h size : OnRows Q → txspec Q (upsert_chunk h size) (λ _, Q).
Proof.
  intros HQ. apply txspec_stmt. intros d a d' H E. eapply on_rows; [|exact H]. repeat case_match; simplify_eq; done.
Qed.
Lemma tx_manifest_row Q vid idx h : OnRows Q → txspec Q (insert_manifest_row vid idx h) (λ _, Q).
Proof.
  intros HQ. apply txspec_stmt. intros d a d' H E. eapply on_rows; [|exact H]. repeat case_match; simplify_eq; done.
Qed.
Lemma tx_manifest_rows Q vid idx refs : OnRows Q → txspec Q (insert_manifest vid idx refs) (λ _, Q).
Proof.
  intros HQ. revert idx. induction refs as [|ref refs IH]; intros idx; cbn [insert_manifest].
  { apply tx_return. }
  eapply txspec_bind; [by apply tx_chunks_rows|intros []]. eapply txspec_bind; [by apply tx_manifest_row|intros []]. apply IH.
Qed.

(** A version row, not yet read by the file it belongs to. *)
Definition all_but (oid : string) (d : KDB) : Prop := rows_ok d ∧ ∀ i, i ≠ oid → sized d i.
Definition below (oid : string) (ord : Z) (d : KDB) : Prop :=
  (0 <= ord)%Z ∧ ∀ k u, versions d !! k = Some (VRow oid u) → (v_Ordinal u < ord)%Z.
Definition written (oid : string) (size : Z) (d : KDB) : Prop := ∃ v, newest_row oid d v ∧ v_Size v = size.

Lemma rows_add_version oid vid v d :
  rows_ok d → version_ok v → is_Some (objects d !! oid) → rows_ok (with_versions (<[vid := VRow oid v]> (versions d)) d).
Proof.
  intros [H1 H2 H3] Hv Ho. split; [done..|]. intros k r. cbn. destruct (decide (k = vid)) as [->|].
  - rewrite lookup_insert_eq. by intros [= <-].
  - rewrite lookup_insert_ne by done. apply H3.
Qed.

Lemma newest_add_other i oid vid v u d :
  i ≠ oid → versions d !! vid = None → newest_row i d u → newest_row i (with_versions (<[vid := VRow oid v]> (versions d)) d) u.
Proof.
  intros Hne Hf [[k Hk] Hmax]. split.
  - exists k. cbn. rewrite lookup_insert_ne; [done|congruence].
  - intros k' u'. cbn. destruct (decide (k' = vid)) as [->|]; [rewrite lookup_insert_eq; congruence|].
    rewrite lookup_insert_ne by done. apply Hmax.
Qed.

Lemma newest_added oid vid v d :
  (∀ k u, versions d !! k = Some (VRow oid u) → (v_Ordinal u < v_Ordinal v)%Z) →
  newest_row oid (with_versions (<[vid := VRow oid v]> (versions d)) d) v.
Proof.
  intros H. split; [exists vid; cbn; apply lookup_insert_eq|]. intros k u. cbn. destruct (decide (k = vid)) as [->|].
  - rewrite lookup_insert_eq. by intros [= <-].
  - rewrite lookup_insert_ne by done. intros Hk%H. lia.
Qed.

(** [G] is what else is known of the files. *)
Lemma tx_version_row (G : gmap string Object → Prop) oid vid ord size :
  (0 <= size)%Z →
  txspec (λ d, (all_but oid d ∧ below oid ord d) ∧ G (objects d)) (insert_version_row oid vid ord size)
    (λ _ d, (all_but oid d ∧ written oid size d) ∧ G (objects d)).
Proof.
  intros Hs. apply tx_stmt_now. intros t d a d' [[[H1 H2] [H3 H4]] HG]. destruct (Z.ltb_spec int4_max ord); [done|].
  destruct (bool_decide (is_Some (versions d !! vid)) || _) eqn:E1; [done|].
  apply orb_false_iff in E1 as [Hf%bool_decide_eq_false _]. apply eq_None_not_Some in Hf.
  destruct (negb _) eqn:E2; [done|]. apply negb_false_iff, bool_decide_eq_true in E2. intros [= <- <-]. split; [split; [split|]|done].
  - by apply rows_add_version.
  - intros i Hi o Ho. destruct (H2 i Hi o Ho) as (v&Hv&Hsz). exists v. split; [by apply newest_add_other|done].
  - exists (MkVersion vid ord size t). split; [by apply newest_added|done].
Qed.

#[local] Instance written_on (G : gmap string Object → Prop) oid size :
  OnRows (λ d, (all_but oid d ∧ written oid size d) ∧ G (objects d)).
Proof.
  intros d d' Hs [[[H1 H2] (v&Hv&Hsz)] HG]. split; [split; [split|]|].
  - by eapply on_rows.
  - intros i Hi. eapply sized_on; eauto.
  - exists v. split; [|done]. destruct Hs as (_&_&Hvs). unfold newest_row in *. by rewrite Hvs.
  - destruct Hs as (Ho&_). by rewrite Ho.
Qed.

Lemma tx_InsertVersion_rows (G : gmap string Object → Prop) oid vid ord size refs :
  (0 <= size)%Z →
  txspec (λ d, (all_but oid d ∧ below oid ord d) ∧ G (objects d)) (InsertVersion oid vid ord size refs)
    (λ _ d, (all_but oid d ∧ written oid size d) ∧ G (objects d)).
Proof.
  intros Hs. unfold InsertVersion. eapply txspec_bind; [eapply txspec_attempt; by apply (tx_version_row G)|]. intros r.
  eapply (txspec_bind _ _ _ (λ _ d, (all_but oid d ∧ written oid size d) ∧ G (objects d))); [|intros _; by apply tx_manifest_rows, written_on].
  eapply txspec_weaken; [apply txspec_lift|exact (λ _ H, H)|]. intros a d [Hr H]. destruct r as [x|e]; [by apply (H x)|].
  unfold conflict_on_unique in Hr. by case_bool_decide.
Qed.

(** The file reads the new version. *)
Lemma typed_close oid size d :
  all_but oid d → written oid size d → (∀ o, objects d !! oid = Some o → o_Size o = size) → typed d.
Proof.
  intros [H1 H2] (v&Hv&Hs) Ho. split; [done|]. intros i. destruct (decide (i = oid)) as [->|]; [|auto].
  intros o E. exists v. rewrite (Ho o E). done.
Qed.

Lemma objects_alter f i d j o :
  objects (with_objects (update_row f i (objects d)) d) !! j = Some o →
  ∃ o0, objects d !! j = Some o0 ∧ o = (if decide (j = i) then f o0 else o0).
Proof.
  cbn. unfold update_row. destruct (decide (j = i)) as [->|].
  - rewrite lookup_alter_eq. intros (o0&Ho&->)%fmap_Some. eauto.
  - rewrite lookup_alter_ne by done. eauto.
Qed.

Lemma rows_alter_object f i d :
  (∀ o, object_ok o → object_ok (f o)) → rows_ok d → rows_ok (with_objects (update_row f i (objects d)) d).
Proof.
  intros Hf [H1 H2 H3]. split; [|done|].
  - intros j o (o0&Ho&->)%objects_alter. apply H1 in Ho. case_decide; auto.
  - intros k r Hk. destruct (H3 k r Hk) as [Hv Hs]. split; [done|]. cbn. unfold update_row.
    destruct (decide (i = vr_object r)) as [->|]; [by rewrite lookup_alter_eq, fmap_is_Some|by rewrite lookup_alter_ne].
Qed.

Lemma tx_SetObjectSize_rows oid size :
  (0 <= size)%Z → txspec (λ d, (all_but oid d ∧ written oid size d) ∧ True) (SetObjectSize oid size) (λ _, typed).
Proof.
  intros Hs. apply tx_stmt_now. intros t d a d' [[[H1 H2] Hw] _] [= <- <-]. apply (typed_close oid size).
  - split.
    + apply rows_alter_object; [|done]. intros o (?&?&?). by repeat split.
    + intros i Hi o (o0&Ho&->)%objects_alter. rewrite decide_False by done. by apply H2.
  - done.
  - intros o (o0&Ho&->)%objects_alter. by rewrite decide_True.
Qed.

(** The other updates keep the size. *)
Lemma typed_alter f i d :
  (∀ o, object_ok o → object_ok (f o) ∧ o_Size (f o) = o_Size o) → typed d → typed (with_objects (update_row f i (objects d)) d).
Proof.
  intros Hf [H1 H2]. split; [apply rows_alter_object; [by intros o [? _]%Hf|done]|].
  intros j o (o0&Ho&->)%objects_alter. destruct (H2 j o0 Ho) as (v&Hv&Hs). exists v. split; [done|].
  case_decide; [|done]. rewrite Hs. symmetry. apply Hf, (ro_object _ H1 j _ Ho).
Qed.

Lemma tx_SetObjectName_rows i name : name ≠ "" → txspec typed (SetObjectName i name) (λ _, typed).
Proof. intros Hn. apply tx_stmt_now. intros t d a d' H [= <- <-]. apply typed_alter; [|done]. intros o (?&?&?). by repeat split. Qed.

Lemma tx_SetObjectFolder_rows i folder : txspec typed (SetObjectFolder i folder) (λ _, typed).
Proof.
  apply tx_stmt_now. intros t d a d' H. destruct (_ && _); [done|]. intros [= <- <-]. apply typed_alter; [|done].
  intros o (?&?&?). by repeat split.
Qed.

(** Folders. *)
Lemma typed_folders fs d : (∀ i f, fs !! i = Some f → folder_ok f) → typed d → typed (with_folders fs d).
Proof. intros Hf [[H1 H2 H3] Hs]. split; [by split|]. exact Hs. Qed.

Lemma typed_alter_folder f i d :
  (∀ x, folder_ok x → folder_ok (f x)) → typed d → typed (with_folders (update_row f i (folders d)) d).
Proof.
  intros Hf Ht. apply typed_folders; [|done]. intros j x. unfold update_row. destruct (decide (j = i)) as [->|].
  - rewrite lookup_alter_eq. intros (x0&Hx&->)%fmap_Some. apply Hf, (ro_folder _ (proj1 Ht) _ _ Hx).
  - rewrite lookup_alter_ne by done. apply (ro_folder _ (proj1 Ht)).
Qed.

Lemma tx_SetFolderName_rows i name : name ≠ "" → txspec typed (SetFolderName i name) (λ _, typed).
Proof. intros Hn. apply tx_stmt_now. intros t d a d' H [= <- <-]. apply typed_alter_folder; [|done]. by intros x [? ?]. Qed.

Lemma tx_SetFolderParent_rows i parent : txspec typed (SetFolderParent i parent) (λ _, typed).
Proof.
  apply tx_stmt_now. intros t d a d' H. destruct (_ && _); [done|]. intros [= <- <-]. apply typed_alter_folder; [|done]. by intros x [? ?].
Qed.

Lemma tx_InsertFolder_rows f : f_Name f ≠ "" →
  txspec typed (InsertFolder f) (λ _ d, Zero (f_Owner f) = false → typed d).
Proof.
  intros Hn. apply txspec_stmt. intros d a d' H. case_bool_decide; [done|]. destruct (negb _); [done|]. intros [= <- <-] Hz.
  apply typed_folders; [|done]. intros i x. destruct (decide (i = f_ID f)) as [->|].
  - rewrite lookup_insert_eq. by intros [= <-].
  - rewrite lookup_insert_ne by done. apply (ro_folder _ (proj1 H)).
Qed.

Lemma tx_DeleteFolderRow_rows i : txspec typed (DeleteFolderRow i) (λ _, typed).
Proof.
  unfold DeleteFolderRow. eapply txspec_bind.
  { eapply txspec_attempt, (txspec_stmt _ _ (λ _, typed)). intros d a d' H. destruct (_ && _); [done|]. intros [= <- <-].
    apply typed_folders; [|done]. intros j x [_ Hx]%lookup_delete_Some. apply (ro_folder _ (proj1 H) _ _ Hx). }
  intros [[]|e]; cbn beta iota; [|case_bool_decide; apply txspec_throw].
  eapply txspec_weaken; [apply (txspec_ret typed)|intros d H; by apply (H tt)|]. by intros ? ? [_ ?].
Qed.

(** A deleted file takes its versions with it. *)
Lemma typed_delete i d : typed d → typed (delete_object i d).
Proof.
  intros [[H1 H2 H3] Hs]. unfold typed, sized, newest_row. split; [split; cbn|cbn].
  - intros j o [_ Ho]%lookup_delete_Some. eauto.
  - done.
  - intros k r [Hk Hne]%map_lookup_filter_Some. destruct (H3 k r Hk) as [Hv Ho]. split; [done|]. by rewrite lookup_delete_ne by done.
  - intros j o [Hne Ho]%lookup_delete_Some. destruct (Hs j o Ho) as (v&[[k Hk] Hmax]&Hsz). exists v. split; [|done]. split.
    + exists k. apply map_lookup_filter_Some. done.
    + intros k' u [Hk' _]%map_lookup_filter_Some. eauto.
Qed.

Lemma tx_reclaim_rows i : txspec typed (reclaimObject i) (λ _, typed).
Proof.
  intros w Hw. destruct (tx_reclaimObject i (w_db w) w eq_refl) as [H1 H2]. split; [done|].
  intros a Ha. destruct (H2 a Ha) as [_ Hd]. rewrite Hd. eapply on_rows; [|by apply (typed_delete i)]. done.
Qed.

(** ** Operations *)
Definition well_typed (w : KW) : Prop := typed (w_db w).

Lemma wt_stores : stores_only well_typed.
Proof. intros w w' Hd _. unfold well_typed. by rewrite Hd. Qed.
Lemma wt_fga : ignores_fga well_typed.
Proof. split; [apply wt_stores|done]. Qed.

Lemma keeps_wt_InTx {A} (m : M KW A) : txspec typed m (λ _, typed) → keeps well_typed (InTx m).
Proof.
  intros Hm w Hw. destruct (InTx_cases m w) as (w0&Hd&_&_&_&H). unfold well_typed in *. rewrite <- Hd in Hw.
  destruct (Hm w0 Hw) as [_ Hr]. destruct (m w0) as [r w1], (InTx m w) as [r' w']. cbn in *.
  destruct H as [(->&_)|(a&->&->&_)]; [by rewrite <- Hd|eauto].
Qed.

Lemma keeps_wt_update g : keeps well_typed (fga_update (D := KDB) g).
Proof. apply keeps_fga_update, wt_fga. Qed.
Lemma keeps_wt_authorize caller o : keeps well_typed (authorizeAccess caller o).
Proof. pose proof wt_stores. unfold authorizeAccess. keeps_tac. Qed.
Lemma keeps_wt_query {A} (g : KDB → A) : keeps well_typed (query g).
Proof. apply keeps_query, wt_stores. Qed.

Lemma triple_wt_Ingest body :
  triple well_typed (Ingest (s_cipher s) body)
    (λ r w, well_typed w ∧ match r with Ok x => (0 <= x.2)%Z | Err _ => True end).
Proof.
  intros w Hw. destruct (Ingest_spec (s_cipher s) body w) as (l&o&_&(Hd&_)&H). split; [unfold well_typed; by rewrite Hd|].
  destruct (Ingest (s_cipher s) body w).1 as [[refs total]|e] eqn:E; [|done]. destruct (H refs total eq_refl) as (_&_&->&_).
  cbn. rewrite total_size_concat. unfold blen. lia.
Qed.

#[local] Hint Resolve wt_stores keeps_wt_update keeps_wt_authorize keeps_wt_query : go.

(** Without an actor the transaction of an upload fails. *)
Lemma tx_upload_no_actor o verID refs (k : M KW unit) Q :
  Zero (o_Owner o) = true →
  txspec Q (InsertObject o ;; InsertVersion (o_ID o) verID 0 (o_Size o) refs ;;
    Emit (o_Owner o) "kamara.file.created" (file_audit (o_ID o)) ;; k) (λ _, Q).
Proof.
  intros Hz. assert (OnRows (λ _, True)) as Ht by done. eapply (txspec_bind _ _ _ (λ _ _, True)); [by apply txspec_stmt|intros _].
  eapply (txspec_bind _ _ _ (λ _ _, True)); [|intros _].
  - unfold InsertVersion. eapply (txspec_bind _ _ _ (λ _ _, True)).
    { eapply txspec_weaken; [apply txspec_attempt, (tx_stmt_now (λ _, True) _ (λ _ _, True)); done|done|done]. }
    intros r. eapply (txspec_bind _ _ _ (λ _ _, True)); [eapply txspec_weaken; [apply (txspec_lift (λ _, True))|done|done]|].
    intros _. by apply tx_manifest_rows.
  - intros w _. rewrite run_bind. unfold Emit. rewrite Hz. done.
Qed.

Lemma tx_insert_object o :
  object_ok o → txspec typed (InsertObject o) (λ _ d, (all_but (o_ID o) d ∧ below (o_ID o) 0 d) ∧ objects d !! o_ID o = Some o).
Proof.
  intros Hok. apply txspec_stmt. intros d a d' [[H1 H2 H3] Hs]. case_bool_decide as Hnew; [done|]. destruct (negb _); [done|].
  intros [= <- <-]. apply eq_None_not_Some in Hnew. split; [split; [split; [split|]|]|]; cbn.
  - intros i x. destruct (decide (i = o_ID o)) as [->|]; [rewrite lookup_insert_eq; by intros [= <-]|].
    rewrite lookup_insert_ne by done. apply H1.
  - done.
  - intros k r Hk. destruct (H3 k r Hk) as [Hv Hr]. split; [done|]. rewrite lookup_insert_is_Some'. by right.
  - intros i Hi x. cbn. rewrite lookup_insert_ne by done. apply Hs.
  - split; [lia|]. intros k u Hk. destruct (H3 k _ Hk) as [_ [x Hx]]. cbn in Hx. congruence.
  - apply lookup_insert_eq.
Qed.

Lemma tx_upload_rows o verID refs :
  o_Name o ≠ "" → (0 <= o_Size o)%Z →
  txspec typed (InsertObject o ;; InsertVersion (o_ID o) verID 0 (o_Size o) refs ;;
    Emit (o_Owner o) "kamara.file.created" (file_audit (o_ID o)) ;;
    Feed (file_doc (o_ID o) (o_Owner o) (o_Name o))) (λ _, typed).
Proof.
  intros Hn Hs. destruct (Zero (o_Owner o)) eqn:Ez; [by apply tx_upload_no_actor|].
  pose (G := λ os : gmap string Object, os !! o_ID o = Some o).
  eapply txspec_bind; [by apply tx_insert_object|intros []]. eapply txspec_bind; [by apply (tx_InsertVersion_rows G)|intros []].
  eapply txspec_bind; [apply tx_Emit_rows, (written_on G)|intros []].
  eapply txspec_weaken; [apply tx_Feed_rows, (written_on G)|exact (λ _ H, H)|].
  intros _ d [[H1 H2] HG]. apply (typed_close (o_ID o) (o_Size o)); [done|done|]. unfold G in HG. congruence.
Qed.

Lemma max_ordinal_below i d m : rows_ok d → max_ordinal i d = Some m → below i (m + 1) d.
Proof.
  intros Hr (v&[Hv Hmax]&<-)%max_ordinal_newest. split.
  - apply elem_of_versions_of in Hv as [k Hk]. destruct (ro_version _ Hr k _ Hk) as [[[H _] _] _]. cbn in H. lia.
  - intros k u Hk. assert (u ∈ versions_of i d) as Hu by (apply elem_of_versions_of; eauto). specialize (Hmax u Hu). lia.
Qed.

Lemma tx_write_rows caller oid verID base refs total :
  (0 <= total)%Z →
  txspec typed (m ← MaxOrdinal oid;
    match m with
    | None => throw ErrNotFound
    | Some maxOrd =>
        if match base with Some b => negb (bool_decide (maxOrd = b)) | None => false end
        then throw ErrModified
        else
          InsertVersion oid verID (maxOrd + 1)%Z total refs ;;
          SetObjectSize oid total ;;
          Emit caller "kamara.file.version_written" (file_audit oid) ;;
          mret (maxOrd + 1)%Z
    end) (λ _, typed).
Proof.
  intros Ht. eapply txspec_bind; [apply txspec_query|]. intros [m|]; cbn beta iota; [|apply txspec_throw].
  destruct (match base with Some b => _ | None => _ end); [apply txspec_throw|].
  eapply txspec_bind.
  { eapply txspec_weaken; [by apply (tx_InsertVersion_rows (λ _, True))| |exact (λ _ _ H, H)].
    intros d [Hm [Hr Hs]]. split; [split; [by split|]|done]. by apply max_ordinal_below. }
  intros []. eapply txspec_bind; [by apply tx_SetObjectSize_rows|intros []].
  eapply txspec_bind; [apply tx_Emit_rows, typed_on|intros []].
  apply tx_return.
Qed.

Lemma keeps_wt_write_loop left caller oid base refs total :
  (0 <= total)%Z → keeps well_typed (write_version_loop left caller oid base refs total).
Proof.
  intros Ht. assert (∀ vid, keeps well_typed (write_version_tx caller oid vid base refs total)) as Htx
    by (intros vid; by apply keeps_wt_InTx, tx_write_rows).
  induction left as [|left IH]; cbn [write_version_loop]; pose proof wt_stores; keeps_tac; auto with go.
Qed.

(** A row and its event. *)
Lemma tx_named Q (m : M KW unit) actor action ao x :
  OnRows Q → txspec Q m (λ _, Q) → txspec Q (m ;; Emit actor action ao ;; Feed x) (λ _, Q).
Proof.
  intros HQ Hm. eapply txspec_bind; [exact Hm|intros []]. eapply txspec_bind; [by apply tx_Emit_rows|intros []]. by apply tx_Feed_rows.
Qed.

Lemma tx_create_folder_rows f : f_Name f ≠ "" →
  txspec typed (InsertFolder f ;; Emit (f_Owner f) "kamara.folder.created" (folder_audit (f_ID f)) ;;
    Feed (folder_doc (f_ID f) (f_Owner f) (f_Name f))) (λ _, typed).
Proof.
  intros Hn. assert (OnRows (λ d, Zero (f_Owner f) = false → typed d)) as HQ.
  { intros d d' Hs H Hz. eapply on_rows; eauto. }
  eapply txspec_bind; [by apply tx_InsertFolder_rows|intros []]. eapply txspec_bind; [by apply tx_Emit_actor|intros []].
  eapply txspec_weaken; [apply tx_Feed_rows, typed_on|by intros d [Hz H]; apply H|exact (λ _ _ H, H)].
Qed.

Lemma keeps_wt_Upload owner folder name body : keeps well_typed (Upload s owner folder name body).
Proof.
  unfold Upload. case_bool_decide as Hn; [apply keeps_throw|]. apply keeps_bind; [destruct folder; auto with go; apply keeps_wt_authorize|intros _].
  eapply triple_bind; [eapply triple_weaken; [apply triple_wt_Ingest|exact (λ _ H, H)|]|].
  { intros [x|e] w H; [exact H|apply H]. }
  intros [refs total] w [Hw Ht]. cbn in Ht. revert w Hw. change (keeps well_typed (upload_commit owner folder name refs total)).
  unfold upload_commit. pose proof wt_stores. apply keeps_bind; [apply keeps_gets|intros t].
  apply keeps_bind; [by apply keeps_new_id|intros i]. apply keeps_bind; [by apply keeps_new_id|intros vid].
  apply keeps_bind; [by apply keeps_wt_InTx, tx_upload_rows|intros _].
  apply keeps_bind; [apply keeps_wrap_err, keeps_wt_update|intros _].
  apply keeps_bind; [|intros _; apply keeps_ret]. destruct folder; [apply keeps_wrap_err, keeps_wt_update|apply keeps_ret].
Qed.

Lemma keeps_wt_writeVersion caller i body base : keeps well_typed (writeVersion s caller i body base).
Proof.
  unfold writeVersion. apply keeps_bind; [apply keeps_wt_authorize|intros _].
  eapply triple_bind; [eapply triple_weaken; [apply triple_wt_Ingest|exact (λ _ H, H)|]|].
  { intros [x|e] w H; [exact H|apply H]. }
  intros [refs total] w [Hw Ht]. by apply keeps_wt_write_loop.
Qed.

Lemma keeps_wt_blob h : keeps well_typed (Blob.Delete h).
Proof. by apply keeps_Delete; [apply wt_stores|]. Qed.
Lemma keeps_wt_revoke i : keeps well_typed (revoke_sessions s i).
Proof.
  unfold revoke_sessions. destruct (s_revoker s); [|apply keeps_ret]. apply keeps_ignore, keeps_stmt; [apply wt_stores|].
  intros w a d Hw [= <- <-]. by apply (typed_on (w_db w)).
Qed.

#[local] Hint Resolve keeps_wt_blob keeps_wt_revoke : go.

Lemma tx_delete_rows caller oid :
  txspec typed (Emit caller "kamara.file.deleted" (file_audit oid) ;;
    o ← GetObject oid;
    orphans ← reclaimObject oid;
    Remove oid ;;
    mret (orphans, o ≫= o_FolderID)) (λ _, typed).
Proof.
  eapply txspec_bind; [apply tx_Emit_rows, typed_on|intros []].
  eapply txspec_bind; [apply tx_read|intros o].
  eapply txspec_bind; [apply tx_reclaim_rows|intros orphans]. eapply txspec_bind; [apply tx_Remove_rows, typed_on|intros []].
  apply tx_return.
Qed.

Lemma keeps_wt_Delete caller i : keeps well_typed (Delete_ s caller i).
Proof.
  unfold Delete_, delete_cleanup, reclaim_blobs. apply keeps_bind; [apply keeps_wt_authorize|intros _].
  apply keeps_bind; [apply keeps_wt_InTx, tx_delete_rows|intros [orphans folder]].
  apply keeps_bind; [apply keeps_for_each; intros h _; apply keeps_ignore, keeps_wt_blob|intros _].
  apply keeps_bind; [destruct folder; [apply keeps_ignore, keeps_wt_update|apply keeps_ret]|intros _].
  apply keeps_bind; [apply keeps_wt_revoke|intros _; apply keeps_wt_update].
Qed.

Lemma keeps_wt_CreateFolder owner parent name : keeps well_typed (CreateFolder owner parent name).
Proof.
  unfold CreateFolder. case_bool_decide as Hn; [apply keeps_throw|]. pose proof wt_stores.
  apply keeps_bind; [destruct parent; [apply keeps_wt_authorize|apply keeps_ret]|intros _].
  apply keeps_bind; [apply keeps_gets|intros t]. apply keeps_bind; [by apply keeps_new_id|intros i].
  apply keeps_bind; [by apply keeps_wt_InTx, tx_create_folder_rows|intros _].
  apply keeps_bind; [apply keeps_wrap_err, keeps_wt_update|intros _].
  apply keeps_bind; [|intros _; apply keeps_ret]. destruct parent; [apply keeps_wrap_err, keeps_wt_update|apply keeps_ret].
Qed.

Lemma keeps_wt_RenameFile caller i name : keeps well_typed (RenameFile caller i name).
Proof.
  unfold RenameFile. case_bool_decide as Hn; [apply keeps_throw|]. apply keeps_bind; [apply keeps_wt_authorize|intros _].
  apply keeps_bind; [apply keeps_wt_query|intros [o|]]; [|apply keeps_throw]. apply keeps_wt_InTx, tx_named; [apply typed_on|].
  by apply tx_SetObjectName_rows.
Qed.

Lemma keeps_wt_RenameFolder caller i name : keeps well_typed (RenameFolder caller i name).
Proof.
  unfold RenameFolder. case_bool_decide as Hn; [apply keeps_throw|]. apply keeps_bind; [apply keeps_wt_authorize|intros _].
  apply keeps_bind; [apply keeps_wt_query|intros [f|]]; [|apply keeps_throw]. apply keeps_wt_InTx, tx_named; [apply typed_on|].
  by apply tx_SetFolderName_rows.
Qed.

Lemma keeps_wt_reparent child old dest : keeps well_typed (reparent child old dest).
Proof.
  unfold reparent. apply keeps_bind; [|intros _]; [destruct old|destruct dest]; try apply keeps_ret; apply keeps_wrap_err, keeps_wt_update.
Qed.

Lemma keeps_wt_MoveFile caller i dest : keeps well_typed (MoveFile caller i dest).
Proof.
  unfold MoveFile. apply keeps_bind; [apply keeps_wt_authorize|intros _].
  apply keeps_bind; [destruct dest; [apply keeps_wt_authorize|apply keeps_ret]|intros _].
  apply keeps_bind; [apply keeps_wt_query|intros [o|]]; [|apply keeps_throw].
  apply keeps_bind; [|intros _; apply keeps_wt_reparent]. apply keeps_wt_InTx.
  eapply txspec_bind; [apply tx_SetObjectFolder_rows|intros []]. apply tx_Emit_rows, typed_on.
Qed.

Lemma keeps_wt_cycle fuel moving seen cur : keeps well_typed (would_cycle_loop fuel moving seen cur).
Proof.
  revert seen cur. induction fuel as [|fuel IH]; intros seen cur; cbn; [apply keeps_throw|].
  destruct cur as [c|]; [|apply keeps_ret]. destruct (_ || _); [apply keeps_ret|].
  apply keeps_bind; [apply keeps_wt_query|intros [f|]]; [apply IH|apply keeps_ret].
Qed.

Lemma keeps_wt_MoveFolder caller i dest : keeps well_typed (MoveFolder caller i dest).
Proof.
  unfold MoveFolder, check_dest, wouldCycle. apply keeps_bind; [apply keeps_wt_authorize|intros _].
  apply keeps_bind.
  { destruct dest; [|apply keeps_ret]. apply keeps_bind; [apply keeps_wt_authorize|intros _].
    apply keeps_bind; [apply keeps_bind; [apply keeps_gets|intros; apply keeps_wt_cycle]|intros []]; [apply keeps_throw|apply keeps_ret]. }
  intros _. apply keeps_bind; [apply keeps_wt_query|intros [f|]]; [|apply keeps_throw].
  apply keeps_bind; [|intros _; apply keeps_wt_reparent]. apply keeps_wt_InTx.
  eapply txspec_bind; [apply tx_SetFolderParent_rows|intros []]. apply tx_Emit_rows, typed_on.
Qed.

Lemma tx_delete_folder_rows caller i :
  txspec typed (Emit caller "kamara.folder.deleted" (folder_audit i) ;; DeleteFolderRow i ;; Remove i) (λ _, typed).
Proof.
  eapply txspec_bind; [apply tx_Emit_rows, typed_on|intros []]. eapply txspec_bind; [apply tx_DeleteFolderRow_rows|intros []].
  apply tx_Remove_rows, typed_on.
Qed.

Lemma keeps_wt_clear child parent : keeps well_typed (clear_parent child parent).
Proof. destruct parent; [apply keeps_ignore, keeps_wt_update|apply keeps_ret]. Qed.

Lemma keeps_wt_DeleteFolder caller i : keeps well_typed (DeleteFolder caller i).
Proof.
  unfold DeleteFolder. apply keeps_bind; [apply keeps_wt_authorize|intros _]. apply keeps_bind; [apply keeps_wt_query|intros []]; [apply keeps_throw|].
  apply keeps_bind; [apply keeps_wt_query|intros [f|]]; [|apply keeps_throw].
  apply keeps_bind; [apply keeps_wt_InTx, tx_delete_folder_rows|intros _].
  apply keeps_bind; [apply keeps_wt_clear|intros _; apply keeps_wt_update].
Qed.

(** Loops in a transaction. *)
Lemma tx_each {A} Q (l : list A) (f : A → M KW unit) : (∀ x, txspec Q (f x) (λ _, Q)) → txspec Q (for_each l f) (λ _, Q).
Proof. intros Hf. apply (txspec_for_each l f (λ _, Q)). intros. apply Hf. Qed.

Lemma tx_acc {A B} Q (l : list A) (b : B) (f : B → A → M KW B) :
  (∀ b x, txspec Q (f b x) (λ _, Q)) → txspec Q (for_acc l b f) (λ _, Q).
Proof. intros Hf. apply (txspec_for_acc l f (λ _, Q)). intros. apply Hf. Qed.

Lemma tx_collect Q fuel caller todo seen : txspec Q (collect_tree fuel caller todo seen) (λ _, Q).
Proof.
  revert todo seen. induction fuel as [|fuel IH]; intros todo seen; cbn [collect_tree]; [apply txspec_throw|].
  destruct todo as [|f todo]; [apply tx_return|]. eapply txspec_bind; [apply tx_read|intros objs].
  eapply txspec_bind; [apply tx_read|intros subs]. destruct (add_unseen subs seen) as [new seen'].
  eapply txspec_bind; [apply IH|intros r]. apply tx_return.
Qed.

Lemma keeps_wt_tree_tx caller root i : keeps well_typed (delete_tree_tx caller root i).
Proof.
  apply keeps_wt_InTx. eapply txspec_bind; [apply (txspec_keeps typed); intros rest; apply keeps_gets|intros fuel].
  eapply txspec_bind; [apply tx_collect|intros r]. eapply txspec_bind.
  { apply tx_acc. intros acc o. eapply (txspec_bind _ _ _ (λ _, typed)); [|intros gone; apply tx_return]. unfold delete_tree_object.
    eapply txspec_bind; [apply tx_Emit_rows, typed_on|intros []]. eapply txspec_bind; [apply tx_reclaim_rows|intros gone].
    eapply txspec_bind; [apply tx_Remove_rows, typed_on|intros []]. apply tx_return. }
  intros orphans. eapply (txspec_bind _ _ _ (λ _, typed)); [|intros []; apply tx_return]. apply tx_each. intros f. apply tx_delete_folder_rows.
Qed.

Lemma keeps_wt_DeleteTree caller i : keeps well_typed (DeleteFolderTree s caller i).
Proof.
  unfold DeleteFolderTree. apply keeps_bind; [apply keeps_wt_authorize|intros _].
  apply keeps_bind; [apply keeps_wt_query|intros [root|]]; [|apply keeps_throw].
  apply keeps_bind; [apply keeps_wt_tree_tx|intros [[fs os] orphans]].
  apply keeps_bind; [apply keeps_for_each; intros h _; apply keeps_ignore, keeps_wt_blob|intros _].
  apply keeps_bind; [|intros e1; apply keeps_bind; [|intros []; [apply keeps_throw|apply keeps_ret]]]; apply keeps_for_acc; intros acc x _.
  - apply keeps_bind; [apply keeps_wt_revoke|intros _]. apply keeps_bind; [apply keeps_wt_clear|intros _].
    apply keeps_bind; [apply keeps_attempt, keeps_wt_update|intros r; apply keeps_ret].
  - apply keeps_bind; [apply keeps_wt_clear|intros _]. apply keeps_bind; [apply keeps_attempt, keeps_wt_update|intros r; apply keeps_ret].
Qed.

Lemma keeps_wt_Mint ttl subject i canWrite : keeps well_typed (Wopi.Mint ttl subject i canWrite).
Proof.
  pose proof wt_stores. unfold Wopi.Mint. apply keeps_bind; [by apply keeps_draw|intros raw]. apply keeps_bind; [apply keeps_gets|intros t].
  apply keeps_bind; [|intros _; apply keeps_bind; [apply keeps_ignore|intros _; apply keeps_ret]];
    apply keeps_stmt; try done; intros w a d Hw E; apply (typed_on (w_db w)); try done; repeat case_match; by simplify_eq.
Qed.

(** Erasure, statement by statement. *)
Lemma keeps_wt_quiet {A} (f : KDB → res (A * KDB)) :
  (∀ d a d', f d = Ok (a, d') → same_rows d d') → keeps well_typed (stmt f).
Proof.
  intros H. apply keeps_stmt; [apply wt_stores|]. intros w a d Hw E. eapply typed_on; [by eapply H|exact Hw].
Qed.

Lemma keeps_wt_Remove i : keeps well_typed (Remove i).
Proof. apply keeps_Remove. split; [apply wt_stores|]. intros w c Hw. by eapply typed_on; [|exact Hw]. Qed.

Lemma keeps_wt_erase_object sub o : keeps well_typed (erase_object sub o).
Proof.
  pose proof keeps_wt_Remove. unfold erase_object, ChunkHashesOf, DeleteObject, DecRef, DeleteChunks, dec_ref_row,
    DeleteObjectTuple, Authz.Delete. keeps_tac.
  - apply keeps_stmt; [apply wt_stores|]. intros ? ? ? Hw [= <- <-]. by apply (typed_delete (o_ID o)).
  - apply keeps_wt_quiet. by intros ? ? ? [= <- <-].
  - apply keeps_wt_quiet. intros ? ? ? E. case_bool_decide; [done|]. by injection E as <- <-.
Qed.

Lemma keeps_wt_erase_folder sub f : keeps well_typed (erase_folder sub f).
Proof.
  pose proof keeps_wt_Remove. unfold erase_folder, DeleteFolderRow, delete_folder_stmt, DeleteObjectTuple, Authz.Delete.
  keeps_tac. apply keeps_attempt, keeps_stmt; [apply wt_stores|]. intros w a d [[H1 H2 H3] Hs] E.
  destruct (_ && _); [done|]. injection E as <- <-. split; [split|]; [done| |done|done].
  intros j x Hx. cbn in Hx. apply lookup_delete_Some in Hx as [_ Hx]. eauto.
Qed.

Lemma keeps_wt_Erase sub : keeps well_typed (SubjectData.EraseSubject sub).
Proof.
  pose proof keeps_wt_erase_object. pose proof keeps_wt_erase_folder.
  unfold SubjectData.EraseSubject, ByOwner, FoldersByOwner. keeps_tac; auto with go.
Qed.

Lemma keeps_wt_ancestors fuel seen cur : keeps well_typed (ancestors_loop fuel seen cur).
Proof.
  revert seen cur. induction fuel as [|fuel IH]; intros seen cur; cbn; [apply keeps_throw|].
  destruct cur as [c|]; [|apply keeps_ret]. case_bool_decide; [apply keeps_ret|].
  apply keeps_bind; [apply keeps_wt_query|intros [f|]]; [|apply keeps_ret]. apply keeps_bind; [apply IH|intros; apply keeps_ret].
Qed.

Lemma keeps_wt_reads caller i folder :
  keeps well_typed (ListFileVersions caller i) ∧ keeps well_typed (LatestOrdinal caller i) ∧ keeps well_typed (List_ caller) ∧
  keeps well_typed (Get_ caller i) ∧ keeps well_typed (GetFolder caller i) ∧ keeps well_typed (ListChildren caller folder) ∧
  keeps well_typed (Ancestors caller i) ∧ keeps well_typed (AllFolders caller).
Proof.
  pose proof keeps_wt_ancestors. pose proof wt_stores.
  unfold ListFileVersions, LatestOrdinal, List_, Get_, GetFolder, ListChildren, Ancestors, AllFolders,
    authorize, authorizeFolder, authorize_dest, ListVersions, MaxOrdinal, ByIDs, GetObject, GetFolderRow,
    FoldersInParent, ObjectsInFolder, FoldersByOwner, tree_fuel, authorizeFolder.
  split_and!; keeps_tac; auto with go.
Qed.

Lemma keeps_wt_Download caller i : keeps (λ ws : KW * bytes, well_typed ws.1) (Download s caller i).
Proof.
  unfold Download, authorize, ManifestOf, Reassemble. pose proof wt_stores.
  apply keeps_bind; [apply keeps_on_world; auto with go|intros _]. apply keeps_bind; [apply keeps_on_world; auto with go|intros refs].
  apply keeps_for_each. intros ref _. unfold reassemble_chunk.
  apply keeps_bind; [apply keeps_on_world, keeps_Get, wt_stores|intros b].
  apply keeps_bind; [apply keeps_lift|intros x]. intros [w out] Hw. cbn in *.
  destruct (next_fault_stores w) as (f&w'&E&Hd&Hr&_). rewrite E. assert (well_typed w') by (unfold well_typed in *; by rewrite Hd). by destruct f.
Qed.

(** ** Every step *)
Lemma kstep_typed l w w' : kstep s l w w' → well_typed w → well_typed w'.
Proof.
  intros [o w0|w0 w1 Hd _] Hw; [|unfold well_typed in *; by rewrite Hd].
  destruct o; cbn [run_op];
    try match goal with |- well_typed ((_ ≫= _) w0).2 => apply (keeps_bind well_typed); [|intros ?; apply keeps_ret|done] end.
  - apply keeps_wt_Upload.
  - pose proof (keeps_wt_Download caller i (w0, []) Hw) as H. by destruct (Download s caller i (w0, [])) as [r [w1 out]].
  - apply keeps_wt_writeVersion.
  - apply (keeps_wt_reads caller i None).
  - apply (keeps_wt_reads caller i None).
  - apply (keeps_wt_reads caller "" None).
  - apply (keeps_wt_reads caller i None).
  - by apply keeps_wt_Delete.
  - apply keeps_wt_CreateFolder.
  - apply (keeps_wt_reads caller i None).
  - apply (keeps_wt_reads caller "" folder).
  - apply (keeps_wt_reads caller i None).
  - apply (keeps_wt_reads caller "" None).
  - by apply keeps_wt_RenameFile.
  - by apply keeps_wt_MoveFile.
  - by apply keeps_wt_RenameFolder.
  - by apply keeps_wt_MoveFolder.
  - by apply keeps_wt_DeleteFolder.
  - by apply keeps_wt_DeleteTree.
  - apply keeps_wt_Mint.
  - by apply keeps_wt_Erase.
Qed.

Lemma run_typed w w' : run s w w' → well_typed w → well_typed w'.
Proof. induction 1; eauto using kstep_typed. Qed.

Lemma boot_typed : well_typed (boot kdb_empty).
Proof. split; [split|]; cbn; intros i; [intros o|intros f|intros r|intros o]; cbn; by rewrite lookup_empty. Qed.

Context {PrOk : PrimitivesOk}.

(** C10: every row is well formed.  In every world that is reachable from the empty one by
    any operations, any environment steps and any faults: a file is stored under its id,
    has a name, an owner and a size that is not negative, lies in a folder that exists,
    and its size is that of its latest version; a folder is stored under its id, has a
    name and an owner, and its parent exists; a version has an ordinal between 0 and the
    largest 32-bit number, a size that is not negative, and its file exists. *)
Theorem rows_well_formed w :
  run s (boot kdb_empty) w →
  let d := w_db w in
  (∀ i o, objects d !! i = Some o → o_ID o = i ∧ object_ok o ∧ (∀ f, o_FolderID o = Some f → is_Some (folders d !! f)) ∧
     ∃ v, latest_version i d = Some v ∧ v_Size v = o_Size o) ∧
  (∀ i f, folders d !! i = Some f → f_ID f = i ∧ folder_ok f ∧ (∀ p, f_ParentID f = Some p → is_Some (folders d !! p))) ∧
  (∀ k r, versions d !! k = Some r → v_ID (vr_version r) = k ∧ version_ok (vr_version r) ∧ is_Some (objects d !! vr_object r)).
Proof.
  intros Hr d. destruct (run_inv s _ _ Hr (boot_inv s)) as [HI _]. destruct (run_typed _ _ Hr boot_typed) as [[H1 H2 H3] Hs].
  split_and!.
  - intros i o Ho. split_and!; [by eapply inv_okey|by eapply H1|intros f; by eapply inv_ofolder|].
    destruct (Hs i o Ho) as (v&[[k Hk] Hmax]&Hsz). exists v. split; [|done]. apply (newest_latest (w_blobs w)); [done|]. split.
    + apply elem_of_versions_of. eauto.
    + intros u [k' Hk']%elem_of_versions_of. eauto.
  - intros i f Hf. split_and!; [by eapply inv_fkey|by eapply H2|intros p; by eapply inv_fparent].
  - intros k r Hk. destruct (H3 k r Hk) as [Hv Ho]. split_and!; [by eapply inv_vkey|done|done].
Qed.
End typed.

(** One file, saved once. *)
Module TypedDemo.
#[local] Existing Instance toy_primitives.
#[local] Existing Instance toy_primitives_ok.
#[local] Existing Instance counting_platform.
#[local] Existing Instance owner_fga.
#[local] Existing Instance no_mime.

Definition write : kop := KWrite demo_user (o_ID Demo.file) [RData [x63]] None.
Definition saved : KW := (run_op demo_service write Demo.uploaded).2.

Lemma rows_well_formed_witness :
  run demo_service (boot kdb_empty) saved ∧
  (o_Size <$> objects (w_db saved) !! o_ID Demo.file) = Some 1%Z ∧ is_Some (objects (w_db saved) !! o_ID Demo.file) ∧
  ∀ o, objects (w_db saved) !! o_ID Demo.file = Some o →
    object_ok o ∧ ∃ v, latest_version (o_ID Demo.file) (w_db saved) = Some v ∧ v_Size v = o_Size o.
Proof.
  assert (run demo_service (boot kdb_empty) saved) as Hr.
  { eapply run_step; [apply (kstep_op demo_service Demo.upload_op)|]. eapply run_step; [apply (kstep_op demo_service write)|apply run_refl]. }
  split; [exact Hr|]. split; [vm_compute; reflexivity|]. split; [vm_compute; eauto|].
  intros o Ho. destruct (rows_well_formed demo_service saved Hr) as [H _]. destruct (H _ o Ho) as (_&H1&_&H2). split; assumption.
Defined.
End TypedDemo.
