(* ===== verification/FolderTheorems.v ===== *)
(** * FolderTheorems: the tree stays a tree

    The cycle check of moves decides the subtree relation, moves keep the parent
    relation acyclic, and recursive deletion removes exactly a subtree. *)

From S2P Require Import Prelude GoText Ids World Pii Pseudonym Conventions Authz Chunker ChunkCrypto Blob Engine Repo RepoInv FileService FolderService Wopi SubjectData KamaraSafety Kamara.
Import Pii Chunker.

(** Every chain of parents ends. *)
Inductive rooted (fs : gmap string Folder) (i : string) : Prop :=
  rooted_intro : (∀ f p, fs !! i = Some f → f_ParentID f = Some p → rooted fs p) → rooted fs i.

Definition forest (d : KDB) : Prop := ∀ i, rooted (folders d) i.

(** One climb: to the parent. *)
Definition parent_of (d : KDB) (i p : string) : Prop :=
  ∃ f, folders d !! i = Some f ∧ f_ParentID f = Some p.

Lemma below_parent B d root i p :
  db_inv B d → parent_of d i p → below d root p → below d root i.
Proof.
  intros HI (f&Hf&Hp) Hb. pose proof (inv_fkey _ _ HI i f Hf) as <-. by eapply below_child.
Qed.

Lemma below_inv B d root i :
  db_inv B d → below d root i → i = root ∨ ∃ p, parent_of d i p ∧ below d root p.
Proof. intros HI [|f p Hb Hf Hp]; [by left|right]. exists p. split; [by exists f|done]. Qed.

(** In a forest nothing is its own proper ancestor. *)
Lemma rooted_no_cycle d i : rooted (folders d) i → ∀ j, tc (parent_of d) i j → j ≠ i.
Proof.
  induction 1 as [i _ IH]. intros j Hj ->.
  assert (∃ p, parent_of d i p ∧ (p = i ∨ tc (parent_of d) p i)) as (p&(f&Hf&Hp)&Hpi).
  { inversion Hj as [x y H|x y z H H']; subst; eauto. }
  assert (tc (parent_of d) p p) as Hpp.
  { destruct Hpi as [->|Hpi]; [done|]. eapply tc_r; [done|by exists f]. }
  by apply (IH f p Hf Hp p Hpp).
Qed.

(** ** The cycle check as a pure function *)
Fixpoint climb (fs : gmap string Folder) (fuel : nat) (moving : string) (seen : gset string)
    (cur : option string) : option bool :=
  match fuel with
  | O => None
  | S fuel' =>
      match cur with
      | None => Some false
      | Some c =>
          if bool_decide (c = moving) || bool_decide (c ∈ seen) then Some true
          else match fs !! c with
               | None => Some false
               | Some f => climb fs fuel' moving ({[c]} ∪ seen) (f_ParentID f)
               end
      end
  end.

(** Enough fuel: one more than the folders not yet seen. *)
Lemma climb_total fs fuel moving seen cur :
  size (dom fs ∖ seen) + 1 < fuel → is_Some (climb fs fuel moving seen cur).
Proof.
  revert seen cur. induction fuel as [|fuel IH]; intros seen cur Hf; cbn; [lia|].
  destruct cur as [c|]; [|eauto]. case_bool_decide; [eauto|]. case_bool_decide as Hs; [eauto|].
  cbn. destruct (fs !! c) as [f|] eqn:E; [|eauto]. apply IH.
  assert (c ∈ dom fs ∖ seen) as Hc by (apply elem_of_difference; split; [by eapply elem_of_dom_2|done]).
  assert (size (dom fs ∖ ({[c]} ∪ seen)) < size (dom fs ∖ seen)); [|lia].
  apply subset_size. split; [set_solver|]. intros Hsub. apply Hsub in Hc. set_solver.
Qed.

Lemma climb_sound B d fuel moving seen cur b :
  db_inv B d → forest d →
  (∀ x, x ∈ seen → match cur with Some c => tc (parent_of d) x c | None => True end) →
  climb (folders d) fuel moving seen cur = Some b →
  b = true ↔ ∃ c, cur = Some c ∧ below d moving c.
Proof.
  intros HI Hfor. revert seen cur. induction fuel as [|fuel IH]; intros seen cur Hseen; cbn; [done|].
  destruct cur as [c|]; [|intros [= <-]; split; [done|by intros (?&?&?)]].
  case_bool_decide as Hm; [intros [= <-]; split; [|done]; intros _; exists c; subst; split; [done|apply below_root]|].
  case_bool_decide as Hs.
  { exfalso. by apply (rooted_no_cycle d c (Hfor c) c (Hseen c Hs)). }
  cbn. destruct (folders d !! c) as [f|] eqn:Ef.
  - intros Hc. apply IH in Hc.
    + rewrite Hc. split.
      * intros (p&Hp&Hb). exists c. split; [done|]. eapply below_parent; [done|by exists f|done].
      * intros (c'&[= <-]&Hb). apply (below_inv B) in Hb as [->|(p&(f'&Hf'&Hp)&Hb)]; [done| |done].
        exists p. split; [congruence|done].
    + intros x Hx. destruct (f_ParentID f) as [p|] eqn:Ep; [|done].
      assert (parent_of d c p) as Hcp by (by exists f).
      apply elem_of_union in Hx as [->%elem_of_singleton|Hx]; [by apply tc_once|].
      eapply tc_r; [by apply Hseen|done].
  - intros [= <-]. split; [done|]. intros (c'&[= <-]&Hb).
    apply (below_inv B) in Hb as [->|(p&(f'&Hf'&_)&_)]; [done|congruence|done].
Qed.

Section cycle.
Context {F : OpenFGA}.

(** The loop reads the tree, and answers as the pure function does. *)
Lemma would_cycle_loop_spec fuel moving seen cur w r w' :
  would_cycle_loop fuel moving seen cur w = (r, w') →
  w_db w' = w_db w ∧ w_rest w' = w_rest w ∧
  (r = Err ErrExternal ∨
   r = match climb (folders (w_db w)) fuel moving seen cur with
       | Some b => Ok b | None => Err out_of_fuel end).
Proof.
  revert seen cur w. induction fuel as [|fuel IH]; intros seen cur w; cbn [would_cycle_loop climb].
  { intros [= <- <-]. auto. }
  destruct cur as [c|]; [|intros [= <- <-]; auto].
  destruct (bool_decide (c = moving) || bool_decide (c ∈ seen)); [intros [= <- <-]; auto|].
  rewrite run_bind. destruct (GetFolderRow c w) as [r1 w1] eqn:E1.
  apply query_cases in E1 as (D1&R1&_&_&[-> | ->]); [|intros [= <- <-]; auto].
  destruct (folders (w_db w) !! c) as [f|]; [|intros [= <- <-]; auto].
  intros (D2&R2&Hr)%IH. rewrite D1 in Hr, D2. rewrite R1 in R2. auto.
Qed.

Lemma wouldCycle_spec moving dest w r w' B :
  db_inv B (w_db w) → forest (w_db w) → wouldCycle moving dest w = (r, w') →
  w_db w' = w_db w ∧ w_rest w' = w_rest w ∧
  (r = Err ErrExternal ∨ ∃ b, r = Ok b ∧ (b = true ↔ below (w_db w) moving dest)).
Proof.
  intros HI Hfor E. unfold wouldCycle, tree_fuel in E. rewrite run_bind in E. cbn [gets] in E.
  apply would_cycle_loop_spec in E as (D&R&Hr). split; [done|]. split; [done|].
  destruct Hr as [?|Hr]; [by left|right].
  destruct (climb_total (folders (w_db w)) (S (S (size (folders (w_db w))))) moving ∅ (Some dest)) as [b Hb].
  { rewrite difference_empty_L, size_dom. lia. }
  rewrite Hb in Hr. exists b. split; [done|].
  rewrite (climb_sound B (w_db w) _ moving ∅ (Some dest) b HI Hfor) by (done || set_solver).
  split; [by intros (c&[= <-]&?)|eauto].
Qed.
End cycle.

(** Reparenting below something outside the subtree keeps the forest. *)
Lemma forest_reparent B d i dest f :
  db_inv B d → forest d → (∀ p, dest = Some p → ¬ below d i p) →
  (∀ x, f_ParentID (f x) = dest) →
  ∀ j, rooted (update_row f i (folders d)) j.
Proof.
  intros HI Hfor Hd Hf. set (fs' := update_row f i (folders d)).
  assert (∀ j, ¬ below d i j → rooted fs' j) as Hout.
  { intros j. induction (Hfor j) as [j _ IH]. intros Hj. constructor. intros x p Hx Hp.
    assert (j ≠ i) as Hne by (intros ->; apply Hj, below_root).
    unfold fs', update_row in Hx. rewrite lookup_alter_ne in Hx by done.
    apply (IH x p Hx Hp). intros Hb. apply Hj. eapply below_parent; [done|by exists x|done]. }
  intros j. induction (Hfor j) as [j _ IH]. constructor. intros x p Hx Hp.
  unfold fs', update_row in Hx. destruct (decide (i = j)) as [<-|Hne].
  - rewrite lookup_alter_eq in Hx. destruct (folders d !! i) as [y|]; [|done].
    cbn in Hx. injection Hx as <-. rewrite Hf in Hp. apply Hout, Hd. done.
  - rewrite lookup_alter_ne in Hx by done. by apply (IH x p).
Qed.

(** ** Every operation keeps the forest *)

(** The parents only shrink: rows disappear, or keep their parent. *)
Definition parents_shrink (d d' : KDB) : Prop :=
  ∀ i p, parent_of d' i p → parent_of d i p.

Lemma forest_shrink d d' : parents_shrink d d' → forest d → forest d'.
Proof.
  intros Hp Hf i. induction (Hf i) as [i _ IH]. constructor. intros x p Hx Hxp.
  destruct (Hp i p) as (f&Hi&Hfp); [by exists x|]. by apply (IH f p).
Qed.

Lemma shrink_folders d d' : folders d' = folders d → parents_shrink d d'.
Proof. intros E i p (f&Hf&Hp). exists f. by rewrite <- E. Qed.

Lemma forest_conv d cv : forest d → forest (with_conv cv d).
Proof. apply forest_shrink. by apply shrink_folders. Qed.

(** A new leaf under an existing folder. *)
Lemma forest_insert B d f :
  db_inv B d → folders d !! f_ID f = None →
  (∀ p, f_ParentID f = Some p → is_Some (folders d !! p)) →
  forest d → forest (with_folders (<[f_ID f := f]> (folders d)) d).
Proof.
  intros HI Hn Hp Hfor.
  assert (∀ j, is_Some (folders d !! j) → rooted (<[f_ID f := f]> (folders d)) j) as Hold.
  { intros j. induction (Hfor j) as [j _ IH]. intros [x Hx]. constructor. intros y p Hy Hyp.
    assert (f_ID f ≠ j) by congruence. rewrite lookup_insert_ne in Hy by done.
    apply (IH y p Hy Hyp). by eapply (inv_fparent _ _ HI). }
  intros j. constructor. intros y p Hy Hyp. cbn in Hy. apply Hold.
  destruct (decide (f_ID f = j)) as [<-|Hne].
  - rewrite lookup_insert_eq in Hy. injection Hy as <-. auto.
  - rewrite lookup_insert_ne in Hy by done. by eapply (inv_fparent _ _ HI).
Qed.

Section tree.
Context {Pr : Primitives} {PrOk : PrimitivesOk} {P : Platform} {F : OpenFGA} {Mi : Mime}.
Context (s : Service).

Definition is_forest (w : KW) : Prop := forest (w_db w).

Lemma is_forest_stores : stores_only is_forest.
Proof. intros w w' Hd _. unfold is_forest. by rewrite Hd. Qed.

Lemma is_forest_conv : ignores_conv is_forest.
Proof. split; [apply is_forest_stores|]. intros w cv. apply forest_conv. Qed.

Lemma is_forest_fga : ignores_fga is_forest.
Proof. split; [apply is_forest_stores|done]. Qed.

Lemma forest_stmt {A} (f : KDB → res (A * KDB)) :
  (∀ d a d', f d = Ok (a, d') → parents_shrink d d') → keeps is_forest (stmt f).
Proof.
  intros H. apply keeps_stmt; [apply is_forest_stores|]. intros w a d Hw E.
  eapply forest_shrink; [by eapply H|done].
Qed.

Lemma forest_stmt_now {A} (f : Z → KDB → res (A * KDB)) :
  (∀ t d a d', f t d = Ok (a, d') → parents_shrink d d') → keeps is_forest (stmt_now f).
Proof.
  intros H. apply keeps_bind; [apply keeps_gets|]. intros t. apply forest_stmt, H.
Qed.

Lemma forest_InTx {A} (fn : M KW A) : keeps is_forest fn → keeps is_forest (InTx fn).
Proof.
  intros Hfn w Hw. destruct (InTx_cases fn w) as (w0&Hd&_&_&_&H).
  assert (is_forest w0) as Hw0 by (unfold is_forest; by rewrite Hd). specialize (Hfn w0 Hw0).
  destruct (fn w0) as [r w1], (InTx fn w) as [r' w']. unfold is_forest in *. cbn in *.
  by destruct H as [(->&_)|(a&_&->&_)].
Qed.

#[local] Hint Resolve is_forest_stores is_forest_conv is_forest_fga forest_InTx : go.

Lemma forest_fga f : keeps is_forest (fga_update f).
Proof. apply keeps_fga_update, is_forest_fga. Qed.

Ltac quiet :=
  first [apply forest_stmt | apply forest_stmt_now]; intros; repeat case_match; simplify_eq; by apply shrink_folders.

Lemma forest_InsertObject o : keeps is_forest (InsertObject o).
Proof. quiet. Qed.
Lemma forest_SetObjectFolder i dest : keeps is_forest (SetObjectFolder i dest).
Proof. quiet. Qed.
Lemma forest_SetObjectName i name : keeps is_forest (SetObjectName i name).
Proof. quiet. Qed.
Lemma forest_SetObjectSize i size : keeps is_forest (SetObjectSize i size).
Proof. quiet. Qed.

Lemma forest_InsertVersion oid vid ordinal size refs :
  keeps is_forest (InsertVersion oid vid ordinal size refs).
Proof.
  unfold InsertVersion. apply keeps_bind; [apply keeps_attempt; quiet|intros r].
  apply keeps_bind; [apply keeps_lift|intros _]. generalize 0 as idx.
  induction refs as [|ref refs IH]; intros idx; cbn [insert_manifest]; [apply keeps_ret|].
  apply keeps_bind; [quiet|intros _]. apply keeps_bind; [quiet|intros _]. apply IH.
Qed.

Lemma forest_reclaimObject i : keeps is_forest (reclaimObject i).
Proof.
  unfold reclaimObject, ChunkHashesOf, DecRef, DeleteChunks, DeleteObject, dec_ref_row. keeps_tac; quiet.
Qed.

Lemma forest_DeleteFolderRow i : keeps is_forest (DeleteFolderRow i).
Proof.
  unfold DeleteFolderRow, delete_folder_stmt. keeps_tac. apply keeps_attempt, forest_stmt. intros d a d' E.
  destruct (_ && _); [done|]. injection E as <- <-. intros j p (f&Hf&Hp). exists f. cbn in Hf.
  by apply lookup_delete_Some in Hf as [_ ?].
Qed.

Lemma forest_SetFolderName i name : keeps is_forest (SetFolderName i name).
Proof.
  apply forest_stmt_now. intros t d a d' [= <- <-] j p (f&Hf&Hp).
  cbn in Hf. unfold update_row in Hf. destruct (decide (i = j)) as [<-|].
  - rewrite lookup_alter_eq in Hf. destruct (folders d !! i) as [g|] eqn:E; [|done].
    injection Hf as <-. by exists g.
  - rewrite lookup_alter_ne in Hf by done. by exists f.
Qed.

Lemma forest_sessions i : keeps is_forest (revoke_sessions s i).
Proof. unfold revoke_sessions. destruct (s_revoker s); [|apply keeps_ret]. apply keeps_ignore. quiet. Qed.

Lemma forest_authorize caller o : keeps is_forest (authorizeAccess caller o).
Proof. unfold authorizeAccess. keeps_tac. Qed.

Lemma forest_Blob_Delete h : keeps is_forest (Blob.Delete h).
Proof.
  intros w Hw. destruct (Blob.Delete h w) as [r w'] eqn:E. apply Delete_cases in E as [Ho _].
  injection Ho as Hd _ _. unfold is_forest in *. cbn. by rewrite Hd.
Qed.

Lemma forest_Ingest body : keeps is_forest (Ingest (s_cipher s) body).
Proof.
  intros w Hw. destruct (Ingest_spec (s_cipher s) body w) as (l&o&_&(Hd&_)&_).
  unfold is_forest in *. by rewrite Hd.
Qed.

#[local] Hint Resolve forest_fga forest_InsertObject forest_SetObjectFolder forest_SetObjectName
  forest_SetObjectSize forest_InsertVersion forest_reclaimObject forest_DeleteFolderRow
  forest_SetFolderName forest_sessions forest_authorize forest_Blob_Delete forest_Ingest
  keeps_query keeps_new_id : go.

Lemma forest_reads caller i folder fuel seen cur todo :
  keeps is_forest (ListFileVersions caller i) ∧ keeps is_forest (LatestOrdinal caller i) ∧
  keeps is_forest (List_ caller) ∧ keeps is_forest (Get_ caller i) ∧
  keeps is_forest (GetFolder caller i) ∧ keeps is_forest (ListChildren caller folder) ∧
  keeps is_forest (AllFolders caller) ∧ keeps is_forest (ancestors_loop fuel seen cur) ∧
  keeps is_forest (collect_tree fuel caller todo seen).
Proof.
  unfold ListFileVersions, LatestOrdinal, List_, Get_, GetFolder, ListChildren, AllFolders,
    authorize, authorizeFolder, authorize_dest, ListVersions, MaxOrdinal, ByIDs, GetObject, GetFolderRow,
    FoldersInParent, ObjectsInFolder, FoldersByOwner, authorizeFolder.
  split_and!; keeps_tac.
  - revert seen cur. induction fuel as [|fuel IH]; intros seen cur; cbn [ancestors_loop];
      unfold GetFolderRow; keeps_tac; apply IH.
  - revert seen todo. induction fuel as [|fuel IH]; intros seen todo; cbn [collect_tree];
      unfold ObjectsInFolder, FoldersInParent; keeps_tac; apply IH.
Qed.

Lemma forest_Ancestors caller i : keeps is_forest (Ancestors caller i).
Proof.
  pose proof (λ fuel seen cur, proj1 (proj2 (proj2 (proj2 (proj2 (proj2 (proj2 (proj2
    (forest_reads caller i None fuel seen cur []))))))))) as Hl.
  unfold Ancestors, tree_fuel, authorizeFolder. keeps_tac.
Qed.

Ltac forest_tac := repeat (keeps_tac; try (apply forest_InTx)).

Lemma forest_write_version_loop left caller i base refs total :
  keeps is_forest (write_version_loop left caller i base refs total).
Proof.
  unfold write_version_tx. induction left as [|left IH]; cbn [write_version_loop];
    unfold write_version_tx, write_version_at, MaxOrdinal; keeps_tac; try exact IH; apply keeps_attempt; forest_tac.
Qed.

Lemma forest_files owner folder name body caller i base dest :
  keeps is_forest (Upload s owner folder name body) ∧
  keeps is_forest (writeVersion s caller i body base) ∧
  keeps is_forest (Delete_ s caller i) ∧
  keeps is_forest (RenameFile caller i name) ∧
  keeps is_forest (MoveFile caller i dest).
Proof.
  pose proof forest_write_version_loop.
  unfold Upload, upload_commit, upload_tx, writeVersion, Delete_, delete_tx, delete_cleanup,
    reclaim_blobs, RenameFile, MoveFile, move_file_tx, reparent, authorize, authorizeFolder,
    authorize_dest, authorizeFolder, GetObject, now, Write, WriteObjectTuple, DeleteObjectTuple, Authz.Delete.
  split_and!; forest_tac; auto.
Qed.

Lemma forest_Download caller i : keeps (λ ws : KW * bytes, is_forest ws.1) (Download s caller i).
Proof.
  unfold Download, authorize, ManifestOf, Reassemble.
  apply keeps_bind; [apply keeps_on_world; auto with go|intros _].
  apply keeps_bind; [apply keeps_on_world; auto with go|intros refs].
  apply keeps_for_each. intros ref _. unfold reassemble_chunk.
  apply keeps_bind; [apply keeps_on_world; auto with go|intros b].
  apply keeps_bind; [apply keeps_lift|intros x]. intros [w out] Hw. cbn in *.
  destruct (next_fault_stores w) as (f&w'&E&Hd&Hr&_). rewrite E.
  assert (is_forest w') by (by apply (is_forest_stores w)). by destruct f.
Qed.

Lemma forest_folder_ops caller i name :
  keeps is_forest (RenameFolder caller i name) ∧
  keeps is_forest (DeleteFolder caller i) ∧
  keeps is_forest (DeleteFolderTree s caller i).
Proof.
  pose proof (λ fuel seen todo, proj2 (proj2 (proj2 (proj2 (proj2 (proj2 (proj2 (proj2
    (forest_reads caller i None fuel seen None todo))))))))) as Hc.
  unfold RenameFolder, DeleteFolder, DeleteFolderTree, delete_folder_tx, delete_tree_tx, delete_tree_object,
    delete_tree_folder, clear_object_tuples, clear_folder_tuples, reclaim_blobs, clear_parent, tree_fuel,
    authorizeFolder, GetFolderRow, FolderHasChildren, DeleteObjectTuple, Authz.Delete.
  split_and!; forest_tac; auto.
Qed.

(** A transaction whose body keeps the forest when it succeeds. *)
Lemma forest_InTx_txspec {A} (fn : M KW A) (w : KW) :
  txspec (λ d, d = w_db w) fn (λ _ d, forest d) → is_forest w → is_forest (InTx fn w).2.
Proof.
  intros H Hw. destruct (InTx fn w) as [r w'] eqn:E. unfold is_forest in *. cbn.
  destruct (InTx_txspec _ _ _ _ _ _ H eq_refl E) as [_ [[-> _]|(a&?&_)]]; done.
Qed.

(** Statements of the convention tables after the interesting one. *)
Lemma txspec_then_keeps {A} (m : M KW A) (k : A → M KW unit) d0 :
  txspec (λ d, d = d0) m (λ _ d, forest d) →
  (∀ a rest, keeps (λ w : KW, forest (w_db w) ∧ w_rest w = rest) (k a)) →
  txspec (λ d, d = d0) (m ≫= k) (λ _ d, forest d).
Proof. intros Hm Hk. eapply txspec_bind; [done|]. intros a. apply txspec_keeps, Hk. Qed.

Lemma forest_rest_conv rest : ignores_conv (λ w : KW, forest (w_db w) ∧ w_rest w = rest).
Proof.
  split.
  - intros w w' Hd Hr [? ?]. by rewrite <- Hd, <- Hr.
  - intros w cv [? ?]. split; [by apply forest_conv|done].
Qed.
#[local] Hint Resolve forest_rest_conv : go.

Lemma authorize_dest_frames caller dest (w : KW) r w' :
  authorize_dest caller dest w = (r, w') → w_db w' = w_db w ∧ w_now w' = w_now w ∧ w_draws w' = w_draws w.
Proof.
  unfold authorize_dest. destruct dest as [i|]; [|by intros [= <- <-]].
  unfold authorizeFolder, authorizeAccess. rewrite run_bind.
  destruct (Check_frames_all caller AccessRelation (folderObj i) w) as (r0&w0&E0&D0&_&N0&R0&_). rewrite E0.
  by destruct r0 as [[]|e]; intros [= <- <-].
Qed.

Lemma forest_CreateFolder B owner parent name w :
  db_inv B (w_db w) → is_forest w → (∀ p, parent = Some p → (new_id w).1 ≠ Ok p) →
  is_forest (CreateFolder owner parent name w).2.
Proof.
  intros HI Hfor Hp. unfold CreateFolder. case_bool_decide; [done|]. rewrite run_bind.
  destruct (authorize_dest owner parent w) as [[[]|e] w1] eqn:E1; apply authorize_dest_frames in E1 as (D1&N1&R1).
  2: { unfold is_forest. cbn. by rewrite D1. }
  rewrite run_bind. change (now w1) with (Ok (w_now w1), w1). cbv iota beta. rewrite run_bind.
  assert ((new_id w1).1 = (new_id w).1) as Hid by (unfold new_id; rewrite !run_bind; cbn; rewrite !run_bind; cbn; by rewrite N1, R1).
  destruct (new_id_frame w1) as (i&w2&E2&D2&_). rewrite E2 in Hid |- *. cbn [fst] in Hid. rewrite <- Hid in Hp.
  assert (w_db w2 = w_db w) as D by congruence. generalize (w_now w1) as t. clear -HI Hfor Hp D. intros t. revert w2 D.
  match goal with |- ∀ w2, _ → is_forest (?m w2).2 => change (triple (λ w', w_db w' = w_db w) m (λ _, is_forest)) end.
  apply (triple_bind _ _ _ (λ _, is_forest)).
  - intros w1 Hw1. assert (is_forest (create_folder_tx (MkFolder i owner parent name t t) w1).2) as H1.
    { apply forest_InTx_txspec; [|unfold is_forest; by rewrite Hw1]. rewrite Hw1. apply txspec_then_keeps.
      - apply txspec_stmt. intros d a d' ->. case_bool_decide as Hn; [done|].
        destruct (fk_ok _ _) eqn:Ef; [|done]. intros [= <- <-].
        apply (forest_insert B _ (MkFolder i owner parent name t t)); [done|by apply eq_None_not_Some| |done].
        intros p Hpp. cbn in Hpp. apply (fk_ok_true _ _ p) in Ef; [|done]. cbn in Ef.
        rewrite lookup_insert_ne in Ef; [done|]. intros ->. by apply (Hp p).
      - intros a rest. keeps_tac. }
    by destruct (create_folder_tx _ w1) as [[[]|e] w2].
  - intros _. match goal with |- triple _ ?m _ => change (keeps is_forest m) end.
    unfold Write, WriteObjectTuple. keeps_tac.
Qed.

(** ** Moves *)
Lemma authorizeAccess_reads caller o (w : KW) r w' :
  authorizeAccess caller o w = (r, w') → w_db w' = w_db w.
Proof.
  unfold authorizeAccess. rewrite run_bind.
  destruct (Check_frames_all caller AccessRelation o w) as (r0&w0&E0&D0&R0&H). rewrite E0.
  by destruct r0 as [[]|e]; intros [= <- <-].
Qed.

Lemma check_dest_spec B caller i dest w r w' :
  db_inv B (w_db w) → forest (w_db w) → check_dest caller i dest w = (r, w') →
  w_db w' = w_db w ∧ (r = Ok tt → ∀ p, dest = Some p → ¬ below (w_db w) i p).
Proof.
  intros HI Hfor. unfold check_dest. destruct dest as [p|]; [|by intros [= <- <-]].
  rewrite run_bind. destruct (authorizeFolder caller p w) as [r0 w0] eqn:E0.
  pose proof (authorizeAccess_reads _ _ _ _ _ E0) as D0.
  destruct r0 as [[]|e]; [|by intros [= <- <-]].
  rewrite run_bind. destruct (wouldCycle i p w0) as [r1 w1] eqn:E1. rewrite <- D0 in HI, Hfor.
  destruct (wouldCycle_spec i p w0 r1 w1 B HI Hfor E1) as (D1&R1&[-> |(b&->&Hb)]).
  { intros [= <- <-]. split; [congruence|done]. }
  destruct b; intros [= <- <-]; (split; [congruence|]); [done|].
  intros _ q [= <-] Hbe. rewrite D0 in Hb. by apply Hb in Hbe.
Qed.

(** Every outcome of a move. *)
Lemma MoveFolder_spec B caller i dest w r w' :
  db_inv B (w_db w) → is_forest w → MoveFolder caller i dest w = (r, w') →
  w_db w' = w_db w ∧ is_ok r = false ∨
  forest (w_db w') ∧ ∀ p, dest = Some p → ¬ below (w_db w) i p.
Proof.
  intros HI Hfor. unfold MoveFolder. rewrite run_bind.
  destruct (authorizeFolder caller i w) as [r0 w0] eqn:E0.
  pose proof (authorizeAccess_reads _ _ _ _ _ E0) as D0.
  destruct r0 as [[]|e]; [|intros [= <- <-]; by left].
  unfold is_forest in Hfor. rewrite <- D0 in HI, Hfor |- *.
  rewrite run_bind. destruct (check_dest caller i dest w0) as [r1 w1] eqn:E1.
  destruct (check_dest_spec _ _ _ _ _ _ _ HI Hfor E1) as (D1&Hno).
  destruct r1 as [[]|e]; [|intros [= <- <-]; by left].
  specialize (Hno eq_refl). rewrite run_bind. destruct (GetFolderRow i w1) as [r2 w2] eqn:E2.
  apply query_cases in E2 as (D2&_&_&_&[-> | ->]); [|intros [= <- <-]; left; split; [congruence|done]].
  destruct (folders (w_db w1) !! i) as [f|]; [|intros [= <- <-]; left; split; [congruence|done]].
  intros E. right. split; [|done]. revert E. generalize (f_ParentID f) as old. intros old E.
  match type of E with ?m w2 = _ =>
    cut (triple (λ w, w_db w = w_db w0) m (λ _, is_forest)) end.
  { intros H. specialize (H w2 ltac:(etrans; done)). by rewrite E in H. }
  apply (triple_bind _ _ _ (λ _, is_forest)).
  - intros w3 Hw3. assert (is_forest (move_folder_tx caller i dest f w3).2) as H1.
    { apply forest_InTx_txspec; [|unfold is_forest; by rewrite Hw3]. rewrite Hw3. apply txspec_then_keeps.
      - apply txspec_now. intros t a d. destruct (_ && _); [done|]. intros [= <- <-] j.
        by apply (forest_reparent B (w_db w0) i dest).
      - intros a rest. keeps_tac. }
    by destruct (move_folder_tx caller i dest f w3) as [[[]|e] w4].
  - intros _. match goal with |- triple _ ?m _ => change (keeps is_forest m) end.
    unfold reparent, DeleteObjectTuple, WriteObjectTuple. keeps_tac.
Qed.

Lemma forest_Mint ttl subject i canWrite : keeps is_forest (Wopi.Mint ttl subject i canWrite).
Proof.
  unfold Wopi.Mint, WopiPut, WopiDeleteExpired.
  apply keeps_bind; [apply keeps_draw, is_forest_stores|intros raw]. apply keeps_bind; [apply keeps_gets|intros t].
  apply keeps_bind; [quiet|intros _]. apply keeps_bind; [apply keeps_ignore; quiet|intros _; apply keeps_ret].
Qed.

Lemma forest_Erase sub : keeps is_forest (SubjectData.EraseSubject sub).
Proof.
  unfold SubjectData.EraseSubject, erase_object, erase_folder, ByOwner, FoldersByOwner, ChunkHashesOf, DeleteObject,
    DecRef, DeleteChunks, dec_ref_row, DeleteObjectTuple, Authz.Delete. keeps_tac; try quiet; auto with go.
Qed.

(** ** Steps *)

(** The id drawn for a new folder is not the one it is given as its parent: a row
    may name itself without breaking the foreign key. *)
Definition parent_differs (l : option kop) (w : KW) : Prop :=
  match l with
  | Some (KCreateFolder _ (Some p) _) => (new_id w).1 ≠ Ok p
  | _ => True
  end.

Lemma run_void {A} (m : M KW A) w : ((m ≫= λ _, mret tt) w).2 = (m w).2.
Proof. rewrite run_bind. by destruct (m w) as [[a|e] w']. Qed.

Lemma kstep_forest l w w' :
  kstep s l w w' → kam_inv s w → parent_differs l w → is_forest w → is_forest w'.
Proof.
  intros Hs [HI _] Hp Hfor. destruct Hs as [o w|w w' Hd _].
  2: { unfold is_forest in *. by rewrite Hd. }
  destruct o; cbn [run_op parent_differs] in *; rewrite ?run_void.
  - exact (proj1 (forest_files owner folder name body owner "" None None) w Hfor).
  - pose proof (forest_Download caller i (w, []) Hfor) as H.
    by destruct (Download s caller i (w, [])) as [r [w' out]].
  - exact (proj1 (proj2 (forest_files caller None "" body caller i base None)) w Hfor).
  - exact (proj1 (forest_reads caller i None 0 ∅ None []) w Hfor).
  - exact (proj1 (proj2 (forest_reads caller i None 0 ∅ None [])) w Hfor).
  - destruct (forest_reads caller "" None 0 ∅ None []) as (_&_&H&_). exact (H w Hfor).
  - destruct (forest_reads caller i None 0 ∅ None []) as (_&_&_&H&_). exact (H w Hfor).
  - destruct (forest_files caller None "" [] caller i None None) as (_&_&H&_). exact (H w Hfor).
  - apply (forest_CreateFolder (w_blobs w)); [done|done|]. by intros p ->.
  - destruct (forest_reads caller i None 0 ∅ None []) as (_&_&_&_&H&_). exact (H w Hfor).
  - destruct (forest_reads caller "" folder 0 ∅ None []) as (_&_&_&_&_&H&_). exact (H w Hfor).
  - apply (forest_Ancestors caller i w Hfor).
  - destruct (forest_reads caller "" None 0 ∅ None []) as (_&_&_&_&_&_&H&_). exact (H w Hfor).
  - destruct (forest_files caller None name [] caller i None None) as (_&_&_&H&_). exact (H w Hfor).
  - destruct (forest_files caller None "" [] caller i None dest) as (_&_&_&_&H). exact (H w Hfor).
  - exact (proj1 (forest_folder_ops caller i name) w Hfor).
  - destruct (MoveFolder caller i dest w) as [r w'] eqn:E. unfold is_forest. cbn.
    destruct (MoveFolder_spec _ _ _ _ _ _ _ HI Hfor E) as [[-> _]|[? _]]; done.
  - exact (proj1 (proj2 (forest_folder_ops caller i "")) w Hfor).
  - exact (proj2 (proj2 (forest_folder_ops caller i "")) w Hfor).
  - exact (forest_Mint ttl subject i canWrite w Hfor).
  - exact (forest_Erase subject w Hfor).
Qed.

Lemma forest_empty : forest kdb_empty.
Proof. intros i. constructor. intros f p Hf. cbn in Hf. by rewrite lookup_empty in Hf. Qed.

(** Runs in which no folder is created as its own parent. *)
Inductive tree_run : KW → KW → Prop :=
  | tree_refl w : tree_run w w
  | tree_step l w1 w2 w3 :
      parent_differs l w1 → kstep s l w1 w2 → tree_run w2 w3 → tree_run w1 w3.

Lemma tree_run_inv w w' :
  tree_run w w' → kam_inv s w → is_forest w → kam_inv s w' ∧ is_forest w'.
Proof. induction 1; eauto using kstep_inv, kstep_forest. Qed.

(** C13: the folder hierarchy stays a hierarchy, as long as operations run one
    after another.  In every world reachable from the empty one by any sequence of
    operations (erasures among them; the random id drawn for a new folder being
    another than the one it is given as its parent), any environment steps and any
    faults: every chain of parents ends at a folder without a parent in the table,
    and no folder is its own proper ancestor; from there a move into the folder's
    own subtree is refused and changes nothing, while the cycle check of any other
    move answers that it is safe, within as many steps as there are folders.  (Two
    moves at the same time can form a cycle: the check of a move reads outside its
    transaction, see Races.v.) *)
Theorem folder_tree_acyclic w :
  tree_run (boot kdb_empty) w →
  (∀ i, rooted (folders (w_db w)) i) ∧
  (∀ i j, tc (parent_of (w_db w)) i j → j ≠ i) ∧
  (∀ caller i p, below (w_db w) i p →
     let '(r, w') := MoveFolder caller i (Some p) w in is_ok r = false ∧ w_db w' = w_db w) ∧
  (∀ i p, ∃ b, (wouldCycle i p w).1 = Err ErrExternal ∨
               (wouldCycle i p w).1 = Ok b ∧ (b = true ↔ below (w_db w) i p)).
Proof.
  intros Hr. destruct (tree_run_inv _ _ Hr (boot_inv s) forest_empty) as [[HI _] Hfor]. split_and!.
  - exact Hfor.
  - intros i j. by apply rooted_no_cycle.
  - intros caller i p Hb. destruct (MoveFolder caller i (Some p) w) as [r w'] eqn:E.
    destruct (MoveFolder_spec _ _ _ _ _ _ _ HI Hfor E) as [[? ?]|[_ H]]; [done|]. by destruct (H p eq_refl).
  - intros i p. destruct (wouldCycle i p w) as [r w'] eqn:E.
    destruct (wouldCycle_spec _ _ _ _ _ _ HI Hfor E) as (_&_&[-> |(b&->&Hb)]); [exists true; by left|].
    exists b. by right.
Qed.
End tree.

(** ** Recursive deletion *)

(** The collection ends: every step visits one folder and queues only folders
    that were not met before. *)
Lemma add_unseen_size (fs : gmap string Folder) subs seen new seen' :
  (∀ f, f ∈ subs → is_Some (fs !! f_ID f)) → add_unseen subs seen = (new, seen') →
  length new + size (dom fs ∖ seen') ≤ size (dom fs ∖ seen).
Proof.
  revert seen new. induction subs as [|x subs IH]; intros seen new Hs; cbn [add_unseen].
  { intros [= <- <-]. done. }
  case_bool_decide as Hx; [apply IH; intros f Hf; apply Hs; by right|].
  destruct (add_unseen subs ({[f_ID x]} ∪ seen)) as [l s'] eqn:E. intros [= <- <-]. cbn [length].
  apply IH in E; [|intros f Hf; apply Hs; by right].
  assert (size (dom fs ∖ ({[f_ID x]} ∪ seen)) < size (dom fs ∖ seen)); [|lia].
  assert (f_ID x ∈ dom fs ∖ seen) as Hin.
  { apply elem_of_difference. split; [apply elem_of_dom, Hs; left|done]. }
  apply subset_size. split; [set_solver|]. intros Hsub. apply Hsub in Hin. set_solver.
Qed.

Lemma collect_tree_total B fuel caller todo seen (w : KW) :
  db_inv B (w_db w) → length todo + size (dom (folders (w_db w)) ∖ seen) < fuel →
  (collect_tree fuel caller todo seen w).1 ≠ Err out_of_fuel.
Proof.
  revert todo seen w. induction fuel as [|fuel IH]; intros todo seen w HI Hf; [lia|].
  cbn [collect_tree]. destruct todo as [|f todo]; [done|]. rewrite run_bind.
  destruct (ObjectsInFolder caller (Some (f_ID f)) w) as [r1 w1] eqn:E1.
  apply query_cases in E1 as (D1&_&_&_&[-> | ->]); [|done]. rewrite run_bind.
  destruct (FoldersInParent caller (Some (f_ID f)) w1) as [r2 w2] eqn:E2.
  apply query_cases in E2 as (D2&_&_&_&[-> | ->]); [|done].
  rewrite D1 in *. set (subs := merge_sort _ _). destruct (add_unseen subs seen) as [new seen'] eqn:En.
  apply (add_unseen_size (folders (w_db w))) in En.
  2: { intros g Hg. unfold subs in Hg. rewrite merge_sort_Permutation in Hg.
       apply elem_of_select in Hg as [_ [k Hk]]. rewrite (inv_fkey _ _ HI k g Hk). eauto. }
  rewrite run_bind. destruct (collect_tree fuel caller (todo ++ new) seen' w2) as [[[fs os]|e] w3] eqn:E3; [done|].
  specialize (IH (todo ++ new) seen' w2). rewrite D2, E3 in IH. cbn in IH |- *. intros [= ->].
  apply IH; [done| |done]. rewrite length_app. cbn in Hf. lia.
Qed.

(** What recursive deletion may do: rows of the subtree disappear, all others stay. *)
Definition pruned (root : string) (d d' : KDB) : Prop :=
  (∀ i, folders d' !! i = folders d !! i ∨ folders d' !! i = None ∧ below d root i) ∧
  (∀ i, objects d' !! i = objects d !! i ∨ objects d' !! i = None ∧ tree_file d root i).

Lemma pruned_tables root d d1 d2 :
  folders d2 = folders d1 → objects d2 = objects d1 → pruned root d d1 → pruned root d d2.
Proof. intros Hf Ho [H1 H2]. split; intros i; [rewrite Hf|rewrite Ho]; auto. Qed.

(** With the root gone, the foreign keys leave nothing of the subtree. *)
Lemma pruned_all B root d d' :
  db_inv B d' → pruned root d d' → folders d' !! root = None →
  (∀ i, below d root i → folders d' !! i = None) ∧
  (∀ i, tree_file d root i → objects d' !! i = None).
Proof.
  intros HI [Hf Ho] Hroot.
  assert (∀ i, below d root i → folders d' !! i = None) as Hb.
  { induction 1 as [|f p Hp IH Hi Hfp]; [done|]. destruct (Hf (f_ID f)) as [E|[E _]]; [|done].
    rewrite Hi in E. destruct (inv_fparent _ _ HI _ _ _ E Hfp) as [x Hx]. congruence. }
  split; [done|]. intros i (o&p&Hi&Hop&Hp). destruct (Ho i) as [E|[E _]]; [|done].
  rewrite Hi in E. destruct (inv_ofolder _ _ HI _ _ _ E Hop) as [x Hx]. rewrite Hb in Hx; done.
Qed.

Section prune.
Context {Pr : Primitives} {PrOk : PrimitivesOk} {P : Platform} {F : OpenFGA} {Mi : Mime}.
Context (s : Service) (root : string) (d0 : KDB).

(** Progress of a deletion that has removed the folders [gone] so far. *)
Definition pruning (gone : list Folder) (d : KDB) : Prop :=
  pruned root d0 d ∧ ∀ f, f ∈ gone → folders d !! f_ID f = None.

Definition pruning_at gone rest (w : KW) : Prop := pruning gone (w_db w) ∧ w_rest w = rest.

Lemma pruning_tables gone d1 d2 :
  folders d2 = folders d1 → objects d2 = objects d1 → pruning gone d1 → pruning gone d2.
Proof. intros Hf Ho [H1 H2]. split; [by eapply pruned_tables|]. intros f. rewrite Hf. auto. Qed.

Lemma pruning_stores gone rest : stores_only (pruning_at gone rest).
Proof. intros w w' Hd Hr [? ?]. unfold pruning_at. by rewrite <- Hd, <- Hr. Qed.

Lemma pruning_conv gone rest : ignores_conv (pruning_at gone rest).
Proof.
  split; [apply pruning_stores|]. intros w cv [? ?]. split; [|done].
  by apply (pruning_tables gone (w_db w)).
Qed.

#[local] Hint Resolve pruning_stores pruning_conv keeps_query : go.

Lemma pruning_quiet {A} gone rest (f : KDB → res (A * KDB)) :
  (∀ d a d', f d = Ok (a, d') → folders d' = folders d ∧ objects d' = objects d) →
  keeps (pruning_at gone rest) (stmt f).
Proof.
  intros H. apply keeps_stmt; [apply pruning_stores|]. intros w a d [Hw Hr] E. split; [|done].
  destruct (H _ _ _ E). by apply (pruning_tables gone (w_db w)).
Qed.

Lemma pruning_object gone rest caller o acc :
  tree_file d0 root (o_ID o) →
  keeps (pruning_at gone rest) (g ← delete_tree_object caller o; mret (acc ++ g)).
Proof.
  intros Ho. unfold delete_tree_object, reclaimObject, ChunkHashesOf, DecRef, DeleteChunks, dec_ref_row.
  keeps_tac; try (apply pruning_quiet; intros; repeat case_match; by simplify_eq).
  apply keeps_stmt; [apply pruning_stores|]. intros w x d [[[H1 H2] H3] Hr] [= <- <-]. split; [|done].
  split; [split; [done|]|done]. intros i. cbn. destruct (decide (o_ID o = i)) as [<-|Hne].
  - rewrite lookup_delete_eq. auto.
  - rewrite lookup_delete_ne by done. auto.
Qed.

Lemma tx_pruning_folder gone caller f :
  below d0 root (f_ID f) →
  txspec (pruning gone) (delete_tree_folder caller f) (λ _, pruning (gone ++ [f])).
Proof.
  intros Hf. unfold delete_tree_folder, DeleteFolderRow, delete_folder_stmt.
  apply (txspec_bind _ _ _ (λ _, pruning gone)); [apply txspec_keeps; intros rest; apply keeps_Emit, pruning_conv|].
  intros []. apply (txspec_bind _ _ _ (λ _, pruning (gone ++ [f]))).
  2: { intros []. apply txspec_keeps. intros rest. apply keeps_Remove, pruning_conv. }
  eapply txspec_bind.
  - apply txspec_attempt, (txspec_stmt _ _ (λ _, pruning (gone ++ [f]))).
    intros d a d' [[H1 H2] H3]. destruct (_ && _); [done|]. intros [= <- <-].
    assert (∀ i, folders (with_folders (delete (f_ID f) (folders d)) d) !! i =
      if decide (i = f_ID f) then None else folders d !! i) as E.
    { intros i. cbn. destruct (decide (i = f_ID f)) as [->|]; [apply lookup_delete_eq|by apply lookup_delete_ne]. }
    split; [split; [|done]|].
    + intros i. rewrite E. destruct (decide _) as [->|]; auto.
    + intros g Hg. rewrite E. destruct (decide _); [done|].
      apply elem_of_app in Hg as [Hg|Hg]; [auto|]. apply list_elem_of_singleton in Hg. congruence.
  - intros [[]|e].
    + eapply txspec_weaken; [apply txspec_ret|exact (λ _ H, H)|]. intros [] d [_ H]. exact (H tt eq_refl).
    + case_bool_decide; apply txspec_throw.
Qed.

(** The collection starts with its first folder. *)
Lemma collect_tree_head fuel caller f todo seen :
  txspec (λ _ : KDB, True) (collect_tree fuel caller (f :: todo) seen) (λ r _, f ∈ r.1).
Proof.
  destruct fuel as [|fuel]; cbn [collect_tree]; [apply txspec_throw|].
  eapply txspec_bind; [apply txspec_query|]. intros objs. eapply txspec_bind; [apply txspec_query|].
  intros subs. destruct (add_unseen subs seen) as [new seen'].
  apply (txspec_bind _ _ _ (λ _ _, True)).
  - eapply txspec_weaken; [apply (txspec_keeps (λ _, True))|done|done]. intros rest.
    assert (stores_only (λ w : KW, True ∧ w_rest w = rest)) by (intros w w' _ <-; done).
    generalize (todo ++ new) as l, seen'. induction fuel as [|fuel IH]; intros l sn; cbn [collect_tree];
      unfold ObjectsInFolder, FoldersInParent; keeps_tac; apply IH.
  - intros r. eapply txspec_weaken; [apply txspec_ret|exact (λ _ H, H)|]. intros a d [-> _]. left.
Qed.

Lemma txspec_and {A} (Q : KDB → Prop) (m : M KW A) (R R' : A → KDB → Prop) :
  txspec Q m R → txspec Q m R' → txspec Q m (λ a d, R a d ∧ R' a d).
Proof. intros H H' w Hw. destruct (H w Hw), (H' w Hw). split; auto. Qed.

Lemma tx_prune B caller f :
  db_inv B d0 → f_ID f = root →
  txspec (λ d, d = d0) (fuel ← tree_fuel;
    r ← collect_tree fuel caller [f] {[root]};
    orphans ← for_acc r.2 [] (λ acc o, gone ← delete_tree_object caller o; mret (acc ++ gone));
    for_each (reverse r.1) (delete_tree_folder caller) ;;
    mret (r.1, r.2, orphans)) (λ _ d, pruned root d0 d ∧ folders d !! root = None).
Proof.
  intros HI Hroot. eapply txspec_bind.
  { apply (txspec_keeps (λ d, d = d0)). intros rest. apply keeps_gets. }
  intros fuel. eapply txspec_bind.
  { apply txspec_and.
    - apply (tx_collect_tree B fuel caller root); [done|].
      intros g ->%list_elem_of_singleton. rewrite Hroot. apply below_root.
    - eapply txspec_weaken; [apply collect_tree_head|done|exact (λ _ _ H, H)]. }
  intros [fs os]. cbn [fst snd].
  apply (txspec_pure _ ((∀ g, g ∈ fs → below d0 root (f_ID g)) ∧ (∀ o, o ∈ os → tree_file d0 root (o_ID o)) ∧ f ∈ fs)).
  { by intros d [(_&?&?) ?]. }
  intros (Hfs&Hos&Hf). apply (txspec_bind _ _ _ (λ _, pruning [])).
  { eapply txspec_weaken; [apply (txspec_keeps (pruning []))| |exact (λ _ _ H, H)].
    - intros rest. apply keeps_for_acc. intros acc o Ho. by apply (pruning_object [] rest), Hos.
    - intros d [(->&_) _]. split; [by split; auto|]. by intros g ?%not_elem_of_nil. }
  intros orphans. apply (txspec_bind _ _ _ (λ _, pruning (reverse fs))).
  { apply txspec_for_each. intros dn g rest E. apply tx_pruning_folder, Hfs.
    apply elem_of_reverse. rewrite E. set_solver. }
  intros []. eapply txspec_weaken; [apply txspec_ret|exact (λ _ H, H)|].
  intros a d [_ [H1 H2]]. split; [done|]. rewrite <- Hroot. apply H2. by apply elem_of_reverse.
Qed.
End prune.

Section delete_tree.
Context {Pr : Primitives} {PrOk : PrimitivesOk} {P : Platform} {F : OpenFGA} {Mi : Mime}.
Context (s : Service).

(** Files and folders as in [d]: what is left to do after the transaction. *)
Definition same_rows (d : KDB) (w : KW) : Prop :=
  folders (w_db w) = folders d ∧ objects (w_db w) = objects d.

Lemma same_rows_stores d : stores_only (same_rows d).
Proof. intros w w' Hd _ [? ?]. unfold same_rows. by rewrite <- Hd. Qed.

Lemma same_rows_fga d f : keeps (same_rows d) (fga_update f).
Proof. apply keeps_fga_update. split; [apply same_rows_stores|done]. Qed.

Lemma same_rows_Blob_Delete d h : keeps (same_rows d) (Blob.Delete h).
Proof.
  intros w Hw. destruct (Blob.Delete h w) as [r w'] eqn:E. apply Delete_cases in E as [Ho _].
  injection Ho as Hd _ _. unfold same_rows in *. cbn. by rewrite Hd.
Qed.

Lemma same_rows_sessions d i : keeps (same_rows d) (revoke_sessions s i).
Proof.
  unfold revoke_sessions. destruct (s_revoker s); [|apply keeps_ret].
  apply keeps_ignore, keeps_stmt; [apply same_rows_stores|]. by intros w a d' Hw [= <- <-].
Qed.

#[local] Hint Resolve same_rows_stores same_rows_fga same_rows_Blob_Delete same_rows_sessions : go.

Lemma DeleteFolderTree_spec B caller root w r w' :
  db_inv B (w_db w) → DeleteFolderTree s caller root w = (r, w') →
  w_db w' = w_db w ∧ is_ok r = false ∨
  ∃ d, db_inv B d ∧ pruned root (w_db w) d ∧ folders d !! root = None ∧ same_rows d w'.
Proof.
  intros HI. unfold DeleteFolderTree. rewrite run_bind.
  destruct (authorizeFolder caller root w) as [r0 w0] eqn:E0.
  pose proof (authorizeAccess_reads _ _ _ _ _ E0) as D0.
  destruct r0 as [[]|e]; [|intros [= <- <-]; by left].
  rewrite run_bind. destruct (GetFolderRow root w0) as [r1 w1] eqn:E1.
  apply query_cases in E1 as (D1&_&_&_&[-> | ->]); [|intros [= <- <-]; left; split; [congruence|done]].
  rewrite D0 in *. destruct (folders (w_db w) !! root) as [f|] eqn:Ef; [|intros [= <- <-]; left; split; [congruence|done]].
  pose proof (inv_fkey _ _ HI _ _ Ef) as Hid. rewrite run_bind.
  destruct (delete_tree_tx caller f root w1) as [r2 w2] eqn:E2.
  pose proof (txspec_and _ _ _ _ (tx_prune root (w_db w) B caller f HI Hid)
    (tx_delete_tree (λ _, False) B caller f root (w_db w) HI Hid ltac:(by intros ? []))) as HT.
  destruct (InTx_txspec _ _ _ _ _ _ HT D1 E2) as [_ [[D2 Hno]|([[fs os] orphans]&[[Hp Hr] [[HI2 _] _]]&Hres)]].
  { destruct r2; [done|]. intros [= <- <-]. left. split; [congruence|done]. }
  destruct Hres as [-> | ->]; [|intros [= <- <-]; right; exists (w_db w2); by split_and!].
  intros E. right. exists (w_db w2). split_and!; [done..|].
  match type of E with ?m w2 = _ => cut (keeps (same_rows (w_db w2)) m) end.
  { intros H. specialize (H w2 (conj eq_refl eq_refl)). by rewrite E in H. }
  unfold reclaim_blobs, clear_object_tuples, clear_folder_tuples, clear_parent, DeleteObjectTuple, Authz.Delete.
  keeps_tac.
Qed.

(** C14: recursive deletion removes exactly a subtree.  Whatever fails, either
    the database is as before and an error is reported, or every folder of the
    subtree and every file in it is gone (also those a listing of the caller's
    own rows would not show: such a subtree cannot be deleted) and every other
    folder and file is unchanged.  The breadth-first collection ends within as
    many steps as there are folders. *)
Theorem DeleteFolderTree_exact w caller root :
  run s (boot kdb_empty) w →
  (let '(r, w') := DeleteFolderTree s caller root w in
   w_db w' = w_db w ∧ is_ok r = false ∨
   (∀ i, below (w_db w) root i → folders (w_db w') !! i = None) ∧
   (∀ i, tree_file (w_db w) root i → objects (w_db w') !! i = None) ∧
   (∀ i, ¬ below (w_db w) root i → folders (w_db w') !! i = folders (w_db w) !! i) ∧
   (∀ i, ¬ tree_file (w_db w) root i → objects (w_db w') !! i = objects (w_db w) !! i)) ∧
  (∀ f, folders (w_db w) !! root = Some f →
     ((fuel ← tree_fuel; collect_tree fuel caller [f] {[root]}) w).1 ≠ Err out_of_fuel).
Proof.
  intros Hrun. destruct (run_inv s _ _ Hrun (boot_inv s)) as [HI _]. split.
  - destruct (DeleteFolderTree s caller root w) as [r w'] eqn:E.
    destruct (DeleteFolderTree_spec _ _ _ _ _ _ HI E) as [?|(d&HI'&Hp&Hr&Hf&Ho)]; [by left|right].
    destruct (pruned_all _ _ _ _ HI' Hp Hr) as [H1 H2]. destruct Hp as [P1 P2]. rewrite Hf, Ho.
    split_and!; [done|done|..]; intros i Hi; [destruct (P1 i)|destruct (P2 i)]; naive_solver.
  - intros f Hf. rewrite run_bind. cbn [tree_fuel gets].
    apply (collect_tree_total (w_blobs w)); [done|]. cbn [length].
    assert (size (dom (folders (w_db w)) ∖ {[root]}) ≤ size (folders (w_db w))) as Hs; [|lia].
    rewrite <- size_dom. apply subseteq_size. set_solver.
Qed.
End delete_tree.

(** ** Witnesses: a folder with a folder in it *)
Module TreeDemo.
#[local] Existing Instance toy_primitives.
#[local] Existing Instance toy_primitives_ok.
#[local] Existing Instance counting_platform.
#[local] Existing Instance owner_fga.
#[local] Existing Instance no_mime.

Definition created (parent : option string) (w : KW) : Folder :=
  match (CreateFolder demo_user parent "docs" w).1 with
  | Ok f => f
  | Err _ => MkFolder "" demo_user None "" 0 0
  end.
Definition w0 : KW := boot kdb_empty.
Definition top : string := f_ID (created None w0).
Definition op1 : kop := KCreateFolder demo_user None "docs".
Definition w1 : KW := (run_op demo_service op1 w0).2.
Definition op2 : kop := KCreateFolder demo_user (Some top) "inner".
Definition w2 : KW := (run_op demo_service op2 w1).2.

Lemma two_folders : size (folders (w_db w2)) = 2 ∧ is_Some (folders (w_db w1) !! top).
Proof. split; [vm_compute; reflexivity|]. apply (bool_decide_unpack (is_Some _)). vm_compute. exact I. Qed.

Lemma w2_run : tree_run demo_service w0 w2.
Proof.
  apply (tree_step _ (Some op1) w0 w1); [exact I|apply (kstep_op demo_service op1)|].
  apply (tree_step _ (Some op2) w1 w2); [|apply (kstep_op demo_service op2)|].
  { cbn [parent_differs op2]. vm_compute. discriminate. }
  apply tree_refl.
Qed.

Lemma folder_tree_acyclic_witness :
  (∀ i, rooted (folders (w_db w2)) i) ∧
  (∀ i j, tc (parent_of (w_db w2)) i j → j ≠ i) ∧
  (∀ caller i p, below (w_db w2) i p →
     let '(r, w') := MoveFolder caller i (Some p) w2 in is_ok r = false ∧ w_db w' = w_db w2) ∧
  (∀ i p, ∃ b, (wouldCycle i p w2).1 = Err ErrExternal ∨
               (wouldCycle i p w2).1 = Ok b ∧ (b = true ↔ below (w_db w2) i p)).
Proof. exact (folder_tree_acyclic demo_service w2 w2_run). Defined.

Lemma w2_plain_run : run demo_service w0 w2.
Proof.
  apply (run_step _ (Some op1) w0 w1); [apply (kstep_op demo_service op1)|].
  apply (run_step _ (Some op2) w1 w2); [apply (kstep_op demo_service op2)|]. apply run_refl.
Qed.

Lemma DeleteFolderTree_exact_witness :
  is_ok (DeleteFolderTree demo_service demo_user top w2).1 = true ∧
  (∀ f, folders (w_db w2) !! top = Some f →
     ((fuel ← tree_fuel; collect_tree fuel demo_user [f] {[top]}) w2).1 ≠ Err out_of_fuel).
Proof.
  split; [vm_compute; reflexivity|].
  pose proof (DeleteFolderTree_exact demo_service w2 demo_user top w2_plain_run) as [_ H].
  exact H.
Defined.
End TreeDemo.
