(* ===== verification/Access.v ===== *)
(** * Access: the authorization gate of the file domain

    Every operation on a file or folder asks OpenFGA for [can_access] on what it
    touches before it does anything (file.go, folder.go).  [guards_of] lists the
    checks of each operation; an operation with a denied check fails and leaves
    database, blobs and tuples alone. *)

From S2P Require Import Prelude GoText Ids World Pii Pseudonym Conventions Authz Chunker ChunkCrypto Blob Engine Repo FileService FolderService Kamara.
Import Pii Chunker.

(** The objects an operation must have access to. *)
Definition guards_of (o : kop) : list (Subject * string) :=
  match o with
  | KUpload owner (Some f) _ _ => [(owner, folderObj f)]
  | KUpload _ None _ _ => []
  | KDownload caller i | KWrite caller i _ _ | KVersions caller i | KOrdinal caller i
  | KGet caller i | KDelete caller i | KRenameFile caller i _ => [(caller, obj i)]
  | KCreateFolder owner (Some p) _ => [(owner, folderObj p)]
  | KCreateFolder _ None _ => []
  | KGetFolder caller i | KAncestors caller i | KRenameFolder caller i _
  | KDeleteFolder caller i | KDeleteTree caller i => [(caller, folderObj i)]
  | KListChildren caller (Some f) => [(caller, folderObj f)]
  | KListChildren _ None => []
  | KMoveFile caller i dest =>
      (caller, obj i) :: match dest with Some d => [(caller, folderObj d)] | None => [] end
  | KMoveFolder caller i dest =>
      (caller, folderObj i) :: match dest with Some d => [(caller, folderObj d)] | None => [] end
  | KList _ | KAllFolders _ | KMint _ _ _ _ | KErase _ => []
  end.

Section access.
Context {Pr : Primitives} {P : Platform} {F : OpenFGA} {Mi : Mime}.
Context (s : Service).

Definition allowed (w : KW) (g : Subject * string) : bool :=
  fga_check (w_fga w) (tuple g.1 AccessRelation g.2).

(** An error, with no effect on any store. *)
Definition fails_clean {A} (m : M KW A) (w : KW) : Prop :=
  ∃ e w', m w = (Err e, w') ∧ w_db w' = w_db w ∧ w_rest w' = w_rest w.

(** No effect on any store. *)
Definition reads {A} (m : M KW A) (w : KW) : Prop :=
  w_db (m w).2 = w_db w ∧ w_rest (m w).2 = w_rest w.

Lemma fails_bind {A B} (m : M KW A) (k : A → M KW B) w :
  fails_clean m w → fails_clean (m ≫= k) w.
Proof. intros (e&w'&E&H). exists e, w'. by rewrite (run_bind_err _ _ _ _ _ E). Qed.

Lemma fails_after {A B} (m : M KW A) (k : A → M KW B) w :
  reads m w →
  (∀ a w', m w = (Ok a, w') → w_db w' = w_db w → w_rest w' = w_rest w → fails_clean (k a) w') →
  fails_clean (m ≫= k) w.
Proof.
  intros [H1 H2] Hk. unfold fails_clean. rewrite run_bind. destruct (m w) as [[a|e] w1]; cbn in *; [|eauto].
  destruct (Hk a w1 eq_refl H1 H2) as (e&w'&E&Hd&Hr). exists e, w'. split; [done|]. split; congruence.
Qed.

Lemma authorize_reads caller o w : reads (authorizeAccess caller o) w.
Proof.
  unfold reads, authorizeAccess. rewrite run_bind.
  destruct (Check_frames_all caller AccessRelation o w) as (r&w'&E&H1&H2&_). rewrite E.
  by destruct r as [[]|e].
Qed.

Lemma authorize_denied caller o w :
  allowed w (caller, o) = false → fails_clean (authorizeAccess caller o) w.
Proof.
  intros Hd. unfold fails_clean, authorizeAccess. rewrite run_bind.
  destruct (Check_frames_all caller AccessRelation o w) as (r&w'&E&H1&H2&_&_&Hr). rewrite E.
  destruct Hr as [-> | ->]; [|by do 2 eexists].
  unfold allowed in Hd. cbn in Hd. rewrite Hd. by do 2 eexists.
Qed.

Lemma allowed_rest w w' g : w_rest w' = w_rest w → allowed w' g = allowed w g.
Proof. intros H. injection H as _ Hf. unfold allowed. by rewrite Hf. Qed.

(** The two checks of a move: the moved object, then the destination. *)
Lemma move_denied {A} caller x dest (m : M KW unit) (k : unit → M KW A) w :
  (allowed w (caller, x) = false ∨ ∃ d, dest = Some d ∧ allowed w (caller, folderObj d) = false) →
  (∀ w' d, dest = Some d → allowed w' (caller, folderObj d) = false → fails_clean m w') →
  fails_clean (authorizeAccess caller x ;; m ≫= k) w.
Proof.
  intros [Hx|(d&Hd&Hx)] Hm; [by apply fails_bind, authorize_denied|].
  apply fails_after; [apply authorize_reads|]. intros a w' _ _ Hr. apply fails_bind.
  apply (Hm w' d Hd). by rewrite (allowed_rest w).
Qed.

Lemma download_denied caller i w :
  allowed w (caller, obj i) = false → fails_clean (run_op s (KDownload caller i)) w.
Proof.
  intros Hd. destruct (authorize_denied _ _ _ Hd) as (e&w'&E&H). exists e, w'. split; [|done].
  cbn [run_op]. unfold Download, authorize. rewrite run_bind. cbn [on_world]. by rewrite E.
Qed.

(** Look for the denied check along the first steps. *)
Ltac deny := first [by apply authorize_denied | apply fails_bind; deny].

(** C7: the authorization gate.  An operation one of whose checks OpenFGA
    answers with no fails, and changes neither the database nor the blobs nor
    the tuples, whatever else fails. *)
Theorem denied_without_effect o w g :
  g ∈ guards_of o → allowed w g = false →
  ∃ e w', run_op s o w = (Err e, w') ∧ w_db w' = w_db w ∧ w_rest w' = w_rest w.
Proof.
  intros Hg Hd. change (fails_clean (run_op s o) w).
  destruct o; cbn [guards_of] in Hg; try by apply not_elem_of_nil in Hg.
  all: try (destruct folder as [f|]); try (destruct parent as [f|]);
    try (by apply not_elem_of_nil in Hg).
  all: try match type of Hg with _ ∈ [_] => apply list_elem_of_singleton in Hg as -> end.
  all: try (by apply download_denied).
  all: try (cbn [run_op]; unfold Upload, CreateFolder, RenameFile, RenameFolder;
    try (case_bool_decide; [by do 2 eexists|]);
    deny).
  all: apply elem_of_cons in Hg.
  - apply (move_denied caller (obj i) dest).
    + destruct Hg as [-> | Hg]; [by left|right]. destruct dest as [d|]; [|by apply not_elem_of_nil in Hg].
      apply list_elem_of_singleton in Hg as ->. eauto.
    + intros w' d -> Hx. by apply authorize_denied.
  - apply (move_denied caller (folderObj i) dest).
    + destruct Hg as [-> | Hg]; [by left|right]. destruct dest as [d|]; [|by apply not_elem_of_nil in Hg].
      apply list_elem_of_singleton in Hg as ->. eauto.
    + intros w' d -> Hx. by apply fails_bind, authorize_denied.
Qed.
End access.

Lemma denied_without_effect_witness :
  ∃ e w', run_op (Pr := toy_primitives) (P := counting_platform) (F := owner_fga) (Mi := no_mime)
      demo_service (KDelete demo_user "f1") (boot kdb_empty) = (Err e, w') ∧
    w_db w' = kdb_empty ∧ w_rest w' = (∅, ∅).
Proof.
  apply (denied_without_effect (Pr := toy_primitives) (P := counting_platform) (F := owner_fga)
    (Mi := no_mime) demo_service (KDelete demo_user "f1") (boot kdb_empty) (demo_user, obj "f1")).
  - left.
  - vm_compute. reflexivity.
Defined.
