(* ===== verification/Races.v ===== *)
(** * Races: concurrent operations of the file domain

    Saves: [writeVersion] (file.go) reads the newest ordinal and inserts the next
    one in a transaction, so two saves can pick the same ordinal; the UNIQUE
    constraint refuses the second, which tries again.  Here the savers take turns
    on one shared world: the first turn of an attempt draws the id, begins the
    transaction and reads the newest ordinal, the second runs the rest of the
    transaction (the constraint is checked against what others have committed, and
    a statement waits for a transaction that holds the key).

    Moves: the cycle check of a move reads outside the transaction of the move.

    Delete against upload: the chunk blobs are checked before, and reclaimed
    after, the transactions that account for them. *)

From S2P Require Import Prelude GoText Ids World Pii Pseudonym Conventions Authz Chunker ChunkCrypto Blob Engine Repo RepoInv FileService FolderService KamaraSafety Kamara FolderTheorems.
Import Pii Chunker.

(** ** A transaction in two parts *)
Section split_tx.
Context {D : Type}.

(** InTx after BEGIN. *)
Definition rest_of_tx {A} (fn : M (world D) A) : M (world D) A :=
  snap ← gets w_db;
  r ← attempt fn;
  match r with
  | Err e => modify (set_db snap) ;; throw e
  | Ok a =>
      f ← next_fault;
      match f with
      | FOk => mret a
      | FFail => modify (set_db snap) ;; throw (ErrWrap "dbtx: commit" ErrExternal)
      | FLost => throw (ErrWrap "dbtx: commit" ErrExternal)
      end
  end.

Definition begin_tx : M (world D) unit := call (mret tt).

Lemma InTx_split {A} (fn : M (world D) A) w : InTx fn w = (begin_tx ;; rest_of_tx fn) w.
Proof. reflexivity. Qed.

(** A transaction that starts with a query, cut after it. *)
Lemma InTx_after_query {A X} (f : D → X) (fn : X → M (world D) A) w :
  InTx (m ← query f; fn m) w =
  match (begin_tx ;; query f) w with
  | (Ok m, w1) => rest_of_tx (fn m) w1
  | (Err e, w1) => (Err e, w1)
  end.
Proof.
  rewrite InTx_split, !run_bind. destruct (begin_tx w) as [[[]|e] w0]; [|done].
  destruct (query f w0) as [r w1] eqn:E. pose proof (query_cases _ _ _ _ E) as (Hd&_&_&_&Hr).
  unfold rest_of_tx. rewrite !run_bind. cbn [gets attempt]. unfold gets, attempt. rewrite run_bind, run_bind, E.
  destruct r as [m|e].
  - rewrite run_bind, run_bind, Hd. reflexivity.
  - rewrite run_bind. cbn. rewrite <- Hd, set_db_id. reflexivity.
Qed.

Lemma rest_of_tx_cases {A} (fn : M (world D) A) w r w' :
  rest_of_tx fn w = (r, w') →
  (w_db w' = w_db w ∧ is_ok r = false ∧
   ((fn w).1 = r ∨ r = Err (ErrWrap "dbtx: commit" ErrExternal)) ∧ w_rest w' = w_rest (fn w).2) ∨
  (∃ a, (fn w).1 = Ok a ∧ w_db w' = w_db (fn w).2 ∧ w_rest w' = w_rest (fn w).2 ∧
        (r = Ok a ∨ r = Err (ErrWrap "dbtx: commit" ErrExternal))).
Proof.
  unfold rest_of_tx. rewrite run_bind. unfold gets at 1. rewrite run_bind. unfold attempt.
  destruct (fn w) as [[a|e] w1]; cbn [fst snd].
  - rewrite run_bind. destruct (next_fault_stores w1) as (f&w2&E2&Hd2&Hr2&_). rewrite E2.
    destruct f; cbn; intros [= <- <-]; cbn.
    + right. exists a. auto.
    + left. split_and!; auto.
    + right. exists a. auto.
  - cbn. intros [= <- <-]. left. split_and!; auto.
Qed.
End split_tx.

(** ** Concurrent saves of one file *)
Inductive wstate := WStart | WRead (verID : string) (m : option Z) | WDone (ordinal : Z) | WFailed (e : error).

(** A saver: what it saves (its body is already ingested), how many attempts it has
    left, and where it is. *)
Record writer := MkWriter {
  wr_caller : Subject;
  wr_base : option Z;
  wr_refs : list ChunkRef;
  wr_total : Z;
  wr_left : nat;
  wr_at : wstate;
}.

Definition set_at (x : writer) (left : nat) (st : wstate) : writer :=
  MkWriter (wr_caller x) (wr_base x) (wr_refs x) (wr_total x) left st.

Definition is_done (x : writer) : bool := match wr_at x with WDone _ => true | _ => false end.
Definition active (x : writer) : bool := match wr_at x with WStart | WRead _ _ => true | _ => false end.

Section saves.
Context {P : Platform}.
Context (oid : string).

Definition ords (d : KDB) : list Z := v_Ordinal <$> versions_of oid d.

(** How an attempt ends. *)
Definition settle (x : writer) (r : res Z) : writer :=
  match r with
  | Ok ordinal => set_at x (wr_left x) (WDone ordinal)
  | Err e =>
      match next_attempt (wr_left x) e with
      | Some more => set_at x more WStart
      | None => set_at x (wr_left x) (WFailed e)
      end
  end.

(** BEGIN and a query fail only for want of the database. *)
Lemma begin_query_cases {A} (f : KDB → A) w r w' :
  (begin_tx ;; query f) w = (r, w') →
  w_db w' = w_db w ∧ w_rest w' = w_rest w ∧ (r = Ok (f (w_db w)) ∨ r = Err ErrExternal).
Proof.
  rewrite run_bind. unfold begin_tx, call at 1. rewrite run_bind.
  destruct (next_fault_stores w) as (g&w0&E&Hd&Hr&_). rewrite E.
  destruct g; cbn; [|intros [= <- <-]; auto..].
  intros (D1&R1&_&_&H)%query_cases. rewrite D1, R1, Hd, Hr. rewrite Hd in H. done.
Qed.

(** One turn. *)
Definition advance (x : writer) : M KW writer :=
  match wr_at x with
  | WStart =>
      verID ← new_id;
      r ← attempt (begin_tx ;; MaxOrdinal oid);
      mret (match r with
            | Ok m => set_at x (wr_left x) (WRead verID m)
            | Err e => settle x (Err e)
            end)
  | WRead verID m =>
      r ← attempt (rest_of_tx (write_version_at (wr_caller x) oid verID (wr_base x) (wr_refs x) (wr_total x) m));
      mret (settle x r)
  | _ => mret x
  end.

Fixpoint turns (k : nat) (x : writer) : M KW writer :=
  match k with
  | 0 => mret x
  | S k' => x' ← advance x; turns k' x'
  end.

(** The outcome of a saver, as the loop reports it. *)
Definition reports (x : writer) (r : res Z) : Prop :=
  wr_at x = match r with Ok ordinal => WDone ordinal | Err e => WFailed e end.

Lemma advance_total x w : ∃ x' w', advance x w = (Ok x', w').
Proof.
  unfold advance. destruct (wr_at x); [| |eauto..].
  - rewrite run_bind. destruct (new_id_frame w) as (i&w1&E&_). rewrite E, run_bind. unfold attempt.
    destruct ((begin_tx ;; MaxOrdinal oid) w1) as [r w2]. eauto.
  - rewrite run_bind. unfold attempt. destruct (rest_of_tx _ w) as [r w2]. eauto.
Qed.

Lemma advance_start x w i w1 :
  wr_at x = WStart → new_id w = (Ok i, w1) →
  advance x w = let '(r, w2) := (begin_tx ;; query (max_ordinal oid)) w1 in
    (Ok (match r with Ok m => set_at x (wr_left x) (WRead i m) | Err e => settle x (Err e) end), w2).
Proof.
  intros Hx E. unfold advance. rewrite Hx, run_bind, E, run_bind. unfold attempt.
  change (MaxOrdinal oid) with (query (max_ordinal oid)).
  by destruct ((begin_tx ;; query (max_ordinal oid)) w1) as [r w2].
Qed.

Lemma advance_read x w verID m :
  wr_at x = WRead verID m →
  advance x w =
    let '(r, w2) := rest_of_tx (write_version_at (wr_caller x) oid verID (wr_base x) (wr_refs x) (wr_total x) m) w in
    (Ok (settle x r), w2).
Proof. intros Hx. unfold advance. rewrite Hx, run_bind. unfold attempt. by destruct (rest_of_tx _ w). Qed.

Lemma turns_inactive k x w : active x = false → turns k x w = (Ok x, w).
Proof.
  intros Ha. induction k as [|k IH]; [done|]. cbn [turns]. rewrite run_bind. unfold advance, active in *.
  destruct (wr_at x); done.
Qed.

(** One attempt of the loop. *)
Lemma loop_attempt left caller base refs total w :
  write_version_loop left caller oid base refs total w =
  (verID ← new_id;
   r ← attempt (write_version_tx caller oid verID base refs total);
   match r with
   | Ok ordinal => mret ordinal
   | Err e => match next_attempt left e with
              | Some more => write_version_loop more caller oid base refs total
              | None => throw e
              end
   end) w.
Proof.
  unfold next_attempt. destruct left as [|[|left]]; cbn [write_version_loop]; rewrite !run_bind;
    destruct (new_id w) as [[i|e] w1]; try done; rewrite !run_bind;
    destruct (attempt _ w1) as [[[o|e]|e] w2]; try done; by destruct (errors_is e ErrVersionConflict).
Qed.

Lemma next_attempt_lt left e l : next_attempt left e = Some l → l < left ∧ 0 < l.
Proof. unfold next_attempt. destruct (errors_is _ _); [|done]. destruct left as [|[|]]; [done..|]. intros [= <-]. lia. Qed.

(** Alone on the world, the turns of a saver are the loop of the code. *)
Lemma turns_are_the_loop left k x w r w' :
  left ≤ k → 0 < left → wr_at x = WStart → wr_left x = left →
  write_version_loop left (wr_caller x) oid (wr_base x) (wr_refs x) (wr_total x) w = (r, w') →
  ∃ x', turns (2 * k) x w = (Ok x', w') ∧ reports x' r.
Proof.
  revert k x w. induction left as [left IH] using lt_wf_ind. intros k x w Hk Hl Hx <-.
  destruct k as [|k]; [lia|]. replace (2 * S k) with (S (S (2 * k))) by lia.
  rewrite loop_attempt, run_bind. destruct (new_id_frame w) as (i&w1&E1&_). rewrite E1, run_bind.
  unfold attempt at 1, write_version_tx, MaxOrdinal. rewrite InTx_after_query.
  cbn [turns]. rewrite (run_bind (advance x)), (advance_start x w i w1 Hx E1).
  destruct ((begin_tx ;; query (max_ordinal oid)) w1) as [[m|e] w2] eqn:Eq.
  - set (x1 := set_at x (wr_left x) (WRead i m)). rewrite (run_bind (advance x1)), (advance_read x1 w2 i m eq_refl).
    cbn [x1 wr_caller wr_base wr_refs wr_total set_at]. destruct (rest_of_tx _ w2) as [[o|e] w3].
    + intros [= <- <-]. eexists. split; [by apply turns_inactive|done].
    + cbn [settle wr_left x1 set_at]. destruct (next_attempt (wr_left x) e) as [l|] eqn:En.
      * apply next_attempt_lt in En. intros E. eapply (IH l); [lia|lia|lia|done|done|exact E].
      * intros [= <- <-]. eexists. split; [by apply turns_inactive|done].
  - apply begin_query_cases in Eq as (_&_&[[=]|[= ->]]).
    intros [= <- <-]. exists (set_at x (wr_left x) (WFailed ErrExternal)). split; [|done].
    by apply (turns_inactive (S (2 * k))).
Qed.

(** ** What a conflict means *)

(** Calls that never report a version conflict. *)
Definition conflict_free {A} (m : M KW A) : Prop :=
  ∀ w e, (m w).1 = Err e → errors_is e ErrVersionConflict = false.

Lemma conflict_free_bind {A X} (m : M KW A) (k : A → M KW X) :
  conflict_free m → (∀ a, conflict_free (k a)) → conflict_free (m ≫= k).
Proof.
  intros Hm Hk w e. rewrite run_bind. specialize (Hm w). destruct (m w) as [[a|e'] w1]; [apply Hk|].
  intros [= <-]. by apply Hm.
Qed.

Lemma conflict_free_ret {A} (a : A) : conflict_free (mret a).
Proof. by intros w e. Qed.

Lemma conflict_free_stmt {A} (f : KDB → res (A * KDB)) :
  (∀ d e, f d = Err e → errors_is e ErrVersionConflict = false) → conflict_free (stmt f).
Proof.
  intros Hf w e. destruct (stmt f w) as [r w'] eqn:E. apply stmt_cases in E as (_&_&_&Hc). cbn. intros ->.
  destruct Hc as [(e'&[= <-]&_&[->|Hd])|(a&d&_&_&[[=]|[= ->]])]; [done|by eapply Hf|done].
Qed.

Lemma conflict_free_gets {A} (f : KW → A) : conflict_free (gets f).
Proof. by intros w e. Qed.

Lemma conflict_free_attempt {A} (m : M KW A) : conflict_free (attempt m).
Proof. intros w e. unfold attempt. by destruct (m w). Qed.

Lemma conflict_free_try {A X} (m : M KW A) (k : res A → M KW X) :
  conflict_free m → (∀ a, conflict_free (k (Ok a))) →
  (∀ e, errors_is e ErrVersionConflict = false → conflict_free (k (Err e))) →
  conflict_free (r ← attempt m; k r).
Proof.
  intros Hm H1 H2 w e. rewrite run_bind. unfold attempt. specialize (Hm w).
  destruct (m w) as [[a|e'] w1]; [apply H1|]. apply H2. by apply Hm.
Qed.

Lemma conflict_free_throw {A} e : errors_is e ErrVersionConflict = false → conflict_free (throw (A := A) e).
Proof. intros H w e' [= <-]. done. Qed.

Lemma conflict_free_new_id : conflict_free (new_id (D := KDB)).
Proof. intros w e. destruct (new_id_frame w) as (i&w1&E&_). by rewrite E. Qed.

Lemma conflict_free_draw k : conflict_free (draw (D := KDB) k).
Proof. by intros w e. Qed.

Lemma conflict_free_TokenFor s : conflict_free (TokenFor (D := KDB) s).
Proof.
  assert (conflict_free (Lookup_ps (D := KDB) s)) as HL by (by apply conflict_free_stmt).
  assert (∀ t, conflict_free (Save_ps (D := KDB) t s)) as HS.
  { intros t. cbn [Save_ps pg_store]. unfold pg_Save. apply conflict_free_bind.
    - apply conflict_free_stmt. intros d e. repeat case_match; intros; simplify_eq; done.
    - intros n. case_bool_decide; [by apply conflict_free_throw|apply conflict_free_ret]. }
  unfold TokenFor. apply conflict_free_bind; [exact HL|intros [t|]]; [apply conflict_free_ret|].
  apply conflict_free_bind; [|intros t].
  { apply conflict_free_bind; [apply conflict_free_draw|intros; apply conflict_free_ret]. }
  apply conflict_free_try; [apply HS|intros; apply conflict_free_ret|intros e He].
  apply conflict_free_bind; [apply conflict_free_attempt|intros [[x|]|e']];
    [apply conflict_free_ret|by apply conflict_free_throw..].
Qed.

Lemma conflict_free_Emit actor action ao : conflict_free (Emit (D := KDB) actor action ao).
Proof.
  unfold Emit. destruct (Zero actor); [by apply conflict_free_throw|]. destruct (_ || _); [by apply conflict_free_throw|].
  apply conflict_free_bind; [apply conflict_free_TokenFor|intros t].
  apply conflict_free_bind; [apply conflict_free_new_id|intros i].
  apply conflict_free_bind; [apply conflict_free_gets|intros n].
  apply conflict_free_stmt. intros d e. case_bool_decide; cbn; by intros [= <-].
Qed.

Lemma conflict_free_manifest vid idx refs : conflict_free (insert_manifest vid idx refs).
Proof.
  revert idx. induction refs as [|ref refs IH]; intros idx; cbn [insert_manifest]; [apply conflict_free_ret|].
  apply conflict_free_bind; [|intros []; apply conflict_free_bind; [|intros []; apply IH]];
    apply conflict_free_stmt; intros d e; repeat case_match; intros; simplify_eq; done.
Qed.

Lemma InsertVersion_conflict vid ordinal total refs w e :
  (InsertVersion oid vid ordinal total refs w).1 = Err e → errors_is e ErrVersionConflict = true →
  is_Some (versions (w_db w) !! vid) ∨ ordinal ∈ ords (w_db w).
Proof.
  unfold InsertVersion. rewrite run_bind. unfold attempt.
  destruct (insert_version_row oid vid ordinal total w) as [r w1] eqn:E.
  unfold insert_version_row, stmt_now in E. rewrite run_bind in E. apply stmt_cases in E as (_&_&_&Hc).
  rewrite run_bind. unfold lift at 1. destruct r as [[]|e1]; cbn [conflict_on_unique].
  - intros He Hc'. exfalso. by rewrite (conflict_free_manifest _ _ _ _ _ He) in Hc'.
  - destruct Hc as [(e'&[= <-]&_&[->|Hf])|(a&d&_&_&[[=]|[= ->]])]; [by intros [= <-]| |by intros [= <-]].
    destruct (int4_max <? ordinal)%Z; [by injection Hf as <-; intros [= <-]|].
    destruct (_ || _) eqn:Ed; [|case_match; [by injection Hf as <-; intros [= <-]|done]].
    apply orb_true_iff in Ed as [Ed|Ed]; apply bool_decide_eq_true in Ed; auto.
Qed.

(** A version conflict is the ordinal after the one that was read being taken by
    now, or the id. *)
Lemma write_at_conflict caller vid base refs total m w e :
  (write_version_at caller oid vid base refs total m w).1 = Err e → errors_is e ErrVersionConflict = true →
  is_Some (versions (w_db w) !! vid) ∨ ∃ maxOrd, m = Some maxOrd ∧ (maxOrd + 1)%Z ∈ ords (w_db w).
Proof.
  destruct m as [maxOrd|]; [|by intros [= <-]]. cbn [write_version_at].
  destruct (match base with Some b => _ | None => _ end); [by intros [= <-]|].
  rewrite run_bind. pose proof (InsertVersion_conflict vid (maxOrd + 1) total refs w) as HI.
  destruct (InsertVersion _ _ _ _ _ w) as [[[]|e1] w1].
  - intros He Hc. exfalso. match type of He with (?m w1).1 = _ => assert (conflict_free m) as Hm end.
    { apply conflict_free_bind; [|intros []; apply conflict_free_bind; [apply conflict_free_Emit|intros []; apply conflict_free_ret]].
      apply conflict_free_bind; [apply conflict_free_gets|intros t]. by apply conflict_free_stmt. }
    by rewrite (Hm _ _ He) in Hc.
  - intros [= ->] Hc. destruct (HI e eq_refl Hc); eauto.
Qed.

(** ** Savers taking turns *)

(** The id an attempt draws is in use neither in the table nor by another saver. *)
Definition id_unused (x' : writer) (w : KW) (ws : list writer) : Prop :=
  match wr_at x' with
  | WRead verID _ => versions (w_db w) !! verID = None ∧ ∀ j y m, ws !! j = Some y → wr_at y ≠ WRead verID m
  | _ => True
  end.

Inductive race_step : KW * list writer → KW * list writer → Prop :=
  | race_turn i x x' w w' ws :
      ws !! i = Some x → active x = true → advance x w = (Ok x', w') → id_unused x' w ws →
      race_step (w, ws) (w', <[i := x']> ws).

(** Savers whose transaction committed although they were told that it did not. *)
Definition is_lost (x : writer) : bool :=
  match wr_at x with WFailed e => bool_decide (e = ErrWrap "dbtx: commit" ErrExternal) | _ => false end.

Definition count (p : writer → bool) (ws : list writer) : nat := length (filter (λ x, p x = true) ws).
Definition saves : list writer → nat := count is_done.
Definition lost : list writer → nat := count is_lost.

Lemma count_insert p ws i x x' : ws !! i = Some x →
  count p (<[i := x']> ws) + Nat.b2n (p x) = count p ws + Nat.b2n (p x').
Proof.
  unfold count. revert i. induction ws as [|y ws IH]; intros [|i]; cbn [lookup list_lookup]; try done.
  - intros [= ->]. cbn [insert list_insert]. rewrite !filter_cons.
    destruct (p x) eqn:E1, (p x') eqn:E2; cbn [decide]; repeat case_decide; cbn [length Nat.b2n]; try done; lia.
  - intros Hi. specialize (IH i Hi). change (<[S i:=x']> (y :: ws)) with (y :: <[i:=x']> ws).
    rewrite !filter_cons. case_decide; cbn [length]; lia.
Qed.

Lemma count_bound ws i x :
  ws !! i = Some x → is_done x = false → is_lost x = false → saves ws + lost ws < length ws.
Proof.
  assert (∀ l, saves l + lost l ≤ length l) as Hle.
  { intros l. unfold saves, lost, count. induction l as [|y l IH]; [done|]. rewrite !filter_cons.
    assert (is_done y = true → is_lost y = false) by (unfold is_done, is_lost; by destruct (wr_at y)).
    repeat case_decide; cbn [length]; try lia. exfalso. rewrite H in *; auto. done. }
  unfold saves, lost, count in *. revert i. induction ws as [|y ws IH]; intros [|i]; cbn [lookup list_lookup]; try done.
  - intros [= ->] H1 H2. rewrite !filter_cons, H1, H2. rewrite !decide_False by done. cbn [length]. specialize (Hle ws). lia.
  - intros Hi H1 H2. specialize (IH i Hi H1 H2). specialize (Hle [y]). rewrite !filter_cons in *. cbn [filter list_filter] in Hle.
    repeat case_decide; cbn [length] in *; lia.
Qed.

(** *** The invariant: [k] saves have committed since the newest ordinal was [m0] *)
Section inv.
Context (B : gmap string bytes) (d0 : KDB) (m0 : Z).

(** A saver that lost rounds did so to as many commits. *)
Definition writer_ok (k : nat) (x : writer) : Prop :=
  0 < wr_left x ≤ maxAttempts ∧ (∀ ref, ref ∈ wr_refs x → is_Some (B !! cr_Hash ref)) ∧
  match wr_at x with
  | WStart => maxAttempts - wr_left x ≤ k
  | WRead _ m => ∃ r, r ≤ k ∧ m = Some (m0 + Z.of_nat r)%Z ∧ maxAttempts - wr_left x ≤ r
  | WDone ord => (m0 < ord <= m0 + Z.of_nat k)%Z
  | WFailed e => errors_is e ErrVersionConflict = true → maxAttempts ≤ k
  end.

(** The ordinals taken are the ones there were and the next [k]. *)
Definition taken (k : nat) (d : KDB) : Prop :=
  db_inv B d ∧ ∀ x, x ∈ ords d ↔ x ∈ ords d0 ∨ (m0 < x <= m0 + Z.of_nat k)%Z.

Definition pending (ws : list writer) (d : KDB) : Prop :=
  ∀ i x v m, ws !! i = Some x → wr_at x = WRead v m →
    versions d !! v = None ∧ ∀ j y m', ws !! j = Some y → wr_at y = WRead v m' → i = j.

Definition distinct (ws : list writer) : Prop :=
  ∀ i j x y ord, ws !! i = Some x → ws !! j = Some y → wr_at x = WDone ord → wr_at y = WDone ord → i = j.

Record race_inv (k : nat) (d : KDB) (ws : list writer) : Prop := {
  ri_taken : taken k d;
  ri_count : saves ws ≤ k ≤ saves ws + lost ws;
  ri_ok : ∀ i x, ws !! i = Some x → writer_ok k x;
  ri_pending : pending ws d;
  ri_distinct : distinct ws;
}.

Context (Hm0 : max_ordinal oid d0 = Some m0).

Lemma ords_below x : x ∈ ords d0 → (x <= m0)%Z.
Proof.
  intros (v&->&Hv)%list_elem_of_fmap. apply max_ordinal_newest in Hm0 as (u&[_ Hu]&<-). by apply Hu.
Qed.

Lemma taken_max k d : taken k d → max_ordinal oid d = Some (m0 + Z.of_nat k)%Z.
Proof.
  intros [_ Ho].
  assert ((m0 + Z.of_nat k)%Z ∈ ords d) as Hin.
  { apply Ho. destruct k; [left|right; lia]. replace (m0 + Z.of_nat 0)%Z with m0 by lia.
    apply max_ordinal_newest in Hm0 as (u&[Hu _]&<-). apply list_elem_of_fmap. eauto. }
  apply list_elem_of_fmap in Hin as (v&Hv&Hin). apply max_ordinal_newest. exists v. split; [|done]. split; [done|].
  intros u Hu. assert (v_Ordinal u ∈ ords d) as [Hx|Hx]%Ho by (apply list_elem_of_fmap; eauto).
  - apply ords_below in Hx. lia.
  - lia.
Qed.

Lemma new_version_ords vid ordinal size refs d d' x :
  new_version oid vid ordinal size refs d d' → x ∈ ords d' ↔ x = ordinal ∨ x ∈ ords d.
Proof.
  intros (Hv&_&t&Hvs&_). unfold ords. rewrite !list_elem_of_fmap. split.
  - intros (v&->&[k Hk]%elem_of_versions_of). rewrite Hvs in Hk.
    apply lookup_insert_Some in Hk as [[_ [= <-]]|[_ Hk]]; [by left|right].
    exists v. split; [done|]. apply elem_of_versions_of. eauto.
  - intros [->|(v&->&[k Hk]%elem_of_versions_of)].
    + exists (MkVersion vid ordinal size t). split; [done|]. apply elem_of_versions_of.
      exists vid. rewrite Hvs. apply lookup_insert_eq.
    + exists v. split; [done|]. apply elem_of_versions_of. exists k. rewrite Hvs.
      rewrite lookup_insert_ne; [done|]. congruence.
Qed.

Lemma writer_ok_mono k k' x : k ≤ k' → writer_ok k x → writer_ok k' x.
Proof.
  intros Hk (Hl&Hr&H). split_and!; [lia|lia|done|]. destruct (wr_at x) as [|v m|ord|e]; [lia| |lia|].
  - destruct H as (r&?&?&?). exists r. split_and!; [lia|done|done].
  - intros He. specialize (H He). lia.
Qed.

(** A turn changes one saver. *)
Lemma race_inv_insert k k' d d' ws i x x' :
  ws !! i = Some x → race_inv k d ws → k ≤ k' → taken k' d' → writer_ok k' x' →
  saves ws + Nat.b2n (is_done x') ≤ k' + Nat.b2n (is_done x) →
  k' + Nat.b2n (is_done x) + Nat.b2n (is_lost x) ≤ saves ws + lost ws + Nat.b2n (is_done x') + Nat.b2n (is_lost x') →
  (∀ j y v m, j ≠ i → ws !! j = Some y → wr_at y = WRead v m → versions d' !! v = None) →
  (∀ v m, wr_at x' = WRead v m → versions d' !! v = None ∧ ∀ j y m', ws !! j = Some y → wr_at y ≠ WRead v m') →
  (∀ ord, wr_at x' = WDone ord → ∀ j y, ws !! j = Some y → wr_at y ≠ WDone ord) →
  race_inv k' d' (<[i := x']> ws).
Proof.
  intros Hi [_ Hc Hok Hp Hd] Hk Ht Hx' C1 C2 Hold Hnew Hfresh.
  pose proof (count_insert is_done ws i x x' Hi) as I1. pose proof (count_insert is_lost ws i x x' Hi) as I2.
  unfold saves, lost in *. split.
  - done.
  - unfold saves, lost. lia.
  - intros j y [(<-&<-&_)|[_ Hj]]%list_lookup_insert_Some; [done|]. eapply writer_ok_mono; [done|by eapply Hok].
  - intros j y v m [(<-&<-&_)|[Nj Hj]]%list_lookup_insert_Some Ha.
    + destruct (Hnew v m Ha) as [H1 H2]. split; [done|]. intros j' z m' [(<-&<-&_)|[_ Hz]]%list_lookup_insert_Some Hm'; [done|].
      by destruct (H2 j' z m' Hz).
    + split; [by eapply Hold|]. intros j' z m' [(<-&<-&_)|[_ Hz]]%list_lookup_insert_Some Hm'.
      * destruct (Hnew v m' Hm') as [_ H2]. by destruct (H2 j y m Hj).
      * by eapply Hp.
  - intros a b y z ord [(<-&<-&_)|[Na Ha]]%list_lookup_insert_Some [(<-&<-&_)|[Nb Hb]]%list_lookup_insert_Some A1 A2;
      [done| | |by eapply Hd].
    + by destruct (Hfresh ord A1 b z Hb).
    + by destruct (Hfresh ord A2 a y Ha).
Qed.

Lemma start_turn k w ws i x x' w' :
  ws !! i = Some x → wr_at x = WStart → advance x w = (Ok x', w') → id_unused x' w ws →
  race_inv k (w_db w) ws → w_rest w' = w_rest w ∧ race_inv k (w_db w') (<[i := x']> ws).
Proof.
  intros Hi Hx E Hu HI. pose proof (ri_ok _ _ _ HI i x Hi) as (Hl&Hr&Hw). rewrite Hx in Hw.
  assert (is_done x = false ∧ is_lost x = false) as [Dx Lx] by (unfold is_done, is_lost; by rewrite Hx).
  pose proof (ri_count _ _ _ HI) as Hc.
  destruct (new_id_frame w) as (v&w1&E1&D1&R1&_). rewrite (advance_start x w v w1 Hx E1) in E.
  destruct ((begin_tx ;; query (max_ordinal oid)) w1) as [r w2] eqn:Eq.
  apply begin_query_cases in Eq as (D2&R2&Hres). injection E as <- <-. split; [congruence|]. rewrite D2, D1.
  destruct Hres as [-> | ->].
  - eapply (race_inv_insert k k); try done; [apply HI|..]; rewrite ?Dx, ?Lx; cbn; try lia.
    + split_and!; cbn [wr_left wr_refs wr_at set_at]; [lia|lia|done|]. exists k. rewrite D1. split_and!; [done|apply taken_max, HI|done].
    + intros j y u m _ Hj Ha. by apply (ri_pending _ _ _ HI j y u m Hj Ha).
    + intros u m [= <- <-]. exact Hu.
  - change (next_attempt (wr_left x) ErrExternal) with (None : option nat). cbv beta iota.
    eapply (race_inv_insert k k); try done; [apply HI|..]; rewrite ?Dx, ?Lx; cbn; try lia; try done.
    + intros j y u m _ Hj Ha. by apply (ri_pending _ _ _ HI j y u m Hj Ha).
Qed.

(** An attempt that ends without a commit. *)
Lemma failed_turn k w ws i x v r e :
  ws !! i = Some x → wr_at x = WRead v (Some (m0 + Z.of_nat r)%Z) → race_inv k w ws →
  maxAttempts - wr_left x ≤ r → r ≤ k → (errors_is e ErrVersionConflict = true → r < k) →
  race_inv k w (<[i := settle x (Err e)]> ws).
Proof.
  intros Hi Hx HI Hlr Hrk He. pose proof (ri_ok _ _ _ HI i x Hi) as (Hl&Hr&Hw).
  assert (is_done x = false ∧ is_lost x = false) as [Dx Lx] by (unfold is_done, is_lost; by rewrite Hx).
  pose proof (ri_count _ _ _ HI) as Hc.
  assert (∀ y, wr_at y = WStart ∨ (∃ e, wr_at y = WFailed e) → writer_ok k y → race_inv k w (<[i := y]> ws)) as Hgo.
  { intros y Hy Hok. eapply (race_inv_insert k k); try done; [apply HI|..]; rewrite ?Dx, ?Lx.
    - unfold is_done. destruct Hy as [->|[? ->]]; cbn; lia.
    - unfold is_done, is_lost. destruct Hy as [->|[? ->]]; cbn; lia.
    - intros j z u m _ Hj Ha. by apply (ri_pending _ _ _ HI j z u m Hj Ha).
    - intros u m Hm. destruct Hy as [Hy|[? Hy]]; congruence.
    - intros ord Hm. destruct Hy as [Hy|[? Hy]]; congruence. }
  cbn [settle]. unfold next_attempt. destruct (errors_is e ErrVersionConflict) eqn:Ee.
  - specialize (He eq_refl). destruct (wr_left x) as [|[|l]] eqn:El; [lia| |].
    + apply Hgo; [right; by eexists|]. split_and!; cbn; [lia|unfold maxAttempts; lia|done|]. intros _. unfold maxAttempts in *. lia.
    + apply Hgo; [by left|]. split_and!; cbn [wr_left set_at wr_refs wr_at]; [lia|lia|done|lia].
  - apply Hgo; [right; by eexists|]. split_and!; cbn; [lia|lia|done|]. by rewrite Ee.
Qed.

Lemma read_turn k w ws i x v m x' w' :
  w_blobs w = B → ws !! i = Some x → wr_at x = WRead v m → advance x w = (Ok x', w') →
  race_inv k (w_db w) ws → w_rest w' = w_rest w ∧ ∃ k', race_inv k' (w_db w') (<[i := x']> ws).
Proof.
  intros HB Hi Hx E HI. pose proof (ri_ok _ _ _ HI i x Hi) as (Hl&Hr&Hw). rewrite Hx in Hw. destruct Hw as (r&Hrk&->&Hlr).
  pose proof (ri_taken _ _ _ HI) as [HId Ho]. destruct (ri_pending _ _ _ HI i x v _ Hi Hx) as [Hv Hvd].
  rewrite (advance_read x w v _ Hx) in E. destruct (rest_of_tx _ w) as [res w2] eqn:Er. injection E as <- <-.
  destruct (tx_write_at B (wr_caller x) oid v (wr_base x) (wr_refs x) (wr_total x) (Some (m0 + Z.of_nat r)%Z)
    (w_db w) HId Hr w eq_refl) as [Hrest Hpost].
  apply rest_of_tx_cases in Er as [(Hd&Hno&Hres&Hrs)|(ord&Hok&Hd&Hrs&Hres)]; (split; [congruence|]).
  - exists k. rewrite Hd. destruct res as [o|e]; [done|]. eapply failed_turn; [done|done|done|done|done|].
    intros He. destruct Hres as [Hres|[= ->]]; [|done].
    destruct (write_at_conflict _ _ _ _ _ _ _ _ Hres He) as [Hs|(q&[= <-]&Hq)]; [rewrite Hv in Hs; by destruct Hs|].
    apply Ho in Hq as [Hq|Hq]; [apply ords_below in Hq|]; lia.
  - destruct (Hpost ord Hok) as ([= Hord]&_&HId'&Hnv). rewrite <- Hd in HId', Hnv.
    assert (r = k) as ->.
    { destruct Hnv as (_&Hnin&_). destruct (decide (r = k)) as [|Hne]; [done|exfalso]. apply Hnin, Ho. right. lia. }
    exists (S k). pose proof (ri_count _ _ _ HI) as Hc.
    assert (settle x (Err (ErrWrap "dbtx: commit" ErrExternal)) =
      set_at x (wr_left x) (WFailed (ErrWrap "dbtx: commit" ErrExternal))) as Hset by reflexivity.
    assert (is_done x = false ∧ is_lost x = false) as [Dx Lx] by (unfold is_done, is_lost; by rewrite Hx).
    eapply (race_inv_insert k (S k)); try done; [lia|..]; rewrite ?Dx, ?Lx.
    + split; [done|]. intros y. rewrite (new_version_ords _ _ _ _ _ _ y Hnv), Ho.
      destruct (decide (y = ord)); intuition lia.
    + destruct Hres as [-> | ->]; [|rewrite Hset]; split_and!; cbn; lia || done.
    + destruct Hres as [-> | ->]; [|rewrite Hset]; cbn; lia.
    + destruct Hres as [-> | ->]; [|rewrite Hset]; unfold is_lost; cbn [wr_at settle set_at];
        rewrite ?bool_decide_eq_true_2 by done; cbn; lia.
    + intros j y u m Hj Hy Ha. destruct (ri_pending _ _ _ HI j y u m Hy Ha) as [Hu Hud].
      destruct Hnv as (_&_&t&Hvs&_). rewrite Hvs, lookup_insert_ne; [done|]. intros <-. by apply Hj, (Hud i x _ Hi Hx).
    + intros u m. destruct Hres as [-> | ->]; [|rewrite Hset]; cbn; done.
    + intros o. destruct Hres as [-> | ->]; [|rewrite Hset]; cbn; [|done]. intros [= <-] j y Hj Hy.
      destruct (ri_ok _ _ _ HI j y Hj) as (_&_&Hw). rewrite Hy in Hw. lia.
Qed.

Lemma race_step_inv k w ws w' ws' :
  race_step (w, ws) (w', ws') → w_blobs w = B → race_inv k (w_db w) ws →
  w_blobs w' = B ∧ length ws' = length ws ∧ ∃ k', race_inv k' (w_db w') ws'.
Proof.
  intros Hs HB HI. inversion Hs as [i x x' w1 w2 ws1 Hi Ha E Hu]; subst. rewrite length_insert.
  cut (w_rest w' = w_rest w ∧ ∃ k', race_inv k' (w_db w') (<[i:=x']> ws)).
  { intros [Hr ?]. injection Hr as Hb _. split_and!; [congruence|done|done]. }
  unfold active in Ha. destruct (wr_at x) as [|v m| |] eqn:Hx; [| |done..].
  - destruct (start_turn k w ws i x x' w' Hi Hx E Hu HI). eauto.
  - by eapply read_turn.
Qed.
End inv.

(** Every turn uses up part of its saver's attempts. *)
Definition writer_measure (x : writer) : nat :=
  match wr_at x with WStart => 2 * wr_left x | WRead _ _ => 2 * wr_left x - 1 | _ => 0 end.
Definition race_measure (ws : list writer) : nat := sum_list_with writer_measure ws.

Lemma measure_insert ws i x x' : ws !! i = Some x →
  race_measure (<[i := x']> ws) + writer_measure x = race_measure ws + writer_measure x'.
Proof.
  unfold race_measure. revert i. induction ws as [|y ws IH]; intros [|i]; cbn [lookup list_lookup]; try done.
  - intros [= ->]. cbn. lia.
  - intros Hi. specialize (IH i Hi). change (<[S i:=x']> (y :: ws)) with (y :: <[i:=x']> ws).
    cbn [sum_list_with]. lia.
Qed.

Lemma settle_measure x e : writer_measure (settle x (Err e)) ≤ 2 * (wr_left x - 1).
Proof.
  cbn [settle]. destruct (next_attempt (wr_left x) e) as [l|] eqn:E; [|cbn; lia].
  apply next_attempt_lt in E. cbn. lia.
Qed.

Lemma race_step_measure w ws w' ws' :
  race_step (w, ws) (w', ws') → (∀ x, x ∈ ws → 0 < wr_left x) → race_measure ws' < race_measure ws.
Proof.
  intros Hs Hl. inversion Hs as [i x x' w1 w2 ws1 Hi Ha E Hu]; subst.
  pose proof (measure_insert ws i x x' Hi) as Hm. specialize (Hl x ltac:(by eapply list_elem_of_lookup_2)).
  cut (writer_measure x' < writer_measure x); [lia|]. unfold active in Ha. destruct (wr_at x) as [|v m| |] eqn:Hx; [| |done..].
  - assert (writer_measure x = 2 * wr_left x) as Hx' by (unfold writer_measure; by rewrite Hx).
    destruct (new_id_frame w) as (v&w3&E1&_). rewrite (advance_start x w v w3 Hx E1) in E.
    destruct ((begin_tx ;; query (max_ordinal oid)) w3) as [[m|e] w4].
    + assert (x' = set_at x (wr_left x) (WRead v m)) as -> by congruence. rewrite Hx'. cbn. lia.
    + assert (x' = settle x (Err e)) as -> by congruence. pose proof (settle_measure x e). lia.
  - assert (writer_measure x = 2 * wr_left x - 1) as Hx' by (unfold writer_measure; by rewrite Hx).
    rewrite (advance_read x w v m Hx) in E. destruct (rest_of_tx _ w) as [[o|e] w4].
    + assert (x' = set_at x (wr_left x) (WDone o)) as -> by (cbn [settle] in E; congruence). cbn. lia.
    + assert (x' = settle x (Err e)) as -> by congruence. pose proof (settle_measure x e). lia.
Qed.

Lemma race_run B d0 m0 t w ws w' ws' k :
  max_ordinal oid d0 = Some m0 → nsteps race_step t (w, ws) (w', ws') → w_blobs w = B →
  race_inv B d0 m0 k (w_db w) ws →
  ∃ k', race_inv B d0 m0 k' (w_db w') ws' ∧ length ws' = length ws ∧ t + race_measure ws' ≤ race_measure ws.
Proof.
  intros Hm. revert k w ws. induction t as [|t IH]; intros k w ws Hs HB HI; inversion Hs as [|? ? [w1 ws1] ? H1 H2]; subst.
  { exists k. auto. }
  destruct (race_step_inv _ d0 m0 Hm k w ws w1 ws1 H1 eq_refl HI) as (HB1&Hl1&k1&HI1).
  destruct (IH k1 w1 ws1 H2 HB1 HI1) as (k'&HI'&Hl&Hme). exists k'. split_and!; [done|congruence|].
  assert (race_measure ws1 < race_measure ws); [|lia]. apply (race_step_measure w ws w1 ws1 H1).
  intros x [i Hi]%list_elem_of_lookup. destruct (ri_ok _ _ _ _ _ _ HI i x Hi) as ([? ?]&_). done.
Qed.

Lemma race_inv_init B d0 m0 ws :
  db_inv B d0 →
  (∀ x, x ∈ ws → wr_at x = WStart ∧ wr_left x = maxAttempts ∧ ∀ ref, ref ∈ wr_refs x → is_Some (B !! cr_Hash ref)) →
  race_inv B d0 m0 0 d0 ws ∧ race_measure ws = 2 * maxAttempts * length ws.
Proof.
  intros HI Hws.
  assert (∀ i x, ws !! i = Some x → wr_at x = WStart ∧ wr_left x = maxAttempts ∧ ∀ ref, ref ∈ wr_refs x → is_Some (B !! cr_Hash ref)) as Hi
    by (intros i x ?; eapply Hws, list_elem_of_lookup_2; eauto).
  split; [split|].
  - split; [done|]. intros x. split; [by left|]. intros [?|?]; [done|lia].
  - assert (saves ws = 0) as ->; [|lia]. unfold saves, count. clear Hi. induction ws as [|x ws IH]; [done|].
    rewrite filter_cons, decide_False; [apply IH; intros y Hy; apply Hws; by right|].
    unfold is_done. destruct (Hws x ltac:(left)) as [-> _]. done.
  - intros i x Hx. destruct (Hi i x Hx) as (H1&H2&H3). split_and!; [rewrite H2; unfold maxAttempts; lia..|done|]. rewrite H1, H2. lia.
  - intros i x v m Hx. destruct (Hi i x Hx) as [-> _]. done.
  - intros i j x y ord Hx _. destruct (Hi i x Hx) as [-> _]. done.
  - clear Hi. unfold race_measure. induction ws as [|x ws IH]; [cbn; lia|]. cbn [sum_list_with length].
    rewrite IH by (intros y Hy; apply Hws; by right). unfold writer_measure. destruct (Hws x ltac:(left)) as (->&->&_). lia.
Qed.
End saves.

(** ** Claims *)

(** C29: concurrent saves of one file.  Up to [maxAttempts] (five) saves of a file, in
    any reachable world and under any faults, take turns in any order, a turn being
    one half of an attempt of the loop of writeVersion (and as long as no id that is
    drawn is in use): no save fails for a version conflict; the ordinals that the saves
    took are distinct and consecutive, namely the [k] after the newest there was, where
    [k] is the number of saves that are done, together with those whose commit went
    through but whose answer was lost; the turns are no more than two for each attempt
    and a save that is not over can always take its turn, so every save ends; and alone
    on the world, the turns of a save are the retry loop of the code. *)
Theorem concurrent_saves {Pr : Primitives} {PrOk : PrimitivesOk} {P : Platform} {F : OpenFGA} {Mi : Mime}
    (s : Service) oid w0 m0 ws0 t w ws :
  run s (boot kdb_empty) w0 → max_ordinal oid (w_db w0) = Some m0 →
  length ws0 ≤ maxAttempts →
  (∀ x, x ∈ ws0 → wr_at x = WStart ∧ wr_left x = maxAttempts ∧ refs_present (wr_refs x) w0) →
  nsteps (race_step oid) t (w0, ws0) (w, ws) →
  (∀ x e, x ∈ ws → wr_at x = WFailed e → errors_is e ErrVersionConflict = false) ∧
  (∀ i j x y ord, ws !! i = Some x → ws !! j = Some y → wr_at x = WDone ord → wr_at y = WDone ord → i = j) ∧
  (∃ k, saves ws ≤ k ≤ saves ws + lost ws ∧
     (∀ x, x ∈ ords oid (w_db w) ↔ x ∈ ords oid (w_db w0) ∨ (m0 < x <= m0 + Z.of_nat k)%Z) ∧
     (∀ x ord, x ∈ ws → wr_at x = WDone ord → (m0 < ord <= m0 + Z.of_nat k)%Z)) ∧
  t ≤ 2 * maxAttempts * length ws0 ∧
  (∀ x, x ∈ ws → active x = true → ∃ x' w', advance oid x w = (Ok x', w')) ∧
  (∀ x w1 r w2, wr_at x = WStart → wr_left x = maxAttempts →
     write_version_loop maxAttempts (wr_caller x) oid (wr_base x) (wr_refs x) (wr_total x) w1 = (r, w2) →
     ∃ x', turns oid (2 * maxAttempts) x w1 = (Ok x', w2) ∧ reports x' r).
Proof.
  intros Hr Hm Hn Hinit Hsteps. destruct (run_inv s _ _ Hr (boot_inv s)) as [HI0 _].
  assert (∃ k, race_inv oid (w_blobs w0) (w_db w0) m0 k (w_db w) ws ∧ length ws = length ws0 ∧
    t + race_measure ws ≤ 2 * maxAttempts * length ws0) as (k&HI&Hlen&Ht).
  { destruct (race_inv_init oid (w_blobs w0) (w_db w0) m0 ws0 HI0 Hinit) as [Hi Hme].
    destruct (race_run oid (w_blobs w0) (w_db w0) m0 t w0 ws0 w ws 0 Hm Hsteps eq_refl Hi) as (k&?&?&?).
    exists k. split_and!; [done|done|lia]. }
  split_and!.
  - intros x e [i Hi]%list_elem_of_lookup He. destruct (errors_is e ErrVersionConflict) eqn:Ec; [exfalso|done].
    destruct (ri_ok _ _ _ _ _ _ _ HI i x Hi) as (_&_&Hw). rewrite He in Hw. specialize (Hw Ec).
    pose proof (ri_count _ _ _ _ _ _ _ HI) as Hc.
    assert (is_done x = false) by (unfold is_done; by rewrite He).
    assert (is_lost x = false).
    { unfold is_lost. rewrite He. apply bool_decide_eq_false. by intros ->. }
    pose proof (count_bound ws i x Hi ltac:(done) ltac:(done)). lia.
  - apply (ri_distinct _ _ _ _ _ _ _ HI).
  - exists k. split; [apply (ri_count _ _ _ _ _ _ _ HI)|]. split; [apply (ri_taken _ _ _ _ _ _ _ HI)|].
    intros x ord [i Hi]%list_elem_of_lookup Hx. destruct (ri_ok _ _ _ _ _ _ _ HI i x Hi) as (_&_&Hw). by rewrite Hx in Hw.
  - lia.
  - intros x _ _. apply advance_total.
  - intros x w1 r w2 Hx Hl. apply turns_are_the_loop; [done|unfold maxAttempts; lia|done|done].
Qed.

(** Two saves of the uploaded file that read the same newest ordinal. *)
Module SaveDemo.
#[local] Existing Instance toy_primitives.
#[local] Existing Instance toy_primitives_ok.
#[local] Existing Instance counting_platform.
#[local] Existing Instance owner_fga.
#[local] Existing Instance no_mime.

Definition fid : string := o_ID Demo.file.
Definition saver : writer := MkWriter demo_user None [] 0 maxAttempts WStart.

(** Turns of the savers, in the order of the schedule. *)
Fixpoint play (sched : list nat) (st : KW * list writer) : KW * list writer :=
  match sched with
  | [] => st
  | i :: sched' =>
      play sched' (match st.2 !! i with
                   | Some x => match advance fid x st.1 with
                               | (Ok x', w') => (w', <[i := x']> st.2)
                               | (Err _, w') => (w', st.2)
                               end
                   | None => st
                   end)
  end.

Definition begin_state : KW * list writer := (Demo.uploaded, [saver; saver]).
(** Both read, both insert, and the one that lost tries again. *)
Definition end_state : KW * list writer := play [0; 1; 0; 1; 1; 1] begin_state.

Example both_saved : wr_at <$> end_state.2 = [WDone 1; WDone 2] ∧ wr_left <$> end_state.2 = [5; 4].
Proof. vm_compute. split; reflexivity. Qed.

Definition unused (x' : writer) (w : KW) (ws : list writer) : bool :=
  match wr_at x' with
  | WRead v _ =>
      bool_decide (versions (w_db w) !! v = None) &&
      forallb (λ y, match wr_at y with WRead v' _ => negb (bool_decide (v' = v)) | _ => true end) ws
  | _ => true
  end.

Lemma unused_spec x' w ws : unused x' w ws = true → id_unused x' w ws.
Proof.
  unfold unused, id_unused. destruct (wr_at x') as [|v m| |]; try done.
  intros [H1 H2]%andb_true_iff. split; [by apply bool_decide_eq_true in H1|]. intros j y m' Hj Hy.
  rewrite forallb_forall in H2. specialize (H2 y). rewrite Hy, bool_decide_eq_true_2 in H2 by done.
  discriminate H2. apply list_elem_of_In. by eapply list_elem_of_lookup_2.
Qed.

(** Every turn of the schedule is one. *)
Fixpoint legal (sched : list nat) (st : KW * list writer) : bool :=
  match sched with
  | [] => true
  | i :: sched' =>
      match st.2 !! i with
      | Some x => match advance fid x st.1 with
                  | (Ok x', w') => active x && unused x' st.1 st.2 && legal sched' (w', <[i := x']> st.2)
                  | (Err _, _) => false
                  end
      | None => false
      end
  end.

Lemma legal_steps sched st : legal sched st = true → nsteps (race_step fid) (length sched) st (play sched st).
Proof.
  revert st. induction sched as [|i sched IH]; intros [w ws]; [constructor|]. cbn [legal play length fst snd].
  destruct (ws !! i) as [x|] eqn:Hi; [|done]. destruct (advance fid x w) as [[x'|e] w'] eqn:E; [|done].
  intros [[Ha Hu]%andb_true_iff Hl]%andb_true_iff. eapply nsteps_l; [|by apply IH].
  eapply race_turn; [done|done|done|by apply unused_spec].
Qed.

Lemma concurrent_saves_witness :
  (∀ x e, x ∈ end_state.2 → wr_at x = WFailed e → errors_is e ErrVersionConflict = false) ∧
  (∃ k, saves end_state.2 ≤ k ≤ saves end_state.2 + lost end_state.2 ∧
     (∀ x, x ∈ ords fid (w_db end_state.1) ↔ x ∈ ords fid (w_db Demo.uploaded) ∨ (0 < x <= 0 + Z.of_nat k)%Z) ∧
     (∀ x ord, x ∈ end_state.2 → wr_at x = WDone ord → (0 < ord <= 0 + Z.of_nat k)%Z)).
Proof.
  destruct (concurrent_saves demo_service fid Demo.uploaded 0%Z [saver; saver] 6 end_state.1 end_state.2) as (H1&_&H2&_).
  - exact Demo.uploaded_run.
  - vm_compute. reflexivity.
  - unfold maxAttempts. cbn. lia.
  - intros x Hx. assert (x = saver) as -> by (apply elem_of_cons in Hx as [-> | ->%list_elem_of_singleton]; done).
    split_and!; [done|done|]. intros ref ?%not_elem_of_nil. done.
  - change (nsteps (race_step fid) 6 begin_state (end_state.1, end_state.2)). rewrite <- surjective_pairing.
    exact (legal_steps [0; 1; 0; 1; 1; 1] begin_state ltac:(vm_compute; reflexivity)).
  - exact (conj H1 H2).
Defined.
End SaveDemo.

(** ** Moves at the same time

    MoveFolder (folder.go) checks for a cycle before its transaction.  Two moves whose
    checks both run before either commits put each folder into the other. *)
Module MoveDemo.
#[local] Existing Instance toy_primitives.
#[local] Existing Instance counting_platform.
#[local] Existing Instance owner_fga.
#[local] Existing Instance no_mime.

Definition the_id (r : res Folder) : string := match r with Ok f => f_ID f | Err _ => "" end.
Definition made_a := CreateFolder demo_user None "a" (boot kdb_empty).
Definition made_b := CreateFolder demo_user None "b" made_a.2.
Definition a : string := the_id made_a.1.
Definition b : string := the_id made_b.1.

(** What MoveFolder does before its transaction, and from there on. *)
Definition move_checks (i dest : string) : M KW Folder :=
  authorizeFolder demo_user i ;;
  check_dest demo_user i (Some dest) ;;
  f ← GetFolderRow i;
  match f with None => throw ErrNotFound | Some f => mret f end.
Definition move_commit (i dest : string) (f : Folder) : M KW unit :=
  move_folder_tx demo_user i (Some dest) f ;; reparent (folderObj i) (f_ParentID f) (Some dest).

Lemma MoveFolder_parts i dest w :
  MoveFolder demo_user i (Some dest) w = (move_checks i dest ≫= move_commit i dest) w.
Proof.
  unfold MoveFolder, move_checks. rewrite !run_bind. destruct (authorizeFolder demo_user i w) as [[[]|e] w1]; [|done].
  rewrite !run_bind. destruct (check_dest demo_user i (Some dest) w1) as [[[]|e] w2]; [|done].
  rewrite !run_bind. by destruct (GetFolderRow i w2) as [[[f|]|e] w3].
Qed.

(** The checks of both, then the commits of both. *)
Definition crossed : M KW unit :=
  fa ← move_checks a b; fb ← move_checks b a; move_commit a b fa ;; move_commit b a fb.

(** Both moves succeed, and each folder is now the parent of the other: neither is
    reachable from the top any more. *)
Theorem moves_race_cycle :
  is_ok (crossed made_b.2).1 = true ∧
  f_ParentID <$> folders (w_db (crossed made_b.2).2) !! a = Some (Some b) ∧
  f_ParentID <$> folders (w_db (crossed made_b.2).2) !! b = Some (Some a).
Proof. vm_compute. split_and!; reflexivity. Qed.
End MoveDemo.

(** ** Delete against upload

    Delete commits, a second upload of the same content finds its chunk still
    stored and does not write it, Delete reclaims the blob, the upload commits. *)
Section dangling.
Context {Pr : Primitives} {P : Platform} {F : OpenFGA} {Mi : Mime}.

Definition delete_vs_upload (s : Service) (user : Subject) (body : list rd_event) : M KW Object :=
  o ← Upload s user None "a.txt" body;
  gone ← delete_tx user (o_ID o);
  r ← Ingest (s_cipher s) body;
  reclaim_blobs gone.1 ;;
  upload_commit user None "b.txt" r.1 r.2.
End dangling.

Definition dangling_run : res Object * KW :=
  delete_vs_upload (Pr := toy_primitives) (P := counting_platform) (F := owner_fga) (Mi := no_mime)
    demo_service demo_user demo_body (boot kdb_empty).

(** Every call succeeds, and the uploaded file cannot be read: its manifest names
    a blob that is gone. *)
Theorem delete_upload_race_dangles :
  match dangling_run with
  | (Ok o, w) =>
      (Download (Pr := toy_primitives) (F := owner_fga) demo_service demo_user (o_ID o) (w, [])).1
        = Err ErrBlobNotExist
  | (Err _, _) => False
  end.
Proof. vm_compute. reflexivity. Qed.
