(* ===== verification/SessionStore.v ===== *)
(** * SessionStore: the TTL-evicting session store (lib/session/store.go)

    The in-memory store of login states and sessions, generic in its values.
    Evicting is an optimisation: the store is shown to answer as an ideal map
    that never forgets an entry, and to keep no entry for longer than two
    lifetimes. *)

From S2P Require Import Prelude.

(** Times and durations are nanoseconds. *)
Record entry (T : Type) := MkEntry { e_val : T; e_exp : Z }.
Arguments MkEntry {T}.
Arguments e_val {T}.
Arguments e_exp {T}.

(** [lastSweep = None] is the zero time, centuries in the past: any sweep is due. *)
Record Store (T : Type) := MkStore {
  st_ttl : Z;
  st_sweepEvery : Z;
  st_items : gmap string (entry T);
  st_lastSweep : option Z;
}.
Arguments MkStore {T}.
Arguments st_ttl {T}.
Arguments st_sweepEvery {T}.
Arguments st_items {T}.
Arguments st_lastSweep {T}.

Module Session.
Section store.
Context {T : Type}.
Implicit Types (s : Store T) (k : string) (now t : Z).

Definition NewStore (ttl : Z) : Store T := MkStore ttl ttl ∅ None.

(** [now.After(e.exp)] *)
Definition expired (now : Z) (e : entry T) : bool := (e_exp e <? now)%Z.

Definition sweepLocked (now : Z) s : Store T :=
  MkStore (st_ttl s) (st_sweepEvery s)
    (filter (λ ke, expired now ke.2 = false) (st_items s)) (Some now).

Definition sweep_due (now : Z) s : bool :=
  match st_lastSweep s with
  | None => true
  | Some last => (st_sweepEvery s <=? now - last)%Z
  end.

Definition Put (now : Z) (key : string) (v : T) s : Store T :=
  let s' := if sweep_due now s then sweepLocked now s else s in
  MkStore (st_ttl s') (st_sweepEvery s')
    (<[key := MkEntry v (now + st_ttl s')]> (st_items s')) (st_lastSweep s').

(** The value, and the store after lazy eviction. *)
Definition Get (now : Z) (key : string) s : option T * Store T :=
  match st_items s !! key with
  | Some e =>
      if expired now e
      then (None, MkStore (st_ttl s) (st_sweepEvery s) (delete key (st_items s)) (st_lastSweep s))
      else (Some (e_val e), s)
  | None => (None, s)
  end.

Definition Delete (key : string) s : Store T :=
  MkStore (st_ttl s) (st_sweepEvery s) (delete key (st_items s)) (st_lastSweep s).

Definition Len s : nat := size (st_items s).

(** ** The ideal store: entries are never evicted, only overwritten or deleted *)
Inductive op := OPut (k : string) (v : T) | OGet (k : string) | ODelete (k : string).

Definition step (now : Z) (o : op) s : option T * Store T :=
  match o with
  | OPut k v => (None, Put now k v s)
  | OGet k => Get now k s
  | ODelete k => (None, Delete k s)
  end.

Abbreviation ideal := (gmap string (entry T)).

Definition ideal_step (ttl now : Z) (o : op) (m : ideal) : option T * ideal :=
  match o with
  | OPut k v => (None, <[k := MkEntry v (now + ttl)]> m)
  | OGet k => (match m !! k with
               | Some e => if (now <=? e_exp e)%Z then Some (e_val e) else None
               | None => None
               end, m)
  | ODelete k => (None, delete k m)
  end.

(** Outputs of a sequence of timed operations. *)
Fixpoint outputs {S : Type} (f : Z → op → S → option T * S) (l : list (Z * op)) (s : S)
    : list (option T) :=
  match l with
  | [] => []
  | (t, o) :: l' => let '(r, s') := f t o s in r :: outputs f l' s'
  end.

Fixpoint run_ops (l : list (Z * op)) s : Store T :=
  match l with
  | [] => s
  | (t, o) :: l' => run_ops l' (step t o s).2
  end.

(** The clock does not go back (Go's monotonic reading). *)
Fixpoint monotone (t0 : Z) (l : list (Z * op)) : bool :=
  match l with
  | [] => true
  | (t, _) :: l' => (t0 <=? t)%Z && monotone t l'
  end.

(** The simulation at time [t]: what was evicted had expired. *)
Definition simulates (t : Z) s (m : ideal) : Prop :=
  ∀ k, st_items s !! k = m !! k ∨
       st_items s !! k = None ∧ ∃ e, m !! k = Some e ∧ (e_exp e < t)%Z.

Lemma simulates_later t t' s m : (t <= t')%Z → simulates t s m → simulates t' s m.
Proof.
  intros Ht H k. destruct (H k) as [?|(?&e&?&?)]; [by left|right]. split; [done|].
  exists e. split; [done|lia].
Qed.

Lemma lookup_sweep t s k :
  st_items (sweepLocked t s) !! k =
    match st_items s !! k with Some e => if expired t e then None else Some e | None => None end.
Proof.
  cbn. destruct (st_items s !! k) as [e|] eqn:Ek.
  - destruct (expired t e) eqn:E.
    + apply map_lookup_filter_None. right. intros x Hx. assert (x = e) as -> by congruence. cbn. congruence.
    + by apply map_lookup_filter_Some.
  - apply map_lookup_filter_None. by left.
Qed.

Lemma simulates_sweep t s m : simulates t s m → simulates t (sweepLocked t s) m.
Proof.
  intros H k. rewrite lookup_sweep. destruct (H k) as [E|(E&e&He&Hlt)]; rewrite E.
  - destruct (m !! k) as [e|] eqn:Em; [|by left]. unfold expired. destruct (Z.ltb_spec (e_exp e) t).
    + right. split; [done|]. by exists e.
    + by left.
  - right. split; [done|]. by exists e.
Qed.

Lemma simulates_insert t s m k e :
  simulates t s m →
  simulates t (MkStore (st_ttl s) (st_sweepEvery s) (<[k := e]> (st_items s)) (st_lastSweep s)) (<[k := e]> m).
Proof.
  intros H j. cbn. destruct (decide (k = j)) as [<-|]; [rewrite !lookup_insert_eq; by left|].
  rewrite !lookup_insert_ne by done. apply H.
Qed.

Lemma simulates_delete t s m k : simulates t s m → simulates t (Delete k s) (delete k m).
Proof.
  intros H j. cbn. destruct (decide (k = j)) as [<-|]; [rewrite !lookup_delete_eq; by left|].
  rewrite !lookup_delete_ne by done. apply H.
Qed.

Lemma step_simulates t o s m :
  simulates t s m →
  (step t o s).1 = (ideal_step (st_ttl s) t o m).1 ∧ st_ttl (step t o s).2 = st_ttl s ∧
  simulates t (step t o s).2 (ideal_step (st_ttl s) t o m).2.
Proof.
  intros H. destruct o as [k v|k|k]; cbn [step ideal_step].
  - unfold Put. destruct (sweep_due t s); cbn [fst snd st_ttl]; split_and!; try done.
    + by apply simulates_insert, simulates_sweep.
    + by apply simulates_insert.
  - unfold Get. destruct (H k) as [E|(E&e&He&Hlt)]; rewrite E.
    + destruct (m !! k) as [e|] eqn:Em; [|done]. unfold expired. destruct (Z.ltb_spec (e_exp e) t).
      * rewrite (proj2 (Z.leb_gt t (e_exp e))) by done. cbn. split_and!; [done..|].
        intros j. cbn. destruct (decide (k = j)) as [<-|].
        -- rewrite lookup_delete_eq. right. split; [done|]. by exists e.
        -- rewrite lookup_delete_ne by done. apply H.
      * rewrite (proj2 (Z.leb_le t (e_exp e))) by done. done.
    + rewrite He, (proj2 (Z.leb_gt t (e_exp e))) by done. done.
  - split_and!; [done..|]. by apply simulates_delete.
Qed.

Lemma outputs_simulate l t0 s m :
  simulates t0 s m → monotone t0 l = true →
  outputs step l s = outputs (ideal_step (st_ttl s)) l m.
Proof.
  revert t0 s m. induction l as [|[t o] l IH]; intros t0 s m H; cbn; [done|].
  intros [Ht Hm]%andb_true_iff. apply Z.leb_le in Ht.
  destruct (step_simulates t o s m (simulates_later _ _ _ _ Ht H)) as (E1&E2&E3).
  destruct (step t o s) as [r s'], (ideal_step (st_ttl s) t o m) as [r' m']. cbn in *. subst r'.
  f_equal. rewrite <- E2. by apply (IH t).
Qed.

(** C37: the session store refines an ideal store.  On any sequence of
    operations in which the clock does not go back, every [Get] answers as a map
    that never evicts and only compares the time with the entry's expiry; sweeping
    and lazy eviction are never observable. *)
Theorem Store_refines_ideal ttl t0 l :
  monotone t0 l = true →
  outputs step l (NewStore ttl) = outputs (ideal_step ttl) l ∅.
Proof.
  intros Hm. apply (outputs_simulate l t0 (NewStore ttl) ∅); [|done].
  intros k. left. done.
Qed.

(** What sweeping achieves: an entry had not expired at the last sweep. *)
Definition swept (t : Z) s : Prop :=
  st_sweepEvery s = st_ttl s ∧
  match st_lastSweep s with
  | None => st_items s = ∅
  | Some last => (last <= t)%Z ∧ ∀ k e, st_items s !! k = Some e → (last <= e_exp e)%Z
  end.

Lemma swept_sub t t' s items :
  (t <= t')%Z → swept t s → items ⊆ st_items s →
  swept t' (MkStore (st_ttl s) (st_sweepEvery s) items (st_lastSweep s)).
Proof.
  intros Ht [H1 H2] Hs. split; [done|]. cbn. destruct (st_lastSweep s) as [last|].
  - destruct H2 as [Hl He]. split; [lia|]. intros k e Hk. apply (He k). by eapply lookup_weaken.
  - rewrite H2 in Hs. apply map_empty. intros i. apply (lookup_weaken_None _ ∅); [apply lookup_empty|done].
Qed.

Lemma swept_Put t t' k v s :
  (0 <= st_ttl s)%Z → (t <= t')%Z → swept t s →
  swept t' (Put t' k v s) ∧
  ∀ last, st_lastSweep (Put t' k v s) = Some last → (t' < last + st_ttl s ∨ st_ttl s = 0 /\ last = t')%Z.
Proof.
  intros Hp Ht [H1 H2]. unfold Put. destruct (sweep_due t' s) eqn:Ed.
  - split; [|intros last; cbn; intros [= <-]; lia]. split; [done|]. cbn. split; [lia|].
    intros j e [[<- <-]|[Hne He]]%lookup_insert_Some; cbn; [lia|].
    apply map_lookup_filter_Some in He as [_ He]. cbn in He. unfold expired in He. lia.
  - unfold sweep_due in Ed. destruct (st_lastSweep s) as [last|] eqn:El; [|done].
    destruct H2 as [Hl He]. apply Z.leb_gt in Ed. rewrite H1 in Ed. cbn.
    split; [|intros x [= <-]; lia]. split; [done|]. cbn. split; [lia|].
    intros j e [[<- <-]|[Hne Hj]]%lookup_insert_Some; cbn; [lia|]. by apply (He j).
Qed.

Lemma swept_step t t' o s :
  (0 <= st_ttl s)%Z → (t <= t')%Z → swept t s →
  swept t' (step t' o s).2 ∧ st_ttl (step t' o s).2 = st_ttl s.
Proof.
  intros Hp Ht H. destruct o as [k v|k|k]; cbn [step snd].
  - split; [by apply (swept_Put t)|]. unfold Put. by destruct (sweep_due t' s).
  - unfold Get. assert (swept t' s) as Hs by (destruct s; by apply (swept_sub t t' _ _ Ht H)).
    destruct (st_items s !! k) as [e|]; [|done]. destruct (expired t' e); [|done].
    split; [|done]. apply (swept_sub t'); [lia|done|]. apply delete_subseteq.
  - split; [|done]. apply (swept_sub t); [done|done|]. apply delete_subseteq.
Qed.

Lemma swept_run l t0 s :
  (0 <= st_ttl s)%Z → swept t0 s → monotone t0 l = true →
  st_ttl (run_ops l s) = st_ttl s ∧ ∀ t, (∀ x, x ∈ l → x.1 <= t)%Z → (t0 <= t)%Z → swept t (run_ops l s).
Proof.
  revert t0 s. induction l as [|[t o] l IH]; intros t0 s Hp H; cbn [run_ops monotone].
  - intros _. split; [done|]. intros t _ Ht. destruct s; by apply (swept_sub t0 t _ _ Ht H).
  - intros [Ht Hm]%andb_true_iff. apply Z.leb_le in Ht.
    destruct (swept_step t0 t o s Hp Ht H) as [Hs Htt].
    destruct (IH t (step t o s).2 ltac:(lia) Hs Hm) as [E1 E2]. split; [congruence|].
    intros t' Hall Ht'. apply E2; [intros x Hx; apply Hall; by right|]. apply (Hall (t, o)). left.
Qed.

(** growth is bounded.  After any sequence of operations in which the
    clock does not go back, a [Put] at [now] leaves no entry that expired a whole
    lifetime ago: everything kept was put within the last two lifetimes. *)
Theorem Put_bounds_growth ttl t0 l now k v j e :
  (0 < ttl)%Z → monotone t0 l = true → (∀ x, x ∈ l → x.1 <= now)%Z → (t0 <= now)%Z →
  st_items (Put now k v (run_ops l (NewStore ttl))) !! j = Some e → (now < e_exp e + ttl)%Z.
Proof.
  intros Hp Hm Hall H0 Hj.
  destruct (swept_run l t0 (NewStore ttl) ltac:(cbn; lia) ltac:(done) Hm) as [Ett Hs].
  specialize (Hs now Hall H0). set (s := run_ops l (NewStore ttl)) in *. cbn in Ett.
  destruct (swept_Put now now k v s ltac:(lia) ltac:(lia) Hs) as [[_ Hsw] Hlast].
  destruct (st_lastSweep (Put now k v s)) as [last|].
  - destruct Hsw as [_ He]. specialize (He j e Hj). specialize (Hlast last eq_refl). lia.
  - rewrite Hsw, lookup_empty in Hj. done.
Qed.
End store.

(** ** What one operation does to the entries, for the clients *)
Section stores.
Context {T : Type}.
Implicit Types (s : Store T).

Lemma Put_ttl now k v s : st_ttl (Put now k v s) = st_ttl s.
Proof. unfold Put. by destruct (sweep_due now s). Qed.

Lemma Put_items now k v s k' e :
  st_items (Put now k v s) !! k' = Some e →
  k' = k ∧ e = MkEntry v (now + st_ttl s) ∨ st_items s !! k' = Some e.
Proof.
  intros H. unfold Put in H. cbn [st_items] in H. apply lookup_insert_Some in H as [[<- <-]|[_ H]].
  - left. by destruct (sweep_due now s).
  - right. destruct (sweep_due now s); [|done]. cbn in H. by apply map_lookup_filter_Some in H as [? _].
Qed.

Lemma Get_ttl now k s : st_ttl (Get now k s).2 = st_ttl s.
Proof. unfold Get. destruct (st_items s !! k) as [e|]; [|done]. by destruct (expired now e). Qed.

Lemma Get_items now k s k' e : st_items (Get now k s).2 !! k' = Some e → st_items s !! k' = Some e.
Proof.
  unfold Get. destruct (st_items s !! k) as [x|]; [|done]. destruct (expired now x); [|done].
  cbn. by intros [_ ?]%lookup_delete_Some.
Qed.

Lemma Get_live now k s v :
  (Get now k s).1 = Some v → ∃ e, st_items s !! k = Some e ∧ e_val e = v ∧ (now <= e_exp e)%Z.
Proof.
  unfold Get. destruct (st_items s !! k) as [e|]; [|done]. destruct (expired now e) eqn:E; [done|].
  intros [= <-]. exists e. apply Z.ltb_ge in E. done.
Qed.

Lemma Delete_items k s k' e :
  st_items (Delete k s) !! k' = Some e → k' ≠ k ∧ st_items s !! k' = Some e.
Proof. cbn. intros [? ?]%lookup_delete_Some. done. Qed.
End stores.

Definition demo_ops : list (Z * op (T := Z)) :=
  [(1, OPut "a" 7); (3, OGet "a"); (8, OPut "b" 8); (40, OPut "c" 9); (41, OGet "a"); (42, ODelete "c");
   (43, OGet "c")]%Z.

Lemma Store_refines_ideal_witness :
  outputs step demo_ops (NewStore 10) = outputs (ideal_step 10) demo_ops ∅.
Proof. apply (Store_refines_ideal 10 0 demo_ops). reflexivity. Defined.

Lemma Put_bounds_growth_witness : (50 < 60 + 10)%Z.
Proof.
  apply (Put_bounds_growth (T := Z) 10 0 demo_ops 50 "d" 1%Z "d" (MkEntry 1%Z 60)); try reflexivity.
  - intros x Hx. unfold demo_ops in Hx. repeat (apply elem_of_cons in Hx as [-> | Hx]; [cbn; lia|]).
    by apply not_elem_of_nil in Hx.
  - lia.
Defined.
End Session.
