(* ===== verification/Zip.v ===== *)
(** * Zip: folder download as an archive (kamara/internal/file/zip.go)

    Naming of the entries and the walk over the tree.  The archive is the list
    of entries written so far; [seen], which the recursion shares, is state
    beside it; [used] and [pending] belong to one directory. *)

From stdpp Require Import pretty.
From S2P Require Import Prelude GoText Ids World Pii Pseudonym Conventions Authz Chunker ChunkCrypto Blob Engine Repo RepoInv FileService FolderService.
Import Pii Chunker.

(** ** Entry names *)

(** No path separator becomes part of an entry name. *)
Definition flatten (r : Z) : Z := if ((r =? 47) || (r =? 92))%Z then 95%Z else r.

Definition sanitizeEntryName (name : string) : string :=
  let name := strings_map flatten name in
  if bool_decide (name = ".") || bool_decide (name = "..") then "_" else name.

Abbreviation counts := (gmap string Z).
Definition count (pending : counts) (name : string) : Z := default 0%Z (pending !! name).
Definition bump (d : Z) (name : string) (pending : counts) : counts :=
  <[name := (count pending name + d)%Z]> pending.

Definition numbered (stem ext : string) (n : N) : string := stem +:+ " (" +:+ pretty n +:+ ")" +:+ ext.

(** The loop over n = 2, 3, ...; [fuel] candidates are tried. *)
Fixpoint entry_loop (fuel : nat) (used : gset string) (pending : counts) (stem ext : string) (n : N)
    : option string :=
  match fuel with
  | O => None
  | S fuel' =>
      let candidate := numbered stem ext n in
      if negb (bool_decide (candidate ∈ used)) && (count pending candidate <=? 0)%Z
      then Some candidate
      else entry_loop fuel' used pending stem ext (n + 1)
  end.

(** The name, and the maps after the call.  One candidate more than there are
    names in the maps is enough. *)
Definition entryName (used : gset string) (pending : counts) (name : string)
    : option (string * gset string * counts) :=
  let name := sanitizeEntryName name in
  let pending := bump (-1) name pending in
  if negb (bool_decide (name ∈ used)) then Some (name, {[name]} ∪ used, pending)
  else
    let ext := path_ext name in
    let stem := TrimSuffix name ext in
    candidate ← entry_loop (S (size used + size pending)) used pending stem ext 2;
    Some (candidate, {[candidate]} ∪ used, pending).

(** ** The archive *)
Record zentry := MkEntry { z_name : string; z_modified : Z; z_content : bytes }.
Abbreviation archive := (list zentry).
Abbreviation zstate := (KW * (archive * gset string))%type.

(** archive/zip refuses names that do not fit its 16-bit length field; the
    writer below it can fail. *)
Definition errLongName : error := ErrText "zip: FileHeader.Name too long".

Definition CreateHeader (name : string) (modified : Z) : M zstate unit :=
  if (65535 <? Z.of_nat (String.length name))%Z then throw errLongName
  else on_world (call (mret tt)) ;;
       on_local (λ '(ar, seen), (ar ++ [MkEntry name modified []], seen)).

(** Run a writer of bytes; what it wrote becomes content of the last entry. *)
Definition add_content (b : bytes) (ar : archive) : archive :=
  match reverse ar with
  | [] => ar
  | e :: before => reverse before ++ [MkEntry (z_name e) (z_modified e) (z_content e ++ b)]
  end.

Definition to_entry {A} (m : M (KW * bytes) A) : M zstate A := λ '(w, (ar, seen)),
  let '(r, (w', out)) := m (w, []) in (r, (w', (add_content out ar, seen))).

Definition marked (i : string) : M zstate bool := gets (λ st, bool_decide (i ∈ st.2.2)).
Definition mark (i : string) : M zstate unit := on_local (λ '(ar, seen), (ar, {[i]} ∪ seen)).

Section zip.
Context {Pr : Primitives} {P : Platform} {F : OpenFGA} {Mi : Mime}.
Context (s : Service).

Definition name_entry (st : gset string * counts) (name : string)
    : M zstate (string * (gset string * counts)) :=
  match entryName st.1 st.2 name with
  | Some (x, used, pending) => mret (x, (used, pending))
  | None => throw out_of_fuel
  end.

Definition zip_file (prefix : string) (st : gset string * counts) (o : Object)
    : M zstate (gset string * counts) :=
  x ← name_entry st (o_Name o);
  CreateHeader (prefix +:+ x.1) (o_Updated o) ;;
  refs ← on_world (ManifestOf (o_ID o));
  wrap_err ("file: zip entry " +:+ o_ID o) (to_entry (Reassemble (s_cipher s) refs)) ;;
  mret x.2.

Definition siblings (files : list Object) (folders : list Folder) : counts :=
  foldl (λ p f, bump 1 (sanitizeEntryName (f_Name f)) p)
    (foldl (λ p o, bump 1 (sanitizeEntryName (o_Name o)) p) ∅ files) folders.

Fixpoint zipTree (fuel : nat) (caller : Subject) (folder : option string) (prefix : string)
    : M zstate unit :=
  match fuel with
  | O => throw out_of_fuel
  | S fuel' =>
      files ← on_world (ObjectsInFolder caller folder);
      folders ← on_world (FoldersInParent caller folder);
      st ← for_acc files (∅, siblings files folders) (zip_file prefix);
      for_acc folders st (λ st f,
        skip ← marked (f_ID f);
        if skip : bool then mret st
        else
          mark (f_ID f) ;;
          x ← name_entry st (f_Name f);
          let dir := prefix +:+ x.1 +:+ "/" in
          CreateHeader dir (f_Updated f) ;;
          zipTree fuel' caller (Some (f_ID f)) dir ;;
          mret x.2) ;;
      mret tt
  end.

(** The result, and the archive written: the entries so far stay when the walk
    fails.  Each level of the recursion marks a folder that was not marked, so
    one level more than there are folders is enough. *)
Definition DownloadZip (caller : Subject) (folder : option string) : M (KW * archive) unit := λ '(w, ar),
  match authorize_dest caller folder w with
  | (Err e, w') => (Err e, (w', ar))
  | (Ok _, w') =>
      let seen := match folder with Some f => {[f]} | None => ∅ end in
      let fuel := S (S (size (folders (w_db w')))) in
      let '(r, (w'', (ar', _))) := zipTree fuel caller folder "" (w', (ar, seen)) in
      match r with
      | Err e => (Err e, (w'', ar'))
      | Ok _ => let '(r', w3) := call (mret tt) w'' in (r', (w3, ar'))
      end
  end.
End zip.

Example numbered_names :
  (entryName {["a.txt"]} {["a (2).txt" := 1%Z]} "a.txt") =
    Some ("a (3).txt", {["a (3).txt"; "a.txt"]}, {["a (2).txt" := 1%Z; "a.txt" := (-1)%Z]}).
Proof. vm_compute. reflexivity. Qed.

(** ** Lemmas on strings *)
Lemma contains_byte_rev_onto c acc s :
  contains_byte c (string_rev_onto acc s) = contains_byte c s || contains_byte c acc.
Proof.
  revert acc. induction s as [|d s IH]; intros acc; cbn; [done|]. rewrite IH. cbn.
  destruct (bool_decide (d = c)), (contains_byte c s); done.
Qed.

Lemma contains_byte_rev c s : contains_byte c (string_rev s) = contains_byte c s.
Proof. unfold string_rev. rewrite contains_byte_rev_onto. cbn. by rewrite orb_false_r. Qed.

Lemma trim_prefix_bytes c s p r : trim_prefix s p = Some r → contains_byte c r = true → contains_byte c s = true.
Proof.
  revert s. induction p as [|a p IH]; intros s; [by destruct s; intros [= <-]|].
  destruct s as [|b s]; cbn; [done|]. destruct (decide (a = b)); [|done]. intros H Hc. cbn.
  rewrite (IH s H Hc). apply orb_true_r.
Qed.

Lemma TrimSuffix_bytes c s p : contains_byte c s = false → contains_byte c (TrimSuffix s p) = false.
Proof.
  intros H. unfold TrimSuffix. destruct (trim_prefix (string_rev s) (string_rev p)) as [r|] eqn:E; [|done].
  rewrite contains_byte_rev. destruct (contains_byte c r) eqn:Er; [|done].
  apply (trim_prefix_bytes c _ _ _ E) in Er. rewrite contains_byte_rev in Er. congruence.
Qed.

Lemma ext_rev_bytes c s acc :
  contains_byte c s = false → contains_byte c acc = false → contains_byte c (ext_rev s acc) = false.
Proof.
  revert acc. induction s as [|d s IH]; intros acc; cbn; [done|].
  intros [Hd Hs]%orb_false_iff Ha. repeat case_match; cbn; try done.
  all: try (rewrite Hd, Ha; done). all: apply IH; [done|]; cbn; by rewrite Hd, Ha.
Qed.

Lemma path_ext_bytes c s : contains_byte c s = false → contains_byte c (path_ext s) = false.
Proof. intros H. unfold path_ext. apply ext_rev_bytes; [by rewrite contains_byte_rev|done]. Qed.

(** ** Safety of entry names *)
Lemma runes_fuel_range fuel l r : r ∈ runes_fuel fuel l → (0 <= r < 1114112)%Z.
Proof.
  revert l. induction fuel as [|fuel IH]; intros l; cbn; [by intros ?%not_elem_of_nil|].
  destruct l as [|b l]; [by intros ?%not_elem_of_nil|].
  pose proof (decode_rune_range (b :: l)) as Hr. destruct (decode_rune (b :: l)) as [x n].
  intros [-> | H]%elem_of_cons; [done|]. by eapply IH.
Qed.

Lemma flatten_range r : (0 <= r < 1114112)%Z → (0 <= flatten r < 1114112)%Z ∧ flatten r ≠ 47%Z ∧ flatten r ≠ 92%Z.
Proof. unfold flatten. intros H. destruct (Z.eqb_spec r 47), (Z.eqb_spec r 92); cbn; lia. Qed.

Lemma flatten_no_sep c s :
  (bz (Ascii.byte_of_ascii c) = 47 ∨ bz (Ascii.byte_of_ascii c) = 92)%Z →
  contains_byte c (strings_map flatten s) = false.
Proof.
  intros Hc. destruct (contains_byte c (strings_map flatten s)) eqn:E; [|done]. exfalso.
  apply contains_byte_bytes in E. unfold strings_map in E. rewrite str_bytes_str in E.
  rewrite list_elem_of_In, in_concat in E. destruct E as (l&Hl&Hb).
  apply list_elem_of_In in Hl. apply list_elem_of_In in Hb. apply list_elem_of_fmap in Hl as (r&->&Hr).
  apply runes_fuel_range, flatten_range in Hr as (Hr&H1&H2).
  destruct (Z.lt_ge_cases (flatten r) 128) as [Hlt|Hge].
  - rewrite encode_rune_low in Hb by lia. apply list_elem_of_singleton in Hb. rewrite Hb in Hc.
    rewrite bz_byte_of_Z, Z.mod_small in Hc by lia. lia.
  - apply encode_rune_high in Hb; lia.
Qed.

Lemma strings_map_nonempty f s : s ≠ "" → strings_map f s ≠ "".
Proof.
  intros Hs H. apply (f_equal str_bytes) in H. unfold strings_map in H. rewrite str_bytes_str in H.
  unfold runes in H. destruct s as [|a s]; [done|]. change (str_bytes (String a s)) with (Ascii.byte_of_ascii a :: str_bytes s) in H.
  cbn [String.length runes_fuel] in H. destruct (decode_rune (Ascii.byte_of_ascii a :: str_bytes s)) as [r n].
  cbn in H. assert (encode_rune (f r) ≠ []) as He by (unfold encode_rune; repeat case_match; done).
  by destruct (encode_rune (f r)).
Qed.

(** A name that stays inside its directory. *)
Definition no_sep (c : string) : Prop := contains_byte "/"%char c = false ∧ contains_byte "\"%char c = false.
Definition safe_name (c : string) : Prop := no_sep c ∧ c ≠ "." ∧ c ≠ "..".

Lemma sanitize_safe name : safe_name (sanitizeEntryName name).
Proof.
  unfold sanitizeEntryName, safe_name, no_sep.
  pose proof (flatten_no_sep "/"%char name (or_introl eq_refl)).
  pose proof (flatten_no_sep "\"%char name (or_intror eq_refl)).
  case_bool_decide; [done|]. by case_bool_decide.
Qed.

Lemma sanitize_nonempty name : name ≠ "" → sanitizeEntryName name ≠ "".
Proof.
  intros H. unfold sanitizeEntryName. destruct (_ || _); [done|]. by apply strings_map_nonempty.
Qed.

(** A character that is no digit does not occur in a number. *)
Lemma pretty_go_bytes c x s :
  string_forallb (λ d, bool_decide (d ≠ c)) "0123456789" = true →
  contains_byte c (pretty_N_go x s) = contains_byte c s.
Proof.
  intros Hc. revert s. induction (N.lt_wf_0 x) as [x _ IH]; intros s.
  assert (x = 0 ∨ 0 < x)%N as [->|?] by lia; [by rewrite pretty_N_go_0|].
  rewrite pretty_N_go_step by done. rewrite IH by (by apply N.div_lt). cbn.
  rewrite bool_decide_eq_false_2; [done|]. cbn in Hc.
  repeat (apply andb_true_iff in Hc as [?%bool_decide_eq_true Hc]). unfold pretty_N_char. by repeat case_match.
Qed.

Lemma pretty_bytes c (n : N) :
  string_forallb (λ d, bool_decide (d ≠ c)) "0123456789" = true → contains_byte c (pretty n) = false.
Proof.
  intros Hc. unfold pretty, pretty_N. case_decide; [|by rewrite pretty_go_bytes].
  cbn in Hc. cbn. by repeat (apply andb_true_iff in Hc as [?%bool_decide_eq_true Hc]);
    rewrite bool_decide_eq_false_2.
Qed.

Lemma numbered_safe stem ext n : no_sep stem → no_sep ext → safe_name (numbered stem ext n).
Proof.
  intros [H1 H2] [H3 H4]. unfold numbered, safe_name, no_sep.
  rewrite !contains_byte_app, H1, H2, H3, H4, !pretty_bytes by done. split; [done|].
  assert (contains_byte "("%char (stem +:+ " (" +:+ pretty n +:+ ")" +:+ ext) = true) as Hp.
  { rewrite !contains_byte_app. cbn. apply orb_true_r. }
  split; intros E; by rewrite E in Hp.
Qed.

Lemma numbered_nonempty stem ext n : numbered stem ext n ≠ "".
Proof.
  intros E. assert (contains_byte "("%char (numbered stem ext n) = true) as Hp.
  { unfold numbered. rewrite !contains_byte_app. cbn. apply orb_true_r. }
  by rewrite E in Hp.
Qed.

Lemma numbered_inj stem ext n m : numbered stem ext n = numbered stem ext m → n = m.
Proof.
  unfold numbered. intros H%string_app_inv_l%string_app_inv_l%Ids.string_app_inj_tail. by apply (inj pretty).
Qed.

(** ** The search for a free number ends *)
Lemma entry_loop_None fuel used pending stem ext n :
  entry_loop fuel used pending stem ext n = None →
  ∀ i, i < fuel → numbered stem ext (n + N.of_nat i) ∈ used ∪ dom pending.
Proof.
  revert n. induction fuel as [|fuel IH]; intros n; cbn; [lia|].
  destruct (negb _ && _) eqn:E; [done|]. intros H [|i] Hi.
  - rewrite N.add_0_r. apply andb_false_iff in E as [E|E].
    + apply negb_false_iff, bool_decide_eq_true in E. set_solver.
    + unfold count in E. destruct (pending !! numbered stem ext n) eqn:El; [|done].
      apply elem_of_union_r. by eapply elem_of_dom_2.
  - specialize (IH _ H i ltac:(lia)). by replace (n + N.of_nat (S i))%N with (n + 1 + N.of_nat i)%N by lia.
Qed.

Lemma entry_loop_total used pending stem ext n :
  is_Some (entry_loop (S (size used + size pending)) used pending stem ext n).
Proof.
  set (fuel := S _). destruct (entry_loop fuel used pending stem ext n) as [x|] eqn:E; [eauto|]. exfalso.
  pose proof (entry_loop_None _ _ _ _ _ _ E) as H.
  set (l := (λ i, numbered stem ext (n + N.of_nat i)) <$> seq 0 fuel).
  assert (NoDup l) as Hnd.
  { apply NoDup_fmap_2; [|apply NoDup_seq]. intros i j Hij%numbered_inj. lia. }
  assert (list_to_set l ⊆ used ∪ dom pending) as Hs.
  { intros x. rewrite elem_of_list_to_set. intros (i&->&Hi)%list_elem_of_fmap.
    apply H. apply elem_of_seq in Hi. lia. }
  apply subseteq_size in Hs. rewrite size_list_to_set in Hs by done.
  unfold l in Hs. rewrite length_fmap, length_seq in Hs.
  pose proof (size_union_alt used (dom pending)) as Hu. pose proof (size_dom (D := gset string) pending) as Hd.
  assert (size (dom pending ∖ used) ≤ size (dom pending)) by (apply subseteq_size; set_solver).
  unfold fuel in Hs. lia.
Qed.

Lemma entry_loop_free fuel used pending stem ext n x :
  entry_loop fuel used pending stem ext n = Some x → x ∉ used ∧ ∃ m, x = numbered stem ext m.
Proof.
  revert n. induction fuel as [|fuel IH]; intros n; cbn; [done|].
  destruct (negb _ && _) eqn:E; [|apply IH]. intros [= <-].
  apply andb_true_iff in E as [E%negb_true_iff%bool_decide_eq_false _]. eauto.
Qed.

Lemma entryName_spec used pending name :
  ∃ x pending', entryName used pending name = Some (x, {[x]} ∪ used, pending') ∧ x ∉ used ∧
    safe_name x ∧ (name ≠ "" → x ≠ "").
Proof.
  unfold entryName. pose proof (sanitize_safe name) as Hs. pose proof (sanitize_nonempty name) as Hn.
  set (nm := sanitizeEntryName name) in *. case_bool_decide as Hu; cbn [negb].
  - destruct (entry_loop_total used (bump (-1) nm pending) (TrimSuffix nm (path_ext nm)) (path_ext nm) 2) as [x Hx].
    rewrite Hx. exists x, (bump (-1) nm pending).
    apply entry_loop_free in Hx as [Hf [m ->]]. split_and!; [done|done|..].
    + destruct Hs as [[H1 H2] _]. apply numbered_safe; split; auto using TrimSuffix_bytes, path_ext_bytes.
    + intros _. apply numbered_nonempty.
  - exists nm, (bump (-1) nm pending). auto.
Qed.

(** ** Paths *)

(** A path that cannot leave the directory it is extracted to: relative, with no
    dot components and no back slashes. *)
Definition good_component (c : string) : Prop := c ≠ "." ∧ c ≠ ".." ∧ contains_byte "\"%char c = false.
Definition good_path (n : string) : Prop :=
  n ≠ "" ∧ has_prefix n "/" = false ∧ Forall good_component (split_byte "/"%char n).

Lemma good_component_safe c : safe_name c → good_component c.
Proof. intros [[_ ?] [? ?]]. done. Qed.

(** A prefix of entry names: nothing, or a directory. *)
Definition good_prefix (p : string) : Prop := p = "" ∨ ∃ q, p = q +:+ "/" ∧ good_path q.

Lemma has_prefix_slash n t : n ≠ "" → has_prefix (n +:+ t) "/" = has_prefix n "/".
Proof. destruct n as [|a n]; [done|]. intros _. change (String a n +:+ t) with (String a (n +:+ t)). cbn. by destruct n, t. Qed.

Lemma app_nonempty_l (n t : string) : n ≠ "" → n +:+ t ≠ "".
Proof. by destruct n. Qed.

Lemma good_entry p c : good_prefix p → safe_name c → c ≠ "" → good_path (p +:+ c).
Proof.
  intros Hp Hc Hn. pose proof Hc as [[Hs _] _]. destruct Hp as [->|(q&->&Hq1&Hq2&Hq3)].
  - split_and!; [done| |].
    + destruct c as [|a c]; [done|]. cbn in Hs |- *. apply orb_false_iff in Hs as [Hs _].
      apply bool_decide_eq_false in Hs. change (has_prefix (String a c) "/" = false). unfold has_prefix. cbn [String.prefix].
      destruct (Ascii.ascii_dec "/" a); [congruence|done].
    + change ("" +:+ c) with c. rewrite split_byte_plain by done. constructor; [by apply good_component_safe|constructor].
  - rewrite string_app_assoc. split_and!.
    + by apply app_nonempty_l.
    + by rewrite has_prefix_slash.
    + change ("/" +:+ c) with (String "/"%char c). rewrite split_byte_app, (split_byte_plain _ c) by done.
      apply Forall_app. split; [done|]. constructor; [by apply good_component_safe|constructor].
Qed.

Lemma good_dir q : good_path q → good_path (q +:+ "/").
Proof.
  intros (H1&H2&H3). split_and!; [by apply app_nonempty_l|by rewrite has_prefix_slash|].
  rewrite split_byte_app. apply Forall_app. split; [done|]. constructor; [done|constructor].
Qed.

(** The entries of one component of a directory. *)
Definition inside (p c n : string) : Prop :=
  ∃ t, n = p +:+ c +:+ t ∧ (t = "" ∨ ∃ t', t = String "/"%char t').

Lemma cut_byte_none c s : contains_byte c s = false → cut_byte c s = None.
Proof.
  induction s as [|d s IH]; cbn; [done|]. intros [Hd Hs]%orb_false_iff. apply bool_decide_eq_false in Hd.
  rewrite decide_False by done. by rewrite IH.
Qed.

Lemma inside_inj p c c' n : no_sep c → no_sep c' → inside p c n → inside p c' n → c = c'.
Proof.
  intros [Hc _] [Hc' _] (t&->&Ht) (t'&E&Ht'). apply string_app_inv_l in E.
  assert (∀ x y, contains_byte "/"%char x = false → (y = "" ∨ ∃ y', y = String "/"%char y') →
    match cut_byte "/"%char (x +:+ y) with Some (a, _) => a | None => x +:+ y end = x) as Hcut.
  { intros x y Hx [->|[y' ->]].
    - rewrite string_app_nil_r. by rewrite cut_byte_none.
    - by rewrite cut_byte_app. }
  rewrite <- (Hcut c t Hc Ht). rewrite E. by apply Hcut.
Qed.

(** ** The walk *)

(** Files and folders have names: creation and renaming refuse the empty one. *)
Definition named (d : KDB) : Prop :=
  (∀ i o, objects d !! i = Some o → o_Name o ≠ "") ∧ (∀ i f, folders d !! i = Some f → f_Name f ≠ "").

(** The entries [E] of the directory with prefix [p], whose components so far
    are [used]. *)
Definition dir_ok (p : string) (used : gset string) (E : list string) : Prop :=
  NoDup E ∧ Forall good_path E ∧
  (∀ c, c ∈ used → safe_name c ∧ c ≠ "") ∧
  ∀ n, n ∈ E → ∃ c, c ∈ used ∧ inside p c n.

Definition names (ar : archive) : list string := z_name <$> ar.

Lemma names_add_content b ar : names (add_content b ar) = names ar.
Proof.
  unfold add_content. destruct (reverse ar) as [|e l] eqn:E; [done|].
  assert (ar = reverse l ++ [e]) as -> by (by rewrite <- (reverse_involutive ar), E, reverse_cons).
  unfold names. by rewrite !fmap_app.
Qed.

(** The state of the walk in a directory: [base] was written before it. *)
Definition at_dir (p : string) (base : list string) (used : gset string) (st : zstate) : Prop :=
  named (w_db st.1) ∧ ∃ E, names st.2.1 = base ++ E ∧ dir_ok p used E.

Definition somewhere (p : string) (base : list string) (st : zstate) : Prop :=
  ∃ used, at_dir p base used st.

Lemma dir_ok_entry p used E c :
  good_prefix p → safe_name c → c ≠ "" → c ∉ used → dir_ok p used E →
  dir_ok p ({[c]} ∪ used) (E ++ [p +:+ c]).
Proof.
  intros Hp Hc Hn Hu (H1&H2&H3&H4). split_and!.
  - apply NoDup_app. split_and!; [done| |apply NoDup_singleton].
    intros n Hin ->%list_elem_of_singleton. destruct (H4 _ Hin) as (c'&Hc'&Hi).
    assert (c = c') as -> by (apply (inside_inj p _ _ (p +:+ c)); [apply Hc|apply (H3 c' Hc')| |done];
      exists ""; rewrite string_app_nil_r; auto). done.
  - apply Forall_app. split; [done|]. constructor; [by apply good_entry|constructor].
  - intros c' [->%elem_of_singleton|Hc']%elem_of_union; auto.
  - intros n [Hin| ->%list_elem_of_singleton]%elem_of_app.
    + destruct (H4 n Hin) as (c'&?&?). exists c'. split; [set_solver|done].
    + exists c. split; [set_solver|]. exists "". rewrite string_app_nil_r. auto.
Qed.

Lemma dir_ok_dir p used E c used' E' :
  good_prefix p → safe_name c → c ≠ "" → c ∉ used → dir_ok p used E →
  dir_ok (p +:+ c +:+ "/") used' E' →
  dir_ok p ({[c]} ∪ used) (E ++ (p +:+ c +:+ "/") :: E').
Proof.
  intros Hp Hc Hn Hu (H1&H2&H3&H4) (K1&K2&K3&K4).
  assert (∀ n, n ∈ (p +:+ c +:+ "/") :: E' → inside p c n) as Hin.
  { intros n [-> | Hn']%elem_of_cons.
    - exists "/". eauto.
    - destruct (K4 n Hn') as (c'&_&t&->&_). exists (String "/"%char (c' +:+ t)).
      split; [|eauto]. by rewrite !string_app_assoc. }
  split_and!.
  - apply NoDup_app. split_and!; [done| |].
    + intros n Hn1 Hn2. destruct (H4 _ Hn1) as (c'&Hc'&Hi).
      assert (c = c') as -> by (apply (inside_inj p _ _ n); [apply Hc|apply (H3 c' Hc')|by apply Hin|done]). done.
    + apply NoDup_cons. split; [|done]. intros Hd. destruct (K4 _ Hd) as (c'&Hc'&t&E1&_).
      rewrite <- (string_app_nil_r (p +:+ c +:+ "/")) in E1 at 1. apply string_app_inv_l in E1.
      destruct (K3 c' Hc') as [_ Hne]. by destruct c'.
  - apply Forall_app. split; [done|]. constructor; [|done]. rewrite <- string_app_assoc.
    by apply good_dir, good_entry.
  - intros c' [->%elem_of_singleton|Hc']%elem_of_union; auto.
  - intros n [Hn1|Hn1]%elem_of_app.
    + destruct (H4 n Hn1) as (c'&?&?). exists c'. split; [set_solver|done].
    + exists c. split; [set_solver|auto].
Qed.

Lemma at_dir_db p base used (w w' : KW) a :
  w_db w' = w_db w → at_dir p base used (w, a) → at_dir p base used (w', a).
Proof. intros H [H1 H2]. split; [cbn in *; by rewrite H|done]. Qed.

Section walk.
Context {Pr : Primitives} {P : Platform} {F : OpenFGA} {Mi : Mime}.
Context (s : Service).

(** Operations that leave the database alone. *)
Lemma at_dir_world {A} p base used (m : M KW A) :
  frames w_db m → keeps (at_dir p base used) (on_world m).
Proof.
  intros Hm [w a] Hw. specialize (Hm w). cbn. destruct (m w) as [r w']. cbn in *.
  by apply (at_dir_db p base used w).
Qed.

Lemma frames_query {A} (f : KDB → A) : frames w_db (query f : M KW A).
Proof. intros w. destruct (query f w) as [r w'] eqn:E. by apply query_cases in E as (?&_). Qed.

Lemma frames_tick : frames w_db (call (mret tt) : M KW unit).
Proof.
  intros w. destruct (call (mret tt : M KW unit) w) as [r w'] eqn:E.
  apply call_cases in E as (w0&Hd&_&_&_&[[= _ <-]|(_&[-> | ->])]); done.
Qed.

Lemma frames_Reassemble refs (w : KW) out :
  w_db (Reassemble (s_cipher s) refs (w, out)).2.1 = w_db w.
Proof.
  assert (keeps (λ ws : KW * bytes, w_db ws.1 = w_db w) (Reassemble (s_cipher s) refs)) as H;
    [|by apply (H (w, out))].
  assert (stores_only (λ w' : KW, w_db w' = w_db w)) as HS by (by intros ? ? <-).
  apply keeps_for_each. intros ref _. unfold reassemble_chunk.
  apply keeps_bind; [apply (keeps_on_world (λ w' : KW, w_db w' = w_db w)); auto with go|intros b].
  apply keeps_bind; [apply keeps_lift|intros x]. intros [w1 o] Hw. cbn in *.
  destruct (next_fault_stores w1) as (f&w2&E&Hd&_). rewrite E. destruct f; cbn; congruence.
Qed.

Lemma at_dir_entry p base used refs msg :
  keeps (at_dir p base used) (wrap_err msg (to_entry (Reassemble (s_cipher s) refs))).
Proof.
  apply keeps_wrap_err. intros [w [ar seen]] [Hw (E&HE&Hd)]. unfold to_entry.
  pose proof (frames_Reassemble refs w []) as Hr.
  destruct (Reassemble (s_cipher s) refs (w, [])) as [r [w' out]]. cbn in *. split; cbn.
  - by rewrite Hr.
  - exists E. by rewrite names_add_content.
Qed.

(** Naming an entry: safe, and new in its directory. *)
Lemma name_entry_spec st name (z : zstate) :
  name ≠ "" → ∃ c pending, name_entry st name z = (Ok (c, ({[c]} ∪ st.1, pending)), z) ∧
    c ∉ st.1 ∧ safe_name c ∧ c ≠ "".
Proof.
  intros Hn. destruct (entryName_spec st.1 st.2 name) as (c&pending&E&Hu&Hs&Hne).
  exists c, pending. unfold name_entry. rewrite E. auto.
Qed.

(** What a header adds, when it is written. *)
Lemma CreateHeader_spec name modified (w : KW) ar seen :
  let '(r, (w', (ar', seen'))) := CreateHeader name modified (w, (ar, seen)) in
  w_db w' = w_db w ∧ seen' = seen ∧
  (r = Ok tt ∧ names ar' = names ar ++ [name] ∨ is_ok r = false ∧ ar' = ar).
Proof.
  unfold CreateHeader. destruct (65535 <? _)%Z; [cbn; auto|]. rewrite run_bind. cbn [on_world].
  pose proof (frames_tick w) as Hd. destruct (call (mret tt : M KW unit) w) as [[[]|e] w']; cbn in *.
  - split_and!; [done|done|left]. split; [done|]. unfold names. by rewrite fmap_app.
  - auto.
Qed.

(** The outcome of a step that returns the maps of the directory. *)
Definition walked (p : string) (base : list string) (r : res (gset string * counts)) (st : zstate) : Prop :=
  match r with Ok m => at_dir p base m.1 st | Err _ => somewhere p base st end.

Lemma zip_file_walks p base st o :
  good_prefix p → o_Name o ≠ "" →
  triple (at_dir p base st.1) (zip_file s p st o) (walked p base).
Proof.
  intros Hp Hn [w [ar seen]] Hat. unfold zip_file. rewrite run_bind.
  destruct (name_entry_spec st (o_Name o) (w, (ar, seen)) Hn) as (c&pending&E&Hu&Hs&Hne). rewrite E.
  rewrite run_bind. cbn [fst]. pose proof (CreateHeader_spec (p +:+ c) (o_Updated o) w ar seen) as H.
  destruct (CreateHeader (p +:+ c) (o_Updated o) (w, (ar, seen))) as [r [w1 [ar1 seen1]]].
  destruct H as (Hd&->&H). destruct Hat as [Hnm (En&HE&Hok)]. cbn [fst snd] in Hnm, HE.
  destruct H as [[-> Har]|[Hr ->]].
  2: { destruct r; [done|]. cbn. exists st.1. split; cbn [fst snd]; [by rewrite Hd|eauto]. }
  assert (at_dir p base ({[c]} ∪ st.1) (w1, (ar1, seen))) as Hat1.
  { split; cbn [fst snd]; [by rewrite Hd|]. exists (En ++ [p +:+ c]). rewrite Har, HE. split; [by rewrite app_assoc|].
    by apply dir_ok_entry. }
  clear Hd Har HE Hok Hnm E. revert Hat1. generalize (w1, (ar1, seen)). intros z Hz.
  assert (keeps (at_dir p base ({[c]} ∪ st.1)) (
    refs ← on_world (ManifestOf (o_ID o));
    wrap_err ("file: zip entry " +:+ o_ID o) (to_entry (Reassemble (s_cipher s) refs)) ;;
    mret ({[c]} ∪ st.1, pending))) as Hk.
  { apply keeps_bind; [apply at_dir_world, frames_query|intros refs].
    apply keeps_bind; [apply at_dir_entry|intros []; apply keeps_ret]. }
  specialize (Hk z Hz). cbn [snd]. match goal with |- walked _ _ (?m z).1 _ => set (m0 := m) in * end.
  destruct (m0 z) as [r z'] eqn:Em. cbn in Hk |- *. destruct r as [x|e]; [|by exists ({[c]} ∪ st.1)].
  cbn. unfold m0 in Em. apply bind_ok_inv in Em as (refs&z1&_&Em). apply bind_ok_inv in Em as ([]&z2&_&Em).
  injection Em as <- <-. exact Hk.
Qed.

Lemma for_acc_walks {X} p base (l : list X) (f : gset string * counts → X → M zstate (gset string * counts)) st :
  (∀ st x, x ∈ l → triple (at_dir p base st.1) (f st x) (walked p base)) →
  triple (at_dir p base st.1) (for_acc l st f) (walked p base).
Proof.
  intros H. revert st. induction l as [|x l IH]; intros st; cbn [for_acc].
  - by apply triple_ret.
  - apply (triple_bind _ _ _ (λ st' z, at_dir p base st'.1 z)).
    + intros z Hz. specialize (H st x ltac:(left) z Hz). destruct (f st x z) as [[st'|e] z']; exact H.
    + intros st'. apply IH. intros st0 y Hy. apply H. by right.
Qed.

Definition fresh_dir (base : list string) (st : zstate) : Prop := named (w_db st.1) ∧ names st.2.1 = base.

Lemma fresh_at p base st : fresh_dir base st → at_dir p base ∅ st.
Proof.
  intros [H1 H2]. split; [done|]. exists []. rewrite app_nil_r. split; [done|].
  split_and!; [apply NoDup_nil_2|constructor|set_solver|]. by intros n ?%not_elem_of_nil.
Qed.

Definition zip_folder (fuel : nat) (caller : Subject) (prefix : string) (st : gset string * counts) (f : Folder)
    : M zstate (gset string * counts) :=
  skip ← marked (f_ID f);
  if skip : bool then mret st
  else
    mark (f_ID f) ;;
    x ← name_entry st (f_Name f);
    let dir := prefix +:+ x.1 +:+ "/" in
    CreateHeader dir (f_Updated f) ;;
    zipTree s fuel caller (Some (f_ID f)) dir ;;
    mret x.2.

Lemma zip_folder_walks fuel caller p base st f :
  (∀ folder dir b, good_prefix dir → triple (fresh_dir b) (zipTree s fuel caller folder dir) (λ _, somewhere dir b)) →
  good_prefix p → f_Name f ≠ "" →
  triple (at_dir p base st.1) (zip_folder fuel caller p st f) (walked p base).
Proof.
  intros IH Hp Hn [w [ar seen]] Hat. unfold zip_folder. rewrite run_bind. cbn [marked gets].
  destruct (bool_decide _); [done|]. rewrite run_bind. cbn [mark on_local].
  set (sn := {[f_ID f]} ∪ seen). rewrite run_bind.
  destruct (name_entry_spec st (f_Name f) (w, (ar, sn)) Hn) as (c&pending&E&Hu&Hs&Hne). rewrite E.
  rewrite run_bind. cbn [fst snd]. pose proof (CreateHeader_spec (p +:+ c +:+ "/") (f_Updated f) w ar sn) as H.
  destruct (CreateHeader (p +:+ c +:+ "/") (f_Updated f) (w, (ar, sn))) as [r [w1 [ar1 seen1]]].
  destruct H as (Hd&->&H). destruct Hat as [Hnm (En&HE&Hok)]. cbn [fst snd] in Hnm, HE.
  destruct H as [[-> Har]|[Hr ->]].
  2: { destruct r; [done|]. cbn [walked]. exists st.1. split; cbn [fst snd]; [by rewrite Hd|eauto]. }
  rewrite run_bind. set (dir := p +:+ c +:+ "/") in *.
  assert (good_prefix dir) as Hdir.
  { right. exists (p +:+ c). unfold dir. rewrite string_app_assoc. split; [done|by apply good_entry]. }
  pose proof (IH (Some (f_ID f)) dir (names ar1) Hdir (w1, (ar1, sn))) as Hz.
  destruct (zipTree s fuel caller (Some (f_ID f)) dir (w1, (ar1, sn))) as [r [w2 [ar2 sn2]]].
  destruct Hz as (used'&Hnm2&E2&HE2&Hok2); [split; cbn [fst snd]; [by rewrite Hd|done]|]. cbn [fst snd] in Hnm2, HE2.
  assert (at_dir p base ({[c]} ∪ st.1) (w2, (ar2, sn2))) as Hfin.
  { split; [done|]. exists (En ++ dir :: E2). cbn [fst snd]. rewrite HE2, Har, HE. split; [by rewrite <- !app_assoc|].
    by eapply dir_ok_dir. }
  destruct r as [[]|e]; cbn [walked]; [exact Hfin|by exists ({[c]} ∪ st.1)].
Qed.

Lemma query_named {A} (f : KDB → list A) (φ : A → Prop) base :
  (∀ d, named d → ∀ x, x ∈ f d → φ x) →
  triple (fresh_dir base) (on_world (query f : M KW (list A)))
    (λ r st, fresh_dir base st ∧ ∀ l, r = Ok l → ∀ x, x ∈ l → φ x).
Proof.
  intros Hf [w a] [H1 H2]. cbn. destruct (query f w) as [r w'] eqn:E.
  apply query_cases in E as (Hd&_&_&_&Hr). cbn. split; [split; cbn in *; [by rewrite Hd|done]|].
  intros l ->. destruct Hr as [[= ->]|[=]]. by apply Hf.
Qed.

Lemma zipTree_walks fuel caller folder p base :
  good_prefix p → triple (fresh_dir base) (zipTree s fuel caller folder p) (λ _, somewhere p base).
Proof.
  revert folder p base. induction fuel as [|fuel IH]; intros folder p base Hp; cbn [zipTree].
  { apply triple_throw. intros st H. exists ∅. by apply fresh_at. }
  apply (triple_bind _ _ _ (λ l st, fresh_dir base st ∧ ∀ o : Object, o ∈ l → o_Name o ≠ "")).
  { intros z Hz. pose proof (query_named (λ d, merge_sort (by_name o_Name)
      (select (λ o, o_Owner o = caller ∧ o_FolderID o = folder) (objects d))) (λ o, o_Name o ≠ "") base) as Hq.
    specialize (Hq ltac:(intros d [Hd _] o Ho; rewrite merge_sort_Permutation in Ho;
      apply elem_of_select in Ho as [_ [k Hk]]; by apply (Hd k)) z Hz).
    unfold ObjectsInFolder. destruct (on_world _ z) as [[l|e] z']; cbn in Hq.
    - destruct Hq as [? Hq]. split; [done|]. by apply (Hq l).
    - exists ∅. by apply fresh_at, Hq. }
  intros files. apply (triple_pure _ (∀ o, o ∈ files → o_Name o ≠ "")); [by intros z [_ ?]|]. intros Hfiles.
  apply (triple_bind _ _ _ (λ l st, fresh_dir base st ∧ ∀ f : Folder, f ∈ l → f_Name f ≠ "")).
  { intros z [Hz _]. pose proof (query_named (λ d, merge_sort (by_name f_Name)
      (select (λ f, f_Owner f = caller ∧ f_ParentID f = folder) (folders d))) (λ f, f_Name f ≠ "") base) as Hq.
    specialize (Hq ltac:(intros d [_ Hd] o Ho; rewrite merge_sort_Permutation in Ho;
      apply elem_of_select in Ho as [_ [k Hk]]; by apply (Hd k)) z Hz).
    unfold FoldersInParent. destruct (on_world _ z) as [[l|e] z']; cbn in Hq.
    - destruct Hq as [? Hq]. split; [done|]. by apply (Hq l).
    - exists ∅. by apply fresh_at, Hq. }
  intros fldrs. apply (triple_pure _ (∀ f, f ∈ fldrs → f_Name f ≠ "")); [by intros z [_ ?]|]. intros Hfl.
  apply (triple_bind _ _ _ (λ st z, at_dir p base st.1 z)).
  { intros z [Hz _]. pose proof (for_acc_walks p base files (zip_file s p) (∅, siblings files fldrs)) as H.
    specialize (H ltac:(intros st o Ho; apply zip_file_walks; auto) z (fresh_at p base z Hz)).
    destruct (for_acc _ _ _ z) as [[st|e] z']; exact H. }
  intros st. apply (triple_bind _ _ _ (λ st' z, at_dir p base st'.1 z)).
  { intros z Hz. pose proof (for_acc_walks p base fldrs (zip_folder fuel caller p) st) as H.
    specialize (H ltac:(intros st' f Hf; apply zip_folder_walks; auto) z Hz).
    change (for_acc fldrs st _ z) with (for_acc fldrs st (zip_folder fuel caller p) z).
    destruct (for_acc _ _ _ z) as [[st'|e] z']; exact H. }
  intros st'. apply triple_ret. intros z Hz. by exists st'.1.
Qed.
End walk.

(** ** The recursion ends *)
Section total.
Context {Pr : Primitives} {P : Platform} {F : OpenFGA} {Mi : Mime}.
Context (s : Service) (B : gmap string bytes) (d : KDB) (HI : db_inv B d).

(** At most [n] folders are not marked yet. *)
Definition unmarked (n : nat) (st : zstate) : Prop :=
  w_db st.1 = d ∧ size (dom (folders d) ∖ st.2.2) ≤ n.

Definition ends {A} (n : nat) (m : M zstate A) : Prop :=
  triple (unmarked n) m (λ r st, unmarked n st ∧ r ≠ Err out_of_fuel).

Lemma ends_bind {A X} n (m : M zstate A) (k : A → M zstate X) :
  ends n m → (∀ a, ends n (k a)) → ends n (m ≫= k).
Proof.
  intros Hm Hk z Hz. rewrite run_bind. destruct (Hm z Hz) as [H1 H2].
  destruct (m z) as [[a|e] z']; [by apply Hk|]. split; [done|]. intros [= ->]. by apply H2.
Qed.

Lemma ends_ret {A} n (a : A) : ends n (mret a).
Proof. intros z Hz. done. Qed.

Lemma ends_world {A} n (m : M KW A) :
  (∀ w, w_db (m w).2 = w_db w ∧ (m w).1 ≠ Err out_of_fuel) → ends n (on_world m).
Proof.
  intros Hm [w a] [H1 H2]. destruct (Hm w) as [Hd Hr]. cbn. destruct (m w) as [r w'].
  split; [split; [etrans; done|done]|done].
Qed.

Lemma ends_query {A} n (f : KDB → A) : ends n (on_world (query f)).
Proof.
  apply ends_world. intros w. destruct (query f w) as [r w'] eqn:E.
  apply query_cases in E as (Hd&_&_&_&Hr). split; [done|]. by destruct Hr as [-> | ->].
Qed.

Lemma ends_CreateHeader n name t : ends n (CreateHeader name t).
Proof.
  unfold CreateHeader. destruct (65535 <? _)%Z; [by intros z Hz|]. apply ends_bind.
  - apply ends_world. intros w. destruct (call (mret tt : M KW unit) w) as [r w'] eqn:E.
    apply call_cases in E as (w0&Hd&_&_&_&[[= <- <-]|(->&[-> | ->])]); done.
  - intros []. by intros [w [ar seen]].
Qed.

Lemma ends_name_entry n st name : ends n (name_entry st name).
Proof.
  intros z Hz. destruct (entryName_spec st.1 st.2 name) as (c&pending&E&_).
  unfold name_entry. by rewrite E.
Qed.

Lemma ends_for_acc {A X} n (l : list A) (acc : X) (f : X → A → M zstate X) :
  (∀ x a, a ∈ l → ends n (f x a)) → ends n (for_acc l acc f).
Proof.
  revert acc. induction l as [|a l IH]; intros acc H; cbn [for_acc]; [apply ends_ret|].
  apply ends_bind; [apply H; left|]. intros x. apply IH. intros y b Hb. apply H. by right.
Qed.

Lemma ends_zip_file n p st o : ends n (zip_file s p st o).
Proof.
  unfold zip_file. apply ends_bind; [apply ends_name_entry|intros x].
  apply ends_bind; [apply ends_CreateHeader|intros _]. apply ends_bind; [apply ends_query|intros refs].
  apply ends_bind; [|intros _; apply ends_ret]. intros [w [ar seen]] [H1 H2]. cbn in H1, H2.
  unfold wrap_err, to_entry. pose proof (frames_Reassemble s refs w []) as Hr.
  destruct (Reassemble (s_cipher s) refs (w, [])) as [[[]|e] [w' out]]; cbn in Hr |- *;
    (split; [split; cbn; [congruence|done]|done]).
Qed.

(** Marking a folder that was not marked leaves fewer. *)
Lemma mark_unmarked n i (w : KW) (ar : archive) (seen : gset string) :
  i ∈ dom (folders d) → i ∉ seen → unmarked n (w, (ar, seen)) →
  ∃ n', n = S n' ∧ unmarked n' (w, (ar, {[i]} ∪ seen)).
Proof.
  intros Hi Hs [H1 H2]. cbn in H1, H2.
  assert (size (dom (folders d) ∖ ({[i]} ∪ seen)) < size (dom (folders d) ∖ seen)) as Hlt.
  { apply subset_size. split; [set_solver|]. intros Hsub.
    assert (i ∈ dom (folders d) ∖ seen) as Hin by set_solver. apply Hsub in Hin. set_solver. }
  destruct n as [|n]; [lia|]. exists n. split; [done|]. split; cbn; [done|lia].
Qed.

Lemma zipTree_ends fuel n caller folder p : n < fuel → ends n (zipTree s fuel caller folder p).
Proof.
  revert n folder p. induction fuel as [|fuel IH]; intros n folder p Hn; [lia|]. cbn [zipTree].
  apply ends_bind; [apply ends_query|intros files].
  intros z Hz. rewrite run_bind.
  pose proof (ends_query n (λ d, merge_sort (by_name f_Name)
    (select (λ f, f_Owner f = caller ∧ f_ParentID f = folder) (folders d))) z Hz) as Hq.
  destruct z as [w a]. unfold FoldersInParent. cbn [on_world] in *.
  match goal with |- context [query ?f w] => destruct (query f w) as [r w1] eqn:Eq end.
  apply query_cases in Eq as (Hd&_&_&_&Hr). cbn [fst snd] in Hq. destruct Hq as [Hz1 Hne].
  destruct Hr as [-> | ->]; [|done]. set (fldrs := merge_sort _ _).
  assert (∀ f, f ∈ fldrs → f_ID f ∈ dom (folders d)) as Hin.
  { intros f Hf. unfold fldrs in Hf. rewrite merge_sort_Permutation in Hf.
    apply elem_of_select in Hf as [_ [k Hk]]. destruct Hz as [Hz _]. cbn in Hz. rewrite Hz in Hk.
    rewrite (inv_fkey _ _ HI k f Hk). by eapply elem_of_dom_2. }
  match goal with |- _ (?m (w1, a)) => idtac | |- context [?m (w1, a)] => cut (ends n m); [by intros He; apply He|] end.
  apply ends_bind; [apply ends_for_acc; intros; apply ends_zip_file|intros st].
  apply ends_bind; [|intros _; apply ends_ret]. apply ends_for_acc. intros st' f Hf.
  intros [w2 [ar seen]] Hz2. rewrite run_bind. cbn [marked gets].
  destruct (bool_decide _) eqn:Eb; [done|]. apply bool_decide_eq_false in Eb. cbn in Eb.
  rewrite run_bind. cbn [mark on_local].
  destruct (mark_unmarked n (f_ID f) w2 ar seen (Hin f Hf) Eb Hz2) as (n'&->&Hz3).
  assert (ends n' (x ← name_entry st' (f_Name f);
    CreateHeader (p +:+ x.1 +:+ "/") (f_Updated f) ;;
    zipTree s fuel caller (Some (f_ID f)) (p +:+ x.1 +:+ "/") ;; mret x.2)) as He.
  { apply ends_bind; [apply ends_name_entry|intros x]. apply ends_bind; [apply ends_CreateHeader|intros _].
    apply ends_bind; [apply IH; lia|intros _; apply ends_ret]. }
  destruct (He _ Hz3) as [[H1 H2] H3]. split; [split; [done|lia]|done].
Qed.
End total.

(** The check in front of an archive reads, and has no loop. *)
Lemma authorize_dest_ends {F : OpenFGA} caller folder (w : KW) :
  w_db (authorize_dest caller folder w).2 = w_db w ∧ (authorize_dest caller folder w).1 ≠ Err out_of_fuel.
Proof.
  destruct folder as [f|]; [|done]. cbn. unfold authorizeFolder, authorizeAccess. rewrite run_bind.
  destruct (Check_frames_all caller AccessRelation (folderObj f) w) as (r&w'&E&H1&_&_&_&H). rewrite E.
  destruct H as [-> | ->]; [|done]. by destruct (fga_check _ _).
Qed.

(** The walk and the search for free names end. *)
Lemma DownloadZip_ends {Pr : Primitives} {P : Platform} {F : OpenFGA} (s : Service) B caller folder (w : KW) ar :
  db_inv B (w_db w) → (DownloadZip s caller folder (w, ar)).1 ≠ Err out_of_fuel.
Proof.
  intros HI. unfold DownloadZip. destruct (authorize_dest_ends caller folder w) as [Hd Hf].
  destruct (authorize_dest caller folder w) as [[[]|e] w0]; cbn in Hd, Hf; [|cbn; congruence].
  set (seen := match folder with Some f => {[f]} | None => ∅ end).
  pose proof (zipTree_ends s B (w_db w0) ltac:(by rewrite Hd) (S (S (size (folders (w_db w0))))) (S (size (folders (w_db w0))))
    caller folder "" ltac:(lia) (w0, (ar, seen))) as He.
  destruct (zipTree s _ caller folder "" (w0, (ar, seen))) as [r [w1 [ar1 seen1]]].
  destruct He as [_ Hr].
  { split; [done|]. cbn. rewrite <- (size_dom (D := gset string)). transitivity (size (dom (folders (w_db w0)))); [|lia].
    apply subseteq_size. set_solver. }
  destruct r as [[]|e]; [|done]. destruct (call (mret tt : M KW unit) w1) as [r' w3] eqn:E3. cbn.
  apply call_cases in E3 as (?&_&_&_&_&[[= <- <-]|(->&_)]); done.
Qed.

(** C39: a downloaded archive is safe to extract and loses nothing to a name
    clash.  Whatever fails, and whatever the files and folders are called, every
    entry written is a relative path without dot components or back slashes
    (extracting it cannot leave the target directory), and no two entries have the
    same name.  The walk and the search for free names end. *)
Theorem DownloadZip_names {Pr : Primitives} {P : Platform} {F : OpenFGA} (s : Service) B caller folder (w : KW) :
  db_inv B (w_db w) → named (w_db w) →
  let '(r, (w', ar)) := DownloadZip s caller folder (w, []) in
  Forall good_path (names ar) ∧ NoDup (names ar) ∧ r ≠ Err out_of_fuel.
Proof.
  intros HI Hn. pose proof (DownloadZip_ends s B caller folder w [] HI) as Hend. revert Hend. unfold DownloadZip.
  destruct (authorize_dest_ends caller folder w) as [Hd _].
  destruct (authorize_dest caller folder w) as [[[]|e] w0]; cbn in Hd.
  2: { intros Hend. split_and!; [constructor|apply NoDup_nil_2|done]. }
  set (seen := match folder with Some f => {[f]} | None => ∅ end).
  pose proof (zipTree_walks s (S (S (size (folders (w_db w0))))) caller folder "" [] (or_introl eq_refl)
    (w0, ([], seen))) as Hw.
  destruct (zipTree s _ caller folder "" (w0, ([], seen))) as [r [w1 [ar seen1]]].
  destruct Hw as (used&_&E&HE&H1&H2&_); [split; [cbn; by rewrite Hd|done]|].
  cbn [fst snd] in *. change ([] ++ E) with E in HE. rewrite <- HE in H1, H2.
  destruct r as [[]|e]; [|done]. by destruct (call (mret tt : M KW unit) w1) as [r' w3].
Qed.

(** Two files of one name and a folder that tries to climb. *)
Definition zip_db : KDB :=
  with_objects {["1" := MkObject "1" demo_user "a.txt" 0 None "" 0 0; "2" := MkObject "2" demo_user "a.txt" 0 None "" 0 0]}
    (with_folders {["3" := MkFolder "3" demo_user None ".." 0 0]} kdb_empty).

Definition zip_demo :=
  DownloadZip (Pr := toy_primitives) (F := owner_fga) demo_service demo_user None (boot zip_db, []).

Lemma zip_demo_names : (names zip_demo.2.2, is_ok zip_demo.1) = (["a.txt"; "a (2).txt"; "_/"], true).
Proof. vm_compute. reflexivity. Qed.

Lemma zip_db_inv : db_inv ∅ zip_db.
Proof.
  split; cbn; try (by intros r ?%not_elem_of_nil).
  - intros i o Ho. apply lookup_insert_Some in Ho as [[<- <-]|[_ Ho]]; [done|].
    by apply lookup_singleton_Some in Ho as [<- <-].
  - intros i f Hf. by apply lookup_singleton_Some in Hf as [<- <-].
  - intros i r. by rewrite lookup_empty.
  - intros i o f Ho. apply lookup_insert_Some in Ho as [[<- <-]|[_ Ho]]; [done|].
    by apply lookup_singleton_Some in Ho as [<- <-].
  - intros i f p Hf. by apply lookup_singleton_Some in Hf as [<- <-].
  - intros i r. by rewrite lookup_empty.
  - intros i j r q. by rewrite lookup_empty.
  - by apply NoDup_nil_2.
  - intros h c. by rewrite lookup_empty.
  - intros t t' x. by rewrite lookup_empty.
Qed.

Lemma DownloadZip_names_witness :
  Forall good_path (names zip_demo.2.2) ∧ NoDup (names zip_demo.2.2) ∧ zip_demo.1 ≠ Err out_of_fuel.
Proof.
  pose proof (DownloadZip_names (Pr := toy_primitives) (P := counting_platform) (F := owner_fga) demo_service ∅
    demo_user None (boot zip_db) zip_db_inv) as H.
  fold zip_demo in H. destruct zip_demo as [r [w ar]]. apply H. split.
  - intros i o Ho. cbn in Ho. apply lookup_insert_Some in Ho as [[<- <-]|[_ Ho]]; [done|].
    by apply lookup_singleton_Some in Ho as [<- <-].
  - intros i f Hf. cbn in Hf. by apply lookup_singleton_Some in Hf as [<- <-].
Defined.
