(* ===== verification/Termination.v ===== *)
(** * Termination: the walks over the folder hierarchy end

    Ancestors, the cycle check, the collection of a subtree and the archive walk
    (kamara/internal/file/folder.go, zip.go) loop along parent links.  They are
    modelled with as much fuel as there are folders; it is never used up, also when
    the stored links form a cycle. *)

From S2P Require Import Prelude GoText Ids World Pii Pseudonym Conventions Authz Chunker ChunkCrypto Blob Engine Repo RepoInv FileService FolderService Kamara FolderTheorems Zip SubjectData.
Import Pii Chunker.

Section walks.
Context {Pr : Primitives} {P : Platform} {F : OpenFGA}.
Context (s : Service).

Lemma ancestors_loop_total fuel seen cur (w : KW) :
  size (dom (folders (w_db w)) ∖ seen) + 1 < fuel → (ancestors_loop fuel seen cur w).1 ≠ Err out_of_fuel.
Proof.
  revert seen cur w. induction fuel as [|fuel IH]; intros seen cur w Hf; [lia|]. cbn [ancestors_loop].
  destruct cur as [c|]; [|done]. case_bool_decide as Hs; [done|]. rewrite run_bind.
  destruct (GetFolderRow c w) as [r1 w1] eqn:E1. apply query_cases in E1 as (D1&_&_&_&[-> | ->]); [|done].
  destruct (folders (w_db w) !! c) as [f|] eqn:Ec; [|done]. rewrite run_bind.
  specialize (IH ({[c]} ∪ seen) (f_ParentID f) w1).
  destruct (ancestors_loop fuel ({[c]} ∪ seen) (f_ParentID f) w1) as [[l|e] w2]; [done|]. cbn in *.
  intros [= ->]. apply IH; [|done]. rewrite D1.
  assert (c ∈ dom (folders (w_db w)) ∖ seen) as Hc by (apply elem_of_difference; split; [by eapply elem_of_dom_2|done]).
  assert (size (dom (folders (w_db w)) ∖ ({[c]} ∪ seen)) < size (dom (folders (w_db w)) ∖ seen)); [|lia].
  apply subset_size. split; [set_solver|]. intros Hsub. apply Hsub in Hc. set_solver.
Qed.

Lemma Ancestors_total caller i (w : KW) : (Ancestors caller i w).1 ≠ Err out_of_fuel.
Proof.
  unfold Ancestors. rewrite run_bind. destruct (authorize_dest_ends caller (Some i) w) as [_ Ha].
  unfold authorize_dest in Ha. destruct (authorizeFolder caller i w) as [[[]|e] w1]; [|cbn in *; congruence].
  unfold tree_fuel. rewrite run_bind. cbn [gets]. rewrite run_bind.
  pose proof (ancestors_loop_total (S (S (size (folders (w_db w1))))) ∅ (Some i) w1) as H.
  destruct (ancestors_loop _ ∅ (Some i) w1) as [[l|e] w2]; [done|]. cbn in *. apply H.
  rewrite difference_empty_L, size_dom. lia.
Qed.

Lemma wouldCycle_total moving dest (w : KW) : (wouldCycle moving dest w).1 ≠ Err out_of_fuel.
Proof.
  unfold wouldCycle, tree_fuel. rewrite run_bind. cbn [gets].
  destruct (would_cycle_loop _ moving ∅ (Some dest) w) as [r w'] eqn:E.
  apply would_cycle_loop_spec in E as (_&_&[-> | ->]); [done|].
  destruct (climb_total (folders (w_db w)) (S (S (size (folders (w_db w))))) moving ∅ (Some dest)) as [b ->]; [|done].
  rewrite difference_empty_L, size_dom. lia.
Qed.

(** C15: every walk over the folders ends.  In any database that satisfies its
    constraints, whether or not the parent links form a hierarchy, and whatever
    fails: the chain of ancestors, the cycle check of a move, the collection of the
    subtree of a recursive deletion and the walk of an archive with its search for
    free entry names all stop by themselves, within as many steps as there are
    folders and two; and the depth by which an erasure orders the folders is the same
    for any larger number of steps. *)
Theorem tree_walks_terminate B (w : KW) :
  db_inv B (w_db w) →
  (∀ caller i, (Ancestors caller i w).1 ≠ Err out_of_fuel) ∧
  (∀ moving dest, (wouldCycle moving dest w).1 ≠ Err out_of_fuel) ∧
  (∀ caller f root,
     ((fuel ← tree_fuel; collect_tree fuel caller [f] {[root]}) w).1 ≠ Err out_of_fuel) ∧
  (∀ caller folder ar, (DownloadZip s caller folder (w, ar)).1 ≠ Err out_of_fuel) ∧
  (∀ fs f fuel, size (by_id fs) < fuel →
     depth_loop fuel (by_id fs) {[f_ID f]} (f_ParentID f) = depth (by_id fs) f).
Proof.
  intros HI. split_and!.
  - intros caller i. apply Ancestors_total.
  - intros moving dest. apply wouldCycle_total.
  - intros caller f root. unfold tree_fuel. rewrite run_bind. cbn [gets].
    apply (collect_tree_total B); [done|]. cbn [length].
    assert (size (dom (folders (w_db w)) ∖ {[root]}) ≤ size (folders (w_db w))); [|lia].
    rewrite <- (size_dom (D := gset string)). apply subseteq_size. set_solver.
  - intros caller folder ar. by apply (DownloadZip_ends s B).
  - intros fs f fuel. apply depth_any_fuel.
Qed.
End walks.

(** ** Two folders that are each other's parent *)
Module CycleDemo.
#[local] Existing Instance toy_primitives.
#[local] Existing Instance counting_platform.
#[local] Existing Instance owner_fga.

Definition cycle_db : KDB :=
  with_folders {["1" := MkFolder "1" demo_user (Some "2") "a" 0 0; "2" := MkFolder "2" demo_user (Some "1") "b" 0 0]} kdb_empty.

Lemma cycle_db_inv : db_inv ∅ cycle_db.
Proof.
  split; cbn; try (by intros r ?%not_elem_of_nil); try (intros *; by rewrite lookup_empty).
  - intros i f Hf. apply lookup_insert_Some in Hf as [[<- <-]|[_ Hf]]; [done|].
    by apply lookup_singleton_Some in Hf as [<- <-].
  - intros i f p Hf. apply lookup_insert_Some in Hf as [[<- <-]|[_ Hf]].
    + intros [= <-]. by eexists.
    + apply lookup_singleton_Some in Hf as [<- <-]. intros [= <-]. by eexists.
  - by apply NoDup_nil_2.
  - intros t t' x. by rewrite lookup_empty.
Qed.

Lemma tree_walks_terminate_witness :
  (wouldCycle "3" "1" (boot cycle_db)).1 = Ok true ∧
  (wouldCycle "3" "1" (boot cycle_db)).1 ≠ Err out_of_fuel ∧
  (Ancestors demo_user "1" (boot cycle_db)).1 ≠ Err out_of_fuel ∧
  (DownloadZip demo_service demo_user (Some "1") (boot cycle_db, [])).1 ≠ Err out_of_fuel.
Proof.
  destruct (tree_walks_terminate demo_service ∅ (boot cycle_db) cycle_db_inv) as (H1&H2&_&H4&_).
  split_and!; [vm_compute; reflexivity|apply H2|apply H1|apply H4].
Defined.
End CycleDemo.
