(* ===== verification/Task.v ===== *)
(** * Task: Ergonomos's task domain

    ergonomos/internal/store/stores.go (the table), ergonomos/internal/task/task.go
    (the service) and subject_data.go (export and erasure).  Same world, same
    conventions and same authorization client as Kamara, over another database. *)

From S2P Require Import Prelude GoText Ids World Pii Pseudonym Conventions Authz.
Import Pii.

Record Task := MkTask {
  t_ID : string;
  t_Owner : Subject;
  t_Title : string;
  t_Done : bool;
  t_Created : Z;
  t_Updated : Z;
}.
#[global] Instance Task_eq_dec : EqDecision Task.
Proof. solve_decision. Defined.

Record TDB := MkTDB { tasks : gmap string Task; t_conv : Conv }.
Definition tdb_empty : TDB := MkTDB ∅ conv_empty.

#[global] Program Instance TDB_conv : HasConv TDB :=
  {| conv := t_conv; with_conv := λ c d, MkTDB (tasks d) c |}.
Solve All Obligations with (by intros; repeat match goal with d : TDB |- _ => destruct d end).

Abbreviation TW := (world TDB).
Definition with_tasks (x : gmap string Task) (d : TDB) : TDB := MkTDB x (t_conv d).

Module Tasks.
Definition Type_ : string := "ergonomos/task".
Definition Relation : string := "owner".
Definition Permalink (i : string) : string := "/tasks/" +:+ i.
Definition obj (i : string) : string := Type_ +:+ ":" +:+ i.
Definition doc (t : Task) : Doc := MkDoc (t_ID t) Type_ (Permalink (t_ID t)) (t_Owner t) (t_Title t).
Definition task_audit (i : string) : AuditObject := MkAuditObject Type_ i (Permalink i).

(** ** The repository: one statement each *)
Definition by_created (x y : Task) : Prop := (t_Created x <= t_Created y)%Z.
#[global] Instance by_created_dec : RelDecision by_created.
Proof. intros x y. unfold by_created. apply _. Defined.

Definition task_rows (d : TDB) : list Task := snd <$> map_to_list (tasks d).

Definition Insert (t : Task) : M TW unit :=
  stmt (λ d, if bool_decide (is_Some (tasks d !! t_ID t)) then Err ErrUnique
             else Ok (tt, with_tasks (<[t_ID t := t]> (tasks d)) d)).

Definition Get (i : string) : M TW (option Task) := query (λ d, tasks d !! i).

Definition ByIDs (ids : list string) : M TW (list Task) :=
  if bool_decide (ids = []) then mret []
  else query (λ d, merge_sort by_created (filter (λ t, t_ID t ∈ ids) (task_rows d))).

Definition owned_by (o : Subject) (d : TDB) : list Task :=
  merge_sort by_created (filter (λ t, t_Owner t = o) (task_rows d)).

Definition ByOwner (o : Subject) : M TW (list Task) := query (owned_by o).

(** UPDATE ... RETURNING: the row, or none. *)
Definition SetDone_row (i : string) (done : bool) : M TW Task :=
  now_ ← now;
  r ← stmt (λ d, match tasks d !! i with
                 | Some t => let t' := MkTask (t_ID t) (t_Owner t) (t_Title t) done (t_Created t) now_ in
                             Ok (Some t', with_tasks (<[i := t']> (tasks d)) d)
                 | None => Ok (None, d)
                 end);
  match r with Some t => mret t | None => throw ErrNotFound end.

Definition Delete_row (i : string) : M TW unit :=
  stmt (λ d, Ok (tt, with_tasks (delete i (tasks d)) d)).

Definition DeleteByOwner (o : Subject) : M TW unit :=
  stmt (λ d, Ok (tt, with_tasks (filter (λ kt, t_Owner kt.2 ≠ o) (tasks d)) d)).

Section service.
Context {P : Platform} {F : OpenFGA}.

(** ** The service *)
Definition authorize (caller : Subject) (taskID : string) : M TW unit :=
  ok ← Check caller Relation (obj taskID);
  if ok : bool then mret tt
  else throw (ErrText ("task: " +:+ subject_string caller +:+ " not authorized on " +:+ taskID)).

Definition create_tx (t : Task) : M TW unit :=
  InTx (
    Insert t ;;
    Emit (t_Owner t) "ergonomos.task.created" (task_audit (t_ID t)) ;;
    Feed (doc t)).

Definition Create (owner : Subject) (title : string) : M TW Task :=
  if bool_decide (title = "") then throw (ErrText "task: title required")
  else
    now_ ← now;
    i ← new_id;
    let t := MkTask i owner title false now_ now_ in
    create_tx t ;;
    wrap_err "task: writing owner tuple" (Write owner Relation (obj (t_ID t))) ;;
    mret t.

Definition List_ (caller : Subject) : M TW (list Task) :=
  ids ← ListObjects caller Relation Type_; ByIDs ids.

Definition done_action (done : bool) : string :=
  if done then "ergonomos.task.completed" else "ergonomos.task.reopened".

Definition set_done_tx (caller : Subject) (taskID : string) (done : bool) : M TW Task :=
  InTx (
    t ← SetDone_row taskID done;
    Emit caller (done_action done) (task_audit (t_ID t)) ;;
    Feed (doc t) ;;
    mret t).

Definition SetDone (caller : Subject) (taskID : string) (done : bool) : M TW Task :=
  authorize caller taskID ;; set_done_tx caller taskID done.

Definition delete_tx (caller : Subject) (taskID : string) : M TW unit :=
  InTx (
    Emit caller "ergonomos.task.deleted" (task_audit taskID) ;;
    Delete_row taskID ;;
    Remove taskID).

Definition Delete (caller : Subject) (taskID : string) : M TW unit :=
  authorize caller taskID ;;
  delete_tx caller taskID ;;
  Authz.Delete caller Relation (obj taskID).

(** ** Export and erasure (subject_data.go) *)
Record task_export := MkExport {
  x_id : string; x_title : string; x_done : bool; x_created : Z; x_permalink : string }.
Definition export_of (t : Task) : task_export :=
  MkExport (t_ID t) (t_Title t) (t_Done t) (t_Created t) (Permalink (t_ID t)).

Definition ExportSubject (s : Subject) : M TW (option (list task_export)) :=
  ts ← ByOwner s;
  mret (if bool_decide (ts = []) then None else Some (export_of <$> ts)).

Definition EraseSubject (s : Subject) : M TW unit :=
  ts ← ByOwner s;
  DeleteByOwner s ;;
  for_each ts (λ t, Remove (t_ID t)).

Definition subjectData : SubjectData TDB (list task_export) := MkHooks ExportSubject EraseSubject.
End service.

(** ** What holds between calls *)

(** Rows are stored under their id, subjects have one token, and the search index
    is exactly what the tasks derive. *)
Record task_inv (d : TDB) : Prop := {
  ti_key : ∀ i t, tasks d !! i = Some t → t_ID t = i;
  ti_token : one_token (subject_pseudonyms (t_conv d));
  ti_index : ∀ i, search_documents (t_conv d) !! i = doc <$> tasks d !! i;
}.

(** What one mutation did: the row, its audit event and its document together. *)
Definition committed (actor : Subject) (action : string) (i : string) (row : option Task) (d d' : TDB) : Prop :=
  tasks d' = partial_alter (λ _, row) i (tasks d) ∧
  audited actor action (task_audit i) (t_conv d) (t_conv d') ∧
  search_documents (t_conv d') = partial_alter (λ _, doc <$> row) i (search_documents (t_conv d)) ∧
  one_token (subject_pseudonyms (t_conv d')).

Lemma committed_inv actor action i row d d' :
  (∀ t, row = Some t → t_ID t = i) → task_inv d → committed actor action i row d d' → task_inv d'.
Proof.
  intros Hrow [H1 H2 H3] (E1&_&E2&E3). split; [|done|].
  - intros j t. rewrite E1. destruct (decide (j = i)) as [->|Hne].
    + rewrite lookup_partial_alter_eq. auto.
    + rewrite lookup_partial_alter_ne by done. auto.
  - intros j. rewrite E1, E2. destruct (decide (j = i)) as [->|Hne].
    + by rewrite !lookup_partial_alter_eq.
    + by rewrite !lookup_partial_alter_ne.
Qed.

Section specs.
Context {P : Platform} {F : OpenFGA}.

Lemma tx_create t d0 :
  one_token (subject_pseudonyms (t_conv d0)) →
  txspec (λ d, d = d0) (Insert t ;; Emit (t_Owner t) "ergonomos.task.created" (task_audit (t_ID t)) ;; Feed (doc t))
    (λ _ d, tasks d0 !! t_ID t = None ∧
            committed (t_Owner t) "ergonomos.task.created" (t_ID t) (Some t) d0 d).
Proof.
  intros Hone. eapply (txspec_bind _ _ _ (λ _ d, d = with_tasks (<[t_ID t := t]> (tasks d0)) d0 ∧ tasks d0 !! t_ID t = None)).
  { apply txspec_stmt. intros d a d' ->. case_bool_decide as H; [done|]. intros [= <- <-].
    split; [done|]. by apply eq_None_not_Some. }
  intros []. apply (txspec_pure _ (tasks d0 !! t_ID t = None)); [by intros d [_ ?]|]. intros Hn.
  set (d1 := with_tasks (<[t_ID t := t]> (tasks d0)) d0).
  eapply txspec_bind.
  { eapply txspec_weaken; [apply (tx_Emit (HC := TDB_conv) _ _ _ d1 Hone)|by intros d [-> _]|exact (λ _ _ H, H)]. }
  intros []. intros w (c&Hw&H1&H2&H3).
  destruct (tx_Feed (doc t) (w_db w) w eq_refl) as [Hr Hok]. split; [done|]. intros a Ha. rewrite (Hok a Ha).
  split; [done|]. rewrite Hw. destruct H2 as (ev&Hev&Hact&Hobj&Htok).
  split_and!; [done| |cbn; by rewrite H3|done]. by exists ev.
Qed.

Lemma tx_set_done caller i done d0 :
  task_inv d0 →
  txspec (λ d, d = d0) (t ← SetDone_row i done; Emit caller (done_action done) (task_audit (t_ID t)) ;; Feed (doc t) ;; mret t)
    (λ t d, (∃ t0, tasks d0 !! i = Some t0 ∧ t_Title t = t_Title t0 ∧ t_Owner t = t_Owner t0) ∧
            t_ID t = i ∧ t_Done t = done ∧ committed caller (done_action done) i (Some t) d0 d).
Proof.
  intros [Hk Hone _].
  eapply (txspec_bind _ _ _ (λ t d, d = with_tasks (<[i := t]> (tasks d0)) d0 ∧ t_ID t = i ∧ t_Done t = done ∧
    ∃ t0, tasks d0 !! i = Some t0 ∧ t_Title t = t_Title t0 ∧ t_Owner t = t_Owner t0)).
  { unfold SetDone_row. eapply txspec_bind.
    { apply (txspec_keeps (λ d, d = d0)). intros rest. apply keeps_gets. }
    intros now_. eapply txspec_bind; [apply (txspec_stmt _ _ (λ r d, match r with
      | Some t => d = with_tasks (<[i := t]> (tasks d0)) d0 ∧ t_ID t = i ∧ t_Done t = done ∧
          ∃ t0, tasks d0 !! i = Some t0 ∧ t_Title t = t_Title t0 ∧ t_Owner t = t_Owner t0
      | None => True end))|].
    - intros d a d' ->. destruct (tasks d0 !! i) as [t|] eqn:E; intros [= <- <-]; [|done].
      split_and!; [done|exact (Hk i t E)|done|]. exists t. done.
    - intros [t|]; [|apply txspec_throw].
      eapply txspec_weaken; [apply txspec_ret|exact (λ _ H, H)|]. by intros a d [-> H]. }
  intros t. apply (txspec_pure _ (t_ID t = i ∧ t_Done t = done ∧
    ∃ t0, tasks d0 !! i = Some t0 ∧ t_Title t = t_Title t0 ∧ t_Owner t = t_Owner t0)); [by intros d (_&?)|].
  intros (Hi&Hd&Ht0). set (d1 := with_tasks (<[i := t]> (tasks d0)) d0). eapply txspec_bind.
  { eapply txspec_weaken; [apply (tx_Emit (HC := TDB_conv) _ _ _ d1 Hone)|by intros d [-> _]|exact (λ _ _ H, H)]. }
  intros []. eapply (txspec_bind _ _ _ (λ _ d, committed caller (done_action done) i (Some t) d0 d)).
  - intros w (c&Hw&H1&H2&H3). destruct (tx_Feed (doc t) (w_db w) w eq_refl) as [Hr Hok].
    split; [done|]. intros a Ha. rewrite (Hok a Ha), Hw. destruct H2 as (ev&Hev&Hact&Hobj&Htok).
    split_and!; [done| |cbn; by rewrite H3, Hi|done]. exists ev. by rewrite <- Hi.
  - intros []. eapply txspec_weaken; [apply txspec_ret|exact (λ _ H, H)|]. by intros a d [-> H].
Qed.

Lemma tx_delete caller i d0 :
  one_token (subject_pseudonyms (t_conv d0)) →
  txspec (λ d, d = d0) (Emit caller "ergonomos.task.deleted" (task_audit i) ;; Delete_row i ;; Remove i)
    (λ _ d, committed caller "ergonomos.task.deleted" i None d0 d).
Proof.
  intros Hone. eapply txspec_bind; [apply (tx_Emit (HC := TDB_conv) _ _ _ d0 Hone)|]. intros []. intros w (c&Hw&H1&H2&H3).
  cut (txspec (λ d, d = w_db w) (Delete_row i ;; Remove i) (λ _ d, committed caller "ergonomos.task.deleted" i None d0 d));
    [by intros H; apply (H w)|].
  eapply (txspec_bind _ _ _ (λ _ d, d = with_tasks (delete i (tasks d0)) (w_db w))).
  { apply txspec_stmt. intros d a d' -> [= <- <-]. by rewrite Hw. }
  intros [] w2 Hw2. destruct (tx_Remove i (w_db w2) w2 eq_refl) as [Hr Hok]. split; [done|].
  intros a Ha. rewrite (Hok a Ha), Hw2, Hw. split_and!; [done|done|cbn; by rewrite H3|done].
Qed.
End specs.

(** ** The domain as a transition system *)
Inductive top :=
  | TCreate (owner : Subject) (title : string)
  | TSetDone (caller : Subject) (i : string) (done : bool)
  | TDelete (caller : Subject) (i : string).

(** What an operation does when it takes effect. *)
Definition effect (o : top) (d d' : TDB) : Prop :=
  match o with
  | TCreate owner title => ∃ t, t_Owner t = owner ∧ t_Title t = title ∧ t_Done t = false ∧
      tasks d !! t_ID t = None ∧ committed owner "ergonomos.task.created" (t_ID t) (Some t) d d'
  | TSetDone caller i done => ∃ t0 t, tasks d !! i = Some t0 ∧ t_ID t = i ∧ t_Title t = t_Title t0 ∧
      t_Owner t = t_Owner t0 ∧ t_Done t = done ∧ committed caller (done_action done) i (Some t) d d'
  | TDelete caller i => committed caller "ergonomos.task.deleted" i None d d'
  end.

Lemma effect_inv o d d' : task_inv d → effect o d d' → task_inv d'.
Proof.
  intros HI. destruct o; cbn; intros He.
  - destruct He as (t&_&_&_&_&H). eapply committed_inv; [|done|exact H]. by intros ? [= ->].
  - destruct He as (t0&t&_&Hi&_&_&_&H). eapply committed_inv; [|done|exact H]. by intros ? [= <-].
  - eapply committed_inv; [|done|exact He]. done.
Qed.

Section system.
Context {P : Platform} {F : OpenFGA}.

Definition run_top (o : top) : M TW unit :=
  match o with
  | TCreate owner title => Create owner title ;; mret tt
  | TSetDone caller i done => SetDone caller i done ;; mret tt
  | TDelete caller i => Delete caller i
  end.

(** The environment leaves the database alone. *)
Inductive task_run : TW → TW → Prop :=
  | task_refl w : task_run w w
  | task_op o w w' : task_run (run_top o w).2 w' → task_run w w'
  | task_env w w1 w' : w_db w1 = w_db w → task_run w1 w' → task_run w w'.

Lemma frames_fga f (w : TW) : w_db (fga_update f w).2 = w_db w.
Proof. destruct (fga_update f w) as [r w'] eqn:E. by apply fga_update_cases in E as (?&_). Qed.

Lemma authorize_frames caller i (w : TW) : w_db (authorize caller i w).2 = w_db w.
Proof.
  unfold authorize. rewrite run_bind.
  destruct (Check_frames_all caller Relation (obj i) w) as (r&w'&E&Hd&_). rewrite E.
  by destruct r as [[]|e].
Qed.

(** A failed transaction changes nothing; a committed one did all it does. *)
Lemma InTx_effect {A} (fn : M TW A) (R : A → TDB → Prop) w r w' :
  txspec (λ d, d = w_db w) fn R → InTx fn w = (r, w') →
  (w_db w' = w_db w ∧ is_ok r = false) ∨ ∃ a, R a (w_db w').
Proof.
  intros H E. destruct (InTx_txspec _ _ _ _ _ _ H eq_refl E) as [_ [?|(a&?&_)]]; [by left|right; eauto].
Qed.

Lemma run_top_spec o w :
  task_inv (w_db w) →
  let '(r, w') := run_top o w in
  (w_db w' = w_db w ∧ is_ok r = false) ∨ effect o (w_db w) (w_db w').
Proof.
  intros HI. pose proof (ti_token _ HI) as Hone. destruct o as [owner title|caller i done|caller i]; cbn [run_top effect].
  - rewrite run_bind. unfold Create. case_bool_decide; [by left|]. rewrite run_bind. cbn [now gets].
    rewrite run_bind. destruct (new_id_frame w) as (i&w1&E1&D1&_). rewrite E1.
    set (t := MkTask i owner title false (w_now w) (w_now w)). rewrite run_bind. cbv zeta. fold t.
    destruct (create_tx t w1) as [r2 w2] eqn:E2. rewrite <- D1.
    destruct (InTx_effect _ _ _ _ _ (tx_create t (w_db w1) ltac:(by rewrite D1)) E2) as [[D2 Hr]|(a&Hn&Hc)].
    { destruct r2; [done|]. by left. }
    destruct r2 as [[]|e]; [|right; by exists t]. rewrite run_bind. unfold wrap_err.
    pose proof (frames_fga (λ T, fga_write T (tuple owner Relation (obj (t_ID t)))) w2) as D3.
    fold (Write (D := TDB) owner Relation (obj (t_ID t))) in D3.
    destruct (Write owner Relation (obj (t_ID t)) w2) as [[[]|e] w3]; cbn in D3 |- *; right; exists t; by rewrite D3.
  - rewrite run_bind. unfold SetDone. rewrite run_bind. pose proof (authorize_frames caller i w) as D1.
    destruct (authorize caller i w) as [[[]|e] w1]; cbn in D1; [|by left]. rewrite <- D1 in HI |- *.
    destruct (set_done_tx caller i done w1) as [r2 w2] eqn:E2.
    destruct (InTx_effect _ _ _ _ _ (tx_set_done caller i done (w_db w1) HI) E2)
      as [[D2 Hr]|(t&(t0&H0&Ht&Ho)&Hi&Hdn&Hc)].
    { destruct r2; [done|]. by left. }
    destruct r2; right; by exists t0, t.
  - unfold Delete. rewrite run_bind. pose proof (authorize_frames caller i w) as D1.
    destruct (authorize caller i w) as [[[]|e] w1]; cbn in D1; [|by left]. rewrite <- D1 in Hone |- *.
    rewrite run_bind. destruct (delete_tx caller i w1) as [r2 w2] eqn:E2.
    destruct (InTx_effect _ _ _ _ _ (tx_delete caller i (w_db w1) Hone) E2) as [[D2 Hr]|(a&Hc)].
    { destruct r2; [done|]. by left. }
    destruct r2 as [[]|e]; [|by right].
    unfold Authz.Delete. destruct (fga_update _ w2) as [r3 w3] eqn:E3.
    apply fga_update_cases in E3 as (D3&_). right. by rewrite D3.
Qed.

Lemma task_run_inv w w' : task_run w w' → task_inv (w_db w) → task_inv (w_db w').
Proof.
  induction 1 as [|o w w' _ IH|w w1 w' Hd _ IH]; intros HI; [done| |apply IH; by rewrite Hd].
  apply IH. pose proof (run_top_spec o w HI) as H. destruct (run_top o w) as [r w1]. cbn.
  destruct H as [[-> _]|H]; [done|]. by eapply effect_inv.
Qed.

Lemma empty_inv : task_inv tdb_empty.
Proof.
  split; cbn.
  - intros i t. by rewrite lookup_empty.
  - intros t t' x. by rewrite lookup_empty.
  - intros i. by rewrite !lookup_empty.
Qed.
End system.

(** ** Erasure *)
Section erasure.
Context {P : Platform} {F : OpenFGA}.

Lemma elem_of_owned o d t : t ∈ owned_by o d ↔ t_Owner t = o ∧ ∃ i, tasks d !! i = Some t.
Proof.
  unfold owned_by, task_rows. rewrite merge_sort_Permutation, list_elem_of_filter, list_elem_of_fmap.
  split; intros [H1 H2]; split; try done.
  - destruct H2 as ([i t']&->&H2). exists i. by apply elem_of_map_to_list.
  - destruct H2 as [i H2]. exists (i, t). split; [done|]. by apply elem_of_map_to_list.
Qed.

(** Removing documents one by one: tasks untouched, other documents kept. *)
Lemma remove_docs (ids : list string) (w : TW) r w' :
  for_each ids Remove w = (r, w') →
  tasks (w_db w') = tasks (w_db w) ∧
  subject_pseudonyms (t_conv (w_db w')) = subject_pseudonyms (t_conv (w_db w)) ∧
  audit_events (t_conv (w_db w')) = audit_events (t_conv (w_db w)) ∧
  (∀ i, i ∉ ids → search_documents (t_conv (w_db w')) !! i = search_documents (t_conv (w_db w)) !! i) ∧
  (r = Ok tt → ∀ i, i ∈ ids → search_documents (t_conv (w_db w')) !! i = None).
Proof.
  revert w. induction ids as [|x ids IH]; intros w; cbn [for_each].
  { intros [= <- <-]. split_and!; [done..|]. by intros _ i ?%not_elem_of_nil. }
  rewrite run_bind. destruct (Remove x w) as [r1 w1] eqn:E1.
  apply (Remove_spec (HC := TDB_conv)) in E1 as [_ H1].
  assert (tasks (w_db w1) = tasks (w_db w) ∧
    subject_pseudonyms (t_conv (w_db w1)) = subject_pseudonyms (t_conv (w_db w)) ∧
    audit_events (t_conv (w_db w1)) = audit_events (t_conv (w_db w)) ∧
    (∀ i, i ≠ x → search_documents (t_conv (w_db w1)) !! i = search_documents (t_conv (w_db w)) !! i) ∧
    (is_ok r1 = true → search_documents (t_conv (w_db w1)) !! x = None)) as (A1&A2&A3&A4&A5).
  { destruct H1 as [[-> Hr]|[Hd Hc]]; [split_and!; [done..|congruence]|].
    rewrite Hd. cbn in Hc |- *. rewrite Hc. cbn. split_and!; [done..| |].
    - intros i Hi. by apply lookup_delete_ne.
    - intros _. apply lookup_delete_eq. }
  destruct r1 as [[]|e].
  - intros (B1&B2&B3&B4&B5)%IH. split_and!; try congruence.
    + intros i [Hne Hi]%not_elem_of_cons. rewrite B4, A4; done.
    + intros Hr i Hi. apply elem_of_cons in Hi as [->|Hi]; [|by apply B5].
      destruct (decide (x ∈ ids)) as [Hx|Hx]; [by apply B5|]. rewrite B4 by done. by apply A5.
  - intros [= <- <-]. split_and!; [done..| |done]. intros i [Hne _]%not_elem_of_cons. by apply A4.
Qed.

(** The documents of the erased tasks. *)
Lemma erase_tasks_spec s w r w' :
  task_inv (w_db w) → EraseSubject s w = (r, w') →
  (tasks (w_db w') = tasks (w_db w) ∧ is_ok r = false ∧ t_conv (w_db w') = t_conv (w_db w)) ∨
  (tasks (w_db w') = filter (λ kt, t_Owner kt.2 ≠ s) (tasks (w_db w)) ∧
   (is_ok r = true → task_inv (w_db w'))).
Proof.
  intros [Hk Ho Hx]. unfold EraseSubject. rewrite run_bind.
  destruct (ByOwner s w) as [r1 w1] eqn:E1. apply query_cases in E1 as (D1&_&_&_&[-> | ->]).
  2: { intros [= <- <-]. left. by rewrite D1. }
  rewrite run_bind. destruct (DeleteByOwner s w1) as [r2 w2] eqn:E2.
  apply stmt_cases in E2 as (_&_&_&[(e&->&D2&_)|(a&d&[= <- <-]&D2&Hr2)]).
  { intros [= <- <-]. left. by rewrite D2, D1. }
  rewrite D1 in D2. set (ts := owned_by s (w_db w)).
  destruct Hr2 as [-> | ->]; [|intros [= <- <-]; right; rewrite D2; done].
  assert (for_each ts (λ t, Remove (t_ID t)) = for_each (t_ID <$> ts) Remove) as ->.
  { induction ts as [|x ts IH]; cbn; [done|]. by rewrite IH. }
  intros (B1&B2&B3&B4&B5)%remove_docs. right. rewrite D2 in *. cbn in *. split; [done|].
  intros Hr. destruct r as [[]|e]; [|done]. specialize (B5 eq_refl). split.
  - intros i t. rewrite B1. intros [Ht _]%map_lookup_filter_Some. auto.
  - by rewrite B2.
  - intros i. rewrite B1. destruct (decide (i ∈ t_ID <$> ts)) as [Hi|Hi].
    + rewrite B5 by done. symmetry. apply fmap_None, map_lookup_filter_None. right. intros t Ht.
      apply list_elem_of_fmap in Hi as (t'&->&(Ho'&j&Hj)%elem_of_owned).
      rewrite (Hk j t' Hj) in Ht. assert (t = t') as -> by congruence. cbn. by intros [].
    + rewrite B4, Hx by done. destruct (tasks (w_db w) !! i) as [t|] eqn:Et.
      * assert (t_Owner t ≠ s) as Hne.
        { intros Hs. apply Hi, list_elem_of_fmap. exists t. split; [symmetry; by apply Hk|].
          apply elem_of_owned. eauto. }
        by rewrite (proj2 (map_lookup_filter_Some _ _ _ t)).
      * rewrite (proj2 (map_lookup_filter_None _ _ _)); [done|by left].
Qed.
End erasure.

(** ** Claims *)
Section claims.
Context {P : Platform} {F : OpenFGA}.

(** the four conventions compose.  In every state reachable by any
    operations under any faults the search index holds exactly the documents the
    tasks derive; and every mutation, whatever fails, either changes nothing and
    reports an error or commits its row, exactly one audit event that names it
    and resolves to its actor, and its search document together. *)
Theorem task_mutations_atomic w o :
  task_run (boot tdb_empty) w →
  (∀ i, search_documents (t_conv (w_db w)) !! i = doc <$> tasks (w_db w) !! i) ∧
  let '(r, w') := run_top o w in
  (w_db w' = w_db w ∧ is_ok r = false) ∨ effect o (w_db w) (w_db w').
Proof.
  intros Hr. pose proof (task_run_inv _ _ Hr empty_inv) as HI. split; [apply (ti_index _ HI)|].
  by apply run_top_spec.
Qed.

(** erasure of a person removes all of their tasks and nothing else: in a
    reachable state, rows of other owners are kept whatever fails, the rows of the
    person go all or none, and when erasure reports success an export of the person
    finds nothing and the search index is again exactly what the tasks derive. *)
Theorem task_erase_complete w s :
  task_run (boot tdb_empty) w →
  let '(r, w') := EraseSubject s w in
  (∀ i t, t_Owner t ≠ s → tasks (w_db w) !! i = Some t ↔ tasks (w_db w') !! i = Some t) ∧
  (tasks (w_db w') = tasks (w_db w) ∧ is_ok r = false ∨ owned_by s (w_db w') = []) ∧
  (is_ok r = true →
    (∀ i, search_documents (t_conv (w_db w')) !! i = doc <$> tasks (w_db w') !! i) ∧
    (w_faults w' = [] → ExportSubject s w' = (Ok None, w'))).
Proof.
  intros Hr. pose proof (task_run_inv _ _ Hr empty_inv) as HI.
  destruct (EraseSubject s w) as [r w'] eqn:E.
  destruct (erase_tasks_spec _ _ _ _ HI E) as [(D&Hno&_)|[D Hinv]].
  - rewrite D. split_and!; [naive_solver|by left|congruence].
  - assert (owned_by s (w_db w') = []) as Hnil.
    { destruct (owned_by s (w_db w')) as [|t l] eqn:El; [done|].
      assert (t ∈ owned_by s (w_db w')) as Ht by (rewrite El; left).
      apply elem_of_owned in Ht as (Ho&i&Hi). rewrite D in Hi.
      by apply map_lookup_filter_Some in Hi as [_ Hi]. }
    split_and!; [|by right|].
    + intros i t Ho. rewrite D, map_lookup_filter_Some. cbn. naive_solver.
    + intros Hok. split; [apply (ti_index _ (Hinv Hok))|]. intros Hf. unfold ExportSubject, ByOwner.
      rewrite run_bind, run_query_nil by done. by rewrite Hnil.
Qed.
End claims.

(** ** Witnesses *)
Module Demo.
#[local] Existing Instance counting_platform.
#[local] Existing Instance owner_fga.

Definition user : Subject := MkSubject "t" "u1".
Definition w1 : TW := (run_top (TCreate user "write it down") (boot tdb_empty)).2.

Lemma w1_one_task : size (tasks (w_db w1)) = 1 ∧ length (audit_events (t_conv (w_db w1))) = 1.
Proof. split; vm_compute; reflexivity. Qed.

Lemma w1_run : task_run (boot tdb_empty) w1.
Proof. apply (task_op (TCreate user "write it down")), task_refl. Qed.

Lemma task_mutations_atomic_witness :
  (∀ i, search_documents (t_conv (w_db w1)) !! i = doc <$> tasks (w_db w1) !! i) ∧
  let '(r, w') := run_top (TCreate user "again") w1 in
  (w_db w' = w_db w1 ∧ is_ok r = false) ∨ effect (TCreate user "again") (w_db w1) (w_db w').
Proof. apply (task_mutations_atomic w1 (TCreate user "again") w1_run). Defined.

Lemma task_erase_complete_witness :
  let '(r, w') := EraseSubject user w1 in
  (∀ i t, t_Owner t ≠ user → tasks (w_db w1) !! i = Some t ↔ tasks (w_db w') !! i = Some t) ∧
  (tasks (w_db w') = tasks (w_db w1) ∧ is_ok r = false ∨ owned_by user (w_db w') = []) ∧
  (is_ok r = true →
    (∀ i, search_documents (t_conv (w_db w')) !! i = doc <$> tasks (w_db w') !! i) ∧
    (w_faults w' = [] → ExportSubject user w' = (Ok None, w'))).
Proof. apply (task_erase_complete w1 user w1_run). Defined.
End Demo.
End Tasks.
