(* ===== verification/SubjectErase.v ===== *)
(** * SubjectErase: erasure is safe and complete

    The order in which folders go, what an erasure leaves in the tables, and the
    claim about every reachable world. *)

From S2P Require Import Prelude GoText Ids World Pii Pseudonym Conventions Authz Chunker ChunkCrypto Blob Engine Repo RepoInv FileService FolderService SubjectData KamaraSafety EraseSteps Kamara FolderTheorems.
Import Pii Chunker.

(** ** Children before parents *)
Lemma by_id_lookup fs i f :
  by_id fs !! i = Some f → f ∈ fs ∧ f_ID f = i.
Proof.
  unfold by_id. cut (∀ m, foldl put_folder m fs !! i = Some f → m !! i = Some f ∨ f ∈ fs ∧ f_ID f = i).
  { intros H Hf. apply H in Hf as [Hf|?]; [by rewrite lookup_empty in Hf|done]. }
  induction fs as [|x fs IH]; intros m; cbn; [by left|]. intros [H|[H1 H2]]%IH.
  - unfold put_folder in H. apply lookup_insert_Some in H as [[<- <-]|[_ H]]; [right; split; [left|done]|by left].
  - right. split; [by right|done].
Qed.

Lemma by_id_in fs f :
  NoDup (f_ID <$> fs) → f ∈ fs → by_id fs !! f_ID f = Some f.
Proof.
  unfold by_id. intros Hnd Hf.
  cut (∀ m, foldl put_folder m fs !! f_ID f = Some f); [auto|].
  induction fs as [|x fs IH]; intros m; [by apply not_elem_of_nil in Hf|]. cbn in Hnd |- *.
  apply NoDup_cons in Hnd as [Hx Hnd]. apply elem_of_cons in Hf as [->|Hf]; [|by apply IH].
  clear IH. revert m. cut (∀ m, m !! f_ID x = Some x → foldl put_folder m fs !! f_ID x = Some x).
  { intros H m. apply H. apply lookup_insert_eq. }
  induction fs as [|y fs IH]; intros m Hm; cbn; [done|]. cbn in Hx. apply not_elem_of_cons in Hx as [Hy Hx].
  apply IH; [done|by apply NoDup_cons in Hnd as [_ ?]|]. unfold put_folder. by rewrite lookup_insert_ne.
Qed.

(** With no cycle among the set, the walk never meets a folder again, and its
    length does not depend on what was seen before. *)
Definition acyclic (m : gmap string Folder) : Prop := ∀ i, rooted m i.

Definition up (m : gmap string Folder) (i p : string) : Prop := ∃ f, m !! i = Some f ∧ f_ParentID f = Some p.

Lemma up_no_cycle m i : rooted m i → ¬ tc (up m) i i.
Proof.
  induction 1 as [i _ IH]. intros Hc.
  assert (∃ p, up m i p ∧ (p = i ∨ tc (up m) p i)) as (p&(f&Hf&Hp)&Hpi)
    by (inversion Hc; subst; eauto).
  apply (IH f p Hf Hp). destruct Hpi as [->|Hpi]; [done|]. eapply tc_r; [exact Hpi|by exists f].
Qed.

Lemma depth_loop_seen m fuel fuel' seen seen' cur :
  acyclic m →
  (∀ x c, cur = Some c → x ∈ seen ∪ seen' → is_Some (m !! c) → tc (up m) x c) →
  size (dom m ∖ seen) < fuel → size (dom m ∖ seen') < fuel' →
  depth_loop fuel m seen cur = depth_loop fuel' m seen' cur.
Proof.
  intros Ha. revert fuel' seen seen' cur. induction fuel as [|fuel IH]; intros fuel' seen seen' cur Hs Hf Hf'; [lia|].
  destruct fuel' as [|fuel']; [lia|]. cbn. destruct cur as [c|]; [|done].
  destruct (m !! c) as [p|] eqn:Ec; [|by repeat case_bool_decide].
  assert (∀ x, x ∈ seen ∪ seen' → tc (up m) x c) as Hx by (intros; apply Hs; eauto).
  assert (c ∉ seen ∪ seen') as Hc by (intros Hin; by apply (up_no_cycle m c (Ha c)), Hx).
  rewrite !bool_decide_eq_false_2 by set_solver. f_equal.
  assert (∀ sn, c ∉ sn → size (dom m ∖ ({[c]} ∪ sn)) < size (dom m ∖ sn)) as Hlt.
  { intros sn Hsn. apply subset_size. split; [set_solver|]. intros Hsub.
    assert (c ∈ dom m ∖ sn) as Hin by (apply elem_of_difference; split; [by eapply elem_of_dom_2|done]).
    apply Hsub in Hin. set_solver. }
  apply IH.
  - intros x c' Hc' Hin _. assert (up m c c') as Hup by (by exists p).
    destruct (decide (x = c)) as [->|Hne]; [by apply tc_once|]. eapply tc_r; [apply Hx; set_solver|done].
  - specialize (Hlt seen ltac:(set_solver)). lia.
  - specialize (Hlt seen' ltac:(set_solver)). lia.
Qed.

Lemma depth_child m f p :
  acyclic m → m !! f_ID f = Some f → f_ParentID f = Some (f_ID p) → m !! f_ID p = Some p →
  depth m f = S (depth m p).
Proof.
  intros Ha Hf Hp Hm. unfold depth at 1. rewrite Hp. cbn [depth_loop].
  assert (f_ID p ≠ f_ID f) as Hne.
  { intros E. apply (up_no_cycle m (f_ID f) (Ha _)), tc_once. exists f. split; [done|congruence]. }
  rewrite bool_decide_eq_false_2 by set_solver. rewrite Hm. f_equal. unfold depth.
  assert (size (dom m ∖ ({[f_ID p]} ∪ {[f_ID f]})) < size m ∧ size (dom m ∖ {[f_ID p]}) < S (size m)) as [H1 H2].
  { rewrite <- (size_dom (D := gset string) m). split.
    - apply subset_size. split; [set_solver|]. intros Hsub.
      assert (f_ID f ∈ dom m) as Hin by (by eapply elem_of_dom_2). apply Hsub in Hin. set_solver.
    - apply Nat.lt_succ_r, subseteq_size. set_solver. }
  apply depth_loop_seen; [done| |done|done].
  intros x c Hc Hx _. assert (up m (f_ID p) c) as Hup by (by exists p).
  assert (up m (f_ID f) (f_ID p)) as Hup' by (by exists f).
  assert (x = f_ID p ∨ x = f_ID f) as [->| ->] by set_solver; [by apply tc_once|].
  eapply tc_r; [by apply tc_once|done].
Qed.

(** folders are deleted children first.  The order is a permutation of the
    folders it is given, and when their parent relation has no cycle, no folder
    comes before a folder whose parent it is. *)
Theorem deepestFirst_children_first fs :
  deepestFirst fs ≡ₚ fs ∧
  (NoDup (f_ID <$> fs) → acyclic (by_id fs) →
   ∀ before p after f, deepestFirst fs = before ++ p :: after → f ∈ after → f_ParentID f ≠ Some (f_ID p)).
Proof.
  split; [apply merge_sort_Permutation|]. intros Hnd Ha before p after f E Hf Hp.
  assert (Transitive (deeper (by_id fs))) as Ht by (intros x y z; unfold deeper; lia).
  assert (Total (deeper (by_id fs))) as Hto by (intros x y; unfold deeper; lia).
  pose proof (StronglySorted_merge_sort (deeper (by_id fs)) fs) as Hs.
  fold (deepestFirst fs) in Hs. rewrite E in Hs.
  assert (f ∈ fs ∧ p ∈ fs) as [Hff Hpf].
  { split; rewrite <- (merge_sort_Permutation (deeper (by_id fs))); fold (deepestFirst fs); rewrite E; set_solver. }
  apply StronglySorted_app in Hs as (_&_&Hs). apply StronglySorted_inv in Hs as [_ Hs].
  rewrite Forall_forall in Hs. specialize (Hs f Hf). unfold deeper in Hs.
  rewrite (depth_child (by_id fs) f p) in Hs by (done || by apply by_id_in). lia.
Qed.

(** ** Claims *)
Section claims.
Context {Pr : Primitives} {PrOk : PrimitivesOk} {P : Platform} {F : OpenFGA} {Mi : Mime}.
Context (sv : Service).

Lemma ExportSubject_none s w :
  w_faults w = [] → (∀ i o, objects (w_db w) !! i = Some o → o_Owner o ≠ s) →
  (∀ i f, folders (w_db w) !! i = Some f → f_Owner f ≠ s) → SubjectData.ExportSubject s w = (Ok None, w).
Proof.
  intros Hf Ho Hd. unfold SubjectData.ExportSubject, ByOwner, FoldersByOwner.
  rewrite run_bind, run_query_nil, run_bind, run_query_nil by done.
  assert (select (λ o, o_Owner o = s) (objects (w_db w)) = []) as ->.
  { apply elem_of_nil_inv. intros o [Hs [i Hi]]%elem_of_select. by apply (Ho i o). }
  assert (select (λ f, f_Owner f = s) (folders (w_db w)) = []) as ->; [|done].
  apply elem_of_nil_inv. intros f [Hs [i Hi]]%elem_of_select. by apply (Hd i f).
Qed.
(** C30: erasure of a person's files is safe and complete.  From every reachable
    world (in which failed erasures may have left the chunks [L] behind) and
    whatever fails on the way (it is not one transaction): every manifest row that
    is left still has its blob, which decrypts; no chunk is counted below the
    manifest rows that name it, and every chunk outside [L] is counted exactly, and
    positively, when the erasure reports success, or when it is not a chunk of that
    person's files; files and folders of others are untouched; and when erasure
    reports success the person has no file or folder left, so that an export finds
    nothing. *)
Theorem kamara_erase_safe L w s :
  run_losing sv L (boot kdb_empty) w →
  let '(r, w') := SubjectData.EraseSubject s w in
  (∀ row, row ∈ version_chunks (w_db w') → ∃ pt, opens (s_cipher sv) (w_blobs w') (m_hash row) pt) ∧
  (∀ h ch, chunks_tbl (w_db w') !! h = Some ch →
     (Z.of_nat (refs_to h (w_db w')) <= c_refs ch)%Z ∧
     (h ∉ L → is_ok r = true ∨ h ∉ erased_hashes s (w_db w) →
      c_refs ch = Z.of_nat (refs_to h (w_db w')) ∧ 0 < refs_to h (w_db w'))) ∧
  (∀ i o, o_Owner o ≠ s → objects (w_db w) !! i = Some o ↔ objects (w_db w') !! i = Some o) ∧
  (∀ i f, f_Owner f ≠ s → folders (w_db w) !! i = Some f ↔ folders (w_db w') !! i = Some f) ∧
  (is_ok r = true →
    (∀ i o, objects (w_db w') !! i = Some o → o_Owner o ≠ s) ∧
    (∀ i f, folders (w_db w') !! i = Some f → f_Owner f ≠ s) ∧
    (w_faults w' = [] → SubjectData.ExportSubject s w' = (Ok None, w'))).
Proof.
  intros Hr. pose proof (run_losing_inv sv (Lk := any_leak) _ _ _ Hr (λ _ _, I) (boot_inv sv)) as HI.
  destruct (SubjectData.EraseSubject s w) as [r w'] eqn:E.
  destruct (EraseSubject_spec sv (λ _, False) w s w r w' (evolves_refl sv _ w HI) ltac:(by intros i _ []) (λ _ _, I) E)
    as (([HI' _]&Hok'&_)&Ho&Hf).
  destruct HI as [HI _]. split_and!.
  - intros row Hrow. by apply Hok', (inv_blobs _ _ HI').
  - pose (Lk := (λ h, h ∈ L ∨ is_ok r = false ∧ h ∈ erased_hashes s (w_db w)) : Leaks).
    assert (kam_inv (Lk := Lk) sv w) as HL
      by (apply (run_losing_inv sv _ _ _ Hr); [intros h Hh; by left|apply boot_inv]).
    assert (kam_inv (Lk := Lk) sv w') as [HL' _].
    { apply (evolves_inv sv (λ _, False) w). eapply EraseSubject_evolves; [exact HL|by intros i _ []|exact E|].
      intros Hn h Hh. by right. }
    intros h ch Hc. destruct (inv_refs _ _ HL' h ch Hc) as [H1 H2]. split; [done|]. intros Hn Hor. apply H2.
    intros [?|[Hno Hh]]; [done|]. destruct Hor as [Hy|Hh']; [congruence|done].
  - intros i o. apply (thinned_others _ _ _ _ (λ o, o_Owner o ≠ s) i o Ho).
    intros y Hy Hne (o'&Ho'&Hs)%(elem_of_object_ids _ _ _ _ HI). congruence.
  - intros i f. apply (thinned_others _ _ _ _ (λ f, f_Owner f ≠ s) i f Hf).
    intros y Hy Hne (f'&Hf'&Hs)%(elem_of_folder_ids _ _ _ _ HI). congruence.
  - intros Hok. destruct Ho as [Ho1 Ho2], Hf as [Hf1 Hf2].
    assert (∀ i o, objects (w_db w') !! i = Some o → o_Owner o ≠ s) as HO.
    { intros i o Hi Hs. destruct (Ho1 i) as [E1|[E1 _]]; [|congruence].
      rewrite Ho2 in Hi; [done|done|]. apply (elem_of_object_ids _ _ _ _ HI). exists o. split; congruence. }
    assert (∀ i f, folders (w_db w') !! i = Some f → f_Owner f ≠ s) as HF.
    { intros i f Hi Hs. destruct (Hf1 i) as [E1|[E1 _]]; [|congruence].
      rewrite Hf2 in Hi; [done|done|]. apply (elem_of_folder_ids _ _ _ _ HI). exists f. split; congruence. }
    split_and!; [done|done|]. intros Hnf. by apply ExportSubject_none.
Qed.
End claims.

(** ** Witnesses *)
Module EraseDemo.
Definition parent : Folder := MkFolder "p" demo_user None "a" 0 0.
Definition child : Folder := MkFolder "q" demo_user (Some "p") "b" 1 1.

Lemma deepestFirst_children_first_witness : deepestFirst [parent; child] = [child; parent] ∧
  ∀ before p after f, deepestFirst [parent; child] = before ++ p :: after → f ∈ after →
    f_ParentID f ≠ Some (f_ID p).
Proof.
  split; [vm_compute; reflexivity|]. apply (deepestFirst_children_first [parent; child]).
  - eval_decide.
  - assert (by_id [parent; child] = {["p" := parent; "q" := child]}) as -> by (vm_compute; reflexivity).
    assert (rooted {["p" := parent; "q" := child]} "p") as Hp.
    { constructor. intros f p Hf Hp. rewrite lookup_insert_eq in Hf. injection Hf as <-. done. }
    intros i. constructor. intros f p Hf Hfp.
    apply lookup_insert_Some in Hf as [[<- <-]|[_ Hf]]; [done|].
    apply lookup_singleton_Some in Hf as [<- <-]. injection Hfp as <-. done.
Defined.

#[local] Existing Instance toy_primitives.
#[local] Existing Instance toy_primitives_ok.
#[local] Existing Instance counting_platform.
#[local] Existing Instance owner_fga.
#[local] Existing Instance no_mime.

Lemma erased_ok : is_ok (SubjectData.EraseSubject demo_user Demo.uploaded).1 = true.
Proof. vm_compute. reflexivity. Qed.

Lemma uploaded_losing : run_losing demo_service [] (boot kdb_empty) Demo.uploaded.
Proof. apply (losing_step demo_service (Some Demo.upload_op) []  _ Demo.uploaded); [apply kstep_op|apply losing_refl]. Defined.

Lemma kamara_erase_safe_witness :
  let '(r, w') := SubjectData.EraseSubject demo_user Demo.uploaded in
  (∀ row, row ∈ version_chunks (w_db w') → ∃ pt, opens (s_cipher demo_service) (w_blobs w') (m_hash row) pt) ∧
  (∀ h ch, chunks_tbl (w_db w') !! h = Some ch →
     (Z.of_nat (refs_to h (w_db w')) <= c_refs ch)%Z ∧
     (h ∉ [] → is_ok r = true ∨ h ∉ erased_hashes demo_user (w_db Demo.uploaded) →
      c_refs ch = Z.of_nat (refs_to h (w_db w')) ∧ 0 < refs_to h (w_db w'))) ∧
  (∀ i o, o_Owner o ≠ demo_user → objects (w_db Demo.uploaded) !! i = Some o ↔ objects (w_db w') !! i = Some o) ∧
  (∀ i f, f_Owner f ≠ demo_user → folders (w_db Demo.uploaded) !! i = Some f ↔ folders (w_db w') !! i = Some f) ∧
  (is_ok r = true →
    (∀ i o, objects (w_db w') !! i = Some o → o_Owner o ≠ demo_user) ∧
    (∀ i f, folders (w_db w') !! i = Some f → f_Owner f ≠ demo_user) ∧
    (w_faults w' = [] → SubjectData.ExportSubject demo_user w' = (Ok None, w'))).
Proof. apply (kamara_erase_safe demo_service [] Demo.uploaded demo_user uploaded_losing). Defined.
End EraseDemo.
