(* ===== verification/Erasure.v ===== *)
(** * Erasure: the registry against its hooks (lib/pii/registry.go)

    "If ExportSubject can find it, EraseSubject can remove it": the contract of
    pii.SubjectData as a class.  The registry's theorem is proved against the class,
    and Kamara's and Ergonomos's hooks are instances of it. *)

From S2P Require Import Prelude GoText Ids World Pii Pseudonym Conventions Authz Chunker ChunkCrypto Blob Engine Repo RepoInv FileService FolderService KamaraSafety EraseSteps Kamara SubjectData SubjectErase Task.
Import Pii Chunker.

(** What the hooks of one type promise, relative to an invariant of the app. *)
Class SubjectDataOk {D X} (I : world D → Prop) (h : SubjectData D X) (empty : Subject → D → Prop) := {
  erase_keeps : ∀ s, keeps I (EraseSubject_hook h s);
  erase_empties : ∀ s w w', I w → EraseSubject_hook h s w = (Ok tt, w') → empty s (w_db w');
  export_empty : ∀ s w, w_faults w = [] → empty s (w_db w) → ExportSubject_hook h s w = (Ok None, w);
}.

Section registry.
Context {D X : Type} (I : world D → Prop) (HI : stores_only I).
Context (reg : gmap string (Descriptor D X)) (empty : string → Subject → D → Prop).

(** Every registered descriptor has hooks that meet the contract, and erasing
    one type does not bring data of another back. *)
Definition contract (s : Subject) : Prop :=
  ∀ d, d ∈ Descriptors reg → ∃ h, d_Hooks d = Some h ∧ SubjectDataOk I h (empty (d_Type d)) ∧
    ∀ e, e ∈ Descriptors reg → keeps (λ w, I w ∧ empty (d_Type e) s (w_db w)) (EraseSubject_hook h s).

Lemma ctx_err_keeps (J : world D → Prop) : stores_only J → keeps J ctx_err.
Proof. intros HJ. apply keeps_call; [done|apply keeps_ret]. Qed.

Definition erased (s : Subject) (l : list (Descriptor D X)) (w : world D) : Prop :=
  I w ∧ ∀ d, d ∈ l → empty (d_Type d) s (w_db w).

Lemma erase_loop s done todo w w' :
  contract s → done ⊆ Descriptors reg → todo ⊆ Descriptors reg → erased s done w →
  for_each todo (λ d, ctx_err ;; wrap_err ("pii: erase " +:+ d_Type d) (hook_erase d s)) w = (Ok tt, w') →
  erased s (done ++ todo) w'.
Proof.
  intros HC. revert done w. induction todo as [|d todo IH]; intros done w Hd Ht He; cbn [for_each].
  { intros [= <-]. by rewrite app_nil_r. }
  intros E. apply bind_ok_inv in E as ([]&w2&E2&E). apply bind_ok_inv in E2 as ([]&w1&E1&E2).
  assert (d ∈ Descriptors reg) as Hin by (apply Ht; left).
  destruct (HC d Hin) as (h&Hh&Hok&Hkeep). unfold hook_erase in E2. rewrite Hh in E2.
  assert (EraseSubject_hook h s w1 = (Ok tt, w2)) as E3.
  { unfold wrap_err in E2. destruct (EraseSubject_hook h s w1) as [[[]|e] w3]; [done|discriminate]. }
  assert (erased s done w1) as He1.
  { assert (keeps (λ w0, I w0 ∧ w_db w0 = w_db w) ctx_err) as Hk.
    { apply ctx_err_keeps. intros a b Hab Hr [? ?]. split; [by apply (HI a)|congruence]. }
    destruct He as [HIw He]. destruct (Hk w (conj HIw eq_refl)) as [A1 A2]. rewrite E1 in A1, A2. cbn in A1, A2.
    split; [done|]. by rewrite A2. }
  replace (done ++ d :: todo) with ((done ++ [d]) ++ todo) by (by rewrite <- app_assoc).
  apply (IH (done ++ [d]) w2); [| |split|done].
  - intros x [Hx| ->%list_elem_of_singleton]%elem_of_app; auto.
  - intros x Hx. apply Ht. by right.
  - pose proof (erase_keeps s w1 (proj1 He1)) as H. by rewrite E3 in H.
  - intros e [Hin'| ->%list_elem_of_singleton]%elem_of_app.
    + destruct (Hkeep e (Hd _ Hin') w1) as [_ H]; [split; [apply He1|by apply He1]|]. by rewrite E3 in H.
    + eapply erase_empties; [apply He1|done].
Qed.

Lemma export_loop s l w (out : gmap string X) :
  contract s → l ⊆ Descriptors reg → w_faults w = [] → erased s l w →
  for_acc l out (λ out d,
    ctx_err ;;
    data ← wrap_err ("pii: export " +:+ d_Type d) (hook_export d s);
    mret (match data with Some x => <[d_Type d := x]> out | None => out end)) w = (Ok out, w).
Proof.
  intros HC Hl Hf. revert Hl. induction l as [|d l IH]; intros Hl [HIw He]; cbn [for_acc]; [done|].
  destruct (HC d ltac:(apply Hl; left)) as (h&Hh&Hok&_).
  assert (ctx_err w = (Ok tt, w)) as E1 by (unfold ctx_err; by rewrite run_call_nil).
  assert (wrap_err ("pii: export " +:+ d_Type d) (hook_export d s) w = (Ok None, w)) as E2.
  { unfold wrap_err, hook_export. rewrite Hh, export_empty; [done|done|]. apply He. left. }
  erewrite run_bind_ok.
  2: { rewrite (run_bind_ok _ _ _ _ _ E1), (run_bind_ok _ _ _ _ _ E2). reflexivity. }
  apply IH; [intros x Hx; apply Hl; by right|]. split; [done|]. intros x Hx. apply He. by right.
Qed.

(** C31: erasure through the registry is complete.  When every registered type
    meets the contract of pii.SubjectData, an erasure of a person that reports
    success leaves nothing for an export of that person to find. *)
Theorem registry_erase_complete s w w' :
  contract s → I w → Pii.EraseSubject reg s w = (Ok tt, w') → w_faults w' = [] →
  Pii.ExportSubject reg s w' = (Ok ∅, w').
Proof.
  intros HC HIw E Hf. apply export_loop; [done|done|done|].
  apply (erase_loop s [] (Descriptors reg) w w'); [done|set_solver|done| |done].
  split; [done|]. by intros d ?%not_elem_of_nil.
Qed.
End registry.

(** ** Kamara's hooks *)
Section kamara.
Context {Pr : Primitives} {PrOk : PrimitivesOk} {P : Platform} {F : OpenFGA} {Mi : Mime}.
Context (sv : Service).

(** The storage invariant. *)
Definition kamara_ok (w : KW) : Prop := kam_inv sv w.

Definition kamara_empty (s : Subject) (d : KDB) : Prop :=
  (∀ i o, objects d !! i = Some o → o_Owner o ≠ s) ∧ (∀ i f, folders d !! i = Some f → f_Owner f ≠ s).

Lemma thinned_sub {A} ids all (t t' : gmap string A) i x :
  thinned ids all t t' → t' !! i = Some x → t !! i = Some x.
Proof. intros [H _] Hx. destruct (H i) as [E|[E _]]; congruence. Qed.

Lemma kamara_erase_spec s w r w' :
  kamara_ok w → SubjectData.EraseSubject s w = (r, w') → kamara_ok w' ∧
  thinned (object_ids s (w_db w)) (is_ok r) (objects (w_db w)) (objects (w_db w')) ∧
  thinned (folder_ids s (w_db w)) (is_ok r) (folders (w_db w)) (folders (w_db w')).
Proof.
  intros HI E. destruct (EraseSubject_spec sv (λ _, False) w s w r w' (evolves_refl sv _ w HI)
    ltac:(by intros i _ []) (λ _ _, I) E) as (HE&Ho&Hf).
  split; [by apply (evolves_inv sv (λ _, False) w)|done].
Qed.

Lemma kamara_erase_thins s w :
  kamara_ok w → let w' := (SubjectData.EraseSubject s w).2 in kamara_ok w' ∧
    (∀ i o, objects (w_db w') !! i = Some o → objects (w_db w) !! i = Some o) ∧
    (∀ i f, folders (w_db w') !! i = Some f → folders (w_db w) !! i = Some f).
Proof.
  intros Hok. destruct (SubjectData.EraseSubject s w) as [r w'] eqn:E. cbn.
  destruct (kamara_erase_spec s w r w' Hok E) as (Hok'&Ho&Hf). split_and!; [done|..]; intros i x Hx.
  - by apply (thinned_sub _ _ _ _ _ _ Ho).
  - by apply (thinned_sub _ _ _ _ _ _ Hf).
Qed.

#[global] Instance kamara_subjectData_ok : SubjectDataOk kamara_ok SubjectData.subjectData kamara_empty.
Proof.
  split.
  - intros s w Hw. by apply kamara_erase_thins.
  - intros s w w' Hw E. cbn in E. destruct (kamara_erase_spec s w (Ok tt) w' Hw E) as (_&Ho&Hf).
    destruct Hw as [HI _]. split; intros i x Hx Hsx.
    + pose proof (thinned_sub _ _ _ _ _ _ Ho Hx) as Hi. destruct Ho as [_ Ho]. rewrite Ho in Hx; [done|done|].
      apply (elem_of_object_ids _ _ _ _ HI). eauto.
    + pose proof (thinned_sub _ _ _ _ _ _ Hf Hx) as Hi. destruct Hf as [_ Hf]. rewrite Hf in Hx; [done|done|].
      apply (elem_of_folder_ids _ _ _ _ HI). eauto.
  - intros s w Hf [H1 H2]. by apply ExportSubject_none.
Qed.

(** What NewService registers. *)
Definition kamara_descriptor : Descriptor KDB subject_export :=
  MkDescriptor Type_ ["name"] None_class (Some SubjectData.subjectData).
Definition kamara_registry : gmap string (Descriptor KDB subject_export) := {[Type_ := kamara_descriptor]}.

Lemma kamara_registered : Register kamara_descriptor ∅ = Ok kamara_registry.
Proof. reflexivity. Qed.

Lemma kamara_contract s : contract kamara_ok kamara_registry (λ _, kamara_empty) s.
Proof.
  assert (Descriptors kamara_registry = [kamara_descriptor]) as Hd.
  { unfold Descriptors, kamara_registry. by rewrite map_to_list_singleton. }
  intros d. rewrite Hd. intros ->%list_elem_of_singleton. eexists. split_and!; [done|apply _|].
  intros e _ w [Hok [H1 H2]]. destruct (kamara_erase_thins s w Hok) as (K1&K2&K3).
  split; [done|]. split; intros i x Hx; [eapply H1, K2|eapply H2, K3]; exact Hx.
Qed.

Lemma kamara_ok_stores : stores_only kamara_ok.
Proof. intros w w' Hd Hr. injection Hr as Hb _. unfold kamara_ok, kam_inv. by rewrite Hd, Hb. Qed.
End kamara.

(** ** Ergonomos's hooks *)
Section ergonomos.
Context {P : Platform} {F : OpenFGA}.

Definition ergonomos_empty (s : Subject) (d : TDB) : Prop := ∀ i t, tasks d !! i = Some t → t_Owner t ≠ s.

Definition tasks_keyed (w : TW) : Prop := ∀ i t, tasks (w_db w) !! i = Some t → t_ID t = i.

Lemma task_erase_rows s (w : TW) r w' :
  Tasks.EraseSubject s w = (r, w') →
  (is_ok r = false ∧ tasks (w_db w') = tasks (w_db w)) ∨
  tasks (w_db w') = filter (λ kt, t_Owner kt.2 ≠ s) (tasks (w_db w)).
Proof.
  unfold Tasks.EraseSubject. rewrite run_bind. destruct (Tasks.ByOwner s w) as [r1 w1] eqn:E1.
  apply query_cases in E1 as (D1&_&_&_&[-> | ->]); [|intros [= <- <-]; left; by rewrite D1].
  rewrite run_bind. destruct (Tasks.DeleteByOwner s w1) as [r2 w2] eqn:E2.
  apply stmt_cases in E2 as (_&_&_&[(e&->&D2&_)|(a&d&[= <- <-]&D2&Hr2)]).
  { intros [= <- <-]. left. by rewrite D2, D1. }
  intros E. right.
  assert (tasks (w_db w2) = filter (λ kt, t_Owner kt.2 ≠ s) (tasks (w_db w))) as H2 by (by rewrite D2, D1).
  destruct Hr2 as [-> | ->]; [|by injection E as <- <-]. rewrite <- H2.
  assert (keeps (λ w0 : TW, tasks (w_db w0) = tasks (w_db w2))
    (for_each (Tasks.owned_by s (w_db w)) (λ t, Remove (t_ID t)))) as Hk.
  { apply keeps_for_each. intros t _. apply keeps_Remove. split; [by intros a b <-|by intros a cv]. }
  specialize (Hk w2 eq_refl). by rewrite E in Hk.
Qed.

#[global] Instance ergonomos_subjectData_ok : SubjectDataOk tasks_keyed Tasks.subjectData ergonomos_empty.
Proof.
  split.
  - intros s w Hw. cbn. destruct (Tasks.EraseSubject s w) as [r w'] eqn:E. intros i t. cbn.
    destruct (task_erase_rows s w r w' E) as [[_ ->]| ->]; [apply Hw|].
    intros [Ht _]%map_lookup_filter_Some. by apply Hw.
  - intros s w w' Hw E i t. destruct (task_erase_rows s w (Ok tt) w' E) as [[[=] _]| ->].
    by intros [_ Ht]%map_lookup_filter_Some.
  - intros s w Hf He. cbn. unfold Tasks.ExportSubject, Tasks.ByOwner. rewrite run_bind, run_query_nil by done.
    assert (Tasks.owned_by s (w_db w) = []) as ->; [|done].
    apply elem_of_nil_inv. intros t (Ho&i&Hi)%Tasks.elem_of_owned. by apply (He i t).
Qed.

(** What NewService of the tasks registers. *)
Definition ergonomos_descriptor : Descriptor TDB (list Tasks.task_export) :=
  MkDescriptor Tasks.Type_ ["title"] None_class (Some Tasks.subjectData).
Definition ergonomos_registry : gmap string (Descriptor TDB (list Tasks.task_export)) := {[Tasks.Type_ := ergonomos_descriptor]}.

Lemma ergonomos_registered : Register ergonomos_descriptor ∅ = Ok ergonomos_registry.
Proof. reflexivity. Qed.

Lemma ergonomos_contract s : contract tasks_keyed ergonomos_registry (λ _, ergonomos_empty) s.
Proof.
  assert (Descriptors ergonomos_registry = [ergonomos_descriptor]) as Hd.
  { unfold Descriptors, ergonomos_registry. by rewrite map_to_list_singleton. }
  intros d. rewrite Hd. intros ->%list_elem_of_singleton. eexists. split_and!; [done|apply _|].
  intros e _ w [Hok He]. cbn. destruct (Tasks.EraseSubject s w) as [r w'] eqn:E.
  pose proof (erase_keeps (SubjectDataOk := ergonomos_subjectData_ok) s w Hok) as Hk. cbn in Hk. rewrite E in Hk. split; [exact Hk|].
  intros i t. cbn. destruct (task_erase_rows s w r w' E) as [[_ ->]| ->]; [apply He|]. intros [Ht _]%map_lookup_filter_Some. by apply (He i).
Qed.
End ergonomos.

(** ** Witness: Kamara's registry over a world with one file *)
Module RegistryDemo.
#[local] Existing Instance toy_primitives.
#[local] Existing Instance toy_primitives_ok.
#[local] Existing Instance counting_platform.
#[local] Existing Instance owner_fga.
#[local] Existing Instance no_mime.

Definition erase := Pii.EraseSubject kamara_registry demo_user.
Definition erased_world : KW := (erase Demo.uploaded).2.

Lemma uploaded_ok : kamara_ok demo_service Demo.uploaded.
Proof. exact (run_inv demo_service _ _ Demo.uploaded_run (boot_inv demo_service)). Qed.

Lemma erase_ok : erase Demo.uploaded = (Ok tt, erased_world).
Proof. exact (run_result erase Demo.uploaded (Ok tt) ltac:(vm_compute; reflexivity)). Defined.

Lemma registry_erase_complete_witness :
  Pii.ExportSubject kamara_registry demo_user erased_world = (Ok ∅, erased_world).
Proof.
  apply (registry_erase_complete (kamara_ok demo_service) (kamara_ok_stores demo_service) kamara_registry
           (λ _, kamara_empty) demo_user Demo.uploaded erased_world).
  - apply kamara_contract.
  - exact uploaded_ok.
  - exact erase_ok.
  - vm_compute. reflexivity.
Defined.
End RegistryDemo.
