(* ===== verification/Http.v ===== *)
(** * Http: requests and responses

    What the handlers use of net/http, encoding/json and time: a request with its
    path value, query, headers, cookies and body, a response with its status,
    headers and body, the body limit, and the RFC 3339 format of the DTOs. *)

From stdpp Require Import pretty.
From S2P Require Import Prelude GoText Chunker.
Import Chunker.

Inductive json :=
  | JNull
  | JBool (b : bool)
  | JNum (z : Z)
  | JDec (literal : string)           (* a number with a fraction or an exponent *)
  | JStr (s : string)
  | JArr (l : list json)
  | JObj (l : list (string * json)).

(** The body as JSON decodes it; [None] is a decoding error or a body over the
    limit of the decoder. *)
Record Request := MkRequest {
  rq_id : string;                     (* r.PathValue("id") *)
  rq_query : gmap string string;      (* first value of each parameter *)
  rq_header : gmap string string;
  rq_cookie : gmap string string;
  rq_body : list rd_event;
  rq_json : option json;
}.

Definition query_get (r : Request) (k : string) : string := default "" (rq_query r !! k).
Definition header_get (r : Request) (k : string) : string := default "" (rq_header r !! k).

(** [BZip] is a zip stream: the names and contents of its entries. *)
Inductive body := BEmpty | BJson (j : json) | BBytes (b : bytes) | BZip (l : list (string * bytes)).

Record Response := MkResponse {
  rs_status : Z;
  rs_header : list (string * string);
  rs_body : body;
}.

Definition status_only (st : Z) : Response := MkResponse st [] BEmpty.

(** ** http.ServeMux *)
Inductive segment := Lit (x : string) | Wild.

(** A wildcard matches one non-empty segment, whose text is the path value. *)
Fixpoint match_path (pat : list segment) (path : list string) (id : string) : option string :=
  match pat, path with
  | [], [] => Some id
  | Lit x :: pat', y :: path' => if bool_decide (x = y) then match_path pat' path' id else None
  | Wild :: pat', y :: path' => if bool_decide (y = "") then None else match_path pat' path' y
  | _, _ => None
  end.

(** A GET route serves HEAD requests too. *)
Definition match_method (m method : string) : bool :=
  bool_decide (m = method) || (bool_decide (m = "GET") && bool_decide (method = "HEAD")).

Definition set_id (id : string) (r : Request) : Request :=
  MkRequest id (rq_query r) (rq_header r) (rq_cookie r) (rq_body r) (rq_json r).

(** Dispatch over routes that do not overlap; [none] answers what no route serves;
    [path] is the cleaned path of the URL,
    split at its slashes. *)
Fixpoint serve_mux {W R} (none : Z → R) (known : bool)
    (routes : list (string * list segment * (Request → M W R)))
    (method : string) (path : list string) (r : Request) : M W R :=
  match routes with
  | [] => mret (none (if known then 405 else 404)%Z)
  | (m, pat, next) :: routes' =>
      match match_path pat path "" with
      | Some id => if match_method m method then next (set_id id r) else serve_mux none true routes' method path r
      | None => serve_mux none known routes' method path r
      end
  end.

Definition ServeMux {W} := serve_mux (W := W) status_only false.

(** Either no route serves a request, or one does. *)
Lemma serve_mux_route {W R} (none : Z → R) (routes : list (string * list segment * (Request → M W R))) known method path r :
  (∃ st, serve_mux none known routes method path r = mret (none st) ∧ (st = 404 ∨ st = 405)%Z) ∨
  ∃ m pat next i, (m, pat, next) ∈ routes ∧ match_path pat path "" = Some i ∧
    match_method m method = true ∧ serve_mux none known routes method path r = next (set_id i r).
Proof.
  revert known. induction routes as [|[[m pat] next] routes IH]; intros known; cbn [serve_mux].
  { left. eexists. split; [reflexivity|]. destruct known; auto. }
  assert (∀ b,
    (∃ st, serve_mux none b routes method path r = mret (none st) ∧ (st = 404 ∨ st = 405)%Z) ∨
    ∃ m' pat' next' i, (m', pat', next') ∈ (m, pat, next) :: routes ∧ match_path pat' path "" = Some i ∧
      match_method m' method = true ∧ serve_mux none b routes method path r = next' (set_id i r)) as Hrest.
  { intros b. destruct (IH b) as [?|(m'&pat'&next'&i&Hin&?)]; [by left|right].
    exists m', pat', next', i. split; [by right|done]. }
  destruct (match_path pat path "") as [i|] eqn:Ep; [|apply Hrest].
  destruct (match_method m method) eqn:Em; [|apply Hrest].
  right. exists m, pat, next, i. split; [left|done].
Qed.

Lemma serve_mux_cases {W R} (none : Z → R) (routes : list (string * list segment * (Request → M W R))) known method path r (w : W) :
  (∃ st, serve_mux none known routes method path r w = (Ok (none st), w) ∧ (st = 404 ∨ st = 405)%Z) ∨
  ∃ m pat next i, (m, pat, next) ∈ routes ∧ match_path pat path "" = Some i ∧
    match_method m method = true ∧ serve_mux none known routes method path r w = next (set_id i r) w.
Proof.
  destruct (serve_mux_route none routes known method path r) as [(st&->&?)|(m&pat&next&i&?&?&?&->)].
  - left. by exists st.
  - right. by exists m, pat, next, i.
Qed.

(** The body limit. *)

(** http.MaxBytesReader: more than [n] bytes is an error; an error, its own or the
    body's, is repeated by every later read (two reads see it before the reader is
    dropped). *)
Fixpoint MaxBytesReader (n : Z) (evs : list rd_event) : list rd_event :=
  match evs with
  | [] => []
  | RErr e :: _ => [RErr e; RErr e]
  | RData bs :: evs' =>
      if (blen bs <=? n)%Z then RData bs :: MaxBytesReader (n - blen bs) evs'
      else match take (Z.to_nat n) bs with
           | [] => [RErr ErrMaxBytes; RErr ErrMaxBytes]
           | x :: xs => [RData (x :: xs); RErr ErrMaxBytes; RErr ErrMaxBytes]
           end
  end.

(** A body within the limit passes unchanged. *)
Lemma MaxBytesReader_small n evs :
  good evs → (blen (events_data evs) <= n)%Z → MaxBytesReader n evs = evs.
Proof.
  intros Hg. revert n. induction Hg as [|e evs (b&bs&->) Hg IH]; intros n Hn; [done|].
  rewrite events_data_cons in Hn. cbn [event_data] in Hn. unfold blen in Hn. rewrite length_app in Hn.
  cbn [MaxBytesReader]. rewrite (proj2 (Z.leb_le _ _)) by (unfold blen; lia).
  f_equal. apply IH. unfold blen. lia.
Qed.

(** A body over the limit fails, after at most [n] bytes. *)
Lemma MaxBytesReader_large n evs :
  good evs → (0 <= n < blen (events_data evs))%Z →
  ∃ g, good g ∧ MaxBytesReader n evs = g ++ [RErr ErrMaxBytes; RErr ErrMaxBytes].
Proof.
  intros Hg. revert n. induction Hg as [|e evs (b&bs&->) Hg IH]; intros n Hn; [unfold blen in Hn; cbn in Hn; lia|].
  rewrite events_data_cons in Hn. cbn [event_data] in Hn. unfold blen in Hn. rewrite length_app in Hn.
  cbn [MaxBytesReader]. destruct (Z.leb_spec (blen (b :: bs)) n) as [Hle|Hlt].
  - unfold blen in Hle. destruct (IH (n - blen (b :: bs))%Z) as (g&Hg'&->); [unfold blen; lia|].
    exists (RData (b :: bs) :: g). split; [|done]. constructor; [eauto|done].
  - destruct (take (Z.to_nat n) (b :: bs)) as [|x xs].
    + exists []. split; [constructor|done].
    + exists [RData (x :: xs)]. split; [|done]. constructor; [eauto|constructor].
Qed.

(** ** time.Format("2006-01-02T15:04:05Z07:00") in UTC *)

(** The civil date of a day count from 1970-01-01. *)
Definition civil (days : Z) : Z * Z * Z :=
  let z := (days + 719468)%Z in
  let era := (z / 146097)%Z in
  let doe := (z - era * 146097)%Z in
  let yoe := ((doe - doe / 1460 + doe / 36524 - doe / 146096) / 365)%Z in
  let doy := (doe - (365 * yoe + yoe / 4 - yoe / 100))%Z in
  let mp := ((5 * doy + 2) / 153)%Z in
  let d := (doy - (153 * mp + 2) / 5 + 1)%Z in
  let m := (if mp <? 10 then mp + 3 else mp - 9)%Z in
  let y := (yoe + era * 400 + (if m <=? 2 then 1 else 0))%Z in
  (y, m, d).

Definition pad_left (n : nat) (s : string) : string :=
  bytes_str (replicate (n - String.length s) x30) +:+ s.
Definition digits (n : nat) (z : Z) : string := pad_left n (pretty z).

Definition format_rfc3339 (date : Z * Z * Z) (s : Z) : string :=
  let '(y, m, d) := date in
  digits 4 y +:+ "-" +:+ digits 2 m +:+ "-" +:+ digits 2 d +:+ "T" +:+
  digits 2 (s / 3600) +:+ ":" +:+ digits 2 (s / 60 mod 60) +:+ ":" +:+ digits 2 (s mod 60) +:+ "Z".

Definition rfc3339 (ns : Z) : string :=
  let secs := (ns / 1000000000)%Z in format_rfc3339 (civil (secs / 86400)) (secs mod 86400).

(** t.AddDate(n, 0, 0): February 29 is March 1 in a year that has none. *)
Definition leap (y : Z) : bool := ((y mod 4 =? 0) && (negb (y mod 100 =? 0) || (y mod 400 =? 0)))%Z.
Definition rfc3339_add_years (n ns : Z) : string :=
  let secs := (ns / 1000000000)%Z in
  let '(y, m, d) := civil (secs / 86400) in
  let date := if (m =? 2)%Z && (d =? 29)%Z && negb (leap (y + n)) then (y + n, 3, 1)%Z else ((y + n)%Z, m, d) in
  format_rfc3339 date (secs mod 86400).

(** The same with nanoseconds ("2006-01-02T15:04:05.000000000Z07:00"). *)
Definition rfc3339_nano (ns : Z) : string :=
  TrimSuffix (rfc3339 ns) "Z" +:+ "." +:+ digits 9 (ns mod 1000000000) +:+ "Z".

Example rfc3339_epoch : rfc3339 0 = "1970-01-01T00:00:00Z".
Proof. vm_compute. reflexivity. Qed.
Example rfc3339_leap : rfc3339 1709210096000000000 = "2024-02-29T12:34:56Z".
Proof. vm_compute. reflexivity. Qed.
Example rfc3339_ten_years : rfc3339_add_years 10 1709210096000000000 = "2034-03-01T12:34:56Z".
Proof. vm_compute. reflexivity. Qed.
Example rfc3339_nano_example : rfc3339_nano 1709210096000000042 = "2024-02-29T12:34:56.000000042Z".
Proof. vm_compute. reflexivity. Qed.
