(* ===== verification/Json.v ===== *)
(** * Json: what encoding/json decodes

    Decoding into the structs of a client: a missing field leaves the zero value, null
    leaves a string or a struct as it is and empties a slice or a pointer, a value of
    another type is an error, the last of several matching fields wins.  Fields match up to the case of ASCII letters. *)

From S2P Require Import Prelude GoText Http.

(** The parser: [None] is text that is not JSON. *)
Class JsonParser := { json_parse : bytes → option json }.

Definition errDecode : error := ErrText "json: cannot unmarshal".

(** The fields of a struct; null is the zero struct. *)
Definition fields (j : json) : res (list (string * json)) :=
  match j with JObj l => Ok l | JNull => Ok [] | _ => Err errDecode end.

(** Fold the values of the fields called [k] into [acc]; [nul] is what null does. *)
Fixpoint dec_field {A} (dec : json → res A) (nul : A → A) (k : string) (l : list (string * json)) (acc : A) : res A :=
  match l with
  | [] => Ok acc
  | (k', v) :: l' =>
      if EqualFold k' k then
        match v with
        | JNull => dec_field dec nul k l' (nul acc)
        | _ => match dec v with Ok a => dec_field dec nul k l' a | Err e => Err e end
        end
      else dec_field dec nul k l' acc
  end.

Definition dec_struct {A} (dec : json → res A) (k : string) (zero : A) (j : json) : res A :=
  match fields j with Ok l => dec_field dec id k l zero | Err e => Err e end.

(** The same for a slice or a pointer. *)
Definition dec_ref {A} (dec : json → res A) (k : string) (zero : A) (j : json) : res A :=
  match fields j with Ok l => dec_field dec (λ _, zero) k l zero | Err e => Err e end.

Definition as_string (j : json) : res string := match j with JStr s => Ok s | JNull => Ok "" | _ => Err errDecode end.
Definition as_bool (j : json) : res bool := match j with JBool b => Ok b | JNull => Ok false | _ => Err errDecode end.
Definition as_int64 (j : json) : res Z :=
  match j with
  | JNum z => if ((- 2 ^ 63 <=? z) && (z <? 2 ^ 63))%Z then Ok z else Err errDecode
  | JNull => Ok 0%Z
  | _ => Err errDecode
  end.
Definition as_list (j : json) : res (list json) := match j with JArr l => Ok l | JNull => Ok [] | _ => Err errDecode end.

Fixpoint dec_all {A} (dec : json → res A) (l : list json) : res (list A) :=
  match l with
  | [] => Ok []
  | x :: l' =>
      match dec x, dec_all dec l' with
      | Ok a, Ok r => Ok (a :: r)
      | Err e, _ | _, Err e => Err e
      end
  end.

Definition as_list_of {A} (dec : json → res A) (j : json) : res (list A) :=
  match as_list j with Ok l => dec_all dec l | Err e => Err e end.

Definition dec_string (k : string) : json → res string := dec_struct as_string k "".
Definition dec_bool (k : string) : json → res bool := dec_struct as_bool k false.
Definition dec_int64 (k : string) : json → res Z := dec_struct as_int64 k 0%Z.
Definition dec_strings (k : string) : json → res (list string) := dec_ref (as_list_of as_string) k [].
Definition dec_list {A} (dec : json → res A) (k : string) : json → res (list A) :=
  dec_ref (as_list_of dec) k [].

(** A pointer to a string. *)
Definition dec_string_ptr (k : string) : json → res (option string) :=
  dec_ref (λ j, match as_string j with Ok s => Ok (Some s) | Err e => Err e end) k None.

(** The raw value of a field; a RawMessage keeps null. *)
Definition raw_field (k : string) (j : json) : res (option json) :=
  match fields j with
  | Ok l => Ok (foldl (λ acc p, if EqualFold p.1 k then Some p.2 else acc) None l)
  | Err e => Err e
  end.

Definition jstrs (l : list string) : json := JArr (JStr <$> l).

Example dec_ids :
  dec_list (dec_string "id") "result" (JObj [("result", JArr [JObj [("ID", JStr "7")]; JNull])]) = Ok ["7"; ""].
Proof. vm_compute. reflexivity. Qed.
