(* ===== verification/Headers.v ===== *)
(** * Headers: the download headers (kamara/internal/api/api.go)

    [ContentDisposition] and its two encodings of the file name, which comes from
    the user. *)

From S2P Require Import Prelude GoText.

(** Runes of a name that may stand between the quotes. *)
Definition ascii_rune (r : Z) : bytes :=
  if ((r <? 32) || (r =? 127) || (r =? 34) || (r =? 92))%Z then []
  else if (127 <? r)%Z then [x5f]
  else [byte_of_Z r].

Definition asciiFilename (name : string) : string := bytes_str (concat (ascii_rune <$> runes name)).

Definition attr_chars : string := "!#$&+-.^_`|~".

Definition attr_char (b : byte) : bool :=
  let c := bz b in
  ((65 <=? c) && (c <=? 90))%Z || ((97 <=? c) && (c <=? 122))%Z || ((48 <=? c) && (c <=? 57))%Z ||
  bool_decide (b ∈ str_bytes attr_chars).

(** "0123456789ABCDEF"[n] *)
Definition hex_upper (n : Z) : byte := byte_of_Z (if (n <? 10)%Z then 48 + n else 55 + n).

Definition escape_byte (b : byte) : bytes :=
  if attr_char b then [b]
  else [x25; hex_upper (Z.shiftr (bz b) 4); hex_upper (Z.land (bz b) 15)].

Definition rfc5987 (name : string) : string := bytes_str (concat (escape_byte <$> str_bytes name)).

Definition quote : string := String (Ascii.ascii_of_N 34) "".

Definition ContentDisposition (disposition name : string) : string :=
  let ascii := asciiFilename name in
  let v := disposition +:+ "; filename=" +:+ quote +:+ ascii +:+ quote in
  if bool_decide (ascii = name) then v else v +:+ "; filename*=UTF-8''" +:+ rfc5987 name.

Definition ContentType (stored : string) : string :=
  if bool_decide (stored = "") then "application/octet-stream" else stored.

(** ** Header values cannot be injected *)
Definition printable (b : byte) : bool := ((32 <=? bz b) && (bz b <? 127))%Z.
Definition quotable (b : byte) : bool := printable b && negb (bool_decide (bz b = 34%Z)) && negb (bool_decide (bz b = 92%Z)).

Definition all_bytes (p : byte → bool) (s : string) : Prop := Forall (λ b, p b = true) (str_bytes s).

Lemma all_bytes_app p s t : all_bytes p (s +:+ t) ↔ all_bytes p s ∧ all_bytes p t.
Proof. unfold all_bytes. by rewrite str_bytes_app, Forall_app. Qed.

Lemma all_bytes_concat {A} p (f : A → bytes) l :
  (∀ x, x ∈ l → Forall (λ b, p b = true) (f x)) → all_bytes p (bytes_str (concat (f <$> l))).
Proof.
  intros H. unfold all_bytes. rewrite str_bytes_str. induction l as [|x l IH]; cbn; [constructor|].
  apply Forall_app. split; [apply H; left|]. apply IH. intros y Hy. apply H. by right.
Qed.

Lemma runes_range name r : r ∈ runes name → (0 <= r < 1114112)%Z.
Proof.
  unfold runes. generalize (String.length name) as fuel, (str_bytes name) as l.
  induction fuel as [|fuel IH]; intros l; cbn; [by intros ?%not_elem_of_nil|].
  destruct l as [|b l]; [by intros ?%not_elem_of_nil|].
  pose proof (decode_rune_range (b :: l)) as Hr. destruct (decode_rune (b :: l)) as [x n].
  intros [-> | H]%elem_of_cons; [done|]. by eapply IH.
Qed.

Lemma asciiFilename_quotable name : all_bytes quotable (asciiFilename name).
Proof.
  apply all_bytes_concat. intros r Hr%runes_range. unfold ascii_rune.
  destruct (_ || _ || _ || _) eqn:E; [constructor|]. repeat (apply orb_false_iff in E as [E ?]).
  destruct (Z.ltb_spec 127 r); [by repeat constructor|]. constructor; [|constructor].
  unfold quotable, printable. rewrite bz_byte_of_Z, Z.mod_small by lia.
  rewrite !andb_true_iff, !negb_true_iff, !bool_decide_eq_false. lia.
Qed.

Lemma hex_upper_printable n : (0 <= n < 16)%Z → printable (hex_upper n) = true.
Proof.
  intros Hn. unfold printable, hex_upper. rewrite bz_byte_of_Z, Z.mod_small by (destruct (n <? 10)%Z eqn:?; lia).
  destruct (Z.ltb_spec n 10); lia.
Qed.

Lemma escape_byte_printable b : Forall (λ b, printable b = true) (escape_byte b).
Proof. by destruct b; repeat constructor. Qed.

(** a download header cannot be forged through a file name.  Whatever bytes the
    name holds, every byte of the value is a printable ASCII character (so no header
    or line can be injected), and what stands between the quotes holds no quote and
    no back slash. *)
Theorem ContentDisposition_safe disposition name :
  all_bytes printable disposition →
  all_bytes printable (ContentDisposition disposition name) ∧ all_bytes quotable (asciiFilename name).
Proof.
  intros Hd. pose proof (asciiFilename_quotable name) as Hq. split; [|done].
  assert (all_bytes printable (asciiFilename name)) as Hp.
  { eapply Forall_impl; [exact Hq|]. intros b Hb. unfold quotable in Hb. apply andb_true_iff in Hb as [Hb _].
    apply andb_true_iff in Hb as [Hb _]. exact Hb. }
  assert (all_bytes printable (rfc5987 name)) as Hr.
  { apply all_bytes_concat. intros b _. apply escape_byte_printable. }
  assert (all_bytes printable quote) as Hqt by (repeat constructor).
  assert (all_bytes printable "; filename=" ∧ all_bytes printable "; filename*=UTF-8''") as [H1 H2]
    by (split; repeat constructor).
  unfold ContentDisposition. destruct (bool_decide _); repeat (apply all_bytes_app; split); done.
Qed.

Lemma ContentDisposition_safe_witness :
  all_bytes printable (ContentDisposition "attachment" (bytes_str [x61; x0d; x0a; x22; xc3; xa9])) ∧
  all_bytes quotable (asciiFilename (bytes_str [x61; x0d; x0a; x22; xc3; xa9])).
Proof. apply (ContentDisposition_safe "attachment"). repeat constructor. Defined.

(** ** The encoded name is the name *)

(** RFC 5987 decoding. *)
Definition unhex_upper (b : byte) : Z := if (bz b <? 58)%Z then bz b - 48 else bz b - 55.

Fixpoint unescape (fuel : nat) (l : bytes) : bytes :=
  match fuel, l with
  | S f, x25 :: a :: b :: l' => byte_of_Z (16 * unhex_upper a + unhex_upper b) :: unescape f l'
  | S f, b :: l' => b :: unescape f l'
  | _, _ => []
  end.

Lemma unescape_escape b rest fuel :
  unescape (S fuel) (escape_byte b ++ rest) = b :: unescape fuel rest.
Proof. by destruct b. Qed.

(** clients that decode the extended form see exactly the stored name: decoding
    the RFC 5987 value gives the name back, byte for byte. *)
Theorem rfc5987_roundtrip name :
  unescape (String.length (rfc5987 name)) (str_bytes (rfc5987 name)) = str_bytes name.
Proof.
  unfold rfc5987. rewrite str_bytes_str. rewrite <- length_str_bytes, str_bytes_str.
  generalize (str_bytes name) as l.
  cut (∀ l fuel, length l ≤ fuel → unescape fuel (concat (escape_byte <$> l)) = l).
  { intros H l. apply H. induction l as [|b l IH]; cbn; [done|]. rewrite length_app.
    assert (1 ≤ length (escape_byte b)) by (apply Nat.leb_le; by destruct b). lia. }
  induction l as [|b l IH]; intros fuel Hf; [by destruct fuel|]. cbn in Hf.
  destruct fuel as [|fuel]; [lia|]. cbn [fmap list_fmap concat]. rewrite unescape_escape. f_equal. apply IH. lia.
Qed.
