(* ===== verification/Api.v ===== *)
(** * Api: the HTTP storage API (kamara/internal/api/api.go)

    The handlers of the /v1 surface over the file domain: bearer authentication,
    routing, the decoding of requests, the body limit, and the mapping of domain
    errors to statuses.  A handler is a program of the world that returns the
    response it writes.

    The text bodies net/http writes for requests no route matches are not kept;
    log lines are not modelled. *)

From S2P Require Import Prelude GoText Ids World Pii Pseudonym Conventions Authz Chunker ChunkCrypto Blob Engine Repo FileService FolderService Wopi KamaraSafety Kamara Zip Http Headers.
Import Pii Chunker.

(** Resolves a bearer token to the caller's subject; [None] is an invalid token.
    The provider does not touch Kamara's stores. *)
Class Authenticator := {
  auth_Subject : string → M KW (option Subject);
  auth_env : ∀ token w, w_db (auth_Subject token w).2 = w_db w ∧ w_rest (auth_Subject token w).2 = w_rest w;
}.

Definition DefaultMaxUploadBytes : Z := 5 * 2 ^ 30.

Record Handler := MkHandler { h_svc : Service; h_maxUpload : Z }.

Definition New (svc : Service) (maxUpload : Z) : Handler :=
  MkHandler svc (if (maxUpload <=? 0)%Z then DefaultMaxUploadBytes else maxUpload).

(** ** Requests *)
Definition optStr (v : string) : option string := if bool_decide (v = "") then None else Some v.

Definition bearer (r : Request) : string :=
  let v := header_get r "Authorization" in
  if (7 <? String.length v) && EqualFold (String.substring 0 7 v) "Bearer "
  then TrimSpace (String.substring 7 (String.length v - 7) v) else "".

(** strconv.ParseBool, with the error taken as false. *)
Definition ParseBool (v : string) : bool :=
  bool_decide (v ∈ ["1"; "t"; "T"; "TRUE"; "true"; "True"]).

(** ** Responses *)
Definition writeJSON (status : Z) (v : json) : Response :=
  MkResponse status [("Content-Type", "application/json")] (BJson v).
Definition writeErr (status : Z) (msg : string) : Response :=
  writeJSON status (JObj [("message", JStr msg)]).

Definition optJSON (v : option string) : json := match v with Some x => JStr x | None => JNull end.

Definition toFile (o : Object) : json :=
  JObj [("id", JStr (o_ID o)); ("name", JStr (o_Name o)); ("size", JNum (o_Size o));
        ("folder", optJSON (o_FolderID o)); ("contentType", JStr (o_ContentType o));
        ("permalink", JStr (o_Permalink (o_ID o)));
        ("created", JStr (rfc3339 (o_Created o))); ("updated", JStr (rfc3339 (o_Updated o)))].

Definition toVersion (v : Version) : json :=
  JObj [("id", JStr (v_ID v)); ("ordinal", JNum (v_Ordinal v)); ("size", JNum (v_Size v));
        ("created", JStr (rfc3339 (v_Created v)))].

Definition toFolder (f : Folder) : json :=
  JObj [("id", JStr (f_ID f)); ("name", JStr (f_Name f)); ("parent", optJSON (f_ParentID f));
        ("permalink", JStr (f_Permalink (f_ID f)));
        ("created", JStr (rfc3339 (f_Created f))); ("updated", JStr (rfc3339 (f_Updated f)))].

Definition fail (e : error) : Response :=
  if errors_is e ErrNotFound then writeErr 404 "not found"
  else if errors_is e ErrForbidden then writeErr 403 "forbidden"
  else if errors_is e ErrNotEmpty then writeErr 409 "folder not empty"
  else if errors_is e ErrCycle then writeErr 400 "move would create a cycle"
  else if errors_is e ErrModified then writeErr 409 "file was modified since the base version"
  else writeErr 500 "internal error".

(** ** JSON bodies *)

(** Decoding into [struct { Name string }]: null is a no-op, for the body and for
    the field; the last of several matching fields wins. *)
Fixpoint name_fields (l : list (string * json)) (acc : string) : option string :=
  match l with
  | [] => Some acc
  | (k, v) :: l' =>
      if EqualFold k "name" then
        match v with
        | JStr x => name_fields l' x
        | JNull => name_fields l' acc
        | _ => None
        end
      else name_fields l' acc
  end.

Definition decodeName (r : Request) : Response + string :=
  match rq_json r ≫= λ j, match j with JObj l => name_fields l "" | JNull => Some "" | _ => None end with
  | None => inl (writeErr 400 "invalid JSON body")
  | Some n => if bool_decide (n = "") then inl (writeErr 400 "name is required") else inr n
  end.

(** Decoding into [map[string]*string]. *)
Fixpoint move_fields (l : list (string * json)) (acc : gmap string (option string))
    : option (gmap string (option string)) :=
  match l with
  | [] => Some acc
  | (k, v) :: l' =>
      match v with
      | JStr x => move_fields l' (<[k := Some x]> acc)
      | JNull => move_fields l' (<[k := None]> acc)
      | _ => None
      end
  end.

Definition decodeMove (r : Request) (field : string) : Response + option string :=
  match rq_json r ≫= λ j, match j with JObj l => move_fields l ∅ | JNull => Some ∅ | _ => None end with
  | None => inl (writeErr 400 "invalid JSON body")
  | Some m =>
      match m !! field with
      | None => inl (writeErr 400 (quote +:+ field +:+ quote +:+ " field is required (use null for root)"))
      | Some dest => inr dest
      end
  end.

Section api.
Context {Pr : Primitives} {P : Platform} {F : OpenFGA} {Mi : Mime} {Au : Authenticator}.
Context (h : Handler).
Abbreviation s := (h_svc h).

(** ** Handlers *)
Definition subjectHandler : Type := Request → Subject → M KW Response.

(** Call the domain; an error becomes the response [onerr] makes of it. *)
Definition or_fail {A R} (onerr : error → R) (m : M KW A) (k : A → M KW R) : M KW R :=
  r ← attempt m;
  match r with Ok a => k a | Err e => mret (onerr e) end.

Definition authed (next : subjectHandler) (r : Request) : M KW Response :=
  let tok := bearer r in
  if bool_decide (tok = "") then mret (writeErr 401 "authentication required")
  else
    a ← attempt (auth_Subject tok);
    match a with
    | Err _ => mret (writeErr 502 "authentication unavailable")
    | Ok None => mret (writeErr 401 "invalid token")
    | Ok (Some caller) => next r caller
    end.

Definition too_large (msg : string) (e : error) : Response :=
  if errors_is e ErrMaxBytes then writeErr 413 msg else fail e.

Definition upload : subjectHandler := λ r caller,
  let name := query_get r "name" in
  if bool_decide (name = "") then mret (writeErr 400 "name query parameter is required")
  else
    let body := MaxBytesReader (h_maxUpload h) (rq_body r) in
    or_fail (too_large "file exceeds maximum upload size")
      (Upload s caller (optStr (query_get r "folder")) name body)
      (λ o, mret (writeJSON 201 (toFile o))).

Definition list_ : subjectHandler := λ r caller,
  or_fail fail (List_ caller) (λ objs,
    mret (writeJSON 200 (JObj [("files", JArr (toFile <$> objs))]))).

Definition get : subjectHandler := λ r caller,
  or_fail fail (Get_ caller (rq_id r)) (λ o, mret (writeJSON 200 (toFile o))).

(** The status is on the wire before the content: an error cuts the body short. *)
Definition download : subjectHandler := λ r caller,
  or_fail fail (Get_ caller (rq_id r)) (λ o w,
    let '(_, (w', out)) := Download s caller (o_ID o) (w, []) in
    (Ok (MkResponse 200 [("Content-Type", ContentType (o_ContentType o));
                         ("Content-Disposition", ContentDisposition "attachment" (o_Name o))]
           (BBytes out)), w')).

Definition putContent : subjectHandler := λ r caller,
  let body := MaxBytesReader (h_maxUpload h) (rq_body r) in
  or_fail (too_large "content exceeds maximum upload size")
    (WriteVersion s caller (rq_id r) body) (λ _,
    or_fail fail (Get_ caller (rq_id r)) (λ o, mret (writeJSON 200 (toFile o)))).

Definition listVersions : subjectHandler := λ r caller,
  or_fail fail (ListFileVersions caller (rq_id r)) (λ vs,
    mret (writeJSON 200 (JObj [("versions", JArr (toVersion <$> vs))]))).

Definition delete_ : subjectHandler := λ r caller,
  or_fail fail (Delete_ s caller (rq_id r)) (λ _, mret (status_only 204)).

Definition listChildren : subjectHandler := λ r caller,
  or_fail fail (ListChildren caller (optStr (query_get r "parent"))) (λ l,
    mret (writeJSON 200 (JObj [("files", JArr (toFile <$> l_Files l));
                               ("folders", JArr (toFolder <$> l_Folders l))]))).

Definition createFolder : subjectHandler := λ r caller,
  let name := query_get r "name" in
  if bool_decide (name = "") then mret (writeErr 400 "name query parameter is required")
  else
    or_fail fail (CreateFolder caller (optStr (query_get r "parent")) name) (λ f,
      mret (writeJSON 201 (toFolder f))).

Definition deleteFolder : subjectHandler := λ r caller,
  let del := if ParseBool (query_get r "recursive") then DeleteFolderTree s else DeleteFolder in
  or_fail fail (del caller (rq_id r)) (λ _, mret (status_only 204)).

Definition getFolder : subjectHandler := λ r caller,
  or_fail fail (GetFolder caller (rq_id r)) (λ f, mret (writeJSON 200 (toFolder f))).

Definition downloadZip : subjectHandler := λ r caller,
  let id := rq_id r in
  or_fail fail (GetFolder caller id) (λ f w,
    let '(_, (w', ar)) := DownloadZip s caller (Some id) (w, []) in
    (Ok (MkResponse 200 [("Content-Type", "application/zip");
                         ("Content-Disposition", ContentDisposition "attachment" (f_Name f +:+ ".zip"))]
           (BZip ((λ e, (z_name e, z_content e)) <$> ar))), w')).

Definition renameFile : subjectHandler := λ r caller,
  match decodeName r with
  | inl resp => mret resp
  | inr name => or_fail fail (RenameFile caller (rq_id r) name) (λ _, mret (status_only 204))
  end.

Definition moveFile : subjectHandler := λ r caller,
  match decodeMove r "folder" with
  | inl resp => mret resp
  | inr dest => or_fail fail (MoveFile caller (rq_id r) dest) (λ _, mret (status_only 204))
  end.

Definition renameFolder : subjectHandler := λ r caller,
  match decodeName r with
  | inl resp => mret resp
  | inr name => or_fail fail (RenameFolder caller (rq_id r) name) (λ _, mret (status_only 204))
  end.

Definition moveFolder : subjectHandler := λ r caller,
  match decodeMove r "parent" with
  | inl resp => mret resp
  | inr dest => or_fail fail (MoveFolder caller (rq_id r) dest) (λ _, mret (status_only 204))
  end.

(** ** Routing *)
Definition Routes : list (string * list segment * subjectHandler) :=
  [("GET", [Lit "v1"; Lit "files"], list_);
   ("POST", [Lit "v1"; Lit "files"], upload);
   ("GET", [Lit "v1"; Lit "files"; Wild], get);
   ("DELETE", [Lit "v1"; Lit "files"; Wild], delete_);
   ("GET", [Lit "v1"; Lit "files"; Wild; Lit "content"], download);
   ("PUT", [Lit "v1"; Lit "files"; Wild; Lit "content"], putContent);
   ("GET", [Lit "v1"; Lit "files"; Wild; Lit "versions"], listVersions);
   ("POST", [Lit "v1"; Lit "files"; Wild; Lit "rename"], renameFile);
   ("POST", [Lit "v1"; Lit "files"; Wild; Lit "move"], moveFile);
   ("GET", [Lit "v1"; Lit "folders"], listChildren);
   ("POST", [Lit "v1"; Lit "folders"], createFolder);
   ("GET", [Lit "v1"; Lit "folders"; Wild], getFolder);
   ("GET", [Lit "v1"; Lit "folders"; Wild; Lit "zip"], downloadZip);
   ("DELETE", [Lit "v1"; Lit "folders"; Wild], deleteFolder);
   ("POST", [Lit "v1"; Lit "folders"; Wild; Lit "rename"], renameFolder);
   ("POST", [Lit "v1"; Lit "folders"; Wild; Lit "move"], moveFolder)].

Definition serve (method : string) (path : list string) (r : Request) : M KW Response :=
  ServeMux ((λ '(m, pat, next), (m, pat, authed next)) <$> Routes) method path r.
End api.

(** ** What a request does to the world *)

(** The subject an operation is called for; an erasure is not called for a request. *)
Definition op_caller (o : kop) : option Subject :=
  match o with
  | KUpload c _ _ _ | KDownload c _ | KWrite c _ _ _ | KVersions c _ | KOrdinal c _ | KList c
  | KGet c _ | KDelete c _ | KCreateFolder c _ _ | KGetFolder c _ | KListChildren c _
  | KAncestors c _ | KAllFolders c | KRenameFile c _ _ | KMoveFile c _ _ | KRenameFolder c _ _
  | KMoveFolder c _ _ | KDeleteFolder c _ | KDeleteTree c _ | KMint c _ _ _ => Some c
  | KErase _ => None
  end.

Section runs.
Context {Pr : Primitives} {P : Platform} {F : OpenFGA} {Mi : Mime}.
Context (s : Service).

(** Runs whose operations are all called for [c]; other steps leave database and
    blobs alone. *)
Inductive run_by (c : Subject) : KW → KW → Prop :=
  | by_refl w : run_by c w w
  | by_env w1 w2 w3 : same_data w1 w2 → run_by c w2 w3 → run_by c w1 w3
  | by_op o w1 w3 : op_caller o = Some c → run_by c (run_op s o w1).2 w3 → run_by c w1 w3.

Lemma run_by_trans c w1 w2 w3 : run_by c w1 w2 → run_by c w2 w3 → run_by c w1 w3.
Proof. induction 1; eauto using run_by. Qed.

Lemma run_by_run c w w' : run_by c w w' → run s w w'.
Proof.
  induction 1 as [|w1 w2 w3 [H1 H2] _ IH|o w1 w3 _ _ IH].
  - apply run_refl.
  - by apply (run_step s None _ w2); [constructor|].
  - by apply (run_step s (Some o) _ (run_op s o w1).2); [constructor|].
Qed.

Definition acts (c : Subject) {A} (m : M KW A) : Prop := ∀ w, run_by c w (m w).2.

Lemma acts_ret c {A} (a : A) : acts c (mret a).
Proof. intros w. apply by_refl. Qed.

Lemma acts_bind c {A B} (m : M KW A) (k : A → M KW B) :
  acts c m → (∀ a, acts c (k a)) → acts c (m ≫= k).
Proof.
  intros Hm Hk w. rewrite run_bind. specialize (Hm w). destruct (m w) as [[a|e] w1]; [|done].
  eapply run_by_trans; [exact Hm|apply Hk].
Qed.

Lemma acts_or_fail c {A R} (onerr : error → R) (m : M KW A) (k : A → M KW R) :
  acts c m → (∀ a, acts c (k a)) → acts c (or_fail onerr m k).
Proof.
  intros Hm Hk. apply acts_bind.
  - intros w. specialize (Hm w). unfold attempt. by destruct (m w).
  - intros [a|e]; [apply Hk|apply acts_ret].
Qed.

Lemma acts_op c {A} o (m : M KW A) :
  op_caller o = Some c → (∀ w, (m w).2 = (run_op s o w).2) → acts c m.
Proof. intros Hc Hm w. rewrite Hm. apply (by_op c o); [done|apply by_refl]. Qed.

Lemma snd_ignored {A} (m : M KW A) w : (m w).2 = ((m ;; mret tt) w).2.
Proof. rewrite run_bind. by destruct (m w) as [[] ?]. Qed.

Lemma acts_keeps c {A} (m : M KW A) : (∀ w, keeps (same_data w) m) → acts c m.
Proof. intros H w. apply (by_env c _ (m w).2); [apply H; by split|apply by_refl]. Qed.

(** An archive changes nothing. *)
Lemma keeps_zip {A} w0 (m : M KW A) :
  keeps (same_data w0) m → keeps (λ st : zstate, same_data w0 st.1) (on_world m).
Proof. apply (keeps_on_world (same_data w0)). Qed.

Lemma keeps_Reassemble w0 refs :
  keeps (λ st : KW * bytes, same_data w0 st.1) (Reassemble (s_cipher s) refs).
Proof.
  pose proof (same_data_stores w0) as HS. unfold Reassemble.
  apply keeps_for_each. intros ref _. unfold reassemble_chunk.
  apply keeps_bind; [apply (keeps_on_world (same_data w0)); auto with go|intros b].
  apply keeps_bind; [apply keeps_lift|intros x]. intros [w1 o] [Hd Hb]. cbn in *.
  destruct (next_fault_stores w1) as (f&w2&E&Hd2&Hr&_). rewrite E. injection Hr as Hb2 _.
  destruct f; split; cbn; congruence.
Qed.

Lemma keeps_header w0 name t : keeps (λ st : zstate, same_data w0 st.1) (CreateHeader name t).
Proof.
  pose proof (same_data_stores w0) as HS. unfold CreateHeader. destruct (_ <? _)%Z; [apply keeps_throw|].
  apply keeps_bind; [apply keeps_zip, keeps_call; [done|apply keeps_ret]|intros _].
  by intros [w [ar seen]].
Qed.

Lemma keeps_name_entry w0 st name : keeps (λ st : zstate, same_data w0 st.1) (name_entry st name).
Proof. unfold name_entry. destruct (entryName _ _ _) as [[[? ?] ?]|]; [apply keeps_ret|apply keeps_throw]. Qed.

Lemma keeps_zip_file w0 prefix st o :
  keeps (λ st : zstate, same_data w0 st.1) (zip_file s prefix st o).
Proof.
  pose proof (same_data_stores w0) as HS. unfold zip_file, ManifestOf.
  apply keeps_bind; [apply keeps_name_entry|intros x]. apply keeps_bind; [apply keeps_header|intros _].
  apply keeps_bind; [by apply keeps_zip, keeps_query|intros refs].
  apply keeps_bind; [|intros _; apply keeps_ret]. apply keeps_wrap_err. intros [w [ar seen]] Hw. unfold to_entry.
  pose proof (keeps_Reassemble w0 refs (w, []) Hw) as H.
  by destruct (Reassemble (s_cipher s) refs (w, [])) as [r [w' out]].
Qed.

Lemma keeps_zipTree w0 fuel caller folder prefix :
  keeps (λ st : zstate, same_data w0 st.1) (zipTree s fuel caller folder prefix).
Proof.
  pose proof (same_data_stores w0) as HS. revert folder prefix.
  induction fuel as [|fuel IH]; intros folder prefix; cbn [zipTree]; [apply keeps_throw|].
  unfold ObjectsInFolder, FoldersInParent.
  apply keeps_bind; [by apply keeps_zip, keeps_query|intros files].
  apply keeps_bind; [by apply keeps_zip, keeps_query|intros fs].
  apply keeps_bind; [apply keeps_for_acc; intros; apply keeps_zip_file|intros st].
  apply keeps_bind; [|intros _; apply keeps_ret]. apply keeps_for_acc. intros st' f _.
  apply keeps_bind; [apply keeps_gets|intros []; [apply keeps_ret|]].
  apply keeps_bind; [by intros [w [ar seen]]|intros _].
  apply keeps_bind; [apply keeps_name_entry|intros x]. apply keeps_bind; [apply keeps_header|intros _].
  apply keeps_bind; [apply IH|intros _; apply keeps_ret].
Qed.

Lemma DownloadZip_data w0 caller folder st :
  same_data w0 st.1 → same_data w0 (DownloadZip s caller folder st).2.1.
Proof.
  pose proof (same_data_stores w0) as HS.
  destruct st as [w ar]. cbn [fst]. intros Hw. unfold DownloadZip.
  assert (keeps (same_data w0) (authorize_dest caller folder)) as Ha
    by (unfold authorize_dest, authorizeFolder; destruct folder; [apply keeps_same_authorize|apply keeps_ret]).
  specialize (Ha w Hw). destruct (authorize_dest caller folder w) as [[[]|e] w1]; [|done]. cbn [snd] in Ha.
  set (st := (w1, (ar, match folder with Some f => {[f]} | None => ∅ end))).
  pose proof (keeps_zipTree w0 (S (S (size (folders (w_db w1))))) caller folder "" st Ha) as Hz.
  destruct (zipTree s _ caller folder "" st) as [r [w2 [ar' seen']]]. cbn [fst snd] in Hz.
  destruct r as [[]|e]; [|done].
  pose proof (keeps_call (same_data w0) (mret tt) HS (keeps_ret _ _) w2 Hz) as Hc.
  by destruct (call (mret tt) w2) as [r' w3].
Qed.
End runs.

(** ** Programs that ask the file service on behalf of somebody *)

(** Download and DownloadZip write to the response as they go: the outcome, and what was
    written until then. *)
Definition sent {X A} (m : M (KW * list X) A) : M KW (res A * list X) := λ w,
  let '(r, (w', out)) := m (w, []) in (Ok (r, out), w').

(** What a handler does besides: it reads the clock and the randomness, handles errors,
    and computes; the database, the blobs and the tuples it reaches through [calls] only,
    so its answer is a function of what those returned. *)
Inductive built_from {P : Platform} (calls : ∀ A, M KW A → Prop) : ∀ A, M KW A → Prop :=
  | bf_call A (m : M KW A) : calls A m → built_from calls A m
  | bf_ret A (a : A) : built_from calls A (mret a)
  | bf_throw A e : built_from calls A (throw e)
  | bf_now : built_from calls Z now
  | bf_draw k : built_from calls bytes (draw k)
  | bf_bind A B (m : M KW A) (k : A → M KW B) :
      built_from calls A m → (∀ a, built_from calls B (k a)) → built_from calls B (m ≫= k)
  | bf_attempt A (m : M KW A) : built_from calls A m → built_from calls (res A) (attempt m)
  | bf_ext A (m m' : M KW A) : built_from calls A m → (∀ w, m w = m' w) → built_from calls A m'.
Arguments built_from {P} calls {A} m.

(** No calls: the answer depends on the clock and the randomness only. *)
Definition nobody (A : Type) (m : M KW A) : Prop := False.

Section programs.
Context {Pr : Primitives} {P : Platform} {F : OpenFGA} {Mi : Mime}.
Context (s : Service).

(** The calls of the file service, all of them for [c]. *)
Inductive calls_for (c : Subject) : ∀ A, M KW A → Prop :=
  | cf_Upload folder name body : calls_for c _ (Upload s c folder name body)
  | cf_Download i : calls_for c _ (sent (Download s c i))
  | cf_DownloadZip folder : calls_for c _ (sent (DownloadZip s c folder))
  | cf_WriteVersion i body : calls_for c _ (WriteVersion s c i body)
  | cf_WriteVersionAt i base body : calls_for c _ (WriteVersionAt s c i base body)
  | cf_ListFileVersions i : calls_for c _ (ListFileVersions c i)
  | cf_LatestOrdinal i : calls_for c _ (LatestOrdinal c i)
  | cf_List : calls_for c _ (List_ c)
  | cf_Get i : calls_for c _ (Get_ c i)
  | cf_Delete i : calls_for c _ (Delete_ s c i)
  | cf_CreateFolder parent name : calls_for c _ (CreateFolder c parent name)
  | cf_GetFolder i : calls_for c _ (GetFolder c i)
  | cf_ListChildren folder : calls_for c _ (ListChildren c folder)
  | cf_Ancestors i : calls_for c _ (Ancestors c i)
  | cf_AllFolders : calls_for c _ (AllFolders c)
  | cf_RenameFile i name : calls_for c _ (RenameFile c i name)
  | cf_MoveFile i dest : calls_for c _ (MoveFile c i dest)
  | cf_RenameFolder i name : calls_for c _ (RenameFolder c i name)
  | cf_MoveFolder i dest : calls_for c _ (MoveFolder c i dest)
  | cf_DeleteFolder i : calls_for c _ (DeleteFolder c i)
  | cf_DeleteFolderTree i : calls_for c _ (DeleteFolderTree s c i)
  | cf_Mint ttl i canWrite : calls_for c _ (Wopi.Mint ttl c i canWrite).

Lemma built_from_mono {A} (calls calls' : ∀ A, M KW A → Prop) (m : M KW A) :
  (∀ B (x : M KW B), calls B x → calls' B x) → built_from calls m → built_from calls' m.
Proof. intros Hc H. induction H; eauto using @built_from. Qed.

Lemma built_or_fail {A R} calls (onerr : error → R) (m : M KW A) (k : A → M KW R) :
  built_from calls m → (∀ a, built_from calls (k a)) → built_from calls (or_fail onerr m k).
Proof. intros Hm Hk. apply bf_bind; [by apply bf_attempt|]. intros [a|e]; [apply Hk|apply bf_ret]. Qed.

(** What was written, whether or not the rest failed. *)
Lemma built_sent {X A R} calls (m : M (KW * list X) A) (f : list X → R) :
  built_from calls (sent m) → built_from calls (λ w, let '(_, (w', out)) := m (w, []) in (Ok (f out), w')).
Proof.
  intros Hm. eapply (bf_ext _ _ (x ← sent m; mret (f x.2))).
  - apply bf_bind; [done|intros; apply bf_ret].
  - intros w. rewrite run_bind. unfold sent. by destruct (m (w, [])) as [r [w' out]].
Qed.

(** What was written, if nothing failed. *)
Lemma built_buffer {X A} calls (m : M (KW * list X) A) :
  built_from calls (sent m) →
  built_from calls (λ w, match m (w, []) with (Ok _, (w', out)) => (Ok out, w') | (Err e, (w', _)) => (Err e, w') end).
Proof.
  intros Hm. eapply (bf_ext _ _ (x ← sent m; match x.1 with Ok _ => mret x.2 | Err e => throw e end)).
  - apply bf_bind; [done|]. intros [[a|e] out]; [apply bf_ret|apply bf_throw].
  - intros w. rewrite run_bind. unfold sent. by destruct (m (w, [])) as [[a|e] [w' out]].
Qed.

(** A call for [c] is an operation of a run, called for [c]. *)
Lemma calls_act c A (m : M KW A) : calls_for c A m → acts s c m.
Proof.
  intros H.
  assert (∀ folder, acts s c (sent (DownloadZip s c folder))) as Hzip.
  { intros folder. apply acts_keeps. intros w0 w Hw. pose proof (DownloadZip_data s w0 c folder (w, []) Hw) as Hd.
    unfold sent. by destruct (DownloadZip s c folder (w, [])) as [r [w' ar]]. }
  assert (∀ i, acts s c (sent (Download s c i))) as Hdown.
  { intros i. apply (acts_op s c (KDownload c i)); [done|]. intros w. unfold sent. cbn [run_op].
    by destruct (Download s c i (w, [])) as [r [w' out]]. }
  destruct H; try done;
    (match goal with
    | |- acts s c (Upload _ _ ?f ?n ?b) => apply (acts_op s c (KUpload c f n b))
    | |- acts s c (WriteVersion _ _ ?i ?b) => apply (acts_op s c (KWrite c i b None))
    | |- acts s c (WriteVersionAt _ _ ?i ?n ?b) => apply (acts_op s c (KWrite c i b (Some n)))
    | |- acts s c (ListFileVersions _ ?i) => apply (acts_op s c (KVersions c i))
    | |- acts s c (LatestOrdinal _ ?i) => apply (acts_op s c (KOrdinal c i))
    | |- acts s c (List_ _) => apply (acts_op s c (KList c))
    | |- acts s c (Get_ _ ?i) => apply (acts_op s c (KGet c i))
    | |- acts s c (Delete_ _ _ ?i) => apply (acts_op s c (KDelete c i))
    | |- acts s c (CreateFolder _ ?p ?n) => apply (acts_op s c (KCreateFolder c p n))
    | |- acts s c (GetFolder _ ?i) => apply (acts_op s c (KGetFolder c i))
    | |- acts s c (ListChildren _ ?f) => apply (acts_op s c (KListChildren c f))
    | |- acts s c (Ancestors _ ?i) => apply (acts_op s c (KAncestors c i))
    | |- acts s c (AllFolders _) => apply (acts_op s c (KAllFolders c))
    | |- acts s c (RenameFile _ ?i ?n) => apply (acts_op s c (KRenameFile c i n))
    | |- acts s c (MoveFile _ ?i ?d) => apply (acts_op s c (KMoveFile c i d))
    | |- acts s c (RenameFolder _ ?i ?n) => apply (acts_op s c (KRenameFolder c i n))
    | |- acts s c (MoveFolder _ ?i ?d) => apply (acts_op s c (KMoveFolder c i d))
    | |- acts s c (DeleteFolder _ ?i) => apply (acts_op s c (KDeleteFolder c i))
    | |- acts s c (DeleteFolderTree _ _ ?i) => apply (acts_op s c (KDeleteTree c i))
    | |- acts s c (Wopi.Mint ?t _ ?i ?w) => apply (acts_op s c (KMint c i w t))
    end; [done|]; intros w; first [reflexivity | apply snd_ignored]).
Qed.

Lemma built_acts c {A} (m : M KW A) : built_from (calls_for c) m → acts s c m.
Proof.
  induction 1 as [A m Hm|A a|A e| |k|A B m k _ IHm _ IHk|A m _ IH|A m m' _ IH E].
  - by apply calls_act.
  - apply acts_ret.
  - intros w. apply by_refl.
  - intros w. apply by_refl.
  - intros w. eapply by_env; [|apply by_refl]. by split.
  - by apply acts_bind.
  - intros w. specialize (IH w). unfold attempt. by destruct (m w).
  - intros w. by rewrite <- E.
Qed.
End programs.

(** Without calls nothing is touched. *)
Lemma built_nobody {P : Platform} {A} (m : M KW A) :
  built_from nobody m → ∀ w, w_db (m w).2 = w_db w ∧ w_rest (m w).2 = w_rest w.
Proof.
  induction 1 as [A m Hm|A a|A e| |k|A B m k _ IHm _ IHk|A m _ IH|A m m' _ IH E]; intros w; try done.
  - rewrite run_bind. specialize (IHm w) as [H1 H2]. destruct (m w) as [[a|e] w1]; [|done].
    destruct (IHk a w1) as [H3 H4]. cbn in *. by rewrite H3, H4.
  - specialize (IH w). unfold attempt. by destruct (m w).
  - by rewrite <- E.
Qed.

#[export] Hint Constructors calls_for : built.
#[export] Hint Resolve built_or_fail built_sent built_buffer bf_call bf_ret : built.

Section requests.
Context {Pr : Primitives} {P : Platform} {F : OpenFGA} {Mi : Mime} {Au : Authenticator}.
Context (h : Handler).
Abbreviation s := (h_svc h).

(** A handler asks on behalf of the caller it was given, and of nobody else. *)
Lemma route_built m pat next c r : (m, pat, next) ∈ Routes h → built_from (calls_for s c) (next r c).
Proof.
  intros Hin. repeat (apply elem_of_cons in Hin as [[= -> -> ->]|Hin]); [..|by apply not_elem_of_nil in Hin].
  all: cbv beta delta [list_ upload get delete_ download putContent listVersions renameFile moveFile
    listChildren createFolder getFolder downloadZip deleteFolder renameFolder moveFolder] zeta.
  all: repeat match goal with
    | |- context [bool_decide ?X] => destruct (bool_decide X)
    | |- context [decodeName ?r] => destruct (decodeName r)
    | |- context [decodeMove ?r ?f] => destruct (decodeMove r f)
    | |- context [if ParseBool ?v then _ else _] => destruct (ParseBool v)
    end.
  all: repeat first [apply bf_ret | apply built_or_fail; [by auto with built|intros ?] | apply built_sent].
  all: by auto with built.
Qed.

(** The answer to a request, for what the provider says of its token: it comes from the
    file service as that caller sees it, or from nowhere. *)
Lemma serve_built method path r t x :
  (∀ v, w_now v = t → auth_Subject (bearer r) v = (x, v)) →
  ∃ prog, built_from (match x with
                      | Ok (Some c) => if bool_decide (bearer r = "") then nobody else calls_for s c
                      | _ => nobody end) prog ∧
    ∀ v, w_now v = t → serve h method path r v = prog v.
Proof.
  intros Hx. unfold serve, ServeMux.
  destruct (serve_mux_route status_only ((λ '(m, pat, next), (m, pat, authed next)) <$> Routes h) false method path r)
    as [(st&->&_)|(m&pat&nx&i&Hin&_&_&->)]; [eexists; split; [apply bf_ret|done]|].
  apply list_elem_of_fmap in Hin as ([[m' pat'] next]&[= -> -> ->]&Hin).
  unfold authed. change (bearer (set_id i r)) with (bearer r).
  case_bool_decide as Hb; [eexists; split; [apply bf_ret|done]|].
  exists (match x with
          | Err _ => mret (writeErr 502 "authentication unavailable")
          | Ok None => mret (writeErr 401 "invalid token")
          | Ok (Some c) => next (set_id i r) c
          end). split.
  - destruct x as [[c|]|e]; [by eapply route_built|apply bf_ret..].
  - intros v Hv. rewrite run_bind. unfold attempt. rewrite Hx by done. by destruct x as [[c|]|e].
Qed.

(** Every handler writes a response. *)
Definition answers {A} (m : M KW A) : Prop := ∀ w, is_ok (m w).1 = true.

Lemma answers_or_fail {A R} (onerr : error → R) (m : M KW A) (k : A → M KW R) :
  (∀ a, answers (k a)) → answers (or_fail onerr m k).
Proof.
  intros Hk w. unfold or_fail. rewrite run_bind. unfold attempt. destruct (m w) as [[a|e] w1]; [apply Hk|done].
Qed.

Lemma route_answers m pat next c r : (m, pat, next) ∈ Routes h → answers (next r c).
Proof.
  intros Hin. repeat (apply elem_of_cons in Hin as [[= -> -> ->]|Hin]); [..|by apply not_elem_of_nil in Hin].
  all: cbv beta delta [list_ upload get delete_ download putContent listVersions renameFile moveFile
    listChildren createFolder getFolder downloadZip deleteFolder renameFolder moveFolder] zeta.
  all: try case_bool_decide.
  all: try match goal with |- context [decodeName ?r] => destruct (decodeName r) end.
  all: try match goal with |- context [decodeMove ?r ?f] => destruct (decodeMove r f) end.
  all: try done.
  all: repeat (apply answers_or_fail; intros ?); try done.
  - intros w. by destruct (Download (h_svc h) c (o_ID a) (w, [])) as [? [? ?]].
  - intros w. by destruct (DownloadZip (h_svc h) c (Some (rq_id r)) (w, [])) as [? [? ?]].
Qed.

(** requests act for their caller and nobody else.  Every request to the API
    gets a response.  A request without a token the provider accepts, or that no
    route matches, leaves the database, the blobs and the tuples alone; every other
    request is a run of the file domain whose operations are all called for the
    subject the provider named for the token.  In particular every request is a
    run, so what holds in every reachable world holds behind the API. *)
Lemma api_acts_as_caller method path r w :
  ∃ resp w', serve h method path r w = (Ok resp, w') ∧ run s w w' ∧
    ((w_db w' = w_db w ∧ w_rest w' = w_rest w ∧ rs_status resp ∈ [401; 404; 405; 502]%Z) ∨
     (∃ caller w1, bearer r ≠ "" ∧ auth_Subject (bearer r) w = (Ok (Some caller), w1) ∧
        w_db w1 = w_db w ∧ w_rest w1 = w_rest w ∧ run_by s caller w1 w')).
Proof.
  unfold serve. destruct (serve_mux_cases status_only ((λ '(m, pat, next), (m, pat, authed next)) <$> Routes h)
    false method path r w) as [(st&E&Hst)|(m&pat&nx&i&Hin&_&_&E)]; unfold ServeMux; rewrite E.
  { exists (status_only st), w. split; [done|]. split; [apply run_refl|]. left.
    split_and!; [done..|]. cbn. destruct Hst as [-> | ->]; apply list_elem_of_In; cbn; auto 6. }
  apply list_elem_of_fmap in Hin as ([[m' pat'] next]&[= -> -> ->]&Hin).
  unfold authed. change (bearer (set_id i r)) with (bearer r). case_bool_decide as Hb.
  { eexists _, w. split; [reflexivity|]. split; [apply run_refl|]. left. cbn. split_and!; [done..|apply list_elem_of_In; cbn; auto 6]. }
  rewrite run_bind. unfold attempt. pose proof (auth_env (bearer r) w) as [Hd Hr].
  destruct (auth_Subject (bearer r) w) as [[[caller|]|e] w1] eqn:Ea; cbn [snd] in Hd, Hr.
  2, 3: (assert (run s w w1) by (injection Hr as Hb' _; apply (run_step s None _ w1); [by constructor|apply run_refl]);
    eexists _, w1; split; [reflexivity|]; split; [done|]; left; cbn; split_and!; [done..|apply list_elem_of_In; cbn; auto 6]).
  pose proof (route_answers _ _ _ caller (set_id i r) Hin w1) as Hok.
  pose proof (built_acts s caller _ (route_built _ _ _ caller (set_id i r) Hin) w1) as Hact.
  destruct (next (set_id i r) caller w1) as [[resp|e] w2] eqn:En; [|done]. cbn [snd] in Hact.
  exists resp, w2. split; [done|]. split.
  - apply (run_step s None _ w1); [injection Hr as ? _; by constructor|]. by eapply run_by_run.
  - right. exists caller, w1. done.
Qed.
End requests.

(** ** The body limit *)
Section limit.
Context {Pr : Primitives} {PrOk : PrimitivesOk} {P : Platform} {F : OpenFGA} {Mi : Mime}.
Context (h : Handler).
Abbreviation s := (h_svc h).

Lemma Ingest_over n body (w : KW) :
  good body → (0 <= n < blen (events_data body))%Z →
  ∃ e w', Ingest (s_cipher s) (MaxBytesReader n body) w = (Err e, w') ∧ w_db w' = w_db w ∧
    (w_faults w = [] → e = ErrMaxBytes).
Proof.
  intros Hg Hn. destruct (MaxBytesReader_large n body Hg Hn) as (g&Hg'&->).
  destruct (Split_fails kamara_params (ingest_chunk (s_cipher s) (D := KDB)) g ErrMaxBytes [] kamara_params_ok Hg')
    as (l&_&E). unfold Ingest. rewrite E, run_bind.
  destruct (for_each l _ _) as [r [w1 st]] eqn:El.
  pose proof (ingest_list_spec _ _ _ _ _ _ _ _ El) as [(Hd&_) _].
  destruct r as [[]|e]; do 2 eexists; (split; [reflexivity|]); (split; [exact Hd|]); [done|].
  intros Hf. destruct (ingest_list_nil (s_cipher s) l w ([], 0%Z) Hf) as (?&?&E'&_). congruence.
Qed.

Lemma refused_status msg e : (400 <= rs_status (too_large msg e))%Z.
Proof. unfold too_large, fail. repeat (destruct (errors_is _ _)); cbn; lia. Qed.

Lemma authorized_nil caller o (w : KW) :
  w_faults w = [] → fga_check (w_fga w) (tuple caller AccessRelation o) = true →
  authorizeAccess caller o w = (Ok tt, w).
Proof. intros Hf Hc. unfold authorizeAccess. by rewrite run_bind, run_Check_nil, Hc. Qed.

(** A program that authorizes, then ingests a body over the limit. *)
Lemma over_limit_fails {A} (auth : M KW unit) body (k : list ChunkRef * Z → M KW A) (w : KW) :
  (∀ w, keeps (same_data w) auth) → good body → (0 <= h_maxUpload h < blen (events_data body))%Z →
  ∃ e w', (auth ;; r ← Ingest (s_cipher s) (MaxBytesReader (h_maxUpload h) body); k r) w = (Err e, w') ∧
    w_db w' = w_db w ∧ (w_faults w = [] → auth w = (Ok tt, w) → e = ErrMaxBytes).
Proof.
  intros Ha Hg Hn. rewrite run_bind. destruct (Ha w w (conj eq_refl eq_refl)) as [Hd _].
  destruct (auth w) as [[[]|e] w1]; cbn [snd] in Hd.
  2: { exists e, w1. split_and!; [done..|]. intros _ [=]. }
  destruct (Ingest_over _ _ w1 Hg Hn) as (e&w2&E&Hd2&He). rewrite (run_bind_err _ _ _ _ _ E).
  exists e, w2. split_and!; [done|congruence|]. intros Hf [= ->]. by apply He.
Qed.

(** C32: the size limit holds.  A body longer than the limit never becomes a file or a
    version: whatever fails, the database is as it was and the response is an
    error; without faults, and with access, it is 413. *)
Theorem body_limit_enforced r caller w :
  good (rq_body r) → (0 <= h_maxUpload h < blen (events_data (rq_body r)))%Z →
  (∃ resp w', upload h r caller w = (Ok resp, w') ∧ w_db w' = w_db w ∧ (400 <= rs_status resp)%Z ∧
     (w_faults w = [] → query_get r "name" ≠ "" →
      (∀ f, optStr (query_get r "folder") = Some f →
         fga_check (w_fga w) (tuple caller AccessRelation (folderObj f)) = true) → rs_status resp = 413%Z)) ∧
  (∃ resp w', putContent h r caller w = (Ok resp, w') ∧ w_db w' = w_db w ∧ (400 <= rs_status resp)%Z ∧
     (w_faults w = [] → fga_check (w_fga w) (tuple caller AccessRelation (obj (rq_id r))) = true →
      rs_status resp = 413%Z)).
Proof.
  intros Hg Hn. split.
  - unfold upload. case_bool_decide as Hname; [by eexists _, _|].
    unfold or_fail. rewrite run_bind. unfold attempt, Upload. rewrite bool_decide_eq_false_2 by done.
    edestruct (over_limit_fails (A := Object)
      (match optStr (query_get r "folder") with Some f => authorizeFolder caller f | None => mret tt end)
      (rq_body r) (λ x, upload_commit caller (optStr (query_get r "folder")) (query_get r "name") x.1 x.2) w)
      as (e&w'&E&Hd&He); [|done|done|].
    { intros w0. destruct (optStr _); [apply keeps_same_authorize|apply keeps_ret]. }
    rewrite E. eexists _, _. split; [reflexivity|]. split; [done|]. split; [apply refused_status|].
    intros Hf _ Hc. rewrite He; [done|done|]. destruct (optStr _) as [f|]; [|done].
    apply authorized_nil; auto.
  - unfold putContent, or_fail. rewrite run_bind. unfold attempt, WriteVersion, writeVersion.
    edestruct (over_limit_fails (A := Z) (authorize caller (rq_id r)) (rq_body r)
      (λ x, write_version_loop maxAttempts caller (rq_id r) None x.1 x.2) w) as (e&w'&E&Hd&He); [|done|done|].
    { intros w0. apply keeps_same_authorize. }
    rewrite E. eexists _, _. split; [reflexivity|]. split; [done|]. split; [apply refused_status|].
    intros Hf Hc. rewrite He; [done|done|]. by apply authorized_nil.
Qed.
End limit.

(** ** Witnesses *)
Module ApiDemo.
#[local] Existing Instance toy_primitives.
#[local] Existing Instance toy_primitives_ok.
#[local] Existing Instance counting_platform.
#[local] Existing Instance owner_fga.
#[local] Existing Instance no_mime.

Definition small : Handler := New demo_service 3.
Definition request (body : bytes) : Request :=
  MkRequest "" {["name" := "a.txt"]} {["Authorization" := "bearer tok"]} ∅ [RData body] None.

(** A provider that knows one token. *)
Definition one_token : Authenticator.
Proof.
  refine {| auth_Subject t := mret (if bool_decide (t = "tok") then Some demo_user else None) |}.
  by intros token w.
Defined.
#[local] Existing Instance one_token.

Definition responds method path r : option Z :=
  match (serve small method path r (boot kdb_empty)).1 with Ok x => Some (rs_status x) | Err _ => None end.

Example api_statuses :
  responds "POST" ["v1"; "files"] (request [x61]) = Some 201%Z ∧
  responds "POST" ["v1"; "files"] (request [x61; x62; x63; x64]) = Some 413%Z ∧
  responds "GET" ["v1"; "files"; "i"] (request []) = Some 403%Z ∧
  responds "PATCH" ["v1"; "files"] (request []) = Some 405%Z ∧
  responds "GET" ["v1"; "nothing"] (request []) = Some 404%Z ∧
  responds "GET" ["v1"; "files"] (MkRequest "" ∅ ∅ ∅ [] None) = Some 401%Z.
Proof. vm_compute. repeat split. Qed.

Lemma body_limit_enforced_witness :
  ∃ resp w', upload small (request [x61; x62; x63; x64]) demo_user (boot kdb_empty) = (Ok resp, w') ∧
    w_db w' = kdb_empty ∧ rs_status resp = 413%Z.
Proof.
  pose proof (body_limit_enforced small (request [x61; x62; x63; x64]) demo_user (boot kdb_empty)) as H.
  destruct H as [(resp&w'&E&Hd&_&Hs) _].
  - repeat constructor. do 2 eexists. reflexivity.
  - vm_compute. split; [done|reflexivity].
  - exists resp, w'. split; [exact E|]. split; [exact Hd|]. apply Hs; [reflexivity|vm_compute; discriminate|].
    intros f Hf. exfalso. vm_compute in Hf. discriminate.
Defined.
End ApiDemo.
