(* ===== verification/WopiHost.v ===== *)
(** * WopiHost: the endpoints of the office engine (kamara/internal/api/wopi.go)

    CheckFileInfo, GetFile and PutFile, authenticated by the session token of
    Wopi.v, for the one file the session is bound to. *)

From stdpp Require Import pretty.
From S2P Require Import Prelude GoText Ids World Pii Pseudonym Conventions Authz Chunker ChunkCrypto Blob Engine Repo FileService KamaraSafety Kamara Access Wopi Http Headers Api.
Import Pii Chunker.

Definition NewWopi (svc : Service) (maxUpload : Z) : Handler :=
  MkHandler svc (if (maxUpload <=? 0)%Z then DefaultMaxUploadBytes else maxUpload).

Definition wopiToken (r : Request) : string :=
  let t := bearer r in
  if bool_decide (t = "") then query_get r "access_token" else t.

Definition failWopi (e : error) : Response :=
  if errors_is e ErrNotFound then status_only 404
  else if errors_is e ErrForbidden then status_only 403
  else status_only 500.

Section host.
Context {Pr : Primitives} {P : Platform} {F : OpenFGA} {Mi : Mime}.
Context (h : Handler).
Abbreviation s := (h_svc h).

Definition wopiHandler : Type := Request → Session → M KW Response.

Definition session (next : wopiHandler) (r : Request) : M KW Response :=
  v ← attempt (Wopi.Validate (wopiToken r));
  match v with
  | Err e => mret (status_only (if errors_is e ErrInvalid then 401 else 500))
  | Ok sess =>
      if bool_decide (ws_ObjectID sess = rq_id r) then next r sess
      else mret (status_only 401)
  end.

Definition checkFileInfo : wopiHandler := λ r sess,
  or_fail failWopi (Get_ (ws_Subject sess) (ws_ObjectID sess)) (λ o,
    mret (writeJSON 200 (JObj [
      ("BaseFileName", JStr (o_Name o));
      ("LastModifiedTime", JStr (rfc3339 (o_Updated o)));
      ("OwnerId", JStr (UserID (o_Owner o)));
      ("Size", JNum (o_Size o));
      ("SupportsLocks", JBool false);
      ("SupportsUpdate", JBool true);
      ("UserCanWrite", JBool (ws_CanWrite sess));
      ("UserFriendlyName", JStr "Peristera user");
      ("UserId", JStr (UserID (ws_Subject sess)));
      ("Version", JStr (rfc3339_nano (o_Updated o)))]))).

Definition getFile : wopiHandler := λ r sess,
  or_fail failWopi (Get_ (ws_Subject sess) (ws_ObjectID sess)) (λ o w,
    let '(_, (w', out)) := Download s (ws_Subject sess) (ws_ObjectID sess) (w, []) in
    (Ok (MkResponse 200 [("Content-Type", ContentType (o_ContentType o))] (BBytes out)), w')).

Definition wopi_too_large (e : error) : Response :=
  if errors_is e ErrMaxBytes then status_only 413 else failWopi e.

Definition putFile : wopiHandler := λ r sess,
  let ov := header_get r "X-WOPI-Override" in
  if negb (bool_decide (ov = "")) && negb (bool_decide (ov = "PUT")) then mret (status_only 501)
  else if negb (ws_CanWrite sess) then mret (status_only 403)
  else
    let body := MaxBytesReader (h_maxUpload h) (rq_body r) in
    or_fail wopi_too_large (WriteVersion s (ws_Subject sess) (ws_ObjectID sess) body) (λ version,
      mret (MkResponse 200 [("X-WOPI-ItemVersion", pretty version)] BEmpty)).

Definition WopiRoutes : list (string * list segment * wopiHandler) :=
  [("GET", [Lit "wopi"; Lit "files"; Wild], checkFileInfo);
   ("GET", [Lit "wopi"; Lit "files"; Wild; Lit "contents"], getFile);
   ("POST", [Lit "wopi"; Lit "files"; Wild; Lit "contents"], putFile)].

Definition serve_wopi (method : string) (path : list string) (r : Request) : M KW Response :=
  ServeMux ((λ '(m, pat, next), (m, pat, session next)) <$> WopiRoutes) method path r.

(** ** What a session may do *)

(** A request that may save: POST to the contents of the session's own file. *)
Definition may_save (w : KW) (method : string) (path : list string) (r : Request) (sess : Session) : Prop :=
  Wopi.valid w (wopiToken r) sess ∧ method = "POST" ∧
  path = ["wopi"; "files"; ws_ObjectID sess; "contents"] ∧ ws_CanWrite sess = true ∧
  (header_get r "X-WOPI-Override" = "" ∨ header_get r "X-WOPI-Override" = "PUT").

Lemma keeps_Download_same w0 caller i :
  keeps (λ st : KW * bytes, same_data w0 st.1) (Download s caller i).
Proof.
  pose proof (same_data_stores w0) as HS. unfold Download, ManifestOf.
  apply keeps_bind; [apply (keeps_on_world (same_data w0)), keeps_same_authorize|intros _].
  apply keeps_bind; [by apply (keeps_on_world (same_data w0)), keeps_query|intros refs].
  apply keeps_Reassemble.
Qed.

Lemma keeps_Get_same w0 caller i : keeps (same_data w0) (Get_ caller i).
Proof.
  pose proof (same_data_stores w0) as HS. unfold Get_, GetObject.
  apply keeps_bind; [apply keeps_same_authorize|intros _].
  apply keeps_bind; [by apply keeps_query|intros [o|]; [apply keeps_ret|apply keeps_throw]].
Qed.

Lemma keeps_or_fail {A R} w0 (onerr : error → R) (m : M KW A) k :
  keeps (same_data w0) m → (∀ a, keeps (same_data w0) (k a)) → keeps (same_data w0) (or_fail onerr m k).
Proof.
  intros Hm Hk. apply keeps_bind; [by apply keeps_attempt|]. intros [a|e]; [apply Hk|apply keeps_ret].
Qed.

Lemma keeps_getFile w0 r sess : keeps (same_data w0) (getFile r sess).
Proof.
  apply keeps_or_fail; [apply keeps_Get_same|]. intros o w Hw.
  pose proof (keeps_Download_same w0 (ws_Subject sess) (ws_ObjectID sess) (w, []) Hw) as H.
  by destruct (Download s _ _ (w, [])) as [x [w' out]].
Qed.

Lemma keeps_checkFileInfo w0 r sess : keeps (same_data w0) (checkFileInfo r sess).
Proof. apply keeps_or_fail; [apply keeps_Get_same|intros; apply keeps_ret]. Qed.

Lemma answers_session next r : (∀ sess, answers (next r sess)) → answers (session next r).
Proof.
  intros Hn w. unfold session. rewrite run_bind. unfold attempt.
  destruct (Wopi.Validate (wopiToken r) w) as [[sess|e] w1]; [|done].
  case_bool_decide; [apply Hn|done].
Qed.

Lemma route_answers_wopi m pat next r sess : (m, pat, next) ∈ WopiRoutes → answers (next r sess).
Proof.
  intros Hin. repeat (apply elem_of_cons in Hin as [[= -> -> ->]|Hin]); [..|by apply not_elem_of_nil in Hin].
  - by apply answers_or_fail.
  - apply answers_or_fail. intros o w. by destruct (Download s _ _ (w, [])) as [? [? ?]].
  - unfold putFile. destruct (_ && _); [done|]. destruct (ws_CanWrite sess); [|done]. by apply answers_or_fail.
Qed.

Lemma match_contents path i :
  match_path [Lit "wopi"; Lit "files"; Wild; Lit "contents"] path "" = Some i →
  path = ["wopi"; "files"; i; "contents"].
Proof.
  destruct path as [|a [|b [|c [|d [|e path]]]]]; cbn; repeat case_bool_decide; try done.
  by intros [= <-]; subst.
Qed.

Lemma match_POST method : match_method "POST" method = true → method = "POST".
Proof. unfold match_method. rewrite orb_true_iff, !bool_decide_eq_true. by intros [<-|[=]%andb_true_iff%proj1]. Qed.

(** What serving a route does: nothing to the data, or a save by a session that may. *)
Lemma route_effect m pat next i method path r w :
  (m, pat, next) ∈ WopiRoutes → match_path pat path "" = Some i → match_method m method = true →
  let w' := (session next (set_id i r) w).2 in
  same_data w w' ∨
  ∃ sess w1, may_save w method path r sess ∧ same_data w w1 ∧
    w' = (WriteVersion s (ws_Subject sess) (ws_ObjectID sess) (MaxBytesReader (h_maxUpload h) (rq_body r)) w1).2.
Proof.
  intros Hin Hp Hm. unfold session. change (wopiToken (set_id i r)) with (wopiToken r). cbv zeta.
  rewrite run_bind. unfold attempt.
  destruct (Wopi.Validate (wopiToken r) w) as [v w1] eqn:Ev.
  apply Wopi.Validate_spec in Ev as (Hd&Hr&_&Hv).
  assert (same_data w w1) as Hs by (injection Hr as Hb _; by split).
  destruct v as [sess|e]; [|by left]. cbn [rq_id set_id]. case_bool_decide as Hid; [|by left].
  repeat (apply elem_of_cons in Hin as [[= -> -> ->]|Hin]); [..|by apply not_elem_of_nil in Hin].
  - left. by apply keeps_checkFileInfo.
  - left. by apply keeps_getFile.
  - apply match_contents in Hp. apply match_POST in Hm. unfold putFile.
    change (header_get (set_id i r)) with (header_get r).
    destruct (negb (bool_decide (header_get r "X-WOPI-Override" = "")) && _) eqn:Eo; [by left|].
    destruct (ws_CanWrite sess) eqn:Ew; [|by left]. cbn [negb].
    right. exists sess, w1. split.
    { unfold may_save. rewrite Hid. split_and!; [done..|].
      apply andb_false_iff in Eo as [Eo|Eo]; apply negb_false_iff, bool_decide_eq_true in Eo; auto. }
    split; [done|]. unfold or_fail. rewrite run_bind. unfold attempt. cbn [rq_body set_id].
    by destruct (WriteVersion s _ _ _ w1) as [[?|?] ?].
Qed.

(** The calls a session opens: its file, as its user; a save if it may write. *)
Inductive calls_in (sess : Session) : ∀ A, M KW A → Prop :=
  | ci_Get : calls_in sess _ (Get_ (ws_Subject sess) (ws_ObjectID sess))
  | ci_Download : calls_in sess _ (sent (Download s (ws_Subject sess) (ws_ObjectID sess)))
  | ci_WriteVersion body :
      ws_CanWrite sess = true → calls_in sess _ (WriteVersion s (ws_Subject sess) (ws_ObjectID sess) body).

Lemma route_built_wopi m pat next r sess :
  (m, pat, next) ∈ WopiRoutes → built_from (calls_in sess) (next r sess).
Proof.
  intros Hin. repeat (apply elem_of_cons in Hin as [[= -> -> ->]|Hin]); [..|by apply not_elem_of_nil in Hin].
  - apply built_or_fail; [apply bf_call, ci_Get|intros; apply bf_ret].
  - apply built_or_fail; [apply bf_call, ci_Get|intros; apply built_sent, bf_call, ci_Download].
  - unfold putFile. destruct (_ && _); [apply bf_ret|]. destruct (ws_CanWrite sess) eqn:Ew; [|apply bf_ret].
    apply built_or_fail; [by apply bf_call, ci_WriteVersion|intros; apply bf_ret].
Qed.

(** The answer to a request, session by session. *)
Lemma serve_wopi_built method path r :
  built_from nobody (serve_wopi method path r) ∨
  ∃ f, (∀ sess, built_from (calls_in sess) (f sess)) ∧
    ∀ v, serve_wopi method path r v =
      (x ← attempt (Wopi.Validate (wopiToken r));
       match x with Ok sess => f sess | Err e => mret (status_only (if errors_is e ErrInvalid then 401 else 500)) end) v.
Proof.
  unfold serve_wopi, ServeMux.
  destruct (serve_mux_route status_only ((λ '(m, pat, next), (m, pat, session next)) <$> WopiRoutes) false method path r)
    as [(st&->&_)|(m&pat&nx&i&Hin&_&_&->)]; [left; apply bf_ret|right].
  apply list_elem_of_fmap in Hin as ([[m' pat'] next]&[= -> -> ->]&Hin).
  exists (λ sess, if bool_decide (ws_ObjectID sess = i) then next (set_id i r) sess else mret (status_only 401)). split.
  - intros sess. case_bool_decide; [by eapply route_built_wopi|apply bf_ret].
  - intros v. unfold session. change (wopiToken (set_id i r)) with (wopiToken r). rewrite !run_bind.
    by destruct (attempt _ v) as [[[sess|e]|e] w'].
Qed.

(** the office engine can touch one file, through one session.  Every request to
    the WOPI host gets a response, and leaves the database and the blobs alone, or
    is exactly one save of a new version, of the file the token is bound to and on
    behalf of the session's user, by a POST to that file's contents with a token
    that is valid at that moment and may write, without a lock override. *)
Lemma wopi_host_confined method path r w :
  ∃ resp w', serve_wopi method path r w = (Ok resp, w') ∧
    (same_data w w' ∨
     ∃ sess w1, may_save w method path r sess ∧ same_data w w1 ∧
       kstep s (Some (KWrite (ws_Subject sess) (ws_ObjectID sess)
                        (MaxBytesReader (h_maxUpload h) (rq_body r)) None)) w1 w').
Proof.
  unfold serve_wopi. destruct (serve_mux_cases status_only ((λ '(m, pat, next), (m, pat, session next)) <$> WopiRoutes)
    false method path r w) as [(st&E&_)|(m&pat&nx&i&Hin&Hp&Hm&E)]; unfold ServeMux; rewrite E.
  { eexists _, w. split; [reflexivity|]. by left. }
  apply list_elem_of_fmap in Hin as ([[m' pat'] next]&[= -> -> ->]&Hin).
  pose proof (answers_session next (set_id i r) (λ sess, route_answers_wopi _ _ _ _ sess Hin) w) as Hok.
  pose proof (route_effect _ _ _ _ _ _ r w Hin Hp Hm) as He. cbv zeta in He.
  destruct (session next (set_id i r) w) as [[resp|e] w'] eqn:Es; [|done]. cbn [snd] in He.
  exists resp, w'. split; [done|]. destruct He as [?|(sess&w1&Hsv&Hs&->)]; [by left|right].
  exists sess, w1. split_and!; [done..|]. unfold WriteVersion. rewrite (snd_ignored _ w1).
  exact (kstep_op s (KWrite (ws_Subject sess) (ws_ObjectID sess) (MaxBytesReader (h_maxUpload h) (rq_body r)) None) w1).
Qed.
End host.
