(* ===== verification/BytesTrim.v ===== *)
(** * BytesTrim: bytes.TrimSpace and strings.TrimSpace on arbitrary bytes

    White space is Unicode's; runes are decoded from the left and from the right as
    unicode/utf8 decodes them. *)

From S2P Require Import Prelude GoText.

(** ** bytes.TrimSpace *)
Definition IsSpace (r : Z) : bool :=
  ((9 <=? r) && (r <=? 13) || (r =? 32) || (r =? 133) || (r =? 160) || (r =? 5760) ||
   (8192 <=? r) && (r <=? 8202) || (r =? 8232) || (r =? 8233) || (r =? 8239) || (r =? 8287) || (r =? 12288))%Z.

(** utf8.DecodeLastRune *)
Definition RuneStart (b : byte) : bool := negb ((128 <=? bz b) && (bz b <? 192))%Z.

Definition starts_at (l : bytes) (k : nat) : Prop :=
  match l !! (length l - k) with Some b => k ≤ length l ∧ RuneStart b = true | None => False end.
#[global] Instance starts_at_dec l k : Decision (starts_at l k).
Proof. unfold starts_at. destruct (l !! _); apply _. Defined.

Definition decode_last_rune (l : bytes) : Z * nat :=
  match last l with
  | None => (RuneError, 0)
  | Some b =>
      if (bz b <? 128)%Z then (bz b, 1)
      else
        match list_find (starts_at l) [2; 3; 4] with
        | Some (_, k) =>
            let '(r, size) := decode_rune (drop (length l - k) l) in
            if bool_decide (size = k) then (r, size) else (RuneError, 1)
        | None => (RuneError, 1)
        end
  end.

(** A rune is at least one byte, so [length l] steps suffice. *)
Fixpoint trim_left_space (fuel : nat) (l : bytes) : bytes :=
  match fuel, l with
  | S f, _ :: _ => let '(r, n) := decode_rune l in if IsSpace r then trim_left_space f (drop n l) else l
  | _, _ => l
  end.
Fixpoint trim_right_space (fuel : nat) (l : bytes) : bytes :=
  match fuel, l with
  | S f, _ :: _ =>
      let '(r, n) := decode_last_rune l in if IsSpace r then trim_right_space f (take (length l - n) l) else l
  | _, _ => l
  end.
Definition bytes_TrimSpace (l : bytes) : bytes :=
  let l' := trim_left_space (length l) l in trim_right_space (length l') l'.

(** ** Text between white space *)
Definition space (b : byte) : Prop := (bz b < 128)%Z ∧ IsSpace (bz b) = true.
Definition solid (b : byte) : Prop := (bz b < 128)%Z ∧ IsSpace (bz b) = false.

Lemma trim_left_spaces ws b l fuel :
  Forall space ws → solid b → length ws < fuel → trim_left_space fuel (ws ++ b :: l) = b :: l.
Proof.
  intros Hws [Hb Hs]. revert fuel. induction Hws as [|x ws [Hx Hsx] _ IH]; intros fuel Hf;
    (destruct fuel as [|f]; [cbn in Hf; lia|]); cbn [app trim_left_space decode_rune].
  - rewrite (proj2 (Z.ltb_lt _ _)) by done. by rewrite Hs.
  - rewrite (proj2 (Z.ltb_lt _ _)) by done. rewrite Hsx. cbn [drop]. apply IH. cbn in Hf. lia.
Qed.

Lemma decode_last_ascii l b : (bz b < 128)%Z → decode_last_rune (l ++ [b]) = (bz b, 1).
Proof. intros Hb. unfold decode_last_rune. rewrite last_snoc. by rewrite (proj2 (Z.ltb_lt _ _)). Qed.

Lemma trim_right_spaces ws b l fuel :
  Forall space ws → solid b → length ws < fuel → trim_right_space fuel ((l ++ [b]) ++ ws) = l ++ [b].
Proof.
  intros Hws [Hb Hs]. revert fuel. induction ws as [|x ws IH] using rev_ind; intros fuel Hf.
  - rewrite app_nil_r. destruct fuel as [|f]; [lia|]. cbn [trim_right_space].
    rewrite decode_last_ascii by done. rewrite Hs. by destruct (l ++ [b]).
  - apply Forall_app in Hws as [Hws [[Hx Hsx] _]%Forall_cons]. rewrite length_app in Hf. cbn in Hf.
    destruct fuel as [|f]; [lia|]. cbn [trim_right_space]. rewrite app_assoc, decode_last_ascii by done. rewrite Hsx.
    rewrite length_app. cbn [length]. replace (_ + 1 - 1) with (length ((l ++ [b]) ++ ws)) by lia.
    rewrite take_app_length, IH; [|done|lia]. by destruct (((l ++ [b]) ++ ws) ++ [x]) eqn:E; [apply app_eq_nil in E as [_ [=]]|].
Qed.

Lemma bytes_TrimSpace_text ws1 ws2 l a b :
  Forall space ws1 → Forall space ws2 → solid a → solid b → head l = Some a → last l = Some b →
  bytes_TrimSpace (ws1 ++ l ++ ws2) = l.
Proof.
  intros H1 H2 Ha Hb Hh Hl. destruct l as [|a' l]; [done|]. injection Hh as ->. unfold bytes_TrimSpace. cbn [app].
  rewrite (trim_left_spaces ws1 a (l ++ ws2)); [|done|done|rewrite length_app; cbn; lia].
  apply last_Some in Hl as [l' Hl']. change (a :: l ++ ws2) with ((a :: l) ++ ws2). rewrite Hl'.
  apply trim_right_spaces; [done|done|]. rewrite !length_app. cbn. lia.
Qed.

Definition strings_TrimSpace (s : string) : string := bytes_str (bytes_TrimSpace (str_bytes s)).
