(* ===== verification/Url.v ===== *)
(** * Url: the query encoding of net/url

    Escaping and unescaping of query components, [ParseQuery] and [Values.Encode] of
    values whose keys are given in order; parsing gives back what was encoded. *)

From S2P Require Import Prelude GoText.

Definition unreserved (b : byte) : bool :=
  let z := bz b in
  ((48 <=? z) && (z <=? 57) || (65 <=? z) && (z <=? 90) || (97 <=? z) && (z <=? 122) ||
   (z =? 45) || (z =? 46) || (z =? 95) || (z =? 126))%Z.

Definition query_byte (b : byte) : bytes :=
  if unreserved b then [b] else if bool_decide (b = x20) then [x2b] else x25 :: str_bytes (ToUpper (hex_byte b)).

Definition QueryEscape (v : string) : string := bytes_str (concat (query_byte <$> str_bytes v)).

Definition unhex (b : byte) : option Z :=
  let z := bz b in
  (if (48 <=? z) && (z <=? 57) then Some (z - 48)
   else if (97 <=? z) && (z <=? 102) then Some (z - 87)
   else if (65 <=? z) && (z <=? 70) then Some (z - 55) else None)%Z.

Fixpoint unescape (l : bytes) : option bytes :=
  match l with
  | [] => Some []
  | x25 :: l' =>
      match l' with
      | p :: q :: l'' => v ← unhex p; w ← unhex q; rest ← unescape l''; Some (byte_of_Z (16 * v + w)%Z :: rest)
      | _ => None
      end
  | b :: l' => rest ← unescape l'; Some ((if bool_decide (b = x2b) then x20 else b) :: rest)
  end.

Definition QueryUnescape (s : string) : option string := bytes_str <$> unescape (str_bytes s).

(** One piece between ampersands: nothing, a pair, or an error. *)
Definition parse_piece (p : string) : option (list (string * string)) :=
  if contains_byte ";"%char p then None
  else if bool_decide (p = "") then Some []
  else
    let '(k, v) := match cut_byte "="%char p with Some kv => kv | None => (p, "") end in
    k' ← QueryUnescape k; v' ← QueryUnescape v; Some [(k', v')].

(** The pairs in order, and whether every piece was well formed; a bad piece is
    skipped. *)
Definition ParseQuery (q : string) : list (string * string) * bool :=
  let pieces := parse_piece <$> split_byte "&"%char q in
  (concat (default [] <$> pieces), forallb (λ p, bool_decide (is_Some p)) pieces).

(** Forms in which each byte is written by [enc]. *)
Definition escape_with (enc : byte → bytes) (v : string) : string := bytes_str (concat (enc <$> str_bytes v)).
Definition pair_with (enc : byte → bytes) (kv : string * string) : string := escape_with enc kv.1 +:+ "=" +:+ escape_with enc kv.2.
Definition encode_with (enc : byte → bytes) (l : list (string * string)) : string := join "&" (pair_with enc <$> l).

Definition encode_pair : string * string → string := pair_with query_byte.
Definition Encode : list (string * string) → string := encode_with query_byte.

(** The first value of a key. *)
Definition first_value (k : string) (l : list (string * string)) : option string :=
  snd <$> head (filter (λ kv, kv.1 = k) l).

(** ** Round trips *)

(** No separator survives escaping. *)
Definition separator (b : byte) : bool := bool_decide (b ∈ [x26; x3b; x3d]).

Class Encoder (enc : byte → bytes) : Prop := {
  unescape_enc b l : unescape (enc b ++ l) = (cons b) <$> unescape l;
  enc_safe b : forallb (λ x, negb (separator x)) (enc b) = true;
}.

Lemma contains_byte_cons c d s : contains_byte c (String d s) = false ↔ d ≠ c ∧ contains_byte c s = false.
Proof. cbn. by rewrite orb_false_iff, bool_decide_eq_false. Qed.

Section encoder.
Context (enc : byte → bytes) {En : Encoder enc}.

Lemma unescape_all l : unescape (concat (enc <$> l)) = Some l.
Proof. induction l as [|b l IH]; [done|]. cbn [fmap list_fmap concat]. by rewrite unescape_enc, IH. Qed.

Lemma QueryUnescape_with v : QueryUnescape (escape_with enc v) = Some v.
Proof. unfold QueryUnescape, escape_with. rewrite str_bytes_str, unescape_all. cbn. by rewrite bytes_str_bytes. Qed.

Lemma contains_byte_with c v : c ∈ ["&"; ";"; "="]%char → contains_byte c (escape_with enc v) = false.
Proof.
  intros Hc. unfold escape_with.
  assert (forallb (λ x, negb (separator x)) (concat (enc <$> str_bytes v)) = true) as Hs.
  { induction (str_bytes v) as [|b l IH]; [done|]. cbn [fmap list_fmap concat]. by rewrite forallb_app, enc_safe, IH. }
  revert Hs. generalize (concat (enc <$> str_bytes v)). intros l.
  induction l as [|b l IH]; [done|]. cbn [forallb]. intros [Hb Hl]%andb_true_iff.
  apply (contains_byte_cons c (Ascii.ascii_of_byte b)). split; [|by apply IH]. intros E.
  rewrite !elem_of_cons, elem_of_nil in Hc. destruct_or! Hc; subst c; try done; by destruct b.
Qed.

Lemma contains_byte_pair_with c kv : c ∈ ["&"; ";"]%char → contains_byte c (pair_with enc kv) = false.
Proof.
  intros Hc. unfold pair_with. rewrite !contains_byte_app, !contains_byte_with by set_solver.
  rewrite !elem_of_cons, elem_of_nil in Hc. by destruct_or! Hc; subst c.
Qed.

Lemma parse_pair_with kv : parse_piece (pair_with enc kv) = Some [kv].
Proof.
  unfold parse_piece. rewrite contains_byte_pair_with by set_solver. unfold pair_with.
  rewrite bool_decide_eq_false_2 by (intros H; by destruct (escape_with enc kv.1)).
  change ("=" +:+ escape_with enc kv.2) with (String "=" (escape_with enc kv.2)).
  rewrite cut_byte_app by (apply contains_byte_with; set_solver).
  rewrite !QueryUnescape_with. by destruct kv.
Qed.

(** Parsing an encoded form gives back its pairs. *)
Lemma ParseQuery_with l : ParseQuery (encode_with enc l) = (l, true).
Proof.
  assert (∀ x l, parse_piece <$> split_byte "&"%char (encode_with enc (x :: l)) = (λ kv, Some [kv]) <$> x :: l) as H.
  { intros x l'. revert x. induction l' as [|y l' IH]; intros x; unfold encode_with; cbn [fmap list_fmap join].
    - rewrite split_byte_plain by (apply contains_byte_pair_with; set_solver). cbn. by rewrite parse_pair_with.
    - change ("&" +:+ ?u) with (String "&" u). rewrite split_byte_app, split_byte_plain by (apply contains_byte_pair_with; set_solver). cbn [app fmap list_fmap].
      rewrite parse_pair_with. f_equal. apply (IH y). }
  destruct l as [|x l]; [done|]. unfold ParseQuery. rewrite H. f_equal.
  - generalize (x :: l). intros k. induction k as [|kv k IH]; [done|]. cbn. by f_equal.
  - generalize (x :: l). intros k. by induction k as [|kv k IH].
Qed.
End encoder.

(** 256 bytes, each by computation. *)
Ltac unescapes := intros [] ?;
  match goal with |- unescape (?q ++ ?l) = _ => let q' := eval vm_compute in q in change q with q'; cbn [app unescape]; destruct (unescape l) end;
  vm_compute; reflexivity.

#[export] Instance query_encoder : Encoder query_byte.
Proof. split; [unescapes|by intros []]. Qed.

Lemma QueryUnescape_QueryEscape v : QueryUnescape (QueryEscape v) = Some v.
Proof. exact (QueryUnescape_with query_byte v). Qed.
Lemma contains_byte_escape c v : c ∈ ["&"; ";"; "="]%char → contains_byte c (QueryEscape v) = false.
Proof. exact (contains_byte_with query_byte c v). Qed.
Lemma contains_byte_pair c kv : c ∈ ["&"; ";"]%char → contains_byte c (encode_pair kv) = false.
Proof. exact (contains_byte_pair_with query_byte c kv). Qed.
Lemma ParseQuery_Encode l : ParseQuery (Encode l) = (l, true).
Proof. exact (ParseQuery_with query_byte l). Qed.

Example query_demo :
  ParseQuery "name=a%20b+c&&dest=&bad=%zz&x;y=1" = ([("name", "a b c"); ("dest", "")], false).
Proof. vm_compute. reflexivity. Qed.
