(* ===== verification/GoTemplate.v ===== *)
(** * GoTemplate: Go's text/template, as far as the pages use it

    The pages of Kamara, of Ergonomos, of the control plane and of the stub are Go
    templates.  This file holds the language: dynamic values in place of reflection,
    the syntax with a parser for it, and the evaluation of expressions.  A template
    text is written here as it stands in the source, with a backquote for each double
    quote (a Go raw string has no backquote of its own).  Html.v adds what
    html/template does to a template before it is executed. *)

From S2P Require Import Prelude GoText Http.

(** ** Values *)
Inductive value :=
  | VStr (s : string)
  | VInt (z : Z)
  | VBool (b : bool)
  | VTime (ns : Z)
  | VCss (s : string)                      (* template.CSS *)
  | VPtr (o : option value)
  | VList (l : list value)
  | VRec (fs : list (string * value)).     (* a struct, with its methods without arguments *)

(** The truth of a value in [if], [with], [and] and [not]. *)
Definition truth (v : value) : bool :=
  match v with
  | VStr s | VCss s => negb (bool_decide (s = ""))
  | VInt z => negb (z =? 0)%Z
  | VBool b => b
  | VPtr o => bool_decide (is_Some o)
  | VList l => negb (bool_decide (length l = 0))
  | VTime _ | VRec _ => true
  end.

Fixpoint field (k : string) (fs : list (string * value)) : option value :=
  match fs with [] => None | (k', v) :: fs' => if bool_decide (k' = k) then Some v else field k fs' end.

(** The layout "2006-01-02 15:04". *)
Definition minute_layout : string := "2006-01-02 15:04".
Definition format_minute (ns : Z) : string :=
  let secs := (ns / 1000000000)%Z in
  let '(y, m, d) := civil (secs / 86400) in
  let s := (secs mod 86400)%Z in
  digits 4 y +:+ "-" +:+ digits 2 m +:+ "-" +:+ digits 2 d +:+ " " +:+ digits 2 (s / 3600) +:+ ":" +:+ digits 2 (s / 60 mod 60).

(** A field or method of a value; pointers are followed. *)
Fixpoint select (v : value) (name : string) (args : list value) : option value :=
  match v with
  | VPtr (Some v') => select v' name args
  | VRec fs => match args with [] => field name fs | _ => None end
  | VTime ns =>
      match args with
      | [VStr layout] =>
          if bool_decide (name = "Format") && bool_decide (layout = minute_layout) then Some (VStr (format_minute ns)) else None
      | _ => None
      end
  | _ => None
  end.

(** [.A.B.C args]: only the last selector gets the arguments. *)
Fixpoint walk (v : value) (path : list string) (args : list value) : option value :=
  match path with
  | [] => match args with [] => Some v | _ => None end
  | [name] => select v name args
  | name :: path' => v' ← select v name []; walk v' path' args
  end.

(** ** Syntax *)
Inductive expr :=
  | XPath (root : bool) (path : list string) (args : list expr)   (* $.A.B or .A.B, applied *)
  | XStr (s : string)
  | XCall (f : string) (args : list expr).

Inductive node :=
  | NText (s : string)
  | NAction (e : expr)
  | NIf (e : expr) (yes no : list node)
  | NRange (e : expr) (body : list node)
  | NWith (e : expr) (body : list node)
  | NTemplate (name : string) (e : expr).

(** ** Evaluation of expressions *)
Section collect.
Context {A B : Type} (f : A → option B).
Fixpoint collect (l : list A) : option (list B) :=
  match l with [] => Some [] | x :: l' => y ← f x; ys ← collect l'; Some (y :: ys) end.
End collect.

(** The functions every template has. *)
Definition basic_eq (a b : value) : option bool :=
  match a, b with
  | VStr s, VStr t => Some (bool_decide (s = t))
  | VInt x, VInt y => Some (x =? y)%Z
  | VBool x, VBool y => Some (Bool.eqb x y)
  | _, _ => None
  end.
Definition builtin (f : string) (args : list value) : option value :=
  if bool_decide (f = "not") then match args with [a] => Some (VBool (negb (truth a))) | _ => None end
  else if bool_decide (f = "and") then match args with [a; b] => Some (if truth a then b else a) | _ => None end
  else if bool_decide (f = "eq") then match args with [a; b] => VBool <$> basic_eq a b | _ => None end
  else if bool_decide (f = "ne") then match args with [a; b] => (λ x, VBool (negb x)) <$> basic_eq a b | _ => None end
  else None.

(** [funcs] is the template's FuncMap; a name it has hides the builtin of that name. *)
Section eval.
Context (funcs : string → list value → option value) (root dot : value).
Fixpoint eval (e : expr) : option value :=
  match e with
  | XPath r path args => vs ← collect eval args; walk (if r : bool then root else dot) path vs
  | XStr s => Some (VStr s)
  | XCall f args => vs ← collect eval args; match funcs f vs with Some v => Some v | None => builtin f vs end
  end.
End eval.

(** ** The parser *)

(** A template text, with its double quotes. *)
Definition quote : Ascii.ascii := Ascii.ascii_of_byte x22.
Definition source (s : string) : string := string_map (λ c, if decide (c = "`"%char) then quote else c) s.

(** The texts and the actions of a template. *)
Inductive piece := PcText (s : string) | PcAct (s : string).
Fixpoint pieces_from (act : bool) (acc s : string) : list piece :=
  let here := if act then PcAct (string_rev acc) else PcText (string_rev acc) in
  match s with
  | EmptyString => if act then [here] else [PcText (string_rev acc)]
  | String a s' =>
      match s' with
      | String b s'' =>
          if act then
            if bool_decide (a = "}"%char) && bool_decide (b = "}"%char) then here :: pieces_from false "" s''
            else pieces_from act (String a acc) s'
          else
            if bool_decide (a = "{"%char) && bool_decide (b = "{"%char) then here :: pieces_from true "" s''
            else pieces_from act (String a acc) s'
      | EmptyString => pieces_from act (String a acc) s'
      end
  end.

(** The words of an action: strings, parentheses, names. *)
Inductive word := WStr (s : string) | WOpen | WClose | WName (s : string).
Definition flush (acc : string) : list word := if bool_decide (acc = "") then [] else [WName (string_rev acc)].
Fixpoint words_from (str : bool) (acc s : string) : list word :=
  match s with
  | EmptyString => flush acc
  | String c s' =>
      if str then if bool_decide (c = quote) then WStr (string_rev acc) :: words_from false "" s' else words_from true (String c acc) s'
      else if bool_decide (c = quote) then flush acc ++ words_from true "" s'
      else if bool_decide (c = "("%char) then flush acc ++ WOpen :: words_from false "" s'
      else if bool_decide (c = ")"%char) then flush acc ++ WClose :: words_from false "" s'
      else if bool_decide (c = " "%char) then flush acc ++ words_from false "" s'
      else words_from false (String c acc) s'
  end.

(** ".A.B" and "$.A.B" are paths, "." and "$" the empty ones. *)
Definition selectors (s : string) : list string := filter (λ x, x ≠ "") (split_byte "."%char s).
Definition operand_name (s : string) : expr :=
  match s with
  | String c s' =>
      if bool_decide (c = "."%char) then XPath false (selectors s) []
      else if bool_decide (c = "$"%char) then XPath true (selectors s') []
      else XCall s []
  | EmptyString => XCall s []
  end.
Definition apply_to (e : expr) (args : list expr) : expr :=
  match args, e with [], _ => e | _, XPath r p _ => XPath r p args | _, XCall f _ => XCall f args | _, XStr s => XStr s end.

(** A command: a head applied to operands, up to the end or the closing parenthesis. *)
Fixpoint command (fuel : nat) (ws : list word) : option (list expr * list word) :=
  match fuel with
  | O => None
  | S fuel' =>
      match ws with
      | [] => Some ([], [])
      | WClose :: ws' => Some ([], ws')
      | WOpen :: ws' =>
          x ← command fuel' ws';
          match x.1 with
          | e :: args => y ← command fuel' x.2; Some (apply_to e args :: y.1, y.2)
          | [] => None
          end
      | WStr s :: ws' => y ← command fuel' ws'; Some (XStr s :: y.1, y.2)
      | WName s :: ws' => y ← command fuel' ws'; Some (operand_name s :: y.1, y.2)
      end
  end.
Definition expression (ws : list word) : option expr :=
  match command (S (length ws)) ws with Some (e :: args, []) => Some (apply_to e args) | _ => None end.

Inductive directive :=
  | DIf (e : expr) | DRange (e : expr) | DWith (e : expr) | DElse | DEnd
  | DTemplate (name : string) (e : expr) | DDefine (name : string) | DExpr (e : expr).
Definition directive_of (s : string) : option directive :=
  match words_from false "" s with
  | [WName w] =>
      if bool_decide (w = "else") then Some DElse
      else if bool_decide (w = "end") then Some DEnd
      else Some (DExpr (operand_name w))
  | WName w :: ws =>
      if bool_decide (w = "if") then DIf <$> expression ws
      else if bool_decide (w = "range") then DRange <$> expression ws
      else if bool_decide (w = "with") then DWith <$> expression ws
      else if bool_decide (w = "template") then match ws with WStr n :: ws' => DTemplate n <$> expression ws' | _ => None end
      else if bool_decide (w = "define") then match ws with [WStr n] => Some (DDefine n) | _ => None end
      else DExpr <$> expression (WName w :: ws)
  | ws => DExpr <$> expression ws
  end.

(** A list of nodes up to its end, what ended it, and the definitions met on the way. *)
Inductive ended := ByEof | ByEnd | ByElse.
#[global] Instance ended_eq_dec : EqDecision ended.
Proof. solve_decision. Defined.
Definition definitions : Type := list (string * list node).

Fixpoint nodes_of (fuel : nat) (ps : list piece) : option (list node * definitions * ended * list piece) :=
  match fuel with
  | O => None
  | S fuel' =>
      let continue n ds ps' :=
        x ← nodes_of fuel' ps'; let '(ns, ds', en, rest) := x in Some (n ++ ns, ds ++ ds', en, rest) in
      let body ps' :=
        x ← nodes_of fuel' ps'; let '(ns, ds, en, rest) := x in
        if bool_decide (en = ByEnd) then Some (ns, ds, rest) else None in
      match ps with
      | [] => Some ([], [], ByEof, [])
      | PcText s :: ps' => continue (if bool_decide (s = "") then [] else [NText s]) [] ps'
      | PcAct a :: ps' =>
          d ← directive_of a;
          match d with
          | DEnd => Some ([], [], ByEnd, ps')
          | DElse => Some ([], [], ByElse, ps')
          | DExpr e => continue [NAction e] [] ps'
          | DTemplate n e => continue [NTemplate n e] [] ps'
          | DDefine n => x ← body ps'; let '(ns, ds, rest) := x in continue [] ((n, ns) :: ds) rest
          | DRange e => x ← body ps'; let '(ns, ds, rest) := x in continue [NRange e ns] ds rest
          | DWith e => x ← body ps'; let '(ns, ds, rest) := x in continue [NWith e ns] ds rest
          | DIf e =>
              x ← nodes_of fuel' ps'; let '(yes, ds, en, rest) := x in
              match en with
              | ByEnd => continue [NIf e yes []] ds rest
              | ByElse => y ← body rest; let '(no, ds', rest') := y in continue [NIf e yes no] (ds ++ ds') rest'
              | ByEof => None
              end
          end
      end
  end.

(** template.New(name).Parse(text): the template of that name and those it defines. *)
Definition Parse (name text : string) : option definitions :=
  let ps := pieces_from false "" (source text) in
  x ← nodes_of (S (length ps)) ps; let '(ns, ds, en, _) := x in
  if bool_decide (en = ByEof) then Some ((name, ns) :: ds) else None.

Fixpoint lookup_template (name : string) (ds : definitions) : option (list node) :=
  match ds with [] => None | (n, ns) :: ds' => if bool_decide (n = name) then Some ns else lookup_template name ds' end.

Example parsed :
  Parse "page" "<p>{{if and (not .A) .B}}{{msg `x`}}{{else}}{{.T.Format `l`}}{{end}}</p>{{define `q`}}{{$.C}}{{end}}" =
  Some [("page", [NText "<p>";
                  NIf (XCall "and" [XCall "not" [XPath false ["A"] []]; XPath false ["B"] []])
                    [NAction (XCall "msg" [XStr "x"])] [NAction (XPath false ["T"; "Format"] [XStr "l"])];
                  NText "</p>"]);
        ("q", [NAction (XPath true ["C"] [])])].
Proof. vm_compute. reflexivity. Qed.

(** ** Types of values, and expressions that cannot fail *)
Inductive ty :=
  | TyStr | TyInt | TyBool | TyTime | TyCss
  | TyPtr (t : ty)                        (* a pointer, perhaps nil *)
  | TyRef (t : ty)                        (* a pointer that is not nil *)
  | TyList (t : ty) | TyRec (fs : list (string * ty)).

(** A stylesheet that does not end the element it stands in, or a piece of one. *)
Fixpoint no_end_tag (l : bytes) : bool :=
  match l with
  | [] => true
  | b :: l' =>
      negb (bool_decide (b = x00)) &&
      (negb (bool_decide (b = x3c)) || match l' with c :: _ => negb (bool_decide (c = x2f)) | [] => false end) && no_end_tag l'
  end.

(** The range of Go's int and int64. *)
Definition int64 (z : Z) : Prop := (- 2 ^ 63 <= z < 2 ^ 63)%Z.

Inductive has_type : value → ty → Prop :=
  | ht_str s : has_type (VStr s) TyStr
  | ht_int z : int64 z → has_type (VInt z) TyInt
  | ht_bool b : has_type (VBool b) TyBool
  | ht_time t : has_type (VTime t) TyTime
  | ht_css s : no_end_tag (str_bytes s) = true → has_type (VCss s) TyCss
  | ht_nil t : has_type (VPtr None) (TyPtr t)
  | ht_ptr v t : has_type v t → has_type (VPtr (Some v)) (TyPtr t)
  | ht_ref v t : has_type v t → has_type (VPtr (Some v)) (TyRef t)
  | ht_list l t : Forall (λ v, has_type v t) l → has_type (VList l) (TyList t)
  | ht_rec fs ts : Forall2 (λ f g, f.1 = g.1 ∧ has_type f.2 g.2) fs ts → has_type (VRec fs) (TyRec ts).
#[export] Hint Constructors has_type : go.

Fixpoint field_ty (k : string) (fs : list (string * ty)) : option ty :=
  match fs with [] => None | (k', t) :: fs' => if bool_decide (k' = k) then Some t else field_ty k fs' end.
Fixpoint select_ty (t : ty) (name : string) (args : list expr) : option ty :=
  match t, args with
  | TyRef t', _ => select_ty t' name args
  | TyRec fs, [] => field_ty name fs
  | TyTime, [XStr layout] => if bool_decide (name = "Format") && bool_decide (layout = minute_layout) then Some TyStr else None
  | _, _ => None
  end.
Fixpoint walk_ty (t : ty) (path : list string) (args : list expr) : option ty :=
  match path with
  | [] => match args with [] => Some t | _ => None end
  | [name] => select_ty t name args
  | name :: path' => t' ← select_ty t name []; walk_ty t' path' args
  end.
Definition builtin_ty (f : string) (ts : list ty) : option ty :=
  if bool_decide (f = "not") then match ts with [_] => Some TyBool | _ => None end
  else if bool_decide (f = "and") then match ts with [TyBool; TyBool] => Some TyBool | _ => None end
  else if bool_decide (f = "eq") || bool_decide (f = "ne") then
    match ts with [TyStr; TyStr] | [TyInt; TyInt] | [TyBool; TyBool] => Some TyBool | _ => None end
  else None.

(** [known] is the type of a path that a surrounding [if] has found not to be nil. *)
Section typing.
Context (funcs_ty : string → list ty → option ty) (root dot : ty) (known : option (bool * list string * ty)).
Definition path_ty (r : bool) (path : list string) (args : list expr) : option ty :=
  match known, args with
  | Some (r', path', t), [] => if bool_decide (r = r') && bool_decide (path = path') then Some t else walk_ty (if r then root else dot) path []
  | _, _ => walk_ty (if r then root else dot) path args
  end.
Fixpoint type_of_expr (e : expr) : option ty :=
  match e with
  | XPath r path args => path_ty r path args
  | XStr _ => Some TyStr
  | XCall f args => ts ← collect type_of_expr args; match funcs_ty f ts with Some t => Some t | None => builtin_ty f ts end
  end.
End typing.

(** A FuncMap with its types: no call of the right types fails, and names it does not
    have are left to the builtins. *)
Class FuncsOk (funcs : string → list value → option value) (funcs_ty : string → list ty → option ty) : Prop := {
  funcs_typed f ts t vs : funcs_ty f ts = Some t → Forall2 has_type vs ts → ∃ v, funcs f vs = Some v ∧ has_type v t;
  funcs_else f ts vs : funcs_ty f ts = None → builtin_ty f ts ≠ None → Forall2 has_type vs ts → funcs f vs = None;
}.

Lemma expr_nested_ind (P : expr → Prop) :
  (∀ r p args, Forall P args → P (XPath r p args)) → (∀ s, P (XStr s)) → (∀ f args, Forall P args → P (XCall f args)) →
  ∀ e, P e.
Proof.
  intros H1 H2 H3. fix IH 1. intros [r p args|s|f args]; [apply H1|apply H2|apply H3]; induction args; constructor; auto.
Qed.

Lemma field_typed fs ts k t :
  Forall2 (λ f g, f.1 = g.1 ∧ has_type f.2 g.2) fs ts → field_ty k ts = Some t → ∃ v, field k fs = Some v ∧ has_type v t.
Proof.
  induction 1 as [|[k1 v1] [k2 t2] fs ts [Hk Hv] _ IH]; cbn in *; [done|]. subst k2.
  destruct (bool_decide (k1 = k)); [|done]. intros [= <-]. eauto.
Qed.

(** The arguments of a method are literals, so their types say everything. *)
Lemma select_typed v t name args t' vs funcs r d :
  has_type v t → select_ty t name args = Some t' → collect (eval funcs r d) args = Some vs →
  ∃ v', select v name vs = Some v' ∧ has_type v' t'.
Proof.
  intros Hv Ht Hc. revert v Hv. induction t; intros v Hv; try done; cbn in Ht.
  - destruct args as [|[| |] []]; try done. cbn in Hc. injection Hc as <-. inversion Hv; subst. cbn.
    destruct (_ && _); [|done]. injection Ht as <-. eauto with go.
  - inversion Hv; subst. cbn. by apply IHt.
  - destruct args; [|done]. injection Hc as <-. inversion Hv; subst. by eapply field_typed.
Qed.

Lemma walk_typed v t path args t' vs funcs r d :
  has_type v t → walk_ty t path args = Some t' → collect (eval funcs r d) args = Some vs →
  ∃ v', walk v path vs = Some v' ∧ has_type v' t'.
Proof.
  revert v t. induction path as [|name path IH]; intros v t Hv Ht Hc; cbn in *.
  { destruct args; [|done]. injection Hc as <-. injection Ht as <-. eauto. }
  destruct path as [|name' path]; [by eapply select_typed|].
  destruct (select_ty t name []) as [t1|] eqn:E1; [|done].
  destruct (select_typed v t name [] t1 [] funcs r d Hv E1 eq_refl) as (v1&Hs&Hv1).
  rewrite Hs. exact (IH v1 t1 Hv1 Ht Hc).
Qed.

Lemma basic_eq_typed a b t :
  t ∈ [TyStr; TyInt; TyBool] → has_type a t → has_type b t → is_Some (basic_eq a b).
Proof. intros Ht Ha Hb. destruct Ha; try set_solver; inversion Hb; subst; cbn; eauto. Qed.

Lemma builtin_typed f ts t vs :
  builtin_ty f ts = Some t → Forall2 has_type vs ts → ∃ v, builtin f vs = Some v ∧ has_type v t.
Proof.
  unfold builtin_ty, builtin. intros Ht Hv.
  destruct (bool_decide (f = "not")).
  { destruct ts as [|t1 []]; try done. injection Ht as <-. apply Forall2_cons_inv_r in Hv as (v&?&Hv&->%Forall2_nil_inv_r&->). eauto with go. }
  destruct (bool_decide (f = "and")).
  { destruct ts as [|[] [|[] []]]; try done. injection Ht as <-.
    apply Forall2_cons_inv_r in Hv as (v&?&Hv&(v'&?&Hv'&->%Forall2_nil_inv_r&->)%Forall2_cons_inv_r&->). destruct (truth v); eauto. }
  assert (bool_decide (f = "eq") || bool_decide (f = "ne") = true →
    t = TyBool ∧ ∃ a b x, vs = [a; b] ∧ basic_eq a b = Some x) as Heq.
  { intros Hf. rewrite Hf in Ht. destruct ts as [|t1 [|t2 []]]; try done; [by destruct t1| |by destruct t1, t2].
    apply Forall2_cons_inv_r in Hv as (a&?&Ha&(b&?&Hb&->%Forall2_nil_inv_r&->)%Forall2_cons_inv_r&->).
    assert (t = TyBool ∧ t1 = t2 ∧ t1 ∈ [TyStr; TyInt; TyBool]) as (->&<-&Hin)
      by (destruct t1, t2; try done; injection Ht as <-; set_solver).
    split; [done|]. destruct (basic_eq_typed a b t1 Hin Ha Hb) as [x Hx]. eauto 10. }
  destruct (bool_decide (f = "eq")).
  { destruct (Heq eq_refl) as (->&a&b&x&->&Hx). rewrite Hx. eauto with go. }
  destruct (bool_decide (f = "ne")); [|done].
  destruct (Heq eq_refl) as (->&a&b&x&->&Hx). rewrite Hx. eauto with go.
Qed.

Section eval_typed.
Context {funcs : string → list value → option value} {funcs_ty : string → list ty → option ty} {Fok : FuncsOk funcs funcs_ty}.
Context (root dot : value) (rt dt : ty) (known : option (bool * list string * ty)).
Context (Hroot : has_type root rt) (Hdot : has_type dot dt).
Context (Hknown : ∀ r p t, known = Some (r, p, t) → ∃ v, walk (if r then root else dot) p [] = Some v ∧ has_type v t).

(** The arguments of a path are literals when the path has a type. *)
Lemma path_args t path args t' : walk_ty t path args = Some t' → ∃ vs, collect (eval funcs root dot) args = Some vs.
Proof.
  assert (∀ t name, select_ty t name args = Some t' → ∃ vs, collect (eval funcs root dot) args = Some vs) as Hs.
  { intros u name. induction u; cbn; intros H; try done; [|auto|]; destruct args as [|[| |] []]; try done; by eexists. }
  revert t. induction path as [|name path IH]; intros t H; cbn in H; [destruct args; [by eexists|done]|].
  destruct path as [|]; [by eapply Hs|destruct (select_ty t name []); [by eapply IH|done]].
Qed.

Lemma path_typed r path args t : path_ty rt dt known r path args = Some t →
  ∃ v, eval funcs root dot (XPath r path args) = Some v ∧ has_type v t.
Proof.
  assert (walk_ty (if r then rt else dt) path args = Some t → ∃ v, eval funcs root dot (XPath r path args) = Some v ∧ has_type v t) as Hw.
  { intros Ht. destruct (path_args _ _ _ _ Ht) as [vs Hvs]. cbn. rewrite Hvs.
    eapply (walk_typed _ (if r then rt else dt)); [by destruct r|done|done]. }
  unfold path_ty. destruct known as [[[r' p'] t']|], args as [|a args]; try done.
  destruct (bool_decide_reflect (r = r')) as [<-|]; [|done]. destruct (bool_decide_reflect (path = p')) as [<-|]; [|done].
  intros [= <-]. exact (Hknown _ _ _ eq_refl).
Qed.

Lemma eval_typed e t : type_of_expr funcs_ty rt dt known e = Some t → ∃ v, eval funcs root dot e = Some v ∧ has_type v t.
Proof.
  revert t. induction e as [r p args _|s|f args IH] using expr_nested_ind; intros t Ht; cbn in *.
  - by apply path_typed.
  - injection Ht as <-. eauto with go.
  - unfold mbind, option_bind in *. destruct (collect (type_of_expr funcs_ty rt dt known) args) as [ts|] eqn:Ets; [|done].
    assert (∃ vs, collect (eval funcs root dot) args = Some vs ∧ Forall2 has_type vs ts) as (vs&Hvs&Hty).
    { clear Ht. revert ts Ets. induction IH as [|e args He _ IHa]; cbn; intros ts Ets; [injection Ets as <-; eauto|].
      unfold mbind, option_bind in *. destruct (type_of_expr _ _ _ _ e) as [t1|] eqn:E1; [|done]. destruct (collect _ args) as [ts1|]; [|done]. injection Ets as <-.
      destruct (He t1 eq_refl) as (v&->&Hv). destruct (IHa _ eq_refl) as (vs&->&Hvs). cbn. eauto. }
    rewrite Hvs. cbn. destruct (funcs_ty f ts) as [t'|] eqn:Ef.
    + injection Ht as ->. destruct (funcs_typed f ts t vs Ef Hty) as (v&->&Hv). eauto.
    + rewrite (funcs_else f ts vs Ef) by (done || congruence). by apply (builtin_typed f ts).
Qed.
End eval_typed.
