(* ===== verification/Html.v ===== *)
(** * Html: html/template's contextual escaping, and the browser that reads its output

    html/template follows the text of a template through the states of HTML, gives each
    action the escaper of the place it stands in, and executes the result.  The file
    has the escapers, the tokenizer of a browser, the escaping of templates and their
    execution, and the two facts the pages rest on: a template that was escaped is read
    by the browser as the template's own tokens with the values in place, whatever the
    values are ([written]); and a template whose expressions have types renders
    ([renders]).

    The tokenizer is the HTML standard's on the constructs the pages use; on any other
    (comments, unquoted values, references without a semicolon, a slash in a tag) it is
    stuck, so a theorem about what it reads also says that a page has none of them. *)

From S2P Require Import Prelude GoText Url Http GoTemplate.

(** ** The escapers *)

(** htmlReplacementTable, for htmlescaper, attrescaper and rcdataescaper. *)
Definition html_byte (b : byte) : bytes :=
  match b with
  | x00 => [xef; xbf; xbd]
  | x22 => str_bytes "&#34;"
  | x26 => str_bytes "&amp;"
  | x27 => str_bytes "&#39;"
  | x2b => str_bytes "&#43;"
  | x3c => str_bytes "&lt;"
  | x3e => str_bytes "&gt;"
  | _ => [b]
  end.
Definition htmlReplacer (l : bytes) : bytes := l ≫= html_byte.

(** What is left of a value once the references are decoded: a null byte is replaced. *)
Definition clean_byte (b : byte) : bytes := match b with x00 => [xef; xbf; xbd] | _ => [b] end.
Definition clean (l : bytes) : bytes := l ≫= clean_byte.

(** processURLOnto: [norm] keeps reserved characters and valid escapes. *)
Definition url_reserved (b : byte) : bool := bool_decide (b ∈ str_bytes "!#$&*+,/:;=?@[]").
Definition isHex (b : byte) : bool := bool_decide (is_Some (unhex b)).
Definition percent (b : byte) : bytes := x25 :: str_bytes (hex_byte b).
Fixpoint processURL (norm : bool) (l : bytes) : bytes :=
  match l with
  | [] => []
  | b :: l' =>
      (if unreserved b then [b]
       else if url_reserved b && norm then [b]
       else if bool_decide (b = x25) && norm && match l' with p :: q :: _ => isHex p && isHex q | _ => false end then [b]
       else percent b) ++ processURL norm l'
  end.

(** urlFilter *)
Definition isSafeURL (s : string) : bool :=
  match cut_byte ":"%char s with
  | Some (protocol, _) =>
      contains_byte "/"%char protocol || EqualFold protocol "http" || EqualFold protocol "https" || EqualFold protocol "mailto"
  | None => true
  end.
Definition urlFilter (s : bytes) : bytes := if isSafeURL (bytes_str s) then s else str_bytes "#ZgotmplZ".

(** The escapers an action can get: by content, or by the part of a URL it stands in. *)
Inductive escaper := EHtml | ERcdata | EAttr | EUrl | EUrlNorm | EUrlQuery | ECss.
#[global] Instance escaper_eq_dec : EqDecision escaper.
Proof. solve_decision. Defined.

Definition url_part (e : escaper) (v : bytes) : bytes :=
  match e with
  | EUrl => processURL true (urlFilter v)
  | EUrlNorm => processURL true v
  | EUrlQuery => processURL false v
  | _ => v
  end.
Definition escape (e : escaper) (v : bytes) : bytes :=
  match e with ECss => v | _ => htmlReplacer (url_part e v) end.
(** What the reader gets to see of a value. *)
Definition shown (e : escaper) (v : bytes) : bytes :=
  match e with ECss => v | _ => clean (url_part e v) end.

(** ** The tokenizer *)

(** The text a character reference stands for, by the HTML standard's table. *)
Class HtmlRefs := { charref : string → bytes }.
Class HtmlRefsOk `{HtmlRefs} : Prop := {
  ref_quot : charref "#34" = [x22];
  ref_amp : charref "amp" = [x26];
  ref_apos : charref "#39" = [x27];
  ref_plus : charref "#43" = [x2b];
  ref_lt : charref "lt" = [x3c];
  ref_gt : charref "gt" = [x3e];
}.

(** Text in an element ([""]: ordinary text), with a character reference that has been
    begun; or a place in a tag.  [close] is an end tag. *)
Inductive ctl :=
  | CText (el : string) (ref : option string)
  | CLt (el : string)
  | CLtSlash (el : string)
  | CName (el tag : string) (close : bool)
  | CDecl
  | CTag (tag : string) (close : bool)
  | CAttr (tag : string) (close : bool) (name : string)
  | CEq (tag : string) (close : bool) (name : string)
  | CValue (tag : string) (close : bool) (name : string) (q : byte) (ref : option string)
  | CAfter (tag : string) (close : bool).
#[global] Instance ctl_eq_dec : EqDecision ctl.
Proof. solve_decision. Defined.

Inductive event :=
  | EvText (el : string) (s : bytes)
  | EvOpen (tag : string)
  | EvShut (tag : string)
  | EvAttr (name : string)
  | EvValue (s : bytes).

Definition rcdata (el : string) : bool := bool_decide (el ∈ ["title"; "textarea"]).
Definition rawtext (el : string) : bool := bool_decide (el ∈ ["style"; "script"; "iframe"; "xmp"; "noembed"; "noframes"]).
Definition unsupported (el : string) : bool := bool_decide (el ∈ ["plaintext"; "noscript"]).

Definition in_range (lo hi : Z) (b : byte) : bool := ((lo <=? bz b) && (bz b <=? hi))%Z.
Definition letter (b : byte) : bool := in_range 97 122 b || in_range 65 90 b.
Definition digit (b : byte) : bool := in_range 48 57 b.
Definition blank (b : byte) : bool := bool_decide (b ∈ [x09; x0a; x0c; x0d; x20]).
Definition snoc (s : string) (b : byte) : string := s +:+ String (lower_ascii (Ascii.ascii_of_byte b)) "".
Definition snoc_raw (s : string) (b : byte) : string := s +:+ String (Ascii.ascii_of_byte b) "".
(** A byte of an attribute name. *)
Definition name_byte (b : byte) : bool := negb (blank b) && negb (bool_decide (b ∈ str_bytes "/>=<'" ++ [x22; x00])).

Section browser.
Context {R : HtmlRefs}.

(** The name of a tag is complete. *)
Definition named (el tag : string) (close : bool) : option (list event) :=
  if bool_decide (el = "") || close && bool_decide (tag = el)
  then Some [if close then EvShut tag else EvOpen tag] else None.
(** The text after a tag. *)
Definition after_tag (tag : string) (close : bool) : option ctl :=
  if unsupported tag then None
  else Some (CText (if negb close && (rcdata tag || rawtext tag) then tag else "") None).

Definition ref_byte (b : byte) : bool := letter b || digit b || bool_decide (b = x23).

(** A byte inside of a character reference. *)
Definition in_ref (r : string) (b : byte) (again : option string → ctl) (done : bytes → event) : option (ctl * list event) :=
  if bool_decide (b = x3b) then Some (again None, [done (charref r)])
  else if ref_byte b then Some (again (Some (snoc_raw r b)), []) else None.

(** After a "<" that opened nothing, in the text of an element: both bytes are text. *)
Definition lt_text (el : string) (b : byte) : option (ctl * list event) :=
  if bool_decide (el = "script") || bool_decide (b = x00) then None
  else if bool_decide (b = x3c) then Some (CLt el, [EvText el [x3c]])
  else if bool_decide (b = x26) && negb (rawtext el) then Some (CText el (Some ""), [EvText el [x3c]])
  else Some (CText el None, [EvText el [x3c; b]]).

Definition cstep (c : ctl) (b : byte) : option (ctl * list event) :=
  match c with
  | CText el (Some r) => in_ref r b (CText el) (EvText el)
  | CText el None =>
      if bool_decide (b = x3c) then Some (CLt el, [])
      else if bool_decide (b = x26) && negb (rawtext el) then Some (CText el (Some ""), [])
      else if bool_decide (b = x00) then None
      else Some (CText el None, [EvText el [b]])
  | CLt el =>
      if bool_decide (b = x2f) then Some (CLtSlash el, [])
      else if negb (bool_decide (el = "")) then lt_text el b
      else if letter b then Some (CName el (snoc "" b) false, [])
      else if bool_decide (b = x21) then Some (CDecl, []) else None
  | CLtSlash el => if letter b then Some (CName el (snoc "" b) true, []) else None
  | CName el tag close =>
      if letter b || digit b || bool_decide (b = x2d) then Some (CName el (snoc tag b) close, [])
      else if blank b then evs ← named el tag close; Some (CTag tag close, evs)
      else if bool_decide (b = x3e) then evs ← named el tag close; c' ← after_tag tag close; Some (c', evs) else None
  | CDecl =>
      if bool_decide (b = x3e) then Some (CText "" None, [])
      else if bool_decide (b ∈ [x2d; x5b]) then None else Some (CDecl, [])
  | CTag tag close =>
      if blank b then Some (CTag tag close, [])
      else if bool_decide (b = x3e) then c' ← after_tag tag close; Some (c', [])
      else if name_byte b then Some (CAttr tag close (snoc "" b), []) else None
  | CAttr tag close name =>
      if bool_decide (b = x3d) then Some (CEq tag close name, [EvAttr name])
      else if blank b then Some (CTag tag close, [EvAttr name])
      else if bool_decide (b = x3e) then c' ← after_tag tag close; Some (c', [EvAttr name])
      else if name_byte b then Some (CAttr tag close (snoc name b), []) else None
  | CEq tag close name => if bool_decide (b ∈ [x22; x27]) then Some (CValue tag close name b None, []) else None
  | CValue tag close name q (Some r) => in_ref r b (CValue tag close name q) EvValue
  | CValue tag close name q None =>
      if bool_decide (b = q) then Some (CAfter tag close, [])
      else if bool_decide (b = x26) then Some (CValue tag close name q (Some ""), [])
      else if bool_decide (b = x00) then None
      else Some (CValue tag close name q None, [EvValue [b]])
  | CAfter tag close =>
      if blank b then Some (CTag tag close, [])
      else if bool_decide (b = x3e) then c' ← after_tag tag close; Some (c', []) else None
  end.

Fixpoint read_html (c : ctl) (l : bytes) : option (ctl * list event) :=
  match l with
  | [] => Some (c, [])
  | b :: l' => x ← cstep c b; y ← read_html x.1 l'; Some (y.1, x.2 ++ y.2)
  end.

(** Tokens, the last one first: adjacent text is one token. *)
Inductive token :=
  | TStart (tag : string) (attrs : list (string * bytes))
  | TEnd (tag : string)
  | TChars (el : string) (s : bytes).
#[global] Instance token_eq_dec : EqDecision token.
Proof. solve_decision. Defined.

Definition extend (s : bytes) (attrs : list (string * bytes)) : list (string * bytes) :=
  match reverse attrs with (n, v) :: r => reverse ((n, v ++ s) :: r) | [] => [] end.
Definition add (acc : list token) (e : event) : list token :=
  match e, acc with
  | EvText _ [], _ => acc
  | EvText el s, TChars el' s' :: acc' => if bool_decide (el = el') then TChars el (s' ++ s) :: acc' else TChars el s :: acc
  | EvText el s, _ => TChars el s :: acc
  | EvOpen tag, _ => TStart tag [] :: acc
  | EvShut tag, _ => TEnd tag :: acc
  | EvAttr n, TStart tag attrs :: acc' => TStart tag (attrs ++ [(n, [])]) :: acc'
  | EvValue s, TStart tag attrs :: acc' => TStart tag (extend s attrs) :: acc'
  | _, _ => acc
  end.
Definition group (evs : list event) : list token := reverse (foldl add [] evs).

(** The tokens of a document, or of the text that replaces the content of an element. *)
Definition tokens (l : bytes) : option (list token) :=
  x ← read_html (CText "" None) l; if bool_decide (x.1 = CText "" None) then Some (group x.2) else None.

(** Its tags and attributes alone, in their order. *)
Definition is_markup (e : event) : bool := match e with EvText _ _ | EvValue _ => false | _ => true end.
Definition markup_of (evs : list event) : list event := filter (λ e, is_markup e = true) evs.
Definition markup (l : bytes) : option (list event) := (λ x, markup_of x.2) <$> read_html (CText "" None) l.
End browser.

(** ** Contexts, and the escaping of a template *)

(** The kind of an attribute's value (attrType): a URL, plain text, or one in which no
    action of the pages stands. *)
Inductive attr_kind := AkPlain | AkUrl | AkOther.
#[global] Instance attr_kind_eq_dec : EqDecision attr_kind.
Proof. solve_decision. Defined.
Fixpoint contains (p s : string) : bool :=
  has_prefix s p || match s with EmptyString => false | String _ s' => contains p s' end.
Definition url_attrs : list string :=
  ["action"; "archive"; "background"; "cite"; "classid"; "codebase"; "data"; "formaction"; "href"; "icon"; "longdesc";
   "manifest"; "poster"; "profile"; "src"; "usemap"; "xmlns"].
Definition attrType (name : string) : attr_kind :=
  let named n :=
    if bool_decide (n ∈ url_attrs) then AkUrl
    else if bool_decide (n ∈ ["style"; "srcset"; "srcdoc"]) then AkOther
    else if has_prefix n "on" then AkOther
    else if contains "src" n || contains "uri" n || contains "url" n then AkUrl
    else AkPlain in
  match trim_prefix name "data-" with
  | Some n => named n
  | None =>
      match cut_byte ":"%char name with
      | Some (prefix, short) => if bool_decide (prefix = "xmlns") then AkUrl else named short
      | None => named name
      end
  end.

(** The part of a URL that has been written (urlPart). *)
Inductive urlPart := UNone | UPreQuery | UQueryOrFrag.
#[global] Instance urlPart_eq_dec : EqDecision urlPart.
Proof. solve_decision. Defined.
Definition ctx : Type := ctl * urlPart.

Definition up_after (up : urlPart) (b : byte) (c' : ctl) : urlPart :=
  match c' with
  | CValue _ _ _ _ _ =>
      if bool_decide (b ∈ [x3f; x23]) then UQueryOrFrag
      else if bool_decide (up = UNone) && negb (blank b) then UPreQuery else up
  | _ => UNone
  end.
(** The opening quote is not part of the URL. *)
Definition up_step (c : ctl) (up : urlPart) (b : byte) (c' : ctl) : urlPart :=
  match c with CEq _ _ _ => UNone | _ => up_after up b c' end.

(** The escaper of an action, by its context. *)
Definition wanted (c : ctx) : option escaper :=
  match c with
  | (CText el None, _) =>
      if bool_decide (el = "") then Some EHtml
      else if rcdata el then Some ERcdata
      else if bool_decide (el = "style") then Some ECss else None
  | (CValue _ _ name q None, up) =>
      if negb (bool_decide (q ∈ [x22; x27])) then None
      else match attrType name, up with
           | AkPlain, _ => Some EAttr
           | AkUrl, UNone => Some EUrl
           | AkUrl, UPreQuery => Some EUrlNorm
           | AkUrl, UQueryOrFrag => Some EUrlQuery
           | AkOther, _ => None
           end
  | _ => None
  end.

(** A template after escaping: actions carry their escaper, and the templates that are
    called are escaped for the context of the call. *)
Inductive enode :=
  | EText (s : string)
  | EAction (esc : escaper) (e : expr)
  | EIf (e : expr) (yes no : list enode)
  | ERange (e : expr) (body : list enode)
  | EWith (e : expr) (body : list enode)
  | ETmpl (e : expr) (body : list enode).

Section escaping.
Context {R : HtmlRefs}.

Fixpoint gread (c : ctx) (l : bytes) : option (ctx * list event) :=
  match l with
  | [] => Some (c, [])
  | b :: l' =>
      x ← cstep c.1 b; y ← gread (x.1, up_step c.1 c.2 b x.1) l'; Some (y.1, x.2 ++ y.2)
  end.

(** The escaper that all the contexts agree on. *)
Definition agreed (cs : list ctx) : option escaper :=
  match cs with
  | c :: _ => e ← wanted c; if forallb (λ c', bool_decide (wanted c' = Some e)) cs then Some e else None
  | [] => None
  end.

(** [cs] are the contexts the nodes can be reached in; the second result those they can
    be left in. *)
Fixpoint escape_nodes (fuel : nat) (ds : definitions) (cs : list ctx) (ns : list node) : option (list enode * list ctx) :=
  match fuel with
  | O => None
  | S fuel' =>
      match ns with
      | [] => Some ([], cs)
      | n :: ns' =>
          x ← match n with
              | NText s => cs' ← collect (λ c, fst <$> gread c (str_bytes s)) cs; Some (EText s, cs')
              | NAction e => esc ← agreed cs; Some (EAction esc e, cs)
              | NIf e yes no =>
                  a ← escape_nodes fuel' ds cs yes; b ← escape_nodes fuel' ds cs no;
                  Some (EIf e a.1 b.1, remove_dups (a.2 ++ b.2))
              | NRange e body =>
                  a ← escape_nodes fuel' ds cs body;
                  let cs' := remove_dups (cs ++ a.2) in
                  b ← escape_nodes fuel' ds cs' body;
                  if bool_decide (b.2 ⊆ cs') then Some (ERange e b.1, cs') else None
              | NWith e body => a ← escape_nodes fuel' ds cs body; Some (EWith e a.1, remove_dups (cs ++ a.2))
              | NTemplate name e =>
                  body ← lookup_template name ds; a ← escape_nodes fuel' ds cs body; Some (ETmpl e a.1, a.2)
              end;
          y ← escape_nodes fuel' ds x.2 ns';
          Some (x.1 :: y.1, y.2)
      end
  end.

(** A template is escaped from ordinary text, and has to end in it. *)
Definition text_start : list ctx := [(CText "" None, UNone)].
Definition escape_fuel : nat := 200.
Definition escape_template (ds : definitions) (name : string) : option (list enode) :=
  ns ← lookup_template name ds;
  x ← escape_nodes escape_fuel ds text_start ns;
  if bool_decide (x.2 = text_start) then Some x.1 else None.
End escaping.

(** ** Execution *)
Inductive item := IText (s : string) | IVal (e : escaper) (v : bytes).
#[global] Instance item_eq_dec : EqDecision item.
Proof. solve_decision. Defined.

(** A value as text; only a CSS value fits where a stylesheet is. *)
Definition print (e : escaper) (v : value) : option bytes :=
  match e, v with
  | ECss, VCss s => Some (str_bytes s)
  | ECss, _ => None
  | _, VStr s | _, VPtr (Some (VStr s)) => Some (str_bytes s)
  | _, VInt z => Some (str_bytes (pretty z))
  | _, VPtr None => Some (str_bytes "<nil>")
  | _, _ => None
  end.
Definition as_list (v : value) : option (list value) := match v with VList l => Some l | _ => None end.

Section exec.
Context (funcs : string → list value → option value).

Fixpoint exec_node (n : enode) (root dot : value) : option (list item) :=
  let fix go (ns : list enode) (root dot : value) : option (list item) :=
    match ns with [] => Some [] | n :: ns' => a ← exec_node n root dot; b ← go ns' root dot; Some (a ++ b) end in
  match n with
  | EText s => Some [IText s]
  | EAction esc e => v ← eval funcs root dot e; s ← print esc v; Some [IVal esc s]
  | EIf e yes no => v ← eval funcs root dot e; if truth v then go yes root dot else go no root dot
  | ERange e body => v ← eval funcs root dot e; l ← as_list v; (λ x, concat x) <$> collect (go body root) l
  | EWith e body => v ← eval funcs root dot e; if truth v then go body root v else Some []
  | ETmpl e body => v ← eval funcs root dot e; go body v v
  end.
Fixpoint exec (ns : list enode) (root dot : value) : option (list item) :=
  match ns with [] => Some [] | n :: ns' => a ← exec_node n root dot; b ← exec ns' root dot; Some (a ++ b) end.
End exec.

Definition render_item (i : item) : bytes := match i with IText s => str_bytes s | IVal e v => escape e v end.
Definition render (its : list item) : bytes := its ≫= render_item.

(** Template.Execute: the text of a page. *)
Definition Execute (funcs : string → list value → option value) (es : list enode) (data : value) : option bytes :=
  render <$> exec funcs es data data.

(** ** What a reader sees of a page, by its items *)
Section seen.
Context {R : HtmlRefs}.

(** The place a context is in, with a value there. *)
Definition slot (c : ctl) (s : bytes) : event := match c with CText el _ => EvText el s | _ => EvValue s end.
Definition css_ok (e : escaper) (v : bytes) : bool := negb (bool_decide (e = ECss)) || no_end_tag v.

Fixpoint seen (c : ctx) (its : list item) : option (ctx * list event) :=
  match its with
  | [] => Some (c, [])
  | IText s :: its' => x ← gread c (str_bytes s); y ← seen x.1 its'; Some (y.1, x.2 ++ y.2)
  | IVal e v :: its' =>
      if bool_decide (wanted c = Some e) && css_ok e v
      then y ← seen c its'; Some (y.1, slot c.1 (shown e v) :: y.2) else None
  end.

(** The template's tokens with the values in place. *)
Definition template_tokens (its : list item) : option (list token) :=
  x ← seen (CText "" None, UNone) its; if bool_decide (x.1.1 = CText "" None) then Some (group x.2) else None.
(** The same template with nothing in place of its values. *)
Definition erase (i : item) : item := match i with IText s => IText s | IVal e _ => IVal e [] end.
End seen.

(** ** The bytes of an escaped value stay in their place *)
Section bytes_read.
Context {R : HtmlRefs} {Rok : HtmlRefsOk}.

Lemma read_html_app c l1 l2 c1 e1 c2 e2 :
  read_html c l1 = Some (c1, e1) → read_html c1 l2 = Some (c2, e2) → read_html c (l1 ++ l2) = Some (c2, e1 ++ e2).
Proof.
  revert c c1 e1. induction l1 as [|b l1 IH]; intros c c1 e1 H1 H2; cbn in *; [by injection H1 as <- <-|].
  unfold mbind, option_bind in *. destruct (cstep c b) as [[c' e]|]; [|done].
  destruct (read_html _ l1) as [[c'' e']|] eqn:E; [|done]. injection H1 as <- <-. cbn in *.
  rewrite (IH _ _ _ E H2). cbn. by rewrite app_assoc.
Qed.

Lemma gread_html c up l c' up' evs : gread (c, up) l = Some ((c', up'), evs) → read_html c l = Some (c', evs).
Proof.
  revert c up evs. induction l as [|b l IH]; intros c up evs H; cbn in *; [by injection H as -> -> <-|].
  unfold mbind, option_bind in *. destruct (cstep c b) as [[c1 e]|]; [|done]. cbn in *.
  destruct (gread _ l) as [[[c2 up2] e2]|] eqn:E; [|done]. injection H as <- <- <-. by rewrite (IH _ _ _ E).
Qed.

(** Two chunks in one place are one chunk. *)
Lemma extend_app s1 s2 attrs : extend s2 (extend s1 attrs) = extend (s1 ++ s2) attrs.
Proof.
  unfold extend. destruct (reverse attrs) as [|[n v] r]; [done|]. rewrite reverse_involutive. by rewrite app_assoc.
Qed.

Lemma add_app c s1 s2 acc : add (add acc (slot c s1)) (slot c s2) = add acc (slot c (s1 ++ s2)).
Proof.
  destruct c as [el r| | | | | | | | |];
    try (cbn; destruct acc as [|[] acc]; cbn; rewrite ?extend_app; done).
  destruct s1 as [|b s1]; [done|]. rewrite <- app_comm_cons.
  destruct s2 as [|b2 s2].
  - cbn [slot add]. by rewrite app_nil_r.
  - destruct acc as [|[| |el' s'] acc]; cbn [slot add]; rewrite ?bool_decide_true by done; try done.
    destruct (bool_decide_reflect (el = el')) as [->|Hn]; cbn [add]; rewrite bool_decide_true by done; [|done].
    by rewrite <- app_assoc.
Qed.

(** A place where a value can stand, and the escaped bytes it keeps. *)
Definition place (c : ctl) : Prop :=
  (∃ el, c = CText el None ∧ rawtext el = false) ∨ (∃ tag close name q, c = CValue tag close name q None ∧ q ∈ [x22; x27]).

Definition stays (c : ctl) (l s : bytes) : Prop :=
  ∃ evs, read_html c l = Some (c, evs) ∧ (∀ acc, foldl add acc evs = add acc (slot c s)) ∧ markup_of evs = [].

Lemma stays_nil c : place c → stays c [] [].
Proof.
  intros Hc. exists []. split_and!; [done| |done]. intros acc.
  destruct Hc as [(el&->&_)|(tag&close&name&q&->&_)]; [done|]. cbn. destruct acc as [|[] acc]; [done| |done..].
  unfold extend. destruct (reverse attrs) as [|[n v] r] eqn:E; rewrite ?app_nil_r; rewrite <- ?E; [|by rewrite reverse_involutive].
  apply (f_equal reverse) in E. rewrite reverse_involutive in E. by subst.
Qed.

Lemma stays_app c l1 l2 s1 s2 : stays c l1 s1 → stays c l2 s2 → stays c (l1 ++ l2) (s1 ++ s2).
Proof.
  intros (e1&H1&A1&M1) (e2&H2&A2&M2). exists (e1 ++ e2). split_and!; [by eapply read_html_app| |].
  - intros acc. by rewrite foldl_app, A1, A2, add_app.
  - unfold markup_of in *. by rewrite filter_app, M1, M2.
Qed.

Lemma stays_one c l s : read_html c l = Some (c, [slot c s]) → stays c l s.
Proof. intros H. exists [slot c s]. split_and!; [done..|]. by destruct c. Qed.

(** One byte that the place does not treat specially; and a reference. *)
Lemma plain_stays c b : place c → b ∉ [x00; x22; x26; x27; x3c] → stays c [b] [b].
Proof.
  intros [(el&->&_)|(tag&close&name&q&->&Hq)] Hb; rewrite !not_elem_of_cons in Hb; destruct Hb as (H0&H1&H2&H3&H4&_);
    apply stays_one; cbn [read_html cstep]; rewrite !bool_decide_false by (done || (intros ->; set_solver)); reflexivity.
Qed.

Definition with_ref (c : ctl) (r : string) : ctl :=
  match c with CText el _ => CText el (Some r) | CValue tag close name q _ => CValue tag close name q (Some r) | _ => c end.

Lemma ref_stays c l s : place c → read_html (with_ref c "") l = Some (c, [slot c s]) → stays c (x26 :: l) s.
Proof.
  intros Hc H. apply stays_one. apply (read_html_app c [x26] l (with_ref c "") [] c [slot c s]); [|done].
  destruct Hc as [(el&->&Hraw)|(tag&close&name&q&->&Hq)]; unfold read_html, mbind, option_bind; cbn [cstep].
  - rewrite Hraw. reflexivity.
  - rewrite (bool_decide_false (x26 = q)) by (intros <-; set_solver). reflexivity.
Qed.

Lemma html_byte_stays c b : place c → stays c (html_byte b) (clean_byte b).
Proof.
  intros Hc.
  assert (∀ l, Forall (λ b, b ∉ [x00; x22; x26; x27; x3c]) l → stays c l l) as Hplain.
  { induction 1 as [|b' l Hb _ IH]; [by apply stays_nil|]. apply (stays_app _ [b'] l [b'] l); [by apply plain_stays|done]. }
  destruct b; try (apply Hplain, (bool_decide_unpack _); vm_compute; exact I);
    (apply ref_stays; [done|]);
    destruct Hc as [(el&->&_)|(tag&close&name&q&->&_)];
    cbn [clean_byte]; first [rewrite <- ref_quot | rewrite <- ref_amp | rewrite <- ref_apos | rewrite <- ref_plus | rewrite <- ref_lt | rewrite <- ref_gt];
    reflexivity.
Qed.

Lemma htmlReplacer_stays c l : place c → stays c (htmlReplacer l) (clean l).
Proof.
  intros Hc. induction l as [|b l IH]; [by apply stays_nil|].
  change (stays c (html_byte b ++ htmlReplacer l) (clean_byte b ++ clean l)). apply stays_app; [by apply html_byte_stays|done].
Qed.

Lemma no_end_tag_cons b l :
  no_end_tag (b :: l) = true → b ≠ x00 ∧ (b = x3c → ∃ c l', l = c :: l' ∧ c ≠ x2f) ∧ no_end_tag l = true.
Proof.
  cbn [no_end_tag]. rewrite !andb_true_iff, orb_true_iff, !negb_true_iff, !bool_decide_eq_false. intros [[H0 H1] H2].
  split_and!; [done| |done]. intros ->. destruct H1 as [|H1]; [done|]. destruct l as [|c l]; [done|]. exists c, l.
  split; [done|]. by apply negb_true_iff, bool_decide_eq_false in H1.
Qed.

Lemma css_reads l :
  (no_end_tag l = true → stays (CText "style" None) l l) ∧
  (no_end_tag (x3c :: l) = true →
     ∃ evs, read_html (CLt "style") l = Some (CText "style" None, evs) ∧
       (∀ acc, foldl add acc evs = add acc (EvText "style" (x3c :: l))) ∧ markup_of evs = []).
Proof.
  induction l as [|b l [IH1 IH2]]; [split; [by exists []|done]|]. split.
  - intros H. destruct (decide (b = x3c)) as [->|Hb].
    + destruct (IH2 H) as (evs&Hr&Ha&Hm). exists evs. split_and!; [|done..]. by apply (read_html_app _ [x3c] l (CLt "style") []).
    + apply no_end_tag_cons in H as (H0&_&H). apply (stays_app _ [b] l [b] l); [|by apply IH1]. apply stays_one. cbn.
      rewrite (bool_decide_false (b = x3c)), andb_false_r, (bool_decide_false (b = x00)) by done. reflexivity.
  - intros (_&H1&H)%no_end_tag_cons. destruct (H1 eq_refl) as (c&l'&[= <- <-]&Hc).
    destruct (decide (b = x3c)) as [->|Hb].
    + destruct (IH2 H) as (evs&Hr&Ha&Hm). exists (EvText "style" [x3c] :: evs). split_and!; [| |done].
      * by apply (read_html_app _ [x3c] l (CLt "style") [_]).
      * intros acc. cbn [foldl]. rewrite Ha. apply (add_app (CText "style" None) [x3c] (x3c :: l)).
    + apply no_end_tag_cons in H as (H0&_&H). destruct (IH1 H) as (evs&Hr&Ha&Hm).
      exists (EvText "style" [x3c; b] :: evs). split_and!; [| |done].
      * apply (read_html_app _ [b] l (CText "style" None) [_]); [|done]. cbn.
        rewrite (bool_decide_false (b = x2f)) by done. unfold lt_text. cbn.
        rewrite (bool_decide_false (b = x3c)), (bool_decide_false (b = x00)), andb_false_r by done. reflexivity.
      * intros acc. cbn [foldl]. rewrite Ha. apply (add_app (CText "style" None) [x3c; b] l).
Qed.

Lemma escape_stays c up e v : wanted (c, up) = Some e → css_ok e v = true → stays c (escape e v) (shown e v).
Proof.
  intros Hw Hok. assert (e ≠ ECss ∧ place c ∨ e = ECss ∧ c = CText "style" None) as [[He Hp]|[-> ->]].
  { destruct c as [el [r|]| | | | | | | |tag close name q [r|]|]; try done; cbn in Hw.
    - destruct (bool_decide_reflect (el = "")) as [->|]; [injection Hw as <-; left; split; [done|left; by exists ""]|].
      destruct (rcdata el) eqn:Er.
      + injection Hw as <-. left. split; [done|left]. exists el. split; [done|].
        unfold rcdata in Er. apply bool_decide_eq_true in Er. rewrite !elem_of_cons in Er.
        destruct Er as [-> |[-> |[]%not_elem_of_nil]]; done.
      + destruct (bool_decide_reflect (el = "style")) as [->|]; [|done]. injection Hw as <-. by right.
    - destruct (bool_decide_reflect (q ∈ [x22; x27])) as [Hq|]; [|done]. left.
      split; [destruct (attrType name), up; cbn in Hw; congruence|right; eauto 10]. }
  - assert (escape e v = htmlReplacer (url_part e v) ∧ shown e v = clean (url_part e v)) as [-> ->] by (by destruct e).
    by apply htmlReplacer_stays.
  - by apply css_reads.
Qed.

(** The browser's reading of a page is the reading of its items. *)
Lemma seen_read c up its c' up' evs :
  seen (c, up) its = Some ((c', up'), evs) →
  ∃ evs', read_html c (render its) = Some (c', evs') ∧ (∀ acc, foldl add acc evs' = foldl add acc evs) ∧
    markup_of evs' = markup_of evs.
Proof.
  revert c up evs. induction its as [|[s|e v] its IH]; intros c up evs H; cbn [seen] in H; unfold mbind, option_bind in H.
  - injection H as -> -> <-. by exists [].
  - destruct (gread (c, up) (str_bytes s)) as [[[c1 up1] e1]|] eqn:E1; [|done].
    destruct (seen _ its) as [[[c2 up2] e2]|] eqn:E2; [|done]. injection H as <- <- <-.
    destruct (IH _ _ _ E2) as (evs'&Hr&Ha&Hm). exists (e1 ++ evs').
    split_and!; [eapply (read_html_app _ (str_bytes s)); [by eapply gread_html|done]| |].
    + intros acc. by rewrite !foldl_app, Ha.
    + unfold markup_of in *. by rewrite !filter_app, Hm.
  - destruct (bool_decide_reflect (wanted (c, up) = Some e)) as [Hw|]; [|done]. destruct (css_ok e v) eqn:Hok; [|done].
    destruct (seen (c, up) its) as [[[c2 up2] e2]|] eqn:E2; [|done]. injection H as <- <- <-.
    destruct (IH _ _ _ E2) as (evs'&Hr&Ha&Hm). destruct (escape_stays c up e v Hw Hok) as (e1&H1&A1&M1). exists (e1 ++ evs').
    split_and!; [by eapply (read_html_app _ (escape e v))| |].
    + intros acc. rewrite foldl_app, A1, Ha. done.
    + unfold markup_of in *. rewrite filter_app, M1, Hm. by destruct c.
Qed.

Lemma served_tokens its ts : template_tokens its = Some ts → tokens (render its) = Some ts.
Proof.
  unfold template_tokens, tokens, mbind, option_bind. destruct (seen _ its) as [[[c up] evs]|] eqn:E; [|done].
  destruct (seen_read _ _ _ _ _ _ E) as (evs'&->&Ha&_). cbn. destruct (bool_decide (c = _)); [|done].
  intros [= <-]. unfold group. by rewrite Ha.
Qed.

Lemma seen_erase c its c' evs :
  seen c its = Some (c', evs) → ∃ evs', seen c (erase <$> its) = Some (c', evs') ∧ markup_of evs' = markup_of evs.
Proof.
  revert c evs. induction its as [|[s|e v] its IH]; intros c evs H; cbn [seen fmap list_fmap erase] in *; unfold mbind, option_bind in *.
  - eauto.
  - destruct (gread c (str_bytes s)) as [[c1 e1]|]; [|done]. destruct (seen _ its) as [[c2 e2]|] eqn:E; [|done].
    injection H as <- <-. destruct (IH _ _ E) as (evs'&->&Hm). eexists. split; [done|]. unfold markup_of in *. cbn. by rewrite !filter_app, Hm.
  - destruct (bool_decide (wanted c = Some e)); [|done]. destruct (css_ok e v); [|done].
    destruct (seen c its) as [[c2 e2]|] eqn:E; [|done]. injection H as <- <-. destruct (IH _ _ E) as (evs'&->&Hm).
    replace (css_ok e []) with true by (by destruct e). eexists. split; [done|]. unfold markup_of in *. by destruct c as [[] ?].
Qed.

(** No value adds, removes or changes a tag or an attribute. *)
Lemma markup_fixed its ts : template_tokens its = Some ts →
  ∃ m, markup (render its) = Some m ∧ markup (render (erase <$> its)) = Some m.
Proof.
  unfold template_tokens, markup, mbind, option_bind. destruct (seen _ its) as [[[c up] evs]|] eqn:E; [|done]. intros _.
  destruct (seen_erase _ _ _ _ E) as (evs0&E0&Hm0).
  destruct (seen_read _ _ _ _ _ _ E) as (e1&->&_&M1). destruct (seen_read _ _ _ _ _ _ E0) as (e2&->&_&M2).
  exists (markup_of evs). split; [by rewrite <- M1|by rewrite <- Hm0, <- M2].
Qed.
End bytes_read.

(** ** A template that was escaped is read in the contexts it was escaped for *)
Section soundness.
Context {R : HtmlRefs} (funcs : string → list value → option value).

Definition item_ok (i : item) : Prop := match i with IText _ => True | IVal e v => css_ok e v = true end.

Lemma seen_app c c1 c2 i1 i2 e1 e2 :
  seen c i1 = Some (c1, e1) → seen c1 i2 = Some (c2, e2) → seen c (i1 ++ i2) = Some (c2, e1 ++ e2).
Proof.
  revert c e1. induction i1 as [|[s|e v] i1 IH]; intros c e1 H1 H2; cbn [seen app] in *; unfold mbind, option_bind in *.
  - by injection H1 as -> <-.
  - destruct (gread c (str_bytes s)) as [[c' e]|]; [|done]. destruct (seen _ i1) as [[c'' e'']|] eqn:E; [|done].
    injection H1 as -> <-. cbn in *. rewrite (IH _ _ E H2). by rewrite <- app_assoc.
  - destruct (_ && _); [|done]. destruct (seen c i1) as [[c'' e'']|] eqn:E; [|done].
    injection H1 as -> <-. by rewrite (IH _ _ E H2).
Qed.

(** The contexts [cs'] that items can lead to from [cs]. *)
Definition leads (cs cs' : list ctx) (its : list item) : Prop :=
  ∀ c, c ∈ cs → ∃ c' evs, seen c its = Some (c', evs) ∧ c' ∈ cs'.

Lemma leads_app cs cs1 cs2 i1 i2 : leads cs cs1 i1 → leads cs1 cs2 i2 → leads cs cs2 (i1 ++ i2).
Proof.
  intros H1 H2 c Hc. destruct (H1 c Hc) as (c1&e1&E1&Hc1). destruct (H2 c1 Hc1) as (c2&e2&E2&Hc2).
  exists c2, (e1 ++ e2). split; [by eapply seen_app|done].
Qed.

Lemma leads_weaken cs cs1 cs2 its : leads cs cs1 its → cs1 ⊆ cs2 → leads cs cs2 its.
Proof. intros H Hs c Hc. destruct (H c Hc) as (c'&e&E&Hc'). eauto. Qed.

Lemma leads_nil cs cs' : cs ⊆ cs' → leads cs cs' [].
Proof. intros Hs c Hc. exists c, []. auto. Qed.

Lemma collect_elem {A B} (f : A → option B) l l' x : collect f l = Some l' → x ∈ l → ∃ y, f x = Some y ∧ y ∈ l'.
Proof.
  revert l'. induction l as [|a l IH]; intros l' H Hx; [by apply not_elem_of_nil in Hx|]. cbn in H. unfold mbind, option_bind in H.
  destruct (f a) as [y|] eqn:Ea; [|done]. destruct (collect f l) as [ys|]; [|done]. injection H as <-.
  apply elem_of_cons in Hx as [->|Hx]; [exists y; split; [done|left]|]. destruct (IH _ eq_refl Hx) as (z&?&?). exists z. split; [done|by right].
Qed.

Lemma agreed_spec cs e : agreed cs = Some e → ∀ c, c ∈ cs → wanted c = Some e.
Proof.
  destruct cs as [|c0 cs]; [done|]. unfold agreed, mbind, option_bind. destruct (wanted c0); [|done].
  destruct (forallb _ _) eqn:Hf; [|done]. intros [= ->] c Hc. rewrite forallb_forall in Hf.
  apply list_elem_of_In in Hc. exact (proj1 (bool_decide_eq_true _) (Hf c Hc)).
Qed.

Lemma exec_node_go n root dot : exec_node funcs n root dot =
  match n with
  | EText s => Some [IText s]
  | EAction esc e => v ← eval funcs root dot e; s ← print esc v; Some [IVal esc s]
  | EIf e yes no => v ← eval funcs root dot e; if truth v then exec funcs yes root dot else exec funcs no root dot
  | ERange e body => v ← eval funcs root dot e; l ← as_list v; (λ x, concat x) <$> collect (exec funcs body root) l
  | EWith e body => v ← eval funcs root dot e; if truth v then exec funcs body root v else Some []
  | ETmpl e body => v ← eval funcs root dot e; exec funcs body v v
  end.
Proof. by destruct n. Qed.

(** A loop whose body keeps the contexts keeps them. *)
Lemma leads_loop cs body root l its :
  (∀ dot i, exec funcs body root dot = Some i → Forall item_ok i → leads cs cs i) →
  (λ x, concat x) <$> collect (exec funcs body root) l = Some its → Forall item_ok its → leads cs cs its.
Proof.
  intros Hb. revert its. induction l as [|v l IH]; intros its H Hok; cbn in H; unfold mbind, option_bind in H.
  { injection H as <-. by apply leads_nil. }
  destruct (exec funcs body root v) as [i|] eqn:Ei; [|done]. destruct (collect _ l) as [ii|]; [|done]. injection H as <-.
  cbn in Hok. apply Forall_app in Hok as [H1 H2]. eapply leads_app; [by eapply Hb|]. by apply IH.
Qed.

Lemma escape_sound fuel ds cs ns es cs' root dot its :
  escape_nodes fuel ds cs ns = Some (es, cs') → exec funcs es root dot = Some its → Forall item_ok its → leads cs cs' its.
Proof.
  revert cs ns es cs' root dot its. induction fuel as [|fuel IH]; intros cs ns es cs' root dot its Hesc Hex Hok; [done|].
  destruct ns as [|n ns]; cbn [escape_nodes] in Hesc.
  { injection Hesc as <- <-. injection Hex as <-. by apply leads_nil. }
  unfold mbind, option_bind in Hesc.
  destruct (match n with NText _ => _ | _ => _ end) as [[e cs1]|] eqn:En; [|done]. cbn [fst snd] in Hesc.
  destruct (escape_nodes fuel ds cs1 ns) as [[es2 cs2]|] eqn:Ens; [|done]. injection Hesc as <- <-.
  cbn [exec] in Hex. unfold mbind, option_bind in Hex.
  destruct (exec_node funcs e root dot) as [i1|] eqn:E1; [|done].
  destruct (exec funcs es2 root dot) as [i2|] eqn:E2; [|done]. injection Hex as <-.
  apply Forall_app in Hok as [Hok1 Hok2]. eapply leads_app; [|eapply (IH _ ns); eassumption]. clear Ens E2 Hok2 ns es2 cs2.
  rewrite exec_node_go in E1. unfold mbind, option_bind in E1.
  destruct n as [s|x|x yes no|x body|x body|name x].
  - destruct (collect _ cs) as [cs0|] eqn:Ec; [|done]. cbn [fst snd] in En. injection En as <- <-. injection E1 as <-.
    intros c Hc. destruct (collect_elem _ _ _ _ Ec Hc) as (c'&Hg&Hc'). cbn. unfold mbind, option_bind.
    destruct (gread c (str_bytes s)) as [[c1 e1]|]; [|done]. injection Hg as ->. eauto.
  - destruct (agreed cs) as [esc|] eqn:Ea; [|done]. cbn [fst snd] in En. injection En as <- <-.
    destruct (eval _ _ _ x) as [v|]; [|done]. destruct (print esc v) as [b|]; [|done]. injection E1 as <-.
    pose proof (proj1 (Forall_singleton _ _) Hok1) as Hcss. change (css_ok esc b = true) in Hcss. intros c Hc. exists c. cbn. unfold mbind, option_bind.
    rewrite (bool_decide_true (wanted c = Some esc)) by (by eapply agreed_spec). rewrite Hcss. cbn. eauto.
  - destruct (escape_nodes fuel ds cs yes) as [[a csa]|] eqn:Ea; [|done].
    destruct (escape_nodes fuel ds cs no) as [[b csb]|] eqn:Eb; [|done]. cbn [fst snd] in En. injection En as <- <-.
    destruct (eval _ _ _ x) as [v|]; [|done].
    destruct (truth v); (eapply leads_weaken; [eapply IH; [|exact E1|exact Hok1]; eassumption|]); cbn; intros c Hc; rewrite elem_of_remove_dups, elem_of_app; auto.
  - destruct (escape_nodes fuel ds cs body) as [[a csa]|] eqn:Ea; [|done]. cbn [fst snd] in En. cbv zeta in En.
    destruct (escape_nodes fuel ds (remove_dups (cs ++ csa)) body) as [[b csb]|] eqn:Eb; [|done].
    cbn [fst snd] in En. destruct (bool_decide (csb ⊆ _)) eqn:Hsub; [apply bool_decide_eq_true in Hsub|done]. injection En as <- <-.
    destruct (eval _ _ _ x) as [v|]; [|done]. destruct (as_list v) as [l|]; [|done].
    assert (leads (remove_dups (cs ++ csa)) (remove_dups (cs ++ csa)) i1) as Hl.
    { eapply leads_loop; [|done|done]. intros d i Hi Hoki. eapply leads_weaken; [eapply IH; [exact Eb|exact Hi|exact Hoki]|done]. }
    intros c Hc. apply Hl. rewrite elem_of_remove_dups, elem_of_app. auto.
  - destruct (escape_nodes fuel ds cs body) as [[a csa]|] eqn:Ea; [|done]. cbn [fst snd] in En. injection En as <- <-.
    destruct (eval _ _ _ x) as [v|]; [|done]. destruct (truth v).
    + eapply leads_weaken; [eapply IH; [|exact E1|exact Hok1]; eassumption|]. cbn. intros c Hc. rewrite elem_of_remove_dups, elem_of_app. auto.
    + injection E1 as <-. apply leads_nil. intros c Hc. rewrite elem_of_remove_dups, elem_of_app. auto.
  - destruct (lookup_template name ds) as [body|]; [|done].
    destruct (escape_nodes fuel ds cs body) as [[a csa]|] eqn:Ea; [|done]. cbn [fst snd] in En. injection En as <- <-.
    destruct (eval _ _ _ x) as [v|]; [|done]. eapply IH; eassumption.
Qed.
End soundness.

(** ** Templates that cannot fail *)
Section types.
Context (funcs_ty : string → list ty → option ty).

Definition printable (esc : escaper) (t : ty) : bool :=
  match esc, t with
  | ECss, TyCss => true
  | ECss, _ => false
  | _, TyStr | _, TyInt | _, TyPtr TyStr | _, TyRef TyStr => true
  | _, _ => false
  end.

(** [known] is what a surrounding [if] says of a pointer. *)
Definition knowing (e : expr) (t : ty) (known : option (bool * list string * ty)) : option (bool * list string * ty) :=
  match e, t with XPath r p [], TyPtr t' => Some (r, p, TyRef t') | _, _ => known end.

Fixpoint typed_node (n : enode) (rt dt : ty) (known : option (bool * list string * ty)) : bool :=
  let fix go (ns : list enode) rt dt known :=
    match ns with [] => true | n :: ns' => typed_node n rt dt known && go ns' rt dt known end in
  match n with
  | EText _ => true
  | EAction esc e => match type_of_expr funcs_ty rt dt known e with Some t => printable esc t | None => false end
  | EIf e yes no =>
      match type_of_expr funcs_ty rt dt known e with
      | Some t => go yes rt dt (knowing e t known) && go no rt dt known
      | None => false
      end
  | ERange e body => match type_of_expr funcs_ty rt dt known e with Some (TyList t) => go body rt t None | _ => false end
  | EWith e body => match type_of_expr funcs_ty rt dt known e with Some t => go body rt t None | None => false end
  | ETmpl e body => match type_of_expr funcs_ty rt dt known e with Some t => go body t t None | None => false end
  end.
Fixpoint typed (ns : list enode) (rt dt : ty) (known : option (bool * list string * ty)) : bool :=
  match ns with [] => true | n :: ns' => typed_node n rt dt known && typed ns' rt dt known end.

Lemma enode_nested_ind (P : enode → Prop) :
  (∀ s, P (EText s)) → (∀ esc e, P (EAction esc e)) →
  (∀ e yes no, Forall P yes → Forall P no → P (EIf e yes no)) →
  (∀ e body, Forall P body → P (ERange e body)) → (∀ e body, Forall P body → P (EWith e body)) →
  (∀ e body, Forall P body → P (ETmpl e body)) → ∀ n, P n.
Proof.
  intros H1 H2 H3 H4 H5 H6. fix IH 1.
  intros [s|esc e|e yes no|e body|e body|e body]; [apply H1|apply H2|apply H3|apply H4|apply H5|apply H6].
  1: induction yes; constructor; auto.
  1: induction no; constructor; auto.
  all: induction body; constructor; auto.
Qed.

Context (funcs : string → list value → option value) {Fok : FuncsOk funcs funcs_ty}.

Definition known_ok (root dot : value) (known : option (bool * list string * ty)) : Prop :=
  ∀ r p t, known = Some (r, p, t) → ∃ v, walk (if r : bool then root else dot) p [] = Some v ∧ has_type v t.

(** Nodes that render, whatever values of the types they are given. *)
Definition renders_node (n : enode) : Prop :=
  ∀ rt dt known root dot, typed_node n rt dt known = true → has_type root rt → has_type dot dt → known_ok root dot known →
  ∃ its, exec_node funcs n root dot = Some its ∧ Forall item_ok its.

Lemma print_typed esc v t : printable esc t = true → has_type v t → ∃ s, print esc v = Some s ∧ css_ok esc s = true.
Proof.
  intros Hp Hv. assert (∀ e s, e ≠ ECss → css_ok e s = true) as Hn by (intros e s He; unfold css_ok; by rewrite bool_decide_false).
  destruct (decide (esc = ECss)) as [->|He].
  { destruct t; try done. inversion Hv; subst. eexists. split; [done|]. done. }
  destruct esc; try done; destruct t as [| | | | |[]|[]| |]; try done; inversion Hv; subst;
    repeat match goal with H : has_type _ TyStr |- _ => inversion H; clear H; subst end; cbn [print]; eauto.
Qed.

Lemma renders_list ns rt dt known root dot :
  Forall renders_node ns → typed ns rt dt known = true → has_type root rt → has_type dot dt → known_ok root dot known →
  ∃ its, exec funcs ns root dot = Some its ∧ Forall item_ok its.
Proof.
  intros Hns Ht Hr Hd Hk. induction Hns as [|n ns Hn _ IH]; cbn in *; [by eexists|].
  apply andb_true_iff in Ht as [H1 H2]. destruct (Hn _ _ _ _ _ H1 Hr Hd Hk) as (i1&E1&O1). destruct (IH H2) as (i2&E2&O2).
  unfold mbind, option_bind. rewrite E1, E2. eexists. split; [done|]. by apply Forall_app.
Qed.

Lemma renders_loop body rt t root l :
  Forall renders_node body → typed body rt t None = true → has_type root rt → Forall (λ v, has_type v t) l →
  ∃ its, (λ x, concat x) <$> collect (exec funcs body root) l = Some its ∧ Forall item_ok its.
Proof.
  intros Hb Ht Hr. induction 1 as [|v l Hv _ (is2&E2&O2)]; [by eexists|].
  destruct (renders_list body rt t None root v Hb Ht Hr Hv ltac:(done)) as (i1&E1&O1).
  cbn. unfold mbind, option_bind. rewrite E1. destruct (collect _ l) as [ii|]; [|done]. injection E2 as <-.
  eexists. split; [done|]. cbn. by apply Forall_app.
Qed.

Lemma renders_nodes n : renders_node n.
Proof.
  induction n as [s|esc e|e yes no Hy Hn|e body Hb|e body Hb|e body Hb] using enode_nested_ind;
    intros rt dt known root dot Ht Hr Hd Hk; rewrite exec_node_go; cbn in Ht.
  1: { eexists. split; [done|]. by repeat constructor. }
  all: destruct (type_of_expr funcs_ty rt dt known e) as [t|] eqn:Et; [|done];
    destruct (eval_typed (Fok := Fok) root dot rt dt known Hr Hd Hk e t Et) as (v&Ev&Hv); rewrite Ev;
    unfold mbind, option_bind.
  - destruct (print_typed esc v t Ht Hv) as (s&->&Hs). eexists. split; [done|]. by apply Forall_singleton.
  - apply andb_true_iff in Ht as [H1 H2]. destruct (truth v) eqn:Etr; [|by eapply (renders_list no rt dt known)].
    eapply (renders_list yes rt dt (knowing e t known)); try done. unfold knowing.
    destruct e as [r p []| |]; try done. destruct t; try done. intros r' p' t' [= <- <- <-].
    cbn in Ev. exists v. split; [done|]. inversion Hv; subst; [done|by constructor].
  - destruct t; try done. inversion Hv; subst. by eapply (renders_loop body rt t).
  - destruct (truth v); [|by eexists]. by eapply (renders_list body rt t None).
  - by eapply (renders_list body t t None).
Qed.

Context {R : HtmlRefs} {Rok : HtmlRefsOk}.

Lemma renders_escaped ds name es t data :
  escape_template ds name = Some es → typed es t t None = true → has_type data t →
  ∃ its ts, exec funcs es data data = Some its ∧ template_tokens its = Some ts.
Proof.
  unfold escape_template, mbind, option_bind. intros He Ht Hd. destruct (lookup_template name ds) as [ns|]; [|done].
  destruct (escape_nodes escape_fuel ds text_start ns) as [[es' cs]|] eqn:En; [|done]. cbn [fst snd] in He.
  destruct (bool_decide_reflect (cs = text_start)) as [->|]; [|done]. injection He as ->.
  destruct (renders_list es t t None data data) as (its&Ei&Hok); [apply Forall_forall; intros; apply renders_nodes|done..|].
  destruct (escape_sound funcs _ _ _ _ _ _ _ _ _ En Ei Hok (CText "" None, UNone)) as (c&evs&Hs&Hc); [left|].
  apply list_elem_of_singleton in Hc as ->. exists its, (group evs). split; [done|]. unfold template_tokens. by rewrite Hs.
Qed.
End types.

(** ** Links cannot run scripts *)

(** The scheme of a URL: what stands before a colon, if it is made of scheme characters. *)
Definition scheme_byte (b : byte) : bool := letter b || digit b || bool_decide (b ∈ [x2b; x2d; x2e]).
Fixpoint scheme (l : bytes) : option bytes :=
  match l with
  | [] => None
  | b :: l' => if bool_decide (b = x3a) then Some [] else if scheme_byte b then cons b <$> scheme l' else None
  end.

Lemma scheme_processURL l s : scheme (processURL true l) = Some s → scheme l = Some s.
Proof.
  revert s. induction l as [|b l IH]; intros s; [done|]. cbn [processURL].
  assert (scheme ([b] ++ processURL true l) = Some s → scheme (b :: l) = Some s) as Hkeep.
  { cbn. destruct (bool_decide (b = x3a)); [done|]. destruct (scheme_byte b); [|done].
    destruct (scheme (processURL true l)) as [s'|] eqn:E; [|done]. intros [= <-]. by rewrite (IH s' eq_refl). }
  assert (scheme (percent b ++ processURL true l) = None) as Hp by done.
  destruct (unreserved b); [done|]. destruct (url_reserved b && true); [done|]. destruct (_ && _ && _); [done|]. by rewrite Hp.
Qed.

Lemma scheme_cut s p : scheme (str_bytes s) = Some p → ∃ rest, cut_byte ":"%char s = Some (bytes_str p, rest) ∧ contains_byte "/"%char (bytes_str p) = false.
Proof.
  revert p. induction s as [|c s IH]; intros p; [done|].
  change (str_bytes (String c s)) with (Ascii.byte_of_ascii c :: str_bytes s). cbn [scheme].
  destruct (bool_decide_reflect (Ascii.byte_of_ascii c = x3a)) as [Hc|Hc].
  - intros [= <-]. assert (c = ":"%char) as -> by (rewrite <- (Ascii.ascii_of_byte_of_ascii c), Hc; done). cbn. eauto.
  - destruct (scheme_byte _) eqn:Hs; [|done]. destruct (scheme (str_bytes s)) as [p'|]; [|done]. intros [= <-].
    destruct (IH p' eq_refl) as (rest&Hcut&Hsl). exists rest. cbn [cut_byte].
    assert (c ≠ ":"%char) by (by intros ->). rewrite decide_False, Hcut by done.
    assert (bytes_str (Ascii.byte_of_ascii c :: p') = String c (bytes_str p')) as ->
      by (unfold bytes_str; cbn; by rewrite Ascii.ascii_of_byte_of_ascii).
    split; [done|]. cbn. rewrite Hsl, orb_false_r. apply bool_decide_eq_false. by intros ->.
Qed.

Lemma clean_id l : x00 ∉ l → clean l = l.
Proof.
  induction l as [|b l IH]; intros H; [done|]. apply not_elem_of_cons in H as [Hb Hl].
  change (clean (b :: l)) with (clean_byte b ++ clean l). rewrite (IH Hl). by destruct b.
Qed.

(** A value that is a whole URL has no scheme, or one of http, https and mailto. *)
Lemma url_scheme v p : scheme (shown EUrl v) = Some p → ToLower (bytes_str p) ∈ ["http"; "https"; "mailto"].
Proof.
  assert (∀ l n, x00 ∉ processURL n l) as Hnul.
  { intros l n. induction l as [|b l IH]; [apply not_elem_of_nil|]. cbn [processURL]. rewrite not_elem_of_app. split; [|done].
    destruct b; try (vm_compute; apply (bool_decide_unpack _); exact I); destruct n; cbn;
      try (apply (bool_decide_unpack _); vm_compute; exact I).
    destruct (match l with p :: q :: _ => _ | _ => _ end); apply (bool_decide_unpack _); vm_compute; exact I. }
  cbn [shown url_part]. rewrite clean_id by apply Hnul. unfold urlFilter. intros H%scheme_processURL.
  destruct (isSafeURL (bytes_str v)) eqn:Hs; [|vm_compute in H; done].
  rewrite <- (str_bytes_str v) in H. apply scheme_cut in H as (rest&Hcut&Hsl). unfold isSafeURL in Hs. rewrite Hcut, Hsl in Hs.
  unfold EqualFold in Hs. cbn [orb] in Hs. rewrite !orb_true_iff, !bool_decide_eq_true in Hs.
  destruct Hs as [[->| ->]| ->]; cbn; set_solver.
Qed.

(** ** Pages that are read as they are written *)
Section written.
Context {R : HtmlRefs}.

(** The text [out] of a page, by the items [its] its template was executed to: the
    browser's tokens are the template's with the values in place; tags and attributes
    are those of the template without values; a value that is a whole URL runs no
    script. *)
Record written (its : list item) (out : bytes) : Prop := {
  wr_text : out = render its;
  wr_tokens : ∃ ts, tokens out = Some ts ∧ template_tokens its = Some ts;
  wr_markup : ∃ m, markup out = Some m ∧ markup (render (erase <$> its)) = Some m;
  wr_urls : ∀ v p, IVal EUrl v ∈ its → scheme (shown EUrl v) = Some p → ToLower (bytes_str p) ∈ ["http"; "https"; "mailto"];
}.

(** An escaped template with types renders to such a page. *)
Lemma renders {Rok : HtmlRefsOk} funcs funcs_ty {Fok : FuncsOk funcs funcs_ty} ds name es t data :
  escape_template ds name = Some es → typed funcs_ty es t t None = true → has_type data t →
  ∃ its out, exec funcs es data data = Some its ∧ Execute funcs es data = Some out ∧ written its out.
Proof.
  intros He Ht Hd. destruct (renders_escaped funcs_ty funcs ds name es t data He Ht Hd) as (its&ts&Ei&Hts).
  exists its, (render its). split_and!; [done|unfold Execute; by rewrite Ei|]. split; [done| | |].
  - exists ts. split; [by apply served_tokens|done].
  - by eapply markup_fixed.
  - intros v p _. apply url_scheme.
Qed.
End written.

(** ** The references the pages need *)
Module HtmlDemo.
#[export] Instance refs : HtmlRefs := {| charref s :=
  if bool_decide (s = "#34") then [x22] else if bool_decide (s = "amp") then [x26] else if bool_decide (s = "#39") then [x27]
  else if bool_decide (s = "#43") then [x2b] else if bool_decide (s = "lt") then [x3c] else if bool_decide (s = "gt") then [x3e]
  else if bool_decide (s = "nbsp") then [xc2; xa0] else x26 :: str_bytes s |}.
#[export] Instance refs_ok : HtmlRefsOk.
Proof. split; vm_compute; reflexivity. Qed.
End HtmlDemo.
