(* ===== verification/Forms.v ===== *)
(** * Forms: what the browser handlers use of net/http, strconv, strings and utf8

    Form decoding as Request.ParseForm, FormValue and MultipartReader do it, and the
    text functions of the editor.  The media-type parser and the multipart format are
    parameters. *)

From S2P Require Import Prelude GoText Chunker Url Http.
Import Chunker.

(** ** Readers *)
Fixpoint ReadAll (evs : list rd_event) : res bytes :=
  match evs with
  | [] => Ok []
  | RErr e :: _ => Err e
  | RData bs :: evs' => match ReadAll evs' with Ok l => Ok (bs ++ l) | Err e => Err e end
  end.

(** strings.NewReader *)
Definition NewReader (l : bytes) : list rd_event := match l with [] => [] | _ => [RData l] end.

(** io.LimitReader *)
Fixpoint LimitReader (n : Z) (evs : list rd_event) : list rd_event :=
  match evs with
  | [] => []
  | ev :: evs' =>
      if (n <=? 0)%Z then []
      else
        match ev with
        | RErr e => [RErr e]
        | RData bs => if (blen bs <? n)%Z then RData bs :: LimitReader (n - blen bs) evs'
                      else [RData (take (Z.to_nat n) bs)]
        end
  end.

(** ** Forms *)

(** A part of a multipart body; its content is read as a stream. *)
Record Part := MkPart { pt_FormName : string; pt_FileName : string; pt_body : list rd_event }.

Class FormFormats := {
  ParseMediaType : string → string * bool;   (* the type, and whether the header is well formed *)
  multipart_parts : string → list rd_event → option (list Part * option error);
    (* MultipartReader: [None] when the body is not multipart; the parts NextPart yields,
       and the error it ends with, if any *)
  multipart_fields : string → list rd_event → list (string * string);
    (* the values ReadForm collects; none when it fails *)
  query_parses : Request → bool;             (* the URL's query has no malformed piece *)
}.

Definition errMediaType : error := ErrText "mime: malformed media type".
Definition errPOSTTooLarge : error := ErrText "http: POST too large".
Definition errQuery : error := ErrText "invalid URL escape or semicolon".

Definition maxFormSize : Z := 10 * 2 ^ 20.

Section forms.
Context {FF : FormFormats}.

Definition content_type (r : Request) : string :=
  let ct := header_get r "Content-Type" in if bool_decide (ct = "") then "application/octet-stream" else ct.

(** parsePostForm: the pairs of an URL-encoded body and the first error.  [limited] says
    that the body already is a MaxBytesReader. *)
Definition parsePostForm (limited : bool) (r : Request) (body : list rd_event) : list (string * string) * option error :=
  let '(ct, ok) := ParseMediaType (content_type r) in
  let err := if ok then None else Some errMediaType in
  let or_err e := match err with Some e' => Some e' | None => Some e end in
  if bool_decide (ct = "application/x-www-form-urlencoded") then
    match ReadAll (if limited then body else LimitReader (maxFormSize + 1) body) with
    | Err e => ([], or_err e)
    | Ok b =>
        if negb limited && (maxFormSize <? blen b)%Z then ([], Some errPOSTTooLarge)
        else
          let '(vs, fine) := ParseQuery (bytes_str b) in
          (vs, if fine then err else or_err errQuery)
    end
  else ([], err).

(** ParseForm of a POST request over a limited body: the pairs of the body, or the error. *)
Definition ParseForm (r : Request) (body : list rd_event) : list (string * string) * option error :=
  let '(vs, err) := parsePostForm true r body in
  (vs, match err with Some e => Some e | None => if query_parses r then None else Some errQuery end).

(** A value of the parsed form: the body's pairs come before the URL's. *)
Definition form_value (vs : list (string * string)) (r : Request) (k : string) : string :=
  match first_value k vs with
  | Some v => v
  | None => query_get r k
  end.

(** FormValue of a POST request that was not parsed yet; errors are dropped, and the
    fields of a multipart body come last. *)
Definition FormValue (r : Request) (k : string) : string :=
  match first_value k ((parsePostForm false r (rq_body r)).1) with
  | Some v => v
  | None =>
      match rq_query r !! k with
      | Some v => v
      | None => default "" (first_value k (multipart_fields (header_get r "Content-Type") (rq_body r)))
      end
  end.
End forms.

(** ** strconv.Atoi *)
Fixpoint decimal (acc : Z) (s : string) : option Z :=
  match s with
  | EmptyString => Some acc
  | String c s' =>
      let n := Z.of_N (Ascii.N_of_ascii c) in
      if ((48 <=? n) && (n <=? 57))%Z then decimal (10 * acc + (n - 48)) s' else None
  end.

Definition Atoi (s : string) : option Z :=
  let '(neg, digits) :=
    match s with
    | String "-" s' => (true, s')
    | String "+" s' => (false, s')
    | _ => (false, s)
    end in
  if bool_decide (digits = "") then None
  else
    v ← decimal 0 digits;
    let z := if neg : bool then (- v)%Z else v in
    if ((- 2 ^ 63 <=? z) && (z <? 2 ^ 63))%Z then Some z else None.

(** ** strings.ReplaceAll(content, "\r\n", "\n") *)
Fixpoint crlf_to_lf (l : bytes) : bytes :=
  match l with
  | x0d :: (x0a :: l' as rest) => x0a :: crlf_to_lf l'
  | b :: l' => b :: crlf_to_lf l'
  | [] => []
  end.

(** ** utf8.Valid: an invalid encoding decodes to [RuneError] of width one *)
Fixpoint utf8_valid (fuel : nat) (l : bytes) : bool :=
  match fuel, l with
  | S f, _ :: _ =>
      let '(r, n) := decode_rune l in
      if bool_decide (r = RuneError) && bool_decide (n = 1) then false else utf8_valid f (drop n l)
  | _, _ => true
  end.
Definition Valid (l : bytes) : bool := utf8_valid (length l) l.

(** ** Lemmas *)

(** A line break written by the editor and read back is one byte. *)
Lemma crlf_to_lf_none l : x0d ∉ l → crlf_to_lf l = l.
Proof.
  induction l as [|b l IH]; [done|]. rewrite not_elem_of_cons. intros [Hb Hl].
  destruct b; cbn; by rewrite IH.
Qed.

Lemma length_crlf_to_lf l : length (crlf_to_lf l) ≤ length l.
Proof.
  induction l as [|b l IH]; [done|]. cbn [length].
  enough (length (crlf_to_lf (b :: l)) ≤ S (length (crlf_to_lf l))) by lia.
  destruct b; try (cbn; lia). destruct l as [|c l]; [cbn; lia|]. destruct c; cbn; lia.
Qed.

Lemma ReadAll_good evs : good evs → ReadAll evs = Ok (events_data evs).
Proof.
  induction 1 as [|e evs (b&bs&->) _ IH]; [done|]. rewrite events_data_cons. cbn [ReadAll event_data]. by rewrite IH.
Qed.

Lemma good_NewReader l : good (NewReader l).
Proof. destruct l as [|b l]; [constructor|]. repeat constructor. do 2 eexists. reflexivity. Qed.

Lemma events_NewReader l : events_data (NewReader l) = l.
Proof. destruct l as [|b l]; [done|]. unfold NewReader. rewrite events_data_cons. cbn. by rewrite app_nil_r. Qed.

Example Atoi_demo : Atoi "-12" = Some (-12)%Z ∧ Atoi "9223372036854775808" = None ∧ Atoi "" = None ∧ Atoi "1 " = None.
Proof. vm_compute. done. Qed.
Example crlf_demo : crlf_to_lf [x61; x0d; x0a; x0d; x0d; x0a] = [x61; x0a; x0d; x0a].
Proof. done. Qed.
Example utf8_demo : Valid (str_bytes "é") = true ∧ Valid [x61; xff] = false ∧ Valid [xef; xbf; xbd] = true.
Proof. vm_compute. done. Qed.
