(* ===== verification/Discovery.v ===== *)
(** * Discovery: the office engine's editor URLs (kamara/internal/wopi/discovery.go)

    The discovery document is fetched once and kept; the engine and the XML tokenizer
    are parameters. *)

From stdpp Require Import pretty.
From S2P Require Import Prelude GoText Chunker Url Http Forms.
Import Chunker.

(** The tokens of encoding/xml the parser looks at; attributes by their local names. *)
Inductive xml_token :=
  | StartElement (name : string) (attrs : list (string * string))
  | OtherToken.

(** The answer to a GET at a time: a failure to get one, or the status and the body;
    the tokens of a document, with the error the tokenizer stops at, if any. *)
Class OfficeEngine := {
  engine_get : Z → string → res (Z * list rd_event);
  xml_tokens : bytes → list xml_token * option error;
}.

Record actions := MkActions { ac_edit : string; ac_view : string }.

(** The map is there once the document was loaded. *)
Record Discovery := MkDiscovery { d_baseURL : string; d_byExt : option (gmap string actions) }.

Definition NewDiscovery (baseURL : string) : Discovery := MkDiscovery (TrimSuffix baseURL "/") None.

Definition appendWOPISrc (urlsrc wopiSrc : string) : string :=
  let sep := if has_suffix urlsrc "?" then "" else if contains_byte "?"%char urlsrc then "&" else "?" in
  urlsrc +:+ sep +:+ "WOPISrc=" +:+ QueryEscape wopiSrc.

(** The attributes of an action: the last of each name. *)
Definition action_attrs (attrs : list (string * string)) : string * string * string :=
  foldl (λ '(ext, name, urlsrc) '(k, v),
    if bool_decide (k = "ext") then (ToLower v, name, urlsrc)
    else if bool_decide (k = "name") then (ext, v, urlsrc)
    else if bool_decide (k = "urlsrc") then (ext, name, v)
    else (ext, name, urlsrc)) ("", "", "") attrs.

Definition add_token (out : gmap string actions) (tok : xml_token) : gmap string actions :=
  match tok with
  | OtherToken => out
  | StartElement el attrs =>
      if negb (bool_decide (el = "action")) then out
      else
        let '(ext, name, urlsrc) := action_attrs attrs in
        if bool_decide (ext = "") || bool_decide (urlsrc = "") then out
        else
          let a := default (MkActions "" "") (out !! ext) in
          let a' :=
            if bool_decide (name = "edit") then MkActions urlsrc (ac_view a)
            else if bool_decide (name = "view") then MkActions (ac_edit a) urlsrc
            else if bool_decide (ac_view a = "") then MkActions (ac_edit a) urlsrc else a in
          <[ext := a']> out
  end.

Section discovery.
Context {E : OfficeEngine}.

Definition parseDiscovery (doc : bytes) : res (gmap string actions) :=
  let '(toks, err) := xml_tokens doc in
  match err with
  | Some e => Err (ErrWrap "wopi: parse discovery" e)
  | None =>
      let out := foldl add_token ∅ toks in
      if bool_decide (out = ∅) then Err (ErrText "wopi: discovery had no actions") else Ok out
  end.

Definition fetch (now : Z) (d : Discovery) : res (gmap string actions) :=
  match engine_get now (d_baseURL d +:+ "/hosting/discovery") with
  | Err e => Err (ErrWrap "wopi: fetch discovery" e)
  | Ok (status, body) =>
      if negb (status =? 200)%Z then Err (ErrText ("wopi: discovery status " +:+ pretty status))
      else match ReadAll (LimitReader (4 * 2 ^ 20) body) with Err e => Err e | Ok doc => parseDiscovery doc end
  end.

Definition ensureLoaded (now : Z) (d : Discovery) : res (gmap string actions) * Discovery :=
  match d_byExt d with
  | Some m => (Ok m, d)
  | None =>
      match fetch now d with
      | Err e => (Err e, d)
      | Ok m => (Ok m, MkDiscovery (d_baseURL d) (Some m))
      end
  end.

Definition EditURL (now : Z) (ext wopiSrc : string) (d : Discovery) : res string * Discovery :=
  match ensureLoaded now d with
  | (Err e, d') => (Err e, d')
  | (Ok m, d') =>
      (let ext := ToLower (TrimPrefix ext ".") in
       match m !! ext with
       | None => Err (ErrText ("wopi: no editor for " +:+ ext))
       | Some a =>
           let src := if bool_decide (ac_edit a = "") then ac_view a else ac_edit a in
           if bool_decide (src = "") then Err (ErrText ("wopi: no edit/view action for " +:+ ext))
           else Ok (appendWOPISrc src wopiSrc)
       end, d')
  end.

(** ** Lemmas *)

(** The engine that parses the URL's query finds the source it is to open. *)
Lemma appendWOPISrc_found base wopiSrc :
  appendWOPISrc (base +:+ "?") wopiSrc = base +:+ "?" +:+ Encode [("WOPISrc", wopiSrc)] ∧
  ParseQuery (Encode [("WOPISrc", wopiSrc)]) = ([("WOPISrc", wopiSrc)], true).
Proof.
  split; [|apply ParseQuery_Encode]. unfold appendWOPISrc.
  assert (has_suffix (base +:+ "?") "?" = true) as ->.
  { unfold has_suffix, string_rev.
    assert (∀ acc, string_rev_onto acc (base +:+ "?") = String "?" (string_rev_onto acc base)) as ->; [|by destruct (string_rev_onto "" base)].
    clear. induction base as [|c s IH]; intros acc; [done|]. exact (IH (String c acc)). }
  by rewrite string_app_assoc.
Qed.

(** Once loaded, the document is not fetched again. *)
Lemma EditURL_cached now ext src d m :
  d_byExt d = Some m → (EditURL now ext src d).2 = d.
Proof. intros H. unfold EditURL, ensureLoaded. by rewrite H. Qed.

Lemma EditURL_base now ext src d : d_baseURL (EditURL now ext src d).2 = d_baseURL d.
Proof. unfold EditURL, ensureLoaded. destruct (d_byExt d); [done|]. by destruct (fetch now d). Qed.
End discovery.
