(* ===== verification/Oidcrp.v ===== *)
(** * Oidcrp: the browser login flow (lib/oidcrp/oidcrp.go)

    The OIDC relying party of the browser apps: login states with their PKCE
    verifiers, the callback that turns a state into a session, logout, and the
    same-origin guard.  The identity provider and the oauth2 client are
    parameters; randomness and the clock are arguments. *)

From S2P Require Import Prelude GoText Url SessionStore Http.
Import Session.

Record Claims := MkClaims { c_Subject : string; c_Name : string; c_Email : string }.
Record BrowserSession := MkBrowserSession {
  bs_Claims : Claims;
  bs_IDToken : string;
  bs_AccessToken : string;
  bs_AccessTokenExpiry : Z;
}.

Record Token := MkToken { tk_id_token : option string; tk_AccessToken : string; tk_Expiry : Z }.

(** golang.org/x/oauth2 and go-oidc: the code exchange (which can fail, and whose
    answer may change with time), the verification of an ID token with its claims,
    and the two pure helpers. *)
Class IdP := {
  Exchange : Z → string → string → res Token;      (* time, code, PKCE verifier *)
  Verify : Z → string → res Claims;                (* time, raw ID token *)
  GenerateVerifier : bytes → string;
  AuthCodeURL : string → string → string;          (* state, PKCE verifier *)
}.

Record Config := MkConfig {
  cfg_Issuer : string;
  cfg_SuccessURL : string;
  cfg_PostLogoutURL : string;
  cfg_CookieName : string;
  cfg_Secure : bool;
  cfg_SessionTTL : Z;
}.

Record Cookie := MkCookie { ck_Name : string; ck_Value : string; ck_HttpOnly : bool; ck_Secure : bool; ck_MaxAge : Z }.

(** What a handler writes: status, cookies set, and the target of a redirect. *)
Record Reply := MkReply { rp_status : Z; rp_cookies : list Cookie; rp_location : option string }.

Record State := MkState {
  rp_sessions : Store BrowserSession;
  rp_logins : Store string;
}.

Definition or_default (v d : string) : string := if bool_decide (v = "") then d else v.

Definition login_ttl : Z := 10 * 60 * 1000000000.

(** New, after the provider was discovered. *)
Definition with_defaults (c : Config) : Config :=
  MkConfig (cfg_Issuer c) (or_default (cfg_SuccessURL c) "/") (or_default (cfg_PostLogoutURL c) "/")
    (or_default (cfg_CookieName c) "session") (cfg_Secure c)
    (if (cfg_SessionTTL c =? 0)%Z then 12 * 3600 * 1000000000 else cfg_SessionTTL c).

Definition New (c : Config) : Config * State :=
  let cfg := with_defaults c in (cfg, MkState (NewStore (cfg_SessionTTL cfg)) (NewStore login_ttl)).

(** hex of [b], which crypto/rand drew. *)
Definition randID (b : bytes) : string := hex_encode b.

Definition stateCookie : string := "oidc_state".

Section flow.
Context {I : IdP}.
Context (cfg : Config).

Definition setCookie (v : string) (ttl : Z) : Cookie :=
  MkCookie (cfg_CookieName cfg) v true (cfg_Secure cfg) (ttl / 1000000000).
Definition clearCookie : Cookie := MkCookie (cfg_CookieName cfg) "" true (cfg_Secure cfg) (-1).

(** [rnd] and [vrnd] are the random bytes of the state and of the verifier. *)
Definition Login (now : Z) (rnd vrnd : bytes) (st : State) : Reply * State :=
  let state := randID rnd in
  let verifier := GenerateVerifier vrnd in
  (MkReply 302 [MkCookie stateCookie state true (cfg_Secure cfg) 600] (Some (AuthCodeURL state verifier)),
   MkState (rp_sessions st) (Put now state verifier (rp_logins st))).

Definition http_error (status : Z) (cookies : list Cookie) : Reply := MkReply status cookies None.

(** [srnd]: the random bytes of the session id. *)
Definition Callback (now : Z) (srnd : bytes) (r : Request) (st : State) : Reply * State :=
  let state := query_get r "state" in
  match rq_cookie r !! stateCookie with
  | None => (http_error 400 [], st)
  | Some sc =>
      if bool_decide (sc = "") || negb (bool_decide (sc = state)) then (http_error 400 [], st)
      else
        let clear := MkCookie stateCookie "" false false (-1) in
        let '(v, logins) := Get now state (rp_logins st) in
        match v with
        | None => (http_error 400 [clear], MkState (rp_sessions st) logins)
        | Some verifier =>
            let st' := MkState (rp_sessions st) (Delete state logins) in
            match Exchange now (query_get r "code") verifier with
            | Err _ => (http_error 502 [clear], st')
            | Ok tok =>
                let rawID := default "" (tk_id_token tok) in
                match Verify now rawID with
                | Err _ => (http_error 502 [clear], st')
                | Ok c =>
                    let sid := randID srnd in
                    (MkReply 302 [clear; setCookie sid (cfg_SessionTTL cfg)] (Some (cfg_SuccessURL cfg)),
                     MkState (Put now sid (MkBrowserSession c rawID (tk_AccessToken tok) (tk_Expiry tok))
                                (rp_sessions st))
                             (rp_logins st'))
                end
            end
        end
  end.

Definition Logout (now : Z) (r : Request) (st : State) : Reply * State :=
  let '(idToken, st') :=
    match rq_cookie r !! cfg_CookieName cfg with
    | None => ("", st)
    | Some c =>
        let '(s, sessions) := Get now c (rp_sessions st) in
        (match s with Some s => bs_IDToken s | None => "" end,
         MkState (Delete c sessions) (rp_logins st))
    end in
  let location :=
    if bool_decide (idToken = "") then cfg_PostLogoutURL cfg
    else cfg_Issuer cfg +:+ "/oidc/v1/end_session?" +:+ "id_token_hint=" +:+ QueryEscape idToken +:+
         "&post_logout_redirect_uri=" +:+ QueryEscape (cfg_PostLogoutURL cfg) in
  (MkReply 302 [clearCookie] (Some location), st').

Definition Session_ (now : Z) (r : Request) (st : State) : option BrowserSession * State :=
  match rq_cookie r !! cfg_CookieName cfg with
  | None => (None, st)
  | Some c => let '(s, sessions) := Get now c (rp_sessions st) in (s, MkState sessions (rp_logins st))
  end.

Definition Middleware {A} (now : Z) (next onUnauthorized : Request → A) (r : Request) (st : State)
    : A * State :=
  let '(s, st') := Session_ now r st in
  (match s with Some _ => next r | None => onUnauthorized r end, st').

(** ** Traces *)
Inductive event :=
  | ELogin (rnd vrnd : bytes)
  | ECallback (srnd : bytes) (r : Request)
  | ELogout (r : Request)
  | ESession (r : Request).

Definition handle (now : Z) (e : event) (st : State) : Reply * State :=
  match e with
  | ELogin rnd vrnd => Login now rnd vrnd st
  | ECallback srnd r => Callback now srnd r st
  | ELogout r => Logout now r st
  | ESession r => (MkReply 200 [] None, (Session_ now r st).2)
  end.

(** The replies to a trace, with the state it leaves. *)
Fixpoint serve_trace (l : list (Z * event)) (st : State) : list Reply * State :=
  match l with
  | [] => ([], st)
  | (t, e) :: l' =>
      let '(rep, st1) := handle t e st in
      let '(reps, st2) := serve_trace l' st1 in (rep :: reps, st2)
  end.
End flow.

(** SameOriginGuard; [None] lets the request through. *)
Definition SameOriginGuard (selfOrigin method : string) (r : Request) : option Z :=
  if bool_decide (method ∈ ["GET"; "HEAD"; "OPTIONS"]) then None
  else
    let site := header_get r "Sec-Fetch-Site" in
    if bool_decide (site ∈ ["same-origin"; "none"]) then None
    else if bool_decide (site ∈ ["same-site"; "cross-site"]) then Some 403%Z
    else
      let o := header_get r "Origin" in
      if negb (bool_decide (o = "")) && negb (bool_decide (o = selfOrigin)) then Some 403%Z else None.

Section provenance.
Context {I : IdP}.
Context (cfg : Config).
Implicit Types (l : list (Z * event)) (st : State).

(** The entry a login of the trace left. *)
Definition minted l (k : string) (e : entry string) : Prop :=
  ∃ t rnd vrnd, (t, ELogin rnd vrnd) ∈ l ∧ k = randID rnd ∧
    e = MkEntry (GenerateVerifier vrnd) (t + login_ttl).

Definition logs_out (k : string) (x : Z * event) : Prop :=
  match x.2 with ELogout r => rq_cookie r !! cfg_CookieName cfg = Some k | _ => False end.

(** The session entry a callback of the trace left: the callback came from the
    browser that holds the state cookie of an earlier login, in time, the provider
    exchanged its code for that login's verifier and vouched for the claims, and
    the browser has not logged out since. *)
Definition opened l (k : string) (e : entry BrowserSession) : Prop :=
  ∃ l1 l2 t srnd r tl rnd vrnd tok c,
    l = l1 ++ (t, ECallback srnd r) :: l2 ∧ (tl, ELogin rnd vrnd) ∈ l1 ∧ k = randID srnd ∧
    query_get r "state" = randID rnd ∧ rq_cookie r !! stateCookie = Some (randID rnd) ∧
    (t <= tl + login_ttl)%Z ∧
    Exchange t (query_get r "code") (GenerateVerifier vrnd) = Ok tok ∧
    Verify t (default "" (tk_id_token tok)) = Ok c ∧
    e = MkEntry (MkBrowserSession c (default "" (tk_id_token tok)) (tk_AccessToken tok) (tk_Expiry tok))
          (t + cfg_SessionTTL cfg) ∧
    Forall (λ x, ¬ logs_out k x) l2.

Definition flow_inv l st : Prop :=
  st_ttl (rp_logins st) = login_ttl ∧ st_ttl (rp_sessions st) = cfg_SessionTTL cfg ∧
  (∀ k e, st_items (rp_logins st) !! k = Some e → minted l k e) ∧
  (∀ k e, st_items (rp_sessions st) !! k = Some e → opened l k e).

Lemma minted_snoc l x k e : minted l k e → minted (l ++ [x]) k e.
Proof. intros (t&rnd&vrnd&Hin&?). exists t, rnd, vrnd. split; [|done]. apply elem_of_app. by left. Qed.

Lemma opened_snoc l x k e : ¬ logs_out k x → opened l k e → opened (l ++ [x]) k e.
Proof.
  intros Hx (l1&l2&t&srnd&r&tl&rnd&vrnd&tok&c&->&H1&H2&H3&H4&H5&H6&H7&H8&H9).
  exists l1, (l2 ++ [x]), t, srnd, r, tl, rnd, vrnd, tok, c. split_and!; try done.
  - by rewrite <- app_assoc.
  - apply Forall_app. split; [done|]. by constructor.
Qed.

(** Steps that only forget entries, and sign out who asks. *)
Lemma flow_inv_shrink l x st st' :
  flow_inv l st → st_ttl (rp_logins st') = st_ttl (rp_logins st) →
  st_ttl (rp_sessions st') = st_ttl (rp_sessions st) →
  (∀ k e, st_items (rp_logins st') !! k = Some e → st_items (rp_logins st) !! k = Some e) →
  (∀ k e, st_items (rp_sessions st') !! k = Some e →
     ¬ logs_out k x ∧ st_items (rp_sessions st) !! k = Some e) →
  flow_inv (l ++ [x]) st'.
Proof.
  intros (T1&T2&H1&H2) E1 E2 S1 S2. split; [congruence|]. split; [congruence|]. split.
  - intros k e Hk. by apply minted_snoc, H1, S1.
  - intros k e Hk. destruct (S2 k e Hk). apply opened_snoc; [done|]. by apply H2.
Qed.

Lemma Login_inv l st t rnd vrnd :
  flow_inv l st → flow_inv (l ++ [(t, ELogin rnd vrnd)]) (Login cfg t rnd vrnd st).2.
Proof.
  intros (T1&T2&H1&H2). cbn [Login snd]. split; [by etrans; [apply Put_ttl|]|]. split; [done|]. split.
  - intros k e [[-> ->]|Hk]%Put_items; [|by apply minted_snoc, H1].
    exists t, rnd, vrnd. rewrite T1. split_and!; [|done..]. apply elem_of_app. right. by left.
  - intros k e Hk. apply opened_snoc; [by intros []|]. by apply H2.
Qed.

Lemma Callback_inv l st t srnd r :
  flow_inv l st → flow_inv (l ++ [(t, ECallback srnd r)]) (Callback cfg t srnd r st).2.
Proof.
  intros HI. pose proof HI as (T1&T2&H1&H2). unfold Callback.
  assert (∀ st', st_ttl (rp_logins st') = st_ttl (rp_logins st) → rp_sessions st' = rp_sessions st →
    (∀ k e, st_items (rp_logins st') !! k = Some e → st_items (rp_logins st) !! k = Some e) →
    flow_inv (l ++ [(t, ECallback srnd r)]) st') as Hkeep.
  { intros st' E1 E2 S. apply (flow_inv_shrink l _ st); [done|done|congruence|done|].
    intros k e. rewrite E2. split; [by intros []|done]. }
  destruct (rq_cookie r !! stateCookie) as [sc|] eqn:Ec; [|by apply Hkeep].
  destruct (bool_decide (sc = "") || _) eqn:Es; [by apply Hkeep|].
  apply orb_false_iff in Es as [_ Es%negb_false_iff%bool_decide_eq_true]. subst sc.
  pose proof (Get_ttl t (query_get r "state") (rp_logins st)) as Tg.
  pose proof (Get_items t (query_get r "state") (rp_logins st)) as Ig.
  pose proof (Get_live t (query_get r "state") (rp_logins st)) as Lg.
  destruct (Get t (query_get r "state") (rp_logins st)) as [v logins]; cbn [fst snd] in Tg, Ig, Lg.
  destruct v as [verifier|]; [|by apply Hkeep].
  assert (flow_inv (l ++ [(t, ECallback srnd r)])
            (MkState (rp_sessions st) (Delete (query_get r "state") logins))) as Hst'
    by (apply Hkeep; [done|done|]; intros k e [_ Hk]%Delete_items; by apply Ig).
  destruct (Exchange t (query_get r "code") verifier) as [tok|] eqn:Ee; [|exact Hst'].
  destruct (Verify t (default "" (tk_id_token tok))) as [c|] eqn:Ev; [|exact Hst'].
  destruct Hst' as (A1&A2&A3&A4). cbn [snd]. split; [done|]. split; [by etrans; [apply Put_ttl|]|]. split; [done|].
  intros k e [[-> ->]|Hk]%Put_items; [|by apply A4].
  destruct (Lg verifier eq_refl) as (e&He&Hv&Hexp). destruct (H1 _ _ He) as (tl&rnd&vrnd&Hin&Hk&->).
  exists l, [], t, srnd, r, tl, rnd, vrnd, tok, c. cbn in Hv, Hexp. subst verifier. rewrite T2.
  split_and!; done || congruence || constructor.
Qed.

Lemma Logout_inv l st t r : flow_inv l st → flow_inv (l ++ [(t, ELogout r)]) (Logout cfg t r st).2.
Proof.
  intros HI. unfold Logout. destruct (rq_cookie r !! cfg_CookieName cfg) as [c|] eqn:Ec.
  - pose proof (Get_ttl t c (rp_sessions st)) as Tg. pose proof (Get_items t c (rp_sessions st)) as Ig.
    destruct (Get t c (rp_sessions st)) as [v sessions]; cbn [fst snd] in *.
    apply (flow_inv_shrink l _ st); [done|done|done|done|].
    intros k e [Hne Hk]%Delete_items. split; [|by apply Ig]. intros Hl. cbn in Hl. congruence.
  - apply (flow_inv_shrink l _ st); [done..|]. intros k e Hk. split; [|done]. intros Hl. cbn in Hl. congruence.
Qed.

Lemma Session_inv l st t r : flow_inv l st → flow_inv (l ++ [(t, ESession r)]) (Session_ cfg t r st).2.
Proof.
  intros HI. unfold Session_. destruct (rq_cookie r !! cfg_CookieName cfg) as [c|].
  - pose proof (Get_ttl t c (rp_sessions st)) as Tg. pose proof (Get_items t c (rp_sessions st)) as Ig.
    destruct (Get t c (rp_sessions st)) as [v sessions]; cbn [fst snd] in *.
    apply (flow_inv_shrink l _ st); [done|done|done|done|].
    intros k e Hk. split; [by intros []|by apply Ig].
  - apply (flow_inv_shrink l _ st); [done..|]. intros k e Hk. by split; [intros []|].
Qed.

Lemma handle_inv l st t e : flow_inv l st → flow_inv (l ++ [(t, e)]) (handle cfg t e st).2.
Proof. destruct e; [apply Login_inv|apply Callback_inv|apply Logout_inv|apply Session_inv]. Qed.

Lemma serve_trace_inv l l0 st : flow_inv l0 st → flow_inv (l0 ++ l) (serve_trace cfg l st).2.
Proof.
  revert l0 st. induction l as [|[t e] l IH]; intros l0 st HI; cbn [serve_trace]; [by rewrite app_nil_r|].
  pose proof (handle_inv l0 st t e HI) as H1. destruct (handle cfg t e st) as [rep st1]. cbn [snd] in H1.
  specialize (IH _ _ H1). rewrite <- app_assoc in IH.
  by destruct (serve_trace cfg l st1) as [reps st2].
Qed.
End provenance.

(** A live session is read without changing anything, and some login opened it. *)
Lemma Session_stable cfg t r st x st' : Session_ cfg t r st = (Some x, st') → st' = st.
Proof.
  unfold Session_. destruct (rq_cookie r !! _) as [k|]; [|done]. unfold Get.
  destruct (st_items (rp_sessions st) !! k) as [e|]; [|done]. destruct (expired t e); [done|].
  intros [= _ <-]. by destruct st.
Qed.

Lemma Session_opened {I : IdP} cfg L st t r x st' :
  flow_inv cfg L st → Session_ cfg t r st = (Some x, st') →
  ∃ k e, rq_cookie r !! cfg_CookieName cfg = Some k ∧ opened cfg L k e ∧ e_val e = x ∧ (t <= e_exp e)%Z.
Proof.
  intros (_&_&_&H). unfold Session_. destruct (rq_cookie r !! cfg_CookieName cfg) as [k|]; [|done].
  pose proof (Get_live t k (rp_sessions st)) as HL. destruct (Get t k _) as [v ss]. cbn [fst] in HL.
  intros [= -> _]. destruct (HL x eq_refl) as (e&He&<-&Hx). exists k, e. split_and!; [done|by apply H|done|done].
Qed.

Lemma New_inv {I : IdP} c : flow_inv (New c).1 [] (New c).2.
Proof. by repeat split; intros k e Hk; cbn in Hk; rewrite lookup_empty in Hk. Qed.

Section claims.
Context {I : IdP}.

(** C36: a browser session is a login that the provider vouched for.  After any requests
    at any times, a request that has a session got it from a callback that carried
    the state cookie of an earlier login by the same browser, within ten minutes of
    it, whose code the provider exchanged for that login's PKCE verifier and whose ID
    token it verified, with exactly these claims; the session's lifetime is not over
    and the browser has not logged out of it. *)
Theorem session_provenance c l now r s :
  let cfg := (New c).1 in
  (Session_ cfg now r (serve_trace cfg l (New c).2).2).1 = Some s →
  ∃ k e, rq_cookie r !! cfg_CookieName cfg = Some k ∧ opened cfg l k e ∧ e_val e = s ∧ (now <= e_exp e)%Z.
Proof.
  intros cfg. pose proof (serve_trace_inv cfg l [] _ (New_inv c)) as H.
  destruct (Session_ cfg now r _) as [o st] eqn:Es. intros [= ->]. by eapply Session_opened.
Qed.

(** Callbacks with state [k] that were not turned away, and logins that minted it. *)
Fixpoint redeemed (k : string) (l : list (Z * event)) (reps : list Reply) : nat :=
  match l, reps with
  | (_, ECallback _ r) :: l', rep :: reps' =>
      (if bool_decide (query_get r "state" = k) && negb (rp_status rep =? 400)%Z then 1 else 0) +
      redeemed k l' reps'
  | _ :: l', _ :: reps' => redeemed k l' reps'
  | _, _ => 0
  end.

Fixpoint logins_of (k : string) (l : list (Z * event)) : nat :=
  match l with
  | [] => 0
  | (_, ELogin rnd _) :: l' => (if bool_decide (randID rnd = k) then 1 else 0) + logins_of k l'
  | _ :: l' => logins_of k l'
  end.

Definition pending (k : string) (st : State) : nat :=
  if st_items (rp_logins st) !! k then 1 else 0.

Lemma pending_mono k st st' :
  (∀ e, st_items (rp_logins st') !! k = Some e → st_items (rp_logins st) !! k = Some e) →
  pending k st' ≤ pending k st.
Proof.
  intros H. unfold pending. destruct (st_items (rp_logins st') !! k) as [e|]; [|lia]. by rewrite (H e).
Qed.

Lemma Callback_pending cfg k t srnd r st :
  let '(rep, st') := Callback cfg t srnd r st in
  (if bool_decide (query_get r "state" = k) && negb (rp_status rep =? 400)%Z then 1 else 0) + pending k st' ≤
  pending k st.
Proof.
  unfold Callback. destruct (rq_cookie r !! stateCookie) as [sc|]; [|by rewrite andb_false_r].
  destruct (bool_decide (sc = "") || _); [by rewrite andb_false_r|].
  pose proof (Get_items t (query_get r "state") (rp_logins st)) as Ig.
  pose proof (Get_live t (query_get r "state") (rp_logins st)) as Lg.
  destruct (Get t (query_get r "state") (rp_logins st)) as [v logins]; cbn [fst snd] in Ig, Lg.
  destruct v as [verifier|]; [|rewrite andb_false_r; apply pending_mono; intros e; apply Ig].
  assert (∀ S rep, (if bool_decide (query_get r "state" = k) && negb (rp_status rep =? 400)%Z then 1 else 0) +
    pending k (MkState S (Delete (query_get r "state") logins)) ≤ pending k st) as Hgo.
  { intros S rep. case_bool_decide as Hk; cbn [andb].
    - unfold pending. cbn. rewrite <- Hk, lookup_delete_eq.
      destruct (Lg verifier eq_refl) as (e&He&_). rewrite He. destruct (negb _); lia.
    - apply pending_mono. intros e [_ He]%Delete_items. by apply Ig. }
  destruct (Exchange _ _ _) as [tok|]; [|apply Hgo]. destruct (Verify _ _) as [c|]; apply Hgo.
Qed.

Lemma redeemed_bound cfg k l st :
  redeemed k l (serve_trace cfg l st).1 ≤ logins_of k l + pending k st.
Proof.
  revert st. induction l as [|[t e] l IH]; intros st; cbn [serve_trace]; [cbn; lia|].
  destruct (handle cfg t e st) as [rep st1] eqn:Eh. specialize (IH st1).
  destruct (serve_trace cfg l st1) as [reps st2] eqn:Es. cbn [fst] in IH |- *.
  destruct e as [rnd vrnd|srnd r|r|r]; cbn [redeemed logins_of handle] in *.
  - injection Eh as <- <-. assert (pending k (Login cfg t rnd vrnd st).2 ≤
      (if bool_decide (randID rnd = k) then 1 else 0) + pending k st) as Hp; [|cbn [Login snd] in Hp; lia].
    case_bool_decide as Hk.
    + unfold pending. destruct (_ !! k); destruct (_ !! k); lia.
    + apply pending_mono. intros e [[-> _]|He]%Put_items; done.
  - pose proof (Callback_pending cfg k t srnd r st) as Hc. rewrite Eh in Hc. lia.
  - assert (rp_logins st1 = rp_logins st) as Hs.
    { unfold Logout in Eh. destruct (rq_cookie r !! _); [|by injection Eh as _ <-].
      destruct (Get _ _ _) as [v ss]. by injection Eh as _ <-. }
    unfold pending in *. rewrite Hs in IH. lia.
  - assert (rp_logins st1 = rp_logins st) as Hs.
    { unfold Session_ in Eh. destruct (rq_cookie r !! _); [|by injection Eh as _ <-].
      destruct (Get _ _ _) as [v ss]. by injection Eh as _ <-. }
    unfold pending in *. rewrite Hs in IH. lia.
Qed.

(** a login state is redeemed at most once.  Over any requests at any times, at
    most as many callbacks with a state get past the state check as logins minted
    that state: a replayed callback is turned away with 400. *)
Theorem login_state_single_use c l k :
  redeemed k l (serve_trace (New c).1 l (New c).2).1 ≤ logins_of k l.
Proof.
  pose proof (redeemed_bound (New c).1 k l (New c).2) as H. unfold pending in H. cbn in H.
  rewrite lookup_empty in H. cbn in *. lia.
Qed.
End claims.

(** ** Witness: one login, its callback, a replay *)
Module LoginDemo.
Definition idp : IdP := {|
  Exchange _ code verifier :=
    if bool_decide (code = "good") then Ok (MkToken (Some ("id-" +:+ verifier)) "at" 0) else Err ErrExternal;
  Verify _ raw := Ok (MkClaims raw "n" "e");
  GenerateVerifier := hex_encode;
  AuthCodeURL st v := "https://idp/auth?state=" +:+ st;
|}.
#[local] Existing Instance idp.

Definition cfg0 : Config := MkConfig "https://idp" "" "" "" true 0.
Definition back (code : string) : Request :=
  MkRequest "" (<["state" := "6162"]> {["code" := code]}) ∅ {["oidc_state" := "6162"]} [] None.
Definition trace : list (Z * event) :=
  [(0%Z, ELogin [x61; x62] [x01]); (5%Z, ECallback [x63] (back "good")); (6%Z, ECallback [x64] (back "good"))].
Definition user : Request := MkRequest "" ∅ ∅ {["session" := "63"]} [] None.

Example replies : rp_status <$> (serve_trace (New cfg0).1 trace (New cfg0).2).1 = [302; 302; 400]%Z.
Proof. vm_compute. reflexivity. Qed.

Lemma session_provenance_witness :
  ∃ k e, rq_cookie user !! "session" = Some k ∧ opened (New cfg0).1 trace k e ∧
    e_val e = MkBrowserSession (MkClaims "id-01" "n" "e") "id-01" "at" 0 ∧ (7 <= e_exp e)%Z.
Proof. apply (session_provenance cfg0 trace 7 user). vm_compute. reflexivity. Defined.
End LoginDemo.
