(* ===== verification/Web.v ===== *)
(** * Web: the browser front of Kamara (kamara/cmd/kamara/web.go, and the middleware
    main.go mounts it behind)

    The handlers of the browser UI over the file domain: the session of the relying
    party names the caller, the cross-site guard and the content-security policy
    stand in front, the handlers answer with pages.  A page is here the data its
    template is given; KamaraPages.v has the text.  Log lines are not modelled. *)

From S2P Require Import Prelude GoText BytesTrim Ids World Pii Pseudonym Conventions Authz Chunker ChunkCrypto Blob Engine Repo FileService FolderService Wopi KamaraSafety Kamara Zip Url Http Headers Api WopiHost SessionStore Forms Discovery Oidcrp.
Import Pii Chunker.

(** ** Pages (kamara/internal/web/web.go) *)
Record DetailView := MkDetailView { dv_Object : Object; dv_Versions : list Version; dv_Latest : Z; dv_Office : bool }.
Record View := MkView {
  vw_Crumbs : list Folder;
  vw_Folders : list Folder;
  vw_Files : list Object;
  vw_AllFolders : list Folder;
  vw_Inline : bool;
  vw_Drawer : option DetailView;
}.
Record EditorView := MkEditorView { ed_Name : string; ed_ActionURL : string; ed_AccessToken : string; ed_AccessTokenTTL : Z }.
Record TextEditorView := MkTextEditorView {
  te_Object : Object;
  te_Content : bytes;
  te_Base : Z;
  te_Saved : bool;
  te_Conflict : bool;
  te_Inline : bool;
}.

Inductive content :=
  | PEmpty
  | PText (msg : string)
  | PPage (v : View)
  | PListing (v : View)
  | PDetails (v : DetailView)
  | PEditor (v : EditorView)
  | PTextEditor (v : TextEditorView)
  | PBytes (b : bytes)
  | PZip (l : list (string * bytes)).

Record WebResponse := MkWeb { wr_status : Z; wr_header : list (string * string); wr_content : content }.

(** http.Error and http.Redirect *)
Definition http_error (st : Z) (msg : string) : WebResponse :=
  MkWeb st [("Content-Type", "text/plain; charset=utf-8"); ("X-Content-Type-Options", "nosniff")] (PText msg).
Definition redirect (st : Z) (url : string) : WebResponse := MkWeb st [("Location", url)] PEmpty.
Definition html (c : content) : WebResponse := MkWeb 200 [("Content-Type", "text/html; charset=utf-8")] c.
Definition unauthorized : WebResponse := http_error 401 "unauthorized".
Definition to_login : WebResponse := redirect 302 "/auth/login".

(** The folder shown ([""] is the root), and the folder the editor returns to. *)
Definition Here (v : View) : string := match last (vw_Crumbs v) with Some f => f_ID f | None => "" end.
Definition BackURL (v : TextEditorView) : string :=
  match o_FolderID (te_Object v) with Some f => "/?folder=" +:+ f | None => "/" end.

(** The part of the name after the last dot, if there is any. *)
Fixpoint last_ext (s : string) (found : option string) : option string :=
  match s with
  | EmptyString => found
  | String c s' => last_ext s' (if decide (c = "."%char) then Some s' else found)
  end.
Definition fileExt (name : string) : string := default "" (last_ext name None).

(** contentSecurityPolicy *)
Definition contentSecurityPolicy (officeURL : string) : string :=
  let '(frameSrc, formAction) :=
    if bool_decide (officeURL = "") then ("'none'", "'self'") else (officeURL, "'self' " +:+ officeURL) in
  join "; " ["default-src 'self'"; "script-src 'self' 'unsafe-eval'"; "style-src 'self' 'unsafe-inline'";
             "img-src 'self' data:"; "font-src 'self'"; "connect-src 'self'"; "object-src 'none'";
             "base-uri 'self'"; "frame-src " +:+ frameSrc; "form-action " +:+ formAction; "frame-ancestors 'none'"].

(** The app, with what main.go wires into it; [wa_office] is empty when the tenant has no
    office engine. *)
Record webApp := MkWebApp {
  wa_svc : Service;
  wa_rp : Oidcrp.Config;
  wa_instance : string;
  wa_sessions : Z;
  wa_office : string;
  wa_wopiSrcBase : string;
  wa_publicURL : string;
}.

(** What the process remembers between requests. *)
Record WebMemory := MkWebMemory { wm_rp : Oidcrp.State; wm_discovery : Discovery }.

Module Web.
Section web.
Context {Pr : Primitives} {P : Platform} {F : OpenFGA} {Mi : Mime} {FF : FormFormats} {E : OfficeEngine}.
Context (a : webApp).
Abbreviation s := (wa_svc a).

Definition officeEnabled : bool := negb (bool_decide (wa_office a = "")).

Definition fail (e : error) : WebResponse :=
  if errors_is e ErrMaxBytes then http_error 413 "file exceeds maximum upload size"
  else if errors_is e ErrNotFound then http_error 404 "not found"
  else if errors_is e ErrForbidden then http_error 403 "forbidden"
  else if errors_is e ErrNotEmpty then http_error 409 "folder not empty"
  else if errors_is e ErrCycle then http_error 400 "move would create a cycle"
  else if errors_is e ErrModified then http_error 409 "file was modified since the base version"
  else http_error 500 "internal error".

(** A handler, given the caller. *)
Definition webHandler : Type := Request → Subject → M KW WebResponse.

(** ** Listings *)
Definition view (caller : Subject) (folder : string) : M KW View :=
  crumbs ← (if bool_decide (folder = "") then mret [] else Ancestors caller folder);
  l ← ListChildren caller (optStr folder);
  all ← AllFolders caller;
  mret (MkView crumbs (l_Folders l) (l_Files l) all false None).

Definition page : webHandler := λ r caller,
  or_fail fail (view caller (query_get r "folder")) (λ v, mret (html (PPage v))).
Definition frag : webHandler := λ r caller,
  or_fail fail (view caller (query_get r "folder")) (λ v, mret (html (PListing v))).
Definition renderAt : webHandler := λ r caller,
  or_fail fail (view caller (query_get r "at")) (λ v, mret (html (PListing v))).

(** A mutation, then the listing. *)
Definition then_render {A} (m : M KW A) : webHandler := λ r caller, or_fail fail m (λ _, renderAt r caller).

(** ** Mutations *)
Definition createFolder : webHandler := λ r caller,
  then_render (CreateFolder caller (optStr (query_get r "at")) (FormValue r "name")) r caller.

(** The first part that is a file. *)
Fixpoint upload_parts (parts : list Part) (err : option error) (r : Request) (caller : Subject) : M KW WebResponse :=
  match parts with
  | [] => mret (match err with Some e => fail e | None => http_error 400 "no file provided" end)
  | p :: parts' =>
      if negb (bool_decide (pt_FormName p = "file")) || bool_decide (pt_FileName p = "")
      then upload_parts parts' err r caller
      else then_render (Upload s caller (optStr (query_get r "at")) (pt_FileName p) (pt_body p)) r caller
  end.

Definition upload : webHandler := λ r caller,
  match multipart_parts (header_get r "Content-Type") (MaxBytesReader DefaultMaxUploadBytes (rq_body r)) with
  | None => mret (http_error 400 "expected a multipart upload")
  | Some (parts, err) => upload_parts parts err r caller
  end.

Definition renameFile : webHandler := λ r caller,
  then_render (RenameFile caller (rq_id r) (FormValue r "name")) r caller.
Definition moveFile : webHandler := λ r caller,
  then_render (MoveFile caller (rq_id r) (optStr (FormValue r "dest"))) r caller.
Definition deleteFile : webHandler := λ r caller,
  then_render (Delete_ s caller (rq_id r)) r caller.
Definition renameFolder : webHandler := λ r caller,
  then_render (RenameFolder caller (rq_id r) (FormValue r "name")) r caller.
Definition moveFolder : webHandler := λ r caller,
  then_render (MoveFolder caller (rq_id r) (optStr (FormValue r "dest"))) r caller.
Definition deleteFolder : webHandler := λ r caller,
  then_render (DeleteFolderTree s caller (rq_id r)) r caller.

(** ** Content *)

(** The status is on the wire before the content: an error cuts the body short. *)
Definition stream (caller : Subject) (i : string) (headers : list (string * string)) : M KW WebResponse := λ w,
  let '(_, (w', out)) := Download s caller i (w, []) in (Ok (MkWeb 200 headers (PBytes out)), w').

Definition download : webHandler := λ r caller,
  or_fail fail (Get_ caller (rq_id r)) (λ o,
    stream caller (rq_id r) [("Content-Type", ContentType (o_ContentType o));
                             ("Content-Disposition", ContentDisposition "attachment" (o_Name o))]).

Definition preview : webHandler := λ r caller,
  or_fail fail (Get_ caller (rq_id r)) (λ o,
    if negb (Previewable o) then mret (http_error 415 "not previewable")
    else stream caller (rq_id r) [("Content-Type", o_ContentType o); ("X-Content-Type-Options", "nosniff");
                                  ("Content-Disposition", ContentDisposition "inline" (o_Name o))]).

Definition stream_zip (caller : Subject) (folder : option string) (name : string) : M KW WebResponse := λ w,
  let '(_, (w', ar)) := DownloadZip s caller folder (w, []) in
  (Ok (MkWeb 200 [("Content-Type", "application/zip");
                  ("Content-Disposition", ContentDisposition "attachment" (name +:+ ".zip"))]
         (PZip ((λ e, (z_name e, z_content e)) <$> ar))), w').

Definition zip : webHandler := λ r caller,
  let at_ := query_get r "at" in
  if bool_decide (at_ = "") then stream_zip caller None "kamara"
  else or_fail fail (GetFolder caller at_) (λ f, stream_zip caller (Some at_) (f_Name f)).

Definition details : webHandler := λ r caller,
  or_fail fail (Get_ caller (rq_id r)) (λ o,
    or_fail fail (ListFileVersions caller (rq_id r)) (λ versions,
      mret (html (PDetails (MkDetailView o versions
        (match versions with v :: _ => v_Ordinal v | [] => 0%Z end) officeEnabled))))).

(** ** The text editor *)

(** Download into a buffer. *)
Definition buffer (caller : Subject) (i : string) : M KW bytes := λ w,
  match Download s caller i (w, []) with
  | (Ok _, (w', out)) => (Ok out, w')
  | (Err e, (w', _)) => (Err e, w')
  end.

(** The rest of the editor's page once the content is in the buffer. *)
Definition text_page (o : Object) (text : bytes) : webHandler := λ r caller,
  if negb (Valid text) then mret (http_error 415 "not a text file")
  else
    or_fail fail (LatestOrdinal caller (rq_id r)) (λ base,
      mret (html (PTextEditor (MkTextEditorView o text base (bool_decide (query_get r "saved" = "1")) false false)))).

Definition textEditor : webHandler := λ r caller,
  or_fail fail (Get_ caller (rq_id r)) (λ o,
    if negb (TextEditable o) then mret (http_error 415 "not editable as text")
    else or_fail fail (buffer caller (rq_id r)) (λ text, text_page o text r caller)).

(** The save: [vs] are the pairs of the form. *)
Definition text_write (o : Object) (vs : list (string * string)) : webHandler := λ r caller,
  match Atoi (form_value vs r "base") with
  | None => mret (http_error 400 "invalid base version")
  | Some base =>
      let text := crlf_to_lf (str_bytes (form_value vs r "content")) in
      x ← attempt (WriteVersionAt s caller (rq_id r) base (NewReader text));
      match x with
      | Ok _ => mret (redirect 303 ("/text/" +:+ rq_id r +:+ "?saved=1"))
      | Err e =>
          if errors_is e ErrModified then
            or_fail fail (LatestOrdinal caller (rq_id r)) (λ latest,
              mret (MkWeb 409 [("Content-Type", "text/html; charset=utf-8")]
                (PTextEditor (MkTextEditorView o text latest false true false))))
          else mret (fail e)
      end
  end.

Definition text_limit : Z := 4 * MaxTextEditBytes + 1024.

Definition textSave : webHandler := λ r caller,
  or_fail fail (Get_ caller (rq_id r)) (λ o,
    if negb (TextEditable o) then mret (http_error 415 "not editable as text")
    else
      match ParseForm r (MaxBytesReader text_limit (rq_body r)) with
      | (_, Some e) =>
          mret (if errors_is e ErrMaxBytes then http_error 413 "content exceeds maximum size"
                else http_error 400 "invalid form")
      | (vs, None) => text_write o vs r caller
      end).

Definition newTextFile : webHandler := λ r caller,
  let name := strings_TrimSpace (FormValue r "name") in
  if bool_decide (name = "") then mret (http_error 400 "name is required")
  else if negb (TextEditableName name) then mret (http_error 400 "not a text file name")
  else
    or_fail fail (Upload s caller (optStr (query_get r "at")) name (NewReader [])) (λ o,
      mret (redirect 303 ("/text/" +:+ o_ID o))).

(** ** The office editor: it also asks the engine, through the discovery cache *)
Definition edit (r : Request) (caller : Subject) (d : Discovery) : M KW (WebResponse * Discovery) :=
  if negb officeEnabled then mret (http_error 404 "office editing is not enabled", d)
  else
    g ← attempt (Get_ caller (rq_id r));
    match g with
    | Err e => mret (fail e, d)
    | Ok o =>
        t ← attempt (Wopi.Mint (wa_sessions a) caller (rq_id r) true);
        match t with
        | Err _ => mret (http_error 500 "could not open editor", d)
        | Ok token =>
            now_ ← now;
            let '(u, d') := EditURL now_ (fileExt (o_Name o)) (wa_wopiSrcBase a +:+ "/wopi/files/" +:+ rq_id r) d in
            mret (match u with
                  | Err _ => http_error 415 "no editor for this file type"
                  | Ok actionURL =>
                      MkWeb 200 [("Cache-Control", "no-store"); ("Content-Type", "text/html; charset=utf-8")]
                        (PEditor (MkEditorView (o_Name o) actionURL token 0))
                  end, d')
        end
    end.

(** ** Routing *)
Definition memoryHandler : Type := Request → Subject → Discovery → M KW (WebResponse * Discovery).
Definition plain (h : webHandler) : memoryHandler := λ r caller d, resp ← h r caller; mret (resp, d).

(** Method, pattern, the answer without a session, and the handler. *)
Definition Routes : list (string * list segment * WebResponse * memoryHandler) :=
  [("GET", [Lit ""], to_login, plain page);
   ("GET", [Lit "browse"], unauthorized, plain frag);
   ("GET", [Lit "files"; Wild; Lit "download"], to_login, plain download);
   ("GET", [Lit "files"; Wild; Lit "preview"], unauthorized, plain preview);
   ("GET", [Lit "files"; Wild; Lit "details"], unauthorized, plain details);
   ("GET", [Lit "edit"; Wild], to_login, edit);
   ("GET", [Lit "text"; Wild], to_login, plain textEditor);
   ("GET", [Lit "zip"], to_login, plain zip);
   ("POST", [Lit "folders"], unauthorized, plain createFolder);
   ("POST", [Lit "folders"; Wild; Lit "rename"], unauthorized, plain renameFolder);
   ("POST", [Lit "folders"; Wild; Lit "move"], unauthorized, plain moveFolder);
   ("POST", [Lit "folders"; Wild; Lit "delete"], unauthorized, plain deleteFolder);
   ("POST", [Lit "files"], unauthorized, plain upload);
   ("POST", [Lit "files"; Lit "new"], unauthorized, plain newTextFile);
   ("POST", [Lit "files"; Wild; Lit "rename"], unauthorized, plain renameFile);
   ("POST", [Lit "files"; Wild; Lit "move"], unauthorized, plain moveFile);
   ("POST", [Lit "files"; Wild; Lit "delete"], unauthorized, plain deleteFile);
   ("POST", [Lit "text"; Wild], unauthorized, plain textSave)].

(** caller *)
Definition caller_of (sess : BrowserSession) : Subject :=
  MkSubject (wa_instance a) (c_Subject (bs_Claims sess)).

(** A handler resolves the session itself, behind the middleware that did so before. *)
Definition authed (deny : WebResponse) (h : memoryHandler) (m : WebMemory) (r : Request) : M KW (WebResponse * WebMemory) :=
  t ← now;
  let '(sess, st) := Session_ (wa_rp a) t r (wm_rp m) in
  match sess with
  | None => mret (deny, MkWebMemory st (wm_discovery m))
  | Some x =>
      y ← h r (caller_of x) (wm_discovery m);
      mret (y.1, MkWebMemory st y.2)
  end.

Definition no_route (m : WebMemory) (st : Z) : WebResponse * WebMemory := (MkWeb st [] PEmpty, m).

Definition routes (m : WebMemory) (method : string) (path : list string) (r : Request) : M KW (WebResponse * WebMemory) :=
  serve_mux (no_route m) false ((λ '(me, pat, deny, h), (me, pat, authed deny h m)) <$> Routes) method path r.

(** cspMiddleware *)
Definition with_csp (resp : WebResponse) : WebResponse :=
  MkWeb (wr_status resp) (("Content-Security-Policy", contentSecurityPolicy (wa_office a)) :: wr_header resp)
    (wr_content resp).

(** main.go: the session middleware, the cross-site guard, the policy, the routes. *)
Definition serve_web (method : string) (path : list string) (r : Request) (m : WebMemory)
    : M KW (WebResponse * WebMemory) :=
  t ← now;
  let '(sess, st) := Session_ (wa_rp a) t r (wm_rp m) in
  let m' := MkWebMemory st (wm_discovery m) in
  match sess with
  | None => mret (to_login, m')
  | Some _ =>
      match SameOriginGuard (wa_publicURL a) method r with
      | Some code => mret (http_error code "cross-origin request rejected", m')
      | None =>
          x ← routes m' method path r;
          mret (with_csp x.1, x.2)
      end
  end.
End web.
End Web.
