(* ===== verification/WebSafety.v ===== *)
(** * WebSafety: what a browser request can do

    Every request to the browser front is a run of the file domain on behalf of the
    session's user; a request another site can forge changes nothing (GET) or is
    turned away (POST); and the text editor's save never overwrites a version its
    base does not name. *)

From S2P Require Import Prelude GoText Ids World Pii Pseudonym Conventions Authz Chunker ChunkCrypto Blob Engine Repo FileService FolderService Wopi KamaraSafety Kamara Zip Url Http Headers Api WopiHost SessionStore Forms Discovery Oidcrp Web.
Import Pii Chunker Web.

Section effects.
Context {Pr : Primitives} {P : Platform} {F : OpenFGA} {Mi : Mime} {FF : FormFormats} {E : OfficeEngine}.
Context (a : webApp).
Abbreviation s := (wa_svc a).

(** ** Reads *)
#[local] Hint Resolve same_data_stores keeps_same_authorize : go.

Lemma keeps_same_ancestors w0 fuel seen cur : keeps (same_data w0) (ancestors_loop fuel seen cur).
Proof.
  revert seen cur. induction fuel as [|fuel IH]; intros seen cur; cbn [ancestors_loop]; unfold GetFolderRow;
    keeps_tac; apply IH.
Qed.

Lemma keeps_same_view w0 caller folder : keeps (same_data w0) (view caller folder).
Proof.
  pose proof (keeps_same_ancestors w0).
  unfold view, Ancestors, ListChildren, AllFolders, authorize_dest, authorizeFolder, FoldersInParent,
    ObjectsInFolder, FoldersByOwner, tree_fuel. keeps_tac; auto.
Qed.

Lemma keeps_same_details w0 caller i :
  keeps (same_data w0) (ListFileVersions caller i) ∧ keeps (same_data w0) (LatestOrdinal caller i) ∧
  keeps (same_data w0) (GetFolder caller i).
Proof.
  unfold ListFileVersions, LatestOrdinal, GetFolder, authorize, authorizeFolder, ListVersions, MaxOrdinal, GetFolderRow.
  split_and!; keeps_tac.
Qed.

Lemma keeps_stream w0 caller i hs : keeps (same_data w0) (stream a caller i hs).
Proof.
  intros w Hw. unfold stream. pose proof (keeps_Download_same (MkHandler s 0) w0 caller i (w, []) Hw) as H. cbn in H.
  by destruct (Download s caller i (w, [])) as [x [w' out]].
Qed.

Lemma keeps_buffer w0 caller i : keeps (same_data w0) (buffer a caller i).
Proof.
  intros w Hw. unfold buffer. pose proof (keeps_Download_same (MkHandler s 0) w0 caller i (w, []) Hw) as H. cbn in H.
  by destruct (Download s caller i (w, [])) as [[[]|e] [w' out]].
Qed.

Lemma keeps_stream_zip w0 caller folder name : keeps (same_data w0) (stream_zip a caller folder name).
Proof.
  intros w Hw. unfold stream_zip. pose proof (DownloadZip_data s w0 caller folder (w, []) Hw) as H.
  by destruct (DownloadZip s caller folder (w, [])) as [x [w' out]].
Qed.

Lemma keeps_renderAt w0 r caller : keeps (same_data w0) (renderAt r caller).
Proof. apply keeps_or_fail; [apply keeps_same_view|intros; apply keeps_ret]. Qed.

Lemma keeps_plain w0 h r c d : keeps (same_data w0) (h r c) → keeps (same_data w0) (plain h r c d).
Proof. intros H. apply keeps_bind; [done|intros; apply keeps_ret]. Qed.

Lemma keeps_text_page w0 o text r c : keeps (same_data w0) (text_page o text r c).
Proof.
  unfold text_page. destruct (negb _); [apply keeps_ret|].
  apply keeps_or_fail; [apply keeps_same_details|intros; apply keeps_ret].
Qed.

Lemma keeps_textEditor w0 r c : keeps (same_data w0) (textEditor a r c).
Proof.
  apply keeps_or_fail; [apply keeps_Get_same|intros o]. destruct (negb _); [apply keeps_ret|].
  apply keeps_or_fail; [apply keeps_buffer|intros text; apply keeps_text_page].
Qed.

(** ** What a route does *)

(** An editing session minted for a file the caller had access to. *)
Definition opens_session (c : Subject) (w w' : KW) : Prop :=
  ∃ i o w1, Get_ c i w = (Ok o, w1) ∧ same_data w w1 ∧ w' = (Wopi.Mint (wa_sessions a) c i true w1).2.

Lemma edit_effect r c d w :
  same_data w (edit a r c d w).2 ∨ opens_session c w (edit a r c d w).2.
Proof.
  unfold edit. destruct (negb _); [by left|]. rewrite run_bind. unfold attempt at 1 3.
  pose proof (keeps_Get_same w c (rq_id r) w (conj eq_refl eq_refl)) as Hg.
  destruct (Get_ c (rq_id r) w) as [[o|e] w1] eqn:Eg; cbn [snd] in Hg; [|by left].
  right. exists (rq_id r), o, w1. split_and!; [done|exact Hg|].
  rewrite run_bind. unfold attempt. destruct (Wopi.Mint _ c (rq_id r) true w1) as [[token|e] w2]; [|done].
  rewrite run_bind. cbn [now gets]. by destruct (EditURL _ _ _ d).
Qed.

Lemma get_route me pat deny h r c d w :
  (me, pat, deny, h) ∈ Routes a → me = "GET" →
  same_data w (h r c d w).2 ∨ opens_session c w (h r c d w).2.
Proof.
  intros Hin ->. pose proof (keeps_same_details w) as Hdet.
  assert (∀ g, keeps (same_data w) (g r c) → same_data w (plain g r c d w).2 ∨ opens_session c w (plain g r c d w).2) as Hk
    by (intros g Hg; left; by apply (keeps_plain w g r c d Hg w)).
  repeat (apply elem_of_cons in Hin as [Heq|Hin]; [injection Heq; clear Heq; intros; subst; try discriminate|]);
    [..|by apply not_elem_of_nil in Hin]; try apply Hk.
  - apply keeps_or_fail; [apply keeps_same_view|intros; apply keeps_ret].
  - apply keeps_or_fail; [apply keeps_same_view|intros; apply keeps_ret].
  - apply keeps_or_fail; [apply keeps_Get_same|intros; apply keeps_stream].
  - apply keeps_or_fail; [apply keeps_Get_same|intros o]. destruct (negb _); [apply keeps_ret|apply keeps_stream].
  - apply keeps_or_fail; [apply keeps_Get_same|intros o]. apply keeps_or_fail; [apply Hdet|intros; apply keeps_ret].
  - apply edit_effect.
  - apply keeps_textEditor.
  - unfold zip. case_bool_decide; [apply keeps_stream_zip|]. apply keeps_or_fail; [apply Hdet|intros; apply keeps_stream_zip].
Qed.

(** ** On whose behalf *)
Lemma built_view c folder : built_from (calls_for s c) (view c folder).
Proof.
  unfold view. apply bf_bind; [destruct (bool_decide _); auto with built|intros crumbs].
  repeat (apply bf_bind; [by auto with built|intros ?]). apply bf_ret.
Qed.

Lemma built_renderAt c r : built_from (calls_for s c) (renderAt r c).
Proof. apply built_or_fail; [apply built_view|intros; apply bf_ret]. Qed.

Lemma built_then_render {A} (m : M KW A) r c :
  built_from (calls_for s c) m → built_from (calls_for s c) (then_render m r c).
Proof. intros H. apply built_or_fail; [done|]. intros _. apply built_renderAt. Qed.

Lemma built_upload_parts parts err r c : built_from (calls_for s c) (upload_parts a parts err r c).
Proof.
  induction parts as [|p parts IH]; [apply bf_ret|]. cbn [upload_parts]. destruct (_ || _); [done|].
  apply built_then_render. auto with built.
Qed.

Lemma built_text_write o vs r c : built_from (calls_for s c) (text_write a o vs r c).
Proof.
  unfold text_write. destruct (Atoi _) as [base|]; [|apply bf_ret]. cbv zeta.
  apply bf_bind; [apply bf_attempt; auto with built|]. intros [x|e]; [apply bf_ret|].
  destruct (errors_is e ErrModified); [|apply bf_ret]. apply built_or_fail; auto with built.
Qed.

Lemma built_edit r c d : built_from (calls_for s c) (edit a r c d).
Proof.
  unfold edit. destruct (negb _); [apply bf_ret|].
  apply bf_bind; [apply bf_attempt; auto with built|]. intros [o|e]; [|apply bf_ret].
  apply bf_bind; [apply bf_attempt; auto with built|]. intros [token|e]; [|apply bf_ret].
  apply bf_bind; [apply bf_now|]. intros t. destruct (EditURL t _ _ d). apply bf_ret.
Qed.

#[local] Hint Resolve built_view built_renderAt built_then_render built_upload_parts built_text_write built_edit : built.

(** Every route asks on behalf of the caller it was given, and of nobody else. *)
Lemma route_built_web me pat deny h r c d : (me, pat, deny, h) ∈ Routes a → built_from (calls_for s c) (h r c d).
Proof.
  intros Hin.
  assert (∀ g, built_from (calls_for s c) (g r c) → built_from (calls_for s c) (plain g r c d)) as Hk
    by (intros g Hg; apply bf_bind; [done|intros; apply bf_ret]).
  repeat (apply elem_of_cons in Hin as [Heq|Hin]; [injection Heq; clear Heq; intros; subst|]);
    [..|by apply not_elem_of_nil in Hin]; try apply built_edit; apply Hk.
  all: cbv beta delta [page frag download preview details textEditor text_page zip upload newTextFile textSave
    createFolder renameFolder moveFolder deleteFolder renameFile moveFile deleteFile stream stream_zip buffer] zeta.
  all: repeat first
    [ solve [auto with built]
    | apply built_or_fail; [|intros ?]
    | apply built_sent | apply built_buffer
    | match goal with |- built_from _ (match ?x with _ => _ end) => destruct x end ].
Qed.

(** ** Every handler writes a response *)
Lemma answers_ret {A} (x : A) : answers (mret (M := M KW) x).
Proof. by intros w. Qed.

Lemma answers_bind {A B} (m : M KW A) (k : A → M KW B) : answers m → (∀ x, answers (k x)) → answers (m ≫= k).
Proof.
  intros Hm Hk w. specialize (Hm w). rewrite run_bind. destruct (m w) as [[x|e] w']; [apply Hk|done].
Qed.

Lemma answers_attempt {A B} (m : M KW A) (k : res A → M KW B) :
  (∀ x, answers (k x)) → answers (attempt m ≫= k).
Proof. intros Hk. apply answers_bind; [|done]. intros w. unfold attempt. by destruct (m w). Qed.

Lemma answers_then_render {A} (m : M KW A) r c : answers (then_render m r c).
Proof. apply answers_or_fail. intros _. apply answers_or_fail. intros; apply answers_ret. Qed.

Lemma answers_upload_parts parts err r c : answers (upload_parts a parts err r c).
Proof.
  induction parts as [|p parts IH]; [apply answers_ret|]. cbn [upload_parts]. destruct (_ || _); [done|].
  apply answers_then_render.
Qed.

Lemma answers_stream c i hs : answers (stream a c i hs).
Proof. intros w. unfold stream. by destruct (Download s c i (w, [])) as [x [w' out]]. Qed.

Lemma answers_stream_zip c f n : answers (stream_zip a c f n).
Proof. intros w. unfold stream_zip. by destruct (DownloadZip s c f (w, [])) as [x [w' out]]. Qed.

Lemma answers_text_write o vs r c : answers (text_write a o vs r c).
Proof.
  unfold text_write. destruct (Atoi _) as [base|]; [|apply answers_ret]. cbv zeta. apply answers_attempt.
  intros [x|e]; [apply answers_ret|]. destruct (errors_is e ErrModified); [|apply answers_ret].
  apply answers_or_fail. intros; apply answers_ret.
Qed.

Lemma answers_textSave r c : answers (textSave a r c).
Proof.
  apply answers_or_fail. intros o. destruct (negb _); [apply answers_ret|].
  destruct (ParseForm _ _) as [vs [e|]]; [apply answers_ret|apply answers_text_write].
Qed.

Lemma answers_edit r c d : answers (edit a r c d).
Proof.
  unfold edit. destruct (negb _); [apply answers_ret|]. apply answers_attempt. intros [o|e]; [|apply answers_ret].
  apply answers_attempt. intros [token|e]; [|apply answers_ret]. intros w. rewrite run_bind. cbn [now gets].
  by destruct (EditURL _ _ _ d).
Qed.

#[local] Hint Resolve answers_ret answers_then_render answers_upload_parts answers_stream answers_stream_zip
  answers_textSave answers_edit : answers.

Lemma route_answers_web me pat deny h r c d : (me, pat, deny, h) ∈ Routes a → answers (h r c d).
Proof.
  intros Hin.
  assert (∀ g, answers (g r c) → answers (plain g r c d)) as Hk
    by (intros g Hg; apply answers_bind; auto with answers).
  repeat (apply elem_of_cons in Hin as [Heq|Hin]; [injection Heq; clear Heq; intros; subst|]);
    [..|by apply not_elem_of_nil in Hin]; try (apply Hk); try (by auto with answers).
  all: cbv beta delta [page frag download preview details textEditor text_page zip upload newTextFile] zeta.
  all: repeat first
    [ solve [auto with answers]
    | apply answers_or_fail; intros ?
    | match goal with |- answers (match ?x with _ => _ end) => destruct x end ].
Qed.

(** ** Sessions *)
(** The user the browser is logged in as. *)
Definition session_subject (m : WebMemory) (r : Request) (w : KW) : option Subject :=
  caller_of a <$> (Session_ (wa_rp a) (w_now w) r (wm_rp m)).1.

Lemma opens_session_run c w w' : opens_session c w w' → run_by s c w w'.
Proof.
  intros (i&o&w1&_&Hs&->). apply (by_env s c _ w1); [done|].
  assert ((Wopi.Mint (wa_sessions a) c i true w1).2 = (run_op s (KMint c i true (wa_sessions a)) w1).2) as ->
    by apply snd_ignored.
  apply (by_op s c (KMint c i true (wa_sessions a))); [done|apply by_refl].
Qed.

(** The answer to a request, for the session its cookie names: it comes from the file
    service as the session's user sees it, or from nowhere. *)
Lemma serve_web_built method path r m t :
  ∃ prog, built_from (match (Session_ (wa_rp a) t r (wm_rp m)).1 with
                      | Some x => calls_for s (caller_of a x) | None => nobody end) prog ∧
    ∀ v, w_now v = t → serve_web a method path r m v = prog v.
Proof.
  destruct (Session_ (wa_rp a) t r (wm_rp m)) as [sess st] eqn:Es. cbn [fst].
  assert (∀ v, w_now v = t → serve_web a method path r m v =
    match sess with
    | None => (Ok (to_login, MkWebMemory st (wm_discovery m)), v)
    | Some _ => match SameOriginGuard (wa_publicURL a) method r with
        | Some code => (Ok (http_error code "cross-origin request rejected", MkWebMemory st (wm_discovery m)), v)
        | None => (x ← routes a (MkWebMemory st (wm_discovery m)) method path r; mret (with_csp a x.1, x.2)) v
        end
    end) as H.
  { intros v <-. unfold serve_web. rewrite run_bind. cbn [now gets]. rewrite Es.
    destruct sess; [|done]. by destruct (SameOriginGuard _ _ _). }
  destruct sess as [x|]; [|eexists; split; [apply bf_ret|exact H]].
  pose proof (Session_stable _ _ _ _ _ _ Es) as ->.
  destruct (SameOriginGuard _ _ _); [eexists; split; [apply bf_ret|exact H]|].
  set (m' := MkWebMemory (wm_rp m) (wm_discovery m)) in *. unfold routes in H.
  destruct (serve_mux_route (no_route m') ((λ '(me, pat, deny, h), (me, pat, authed a deny h m')) <$> Routes a) false method path r)
    as [(st&Er&_)|(me&pat&nx&i&Hin&_&_&Er)]; rewrite Er in H.
  { eexists. split; [|exact H]. apply bf_bind; intros; apply bf_ret. }
  apply list_elem_of_fmap in Hin as ([[[me' pat'] deny] h]&[= -> -> ->]&Hin).
  exists (y ← h (set_id i r) (caller_of a x) (wm_discovery m); mret (with_csp a y.1, MkWebMemory (wm_rp m) y.2)). split.
  { apply bf_bind; [by eapply route_built_web|intros; apply bf_ret]. }
  intros v Hv. rewrite (H v Hv), run_bind. unfold authed. rewrite run_bind. cbn [now gets]. rewrite Hv.
  change (Session_ (wa_rp a) t (set_id i r) (wm_rp m')) with (Session_ (wa_rp a) t r (wm_rp m)).
  rewrite Es, !run_bind. by destruct (h _ _ _ v) as [[y|e] w'].
Qed.

(** What the routes do for a request the middleware let through. *)
Lemma routes_effect m method path r w x :
  (Session_ (wa_rp a) (w_now w) r (wm_rp m)) = (Some x, wm_rp m) →
  ∃ y w', routes a m method path r w = (Ok y, w') ∧
    (w' = w ∨
     (method = "GET" ∨ method = "HEAD") ∧ (same_data w w' ∨ opens_session (caller_of a x) w w') ∨
     method = "POST" ∧ run_by s (caller_of a x) w w').
Proof.
  intros Hs. unfold routes.
  destruct (serve_mux_cases (no_route m) ((λ '(me, pat, deny, h), (me, pat, authed a deny h m)) <$> Routes a)
    false method path r w) as [(st&Eq&_)|(me&pat&nx&i&Hin&_&Hm&Eq)]; rewrite Eq; [eauto|]. clear Eq.
  apply list_elem_of_fmap in Hin as ([[[me' pat'] deny] h]&[= -> -> ->]&Hin).
  unfold authed. rewrite run_bind. cbn [now gets].
  change (Session_ (wa_rp a) (w_now w) (set_id i r) (wm_rp m)) with (Session_ (wa_rp a) (w_now w) r (wm_rp m)).
  rewrite Hs, run_bind.
  pose proof (route_answers_web _ _ _ _ (set_id i r) (caller_of a x) (wm_discovery m) Hin w) as Hok.
  pose proof (λ H, get_route _ _ _ _ (set_id i r) (caller_of a x) (wm_discovery m) w Hin H) as Hg.
  pose proof (built_acts s _ _ (route_built_web _ _ _ _ (set_id i r) (caller_of a x) (wm_discovery m) Hin) w) as Hp.
  destruct (h (set_id i r) (caller_of a x) (wm_discovery m) w) as [[y|e] w']; [|done]. cbn [snd] in Hg, Hp.
  do 2 eexists. split; [reflexivity|]. right.
  assert (me' = "GET" ∨ me' = "POST") as [-> | ->].
  { repeat (apply elem_of_cons in Hin as [Heq|Hin]; [injection Heq; intros; subst; auto|]).
    by apply not_elem_of_nil in Hin. }
  - left. split; [|by apply Hg]. unfold match_method in Hm. rewrite orb_true_iff, andb_true_iff, !bool_decide_eq_true in Hm.
    destruct Hm as [<-|[_ ->]]; auto.
  - right. apply match_POST in Hm. by split.
Qed.

(** a browser request acts for the user who is logged in, and no other site can make
    it act.  Every request gets a response.  It leaves database, blobs and tuples
    alone, or it carries a live session and then: a GET leaves the files alone, and at
    most opens an editing session for one file that the user has access to; a POST passed the
    cross-site guard and is a run of the file domain whose operations are all called
    for the session's user.  In particular a request is a run, so what holds in
    every reachable world holds behind the browser front. *)
Lemma web_request_confined method path r m w :
  ∃ resp m' w', serve_web a method path r m w = (Ok (resp, m'), w') ∧ run s w w' ∧
    ((w_db w' = w_db w ∧ w_rest w' = w_rest w) ∨
     ∃ c, session_subject m r w = Some c ∧
       ((method = "GET" ∨ method = "HEAD") ∧ (same_data w w' ∨ opens_session c w w') ∨
        method = "POST" ∧ SameOriginGuard (wa_publicURL a) method r = None ∧ run_by s c w w')).
Proof.
  unfold serve_web, session_subject. rewrite run_bind. cbn [now gets].
  destruct (Session_ (wa_rp a) (w_now w) r (wm_rp m)) as [[x|] st] eqn:Es.
  2: { do 3 eexists. split; [reflexivity|]. split; [apply run_refl|]. by left. }
  pose proof (Session_stable _ _ _ _ _ _ Es) as ->.
  destruct (SameOriginGuard (wa_publicURL a) method r) as [code|] eqn:Eg.
  { do 3 eexists. split; [reflexivity|]. split; [apply run_refl|]. by left. }
  destruct (routes_effect (MkWebMemory (wm_rp m) (wm_discovery m)) method path r w x Es) as (y&w'&Er&Hr).
  rewrite run_bind, Er. do 3 eexists. split; [reflexivity|].
  destruct Hr as [->|[[Hm Hr]|[Hm Hr]]].
  - split; [apply run_refl|]. by left.
  - split; [|right; exists (caller_of a x); auto]. destruct Hr as [[Hd Hb]|Hr].
    + apply (run_step s None _ w'); [by constructor|apply run_refl].
    + by eapply run_by_run, opens_session_run.
  - split; [by eapply run_by_run|]. right. exists (caller_of a x). auto.
Qed.
End effects.
