(* ===== verification/TextEdit.v ===== *)
(** * TextEdit: saving from the browser's text editor (kamara/cmd/kamara/web.go)

    A save writes the version after the one its form names, with the text of the form,
    or changes nothing; and the order in which the editor page reads content and
    version number matters. *)

From S2P Require Import Prelude GoText Ids World Pii Pseudonym Conventions Authz Chunker ChunkCrypto Blob Engine Repo RepoInv FileService FolderService Wopi KamaraSafety Kamara Zip Url Http Headers Api WopiHost SessionStore Forms Discovery Oidcrp Web WebSafety.
Import Pii Chunker Web.

Section save.
Context {Pr : Primitives} {PrOk : PrimitivesOk} {P : Platform} {F : OpenFGA} {Mi : Mime} {FF : FormFormats} {E : OfficeEngine}.
Context (a : webApp).
Abbreviation s := (wa_svc a).

(** What the form carries. *)
Definition sent (r : Request) (k : string) : string :=
  form_value (ParseForm r (MaxBytesReader text_limit (rq_body r))).1 r k.
Definition sent_text (r : Request) : bytes := crlf_to_lf (str_bytes (sent r "content")).
Definition sent_base (r : Request) : option Z := Atoi (sent r "base").

Lemma fail_status e : (400 <= wr_status (fail e))%Z.
Proof. unfold fail. repeat (destruct (errors_is _ _)); cbn; lia. Qed.

Lemma fail_text e v : wr_content (fail e) ≠ PTextEditor v.
Proof. unfold fail. by repeat (destruct (errors_is _ _)). Qed.

Lemma LatestOrdinal_reads c i w r w' :
  LatestOrdinal c i w = (r, w') → w_db w' = w_db w ∧ ∀ n, r = Ok n → max_ordinal i (w_db w) = Some n.
Proof.
  intros Eq. pose proof (proj1 (proj2 (keeps_same_details w c i)) w (conj eq_refl eq_refl)) as [Hd _].
  rewrite Eq in Hd. split; [done|]. intros n ->. unfold LatestOrdinal in Eq.
  apply bind_ok_inv in Eq as ([]&w1&E1&Eq).
  apply (keeps_same _ _ _ _ (keeps_same_authorize w c (obj i))) in E1 as [E1 _]. rewrite <- E1.
  apply bind_ok_inv in Eq as (m&w2&E2&Eq). apply query_cases in E2 as (_&_&_&_&[[= ->]|[=]]).
  unfold MaxOrdinal in *. by destruct (max_ordinal i (w_db w1)); [injection Eq as -> _|].
Qed.

(** The outcomes of a save of [text] on [base]. *)
Definition save_outcome (oid : string) (base : option Z) (text : bytes) (w w' : KW) (resp : WebResponse) : Prop :=
  (w_db w' = w_db w ∧ (400 <= wr_status resp)%Z ∧
   ∀ v, wr_content resp = PTextEditor v →
     wr_status resp = 409%Z ∧ te_Conflict v = true ∧ te_Content v = text ∧
     max_ordinal oid (w_db w') = Some (te_Base v)) ∨
  (∃ b vid size refs, base = Some b ∧ max_ordinal oid (w_db w) = Some b ∧
     new_version oid vid (b + 1) size refs (w_db w) (w_db w') ∧ stored_as s w' oid text ∧
     (resp = redirect 303 ("/text/" +:+ oid +:+ "?saved=1") ∨ wr_status resp = 500%Z)).

Lemma refused oid base text w w' resp :
  w_db w' = w_db w → (400 <= wr_status resp)%Z → (∀ v, wr_content resp ≠ PTextEditor v) →
  save_outcome oid base text w w' resp.
Proof. intros H1 H2 H3. left. split_and!; [done..|]. intros v Hv. by destruct (H3 v). Qed.

Lemma text_write_outcome o r c w :
  kam_inv s w → no_collision (s_cipher s) (w_blobs w) (sent_text r) →
  ∃ resp w', text_write a o (ParseForm r (MaxBytesReader text_limit (rq_body r))).1 r c w = (Ok resp, w') ∧
    save_outcome (rq_id r) (sent_base r) (sent_text r) w w' resp.
Proof.
  intros HI Hc. unfold text_write. fold (sent r "base") (sent r "content") (sent_base r) (sent_text r).
  destruct (sent_base r) as [b|] eqn:Eb; [|do 2 eexists; split; [reflexivity|]; by apply refused].
  cbv zeta. rewrite run_bind. unfold attempt.
  destruct (WriteVersionAt s c (rq_id r) b (NewReader (sent_text r)) w) as [x w1] eqn:Ew.
  destruct (writeVersion_effect s _ _ _ _ _ _ _ HI (good_NewReader _) ltac:(by rewrite events_NewReader) Ew)
    as [HI1 [[Hd Hx]|(refs&total&ord&(Hm&Hb&vid&Hn)&Hst&Hx)]].
  - destruct x as [ord|e]; [done|]. destruct (errors_is e ErrModified).
    2: { do 2 eexists. split; [reflexivity|]. apply refused; [done|apply fail_status|apply fail_text]. }
    unfold or_fail. rewrite run_bind. unfold attempt.
    destruct (LatestOrdinal c (rq_id r) w1) as [y w2] eqn:El. destruct (LatestOrdinal_reads _ _ _ _ _ El) as [Hd2 Hy].
    destruct y as [n|e']; do 2 eexists; (split; [reflexivity|]).
    + left. split_and!; [congruence|cbn; lia|]. intros v [= <-]. cbn. rewrite Hd2. auto.
    + apply refused; [congruence|apply fail_status|apply fail_text].
  - specialize (Hb b eq_refl). assert (ord = b + 1)%Z as -> by lia. replace (b + 1 - 1)%Z with b in Hm by lia.
    rewrite events_NewReader in Hst.
    destruct Hx as [-> | ->]; do 2 eexists; (split; [reflexivity|]); right; exists b, vid, total, refs; split_and!; auto.
Qed.

Lemma textSave_outcome w r c :
  run s (boot kdb_empty) w → no_collision (s_cipher s) (w_blobs w) (sent_text r) →
  ∃ resp w', textSave a r c w = (Ok resp, w') ∧
    save_outcome (rq_id r) (sent_base r) (sent_text r) w w' resp.
Proof.
  intros Hr Hc. pose proof (run_inv s _ _ Hr (boot_inv s)) as HI.
  unfold textSave, or_fail. rewrite run_bind. unfold attempt.
  destruct (keeps_Get_same w c (rq_id r) w (conj eq_refl eq_refl)) as [Hd Hb].
  destruct (Get_ c (rq_id r) w) as [[o|e] w1]; cbn [snd] in Hd, Hb.
  2: { do 2 eexists. split; [reflexivity|]. apply refused; [done|apply fail_status|apply fail_text]. }
  destruct (negb (TextEditable o)); [do 2 eexists; split; [reflexivity|]; by apply refused|].
  destruct (text_write_outcome o r c w1) as (resp&w'&Eq&Ho).
  { unfold kam_inv. by rewrite Hd, Hb. }
  { by rewrite Hb. }
  destruct (ParseForm r _) as [vs [e|]]; cbn [fst] in *.
  - do 2 eexists. split; [reflexivity|]. apply refused; [done|..]; destruct (errors_is e ErrMaxBytes); done.
  - rewrite Eq. do 2 eexists. split; [reflexivity|]. unfold save_outcome in *. by rewrite <- Hd.
Qed.

(** A save on an older version, when nothing fails: the page with the conflict. *)
Lemma textSave_stale w r c o b n :
  w_faults w = [] → fga_check (w_fga w) (tuple c AccessRelation (obj (rq_id r))) = true →
  objects (w_db w) !! rq_id r = Some o → TextEditable o = true →
  (ParseForm r (MaxBytesReader text_limit (rq_body r))).2 = None → sent_base r = Some b →
  max_ordinal (rq_id r) (w_db w) = Some n → b ≠ n →
  ∃ w', textSave a r c w = (Ok (MkWeb 409 [("Content-Type", "text/html; charset=utf-8")]
    (PTextEditor (MkTextEditorView o (sent_text r) n false true false))), w') ∧ w_db w' = w_db w.
Proof.
  intros Hf Ha Ho Ht Hp Hb Hn Hne.
  assert (authorize c (rq_id r) w = (Ok tt, w)) as Hau by (by apply authorized_nil).
  unfold textSave, or_fail. rewrite run_bind. unfold attempt, Get_, GetObject.
  rewrite (run_bind_ok _ _ _ _ _ Hau), run_bind, run_query_nil, Ho by done. cbn [mret M_ret]. rewrite Ht. cbn [negb].
  unfold sent_base, sent_text, sent in *. destruct (ParseForm r _) as [vs err]. cbn [fst snd] in *. subst err.
  unfold text_write. rewrite Hb. cbv zeta. rewrite run_bind. unfold attempt.
  destruct (WriteVersionAt_stale s c (rq_id r) b n (NewReader (crlf_to_lf (str_bytes (form_value vs r "content")))) w Hf Ha
    (good_NewReader _) Hn Hne) as (w'&->&Hd&Hfg&Hf'). cbn [errors_is]. rewrite bool_decide_eq_true_2 by done. cbn [orb].
  unfold or_fail. rewrite run_bind. unfold attempt, LatestOrdinal, MaxOrdinal.
  assert (authorize c (rq_id r) w' = (Ok tt, w')) as Hau' by (apply authorized_nil; [done|by rewrite Hfg]).
  rewrite (run_bind_ok _ _ _ _ _ Hau'), run_bind, run_query_nil by done. rewrite Hd, Hn. eauto.
Qed.

(** C33: a save from the text editor is never a lost update.  From every reachable world
    and whatever fails, a save gets a response, and it has done one of two things.
    Either the database is as before and the answer is an error; if that error is the
    editor's page, it is a 409 that shows the text the form sent, marked as a conflict,
    with the number of the version that is newest now (the other errors, such as those
    for a form that is too large or a call that failed, carry no text).  Or exactly one
    version has been appended to a file whose newest version was the one the form names,
    that version holds exactly the text sent, with its line breaks normalised, and the
    browser is sent back to the editor (or the answer of the commit was lost, and the
    answer is a 500).  And a save on any other version than the newest, when nothing
    fails, the file is a text and the caller may access it, always gets that 409 page,
    with its own text in it, and changes nothing. *)
Theorem text_save_exact w r c :
  run s (boot kdb_empty) w → no_collision (s_cipher s) (w_blobs w) (sent_text r) →
  ∃ resp w', textSave a r c w = (Ok resp, w') ∧
    ((w_db w' = w_db w ∧ (400 <= wr_status resp)%Z ∧
      ∀ v, wr_content resp = PTextEditor v →
        wr_status resp = 409%Z ∧ te_Conflict v = true ∧ te_Content v = sent_text r ∧
        max_ordinal (rq_id r) (w_db w') = Some (te_Base v)) ∨
     (∃ b vid size refs, sent_base r = Some b ∧ max_ordinal (rq_id r) (w_db w) = Some b ∧
        new_version (rq_id r) vid (b + 1) size refs (w_db w) (w_db w') ∧ stored_as s w' (rq_id r) (sent_text r) ∧
        (resp = redirect 303 ("/text/" +:+ rq_id r +:+ "?saved=1") ∨ wr_status resp = 500%Z))) ∧
    (∀ o b n, w_faults w = [] → fga_check (w_fga w) (tuple c AccessRelation (obj (rq_id r))) = true →
       objects (w_db w) !! rq_id r = Some o → TextEditable o = true →
       (ParseForm r (MaxBytesReader text_limit (rq_body r))).2 = None → sent_base r = Some b →
       max_ordinal (rq_id r) (w_db w) = Some n → b ≠ n →
       w_db w' = w_db w ∧
       resp = MkWeb 409 [("Content-Type", "text/html; charset=utf-8")]
         (PTextEditor (MkTextEditorView o (sent_text r) n false true false))).
Proof.
  intros Hr Hc. destruct (textSave_outcome w r c Hr Hc) as (resp&w'&Es&Ho). exists resp, w'. split_and!; [done|exact Ho|].
  intros o b n Hf Ha Hob Ht Hp Hb Hn Hne. destruct (textSave_stale w r c o b n Hf Ha Hob Ht Hp Hb Hn Hne) as (w2&E2&Hd).
  rewrite E2 in Es. by injection Es as <- <-.
Qed.

(** The page shows the newest version's text and number when nothing is saved while it is
    put together. *)
Theorem textEditor_shows w r c o data n :
  kam_inv s w → w_faults w = [] → fga_check (w_fga w) (tuple c AccessRelation (obj (rq_id r))) = true →
  objects (w_db w) !! rq_id r = Some o → TextEditable o = true →
  stored_as s w (rq_id r) data → Valid data = true → max_ordinal (rq_id r) (w_db w) = Some n →
  textEditor a r c w =
    (Ok (html (PTextEditor (MkTextEditorView o data n (bool_decide (query_get r "saved" = "1")) false false))), w).
Proof.
  intros HI Hf Ha Ho Ht Hst Hv Hn.
  assert (authorize c (rq_id r) w = (Ok tt, w)) as Hau by (by apply authorized_nil).
  unfold textEditor, or_fail. rewrite run_bind. unfold attempt, Get_, GetObject.
  rewrite (run_bind_ok _ _ _ _ _ Hau), run_bind, run_query_nil, Ho by done. cbn [mret M_ret]. rewrite Ht. cbn [negb].
  rewrite run_bind. unfold buffer. rewrite (Download_stored s c (rq_id r) w data) by done.
  unfold text_page, or_fail. rewrite Hv. cbn [negb]. rewrite run_bind. unfold attempt, LatestOrdinal, MaxOrdinal.
  rewrite (run_bind_ok _ _ _ _ _ Hau), run_bind, run_query_nil, Hn by done. done.
Qed.
End save.

(** ** Two browsers and one file *)
Module EditDemo.
#[local] Existing Instance toy_primitives.
#[local] Existing Instance toy_primitives_ok.
#[local] Existing Instance counting_platform.
#[local] Existing Instance owner_fga.
#[local] Existing Instance no_mime.

#[export] Instance forms : FormFormats :=
  {| ParseMediaType := λ ct, (ct, true); multipart_parts := λ _ _, None; multipart_fields := λ _ _, [];
     query_parses := λ _, true |}.
#[export] Instance engine : OfficeEngine :=
  {| engine_get := λ _ _, Err ErrExternal; xml_tokens := λ _, ([], None) |}.

Definition app : webApp :=
  MkWebApp demo_service (Oidcrp.MkConfig "https://idp" "" "" "kamara_session" true 0) "t" 0 "" "" "https://kamara.t".

Definition oid : string := o_ID Demo.file.
Definition form (text : string) : Request :=
  MkRequest oid ∅ {["Content-Type" := "application/x-www-form-urlencoded"]} ∅ (NewReader (str_bytes text)) None.

Definition status (x : res WebResponse * KW) : option Z := match x.1 with Ok r => Some (wr_status r) | Err _ => None end.
Definition shown (x : res WebResponse * KW) : option (bytes * Z * bool) :=
  match x.1 with
  | Ok r => match wr_content r with PTextEditor v => Some (te_Content v, te_Base v, te_Conflict v) | _ => None end
  | Err _ => None
  end.

(** A save on the version loaded, a save on an older one, a form without a version. *)
Example saves :
  status (textSave app (form "base=0&content=c%0D%0Ad") demo_user Demo.uploaded) = Some 303%Z ∧
  (let w1 := (textSave app (form "base=0&content=c%0D%0Ad") demo_user Demo.uploaded).2 in
   shown (textEditor app (form "") demo_user w1) = Some ([x63; x0a; x64], 1%Z, false) ∧
   status (textSave app (form "base=0&content=e") demo_user w1) = Some 409%Z ∧
   shown (textSave app (form "base=0&content=e") demo_user w1) = Some ([x65], 1%Z, true)) ∧
  status (textSave app (form "content=e") demo_user Demo.uploaded) = Some 400%Z.
Proof. vm_compute. repeat split. Qed.

(** A form on version 7 of a file whose newest version is 0. *)
Lemma text_save_exact_witness :
  ∃ resp w', textSave app (form "base=7&content=c") demo_user Demo.uploaded = (Ok resp, w') ∧
    w_db w' = w_db Demo.uploaded ∧
    resp = MkWeb 409 [("Content-Type", "text/html; charset=utf-8")]
      (PTextEditor (MkTextEditorView Demo.file [x63] 0 false true false)).
Proof.
  assert (sent_text (form "base=7&content=c") = [x63]) as Et by (vm_compute; reflexivity).
  destruct (text_save_exact app Demo.uploaded (form "base=7&content=c") demo_user Demo.uploaded_run) as (resp&w'&Es&_&H).
  - rewrite Et. assert (chunks kamara_params [x63] = [[x63]]) as E by (vm_compute; reflexivity).
    split; rewrite E.
    + intros y pt ->%list_elem_of_singleton (b&Hb&_). pose proof Demo.uploaded_other. congruence.
    + intros y z ->%list_elem_of_singleton ->%list_elem_of_singleton _. done.
  - exists resp, w'. split; [exact Es|]. rewrite Et in H.
    apply (H Demo.file 7%Z 0%Z); try (vm_compute; reflexivity). discriminate.
Defined.

(** The editor page reads the content before the version number.  A save by another
    browser between the two makes a page that shows the old text with the new
    number, and a save of that page overwrites the other's text without a
    conflict. *)
Definition loaded : M KW bytes := buffer app demo_user oid.
Definition other_save : M KW Z := WriteVersion demo_service demo_user oid [RData [x63]].

Example text_editor_race :
  let w1 := (loaded Demo.uploaded).2 in
  let w2 := (other_save w1).2 in
  let page := text_page Demo.file [x61; x62] (form "") demo_user w2 in
  let saved := textSave app (form "base=1&content=ab") demo_user page.2 in
  (loaded Demo.uploaded).1 = Ok [x61; x62] ∧
  (other_save w1).1 = Ok 1%Z ∧
  shown page = Some ([x61; x62], 1%Z, false) ∧
  status saved = Some 303%Z ∧
  (loaded saved.2).1 = Ok [x61; x62].
Proof. vm_compute. repeat split. Qed.
End EditDemo.
