(* ===== verification/BlobVerify.v ===== *)
(** * BlobVerify: the restore check (kamara/cmd/blobverify/main.go)

    The tool walks the latest version of every object of a restored database,
    decrypts every chunk from the restored blob directory and compares the
    length with the recorded size.  Here are its query, its two loops and the report
    they print; the command itself, with its flags and its key, is in Restore.v. *)

From S2P Require Import Prelude GoText Ids World Pii Pseudonym Conventions Authz Chunker ChunkCrypto Blob Engine Repo RepoInv FileService KamaraSafety Kamara.
Import Pii Chunker.

Definition by_object_id (x y : Object) : Prop := String.leb (o_ID x) (o_ID y) = true.
#[global] Instance by_object_id_dec : RelDecision by_object_id.
Proof. intros x y. unfold by_object_id. apply _. Defined.

(** [SELECT o.id, o.name, v.id, v.size FROM objects o JOIN versions v ... WHERE
    v.ordinal = (SELECT max(ordinal) ...) ORDER BY o.id] *)
Definition latest_rows (d : KDB) : list (string * string * string * Z) :=
  o ← merge_sort by_object_id (rows (objects d));
  (λ v, (o_ID o, o_Name o, v_ID v, v_Size v)) <$>
    filter (λ v, max_ordinal (o_ID o) d = Some (v_Ordinal v)) (versions_of (o_ID o) d).

(** A line of the report. *)
Inductive line :=
  | LFail (id name : string) (e : error)
  | LOk (id name : string) (size : Z)
  | LTotal (objects failed : nat).

Record tally := MkTally { seen_objects : nat; failed : nat; report : list line }.

Section verify.
Context {Pr : Primitives} {P : Platform} {F : OpenFGA} {Mi : Mime}.
Context (cipher : Cipher).

Definition verify_chunk (total : Z) (hash : string) : M KW Z :=
  sealed ← wrap_err ("chunk " +:+ hash) (Get hash);
  pt ← wrap_err ("chunk " +:+ hash) (lift (Open cipher hash sealed));
  mret (total + blen pt)%Z.

Definition errSize : error := ErrText "reassembled size differs from the manifest's".

Definition verifyVersion (versionID : string) (wantSize : Z) : M KW unit :=
  hashes ← wrap_err "manifest" (query (manifest_hashes versionID));
  total ← for_acc hashes 0%Z verify_chunk;
  if bool_decide (total = wantSize) then mret tt else throw errSize.

(** The printed lines, and the counters: objects seen, objects that failed. *)
Definition verify_object (n : tally) (o : string * string * string * Z) : M KW tally :=
  r ← attempt (verifyVersion o.1.2 o.2);
  mret (match r with
        | Err e => MkTally (S (seen_objects n)) (S (failed n)) (report n ++ [LFail o.1.1.1 o.1.1.2 e])
        | Ok _ => MkTally (S (seen_objects n)) (failed n) (report n ++ [LOk o.1.1.1 o.1.1.2 o.2])
        end).

Definition verify_objects (objs : list (string * string * string * Z)) : M KW tally :=
  for_acc objs (MkTally 0 0 []) verify_object.

(** The exit status and what was printed; a failed query is fatal. *)
Definition verify_main : M KW (Z * list line) :=
  r ← attempt (objs ← query latest_rows; verify_objects objs);
  match r with
  | Ok n => mret (if (0 <? failed n)%nat then 1%Z else 0%Z, report n ++ [LTotal (seen_objects n) (failed n)])
  | Err _ => mret (1%Z, [])
  end.

Lemma run_wrap_err {A} msg (m : M KW A) w :
  wrap_err msg m w = (match (m w).1 with Ok a => Ok a | Err e => Err (ErrWrap msg e) end, (m w).2).
Proof. unfold wrap_err. by destruct (m w) as [[a|e] w']. Qed.

Lemma Get_nil (h : string) (w : KW) :
  w_faults w = [] →
  ∃ r, Get h w = (r, w) ∧ ∀ b, r = Ok b ↔ valid_key h = true ∧ w_blobs w !! h = Some b.
Proof.
  intros Hf. unfold Get, guard_key. rewrite run_bind. destruct (valid_key h) eqn:V; cbn.
  - rewrite run_call_nil by done. destruct (w_blobs w !! h) as [x|]; eexists; (split; [reflexivity|]); naive_solver.
  - eexists. split; [reflexivity|]. naive_solver.
Qed.

(** A chunk passes exactly when it opens. *)
Lemma verify_chunk_nil {PrOk : PrimitivesOk} total h (w : KW) :
  w_faults w = [] →
  ∃ r, verify_chunk total h w = (r, w) ∧
    ∀ n, r = Ok n ↔ ∃ pt, opens cipher (w_blobs w) h pt ∧ n = (total + blen pt)%Z.
Proof.
  intros Hf. unfold verify_chunk. rewrite run_bind, run_wrap_err.
  destruct (Get_nil h w Hf) as (r&E&Hr). rewrite E. cbn [fst snd].
  assert (∀ b, r ≠ Ok b → ∀ pt, ¬ (w_blobs w !! h = Some b ∧ Open cipher h b = Ok pt)) as Hno.
  { intros b Hb pt [H1 H2]. apply Hb, Hr. split; [|done]. apply Open_hash in H2. rewrite <- H2. apply ChunkHash_valid. }
  destruct r as [b|e].
  - destruct (proj1 (Hr b) eq_refl) as [V Hb]. rewrite run_bind, run_wrap_err. cbn.
    destruct (Open cipher h b) as [pt|e] eqn:Eo; eexists; (split; [reflexivity|]); intros n.
    + split; [intros [= <-]; exists pt; split; [by exists b|done]|].
      intros (pt'&(b'&Hb'&Ho')&->). congruence.
    + split; [done|]. intros (pt'&(b'&Hb'&Ho')&_). congruence.
  - eexists. split; [reflexivity|]. intros n. split; [done|]. intros (pt&(b&Hb&Ho)&_).
    exfalso. apply (Hno b ltac:(done) pt). done.
Qed.

Lemma verify_chunks_nil {PrOk : PrimitivesOk} hashes total (w : KW) :
  w_faults w = [] →
  ∃ r, for_acc hashes total verify_chunk w = (r, w) ∧
    ∀ n, r = Ok n ↔ ∃ xs, Forall2 (opens cipher (w_blobs w)) hashes xs ∧ n = (total + blen (concat xs))%Z.
Proof.
  intros Hf. revert total. induction hashes as [|h hashes IH]; intros total; cbn [for_acc].
  { eexists. split; [reflexivity|]. intros n. split.
    - intros [= <-]. exists []. split; [constructor|]. unfold blen. cbn. lia.
    - intros (xs&->%Forall2_nil_inv_l&->). unfold blen. cbn. by rewrite Z.add_0_r. }
  rewrite run_bind. destruct (verify_chunk_nil total h w Hf) as (r&E&Hr). rewrite E.
  destruct r as [t|e].
  - destruct (proj1 (Hr t) eq_refl) as (pt&Hpt&->). destruct (IH (total + blen pt)%Z) as (r'&E'&Hr').
    rewrite E'. exists r'. split; [done|]. intros n. rewrite Hr'. split.
    + intros (xs&Hxs&->). exists (pt :: xs). split; [by constructor|]. cbn. unfold blen. rewrite length_app. lia.
    + intros (xs&Hxs&->). apply Forall2_cons_inv_l in Hxs as (x&xs'&Hx&Hxs&->).
      exists xs'. split; [done|]. rewrite (opens_fun _ _ _ _ _ Hpt Hx). cbn. unfold blen. rewrite length_app. lia.
  - eexists. split; [reflexivity|]. intros n. split; [done|]. intros (xs&Hxs&_).
    apply Forall2_cons_inv_l in Hxs as (x&xs'&Hx&_&_).
    assert (Err e = Ok (total + blen x)%Z) as [=]. apply Hr. eauto.
Qed.

(** When a version verifies. *)
Definition intact (w : KW) (versionID : string) (size : Z) : Prop :=
  ∃ xs, Forall2 (opens cipher (w_blobs w)) (manifest_hashes versionID (w_db w)) xs ∧ blen (concat xs) = size.

Lemma verifyVersion_nil {PrOk : PrimitivesOk} versionID size (w : KW) :
  w_faults w = [] →
  ∃ r, verifyVersion versionID size w = (r, w) ∧ (is_ok r = true ↔ intact w versionID size).
Proof.
  intros Hf. unfold verifyVersion. rewrite run_bind, run_wrap_err, run_query_nil by done. cbn [fst snd].
  rewrite run_bind. destruct (verify_chunks_nil (manifest_hashes versionID (w_db w)) 0 w Hf) as (r&E&Hr).
  rewrite E. destruct r as [n|e].
  - destruct (proj1 (Hr n) eq_refl) as (xs&Hxs&Hn). exists (if bool_decide (n = size) then Ok tt else Err errSize).
    case_bool_decide as Hs; (split; [done|]); (split; [|]); try done.
    + intros _. exists xs. split; [done|lia].
    + intros (ys&Hys&Hy). exfalso. apply Hs. assert (Ok n = Ok (0 + blen (concat ys))%Z) as [= ->]; [|lia].
      apply Hr. eauto.
  - eexists. split; [reflexivity|]. split; [done|]. intros (ys&Hys&Hy).
    assert (Err e = Ok (0 + blen (concat ys))%Z) as [=]. apply Hr. eauto.
Qed.

(** The line of an object says whether its version verifies. *)
Definition line_of (w : KW) (o : string * string * string * Z) (l : line) : Prop :=
  intact w o.1.2 o.2 ∧ l = LOk o.1.1.1 o.1.1.2 o.2 ∨
  ¬ intact w o.1.2 o.2 ∧ ∃ e, l = LFail o.1.1.1 o.1.1.2 e.

Definition is_fail (l : line) : bool := match l with LFail _ _ _ => true | _ => false end.

Lemma verify_objects_nil {PrOk : PrimitivesOk} objs n (w : KW) :
  w_faults w = [] →
  ∃ ls, Forall2 (line_of w) objs ls ∧
    for_acc objs n verify_object w =
      (Ok (MkTally (seen_objects n + length objs) (failed n + length (filter (λ l, is_fail l = true) ls)) (report n ++ ls)), w).
Proof.
  intros Hf. revert n. induction objs as [|o objs IH]; intros n; cbn [for_acc].
  { exists []. split; [constructor|]. cbn. rewrite !Nat.add_0_r, app_nil_r. by destruct n. }
  destruct (verifyVersion_nil o.1.2 o.2 w Hf) as (r&E&Hr). rewrite run_bind. unfold verify_object at 1.
  rewrite run_bind. unfold attempt. rewrite E. destruct r as [[]|e]; cbn [mret M_ret is_ok] in *.
  - destruct (IH (MkTally (S (seen_objects n)) (failed n) (report n ++ [LOk o.1.1.1 o.1.1.2 o.2]))) as (ls&Hls&E').
    exists (LOk o.1.1.1 o.1.1.2 o.2 :: ls). split; [constructor; [left; split; [by apply Hr|done]|done]|].
    etrans; [exact E'|]. rewrite filter_cons_False by done. cbn [seen_objects failed report length]. rewrite <- app_assoc.
    by rewrite <- Nat.add_succ_comm.
  - destruct (IH (MkTally (S (seen_objects n)) (S (failed n)) (report n ++ [LFail o.1.1.1 o.1.1.2 e]))) as (ls&Hls&E').
    exists (LFail o.1.1.1 o.1.1.2 e :: ls). split; [constructor; [right; split; [by intros ?%Hr|eauto]|done]|].
    etrans; [exact E'|]. rewrite filter_cons_True by done. cbn [seen_objects failed report length]. rewrite <- app_assoc.
    by rewrite <- !Nat.add_succ_comm.
Qed.

(** No line is a failure exactly when every version verifies. *)
Lemma all_lines_ok w objs ls :
  Forall2 (line_of w) objs ls → length (filter (λ l, is_fail l = true) ls) = 0 ↔ ∀ o, o ∈ objs → intact w o.1.2 o.2.
Proof.
  induction 1 as [|o l objs ls Hl _ IH]; [split; [by intros _ o ?%not_elem_of_nil|done]|].
  destruct Hl as [[Hi ->]|[Hi [e ->]]].
  - rewrite filter_cons_False by done. rewrite IH. split; [|intros H x Hx; apply H; by right].
    intros H x [-> | Hx]%elem_of_cons; auto.
  - rewrite filter_cons_True by done. split; [done|]. intros H. destruct Hi. apply H. by left.
Qed.

Lemma elem_of_latest_rows B d row :
  db_inv B d → row ∈ latest_rows d ↔
  ∃ o v, objects d !! o_ID o = Some o ∧ latest_version (o_ID o) d = Some v ∧
    row = (o_ID o, o_Name o, v_ID v, v_Size v).
Proof.
  intros HI. unfold latest_rows. rewrite list_elem_of_bind. split.
  - intros (o&(v&->&[Hm Hv]%list_elem_of_filter)%list_elem_of_fmap&Ho). exists o, v.
    rewrite (merge_sort_Permutation by_object_id), elem_of_rows in Ho. destruct Ho as [i Hi].
    pose proof (inv_okey _ _ HI i o Hi) as <-. split_and!; [done| |done].
    apply (newest_latest B); [done|]. apply max_ordinal_newest in Hm as (u&[Hu1 Hu2]&Hu).
    split; [done|]. intros x Hx. specialize (Hu2 x Hx). lia.
  - intros (o&v&Ho&Hv&->). exists o. split.
    + apply list_elem_of_fmap. exists v. split; [done|]. pose proof (latest_newest _ _ _ Hv) as Hn.
      apply list_elem_of_filter. split; [|apply Hn]. apply max_ordinal_newest. eauto.
    + rewrite (merge_sort_Permutation by_object_id), elem_of_rows. eauto.
Qed.
End verify.

Section claims.
Context {Pr : Primitives} {PrOk : PrimitivesOk} {P : Platform} {F : OpenFGA} {Mi : Mime}.
Context (s : Service).

(** For the database of any reachable world with any blob directory beside it, when
    nothing fails while it reads: the check prints a line for each file that says whether
    its latest version is stored, decrypts and has the recorded size, and a total; it
    exits with 0 when all do and with 1 otherwise; and then every caller with access can
    download every file, and gets as many bytes as recorded. *)
Lemma verify_main_exact w0 w :
  run s (boot kdb_empty) w0 → w_db w = w_db w0 → w_faults w = [] →
  ∃ code ls n, verify_main (s_cipher s) w = (Ok (code, ls ++ [LTotal (length ls) n]), w) ∧
    Forall2 (line_of (s_cipher s) w) (latest_rows (w_db w)) ls ∧
    (code = 0 ∨ code = 1)%Z ∧
    (code = 0%Z ↔ ∀ oid v, latest_version oid (w_db w) = Some v →
       ∃ data, stored_as s w oid data ∧ blen data = v_Size v) ∧
    (code = 0%Z → ∀ oid v caller, latest_version oid (w_db w) = Some v →
       fga_check (w_fga w) (tuple caller AccessRelation (obj oid)) = true →
       ∃ data, Download s caller oid (w, []) = (Ok tt, (w, data)) ∧ blen data = v_Size v).
Proof.
  intros Hr Hd Hf. destruct (run_inv s _ _ Hr (boot_inv s)) as [HI _]. rewrite <- Hd in HI.
  destruct (verify_objects_nil (s_cipher s) (latest_rows (w_db w)) (MkTally 0 0 []) w Hf) as (ls&Hls&E).
  cbn [seen_objects failed report Nat.add app] in E. rewrite (Forall2_length _ _ _ Hls) in E.
  pose proof (all_lines_ok _ _ _ _ Hls) as Hiff. set (f := length (filter _ ls)) in *.
  assert (∀ oid v, latest_version oid (w_db w) = Some v →
    ∃ o, objects (w_db w) !! oid = Some o ∧ o_ID o = oid) as Hobj.
  { intros oid v Hv. apply latest_newest in Hv as [[j Hj]%elem_of_versions_of _].
    destruct (inv_vobject _ _ HI j _ Hj) as [o Ho]. exists o. split; [done|]. by apply (inv_okey _ _ HI oid). }
  assert (f = 0 ↔ ∀ oid v, latest_version oid (w_db w) = Some v →
       ∃ data, stored_as s w oid data ∧ blen data = v_Size v) as Hspec.
  { rewrite Hiff. split.
    - intros H oid v Hv. destruct (Hobj oid v Hv) as (o&Ho&Hid). subst oid.
      destruct (H (o_ID o, o_Name o, v_ID v, v_Size v)) as (xs&Hxs&Hsz);
        [by apply (elem_of_latest_rows _ _ _ HI); eauto|].
      exists (concat xs). split; [|done]. exists v, xs. done.
    - intros H row (o&v&Ho&Hv&->)%(elem_of_latest_rows _ _ _ HI).
      destruct (H _ _ Hv) as (data&(v'&xs&Hv'&Hxs&<-)&Hsz). assert (v' = v) as -> by congruence. by exists xs. }
  exists (if (0 <? f)%nat then 1%Z else 0%Z), ls, f. split_and!.
  - unfold verify_main. rewrite run_bind. unfold attempt. rewrite run_bind, run_query_nil by done.
    unfold verify_objects. rewrite E. done.
  - done.
  - destruct (0 <? f)%nat; auto.
  - rewrite <- Hspec. destruct (Nat.ltb_spec 0 f); lia.
  - intros Hc oid v caller Hv Ha. assert (f = 0) as H0 by (destruct (Nat.ltb_spec 0 f); lia).
    destruct (proj1 Hspec H0 oid v Hv) as (data&Hst&Hsz). exists data. split; [|done].
    by apply (Download_opens s (w_blobs w0)); [|done..]; rewrite ?Hd in *.
Qed.
End claims.

Module VerifyDemo.
#[local] Existing Instance toy_primitives.
#[local] Existing Instance toy_primitives_ok.
#[local] Existing Instance counting_platform.
#[local] Existing Instance owner_fga.
#[local] Existing Instance no_mime.
Import Kamara.Demo.

(** The same database beside an empty blob directory. *)
Definition blobs_lost : KW := set_blobs ∅ uploaded.

Lemma set_blobs_db b (w : KW) : w_db (set_blobs b w) = w_db w.
Proof. reflexivity. Qed.

Lemma blobs_lost_db : w_db blobs_lost = w_db uploaded.
Proof. unfold blobs_lost. apply set_blobs_db. Qed.

Lemma blobs_lost_calm : w_faults blobs_lost = [].
Proof. vm_compute. reflexivity. Qed.

End VerifyDemo.
