(* ===== verification/Base64.v ===== *)
(** * Base64: encoding/base64, StdEncoding and RawURLEncoding

    The first with padding, the second without; decoding skips line breaks, as the
    package does. *)

From S2P Require Import Prelude GoText.

Definition std_digit (n : Z) : byte :=
  byte_of_Z (if n <? 26 then 65 + n else if n <? 52 then 71 + n else if n <? 62 then n - 4
             else if n =? 62 then 43 else 47)%Z.

Definition std_value (b : byte) : option Z :=
  let z := bz b in
  (if (65 <=? z) && (z <=? 90) then Some (z - 65)
   else if (97 <=? z) && (z <=? 122) then Some (z - 71)
   else if (48 <=? z) && (z <=? 57) then Some (z + 4)
   else if z =? 43 then Some 62 else if z =? 47 then Some 63 else None)%Z.

Fixpoint std_encode (l : bytes) : bytes :=
  match l with
  | a :: b :: c :: l' =>
      std_digit (bz a / 4) :: std_digit (bz a mod 4 * 16 + bz b / 16) ::
      std_digit (bz b mod 16 * 4 + bz c / 64) :: std_digit (bz c mod 64) :: std_encode l'
  | [a; b] => [std_digit (bz a / 4); std_digit (bz a mod 4 * 16 + bz b / 16); std_digit (bz b mod 16 * 4); x3d]
  | [a] => [std_digit (bz a / 4); std_digit (bz a mod 4 * 16); x3d; x3d]
  | [] => []
  end%Z.

Definition EncodeToString (l : bytes) : string := bytes_str (std_encode l).

Definition not_newline (b : byte) : Prop := b ≠ x0a ∧ b ≠ x0d.
#[global] Instance not_newline_dec b : Decision (not_newline b).
Proof. unfold not_newline. apply _. Defined.

(** Quanta of four characters; the last may be padded. *)
Fixpoint std_decode (l : bytes) : option bytes :=
  match l with
  | [] => Some []
  | p :: q :: r :: s :: l' =>
      v ← std_value p; w ← std_value q;
      let b1 := byte_of_Z (v * 4 + w / 16)%Z in
      if bool_decide (s = x3d) then
        match l' with
        | [] =>
            if bool_decide (r = x3d) then Some [b1]
            else x ← std_value r; Some [b1; byte_of_Z (w mod 16 * 16 + x / 4)%Z]
        | _ => None
        end
      else
        x ← std_value r; y ← std_value s; rest ← std_decode l';
        Some (b1 :: byte_of_Z (w mod 16 * 16 + x / 4)%Z :: byte_of_Z (x mod 4 * 64 + y)%Z :: rest)
  | _ => None
  end.

Definition DecodeString (s : string) : option bytes := std_decode (filter not_newline (str_bytes s)).

(** base64.RawURLEncoding.DecodeString *)
Definition url_value (b : byte) : option Z :=
  let z := bz b in
  (if (65 <=? z) && (z <=? 90) then Some (z - 65)
   else if (97 <=? z) && (z <=? 122) then Some (z - 71)
   else if (48 <=? z) && (z <=? 57) then Some (z + 4)
   else if z =? 45 then Some 62 else if z =? 95 then Some 63 else None)%Z.

Fixpoint rawurl_decode (l : bytes) : option bytes :=
  match l with
  | [] => Some []
  | [p; q] => v ← url_value p; w ← url_value q; Some [byte_of_Z (v * 4 + w / 16)%Z]
  | [p; q; s] =>
      v ← url_value p; w ← url_value q; x ← url_value s;
      Some [byte_of_Z (v * 4 + w / 16)%Z; byte_of_Z (w mod 16 * 16 + x / 4)%Z]
  | p :: q :: s :: u :: l' =>
      v ← url_value p; w ← url_value q; x ← url_value s; y ← url_value u; rest ← rawurl_decode l';
      Some (byte_of_Z (v * 4 + w / 16)%Z :: byte_of_Z (w mod 16 * 16 + x / 4)%Z ::
            byte_of_Z (x mod 4 * 64 + y)%Z :: rest)
  | [_] => None
  end.
Definition RawURLDecode (s : string) : option bytes :=
  rawurl_decode (filter (λ b, b ≠ x0a ∧ b ≠ x0d) (str_bytes s)).

(** ** The round trip *)
Ltac zdiv := Z.to_euclidean_division_equations; lia.
Lemma std_value_digit n : (0 <= n < 64)%Z → std_value (std_digit n) = Some n.
Proof.
  intros Hn. unfold std_digit, std_value. cbv zeta. rewrite bz_byte_of_Z.
  destruct (Z.ltb_spec n 26); [|destruct (Z.ltb_spec n 52); [|destruct (Z.ltb_spec n 62); [|destruct (Z.eqb_spec n 62)]]];
    rewrite Z.mod_small by lia;
    repeat match goal with |- context [if ?b then _ else _] => destruct b eqn:? end; try lia; f_equal; lia.
Qed.

Lemma std_digit_not_pad n : (0 <= n < 64)%Z → std_digit n ≠ x3d.
Proof. intros Hn E. pose proof (std_value_digit n Hn) as H. by rewrite E in H. Qed.

Lemma std_digit_not_newline n : (0 <= n < 64)%Z → not_newline (std_digit n).
Proof. intros Hn. pose proof (std_value_digit n Hn) as H. split; intros E; by rewrite E in H. Qed.

Lemma byte_of_parts (b : byte) z : z = bz b → byte_of_Z z = b.
Proof. intros ->. apply byte_of_Z_bz. Qed.

(** Induction over groups of three. *)
Lemma bytes_ind3 (Q : bytes → Prop) :
  Q [] → (∀ a, Q [a]) → (∀ a b, Q [a; b]) → (∀ a b c l, Q l → Q (a :: b :: c :: l)) → ∀ l, Q l.
Proof.
  intros H0 H1 H2 H3. cut (∀ n l, length l < n → Q l); [intros H l; apply (H (S (length l))); lia|].
  induction n as [|n IH]; intros l Hl; [lia|]. destruct l as [|a [|b [|c l]]]; auto.
  apply H3, IH. cbn in Hl. lia.
Qed.

Lemma some_bind {A B} (f : A → option B) x : (Some x ≫= f) = f x.
Proof. reflexivity. Qed.

Lemma std_decode_encode l : std_decode (std_encode l) = Some l.
Proof.
  induction l as [|a|a b|a b c l IH] using bytes_ind3; [done|..]; cbn [std_encode std_decode];
    pose proof (bz_range a); try pose proof (bz_range b); try pose proof (bz_range c);
    rewrite !std_value_digit by zdiv; rewrite ?some_bind;
    rewrite ?(bool_decide_eq_false_2 (std_digit _ = x3d)) by (apply std_digit_not_pad; zdiv);
    rewrite ?(bool_decide_eq_true_2 (x3d = x3d)) by done;
    rewrite ?std_value_digit by zdiv; rewrite ?IH, ?some_bind;
    repeat match goal with |- context [byte_of_Z ?z] =>
      first [rewrite (byte_of_parts a z) by zdiv | rewrite (byte_of_parts b z) by zdiv | rewrite (byte_of_parts c z) by zdiv]
    end; done.
Qed.

Lemma std_encode_no_newline l : Forall not_newline (std_encode l).
Proof.
  induction l as [|a|a b|a b c l IH] using bytes_ind3; [constructor|..]; cbn [std_encode];
    pose proof (bz_range a); try pose proof (bz_range b); try pose proof (bz_range c);
    repeat (constructor; [first [apply std_digit_not_newline; zdiv | by split]|]); auto.
Qed.

Lemma filter_all {A} (P : A → Prop) `{!∀ x, Decision (P x)} (l : list A) : Forall P l → filter P l = l.
Proof. induction 1 as [|x l Hx _ IH]; [done|]. rewrite filter_cons_True by done. by rewrite IH. Qed.

Lemma DecodeString_EncodeToString l : DecodeString (EncodeToString l) = Some l.
Proof.
  unfold DecodeString, EncodeToString. rewrite str_bytes_str, filter_all by apply std_encode_no_newline.
  apply std_decode_encode.
Qed.

Lemma length_std_encode l : length (std_encode l) = 4 * ((length l + 2) / 3).
Proof.
  induction l as [|a|a b|a b c l IH] using bytes_ind3; [done..|]. cbn [std_encode length]. rewrite IH.
  replace (S (S (S (length l))) + 2) with (length l + 2 + 1 * 3) by lia. rewrite Nat.div_add by lia. lia.
Qed.

Example std_foobar : EncodeToString (str_bytes "fooba") = "Zm9vYmE=".
Proof. vm_compute. reflexivity. Qed.
(** ** The round trip of RawURLEncoding *)
Lemma url_value_digit n : (0 <= n < 64)%Z → url_value (Ascii.byte_of_ascii (base64url_digit n)) = Some n.
Proof.
  intros Hn. assert (n ∈ seqZ 0 64) as H by (apply elem_of_seqZ; lia). revert n H Hn.
  assert (Forall (λ n, url_value (Ascii.byte_of_ascii (base64url_digit n)) = Some n) (seqZ 0 64)) as H
    by (vm_compute; repeat constructor).
  rewrite Forall_forall in H. auto.
Qed.

Definition bit (b : byte) (i : Z) : Z := if Z.testbit (bz b) i then 1 else 0.

(** A byte in bits, from above and from below. *)
Lemma bits_high (b : byte) :
  (bz b / 4 = 32 * bit b 7 + 16 * bit b 6 + 8 * bit b 5 + 4 * bit b 4 + 2 * bit b 3 + bit b 2 ∧
   bz b / 16 = 8 * bit b 7 + 4 * bit b 6 + 2 * bit b 5 + bit b 4 ∧
   bz b / 64 = 2 * bit b 7 + bit b 6)%Z.
Proof. by destruct b. Qed.

Lemma bits_low (b : byte) :
  (bz b mod 4 = 2 * bit b 1 + bit b 0 ∧
   bz b mod 16 = 8 * bit b 3 + 4 * bit b 2 + 2 * bit b 1 + bit b 0 ∧
   bz b mod 64 = 32 * bit b 5 + 16 * bit b 4 + 8 * bit b 3 + 4 * bit b 2 + 2 * bit b 1 + bit b 0)%Z.
Proof. by destruct b. Qed.

Lemma sextets a b :
  let v i := Z.testbit (bz a) i in let u i := Z.testbit (bz b) i in
  bits_value [v 7; v 6; v 5; v 4; v 3; v 2]%Z = (bz a / 4)%Z ∧
  bits_value [v 1; v 0; u 7; u 6; u 5; u 4]%Z = (bz a mod 4 * 16 + bz b / 16)%Z ∧
  bits_value [v 3; v 2; v 1; v 0; u 7; u 6]%Z = (bz a mod 16 * 4 + bz b / 64)%Z ∧
  bits_value [v 5; v 4; v 3; v 2; v 1; v 0]%Z = (bz a mod 64)%Z ∧
  bits_value [v 1; v 0; false; false; false; false]%Z = (bz a mod 4 * 16)%Z ∧
  bits_value [v 3; v 2; v 1; v 0; false; false]%Z = (bz a mod 16 * 4)%Z.
Proof.
  cbv zeta. destruct (bits_high a) as (A1&A2&A3), (bits_low a) as (A4&A5&A6), (bits_high b) as (B1&B2&B3).
  rewrite A1, A4, A5, A6, B2, B3. unfold bit, bits_value. cbn [foldl]. lia.
Qed.


Lemma groups_fuel k l f : 0 < k → length l ≤ f → groups f k l = groups (length l) k l.
Proof.
  intros Hk. remember (length l) as n eqn:Hn. revert l f Hn.
  induction n as [n IH] using lt_wf_ind. intros l f -> Hf.
  destruct l as [|x l]; [by destruct f|]. destruct f as [|f]; [cbn in Hf; lia|]. cbn [length groups]. f_equal.
  cbn [length] in Hf. assert (length (drop k (x :: l)) ≤ length l) as Hd by (rewrite length_drop; cbn; lia).
  rewrite (IH (length (drop k (x :: l)))) by (cbn; lia || done). symmetry. apply IH; cbn; lia || done.
Qed.

Lemma groups_step k g l : 0 < k → length g = k → groups (length (g ++ l)) k (g ++ l) = g :: groups (length l) k l.
Proof.
  intros Hk Hg. destruct g as [|x g]; [cbn in Hg; lia|]. cbn [app length groups]. f_equal.
  - rewrite <- app_assoc, app_comm_cons. by apply take_app_length'.
  - rewrite app_comm_cons, drop_app_length' by done. apply groups_fuel; [done|]. rewrite length_app. lia.
Qed.

Definition rawurl_digit (n : Z) : byte := Ascii.byte_of_ascii (base64url_digit n).

(** The encoder three bytes at a time, as the decoder reads it. *)
Fixpoint rawurl_encode (l : bytes) : bytes :=
  match l with
  | a :: b :: c :: l' =>
      rawurl_digit (bz a / 4) :: rawurl_digit (bz a mod 4 * 16 + bz b / 16) ::
      rawurl_digit (bz b mod 16 * 4 + bz c / 64) :: rawurl_digit (bz c mod 64) :: rawurl_encode l'
  | [a; b] => [rawurl_digit (bz a / 4); rawurl_digit (bz a mod 4 * 16 + bz b / 16); rawurl_digit (bz b mod 16 * 4)]
  | [a] => [rawurl_digit (bz a / 4); rawurl_digit (bz a mod 4 * 16)]
  | [] => []
  end%Z.

Lemma str_bytes_digit n s : str_bytes (String (base64url_digit n) s) = rawurl_digit n :: str_bytes s.
Proof. reflexivity. Qed.

Lemma base64url_bytes l : str_bytes (base64url_encode l) = rawurl_encode l.
Proof.
  unfold base64url_encode, radix_encode.
  induction l as [|a|a b|a b c l IH] using bytes_ind3; [done|..]; cbn [rawurl_encode].
  - cbn -[bits_value base64url_digit str_bytes Z.testbit]. rewrite !str_bytes_digit.
    destruct (sextets a a) as (->&_&_&_&->&_). done.
  - cbn -[bits_value base64url_digit str_bytes Z.testbit]. rewrite !str_bytes_digit.
    destruct (sextets a b) as (->&->&_). destruct (sextets b b) as (_&_&_&_&_&->). done.
  - cbn [fmap list_fmap concat] in IH |- *. set (rest := concat (byte_bits <$> l)) in *.
    rewrite <- IH. set (t := Z.testbit).
    change (byte_bits a ++ byte_bits b ++ byte_bits c ++ rest) with
      ([t (bz a) 7; t (bz a) 6; t (bz a) 5; t (bz a) 4; t (bz a) 3; t (bz a) 2]%Z ++
       [t (bz a) 1; t (bz a) 0; t (bz b) 7; t (bz b) 6; t (bz b) 5; t (bz b) 4]%Z ++
       [t (bz b) 3; t (bz b) 2; t (bz b) 1; t (bz b) 0; t (bz c) 7; t (bz c) 6]%Z ++
       [t (bz c) 5; t (bz c) 4; t (bz c) 3; t (bz c) 2; t (bz c) 1; t (bz c) 0]%Z ++ rest).
    unfold t. rewrite !groups_step by (done || lia).
    cbn [foldr]. rewrite !str_bytes_digit.
    destruct (sextets a b) as (->&->&_), (sextets b c) as (_&_&->&_), (sextets c c) as (_&_&_&->&_). done.
Qed.

Lemma rawurl_decode_encode l : rawurl_decode (rawurl_encode l) = Some l.
Proof.
  induction l as [|a|a b|a b c l IH] using bytes_ind3; [done|..]; cbn [rawurl_encode rawurl_decode]; unfold rawurl_digit;
    pose proof (bz_range a); try pose proof (bz_range b); try pose proof (bz_range c);
    rewrite !url_value_digit by zdiv; rewrite ?IH; rewrite ?some_bind;
    repeat match goal with |- context [byte_of_Z ?z] =>
      first [rewrite (byte_of_parts a z) by zdiv | rewrite (byte_of_parts b z) by zdiv | rewrite (byte_of_parts c z) by zdiv]
    end; done.
Qed.

Lemma rawurl_digit_plain n : (0 <= n < 64)%Z → rawurl_digit n ∉ [x0a; x0d; x2e].
Proof.
  intros Hn E. pose proof (url_value_digit n Hn) as H. unfold rawurl_digit in E.
  rewrite !elem_of_cons, elem_of_nil in E. destruct_or! E; by rewrite E in H.
Qed.

Lemma rawurl_encode_plain l : Forall (λ b, b ∉ [x0a; x0d; x2e]) (rawurl_encode l).
Proof.
  induction l as [|a|a b|a b c l IH] using bytes_ind3; [constructor|..]; cbn [rawurl_encode];
    pose proof (bz_range a); try pose proof (bz_range b); try pose proof (bz_range c);
    repeat (constructor; [apply rawurl_digit_plain; zdiv|]); auto.
Qed.

Lemma RawURLDecode_encode l : RawURLDecode (base64url_encode l) = Some l.
Proof.
  unfold RawURLDecode. rewrite base64url_bytes, filter_all; [apply rawurl_decode_encode|].
  eapply Forall_impl; [apply rawurl_encode_plain|]. cbn. intros b Hb. rewrite !not_elem_of_cons in Hb. naive_solver.
Qed.

Lemma base64url_no_dot l : contains_byte "."%char (base64url_encode l) = false.
Proof.
  apply not_true_iff_false. rewrite contains_byte_bytes, base64url_bytes. intros H. pose proof (rawurl_encode_plain l) as Hp.
  rewrite Forall_forall in Hp. apply (Hp _ H). rewrite !elem_of_cons. auto.
Qed.
