(* ===== verification/Cluster.v ===== *)
(** * Cluster: what the control plane talks to

    The Kubernetes API server (tenants and the objects the controller manages)
    and a Zitadel deployment, as the database of a [world]: every call can fail,
    and can take effect although its answer is lost.

    An update of a tenant carries the resource version it read, as the API server
    demands; other objects are read and written back within one reconcile, and the API
    server's log of them ([cp_writes]) shows every write it accepted, also one that stores
    what was there before.  Reads see
    the stored state: a client cache that lags makes a create fail with a conflict. *)

From S2P Require Import Prelude GoText Ids World Http.

(** ** Tenants (control-plane/apis/v1alpha1/tenant_types.go) *)
Record TenantSpec := MkTenantSpec {
  ts_Slug : string;
  ts_DisplayName : string;
  ts_Domain : string;
  ts_Apps : list string;
}.

Record Condition := MkCondition { cd_Type : string; cd_Status : bool; cd_Generation : Z }.

Record TenantStatus := MkTenantStatus {
  st_Phase : string;
  st_InstanceID : string;
  st_Issuer : string;
  st_ClientID : string;
  st_Conditions : list Condition;
}.

Record Tenant := MkTenant {
  t_Name : string;
  t_Version : Z;                (* resourceVersion *)
  t_Generation : Z;
  t_Deleting : bool;            (* has a DeletionTimestamp *)
  t_Finalizers : list string;
  t_Spec : TenantSpec;
  t_Status : TenantStatus;
}.

(** ValidSlug: ^[a-z0-9]([a-z0-9-]{0,61}[a-z0-9])?$ *)
Definition lower_alnum (c : Ascii.ascii) : bool :=
  let n := Ascii.N_of_ascii c in (((97 <=? n) && (n <=? 122)) || ((48 <=? n) && (n <=? 57)))%N.
Definition label_char (c : Ascii.ascii) : bool := lower_alnum c || bool_decide (c = "-"%char).
Definition ends_alnum (s : string) : bool :=
  match string_rev s with String c _ => lower_alnum c | EmptyString => false end.
Definition ValidSlug (s : string) : bool :=
  match s with
  | EmptyString => false
  | String c rest =>
      lower_alnum c &&
      (bool_decide (rest = "") ||
       ((String.length rest <=? 62) && string_forallb label_char rest && ends_alnum rest))
  end.

(** ValidDomain: ^([a-z0-9]([a-z0-9-]{0,61}[a-z0-9])?\.)+[a-z]{2,}$ *)
Definition lower_alpha (c : Ascii.ascii) : bool := let n := Ascii.N_of_ascii c in ((97 <=? n) && (n <=? 122))%N.
Fixpoint valid_labels (l : list string) : bool :=
  match l with
  | [] => false
  | [tld] => (2 <=? String.length tld) && string_forallb lower_alpha tld
  | x :: l' => ValidSlug x && valid_labels l'
  end.
Definition ValidDomain (s : string) : bool :=
  let l := split_byte "."%char s in (2 <=? length l) && valid_labels l.

Definition with_status (st : TenantStatus) (t : Tenant) : Tenant :=
  MkTenant (t_Name t) (t_Version t) (t_Generation t) (t_Deleting t) (t_Finalizers t) (t_Spec t) st.
Definition with_finalizers (fs : list string) (t : Tenant) : Tenant :=
  MkTenant (t_Name t) (t_Version t) (t_Generation t) (t_Deleting t) fs (t_Spec t) (t_Status t).
Definition with_spec (sp : TenantSpec) (t : Tenant) : Tenant :=
  MkTenant (t_Name t) (t_Version t) (t_Generation t) (t_Deleting t) (t_Finalizers t) sp (t_Status t).
Definition with_version (v : Z) (t : Tenant) : Tenant :=
  MkTenant (t_Name t) v (t_Generation t) (t_Deleting t) (t_Finalizers t) (t_Spec t) (t_Status t).

(** ** Objects *)
Abbreviation labels := (list (string * string)).

Record EnvVar := MkEnv { e_Name : string; e_Value : string; e_From : option (string * string) }.
#[global] Instance EnvVar_eq_dec : EqDecision EnvVar.
Proof. solve_decision. Defined.

(** A container: its image, its environment, and the rest of its spec. *)
Record Container := MkContainer { c_Name : string; c_Image : string; c_Env : list EnvVar; c_Rest : json }.

Record Deployment := MkDeployment {
  dp_Labels : labels;
  dp_Containers : list Container;
  dp_Rest : json;
  dp_Available : Z;             (* status.availableReplicas *)
}.

(** matchLabels, and the values of an [In] expression on the name label. *)
Record Selector := MkSelector { sel_Labels : labels; sel_NameIn : option (list string) }.
#[global] Instance Selector_eq_dec : EqDecision Selector.
Proof. solve_decision. Defined.
Record Peer := MkPeer { pe_Namespace : option Selector; pe_Pod : option Selector }.
#[global] Instance Peer_eq_dec : EqDecision Peer.
Proof. solve_decision. Defined.
Inductive protocol := TCP | UDP.
#[global] Instance protocol_eq_dec : EqDecision protocol.
Proof. solve_decision. Defined.
Record Rule := MkRule { ru_Peers : list Peer; ru_Ports : list (protocol * Z) }.
Record NetworkPolicy := MkNetworkPolicy {
  np_Pods : Selector;
  np_Ingress : list Rule;
  np_Egress : list Rule;
}.

Inductive kbody :=
  | KDeployment (d : Deployment)
  | KNetworkPolicy (np : NetworkPolicy)
  | KSecret (data : gmap string string)
  | KObject (spec status : json).      (* every other kind *)

(** [ko_Owner]: the tenant whose deletion garbage-collects the object. *)
Record kobj := MkObj { ko_Owner : option string; ko_Labels : labels; ko_Body : kbody }.

(** Kind, namespace (empty for a cluster-scoped object), name. *)
Abbreviation okey := (string * string * string)%type.

Record CP (ZS : Type) := MkCP {
  cp_tenants : gmap string Tenant;
  cp_objects : gmap okey kobj;
  cp_zitadel : ZS;
  cp_writes : list okey;        (* the objects written, latest first *)
}.
Arguments MkCP {ZS}.
Arguments cp_tenants {ZS}.
Arguments cp_objects {ZS}.
Arguments cp_zitadel {ZS}.
Arguments cp_writes {ZS}.

Section api.
Context {ZS : Type}.
Abbreviation W := (world (CP ZS)).

Definition with_tenants (x : gmap string Tenant) (d : CP ZS) : CP ZS := MkCP x (cp_objects d) (cp_zitadel d) (cp_writes d).
Definition with_kobjects (x : gmap okey kobj) (d : CP ZS) : CP ZS := MkCP (cp_tenants d) x (cp_zitadel d) (cp_writes d).
Definition with_zitadel (x : ZS) (d : CP ZS) : CP ZS := MkCP (cp_tenants d) (cp_objects d) x (cp_writes d).

(** A write of the object [k]. *)
Definition written (k : okey) (x : gmap okey kobj) (d : CP ZS) : CP ZS :=
  MkCP (cp_tenants d) x (cp_zitadel d) (k :: cp_writes d).

Definition k_Get (k : okey) : M W kobj :=
  stmt (λ d, match cp_objects d !! k with Some o => Ok (o, d) | None => Err ErrK8sNotFound end).

Definition k_Create (k : okey) (o : kobj) : M W unit :=
  stmt (λ d, match cp_objects d !! k with
             | Some _ => Err ErrK8sExists
             | None => Ok (tt, written k (<[k := o]> (cp_objects d)) d)
             end).

Definition k_Update (k : okey) (o : kobj) : M W unit :=
  stmt (λ d, match cp_objects d !! k with
             | None => Err ErrK8sNotFound
             | Some _ => Ok (tt, written k (<[k := o]> (cp_objects d)) d)
             end).

Definition k_Delete (k : okey) : M W unit :=
  stmt (λ d, match cp_objects d !! k with
             | None => Err ErrK8sNotFound
             | Some _ => Ok (tt, written k (delete k (cp_objects d)) d)
             end).

Definition t_Get (name : string) : M W Tenant :=
  stmt (λ d, match cp_tenants d !! name with Some t => Ok (t, d) | None => Err ErrK8sNotFound end).

(** Update: metadata and spec; the status is a subresource and stays as stored.  A
    deleted tenant whose last finalizer goes is removed.  Returns what is stored. *)
Definition t_Update (t : Tenant) : M W Tenant :=
  stmt (λ d,
    match cp_tenants d !! t_Name t with
    | None => Err ErrK8sNotFound
    | Some cur =>
        if bool_decide (t_Version cur = t_Version t) then
          let new := MkTenant (t_Name cur) (t_Version cur + 1) (t_Generation cur) (t_Deleting cur)
                       (t_Finalizers t) (t_Spec t) (t_Status cur) in
          if t_Deleting cur && bool_decide (t_Finalizers t = [])
          then Ok (new, with_tenants (delete (t_Name t) (cp_tenants d)) d)
          else Ok (new, with_tenants (<[t_Name t := new]> (cp_tenants d)) d)
        else Err ErrK8sConflict
    end).

(** Status().Update: the status only. *)
Definition t_StatusUpdate (t : Tenant) : M W unit :=
  stmt (λ d,
    match cp_tenants d !! t_Name t with
    | None => Err ErrK8sNotFound
    | Some cur =>
        if bool_decide (t_Version cur = t_Version t)
        then Ok (tt, with_tenants (<[t_Name t := with_version (t_Version cur + 1) (with_status (t_Status t) cur)]>
                                     (cp_tenants d)) d)
        else Err ErrK8sConflict
    end).

(** The validation rules of the resource definition. *)
Definition crd_valid (sp : TenantSpec) : bool :=
  ValidSlug (ts_Slug sp) && negb (bool_decide (ts_Slug sp ∈ ["iam"; "cp"])) &&
  (bool_decide (ts_Domain sp = "") || ValidDomain (ts_Domain sp)).
Definition errInvalid : error := ErrText "is invalid".

Definition t_List : M W (list Tenant) := query (λ d, (map_to_list (cp_tenants d)).*2).

Definition t_Create (name : string) (sp : TenantSpec) : M W Tenant :=
  stmt (λ d,
    if negb (crd_valid sp) then Err errInvalid
    else match cp_tenants d !! name with
         | Some _ => Err ErrK8sExists
         | None =>
             let t := MkTenant name 1 1 false [] sp (MkTenantStatus "" "" "" "" []) in
             Ok (t, with_tenants (<[name := t]> (cp_tenants d)) d)
         end).

(** Delete: a tenant with finalizers is only marked. *)
Definition t_Delete (name : string) : M W unit :=
  stmt (λ d,
    match cp_tenants d !! name with
    | None => Err ErrK8sNotFound
    | Some t =>
        if bool_decide (t_Finalizers t = []) then Ok (tt, with_tenants (delete name (cp_tenants d)) d)
        else Ok (tt, with_tenants (<[name := MkTenant name (t_Version t + 1) (t_Generation t) true
                                       (t_Finalizers t) (t_Spec t) (t_Status t)]> (cp_tenants d)) d)
    end).

(** apierrors.IsNotFound *)
Definition IsNotFound (e : error) : bool := errors_is e ErrK8sNotFound.
End api.

Example slugs : ValidSlug <$> ["acme"; "a"; "a-b"; "-a"; "a-"; "A"; ""; "a.b"] = [true; true; true; false; false; false; false; false].
Proof. vm_compute. reflexivity. Qed.
Example domains : ValidDomain <$> ["peristera.lu"; "a.b.io"; "lu"; "x.y"; "x..lu"; ".lu"] = [true; true; false; false; false; false].
Proof. vm_compute. reflexivity. Qed.
