(* ===== verification/Zitadel.v ===== *)
(** * Zitadel: the control plane's identity-provider client
    (control-plane/internal/zitadel/client.go)

    The provider is a parameter: a function of its state that answers HTTP calls.
    The client's functions are written over it as the source writes them, with the
    URLs and bodies they send.  The client's own token is signed in ControllerMain.v. *)

From S2P Require Import Prelude GoText Ids World Http Json Base64 Cluster.

(** The provider: method, URL, organization header, body and time; the answer is a
    status and a body (or none that parses).  [z_get] is a plain GET with no
    credentials or with the token given. *)
Class ZitadelServer (ZS : Type) := {
  z_http : string → string → string → option json → Z → ZS → (Z * option json) * ZS;
  z_get : string → option string → Z → ZS → Z * option json;
}.

(** The configured client: the deployment's URL and whether it provisions OIDC apps
    in development mode. *)
Record ZClient := MkZClient { zc_BaseURL : string; zc_DevMode : bool }.

(** One search result by name, or by another field. *)
Definition name_query (name : string) : json :=
  JObj [("queries", JArr [JObj [("nameQuery", JObj [("name", JStr name)])]])].
Definition user_query (name : string) : json :=
  JObj [("queries", JArr [JObj [("userNameQuery", JObj [("userName", JStr name)])]])].

Definition first_id (j : json) : res string :=
  match dec_list (dec_string "id") "result" j with
  | Ok (i :: _) => Ok i
  | Ok [] => Err ErrIam404
  | Err e => Err e
  end.

Record oidcApp := MkOidcApp {
  oa_ID : string;
  oa_ClientID : string;
  oa_RedirectURIs : list string;
  oa_PostLogoutRedirectURIs : list string;
  oa_DevMode : bool;
}.

Definition dec_oidcApp (j : json) : res oidcApp :=
  match dec_string "id" j, dec_struct Ok "oidcConfig" (JObj []) j with
  | Ok i, Ok cfg =>
      match dec_string "clientId" cfg, dec_strings "redirectUris" cfg,
            dec_strings "postLogoutRedirectUris" cfg, dec_bool "devMode" cfg with
      | Ok c, Ok r, Ok p, Ok b => Ok (MkOidcApp i c r p b)
      | Err e, _, _, _ | _, Err e, _, _ | _, _, Err e, _ | _, _, _, Err e => Err e
      end
  | Err e, _ | _, Err e => Err e
  end.

(** [union base extra]: [base] plus what of [extra] is missing, and whether anything was. *)
Fixpoint union_from (seen : gset string) (base extra : list string) : list string * bool :=
  match extra with
  | [] => (base, false)
  | v :: extra' =>
      if bool_decide (v ∈ seen) then union_from seen base extra'
      else ((union_from ({[v]} ∪ seen) (base ++ [v]) extra').1, true)
  end.
Definition union (base extra : list string) : list string * bool :=
  union_from (list_to_set base) base extra.

(** strings.Contains *)
Fixpoint contains (s sub : string) : bool :=
  has_prefix s sub || match s with EmptyString => false | String _ s' => contains s' sub end.

Fixpoint api_message (e : error) : option string :=
  match e with ErrAPI _ m => Some m | ErrWrap _ e' => api_message e' | _ => None end.

Definition isAlreadyExists (e : error) : bool :=
  match api_message e with Some m => contains (ToLower m) "alreadyexists" | None => false end.

(** The OIDC configuration EnsureWebApp sends. *)
Definition web_config (redirects logouts : list string) (dev : bool) : list (string * json) :=
  [("redirectUris", jstrs redirects); ("postLogoutRedirectUris", jstrs logouts);
   ("responseTypes", jstrs ["OIDC_RESPONSE_TYPE_CODE"]);
   ("grantTypes", jstrs ["OIDC_GRANT_TYPE_AUTHORIZATION_CODE"]);
   ("appType", JStr "OIDC_APP_TYPE_WEB"); ("authMethodType", JStr "OIDC_AUTH_METHOD_TYPE_NONE");
   ("accessTokenType", JStr "OIDC_TOKEN_TYPE_BEARER"); ("devMode", JBool dev);
   ("idTokenUserinfoAssertion", JBool true)].

Section client.
Context {ZS : Type} {Zd : ZitadelServer ZS}.
Context (c : ZClient).
Abbreviation W := (world (CP ZS)).

(** The status and the body of one call. *)
Definition send (method url org : string) (body : option json) : M W (Z * option json) :=
  call (λ w,
    let '(r, z) := z_http method url org body (w_now w) (cp_zitadel (w_db w)) in
    (Ok r, set_db (with_zitadel z (w_db w)) w)).

Definition message_of (body : option json) : string :=
  match body with
  | Some j => match dec_string "message" j with Ok m => m | Err _ => "" end
  | None => ""
  end.

(** do, with the answer's body left to the caller. *)
Definition do (method url org : string) (body : option json) : M W (option json) :=
  r ← send method url org body;
  if (r.1 =? 404)%Z then throw (ErrWrap (method +:+ " " +:+ url) ErrIam404)
  else if (300 <=? r.1)%Z then throw (ErrAPI r.1 (message_of r.2))
  else mret r.2.

(** do with a result: the body must decode. *)
Definition do_into {A} (dec : json → res A) (method url org : string) (body : option json) : M W A :=
  r ← do method url org body;
  match r with Some j => lift (dec j) | None => throw errDecode end.

Definition do_unit (method url org : string) (body : option json) : M W unit :=
  do method url org body ;; mret tt.

Definition CreateInstance (name customDomain orgName : string) : M W string :=
  do_into (dec_string "instanceId") "POST" (zc_BaseURL c +:+ "/system/v1/instances/_create") ""
    (Some (JObj [("instanceName", JStr name); ("firstOrgName", JStr orgName);
                 ("customDomain", JStr customDomain);
                 ("machine", JObj [("userName", JStr "org-admin"); ("name", JStr "Organization Admin")])])).

Definition InstanceIDByDomain (domain : string) : M W string :=
  do_into first_id "POST" (zc_BaseURL c +:+ "/system/v1/instances/_search") ""
    (Some (JObj [("queries", JArr [JObj [("domainQuery", JObj [("domains", jstrs [domain])])]])])).

Definition DeleteInstance (i : string) : M W unit :=
  do_unit "DELETE" (zc_BaseURL c +:+ "/system/v1/instances/" +:+ i) "" None.

Definition AddTrustedDomain (tenantBase instanceID domain : string) : M W unit :=
  r ← attempt (do_unit "POST" (tenantBase +:+ "/v2beta/instances/" +:+ instanceID +:+ "/trusted-domains") ""
                 (Some (JObj [("domain", JStr domain)])));
  match r with
  | Err e => if isAlreadyExists e then mret tt else throw e
  | Ok _ => mret tt
  end.

Definition FirstOrgID (tenantBase : string) : M W string :=
  do_into first_id "POST" (tenantBase +:+ "/admin/v1/orgs/_search") "" (Some (JObj [])).

Definition projectIDByName (tenantBase org name : string) : M W string :=
  do_into first_id "POST" (tenantBase +:+ "/management/v1/projects/_search") org (Some (name_query name)).

Definition oidcAppByName (base org projectID name : string) : M W oidcApp :=
  l ← do_into (dec_list dec_oidcApp "result") "POST"
        (base +:+ "/management/v1/projects/" +:+ projectID +:+ "/apps/_search") org (Some (name_query name));
  match l with
  | [] => throw ErrIam404
  | a :: _ => if bool_decide (oa_ClientID a = "") then throw ErrIam404 else mret a
  end.

(** CreateHumanUser: the login must be free. *)
Definition CreateHumanUser (tenantBase org email firstName lastName password : string) : M W string :=
  found ← do_into (dec_list (dec_string "id") "result") "POST" (tenantBase +:+ "/management/v1/users/_search") org
            (Some (user_query email));
  match found with
  | _ :: _ => throw ErrUserExists
  | [] =>
      do_into (dec_string "userId") "POST" (tenantBase +:+ "/management/v1/users/human/_import") org
        (Some (JObj [("userName", JStr email);
                     ("profile", JObj [("firstName", JStr firstName); ("lastName", JStr lastName)]);
                     ("email", JObj [("email", JStr email); ("isEmailVerified", JBool true)]);
                     ("password", JStr password); ("passwordChangeRequired", JBool true)]))
  end.

Definition AddOrgMember (tenantBase org userID : string) (roles : list string) : M W unit :=
  do_unit "POST" (tenantBase +:+ "/management/v1/orgs/me/members") org
    (Some (JObj [("userId", JStr userID); ("roles", jstrs roles)])).

Definition EnsureMachineUser (base org username : string) : M W string :=
  found ← do_into (dec_list (dec_string "id") "result") "POST" (base +:+ "/management/v1/users/_search") org
            (Some (user_query username));
  match found with
  | i :: _ => mret i
  | [] =>
      do_into (dec_string "userId") "POST" (base +:+ "/management/v1/users/machine") org
        (Some (JObj [("userName", JStr username); ("name", JStr username);
                     ("accessTokenType", JStr "ACCESS_TOKEN_TYPE_BEARER")]))
  end.

Definition CreatePAT (base org userID : string) : M W string :=
  do_into (dec_string "token") "POST" (base +:+ "/management/v1/users/" +:+ userID +:+ "/pats") org
    (Some (JObj [("expirationDate", JStr "2028-01-01T00:00:00Z")])).

Definition ProjectID (base org : string) : M W string :=
  r ← attempt (projectIDByName base org "peristera");
  match r with
  | Err e =>
      if errors_is e ErrIam404
      then do_into (dec_string "id") "POST" (base +:+ "/management/v1/projects") org
             (Some (JObj [("name", JStr "peristera")]))
      else throw e
  | Ok i => mret i
  end.

(** The client id and the app id. *)
Definition EnsureS2SClient (base org name : string) : M W (string * string) :=
  projectID ← ProjectID base org;
  r ← attempt (oidcAppByName base org projectID name);
  match r with
  | Ok app => mret (oa_ClientID app, oa_ID app)
  | Err e =>
      if errors_is e ErrIam404 then
        do_into (λ j, match dec_string "clientId" j, dec_string "appId" j with
                      | Ok x, Ok y => Ok (x, y) | Err e, _ | _, Err e => Err e end)
          "POST" (base +:+ "/management/v1/projects/" +:+ projectID +:+ "/apps/oidc") org
          (Some (JObj [("name", JStr name); ("redirectUris", jstrs ["http://localhost/unused"]);
                       ("responseTypes", jstrs ["OIDC_RESPONSE_TYPE_CODE"]);
                       ("grantTypes", jstrs ["OIDC_GRANT_TYPE_AUTHORIZATION_CODE"; "OIDC_GRANT_TYPE_TOKEN_EXCHANGE"]);
                       ("appType", JStr "OIDC_APP_TYPE_WEB");
                       ("authMethodType", JStr "OIDC_AUTH_METHOD_TYPE_PRIVATE_KEY_JWT");
                       ("accessTokenType", JStr "OIDC_TOKEN_TYPE_JWT")]))
      else throw e
  end.

(** AddAppKey: the JSON key of an app, valid for ten years. *)
Definition AddAppKey (base org appID : string) : M W bytes :=
  projectID ← ProjectID base org;
  t ← now;
  details ← do_into (dec_string "keyDetails") "POST"
    (base +:+ "/management/v1/projects/" +:+ projectID +:+ "/apps/" +:+ appID +:+ "/keys") org
    (Some (JObj [("type", JStr "KEY_TYPE_JSON"); ("expirationDate", JStr (rfc3339_add_years 10 t))]));
  match DecodeString details with Some k => mret k | None => throw (ErrText "illegal base64 data") end.

(** AddMachineKey *)
Definition AddMachineKey (base org userID : string) : M W bytes :=
  details ← do_into (dec_string "keyDetails") "POST"
    (base +:+ "/management/v1/users/" +:+ userID +:+ "/keys") org
    (Some (JObj [("type", JStr "KEY_TYPE_JSON"); ("expirationDate", JStr "2028-01-01T00:00:00Z")]));
  match DecodeString details with Some k => mret k | None => throw (ErrText "illegal base64 data") end.

Definition EnsureWebApp (base org name : string) (redirectURIs postLogoutURIs : list string) : M W string :=
  projectID ← ProjectID base org;
  r ← attempt (oidcAppByName base org projectID name);
  match r with
  | Ok app =>
      let '(redirects, addR) := union (oa_RedirectURIs app) redirectURIs in
      let '(logouts, addL) := union (oa_PostLogoutRedirectURIs app) postLogoutURIs in
      (if addR || addL || negb (Bool.eqb (oa_DevMode app) (zc_DevMode c))
       then do_unit "PUT" (base +:+ "/management/v1/projects/" +:+ projectID +:+ "/apps/" +:+ oa_ID app +:+
                           "/oidc_config") org (Some (JObj (web_config redirects logouts (zc_DevMode c))))
       else mret tt) ;;
      mret (oa_ClientID app)
  | Err e =>
      if errors_is e ErrIam404 then
        do_into (dec_string "clientId") "POST"
          (base +:+ "/management/v1/projects/" +:+ projectID +:+ "/apps/oidc") org
          (Some (JObj (("name", JStr name) :: web_config redirectURIs postLogoutURIs (zc_DevMode c))))
      else throw e
  end.

Definition EnsureStubApp (base org : string) (redirectURIs postLogoutURIs : list string) : M W string :=
  EnsureWebApp base org "stub" redirectURIs postLogoutURIs.

(** A transport failure counts as not alive. *)
Definition DiscoveryAlive (issuer : string) : M W bool :=
  r ← attempt (call (gets (λ w, (z_get (issuer +:+ "/.well-known/openid-configuration") None (w_now w)
                                  (cp_zitadel (w_db w))).1)));
  mret (match r with Ok st => (st =? 200)%Z | Err _ => false end).

Definition UserinfoSubject (issuer token : string) : M W (option string) :=
  r ← attempt (call (gets (λ w, z_get (issuer +:+ "/oidc/v1/userinfo") (Some token) (w_now w)
                                 (cp_zitadel (w_db w)))));
  mret (match r with
        | Ok (st, Some j) =>
            if (st =? 200)%Z then
              match dec_string "sub" j with
              | Ok sub => if bool_decide (sub = "") then None else Some sub
              | Err _ => None
              end
            else None
        | _ => None
        end).

Definition UserinfoOK (issuer token : string) : M W bool :=
  r ← UserinfoSubject issuer token; mret (bool_decide (is_Some r)).
End client.
