(* ===== verification/Naming.v ===== *)
(** * Naming: the hosts and URLs of a tenant
    (control-plane/internal/controller/tenant_controller.go, ingress.go)

    The configuration of the reconciler and the functions that derive a tenant's
    app domain, issuer and ingress issuer from it, with what they use of net/url. *)

From S2P Require Import Prelude GoText Http Cluster.

(** The fields of TenantReconciler (without its clients). *)
Record Reconciler := MkReconciler {
  r_IAM : bool;                 (* is an IAM client configured? *)
  r_BaseDomain : string;
  r_ExternalPort : string;
  r_ImagePrefix : string;
  r_ImageTag : string;
  r_URLScheme : string;
  r_TLSIssuer : string;
  r_HTTP01Issuer : string;
  r_LoginDomain : string;
  r_BackupBucket : string;
  r_BackupEndpoint : string;
  r_BackupS3KeyID : string;
  r_BackupS3Secret : string;
  r_BackupRegion : string;
  r_BackupAgeRecipient : string;
  r_BackupHeartbeat : string;
}.

(** ** net/url: Parse and Hostname *)
Definition is_digit (c : Ascii.ascii) : bool := let n := Ascii.N_of_ascii c in ((48 <=? n) && (n <=? 57))%N.
Definition is_alpha (c : Ascii.ascii) : bool :=
  let n := Ascii.N_of_ascii c in (((65 <=? n) && (n <=? 90)) || ((97 <=? n) && (n <=? 122)))%N.
Definition is_ctl (c : Ascii.ascii) : bool := let n := Ascii.N_of_ascii c in ((n <? 32) || (n =? 127))%N.
Definition one_of (s : string) (c : Ascii.ascii) : bool := contains_byte c s.

(** What stands before the first byte [c]. *)
Definition before (c : Ascii.ascii) (s : string) : string :=
  match cut_byte c s with Some (x, _) => x | None => s end.

(** Cut at the last byte [c]. *)
Definition cut_last (c : Ascii.ascii) (s : string) : option (string * string) :=
  match cut_byte c (string_rev s) with Some (x, y) => Some (string_rev y, string_rev x) | None => None end.

(** getScheme: a scheme and the rest; [None] is an error. *)
Fixpoint scheme_loop (acc s : string) : option (string * string) + unit :=
  match s with
  | EmptyString => inl None
  | String c s' =>
      if is_alpha c then scheme_loop (acc +:+ String c "") s'
      else if is_digit c || one_of "+-." c then
        if bool_decide (acc = "") then inl None else scheme_loop (acc +:+ String c "") s'
      else if bool_decide (c = ":"%char) then
        if bool_decide (acc = "") then inr tt else inl (Some (acc, s'))
      else inl None
  end.

Definition validOptionalPort (p : string) : bool :=
  match p with
  | EmptyString => true
  | String c p' => bool_decide (c = ":"%char) && string_forallb is_digit p'
  end.

(** The bytes a host may hold unescaped; a host with percent escapes is refused (the
    package accepts some). *)
Definition host_byte (c : Ascii.ascii) : bool :=
  is_alpha c || is_digit c || one_of "-_.~!$&'()*+,;=:[]<>" c || bool_decide (Ascii.N_of_ascii c = 34%N) ||
  (128 <=? Ascii.N_of_ascii c)%N.
Definition userinfo_byte (c : Ascii.ascii) : bool :=
  is_alpha c || is_digit c || one_of "-._:~!$&'()*+,;=%@" c.

(** A colon and what follows the last colon of a host. *)
Definition port_of (host : string) : string :=
  match cut_last ":"%char host with Some (_, p) => String ":"%char p | None => "" end.

Definition valid_host (host : string) : bool :=
  if has_prefix host "[" then
    match cut_last "]"%char host with
    | Some (_, p) => validOptionalPort p && string_forallb host_byte host
    | None => false
    end
  else validOptionalPort (port_of host) && string_forallb host_byte host.

Definition parse_authority (a : string) : option string :=
  match cut_last "@"%char a with
  | Some (user, host) => if string_forallb userinfo_byte user && valid_host host then Some host else None
  | None => if valid_host a then Some a else None
  end.

(** The escapes of a path: each percent sign starts two hex digits. *)
Fixpoint valid_escapes (s : string) : bool :=
  match s with
  | EmptyString => true
  | String c s' =>
      if bool_decide (c = "%"%char) then
        match s' with
        | String a (String b s'') => (is_hex_char (lower_ascii a)) && (is_hex_char (lower_ascii b)) && valid_escapes s''
        | _ => false
        end
      else valid_escapes s'
  end.

(** u.Host of url.Parse; [None] is an error. *)
Definition url_host (raw : string) : option string :=
  if negb (string_forallb (λ c, negb (is_ctl c)) raw) then None
  else
    match scheme_loop "" (before "#"%char raw) with
    | inr _ => None
    | inl s =>
        let '(scheme, rest0) := match s with Some p => p | None => ("", before "#"%char raw) end in
        let rest := before "?"%char rest0 in
        if has_prefix rest "//" && (negb (bool_decide (scheme = "")) || negb (has_prefix rest "///")) then
          let auth_path := TrimPrefix rest "//" in
          match cut_byte "/"%char auth_path with
          | Some (auth, path) => if valid_escapes path then parse_authority auth else None
          | None => parse_authority auth_path
          end
        else if valid_escapes rest then Some "" else None
    end.

(** u.Hostname(): no port, no brackets. *)
Definition url_hostname (host : string) : string :=
  let h := match cut_last ":"%char host with
           | Some (x, p) => if string_forallb is_digit p then x else host
           | None => host
           end in
  if has_prefix h "[" && has_suffix h "]" then TrimSuffix (TrimPrefix h "[") "]" else h.

Definition hostOf (raw : string) : string :=
  if bool_decide (raw = "") then ""
  else match url_host raw with Some h => url_hostname h | None => "" end.

Section naming.
Context (r : Reconciler).

Definition issuerHost (t : Tenant) : string := ts_Slug (t_Spec t) +:+ "." +:+ r_BaseDomain r.

Definition tenantDomain (t : Tenant) : string :=
  let h := hostOf (st_Issuer (t_Status t)) in
  if negb (bool_decide (h = "")) && negb (bool_decide (h = issuerHost t)) then h
  else if negb (bool_decide (ts_Domain (t_Spec t) = "")) then ts_Domain (t_Spec t)
  else ts_Slug (t_Spec t) +:+ "." +:+ r_BaseDomain r.

Definition publicURL (host : string) : string :=
  let scheme := if bool_decide (r_URLScheme r = "") then "http" else r_URLScheme r in
  let port := r_ExternalPort r in
  if bool_decide (port = "") || (bool_decide (scheme = "https") && bool_decide (port = "443")) ||
     (bool_decide (scheme = "http") && bool_decide (port = "80"))
  then scheme +:+ "://" +:+ host
  else scheme +:+ "://" +:+ host +:+ ":" +:+ port.

Definition tenantIssuer (t : Tenant) : string :=
  if negb (bool_decide (st_Issuer (t_Status t) = "")) then st_Issuer (t_Status t)
  else publicURL (issuerHost t).

Definition instanceDomain (t : Tenant) : string :=
  let h := hostOf (st_Issuer (t_Status t)) in
  if negb (bool_decide (h = "")) then h else issuerHost t.

Definition orgName (t : Tenant) : string :=
  if negb (bool_decide (ts_DisplayName (t_Spec t) = "")) then ts_DisplayName (t_Spec t) else ts_Slug (t_Spec t).

(** ** ingress.go *)
Definition tlsEnabled : bool := negb (bool_decide (r_TLSIssuer r = "")).

Definition issuerForHost (host : string) : string :=
  if bool_decide (r_HTTP01Issuer r = "") || bool_decide (host = r_BaseDomain r) ||
     has_suffix host ("." +:+ r_BaseDomain r)
  then r_TLSIssuer r else r_HTTP01Issuer r.

Definition ingressAnnotations (host : string) : json :=
  if tlsEnabled then JObj [("cert-manager.io/cluster-issuer", JStr (issuerForHost host))] else JNull.

Definition ingressTLS (host secretName : string) : json :=
  if tlsEnabled
  then JArr [JObj [("hosts", JArr [JStr host]); ("secretName", JStr secretName)]] else JNull.
End naming.

Example hostOf_examples :
  hostOf <$> ["https://acme.peristera.app"; "http://acme.127.0.0.1.sslip.io:9080"; "https://u@h.io/x?y#z"; "http://[::1]:80/";
              "acme.peristera.app"; "https://bad host/"; "http://h:8x"] =
  ["acme.peristera.app"; "acme.127.0.0.1.sslip.io"; "h.io"; "::1"; ""; ""; ""].
Proof. vm_compute. reflexivity. Qed.
