(* ===== verification/Catalog.v ===== *)
(** * Catalog: the apps of a tenant and their network
    (control-plane/internal/controller/apps.go, netpol.go)

    The catalog and the queries on it, the images and environment derived from it,
    and the NetworkPolicies generated from the call graph, with what a policy
    admits. *)

From S2P Require Import Prelude GoText Http Json Cluster Naming.

Record CatalogApp := MkCatalogApp {
  a_Name : string;
  a_Image : string;
  a_Port : Z;
  a_NeedsDatabase : bool;
  a_NeedsOpenFGA : bool;
  a_NeedsBlob : bool;
  a_NeedsDEK : bool;
  a_Calls : list string;
  a_Optional : bool;
  a_External : bool;
}.

Definition catalog : list CatalogApp :=
  [MkCatalogApp "stub" "" 5556 false false false false [] false false;
   MkCatalogApp "ergonomos" "" 5570 true true false false ["kamara"] false false;
   MkCatalogApp "kamara" "" 5580 true true true true [] false false;
   MkCatalogApp "office" "collabora/code:latest" 9980 false false false false ["kamara"] true true].

(** The default prefix and tag of an image. *)
Definition or_default (s d : string) : string := if bool_decide (s = "") then d else s.

Definition imageFor (r : Reconciler) (app : CatalogApp) : string :=
  if negb (bool_decide (a_Image app = "")) then a_Image app
  else or_default (r_ImagePrefix r) "peristera-" +:+ a_Name app +:+ ":" +:+ or_default (r_ImageTag r) "dev".

(** backup.go *)
Definition backupImage (r : Reconciler) : string :=
  or_default (r_ImagePrefix r) "peristera-" +:+ "backup:" +:+ or_default (r_ImageTag r) "dev".

Definition tenantEnables (t : Tenant) (name : string) : bool :=
  existsb (λ a, bool_decide (a = name)) (ts_Apps (t_Spec t)).

(** The apps of [l] that call [target], one entry per declaration. *)
Definition callers_in (l : list CatalogApp) (target : string) : list string :=
  l ≫= λ a, a_Calls a ≫= λ c, if bool_decide (c = target) then [a_Name a] else [].

Definition callersOf (target : string) : list string := callers_in catalog target.

(** Does the catalog entry run for this tenant? *)
Definition enabled (t : Tenant) (app : CatalogApp) : bool :=
  negb (a_Optional app && negb (tenantEnables t (a_Name app))).

Definition enabledCallersOf (t : Tenant) (target : string) : list string :=
  callers_in (filter (λ a, enabled t a = true) catalog) target.

Definition OptionalApps : list string := a_Name <$> filter (λ a, a_Optional a = true) catalog.

Definition IsOptionalApp (name : string) : bool :=
  existsb (λ a, a_Optional a && bool_decide (a_Name a = name)) catalog.

Definition anyAppNeedsOpenFGA : bool := existsb a_NeedsOpenFGA catalog.

Definition plain (name value : string) : EnvVar := MkEnv name value None.

Definition officeEnv (r : Reconciler) (t : Tenant) (ns : string) : list EnvVar :=
  if negb (tenantEnables t "office") then []
  else [plain "OFFICE_URL" (publicURL r ("office." +:+ tenantDomain r t));
        plain "WOPI_SRC_BASE" ("http://kamara." +:+ ns +:+ ".svc.cluster.local")].

(** ** Network policies *)
Definition name_label : string := "app.kubernetes.io/name".

Definition nameSelector (app : string) : Selector := MkSelector [(name_label, app)] None.

Definition kubeSystemSelector : Selector := MkSelector [("kubernetes.io/metadata.name", "kube-system")] None.

(** The empty selector: every pod. *)
Definition anyPod : Selector := MkSelector [] None.

Definition openFGAConsumerSelector : Selector :=
  MkSelector [] (Some (a_Name <$> filter (λ a, a_NeedsOpenFGA a = true) catalog)).

Definition tcpPort (p : Z) : protocol * Z := (TCP, p).
Definition udpPort (p : Z) : protocol * Z := (UDP, p).

Definition traefikPeer : Peer := MkPeer (Some kubeSystemSelector) (Some (nameSelector "traefik")).

Definition dnsEgress : Rule :=
  MkRule [MkPeer (Some kubeSystemSelector) (Some (MkSelector [("k8s-app", "kube-dns")] None))]
         [udpPort 53; tcpPort 53].

Definition appEgress : list Rule :=
  [MkRule [MkPeer None (Some anyPod)] []; dnsEgress; MkRule [traefikPeer] []].

(** The peers admitted to an app whose callers are [callers]. *)
Definition ingressPeers (callers : list string) : list Peer :=
  traefikPeer :: ((λ c, MkPeer None (Some (nameSelector c))) <$> callers).

Definition policyMeta (ns name : string) : okey * labels :=
  (("NetworkPolicy", ns, name), [("app.kubernetes.io/managed-by", "peristera-control-plane")]).

Definition appPolicy (t : Tenant) (app : CatalogApp) : NetworkPolicy :=
  MkNetworkPolicy (nameSelector (a_Name app))
    [MkRule (ingressPeers (enabledCallersOf t (a_Name app))) [tcpPort (a_Port app)]]
    appEgress.

Definition openFGAPolicy : NetworkPolicy :=
  MkNetworkPolicy (nameSelector "openfga")
    [MkRule [MkPeer None (Some openFGAConsumerSelector)] [tcpPort 8080; tcpPort 8081]]
    [MkRule [MkPeer None (Some anyPod)] []; dnsEgress].

(** The policies ensureNetworkPolicies creates, in order: name and policy. *)
Definition tenantPolicies (t : Tenant) : list (string * NetworkPolicy) :=
  ((λ app, ("np-" +:+ a_Name app, appPolicy t app)) <$> filter (λ a, enabled t a = true) catalog) ++
  (if anyAppNeedsOpenFGA then [("np-openfga", openFGAPolicy)] else []).

(** ** What a policy admits

    The documented meaning of a NetworkPolicy: a pod its selector matches accepts a
    connection only if one rule lists its source and its port (an empty list of
    peers or ports is no restriction); a peer with no namespace selector is a pod of
    the policy's own namespace, and one with no pod selector is any pod. *)
Record pod := MkPod { pod_ns : string; pod_ns_labels : labels; pod_labels : labels }.

Fixpoint label (l : labels) (k : string) : option string :=
  match l with
  | [] => None
  | (k', v) :: l' => if bool_decide (k' = k) then Some v else label l' k
  end.

Definition sel_matches (s : Selector) (l : labels) : bool :=
  forallb (λ p, bool_decide (label l p.1 = Some p.2)) (sel_Labels s) &&
  match sel_NameIn s with
  | None => true
  | Some names => match label l name_label with Some n => bool_decide (n ∈ names) | None => false end
  end.

Definition peer_matches (ns : string) (p : Peer) (q : pod) : bool :=
  match pe_Namespace p with
  | Some s => sel_matches s (pod_ns_labels q)
  | None => bool_decide (pod_ns q = ns)
  end &&
  match pe_Pod p with Some s => sel_matches s (pod_labels q) | None => true end.

Definition rule_admits (ns : string) (ru : Rule) (q : pod) (port : protocol * Z) : bool :=
  (bool_decide (ru_Peers ru = []) || existsb (λ p, peer_matches ns p q) (ru_Peers ru)) &&
  (bool_decide (ru_Ports ru = []) || bool_decide (port ∈ ru_Ports ru)).
