(* ===== verification/Provision.v ===== *)
(** * Provision: the objects of a tenant
    (control-plane/internal/controller/infra.go, backup.go, ingress.go, office.go,
    apps.go, netpol.go)

    Every builder and every ensure function, over the cluster and the identity
    provider.  Of an object, the parts the controller reads back are fields of its
    model and the rest of its spec is JSON. *)

From stdpp Require Import pretty.
From S2P Require Import Prelude GoText Ids World Http Json Headers Base64 Cluster Zitadel Naming Catalog.

Definition labels_json (l : labels) : json := JObj (prod_map id JStr <$> l).

Definition app_labels (name : string) : labels :=
  [(name_label, name); ("app.kubernetes.io/managed-by", "peristera-control-plane")].

(** An object before SetControllerReference. *)
Definition obj (l : labels) (b : kbody) : kobj := MkObj None l b.

Definition env_from (name secret key : string) : EnvVar := MkEnv name "" (Some (secret, key)).

Definition blobMountPath : string := "/mnt/kamara-blob".
Definition dekMountPath : string := "/mnt/kamara-dek".
Definition dekFileName : string := "dek".
Definition s2sKeyMountPath : string := "/mnt/s2s".
Definition s2sKeyFileName : string := "key.json".
Definition openFGAKeySecret : string := "openfga-authn-key".
Definition openFGAKeyField : string := "token".
Definition backupCredsSecret : string := "backup-s3".
Definition platformNamespace : string := "peristera-system".
Definition openFGAImage : string := "openfga/openfga:v1.8.0".
Definition blobVolumeSize : string := "10Gi".
Definition dekKeySize : nat := 32.

(** ** Pieces of a pod *)
Definition jname (s : string) : json := JObj [("name", JStr s)].
Definition pvc_volume (name claim : string) (ro : bool) : json :=
  JObj [("name", JStr name);
        ("persistentVolumeClaim", JObj (("claimName", JStr claim) :: if ro then [("readOnly", JBool true)] else []))].
Definition secret_volume (name secret : string) (items : list string) : json :=
  JObj [("name", JStr name);
        ("secret", JObj (("secretName", JStr secret) ::
           match items with
           | [] => []
           | _ => [("items", JArr ((λ k, JObj [("key", JStr k); ("path", JStr k)]) <$> items))]
           end))].
Definition tmp_volume : json := JObj [("name", JStr "tmp"); ("emptyDir", JObj [])].
Definition mount (name path : string) (ro : bool) : json :=
  JObj (("name", JStr name) :: ("mountPath", JStr path) :: if ro then [("readOnly", JBool true)] else []).

Definition runtime_default : json := JObj [("type", JStr "RuntimeDefault")].
Definition locked_container : json :=
  JObj [("allowPrivilegeEscalation", JBool false); ("readOnlyRootFilesystem", JBool true);
        ("capabilities", JObj [("drop", jstrs ["ALL"])])].
Definition appUID : json := JNum 65532.
Definition nonroot_pod (fsGroup : bool) : json :=
  JObj ([("runAsNonRoot", JBool true); ("runAsUser", appUID); ("runAsGroup", appUID)] ++
        (if fsGroup then [("fsGroup", appUID)] else []) ++ [("seccompProfile", runtime_default)]).

Definition service (l : labels) (ports : list (string * Z * Z)) : kobj :=
  obj l (KObject (JObj [("selector", labels_json l);
                        ("ports", JArr ((λ '(n, p, tp), JObj ((if bool_decide (n = "") then [] else [("name", JStr n)]) ++
                                           [("port", JNum p); ("targetPort", JNum tp)])) <$> ports))]) JNull).

(** One host, its paths and their backends. *)
Definition ingress (r : Reconciler) (l : labels) (host secret : string) (paths : list (string * string * Z)) : kobj :=
  obj l (KObject (JObj [("annotations", ingressAnnotations r host); ("ingressClassName", JStr "traefik");
                        ("tls", ingressTLS r host secret);
                        ("rules", JArr [JObj [("host", JStr host);
                           ("paths", JArr ((λ '(path, svc, port),
                              JObj [("path", JStr path); ("pathType", JStr "Prefix");
                                    ("service", JStr svc); ("port", JNum port)]) <$> paths))]])]) JNull).

(** ** net/url: the password of a URL *)
Definition keep_userinfo (b : byte) : bool :=
  let c := Ascii.ascii_of_byte b in is_alpha c || is_digit c || one_of "-_.~$&+,;=" c.
Definition escape_userinfo (s : string) : string :=
  bytes_str (concat ((λ b, if keep_userinfo b then [b]
                           else [x25; hex_upper (Z.shiftr (bz b) 4); hex_upper (Z.land (bz b) 15)]) <$> str_bytes s)).

(** The URL of an app's database; the namespace and the app are DNS labels, which a
    URL carries unescaped. *)
Definition dsn (pw ns app : string) : string :=
  "postgresql://app:" +:+ escape_userinfo pw +:+ "@db-rw." +:+ ns +:+ ".svc.cluster.local:5432/" +:+ app +:+
  "?sslmode=require".

Section builders.
Context (r : Reconciler).

(** ** backup.go *)
Definition backupsEnabled : bool := negb (bool_decide (r_BackupBucket r = "")).
Definition blobBackupsEnabled : bool := backupsEnabled && negb (bool_decide (r_BackupAgeRecipient r = "")).

Definition barmanBackup (slug : string) : option json :=
  if negb backupsEnabled then None
  else Some (JObj [("retentionPolicy", JStr "7d");
    ("barmanObjectStore", JObj [
       ("destinationPath", JStr ("s3://" +:+ r_BackupBucket r +:+ "/tenants/" +:+ slug));
       ("endpointURL", JStr (r_BackupEndpoint r));
       ("s3Credentials", JObj [
          ("accessKeyId", JObj [("name", JStr backupCredsSecret); ("key", JStr "ACCESS_KEY_ID")]);
          ("secretAccessKey", JObj [("name", JStr backupCredsSecret); ("key", JStr "ACCESS_SECRET_KEY")])]);
       ("wal", JObj [("compression", JStr "gzip")]);
       ("data", JObj [("compression", JStr "gzip")])])]).

Definition env_json (e : EnvVar) : json :=
  JObj (("name", JStr (e_Name e)) ::
        match e_From e with
        | None => [("value", JStr (e_Value e))]
        | Some (s, k) => [("secretKeyRef", JObj [("name", JStr s); ("key", JStr k)])]
        end).

Definition blobBackupCronJob (t : Tenant) (app : CatalogApp) : kobj :=
  let env := [plain "BACKUP_BUCKET" (r_BackupBucket r); plain "BACKUP_PREFIX" ("tenants/" +:+ ts_Slug (t_Spec t));
              plain "BACKUP_ENDPOINT" (r_BackupEndpoint r); plain "BACKUP_REGION" (r_BackupRegion r);
              plain "AGE_RECIPIENT" (r_BackupAgeRecipient r); plain "BLOB_DIR" "/mnt/blob"; plain "HOME" "/tmp";
              env_from "ACCESS_KEY_ID" backupCredsSecret "ACCESS_KEY_ID";
              env_from "ACCESS_SECRET_KEY" backupCredsSecret "ACCESS_SECRET_KEY"] ++
             (if bool_decide (r_BackupHeartbeat r = "") then [] else [plain "HEARTBEAT_URL" (r_BackupHeartbeat r)]) ++
             (if a_NeedsDEK app then [plain "ESCROW_DIR" "/mnt/escrow"] else []) in
  let volumes := [pvc_volume "blob" (a_Name app +:+ "-blob") true; tmp_volume] ++
                 (if a_NeedsDEK app then [secret_volume "dek" (a_Name app +:+ "-dek") []] else []) in
  let mounts := [mount "blob" "/mnt/blob" true; mount "tmp" "/tmp" false] ++
                (if a_NeedsDEK app then [mount "dek" ("/mnt/escrow/" +:+ a_Name app +:+ "-dek") true] else []) in
  obj [] (KObject (JObj [
    ("schedule", JStr "30 3 * * *"); ("concurrencyPolicy", JStr "Forbid");
    ("backoffLimit", JNum 2); ("activeDeadlineSeconds", JNum (4 * 60 * 60));
    ("restartPolicy", JStr "OnFailure"); ("automountServiceAccountToken", JBool false);
    ("securityContext", nonroot_pod false);
    ("containers", JArr [JObj [("name", JStr "backup"); ("image", JStr (backupImage r));
       ("imagePullPolicy", JStr "IfNotPresent"); ("env", JArr (env_json <$> env));
       ("volumeMounts", JArr mounts); ("securityContext", locked_container)]]);
    ("volumes", JArr volumes)]) JNull).

(** ** ingress.go *)
Definition issuerIngress (t : Tenant) : kobj :=
  ingress r [("app.kubernetes.io/managed-by", "peristera-control-plane"); ("peristera.io/tenant", t_Name t)]
    (instanceDomain r t) ("tenant-" +:+ ts_Slug (t_Spec t) +:+ "-issuer-tls")
    [("/ui/v2/login", "zitadel-login", 3000%Z); ("/", "zitadel", 8080%Z)].

(** ** office.go *)
Definition FormatBool (b : bool) : string := if b then "true" else "false".

(** What a Deployment carries besides its labels and containers. *)
Definition deploy_rest (l : labels) (replicas strategy pod volumes init : list (string * json)) : json :=
  JObj (replicas ++ [("selector", labels_json l); ("podLabels", labels_json l)] ++ strategy ++ pod ++ volumes ++ init).

Definition officeDeployment (t : Tenant) (ns : string) (app : CatalogApp) (l : labels) : kobj :=
  let kamaraInCluster := "http://kamara." +:+ ns +:+ ".svc.cluster.local" in
  let kamaraOrigin := publicURL r ("kamara." +:+ tenantDomain r t) in
  let env := [plain "aliasgroup1" kamaraInCluster;
              plain "extra_params" ("--o:ssl.enable=false --o:ssl.termination=" +:+ FormatBool (tlsEnabled r) +:+
                " --o:net.frame_ancestors=" +:+ kamaraOrigin +:+ " --o:admin_console.enable=false");
              plain "DONT_GEN_SSL_CERT" "1"] in
  obj l (KDeployment (MkDeployment l
    [MkContainer (a_Name app) (imageFor r app) env
       (JObj [("imagePullPolicy", JStr "IfNotPresent"); ("containerPort", JNum (a_Port app));
              ("capabilities", JObj [("add", jstrs ["MKNOD"; "SYS_CHROOT"; "FOWNER"; "CHOWN"; "SYS_ADMIN"])]);
              ("requests", JObj [("cpu", JStr "250m"); ("memory", JStr "640Mi")]);
              ("limits", JObj [("cpu", JStr "2"); ("memory", JStr "2Gi")])])]
    (deploy_rest l [("replicas", JNum 1)] [] [("securityContext", JObj [("seccompProfile", runtime_default)])] [] [])
    0)).

(** ** apps.go: the Deployment of an app *)
Definition appDeployment (app : CatalogApp) (l : labels) (env : list EnvVar) (volumes mounts : list json) : kobj :=
  obj l (KDeployment (MkDeployment l
    [MkContainer (a_Name app) (imageFor r app) env
       (JObj [("imagePullPolicy", JStr "IfNotPresent"); ("containerPort", JNum (a_Port app));
              ("volumeMounts", JArr mounts); ("securityContext", locked_container)])]
    (deploy_rest l [("replicas", JNum 1)] (if a_NeedsBlob app then [("strategy", JStr "Recreate")] else [])
       [("securityContext", nonroot_pod true)] [("volumes", JArr volumes)] [])
    0)).

(** ** infra.go: OpenFGA *)
Definition openFGADeployment (l : labels) : kobj :=
  let dsnEnv := env_from "OPENFGA_DATASTORE_URI" "openfga-db-dsn" "dsn" in
  let engine := plain "OPENFGA_DATASTORE_ENGINE" "postgres" in
  obj l (KDeployment (MkDeployment l
    [MkContainer "openfga" openFGAImage
       [engine; dsnEnv; plain "OPENFGA_AUTHN_METHOD" "preshared";
        env_from "OPENFGA_AUTHN_PRESHARED_KEYS" openFGAKeySecret openFGAKeyField]
       (JObj [("command", jstrs ["/openfga"; "run"]);
              ("ports", JArr [JObj [("name", JStr "http"); ("containerPort", JNum 8080)];
                              JObj [("name", JStr "grpc"); ("containerPort", JNum 8081)]]);
              ("readinessProbe", JObj [("path", JStr "/healthz"); ("port", JNum 8080)])])]
    (deploy_rest l [] [] [] []
       [("initContainers", JArr [JObj [("name", JStr "migrate"); ("image", JStr openFGAImage);
          ("command", jstrs ["/openfga"; "migrate"]); ("env", JArr (env_json <$> [engine; dsnEnv]))]])])
    0)).
End builders.

Section provision.
Context {ZS : Type} {Zd : ZitadelServer ZS} {Pl : Platform}.
Context (r : Reconciler) (c : ZClient).
Abbreviation W := (world (CP ZS)).

(** controllerutil.SetControllerReference on a new object. *)
Definition owned (t : Tenant) (o : kobj) : kobj := MkObj (Some (t_Name t)) (ko_Labels o) (ko_Body o).

Definition setOwnerAndCreate (t : Tenant) (k : okey) (o : kobj) : M W unit := k_Create k (owned t o).

(** [if err := r.Get(k); err == nil { return nil } else if !IsNotFound(err) { return err }] *)
Definition unless_exists (k : okey) (m : M W unit) : M W unit :=
  g ← attempt (k_Get k);
  match g with
  | Ok _ => mret tt
  | Err e => if IsNotFound e then m else throw e
  end.

Definition createIfAbsent (t : Tenant) (k : okey) (o : kobj) : M W unit :=
  unless_exists k (setOwnerAndCreate t k o).

(** ** infra.go *)
Definition secret_data (o : kobj) (field : string) : string :=
  match ko_Body o with KSecret m => default "" (m !! field) | _ => "" end.

Definition ensureDSNSecret (t : Tenant) (ns app : string) : M W unit :=
  let k := ("Secret", ns, app +:+ "-db-dsn") in
  unless_exists k (
    creds ← wrap_err "reading cluster app credentials" (k_Get ("Secret", ns, "db-app"));
    setOwnerAndCreate t k (obj [] (KSecret {["dsn" := dsn (secret_data creds "password") ns app]}))).

Definition ensureAppDatabase (t : Tenant) (ns app : string) : M W unit :=
  let k := ("Database", ns, app +:+ "-db") in
  unless_exists k (setOwnerAndCreate t k (obj [] (KObject
    (JObj [("cluster", jname "db"); ("name", JStr app); ("owner", JStr "app")]) JNull))) ;;
  ensureDSNSecret t ns app.

Definition ensureOpenFGAKey (t : Tenant) (ns : string) : M W unit :=
  let k := ("Secret", ns, openFGAKeySecret) in
  unless_exists k (
    key ← draw 32;
    setOwnerAndCreate t k (obj [] (KSecret {[openFGAKeyField := base64url_encode key]}))).

Definition ensureOpenFGA (t : Tenant) (ns : string) : M W unit :=
  ensureAppDatabase t ns "openfga" ;;
  ensureOpenFGAKey t ns ;;
  let l := app_labels "openfga" in
  createIfAbsent t ("Deployment", ns, "openfga") (openFGADeployment l) ;;
  createIfAbsent t ("Service", ns, "openfga") (service l [("http", 8080, 8080)%Z; ("grpc", 8081, 8081)%Z]).

Definition ensureBlob (t : Tenant) (ns app : string) : M W unit :=
  let k := ("PersistentVolumeClaim", ns, app +:+ "-blob") in
  unless_exists k (setOwnerAndCreate t k (obj [] (KObject
    (JObj [("accessModes", jstrs ["ReadWriteOnce"]); ("storage", JStr blobVolumeSize)]) JNull))).

Definition ensureS2SIdentity (t : Tenant) (ns orgID app : string) : M W unit :=
  let k := ("Secret", ns, app +:+ "-s2s-key") in
  unless_exists k (
    ids ← wrap_err ("ensuring S2S client for " +:+ app) (EnsureS2SClient (st_Issuer (t_Status t)) orgID (app +:+ "-s2s"));
    keyJSON ← wrap_err ("adding S2S key for " +:+ app) (AddAppKey (st_Issuer (t_Status t)) orgID ids.2);
    setOwnerAndCreate t k (obj [] (KSecret {[s2sKeyFileName := bytes_str keyJSON]}))).

Definition ensureDEK (t : Tenant) (ns app : string) : M W unit :=
  let k := ("Secret", ns, app +:+ "-dek") in
  unless_exists k (
    key ← draw dekKeySize;
    setOwnerAndCreate t k (obj [] (KSecret {[dekFileName := EncodeToString key]}))).

(** ** backup.go *)
Definition ensureBackupCreds (t : Tenant) (ns : string) : M W unit :=
  if negb (backupsEnabled r) then mret tt
  else
    let k := ("Secret", ns, backupCredsSecret) in
    let want := KSecret {["ACCESS_KEY_ID" := r_BackupS3KeyID r; "ACCESS_SECRET_KEY" := r_BackupS3Secret r]} in
    g ← attempt (k_Get k);
    match g with
    | Ok sec =>
        if bool_decide (secret_data sec "ACCESS_KEY_ID" = r_BackupS3KeyID r) &&
           bool_decide (secret_data sec "ACCESS_SECRET_KEY" = r_BackupS3Secret r)
        then mret tt
        else k_Update k (MkObj (ko_Owner sec) (ko_Labels sec) want)
    | Err e => if IsNotFound e then setOwnerAndCreate t k (obj [] want) else throw e
    end.

Definition ensureScheduledBackup (t : Tenant) (ns : string) : M W unit :=
  if negb (backupsEnabled r) then mret tt
  else createIfAbsent t ("ScheduledBackup", ns, "db") (obj [] (KObject
    (JObj [("schedule", JStr "0 0 3 * * *"); ("backupOwnerReference", JStr "self"); ("cluster", jname "db")]) JNull)).

Definition ensureBlobBackup (t : Tenant) (ns : string) (app : CatalogApp) : M W unit :=
  if negb (blobBackupsEnabled r) then mret tt
  else createIfAbsent t ("CronJob", ns, a_Name app +:+ "-blob-backup") (blobBackupCronJob r t app).

(** ** ingress.go *)
Definition ensureIssuerIngress (t : Tenant) : M W unit :=
  if negb (tlsEnabled r) then mret tt
  else createIfAbsent t ("Ingress", platformNamespace, "tenant-" +:+ ts_Slug (t_Spec t) +:+ "-issuer") (issuerIngress r t).

(** ** office.go *)
Definition appHost (t : Tenant) (app : CatalogApp) : string := a_Name app +:+ "." +:+ tenantDomain r t.

(** The Deployment, the Service and the Ingress of an app. *)
Definition createAppObjects (t : Tenant) (ns : string) (app : CatalogApp) (deploy : kobj) : M W unit :=
  let l := app_labels (a_Name app) in
  createIfAbsent t ("Deployment", ns, a_Name app) deploy ;;
  createIfAbsent t ("Service", ns, a_Name app) (service l [("", 80, a_Port app)%Z]) ;;
  createIfAbsent t ("Ingress", ns, a_Name app)
    (ingress r l (appHost t app) (a_Name app +:+ "-tls") [("/", a_Name app, 80%Z)]).

Definition ensureOffice (t : Tenant) (ns : string) (app : CatalogApp) : M W unit :=
  createAppObjects t ns app (officeDeployment r t ns app (app_labels (a_Name app))).

(** ** netpol.go *)
Definition ensureNetworkPolicies (t : Tenant) (ns : string) : M W unit :=
  for_each (tenantPolicies t) (λ '(name, np),
    let '(k, l) := policyMeta ns name in createIfAbsent t k (obj l (KNetworkPolicy np))).

(** ** apps.go *)

(** [if b { m }]: the pieces of a pod that a need of the app adds, after [m]. *)
Abbreviation extras := (list EnvVar * list json * list json)%type.   (* env, volumes, mounts *)
Definition add (x y : extras) : extras := (x.1.1 ++ y.1.1, x.1.2 ++ y.1.2, x.2 ++ y.2).
Definition when (b : bool) (m : M W unit) (x : extras) (acc : extras) : M W extras :=
  if b then m ;; mret (add acc x) else mret acc.

Definition ensureApp (t : Tenant) (ns orgID projectID : string) (app : CatalogApp) : M W unit :=
  let name := a_Name app in
  let url := publicURL r (appHost t app) in
  let issuer := st_Issuer (t_Status t) in
  clientID ← wrap_err ("ensuring OIDC client for " +:+ name)
    (EnsureWebApp c issuer orgID name [url +:+ "/auth/callback"] [url +:+ "/"]);
  let env0 := [plain "OIDC_ISSUER" issuer; plain "OIDC_CLIENT_ID" clientID; plain "PUBLIC_URL" url;
               plain "LISTEN_ADDR" (":" +:+ pretty (a_Port app))] in
  x ← when (a_NeedsDatabase app) (ensureAppDatabase t ns name)
        ([env_from "DATABASE_DSN" (name +:+ "-db-dsn") "dsn"], [], []) (env0, [], []);
  x ← when (a_NeedsOpenFGA app) (mret tt)
        ([plain "OPENFGA_API_URL" ("http://openfga." +:+ ns +:+ ".svc.cluster.local:8080");
          env_from "OPENFGA_API_TOKEN" openFGAKeySecret openFGAKeyField], [], []) x;
  x ← when (a_NeedsBlob app) (ensureBlob t ns name)
        ([plain "KAMARA_BLOB_DIR" blobMountPath], [pvc_volume "blob" (name +:+ "-blob") false],
         [mount "blob" blobMountPath false]) x;
  x ← when (a_NeedsDEK app) (ensureDEK t ns name)
        ([plain "KAMARA_DEK_FILE" (dekMountPath +:+ "/" +:+ dekFileName)],
         [secret_volume "dek" (name +:+ "-dek") [dekFileName]], [mount "dek" dekMountPath true]) x;
  x ← when (a_NeedsBlob app) (ensureBlobBackup t ns app) ([], [], []) x;
  x ← when (negb (bool_decide (a_Calls app = []))) (ensureS2SIdentity t ns orgID name)
        ([plain "OIDC_PROJECT_ID" projectID; plain "SVCAUTH_KEY_FILE" (s2sKeyMountPath +:+ "/" +:+ s2sKeyFileName)] ++
         ((λ callee, plain (ToUpper callee +:+ "_URL") ("http://" +:+ callee +:+ "." +:+ ns +:+ ".svc.cluster.local"))
            <$> a_Calls app),
         [secret_volume "s2s-key" (name +:+ "-s2s-key") [s2sKeyFileName]], [mount "s2s-key" s2sKeyMountPath true]) x;
  x ← when (bool_decide (name = "kamara")) (mret tt) (officeEnv r t ns, [], []) x;
  let '(env, volumes, mounts) := add x ([], [tmp_volume], [mount "tmp" "/tmp" false]) in
  createAppObjects t ns app (appDeployment r app (app_labels name) env volumes mounts).

Definition ensureApps (t : Tenant) (ns : string) : M W unit :=
  (if anyAppNeedsOpenFGA then ensureOpenFGA t ns else mret tt) ;;
  orgID ← FirstOrgID (st_Issuer (t_Status t));
  projectID ← ProjectID (st_Issuer (t_Status t)) orgID;
  for_each catalog (λ app,
    if negb (enabled t app) then mret tt
    else if a_External app then ensureOffice t ns app
    else ensureApp t ns orgID projectID app) ;;
  ensureNetworkPolicies t ns.
End provision.
