(* ===== verification/TenantController.v ===== *)
(** * TenantController: converging a tenant
    (control-plane/internal/controller/optional_apps.go, tenant_controller.go)

    Optional apps, IAM provisioning, off-boarding and the reconcile loop. *)

From S2P Require Import Prelude GoText Ids World Http Json Cluster Zitadel Naming Catalog Provision.

Definition finalizer : string := "peristera.io/tenant".

(** ** optional_apps.go: pure helpers *)
Definition callerNames (peers : list Peer) : list string :=
  peers ≫= λ p,
    match pe_Namespace p, pe_Pod p with
    | None, Some s =>
        let name := default "" (label (sel_Labels s) name_label) in
        if bool_decide (name = "") then [] else [name]
    | _, _ => []
    end.

Definition is_office_var (e : EnvVar) : bool :=
  bool_decide (e_Name e = "OFFICE_URL") || bool_decide (e_Name e = "WOPI_SRC_BASE").

Definition withoutOfficeEnv (env : list EnvVar) : list EnvVar := filter (λ e, is_office_var e = false) env.

Fixpoint equalEnv (a b : list EnvVar) : bool :=
  match a, b with
  | [], [] => true
  | x :: a', y :: b' => bool_decide (e_Name x = e_Name y) && bool_decide (e_Value x = e_Value y) && equalEnv a' b'
  | _, _ => false
  end.

Definition equalStringSet (a b : list string) : bool :=
  let sa : gset string := list_to_set a in
  let sb : gset string := list_to_set b in
  bool_decide (size sa = size sb) && bool_decide (set_Forall (λ s, s ∈ sb) sa).

(** ** Finalizers and conditions (controllerutil, meta.SetStatusCondition) *)
Definition AddFinalizer (t : Tenant) : option Tenant :=
  if bool_decide (finalizer ∈ t_Finalizers t) then None
  else Some (with_finalizers (t_Finalizers t ++ [finalizer]) t).

Definition RemoveFinalizer (t : Tenant) : option Tenant :=
  if bool_decide (finalizer ∈ t_Finalizers t)
  then Some (with_finalizers (filter (λ f, f ≠ finalizer) (t_Finalizers t)) t) else None.

Fixpoint set_condition (cd : Condition) (l : list Condition) : list Condition :=
  match l with
  | [] => [cd]
  | x :: l' => if bool_decide (cd_Type x = cd_Type cd) then cd :: l' else x :: set_condition cd l'
  end.

Definition with_conditions (l : list Condition) (st : TenantStatus) : TenantStatus :=
  MkTenantStatus (st_Phase st) (st_InstanceID st) (st_Issuer st) (st_ClientID st) l.
Definition with_phase (p : string) (st : TenantStatus) : TenantStatus :=
  MkTenantStatus p (st_InstanceID st) (st_Issuer st) (st_ClientID st) (st_Conditions st).
Definition with_instance (i : string) (st : TenantStatus) : TenantStatus :=
  MkTenantStatus (st_Phase st) i (st_Issuer st) (st_ClientID st) (st_Conditions st).
Definition with_client (issuer client : string) (st : TenantStatus) : TenantStatus :=
  MkTenantStatus (st_Phase st) (st_InstanceID st) issuer client (st_Conditions st).

Definition setCondition (kind : string) (ok : bool) (t : Tenant) : Tenant :=
  with_status (with_conditions (set_condition (MkCondition kind ok (t_Generation t))
                                  (st_Conditions (t_Status t))) (t_Status t)) t.

(** unstructured.NestedInt64 of status.readyInstances, at least one. *)
Definition ready_instances (status : json) : bool :=
  match status with
  | JObj l => match list_find (λ p, p.1 = "readyInstances") l with
              | Some (_, (_, JNum n)) => (1 <=? n)%Z
              | _ => false
              end
  | _ => false
  end.

Definition errKind : error := ErrText "unexpected kind".

Section controller.
Context {ZS : Type} {Zd : ZitadelServer ZS} {Pl : Platform}.
Context (r : Reconciler) (c : ZClient).
Abbreviation W := (world (CP ZS)).

(** ** optional_apps.go *)
Definition delete_if_present (k : okey) : M W unit :=
  g ← attempt (k_Delete k);
  match g with Err e => if IsNotFound e then mret tt else throw e | Ok _ => mret tt end.

(** The objects an app owns. *)
Definition app_keys (ns name : string) : list okey :=
  [("Deployment", ns, name); ("Service", ns, name); ("Ingress", ns, name); ("NetworkPolicy", ns, "np-" +:+ name)].

Definition teardownApp (ns name : string) : M W unit := for_each (app_keys ns name) delete_if_present.

Definition reconcileKamaraCallers (t : Tenant) (ns : string) : M W unit :=
  let k := ("NetworkPolicy", ns, "np-kamara") in
  g ← attempt (k_Get k);
  match g with
  | Err e => if IsNotFound e then mret tt else throw e
  | Ok o =>
      match ko_Body o with
      | KNetworkPolicy np =>
          match np_Ingress np with
          | [ru] =>
              let desired := enabledCallersOf t "kamara" in
              if equalStringSet (callerNames (ru_Peers ru)) desired then mret tt
              else k_Update k (MkObj (ko_Owner o) (ko_Labels o)
                     (KNetworkPolicy (MkNetworkPolicy (np_Pods np) [MkRule (ingressPeers desired) (ru_Ports ru)]
                                        (np_Egress np))))
          | _ => mret tt
          end
      | _ => throw errKind
      end
  end.

Definition reconcileKamaraEnv (t : Tenant) (ns : string) : M W unit :=
  let k := ("Deployment", ns, "kamara") in
  g ← attempt (k_Get k);
  match g with
  | Err e => if IsNotFound e then mret tt else throw e
  | Ok o =>
      match ko_Body o with
      | KDeployment d =>
          match dp_Containers d with
          | [] => mret tt
          | ct :: cts =>
              let desired := withoutOfficeEnv (c_Env ct) ++ officeEnv r t ns in
              if equalEnv (c_Env ct) desired then mret tt
              else k_Update k (MkObj (ko_Owner o) (ko_Labels o) (KDeployment
                     (MkDeployment (dp_Labels d) (MkContainer (c_Name ct) (c_Image ct) desired (c_Rest ct) :: cts)
                        (dp_Rest d) (dp_Available d))))
          end
      | _ => throw errKind
      end
  end.

Definition reconcileKamaraOfficeWiring (t : Tenant) (ns : string) : M W unit :=
  reconcileKamaraCallers t ns ;; reconcileKamaraEnv t ns.

Definition reconcileOptionalApps (t : Tenant) (ns : string) : M W unit :=
  for_each catalog (λ app,
    if negb (a_Optional app) || tenantEnables t (a_Name app) then mret tt
    else teardownApp ns (a_Name app)) ;;
  reconcileKamaraOfficeWiring t ns.

(** ** tenant_controller.go *)
Definition ensureNamespace (t : Tenant) (name : string) : M W unit :=
  createIfAbsent t ("Namespace", "", name)
    (obj [("app.kubernetes.io/managed-by", "peristera-control-plane"); ("peristera.io/tenant", t_Name t)]
       (KObject (JObj []) JNull)).

Definition ensureDatabase (t : Tenant) (ns : string) : M W unit :=
  ensureBackupCreds r t ns ;;
  createIfAbsent t ("Cluster", ns, "db") (obj [] (KObject
    (JObj ([("instances", JNum 1); ("storage", JObj [("size", JStr "1Gi")]);
            ("smartShutdownTimeout", JNum 10); ("stopDelay", JNum 30)] ++
           match barmanBackup r (ts_Slug (t_Spec t)) with Some b => [("backup", b)] | None => [] end)) JNull)) ;;
  ensureScheduledBackup r t ns.

Definition databaseReady (ns : string) : M W bool :=
  g ← attempt (k_Get ("Cluster", ns, "db"));
  match g with
  | Err e => if IsNotFound e then mret false else throw e
  | Ok o => mret (match ko_Body o with KObject _ status => ready_instances status | _ => false end)
  end.

Fixpoint apps_ready (t : Tenant) (ns : string) (l : list CatalogApp) : M W bool :=
  match l with
  | [] => mret true
  | app :: l' =>
      if negb (enabled t app) then apps_ready t ns l'
      else
        g ← attempt (k_Get ("Deployment", ns, a_Name app));
        match g with
        | Err e => if IsNotFound e then mret false else throw e
        | Ok o =>
            match ko_Body o with
            | KDeployment d => if (dp_Available d <? 1)%Z then mret false else apps_ready t ns l'
            | _ => throw errKind
            end
        end
  end.
Definition appsReady (t : Tenant) (ns : string) : M W bool := apps_ready t ns catalog.

(** The tenant with its status advanced, whether IAM is provisioned, and the delay
    (in seconds) after which to look again. *)
Definition provisionIAM (t : Tenant) : M W (Tenant * bool * Z) :=
  let domain := instanceDomain r t in
  let issuer := tenantIssuer r t in
  ensureIssuerIngress r t ;;
  if bool_decide (st_InstanceID (t_Status t) = "") then
    g ← attempt (InstanceIDByDomain c domain);
    i ← match g with
        | Ok i => mret i
        | Err e => if errors_is e ErrIam404 then CreateInstance c (ts_Slug (t_Spec t)) domain (orgName t) else throw e
        end;
    mret (with_status (with_instance i (t_Status t)) t, false, 3%Z)
  else if negb (bool_decide (st_ClientID (t_Status t) = "")) then mret (t, true, 0%Z)
  else
    alive ← DiscoveryAlive issuer;
    if negb alive then mret (t, false, 3%Z)
    else
      AddTrustedDomain issuer (st_InstanceID (t_Status t)) (r_LoginDomain r) ;;
      orgID ← FirstOrgID issuer;
      let appBase := publicURL r ("stub." +:+ tenantDomain r t) in
      clientID ← EnsureStubApp c issuer orgID [appBase +:+ "/auth/callback"] [appBase +:+ "/"];
      mret (with_status (with_client issuer clientID (t_Status t)) t, true, 0%Z).

(** Is the tenant's virtual instance confirmed gone? *)
Definition deleteInstance (t : Tenant) : M W bool :=
  let delete_id (i : string) : M W bool :=
    d ← attempt (DeleteInstance c i);
    match d with
    | Ok _ => mret true
    | Err e =>
        if errors_is e ErrIam404
        then alive ← DiscoveryAlive (tenantIssuer r t); mret (negb alive)
        else throw e
    end in
  if bool_decide (st_InstanceID (t_Status t) = "") then
    g ← attempt (InstanceIDByDomain c (instanceDomain r t));
    match g with
    | Err e => if errors_is e ErrIam404 then mret true else throw e
    | Ok i => delete_id i
    end
  else delete_id (st_InstanceID (t_Status t)).

Definition TenantPending : string := "Pending".
Definition TenantReady : string := "Ready".

(** The part of Reconcile for a tenant being deleted: an instance not yet gone, or an
    error, is retried after five seconds. *)
Definition reconcile_deleting (t : Tenant) : M W Z :=
  gone ← (if r_IAM r then d ← attempt (deleteInstance t); mret (match d with Ok b => b | Err _ => false end)
          else mret true);
  if negb gone then mret 5%Z
  else match RemoveFinalizer t with
       | Some t' => t_Update t' ;; mret 0%Z
       | None => mret 0%Z
       end.

(** The status a reconcile reports. *)
Definition final_status (t : Tenant) (dbReady iamReady appsReady : bool) : Tenant :=
  let t1 := setCondition "AppsReady" appsReady
              (setCondition "IAMProvisioned" iamReady (setCondition "DatabaseReady" dbReady t)) in
  with_status (with_phase (if dbReady && iamReady && appsReady then TenantReady else TenantPending) (t_Status t1)) t1.

Definition tenant_ns (t : Tenant) : string := "tenant-" +:+ ts_Slug (t_Spec t).

Definition reconcile_live (t0 : Tenant) : M W Z :=
  t ← match AddFinalizer t0 with Some t' => t_Update t' | None => mret t0 end;
  let ns := tenant_ns t in
  ensureNamespace t ns ;;
  ensureDatabase t ns ;;
  dbReady ← databaseReady ns;
  x ← (if r_IAM r then
         p ← provisionIAM t;
         let '(t1, iamReady, requeue) := p in
         (if iamReady && dbReady then ensureApps r c t1 ns ;; reconcileOptionalApps t1 ns else mret tt) ;;
         mret p
       else mret (t, true, 0%Z));
  let '(t1, iamReady, requeue) := x in
  appsUp ← (if negb (r_IAM r) then mret true
            else if iamReady && dbReady then appsReady t1 ns else mret false);
  t_StatusUpdate (final_status t1 dbReady iamReady appsUp) ;;
  mret (if dbReady && iamReady && appsUp then requeue else if (requeue =? 0)%Z then 10%Z else requeue).

(** The delay after which the tenant is queued again (0: no timer). *)
Definition Reconcile (name : string) : M W Z :=
  g ← attempt (t_Get name);
  match g with
  | Err e => if IsNotFound e then mret 0%Z else throw e
  | Ok t => if t_Deleting t then reconcile_deleting t else reconcile_live t
  end.
End controller.
