(* ===== verification/ControllerFrame.v ===== *)
(** * ControllerFrame: what the controller's steps can change

    A property of the stored tenants and objects survives the provisioning functions
    when it survives the creation of the objects they create; the provider's calls
    never touch the cluster. *)

From S2P Require Import Prelude GoText Ids World Http Json Cluster Zitadel Naming Catalog Provision TenantController.

Section frame.
Context {ZS : Type} {Zd : ZitadelServer ZS} {Pl : Platform}.
Abbreviation W := (world (CP ZS)).
Context (J : gmap string Tenant → gmap okey kobj → Prop).

Definition cluster (w : W) : Prop := J (cp_tenants (w_db w)) (cp_objects (w_db w)).

Lemma cluster_stores_only : stores_only cluster.
Proof. intros w w' Hd _. unfold cluster. by rewrite Hd. Qed.
Hint Resolve cluster_stores_only : go.

(** ** Calls *)
Lemma keeps_k_Get k : keeps cluster (k_Get k).
Proof.
  apply keeps_stmt; [auto with go|]. intros w o d Hw.
  destruct (cp_objects (w_db w) !! k); intros [= <- <-]. by rewrite set_db_id.
Qed.

Lemma keeps_t_Get name : keeps cluster (t_Get name).
Proof.
  apply keeps_stmt; [auto with go|]. intros w o d Hw.
  destruct (cp_tenants (w_db w) !! name); intros [= <- <-]. by rewrite set_db_id.
Qed.

Lemma keeps_k_Create k o :
  (∀ ts os, os !! k = None → J ts os → J ts (<[k := o]> os)) → keeps cluster (k_Create k o).
Proof.
  intros H. apply keeps_stmt; [auto with go|]. intros w u d Hw.
  destruct (cp_objects (w_db w) !! k) eqn:E; intros [= <- <-]. by apply H.
Qed.

Lemma keeps_k_Delete k :
  (∀ ts os, J ts os → J ts (delete k os)) → keeps cluster (k_Delete k).
Proof.
  intros H. apply keeps_stmt; [auto with go|]. intros w u d Hw.
  destruct (cp_objects (w_db w) !! k) eqn:E; intros [= <- <-]. by apply H.
Qed.

(** What a Get read is there. *)
Lemma get_object k :
  triple cluster (k_Get k) (λ g w, cluster w ∧ match g with Ok o => cp_objects (w_db w) !! k = Some o | Err _ => True end).
Proof.
  intros w Hw. destruct (k_Get k w) as [g w'] eqn:E. apply stmt_cases in E as (_&_&_&E). cbn.
  unfold cluster in *. destruct (cp_objects (w_db w) !! k) eqn:Ek.
  - destruct E as [(e&->&Hd&_)|(a&d&[= <- <-]&Hd&Hg)]; rewrite Hd; (split; [done|]); [done|]. by destruct Hg as [-> | ->].
  - destruct E as [(e&->&Hd&_)|(a&d&[=]&_)]. by rewrite Hd.
Qed.

Lemma update_object k o :
  triple (λ w, cluster w ∧ J (cp_tenants (w_db w)) (<[k := o]> (cp_objects (w_db w)))) (k_Update k o) (λ _, cluster).
Proof.
  intros w [Hw Hk]. destruct (k_Update k o w) as [g w'] eqn:E. apply stmt_cases in E as (_&_&_&E). cbn.
  unfold cluster in *. destruct (cp_objects (w_db w) !! k) eqn:Ek.
  - destruct E as [(e&->&Hd&_)|(a&d&[= <- <-]&Hd&_)]; rewrite Hd; done.
  - destruct E as [(e&->&Hd&_)|(a&d&[=]&_)]. by rewrite Hd.
Qed.

Lemma keeps_send m url org body : keeps cluster (send m url org body).
Proof.
  apply keeps_call; [auto with go|]. intros w Hw. by destruct (z_http _ _ _ _ _ _) as [x z].
Qed.

Lemma keeps_probe {A} (f : W → A) : keeps cluster (call (gets f)).
Proof. apply keeps_call; [auto with go|apply keeps_gets]. Qed.
Hint Resolve keeps_k_Get keeps_t_Get keeps_send keeps_probe : go.

(** ** The identity provider's client *)
Lemma keeps_do m url org body : keeps cluster (do m url org body).
Proof. unfold do. keeps_tac. Qed.
Hint Resolve keeps_do : go.
Lemma keeps_do_into {A} (dec : json → res A) m url org body : keeps cluster (do_into dec m url org body).
Proof. unfold do_into. keeps_tac. Qed.
Lemma keeps_do_unit m url org body : keeps cluster (do_unit m url org body).
Proof. unfold do_unit. keeps_tac. Qed.
Hint Resolve keeps_do_into keeps_do_unit : go.

Lemma keeps_ProjectID base org : keeps cluster (ProjectID base org).
Proof. unfold ProjectID, projectIDByName. keeps_tac. Qed.
Lemma keeps_oidcAppByName base org pid name : keeps cluster (oidcAppByName base org pid name).
Proof. unfold oidcAppByName. keeps_tac. Qed.
Hint Resolve keeps_ProjectID keeps_oidcAppByName : go.
Lemma keeps_EnsureS2SClient base org name : keeps cluster (EnsureS2SClient base org name).
Proof. unfold EnsureS2SClient. keeps_tac. Qed.
Lemma keeps_EnsureWebApp c base org name rs ls : keeps cluster (EnsureWebApp c base org name rs ls).
Proof. unfold EnsureWebApp. keeps_tac. Qed.
Lemma keeps_AddAppKey base org app : keeps cluster (AddAppKey base org app).
Proof. unfold AddAppKey, now. keeps_tac. Qed.
Lemma keeps_DiscoveryAlive issuer : keeps cluster (DiscoveryAlive issuer).
Proof. unfold DiscoveryAlive. keeps_tac. Qed.
Lemma keeps_AddTrustedDomain base i d : keeps cluster (AddTrustedDomain base i d).
Proof. unfold AddTrustedDomain. keeps_tac. Qed.
Hint Resolve keeps_EnsureS2SClient keeps_EnsureWebApp keeps_AddAppKey keeps_DiscoveryAlive keeps_AddTrustedDomain : go.

Lemma keeps_deleteInstance r c t : keeps cluster (deleteInstance r c t).
Proof. unfold deleteInstance, InstanceIDByDomain, DeleteInstance. keeps_tac. Qed.

(** ** Provisioning *)
Section creating.
Context (r : Reconciler) (c : ZClient) (t : Tenant) (ns : string).

(** Where they create: in the tenant's namespace, the namespace itself, and the issuer's
    Ingress, which has to live beside the identity provider and carries the tenant's slug. *)
Definition own_place (slug : string) (k : okey) : Prop :=
  k.1.2 = "tenant-" +:+ slug ∨ k = ("Namespace", "", "tenant-" +:+ slug) ∨
  k = ("Ingress", platformNamespace, "tenant-" +:+ slug +:+ "-issuer").

(** What the provisioning functions create: objects the tenant owns, in their place, and
    policies only from [tenantPolicies]. *)
Definition created (k : okey) (o : kobj) : Prop :=
  ko_Owner o = Some (t_Name t) ∧ own_place (ts_Slug (t_Spec t)) k ∧
  (k.1.1 = "NetworkPolicy" →
   ∃ name np, (name, np) ∈ tenantPolicies t ∧ k = ("NetworkPolicy", ns, name) ∧ ko_Body o = KNetworkPolicy np).

Hypothesis in_ns : ns = tenant_ns t.
Hypothesis J_create : ∀ k o ts os, created k o → os !! k = None → J ts os → J ts (<[k := o]> os).

Lemma keeps_setOwnerAndCreate k o : created k (owned t o) → keeps cluster (setOwnerAndCreate t k o).
Proof. intros H. apply keeps_k_Create. intros ts os. by apply J_create. Qed.

Definition plain_place (k : okey) : Prop := k.1.1 ≠ "NetworkPolicy" ∧ own_place (ts_Slug (t_Spec t)) k.

Lemma keeps_create_plain k o : plain_place k → keeps cluster (setOwnerAndCreate t k o).
Proof. intros [H Hp]. apply keeps_setOwnerAndCreate. by split_and!. Qed.

Lemma in_own_ns kind name : kind ≠ "NetworkPolicy" → plain_place (kind, ns, name).
Proof. intros H. split; [done|]. left. by rewrite in_ns. Qed.

Lemma keeps_unless_exists k m : keeps cluster m → keeps cluster (unless_exists k m).
Proof. intros H. unfold unless_exists. keeps_tac. Qed.

Lemma keeps_createIfAbsent k o : plain_place k → keeps cluster (createIfAbsent t k o).
Proof. intros H. by apply keeps_unless_exists, keeps_create_plain. Qed.

Ltac kind := apply in_own_ns; by (cbn; congruence).
#[local] Hint Extern 1 (keeps _ (setOwnerAndCreate _ _ _)) => apply keeps_create_plain; kind : go.
#[local] Hint Extern 1 (keeps _ (createIfAbsent _ _ _)) => apply keeps_createIfAbsent; kind : go.
#[local] Hint Extern 1 (keeps _ (unless_exists _ _)) => apply keeps_unless_exists; keeps_tac : go.

Lemma keeps_ensureAppDatabase app : keeps cluster (ensureAppDatabase t ns app).
Proof. unfold ensureAppDatabase, ensureDSNSecret. keeps_tac. Qed.
Lemma keeps_ensureDEK app : keeps cluster (ensureDEK t ns app).
Proof. unfold ensureDEK. keeps_tac. Qed.
Lemma keeps_ensureBlob app : keeps cluster (ensureBlob t ns app).
Proof. unfold ensureBlob. keeps_tac. Qed.
Lemma keeps_ensureS2SIdentity org app : keeps cluster (ensureS2SIdentity t ns org app).
Proof. unfold ensureS2SIdentity. keeps_tac. Qed.
Hint Resolve keeps_ensureAppDatabase keeps_ensureDEK keeps_ensureBlob keeps_ensureS2SIdentity : go.

Lemma keeps_ensureOpenFGA : keeps cluster (ensureOpenFGA t ns).
Proof. unfold ensureOpenFGA, ensureOpenFGAKey. keeps_tac. Qed.
Lemma keeps_ensureBlobBackup app : keeps cluster (ensureBlobBackup r t ns app).
Proof. unfold ensureBlobBackup. keeps_tac. Qed.
Lemma keeps_ensureIssuerIngress : keeps cluster (ensureIssuerIngress r t).
Proof.
  unfold ensureIssuerIngress. destruct (negb _); [apply keeps_ret|]. apply keeps_createIfAbsent.
  split; [done|]. right. by right.
Qed.
Lemma keeps_ensureScheduledBackup : keeps cluster (ensureScheduledBackup r t ns).
Proof. unfold ensureScheduledBackup. keeps_tac. Qed.
Lemma keeps_createAppObjects app o : keeps cluster (createAppObjects r t ns app o).
Proof. unfold createAppObjects. keeps_tac. Qed.
Lemma keeps_when b m x acc : keeps cluster m → keeps cluster (when b m x acc).
Proof. intros H. unfold when. keeps_tac. Qed.
Hint Resolve keeps_ensureOpenFGA keeps_ensureBlobBackup keeps_createAppObjects keeps_when : go.

Lemma keeps_ensureApp org pid app : keeps cluster (ensureApp r c t ns org pid app).
Proof. unfold ensureApp. keeps_tac. Qed.

Lemma keeps_ensureNetworkPolicies : keeps cluster (ensureNetworkPolicies t ns).
Proof.
  apply keeps_for_each. intros [name np] Hin. cbn [policyMeta].
  apply keeps_unless_exists, keeps_setOwnerAndCreate. split; [done|]. split; [left; by rewrite in_ns|].
  intros _. by exists name, np.
Qed.
Hint Resolve keeps_ensureApp keeps_ensureNetworkPolicies : go.

Lemma keeps_ensureApps : keeps cluster (ensureApps r c t ns).
Proof. unfold ensureApps, FirstOrgID, ensureOffice. keeps_tac. Qed.

Lemma keeps_provisionIAM : keeps cluster (provisionIAM r c t).
Proof.
  unfold provisionIAM, InstanceIDByDomain, CreateInstance, FirstOrgID, EnsureStubApp.
  pose proof keeps_ensureIssuerIngress. keeps_tac.
Qed.

Lemma keeps_ensureNamespace : keeps cluster (ensureNamespace t ns).
Proof. apply keeps_createIfAbsent. split; [done|]. right. left. by rewrite in_ns. Qed.

(** The Secret of the backup credentials follows the configuration. *)
Hypothesis J_backup : ∀ o o' ts os,
  let k := ("Secret", ns, backupCredsSecret) in
  os !! k = Some o → ko_Owner o' = ko_Owner o → J ts os → J ts (<[k := o']> os).

Lemma keeps_ensureBackupCreds : keeps cluster (ensureBackupCreds r t ns).
Proof.
  unfold ensureBackupCreds. destruct (negb _); [apply keeps_ret|]. cbv zeta.
  eapply triple_try; [apply get_object|]. intros [o|e].
  - intros w [Hw Ho]. destruct (_ && _); [done|]. apply update_object. split; [done|]. by eapply J_backup.
  - eapply triple_weaken with (P := cluster) (Q := λ _, cluster); [|by intros w [? _]|done].
    change (keeps cluster (if IsNotFound e then setOwnerAndCreate t ("Secret", ns, backupCredsSecret)
              (obj [] (KSecret {["ACCESS_KEY_ID" := r_BackupS3KeyID r; "ACCESS_SECRET_KEY" := r_BackupS3Secret r]}))
              else throw e)). keeps_tac.
Qed.

Lemma keeps_ensureDatabase : keeps cluster (ensureDatabase r t ns).
Proof.
  pose proof keeps_ensureBackupCreds. pose proof keeps_ensureScheduledBackup. unfold ensureDatabase. keeps_tac.
Qed.
End creating.

Lemma keeps_databaseReady ns : keeps cluster (databaseReady ns).
Proof. unfold databaseReady. keeps_tac. Qed.

Lemma keeps_apps_ready t ns l : keeps cluster (apps_ready t ns l).
Proof. induction l as [|app l IH]; cbn [apps_ready]; keeps_tac. Qed.

(** ** Optional apps *)
Lemma keeps_teardownApp ns name :
  (∀ k ts os, k ∈ app_keys ns name → J ts os → J ts (delete k os)) → keeps cluster (teardownApp ns name).
Proof.
  intros H. apply keeps_for_each. intros k Hk. unfold delete_if_present.
  apply keeps_bind; [apply keeps_attempt, keeps_k_Delete; eauto|intros g]. keeps_tac.
Qed.

Section optional.
Context (r : Reconciler) (t : Tenant) (ns : string).
Hypothesis J_teardown : ∀ app k ts os,
  app ∈ catalog → enabled t app = false → k ∈ app_keys ns (a_Name app) → J ts os → J ts (delete k os).
Hypothesis J_callers : ∀ o np ru ts os,
  let k := ("NetworkPolicy", ns, "np-kamara") in
  J ts os → os !! k = Some o → ko_Body o = KNetworkPolicy np → np_Ingress np = [ru] →
  J ts (<[k := MkObj (ko_Owner o) (ko_Labels o) (KNetworkPolicy (MkNetworkPolicy (np_Pods np)
          [MkRule (ingressPeers (enabledCallersOf t "kamara")) (ru_Ports ru)] (np_Egress np)))]> os).
Hypothesis J_env : ∀ o d ct cts env ts os,
  let k := ("Deployment", ns, "kamara") in
  J ts os → os !! k = Some o → ko_Body o = KDeployment d → dp_Containers d = ct :: cts →
  J ts (<[k := MkObj (ko_Owner o) (ko_Labels o) (KDeployment (MkDeployment (dp_Labels d)
          (MkContainer (c_Name ct) (c_Image ct) env (c_Rest ct) :: cts) (dp_Rest d) (dp_Available d)))]> os).

Lemma keeps_reconcileKamaraCallers : keeps cluster (reconcileKamaraCallers t ns).
Proof.
  eapply triple_try; [apply get_object|]. intros [o|e].
  - intros w [Hw Ho]. destruct (ko_Body o) as [|np| |] eqn:Eb; try done.
    destruct (np_Ingress np) as [|ru [|]] eqn:Ei; try done. cbv zeta. destruct (equalStringSet _ _); [done|].
    apply update_object. split; [done|]. by eapply J_callers.
  - intros w [Hw _]. by destruct (IsNotFound e).
Qed.

Lemma keeps_reconcileKamaraEnv : keeps cluster (reconcileKamaraEnv r t ns).
Proof.
  eapply triple_try; [apply get_object|]. intros [o|e].
  - intros w [Hw Ho]. destruct (ko_Body o) as [d| | |] eqn:Eb; try done.
    destruct (dp_Containers d) as [|ct cts] eqn:Ei; try done. cbv zeta. destruct (equalEnv _ _); [done|].
    apply update_object. split; [done|]. by eapply J_env.
  - intros w [Hw _]. by destruct (IsNotFound e).
Qed.

Lemma keeps_reconcileOptionalApps : keeps cluster (reconcileOptionalApps r t ns).
Proof.
  pose proof keeps_reconcileKamaraCallers. pose proof keeps_reconcileKamaraEnv.
  unfold reconcileOptionalApps, reconcileKamaraOfficeWiring.
  apply keeps_bind; [|intros _; keeps_tac]. apply keeps_for_each. intros app Happ.
  destruct (a_Optional app) eqn:Eo, (tenantEnables t (a_Name app)) eqn:Et; cbn [negb orb]; try apply keeps_ret.
  apply keeps_teardownApp. intros k ts os Hk. eapply J_teardown; [done| |done]. unfold enabled. by rewrite Eo, Et.
Qed.
End optional.
End frame.
#[export] Hint Resolve cluster_stores_only keeps_k_Get keeps_t_Get keeps_send keeps_probe
  keeps_do_into keeps_do_unit keeps_deleteInstance keeps_databaseReady keeps_apps_ready : go.
