(* ===== verification/ControllerSafety.v ===== *)
(** * ControllerSafety: what a reconcile never does

    Theorems about every run of [Reconcile], whatever the provider answers and
    whichever calls fail: provisioned objects are never replaced, network policies
    isolate tenants, the identity of a tenant is permanent. *)

From S2P Require Import Prelude GoText Ids World Http Json Cluster Zitadel Naming Catalog Provision TenantController ControllerFrame.

(** ** Reconcile keeps what its writes keep *)
Section objects.
Context {ZS : Type} {Zd : ZitadelServer ZS} {Pl : Platform}.
Context (r : Reconciler) (c : ZClient).
Abbreviation W := (world (CP ZS)).

(** The tenant being reconciled: its name and spec, what is known of its status, and
    its namespace. *)
Context (name : string) (sp : TenantSpec) (A : TenantStatus → Prop).
Definition tenant_is (t : Tenant) : Prop := t_Name t = name ∧ t_Spec t = sp ∧ A (t_Status t).
Abbreviation ns := ("tenant-" +:+ ts_Slug sp).

(** The resources of the other tenants. *)
Context (ts0 : gmap string Tenant).
Definition others_kept (ts : gmap string Tenant) : Prop := ∀ n, n ≠ name → ts !! n = ts0 !! n.
Definition tenants_ok (ts : gmap string Tenant) : Prop := (∀ t, ts !! name = Some t → tenant_is t) ∧ others_kept ts.

Context (K : gmap okey kobj → Prop).
Abbreviation J := (λ (ts : gmap string Tenant) os, tenants_ok ts ∧ K os).
Abbreviation inv := (cluster (ZS := ZS) J).

Lemma get_tenant :
  triple inv (t_Get name) (λ g w, inv w ∧ match g with Ok t => tenant_is t | Err _ => True end).
Proof.
  intros w Hw. pose proof (keeps_t_Get J name w Hw) as Hk.
  destruct (t_Get name w) as [g w'] eqn:E. split; [done|]. cbn in *.
  apply stmt_cases in E as (_&_&_&[(e&->&_)|(t&d&Et&_&Hg)]); [done|].
  destruct (cp_tenants (w_db w) !! name) eqn:El; [|done]. injection Et as <- _.
  destruct Hg as [-> | ->]; [|done]. by apply Hw.
Qed.

Lemma tenants_ok_insert (ts : gmap string Tenant) (t' : Tenant) :
  tenants_ok ts → tenant_is t' → tenants_ok (<[name := t']> ts).
Proof.
  intros [H1 H2] H. split; [|intros n Hn; rewrite lookup_insert_ne by done; by apply H2].
  intros t. rewrite lookup_insert_eq. by intros [= <-].
Qed.

Lemma tenants_ok_delete (ts : gmap string Tenant) : tenants_ok ts → tenants_ok (delete name ts).
Proof.
  intros [H1 H2]. split; [|intros n Hn; rewrite lookup_delete_ne by done; by apply H2].
  intros t. by rewrite lookup_delete_eq.
Qed.

Lemma update_tenant t :
  tenant_is t → triple inv (t_Update t) (λ g w, inv w ∧ match g with Ok t' => tenant_is t' | Err _ => True end).
Proof.
  intros (Hn&Hs&HA) w Hw. destruct (t_Update t w) as [g w'] eqn:E. apply stmt_cases in E as (_&_&_&E). cbn in *.
  unfold cluster in *. destruct E as [(e&->&Hd&_)|(a&d&Ea&Hd&Hg)]; rewrite Hd; [done|].
  destruct (cp_tenants (w_db w) !! t_Name t) as [cur|] eqn:Ec; [|done]. rewrite Hn in *.
  destruct (bool_decide _); [|done]. pose proof (proj1 (proj1 Hw) _ Ec) as (Hcn&_&HAc).
  assert (tenant_is (MkTenant (t_Name cur) (t_Version cur + 1) (t_Generation cur) (t_Deleting cur)
                       (t_Finalizers t) (t_Spec t) (t_Status cur))) as Hnew by (by split).
  destruct (_ && _); injection Ea as <- <-; cbn; (split; [split; [|apply Hw]|by destruct Hg as [-> | ->]]).
  - apply tenants_ok_delete, Hw.
  - apply tenants_ok_insert; [apply Hw|done].
Qed.

Lemma keeps_t_StatusUpdate t : t_Name t = name → A (t_Status t) → keeps inv (t_StatusUpdate t).
Proof.
  intros Hn HA. apply keeps_stmt; [auto with go|]. intros w u d Hw. cbn.
  destruct (cp_tenants (w_db w) !! t_Name t) as [cur|] eqn:Ec; [|done].
  destruct (bool_decide _); intros [= <- <-]. split; [|apply Hw]. cbn. rewrite Hn in *.
  apply tenants_ok_insert; [apply Hw|]. destruct (proj1 (proj1 Hw) _ Ec) as (?&?&?). by split.
Qed.
Hint Resolve keeps_t_StatusUpdate : go.

Hypothesis K_create : ∀ t k o os, tenant_is t → created t ns k o → os !! k = None → K os → K (<[k := o]> os).
Hypothesis K_backup : ∀ o o' os,
  let k := ("Secret", ns, backupCredsSecret) in
  os !! k = Some o → ko_Owner o' = ko_Owner o → K os → K (<[k := o']> os).
Hypothesis K_teardown : ∀ app k os,
  a_Optional app = true → k ∈ app_keys ns (a_Name app) → app ∈ catalog → K os → K (delete k os).
Hypothesis K_callers : ∀ t o np ru os,
  let k := ("NetworkPolicy", ns, "np-kamara") in
  K os → os !! k = Some o → ko_Body o = KNetworkPolicy np → np_Ingress np = [ru] →
  K (<[k := MkObj (ko_Owner o) (ko_Labels o) (KNetworkPolicy (MkNetworkPolicy (np_Pods np)
        [MkRule (ingressPeers (enabledCallersOf t "kamara")) (ru_Ports ru)] (np_Egress np)))]> os).
Hypothesis K_env : ∀ o d ct cts env os,
  let k := ("Deployment", ns, "kamara") in
  K os → os !! k = Some o → ko_Body o = KDeployment d → dp_Containers d = ct :: cts →
  K (<[k := MkObj (ko_Owner o) (ko_Labels o) (KDeployment (MkDeployment (dp_Labels d)
        (MkContainer (c_Name ct) (c_Image ct) env (c_Rest ct) :: cts) (dp_Rest d) (dp_Available d)))]> os).

Hypothesis A_iam : ∀ t w t1 b q w',
  tenant_is t → provisionIAM r c t w = (Ok (t1, b, q), w') → A (t_Status t1).
Hypothesis A_report : ∀ t db iam apps, A (t_Status t) → A (t_Status (final_status t db iam apps)).

Lemma keeps_optional t : keeps inv (reconcileOptionalApps r t ns).
Proof.
  apply keeps_reconcileOptionalApps.
  - intros app k ts os Happ Hen Hk [Hts HK]. split; [done|]. eapply K_teardown; [|done..].
    unfold enabled in Hen. by destruct (a_Optional app).
  - intros o np ru ts os k [Hts HK] Hk Hb Hi. split; [done|]. by eapply K_callers.
  - intros o d ct cts env ts os k [Hts HK] Hk Hb Hi. split; [done|]. by eapply K_env.
Qed.
Hint Resolve keeps_optional : go.

Lemma J_created t : tenant_is t → ∀ k o ts os, created t ns k o → os !! k = None → J ts os → J ts (<[k := o]> os).
Proof. intros Ht k o ts os Hc Hn [Hts HK]. split; [done|]. by eapply K_create. Qed.

Lemma tenant_place t : tenant_is t → ns = tenant_ns t.
Proof. intros (_&Hs&_). unfold tenant_ns. by rewrite Hs. Qed.

(** The tenant provisionIAM hands on is the one it got, with a new status. *)
Lemma provisionIAM_tenant t w t1 b q w' :
  provisionIAM r c t w = (Ok (t1, b, q), w') → (∃ st, t1 = with_status st t) ∧ (0 <= q)%Z.
Proof.
  assert (∃ st, t = with_status st t) as Hsame by (exists (t_Status t); by destruct t).
  unfold provisionIAM. intros H. apply bind_ok_inv in H as (_&w1&_&H).
  destruct (bool_decide _).
  - apply bind_ok_inv in H as (g&w2&_&H). apply bind_ok_inv in H as (i&w3&_&[= <- _ <- _]). eauto with lia.
  - destruct (negb _); [injection H as <- _ <- _; eauto with lia|].
    apply bind_ok_inv in H as (alive&w2&_&H).
    destruct alive; cbn [negb] in H; [|injection H as <- _ <- _; eauto with lia].
    apply bind_ok_inv in H as (_&w3&_&H). apply bind_ok_inv in H as (org&w4&_&H). cbv zeta in H.
    apply bind_ok_inv in H as (cid&w5&_&[= <- _ <- _]). eauto with lia.
Qed.

Lemma iam_part t dbReady :
  tenant_is t →
  triple inv (p ← provisionIAM r c t;
             let '(t1, iamReady, requeue) := p in
             (if iamReady && dbReady then ensureApps r c t1 ns ;; reconcileOptionalApps r t1 ns
              else mret tt) ;; mret p)
    (λ g w, inv w ∧ match g with Ok p => tenant_is p.1.1 | Err _ => True end).
Proof.
  intros Ht. apply (triple_bind _ _ _ (λ p w, inv w ∧ tenant_is p.1.1)).
  - intros w Hw. pose proof (keeps_provisionIAM J r c t ns (J_created t Ht) w Hw) as Hk.
    destruct (provisionIAM r c t w) as [[[[t1 b] q]|e] w'] eqn:E; [|done]. split; [done|].
    pose proof (A_iam _ _ _ _ _ _ Ht E). apply provisionIAM_tenant in E as [[st ->] _]. split; [apply Ht|].
    split; [apply Ht|done].
  - intros [[t1 b] q]. apply (triple_pure _ (tenant_is t1)); [by intros w [_ ?]|intros Ht1].
    pose proof (keeps_ensureApps J r c t1 ns (tenant_place _ Ht1) (J_created _ Ht1)).
    apply (triple_bind _ _ _ (λ _, inv)); [|intros u w Hw; split; [done|apply Ht1]].
    assert (keeps inv (if b && dbReady then ensureApps r c t1 ns ;; reconcileOptionalApps r t1 ns else mret tt))
      as Hk by keeps_tac.
    eapply triple_weaken; [apply Hk|by intros w [? _]|]. by intros [u|e] w Hw.
Qed.

Lemma keeps_Reconcile : keeps inv (Reconcile r c name).
Proof.
  unfold Reconcile. eapply triple_try; [apply get_tenant|]. intros [t0|e].
  2: { intros w [Hw _]. by destruct (IsNotFound e). }
  apply (triple_pure _ (tenant_is t0)); [by intros w [_ ?]|intros Ht0].
  eapply triple_weaken with (P := inv) (Q := λ _, inv); [|by intros w [? _]|done].
  destruct (t_Deleting t0).
  - unfold reconcile_deleting. apply keeps_bind; [keeps_tac|]. intros gone.
    destruct (negb gone); [apply keeps_ret|]. unfold RemoveFinalizer.
    destruct (bool_decide _); [|apply keeps_ret]. apply keeps_bind; [|intros; apply keeps_ret].
    eapply triple_weaken; [by apply update_tenant|done|]. by intros g w [? _].
  - unfold reconcile_live. apply (triple_bind _ _ _ (λ t w, inv w ∧ tenant_is t)).
    + unfold AddFinalizer. destruct (bool_decide _); [by intros w Hw|].
      eapply triple_weaken; [by apply update_tenant|done|]. intros [t|e] w; naive_solver.
    + intros t. apply (triple_pure _ (tenant_is t)); [by intros w [_ ?]|intros Ht].
      eapply triple_weaken with (P := inv) (Q := λ _, inv); [|by intros w [? _]|done].
      assert (tenant_ns t = ns) as -> by (unfold tenant_ns; by rewrite (proj1 (proj2 Ht))). cbv zeta.
      pose proof (keeps_ensureNamespace (ZS := ZS) J t ns (tenant_place t Ht) (J_created t Ht)).
      pose proof (keeps_ensureDatabase (ZS := ZS) J r t ns (tenant_place t Ht) (J_created t Ht)
                    (λ o o' ts os Ho Hown H, conj (proj1 H) (K_backup o o' os Ho Hown (proj2 H)))).
      apply keeps_bind; [done|intros _]. apply keeps_bind; [done|intros _].
      apply keeps_bind; [auto with go|intros db].
      apply (triple_bind _ _ _ (λ p w, inv w ∧ tenant_is p.1.1)).
      * destruct (r_IAM r); [|intros w Hw; cbn; split; [done|exact Ht]].
        eapply triple_weaken; [by apply iam_part|done|]. intros [p|e] w; naive_solver.
      * intros [[t1 iam] q]. apply (triple_pure _ (tenant_is t1)); [by intros w [_ ?]|intros HA].
        eapply triple_weaken with (P := inv) (Q := λ _, inv); [|by intros w [? _]|done].
        unfold appsReady. apply keeps_bind; [keeps_tac|]. intros b.
        apply keeps_bind; [apply keeps_t_StatusUpdate; [apply HA|apply A_report, HA]|intros; apply keeps_ret].
Qed.
End objects.

(** ** Provisioning is create-only *)

(** The objects a reconcile may rewrite or delete. *)
Definition mutable_keys (slug : string) : list okey :=
  let ns := "tenant-" +:+ slug in
  [("Secret", ns, backupCredsSecret); ("NetworkPolicy", ns, "np-kamara"); ("Deployment", ns, "kamara")] ++
  (OptionalApps ≫= app_keys ns).

(** [os] extends [os0]: nothing outside [keys] changed, and what is new belongs to the
    tenant and is in its place. *)
Definition extends (name : string) (place : okey → Prop) (keys : list okey) (os0 os : gmap okey kobj) : Prop :=
  (∀ k o, k ∉ keys → os0 !! k = Some o → os !! k = Some o) ∧
  (∀ k o, os !! k = Some o → os0 !! k = None → ko_Owner o = Some name ∧ place k).

Lemma extends_insert_new name place keys os0 os k o :
  extends name place keys os0 os → os !! k = None → ko_Owner o = Some name → place k →
  extends name place keys os0 (<[k := o]> os).
Proof.
  intros [H1 H2] Hk Ho Hp. split; intros k' o' Hx Hy; destruct (decide (k = k')) as [<-|Hne].
  - rewrite (H1 k o') in Hk; done.
  - rewrite lookup_insert_ne by done. by apply H1.
  - rewrite lookup_insert_eq in Hx. by injection Hx as <-.
  - rewrite lookup_insert_ne in Hx by done. by apply (H2 k').
Qed.

Lemma extends_update name place keys os0 os k o o' :
  extends name place keys os0 os → k ∈ keys → os !! k = Some o → ko_Owner o' = ko_Owner o →
  extends name place keys os0 (<[k := o']> os).
Proof.
  intros [H1 H2] Hin Hk Ho. split; intros k' x Hx Hy; destruct (decide (k = k')) as [<-|Hne].
  - done.
  - rewrite lookup_insert_ne by done. by apply H1.
  - rewrite lookup_insert_eq in Hx. injection Hx as <-. rewrite Ho. by apply (H2 k).
  - rewrite lookup_insert_ne in Hx by done. by apply (H2 k').
Qed.

Lemma extends_delete name place keys os0 os k :
  extends name place keys os0 os → k ∈ keys → extends name place keys os0 (delete k os).
Proof.
  intros [H1 H2] Hin. split; intros k' x Hx Hy; destruct (decide (k = k')) as [<-|Hne].
  - done.
  - rewrite lookup_delete_ne by done. by apply H1.
  - by rewrite lookup_delete_eq in Hx.
  - rewrite lookup_delete_ne in Hx by done. by apply (H2 k').
Qed.

(** Outside its place nothing changes. *)
Lemma extends_elsewhere name (place : okey → Prop) keys os0 os :
  extends name place keys os0 os → (∀ k, k ∈ keys → place k) → ∀ k, ¬ place k → os !! k = os0 !! k.
Proof.
  intros [H1 H2] Hk k Hp. destruct (os0 !! k) as [o|] eqn:E0; [apply H1; [|done]; intros ?; by apply Hp, Hk|].
  destruct (os !! k) as [o|] eqn:E; [|done]. by destruct (H2 _ _ E E0).
Qed.

Lemma mutable_in_place slug k : k ∈ mutable_keys slug → own_place slug k.
Proof.
  unfold mutable_keys. rewrite elem_of_app, list_elem_of_bind. intros [Hk|(n&Hk&_)]; left;
    apply list_elem_of_In in Hk; cbn in Hk; intuition subst; done.
Qed.

Lemma elem_of_OptionalApps app : app ∈ catalog → a_Optional app = true → a_Name app ∈ OptionalApps.
Proof. intros H Ho. apply list_elem_of_fmap. exists app. split; [done|]. by apply list_elem_of_filter. Qed.

(** ** Who may reach an app *)
Definition consumers : list string := a_Name <$> filter (λ a, a_NeedsOpenFGA a = true) catalog.

(** The call graph of the catalog: may a pod of app [n] call app [x]? *)
Definition may_call (n x : string) : Prop := n ∈ callersOf x ∨ (x = "openfga" ∧ n ∈ consumers).

Definition traefik_pod (q : pod) : Prop :=
  label (pod_ns_labels q) "kubernetes.io/metadata.name" = Some "kube-system" ∧
  label (pod_labels q) name_label = Some "traefik".

Definition allowed_source (ns x : string) (q : pod) : Prop :=
  traefik_pod q ∨ (pod_ns q = ns ∧ ∃ n, label (pod_labels q) name_label = Some n ∧ may_call n x).

(** A policy for the pods of [x] whose rules admit only allowed sources. *)
Definition isolates (ns x : string) (np : NetworkPolicy) : Prop :=
  np_Pods np = nameSelector x ∧
  ∀ ru q port, ru ∈ np_Ingress np → rule_admits ns ru q port = true → allowed_source ns x q.

Definition policies_ok (ns : string) (os : gmap okey kobj) : Prop :=
  ∀ name o, os !! ("NetworkPolicy", ns, name) = Some o →
  ∃ x np, name = "np-" +:+ x ∧ ko_Body o = KNetworkPolicy np ∧ isolates ns x np.

(** Does a pod with labels [l] accept a connection from [q]?  A pod no policy selects
    accepts everything. *)
Definition accepts (os : gmap okey kobj) (ns : string) (l : labels) (q : pod) (port : protocol * Z) : Prop :=
  let selects (np : NetworkPolicy) := ∃ name o, os !! ("NetworkPolicy", ns, name) = Some o ∧
    ko_Body o = KNetworkPolicy np ∧ sel_matches (np_Pods np) l = true in
  (∀ np, selects np → False) ∨
  ∃ np ru, selects np ∧ ru ∈ np_Ingress np ∧ rule_admits ns ru q port = true.

Lemma sel_matches_name s l : sel_matches (nameSelector s) l = true ↔ label l name_label = Some s.
Proof.
  unfold sel_matches, nameSelector. cbn [sel_Labels sel_NameIn forallb fst snd]. rewrite !andb_true_r.
  by rewrite bool_decide_eq_true.
Qed.

Lemma traefikPeer_matches ns q : peer_matches ns traefikPeer q = true → traefik_pod q.
Proof.
  unfold peer_matches, traefikPeer. cbn [pe_Namespace pe_Pod]. rewrite andb_true_iff.
  intros [Hns Hp]. split; [|by apply sel_matches_name].
  unfold sel_matches, kubeSystemSelector in Hns. cbn [sel_Labels sel_NameIn forallb fst snd] in Hns.
  rewrite !andb_true_r in Hns. by apply bool_decide_eq_true in Hns.
Qed.

Lemma ingressPeers_admit ns callers ports q port :
  rule_admits ns (MkRule (ingressPeers callers) ports) q port = true →
  traefik_pod q ∨ (pod_ns q = ns ∧ ∃ n, label (pod_labels q) name_label = Some n ∧ n ∈ callers).
Proof.
  unfold rule_admits. cbn [ru_Peers ru_Ports]. rewrite andb_true_iff, orb_true_iff. intros [[H|H] _].
  { by apply bool_decide_eq_true in H. }
  apply existsb_exists in H as (p&Hp&Hm). apply list_elem_of_In in Hp.
  apply elem_of_cons in Hp as [->|Hp]; [left; by eapply traefikPeer_matches|right].
  apply list_elem_of_fmap in Hp as (x&->&Hx). unfold peer_matches in Hm. cbn [pe_Namespace pe_Pod] in Hm.
  apply andb_true_iff in Hm as [Hn Hl]. apply bool_decide_eq_true in Hn. split; [done|].
  apply sel_matches_name in Hl. eauto.
Qed.

Lemma enabledCallersOf_callersOf t x n : n ∈ enabledCallersOf t x → n ∈ callersOf x.
Proof.
  unfold enabledCallersOf, callersOf, callers_in. intros H. apply list_elem_of_bind in H as (a&Ha&Hin).
  apply list_elem_of_filter in Hin as [_ Hin]. apply list_elem_of_bind. eauto.
Qed.

Lemma callers_isolate t ns x ports egress :
  isolates ns x (MkNetworkPolicy (nameSelector x) [MkRule (ingressPeers (enabledCallersOf t x)) ports] egress).
Proof.
  split; [done|]. intros ru q port Hru Hadm. apply list_elem_of_singleton in Hru. subst ru.
  apply ingressPeers_admit in Hadm as [H|(Hns&n&Hl&Hn)]; [by left|right]. split; [done|].
  exists n. split; [done|]. left. by eapply enabledCallersOf_callersOf.
Qed.

Lemma openFGAPolicy_isolates ns : isolates ns "openfga" openFGAPolicy.
Proof.
  split; [done|]. intros ru q port Hru Hadm. apply list_elem_of_singleton in Hru. subst ru.
  unfold rule_admits in Hadm. cbn [ru_Peers ru_Ports existsb] in Hadm. rewrite orb_false_r in Hadm.
  apply andb_true_iff in Hadm as [[H|H]%orb_true_iff _]; [by apply bool_decide_eq_true in H|].
  unfold peer_matches in H. cbn [pe_Namespace pe_Pod] in H. apply andb_true_iff in H as [Hns Hl].
  apply bool_decide_eq_true in Hns. right. split; [done|].
  unfold sel_matches, openFGAConsumerSelector in Hl. cbn [sel_Labels sel_NameIn forallb andb] in Hl.
  destruct (label (pod_labels q) name_label) as [n|]; [|done]. apply bool_decide_eq_true in Hl.
  exists n. split; [done|]. right. done.
Qed.

Lemma tenantPolicies_isolate t ns name np :
  (name, np) ∈ tenantPolicies t → ∃ x, name = "np-" +:+ x ∧ isolates ns x np.
Proof.
  unfold tenantPolicies. rewrite elem_of_app. intros [H|H].
  - apply list_elem_of_fmap in H as (app&[= -> ->]&_). eexists. split; [done|]. apply callers_isolate.
  - destruct anyAppNeedsOpenFGA; [|by apply elem_of_nil in H].
    apply list_elem_of_singleton in H as [= -> ->]. exists "openfga". split; [done|]. apply openFGAPolicy_isolates.
Qed.

Section theorems.
Context {ZS : Type} {Zd : ZitadelServer ZS} {Pl : Platform}.
Context (r : Reconciler) (c : ZClient).
Abbreviation W := (world (CP ZS)).

(** What a reconcile leaves alone, and where it creates. *)
Lemma reconcile_frame name t (w : W) :
  cp_tenants (w_db w) !! name = Some t → t_Name t = name →
  let slug := ts_Slug (t_Spec t) in
  let d := w_db w in let d' := w_db (Reconcile r c name w).2 in
  extends name (own_place slug) (mutable_keys slug) (cp_objects d) (cp_objects d') ∧
  (∀ k, ¬ own_place slug k → cp_objects d' !! k = cp_objects d !! k) ∧
  (∀ n, n ≠ name → cp_tenants d' !! n = cp_tenants d !! n).
Proof.
  intros Ht Hn slug d d'.
  assert (cluster (λ ts os, tenants_ok name (t_Spec t) (λ _, True) (cp_tenants d) ts ∧
            extends name (own_place slug) (mutable_keys slug) (cp_objects d) os) (Reconcile r c name w).2) as [[_ Ho] He].
  { apply keeps_Reconcile; [| | | | |done|done|].
    - intros t' k o os (Ht'&Hs&_) (Ho&Hp&_) Hk H. apply extends_insert_new; [done..| |]; [by rewrite Ho, Ht'|].
      unfold slug. by rewrite <- Hs.
    - intros o o' os k Hk Ho H. eapply extends_update; [done| |done|done]. left.
    - intros app k os Hopt Hk Happ H. apply extends_delete; [done|].
      apply elem_of_app. right. apply list_elem_of_bind. exists (a_Name app). split; [done|].
      by apply elem_of_OptionalApps.
    - intros t' o np ru os k H Hk _ _. eapply extends_update; [done| |done|done]. right. left.
    - intros o d0 ct cts env os k H Hk _ _. eapply extends_update; [done| |done|done]. do 2 right. left.
    - split; [split; [|done]|split; [done|]]; [|intros k o Hk Hk'; change (cp_objects d !! k = Some o) in Hk; congruence].
      intros t'. rewrite Ht. intros [= <-]. by split. }
  split; [done|]. split; [|done]. eapply extends_elsewhere; [exact He|apply mutable_in_place].
Qed.

(** C21: Whatever fails and whatever the provider answers, reconciling a tenant never
    changes or deletes an object outside a short list in its own namespace (its backup
    credentials, its Kamara Deployment and policy, and the objects of optional apps): not
    the encryption key, a database, a volume or another Secret.  Whatever it creates is
    owned by the tenant, so off-boarding collects it, and lies in the tenant's own
    namespace, or is that namespace, or is the issuer's Ingress that carries the tenant's
    slug beside the identity provider.  So no object in another namespace but that one
    Ingress changes, and the resources of all other tenants stay as they were. *)
Theorem reconcile_create_only name t (w : W) :
  cp_tenants (w_db w) !! name = Some t → t_Name t = name →
  let slug := ts_Slug (t_Spec t) in
  let d := w_db w in let d' := w_db (Reconcile r c name w).2 in
  extends name (own_place slug) (mutable_keys slug) (cp_objects d) (cp_objects d') ∧
  (∀ k, ¬ own_place slug k → cp_objects d' !! k = cp_objects d !! k) ∧
  (∀ n, n ≠ name → cp_tenants d' !! n = cp_tenants d !! n).
Proof. apply reconcile_frame. Qed.

(** The policies in a tenant's namespace stay isolating. *)
Lemma keeps_policies name sp :
  keeps (cluster (λ ts os, (∀ t, ts !! name = Some t → tenant_is name sp (λ _, True) t) ∧
                           policies_ok ("tenant-" +:+ ts_Slug sp) os))
    (Reconcile (ZS := ZS) r c name).
Proof.
  set (slug := ts_Slug sp). intros w0 [Hw0 Hp0].
  assert (cluster (λ ts os, tenants_ok name sp (λ _, True) (cp_tenants (w_db w0)) ts ∧ policies_ok ("tenant-" +:+ slug) os)
    (Reconcile r c name w0).2) as [[H1 _] H2]; [|by split].
  apply keeps_Reconcile; [| | |
    intros t o np ru os k H Hk Hb Hi |
    intros o d ct cts env os k H Hk _ _ n x; rewrite lookup_insert_ne by (unfold k; congruence); apply H|done|done|].
  5: { split; [by split|exact Hp0]. }
  - intros t k o os _ (_&_&Hc) _ H n x. destruct (decide (k = ("NetworkPolicy", "tenant-" +:+ slug, n))) as [->|Hne];
      [rewrite lookup_insert_eq; intros [= <-]|rewrite lookup_insert_ne by done; apply H].
    destruct (Hc eq_refl) as (n'&np&Hin&[= <-]&Hb).
    apply (tenantPolicies_isolate _ ("tenant-" +:+ slug)) in Hin as (y&->&Hy). eauto.
  - intros o o' os k _ _ H n x. rewrite lookup_insert_ne by (unfold k; congruence). apply H.
  - intros app k os _ _ _ H n x Hl. apply lookup_delete_Some in Hl as [_ Hl]. by apply (H n).
  - intros n x. destruct (decide (n = "np-kamara")) as [->|Hne];
      [unfold k; rewrite lookup_insert_eq; intros [= <-]|rewrite lookup_insert_ne by (unfold k; congruence); apply H].
    destruct (H _ _ Hk) as (y&np'&Hy&Hb'&Hp&_). rewrite Hb in Hb'. injection Hb' as <-.
    change ("np-" +:+ "kamara" = "np-" +:+ y) in Hy. apply (inj (String.append "np-")) in Hy as <-. exists "kamara". eexists. split; [done|]. split; [done|].
    rewrite Hp. apply callers_isolate.
Qed.

(** ** The identity of a tenant *)

(** What a status records is never overwritten; an issuer is only ever set to the
    permanent one of [t0]. *)
Definition identity_kept (t0 : Tenant) (st : TenantStatus) : Prop :=
  let st0 := t_Status t0 in
  (st_InstanceID st0 ≠ "" → st_InstanceID st = st_InstanceID st0) ∧
  (st_ClientID st0 ≠ "" → st_ClientID st = st_ClientID st0) ∧
  (st_Issuer st = st_Issuer st0 ∨ (st_Issuer st0 = "" ∧ st_Issuer st = publicURL r (issuerHost r t0))).

Lemma tenantIssuer_kept t0 t :
  t_Spec t = t_Spec t0 → identity_kept t0 (t_Status t) → tenantIssuer r t = tenantIssuer r t0.
Proof.
  intros Hs (_&_&Hi). unfold tenantIssuer, issuerHost. rewrite Hs. destruct Hi as [->|[-> ->]]; [done|].
  rewrite (bool_decide_eq_true_2 ("" = "")) by done. by destruct (negb _).
Qed.

Lemma provisionIAM_identity t0 t (w : W) t1 b q w' :
  t_Spec t = t_Spec t0 → identity_kept t0 (t_Status t) → provisionIAM r c t w = (Ok (t1, b, q), w') →
  identity_kept t0 (t_Status t1).
Proof.
  intros Hs Hkept. pose proof Hkept as (Hinst&Hcl&Hiss).
  unfold provisionIAM. intros H. apply bind_ok_inv in H as (_&w1&_&H).
  destruct (bool_decide_reflect (st_InstanceID (t_Status t) = "")) as [Ei|Ei].
  - apply bind_ok_inv in H as (g&w2&_&H). apply bind_ok_inv in H as (i&w3&_&[= <- _ _ _]).
    split; [|done]. cbn. intros Hne. by rewrite <- (Hinst Hne) in Hne.
  - destruct (bool_decide_reflect (st_ClientID (t_Status t) = "")) as [Ec|Ec]; cbn [negb] in H; [|by injection H as <- _ _ _].
    apply bind_ok_inv in H as (alive&w2&_&H). destruct alive; cbn [negb] in H; [|by injection H as <- _ _ _].
    apply bind_ok_inv in H as (_&w3&_&H). apply bind_ok_inv in H as (org&w4&_&H). cbv zeta in H.
    apply bind_ok_inv in H as (cid&w5&_&[= <- _ _ _]). split; [done|]. cbn.
    split; [intros Hne; by rewrite <- (Hcl Hne) in Hne|].
    rewrite (tenantIssuer_kept _ _ Hs Hkept). unfold tenantIssuer.
    destruct (bool_decide_reflect (st_Issuer (t_Status t0) = "")); [by right|by left].
Qed.

(** C24: The identity of a tenant is permanent: whatever fails and whatever the provider
    answers, a reconcile leaves the spec alone, never changes a recorded instance id or
    client id, and leaves the issuer URL of the tenant what it was before, whether
    already recorded or still to be derived. *)
Theorem identity_permanent name t0 t (w : W) :
  cp_tenants (w_db w) !! name = Some t0 → t_Name t0 = name →
  cp_tenants (w_db (Reconcile r c name w).2) !! name = Some t →
  t_Spec t = t_Spec t0 ∧ tenantIssuer r t = tenantIssuer r t0 ∧ identity_kept t0 (t_Status t).
Proof.
  intros Ht0 Hn Ht.
  assert (cluster (λ ts os, tenants_ok name (t_Spec t0) (identity_kept t0) (cp_tenants (w_db w)) ts ∧ True)
            (Reconcile r c name w).2) as [[H _] _].
  { apply keeps_Reconcile; try done.
    - intros t1 w1 t2 b q w2 (_&Hs&Hk). by apply provisionIAM_identity.
    - split; [split; [|done]|done]. intros t1. rewrite Ht0. intros [= <-]. split; [done|]. split; [done|]. repeat split; auto. }
  destruct (H t Ht) as (_&Hs&Hk). split; [done|]. split; [by apply tenantIssuer_kept|done].
Qed.
End theorems.
