(* ===== verification/ControllerReady.v ===== *)
(** * ControllerReady: what a reconcile achieves

    A tenant reported Ready is up and isolated; one that is not is looked at again;
    the identity of a tenant never changes. *)

From S2P Require Import Prelude GoText Ids World Http Json Cluster Zitadel Naming Catalog Provision TenantController ControllerFrame ControllerSafety.

(** ** What it means to be up *)
Definition db_up (ns : string) (os : gmap okey kobj) : Prop :=
  ∃ o spec status, os !! ("Cluster", ns, "db") = Some o ∧ ko_Body o = KObject spec status ∧ ready_instances status = true.

Definition apps_up (ns : string) (t : Tenant) (os : gmap okey kobj) : Prop :=
  ∀ app, app ∈ catalog → enabled t app = true →
  ∃ o d, os !! ("Deployment", ns, a_Name app) = Some o ∧ ko_Body o = KDeployment d ∧ (1 <= dp_Available d)%Z.

(** Every policy the catalog asks for exists. *)
Definition policies_up (ns : string) (t : Tenant) (os : gmap okey kobj) : Prop :=
  ∀ name np, (name, np) ∈ tenantPolicies t → is_Some (os !! ("NetworkPolicy", ns, name)).

Lemma db_up_insert ns os k o : db_up ns os → k.1.1 ≠ "Cluster" → db_up ns (<[k := o]> os).
Proof.
  intros (o'&sp&st&Hk&Hb) Hne. exists o', sp, st. rewrite lookup_insert_ne; [done|]. intros ->. done.
Qed.
Lemma db_up_create ns os k o : db_up ns os → os !! k = None → db_up ns (<[k := o]> os).
Proof. intros (o'&sp&st&Hk&Hb) Hne. exists o', sp, st. rewrite lookup_insert_ne; [done|]. intros ->. congruence. Qed.
Lemma db_up_delete ns os k : db_up ns os → k.1.1 ≠ "Cluster" → db_up ns (delete k os).
Proof. intros (o'&sp&st&Hk&Hb) Hne. exists o', sp, st. rewrite lookup_delete_ne; [done|]. intros ->. done. Qed.

Lemma policies_up_insert ns t os k o : policies_up ns t os → policies_up ns t (<[k := o]> os).
Proof.
  intros H name np Hin. destruct (decide (k = ("NetworkPolicy", ns, name))) as [->|Hne];
    [rewrite lookup_insert_eq; eauto|rewrite lookup_insert_ne by done; eauto].
Qed.

(** A disabled app owns none of the policies of the others. *)
Lemma app_keys_not_policy ns t app name np :
  app ∈ catalog → enabled t app = false → (name, np) ∈ tenantPolicies t →
  ("NetworkPolicy", ns, name) ∉ app_keys ns (a_Name app).
Proof.
  intros Happ Hen Hin Hk. unfold app_keys in Hk.
  repeat (apply elem_of_cons in Hk as [Hk|Hk]; [try done|]); [|by apply elem_of_nil in Hk].
  injection Hk as ->. unfold tenantPolicies in Hin. apply elem_of_app in Hin as [Hin|Hin].
  - apply list_elem_of_fmap in Hin as (b&[= Hn ->]&Hb). apply list_elem_of_filter in Hb as [Hen' Hb].
    unfold catalog in Happ, Hb.
    repeat (apply elem_of_cons in Happ as [->|Happ]; [
      repeat (apply elem_of_cons in Hb as [->|Hb]; [cbn in Hn; try done; congruence|]); by apply elem_of_nil in Hb|]).
    by apply elem_of_nil in Happ.
  - unfold catalog in Happ. cbn in Hin. apply list_elem_of_singleton in Hin as [= Hn _].
    repeat (apply elem_of_cons in Happ as [->|Happ]; [done|]). by apply elem_of_nil in Happ.
Qed.

Section ready.
Context {ZS : Type} {Zd : ZitadelServer ZS} {Pl : Platform}.
Context (r : Reconciler) (c : ZClient).
Abbreviation W := (world (CP ZS)).

(** What holds when the run got that far without an error. *)
Definition okspec {A} (P : W → Prop) (m : M W A) (R : A → W → Prop) : Prop :=
  triple P m (λ g w, match g with Ok a => R a w | Err _ => True end).

Lemma okspec_bind {A B} (P : W → Prop) (m : M W A) (k : A → M W B) R S :
  okspec P m R → (∀ a, okspec (R a) (k a) S) → okspec P (m ≫= k) S.
Proof. intros Hm Hk. eapply triple_bind; [|done]. apply Hm. Qed.

Lemma okspec_keeps {A} (P : W → Prop) (m : M W A) : keeps P m → okspec P m (λ _, P).
Proof. intros H w Hw. specialize (H w Hw). by destruct (m w) as [[a|e] w']. Qed.

Lemma okspec_weaken {A} (P P' : W → Prop) (m : M W A) R R' :
  okspec P m R → (∀ w, P' w → P w) → (∀ a w, R a w → R' a w) → okspec P' m R'.
Proof. intros H HP HR w Hw. specialize (H w (HP w Hw)). destruct (m w) as [[a|e] w']; [by apply HR|done]. Qed.

(** ** The steps of a reconcile *)
Section steps.
Context (name ns : string) (t : Tenant).

(** The stored tenant is the one read, and the database is up if it was seen up. *)
Definition reading (db : bool) (ts : gmap string Tenant) (os : gmap okey kobj) : Prop :=
  ts !! name = Some t ∧ (db = true → db_up ns os).

Lemma reading_create t' db k o ts os :
  created t' ns k o → os !! k = None → reading db ts os → reading db ts (<[k := o]> os).
Proof. intros _ Hk [Ht Hdb]. split; [done|]. intros E. by apply db_up_create; [apply Hdb|]. Qed.

Lemma reading_insert db k o ts os : k.1.1 ≠ "Cluster" → reading db ts os → reading db ts (<[k := o]> os).
Proof. intros Hk [Ht Hdb]. split; [done|]. intros E. by apply db_up_insert; [apply Hdb|]. Qed.

Lemma reading_delete db k ts os : k.1.1 ≠ "Cluster" → reading db ts os → reading db ts (delete k os).
Proof. intros Hk [Ht Hdb]. split; [done|]. intros E. by apply db_up_delete; [apply Hdb|]. Qed.

Lemma app_keys_kind n k : k ∈ app_keys ns n → k.1.1 ≠ "Cluster".
Proof. unfold app_keys. intros H. by repeat (apply elem_of_cons in H as [->|H]; [done|]); apply elem_of_nil in H. Qed.

Lemma databaseReady_spec :
  okspec (cluster (reading false)) (databaseReady ns) (λ b, cluster (reading b)).
Proof.
  unfold databaseReady. eapply triple_try; [apply get_object|]. intros [o|e] w [Hw Ho].
  - destruct (ko_Body o) as [| | |sp st] eqn:Eb; cbn; try (by split; [apply Hw|]).
    split; [apply Hw|]. intros Hr. by exists o, sp, st.
  - destruct (IsNotFound e); cbn; [|done]. by split; [apply Hw|].
Qed.

Lemma ensureNetworkPolicies_spec t1 db :
  okspec (cluster (reading db)) (ensureNetworkPolicies t1 ns)
    (λ _, cluster (λ ts os, reading db ts os ∧ policies_up ns t1 os)).
Proof.
  unfold ensureNetworkPolicies, policies_up.
  assert (∀ l done, (∀ x, x ∈ l → x ∈ tenantPolicies t1) →
    okspec (cluster (λ ts os, reading db ts os ∧ ∀ n np, (n, np) ∈ done → is_Some (os !! ("NetworkPolicy", ns, n))))
      (for_each l (λ '(n, np), let '(k, lb) := policyMeta ns n in createIfAbsent t1 k (obj lb (KNetworkPolicy np))))
      (λ _, cluster (λ ts os, reading db ts os ∧ ∀ n np, (n, np) ∈ done ++ l → is_Some (os !! ("NetworkPolicy", ns, n)))))
    as Hl.
  { induction l as [|[n np] l IH]; intros dn Hin; cbn [for_each].
    { rewrite app_nil_r. apply okspec_keeps, keeps_ret. }
    assert (∀ x, x ∈ l → x ∈ tenantPolicies t1) as Hin' by (intros x Hx; apply Hin; by right).
    specialize (IH (dn ++ [(n, np)]) Hin'). rewrite <- app_assoc in IH.
    eapply okspec_bind; [|intros u; apply IH].
    cbn [policyMeta]. unfold createIfAbsent, unless_exists.
    eapply triple_try; [apply get_object|]. intros [o|e] w [[Hw Hd] Ho].
    - cbn. split; [done|]. intros n' np' [H|H%list_elem_of_singleton]%elem_of_app; [eauto|].
      injection H as -> ->. by rewrite Ho.
    - destruct (IsNotFound e); [|done]. unfold setOwnerAndCreate.
      destruct (k_Create _ _ w) as [[u|e'] w'] eqn:E; [|done]. apply stmt_cases in E as (_&_&_&[(?&[=]&_)|(?&d&E&Hd'&_)]).
      cbn. unfold cluster. rewrite Hd'. destruct (cp_objects (w_db w) !! _) eqn:El; [done|]. injection E as _ <-. cbn.
      split; [by apply reading_insert|]. intros n' np' [H|H%list_elem_of_singleton]%elem_of_app.
      + destruct (decide (n' = n)) as [->|Hne]; [rewrite lookup_insert_eq; eauto|].
        rewrite lookup_insert_ne by congruence. eauto.
      + injection H as -> ->. rewrite lookup_insert_eq. eauto. }
  eapply okspec_weaken; [apply (Hl (tenantPolicies t1) []); done| |done].
  intros w Hw. split; [apply Hw|]. by intros n np ?%elem_of_nil.
Qed.

Lemma ensureApps_spec t1 db :
  ns = tenant_ns t1 →
  okspec (cluster (reading db)) (ensureApps r c t1 ns)
    (λ _, cluster (λ ts os, reading db ts os ∧ policies_up ns t1 os)).
Proof.
  intros Hns. unfold ensureApps.
  pose proof (λ k o ts os, reading_create t1 db k o ts os) as Hc.
  eapply okspec_bind; [apply okspec_keeps; destruct anyAppNeedsOpenFGA; [by eapply keeps_ensureOpenFGA|apply keeps_ret]|intros u].
  eapply okspec_bind; [apply okspec_keeps; apply keeps_do_into|intros org].
  eapply okspec_bind; [apply okspec_keeps; apply keeps_ProjectID|intros pid].
  eapply okspec_bind; [|intros u'; apply ensureNetworkPolicies_spec].
  apply okspec_keeps, keeps_for_each. intros app _. destruct (negb _); [apply keeps_ret|].
  destruct (a_External app); [by eapply keeps_createAppObjects|by eapply keeps_ensureApp].
Qed.

Lemma reconcileOptionalApps_keeps t1 db :
  keeps (cluster (ZS := ZS) (λ ts os, reading db ts os ∧ policies_up ns t1 os)) (reconcileOptionalApps r t1 ns).
Proof.
  apply keeps_reconcileOptionalApps.
  - intros app k ts os Happ Hen Hk [Hr Hp]. split; [apply reading_delete; [by eapply app_keys_kind|done]|].
    intros n np Hin. rewrite lookup_delete_ne; [by eapply Hp|]. intros ->. by eapply app_keys_not_policy.
  - intros o np ru ts os k [Hr Hp] Hk Hb Hi. split; [by apply reading_insert|by apply policies_up_insert].
  - intros o d ct cts env ts os k [Hr Hp] Hk Hb Hi. split; [by apply reading_insert|by apply policies_up_insert].
Qed.

Lemma appsReady_spec t1 J :
  okspec (cluster J) (appsReady t1 ns) (λ b, cluster (λ ts os, J ts os ∧ (b = true → apps_up ns t1 os))).
Proof.
  assert (∀ l, okspec (cluster J) (apps_ready t1 ns l) (λ b, cluster (λ ts os, J ts os ∧ (b = true →
    ∀ app, app ∈ l → enabled t1 app = true → ∃ o d, os !! ("Deployment", ns, a_Name app) = Some o ∧
      ko_Body o = KDeployment d ∧ (1 <= dp_Available d)%Z)))) as H; [|apply H].
  induction l as [|a l IH]; cbn [apps_ready].
  { intros w Hw. split; [done|]. by intros _ app ?%elem_of_nil. }
  destruct (enabled t1 a) eqn:Ea; cbn [negb].
  - eapply triple_try; [apply get_object|]. intros [o|e] w [Hw Ho]; [|by destruct (IsNotFound e)].
    destruct (ko_Body o) as [d| | |] eqn:Eb; try done. destruct (Z.ltb_spec (dp_Available d) 1); [done|].
    pose proof (keeps_apps_ready (λ ts os, J ts os ∧ os !! ("Deployment", ns, a_Name a) = Some o) t1 ns l w (conj Hw Ho)) as Hk.
    specialize (IH w Hw). destruct (apps_ready t1 ns l w) as [[b|e'] w']; [|done].
    destruct IH as [HJ IH], Hk as [_ Hk]. split; [done|]. intros Hb app [->|Happ]%elem_of_cons He; [|by apply IH].
    exists o, d. auto.
  - eapply okspec_weaken; [apply IH|done|]. intros b w [HJ Hb]. split; [done|].
    intros E app [->|Happ]%elem_of_cons He; [congruence|by apply Hb].
Qed.

(** The controller's half that needs the identity provider. *)
Lemma iam_part_spec db :
  ns = tenant_ns t →
  okspec (cluster (reading db))
    (p ← provisionIAM r c t;
     let '(t1, iamReady, requeue) := p in
     (if iamReady && db then ensureApps r c t1 ns ;; reconcileOptionalApps r t1 ns else mret tt) ;; mret p)
    (λ '(t1, iam, q) w, cluster (λ ts os, reading db ts os ∧ (iam && db = true → policies_up ns t os)) w ∧
       (∃ st, t1 = with_status st t) ∧ (0 <= q)%Z).
Proof.
  intros Hns. eapply (okspec_bind _ _ _ (λ p w, cluster (reading db) w ∧ (∃ st, p.1.1 = with_status st t) ∧ (0 <= p.2)%Z)).
  - intros w Hw. pose proof (keeps_provisionIAM (reading db) r c t ns (λ k o ts os, reading_create t db k o ts os) w Hw) as Hk.
    destruct (provisionIAM r c t w) as [[[[t1 b] q]|e] w'] eqn:E; [|done]. split; [done|]. by apply provisionIAM_tenant in E.
  - intros [[t1 iam] q] w (Hw&[st Ht1]&Hq). cbn in Ht1. subst t1. revert w Hw.
    apply (okspec_bind _ _ _ (λ _, cluster (λ ts os, reading db ts os ∧ (iam && db = true → policies_up ns t os)))).
    + destruct (iam && db); [|by intros w Hw].
      eapply okspec_bind; [by apply ensureApps_spec|intros u].
      eapply okspec_weaken; [apply okspec_keeps, reconcileOptionalApps_keeps|done|]. intros _ w [H1 H2]. by split.
    + intros u w Hw. cbn. split; [done|]. split; [by exists st|done].
Qed.
End steps.

(** ** The outcome of a reconcile of a live tenant *)
Definition up (t : Tenant) (os : gmap okey kobj) : Prop :=
  db_up (tenant_ns t) os ∧
  (r_IAM r = true → apps_up (tenant_ns t) t os ∧ policies_up (tenant_ns t) t os).

Definition reported (name : string) (t0 : Tenant) (q : Z) (w : W) : Prop :=
  ∃ t, cp_tenants (w_db w) !! name = Some t ∧ t_Spec t = t_Spec t0 ∧
    ((st_Phase (t_Status t) = TenantReady ∧ up t (cp_objects (w_db w))) ∨
     (st_Phase (t_Status t) = TenantPending ∧ 0 < q)%Z).

Lemma AddFinalizer_spec name t0 :
  okspec (λ w, cp_tenants (w_db w) !! name = Some t0 ∧ t_Name t0 = name ∧ t_Deleting t0 = false)
    (match AddFinalizer t0 with Some t' => t_Update t' | None => mret t0 end)
    (λ t w, cluster (reading name (tenant_ns t) t false) w ∧ t_Spec t = t_Spec t0 ∧ t_Name t = name).
Proof.
  intros w (Ht&Hn&Hd). unfold AddFinalizer. destruct (bool_decide _); [done|].
  destruct (t_Update _ w) as [[t|e] w'] eqn:E; [|done]. cbn.
  apply stmt_cases in E as (_&_&_&[(?&[=]&_)|(a&d&E&Hd'&[[= <-]|[=]])]). unfold cluster. rewrite Hd'. cbn in E.
  rewrite Hn, Ht in E. destruct (bool_decide _); [|done]. rewrite Hd in E. cbn in E. injection E as <- <-. cbn.
  unfold reading. by rewrite Hn, lookup_insert_eq.
Qed.

Lemma report_spec name t t1 db iam apps q :
  t_Name t = name → (∃ st, t1 = with_status st t) → (0 <= q)%Z →
  okspec (cluster (λ ts os, reading name (tenant_ns t) t db ts os ∧ (db && iam && apps = true → up t os)))
    (t_StatusUpdate (final_status t1 db iam apps) ;;
     mret (if db && iam && apps then q else if (q =? 0)%Z then 10%Z else q))
    (reported name t).
Proof.
  intros Hn [st ->] Hq w [[Ht Hdb] Hup]. rewrite run_bind.
  destruct (t_StatusUpdate _ w) as [[u|e] w'] eqn:E; [|done]. cbn.
  apply stmt_cases in E as (_&_&_&[(?&[=]&_)|(a&d&E&Hd'&_)]). cbn in E.
  rewrite Hn, Ht in E. destruct (bool_decide _); [|done]. injection E as _ <-.
  unfold reported. rewrite Hd'. cbn. eexists. rewrite lookup_insert_eq. split; [done|]. split; [done|]. cbn.
  destruct (db && iam && apps) eqn:Eb; [left|right]; (split; [done|]); [by apply Hup|].
  destruct (Z.eqb_spec q 0); lia.
Qed.

Lemma reported_spec name t0 t q w : t_Spec t = t_Spec t0 → reported name t q w → reported name t0 q w.
Proof. intros Hs (t'&Ht&Hs'&H). exists t'. by rewrite Hs', Hs. Qed.

Lemma reconcile_live_spec name t0 :
  okspec (λ w, cp_tenants (w_db w) !! name = Some t0 ∧ t_Name t0 = name ∧ t_Deleting t0 = false)
    (reconcile_live r c t0) (reported name t0).
Proof.
  unfold reconcile_live. eapply okspec_bind; [apply AddFinalizer_spec|]. intros t.
  apply (triple_pure _ (t_Spec t = t_Spec t0 ∧ t_Name t = name)); [naive_solver|]. intros [Hs Hn].
  set (ns := tenant_ns t). set (R := reading name ns t).
  pose proof (λ db k o ts os, reading_create name ns t t db k o ts os) as Hc.
  eapply (okspec_weaken (cluster (R false)) _ _ (reported name t));
    [|by intros w [? _]|intros q w; by apply reported_spec].
  eapply okspec_bind; [apply okspec_keeps; eapply keeps_ensureNamespace; [done|apply Hc]|intros u1].
  eapply okspec_bind; [apply okspec_keeps; eapply keeps_ensureDatabase; [done|apply Hc|]|intros u2].
  { intros o o' ts os k _ _. by apply reading_insert. }
  eapply okspec_bind; [apply databaseReady_spec|intros db].
  eapply (okspec_bind _ _ _ (λ '(t1, iam, q) w, cluster (λ ts os, R db ts os ∧
     (r_IAM r = true → iam && db = true → policies_up ns t os)) w ∧ (∃ st, t1 = with_status st t) ∧ (0 <= q)%Z)).
  { destruct (r_IAM r).
    - eapply okspec_weaken; [by apply iam_part_spec|done|]. intros [[t1 iam] q] w ([HR Hp]&H). split; [|done]. by split.
    - intros w Hw. cbn. split; [by split|]. split; [|lia]. exists (t_Status t). by destruct t. }
  intros [[t1 iam] q]. apply (triple_pure _ ((∃ st, t1 = with_status st t) ∧ (0 <= q)%Z)); [naive_solver|].
  intros [[st Ht1] Hq]. subst t1.
  eapply (okspec_bind _ _ _ (λ apps, cluster (λ ts os, R db ts os ∧ (db && iam && apps = true → up t os)))).
  2: { intros apps. apply report_spec; eauto. }
  destruct (r_IAM r) eqn:Ei; cbn [negb].
  - destruct (iam && db) eqn:Eid.
    + eapply okspec_weaken; [apply (appsReady_spec ns (with_status st t)
        (λ ts os, R db ts os ∧ policies_up ns t os))| |].
      * intros w [[HR Hp] _]. split; [done|]. by apply Hp.
      * intros b w [[[Ht Hdb] Hp] Ha]. split; [by split|]. intros [[Hd _]%andb_true_iff Hb]%andb_true_iff.
        split; [by apply Hdb|]. intros _. split; [by apply Ha|done].
    + intros w [[HR Hp] _]. split; [done|]. rewrite andb_false_r. done.
  - intros w [[HR Hp] _]. split; [done|]. intros [[Hd _]%andb_true_iff _]%andb_true_iff.
    split; [by apply (proj2 HR)|congruence].
Qed.

Lemma reconcile_reports name t0 (w w' : W) q :
  cp_tenants (w_db w) !! name = Some t0 → t_Name t0 = name → t_Deleting t0 = false →
  Reconcile r c name w = (Ok q, w') → reported name t0 q w'.
Proof.
  intros Ht Hn Hd. unfold Reconcile. rewrite run_bind. unfold attempt.
  destruct (t_Get name w) as [g w1] eqn:E. apply stmt_cases in E as (_&_&_&E). rewrite Ht in E.
  destruct E as [(e&->&Hw1&He)|(a&d&[= <- <-]&Hw1&[-> | ->])]; cbn.
  - destruct He as [->|[=]]. done.
  - rewrite Hd. intros Hr. pose proof (reconcile_live_spec name t0 w1) as H. rewrite Hr in H. apply H.
    by rewrite Hw1.
  - done.
Qed.


(** ** Isolation *)
Lemma label_app x : label (app_labels x) name_label = Some x.
Proof. reflexivity. Qed.

Lemma policies_isolate ns t os x np src port :
  policies_ok ns os → policies_up ns t os → ("np-" +:+ x, np) ∈ tenantPolicies t →
  accepts os ns (app_labels x) src port → allowed_source ns x src.
Proof.
  intros Hok Hup Hin [Hnone|(np'&ru&(n&o&Hk&Hb&Hsel)&Hru&Hadm)].
  - exfalso. destruct (Hup _ _ Hin) as [o Hk]. destruct (Hok _ _ Hk) as (y&np'&Hy&Hb&Hp&_).
    apply (inj (String.append "np-")) in Hy as <-. apply (Hnone np'). exists ("np-" +:+ x), o.
    split; [done|]. split; [done|]. rewrite Hp. by apply sel_matches_name, label_app.
  - destruct (Hok _ _ Hk) as (y&np2&->&Hb2&Hp&Hall). rewrite Hb in Hb2. injection Hb2 as <-.
    rewrite Hp in Hsel. apply sel_matches_name in Hsel. rewrite label_app in Hsel. injection Hsel as <-. eauto.
Qed.

(** Without a policy for its name a pod accepts everything: so do the database's pods and
    those of the backup jobs, which the catalog does not name. *)
Lemma unpoliced_open ns os l src port :
  policies_ok ns os → (∀ x, label l name_label = Some x → os !! ("NetworkPolicy", ns, "np-" +:+ x) = None) →
  accepts os ns l src port.
Proof.
  intros Hok Hl. left. intros np (n&o&Ho&Hb&Hsel). destruct (Hok _ _ Ho) as (x&np'&->&Hb'&Hp&_).
  rewrite Hb in Hb'. injection Hb' as <-. rewrite Hp in Hsel. apply sel_matches_name in Hsel.
  by rewrite (Hl x Hsel) in Ho.
Qed.

(** The network policies of namespace [ns] are the controller's: there were none to begin
    with, and since then only reconciles, of any tenants, under any configuration and with
    any failures, wrote there, while the rest of the cluster changed as it liked. *)
Inductive policed (ns : string) : W → Prop :=
  | policed_start w : (∀ n, cp_objects (w_db w) !! ("NetworkPolicy", ns, n) = None) → policed ns w
  | policed_env w w' :
      policed ns w →
      (∀ n, cp_objects (w_db w') !! ("NetworkPolicy", ns, n) = cp_objects (w_db w) !! ("NetworkPolicy", ns, n)) →
      policed ns w'
  | policed_reconcile w r' c' name t :
      policed ns w → cp_tenants (w_db w) !! name = Some t → t_Name t = name → policed ns (Reconcile r' c' name w).2.

Lemma policed_ok ns (w : W) : policed ns w → policies_ok ns (cp_objects (w_db w)).
Proof.
  induction 1 as [w H|w w' _ IH H|w r' c' name t _ IH Ht Hn]; intros n o.
  - by rewrite H.
  - rewrite H. apply IH.
  - destruct (decide (ns = tenant_ns t)) as [->|Hne].
    + assert (policies_ok ("tenant-" +:+ ts_Slug (t_Spec t)) (cp_objects (w_db (Reconcile r' c' name w).2))) as H; [|apply H].
      apply (keeps_policies r' c' name (t_Spec t) w). split; [|exact IH]. intros t'. rewrite Ht. intros [= <-]. by split.
    + destruct (reconcile_frame r' c' name t w Ht Hn) as (_&H&_). rewrite H; [apply IH|].
      intros [Hk|[[=]|[=]]]. by apply Hne.
Qed.

End ready.
