(* ===== verification/Offboarding.v ===== *)
(** * Offboarding: deleting a tenant
    (control-plane/internal/controller/tenant_controller.go: Reconcile, deleteInstance)

    The finalizer keeps a deleted tenant until its identity-provider instance, which
    holds personal data outside the cluster, is gone. *)

From S2P Require Import Prelude GoText Ids World Authz Http Json Cluster Zitadel Naming Catalog Provision TenantController ControllerFrame.

(** ** How calls consume the fault script *)
Section faults.
Context {D : Type}.
Abbreviation W := (world D).

Definition pop (w : W) : W := World (w_db w) (w_blobs w) (w_fga w) (w_now w) (w_draws w) (tail (w_faults w)).

Lemma run_call {A} (m : M W A) w :
  call m w = match head (w_faults w) with
             | None | Some FOk => m (pop w)
             | Some FFail => (Err ErrExternal, pop w)
             | Some FLost => (Err ErrExternal, (m (pop w)).2)
             end.
Proof.
  unfold call. rewrite run_bind. unfold next_fault, pop. destruct w as [d b f n dr [|[] fs]]; try done.
Qed.
End faults.

Section offboarding.
Context {ZS : Type} {Zd : ZitadelServer ZS} {Pl : Platform}.
Context (r : Reconciler) (c : ZClient).
Abbreviation W := (world (CP ZS)).

(** ** The provider

    The live instances of a state of the provider, each with its issuer URL, and those
    that have come up, which is a little later.  A deletion that is acknowledged deletes;
    one answered with 404 changes nothing (the instance may exist and not be visible yet);
    an instance that has come up answers its discovery document. *)
Context (instances : ZS → gmap string string) (serving : ZS → gset string).
Hypothesis delete_acknowledged : ∀ i t z st b z',
  z_http "DELETE" (zc_BaseURL c +:+ "/system/v1/instances/" +:+ i) "" None t z = ((st, b), z') →
  (st < 300)%Z → instances z' !! i = None.
Hypothesis delete_unseen : ∀ i t z b z',
  z_http "DELETE" (zc_BaseURL c +:+ "/system/v1/instances/" +:+ i) "" None t z = ((404%Z, b), z') →
  instances z' = instances z ∧ serving z' = serving z.
Hypothesis serving_answers : ∀ i u t z,
  instances z !! i = Some u → i ∈ serving z → (z_get (u +:+ "/.well-known/openid-configuration") None t z).1 = 200%Z.

Definition zinstances (w : W) : gmap string string := instances (cp_zitadel (w_db w)).
Definition zserving (w : W) : gset string := serving (cp_zitadel (w_db w)).

(** One call to the provider: its answer, or a failure. *)
Lemma send_outcome m url org body (w : W) g w' :
  send m url org body w = (g, w') →
  cp_tenants (w_db w') = cp_tenants (w_db w) ∧ w_faults w' = tail (w_faults w) ∧
  (g = Err ErrExternal ∨
   ∃ x, g = Ok x ∧ z_http m url org body (w_now w) (cp_zitadel (w_db w)) = (x, cp_zitadel (w_db w'))).
Proof.
  unfold send. rewrite run_call. cbn.
  destruct (z_http _ _ _ _ _ _) as [x z] eqn:E. destruct (head (w_faults w)) as [[]|]; cbn; intros [= <- <-]; cbn;
    (split; [done|]); (split; [done|]); eauto.
Qed.

(** What one DELETE tells: deleted, not seen, or an error. *)
Lemma DeleteInstance_outcome i (w : W) g w' :
  DeleteInstance c i w = (g, w') →
  cp_tenants (w_db w') = cp_tenants (w_db w) ∧ w_faults w' = tail (w_faults w) ∧
  match g with
  | Ok _ => zinstances w' !! i = None
  | Err e => errors_is e ErrIam404 = true → zinstances w' = zinstances w ∧ zserving w' = zserving w
  end.
Proof.
  unfold DeleteInstance, do_unit, do. rewrite !run_bind.
  destruct (send _ _ _ _ w) as [x w1] eqn:E. apply send_outcome in E as (Ht&Hf&[->|([st b]&->&Hz)]); cbn.
  { by intros [= <- <-]. }
  destruct (Z.eqb_spec st 404) as [->|Hst].
  { intros [= <- <-]. split; [done|]. split; [done|]. intros _. by eapply delete_unseen. }
  destruct (Z.leb_spec 300 st); intros [= <- <-]; (split; [done|]); (split; [done|]); [done|].
  by eapply delete_acknowledged.
Qed.

(** With the probe not cut off, a verdict that the instance is gone is right. *)
Lemma deleteInstance_verdict t i (w : W) w' :
  st_InstanceID (t_Status t) = i → i ≠ "" →
  (∀ u, zinstances w !! i = Some u → u = tenantIssuer r t ∧ i ∈ zserving w) →
  w_faults w !! 1 = None ∨ w_faults w !! 1 = Some FOk →
  deleteInstance r c t w = (Ok true, w') → zinstances w' !! i = None.
Proof.
  intros Hi Hne Hu Hf. unfold deleteInstance. rewrite bool_decide_eq_false_2 by congruence. rewrite Hi.
  rewrite run_bind. unfold attempt. destruct (DeleteInstance c i w) as [g w1] eqn:E.
  apply DeleteInstance_outcome in E as (_&Hf1&Hg). destruct g as [u|e]; [by intros [= <-]|].
  destruct (errors_is e ErrIam404) eqn:Ee; [|done]. specialize (Hg eq_refl) as [Hg Hup].
  unfold DiscoveryAlive. rewrite !run_bind. unfold attempt. rewrite run_call, Hf1.
  assert (head (tail (w_faults w)) = None ∨ head (tail (w_faults w)) = Some FOk) as Hh.
  { destruct (w_faults w) as [|x [|y l]]; cbn in *; [by left|by left|]. destruct Hf as [[=]|[= ->]]. by right. }
  cbn.
  destruct Hh as [-> | ->]; cbn; intros [= Halive <-].
  all: destruct (zinstances w1 !! i) as [u|] eqn:Eu; [|by unfold zinstances in *; cbn].
  all: rewrite Hg in Eu; destruct (Hu u Eu) as [-> Hs]; unfold zinstances, zserving in *.
  all: rewrite <- Hg in Eu; rewrite <- Hup in Hs; rewrite (serving_answers i _ _ _ Eu Hs) in Halive; done.
Qed.

End offboarding.

(** ** A provider with projection lag *)
Module OffboardDemo.

(** The live instances, those that have come up, and whether the system API sees them yet. *)
Record lagging := MkLagging { lg_instances : gmap string string; lg_serving : gset string; lg_visible : bool }.

Definition base : string := "https://iam.peristera.app".
Definition empty_answer : Z * option json := (200%Z, Some (JObj [("result", JArr [])])).

Definition lag_http (method url org : string) (body : option json) (t : Z) (z : lagging) : (Z * option json) * lagging :=
  if bool_decide (method = "DELETE") then
    match trim_prefix url (base +:+ "/system/v1/instances/") with
    | Some i =>
        if lg_visible z && bool_decide (is_Some (lg_instances z !! i))
        then ((200%Z, Some (JObj [])), MkLagging (delete i (lg_instances z)) (lg_serving z) true)
        else ((404%Z, None), z)
    | None => ((404%Z, None), z)
    end
  else (empty_answer, z).

Definition lag_get (url : string) (tok : option string) (t : Z) (z : lagging) : Z * option json :=
  if bool_decide (Exists (λ p, p.2 +:+ "/.well-known/openid-configuration" = url ∧ p.1 ∈ lg_serving z) (map_to_list (lg_instances z)))
  then (200%Z, None) else (502%Z, None).

#[export] Instance lagging_server : ZitadelServer lagging := {| z_http := lag_http; z_get := lag_get |}.

Definition zc : ZClient := MkZClient base false.
Definition cfg : Reconciler :=
  MkReconciler true "peristera.app" "443" "" "" "https" "" "" "iam.peristera.app" "" "" "" "" "" "" "".
Definition acme (id : string) : Tenant :=
  MkTenant "acme" 1 1 true [finalizer] (MkTenantSpec "acme" "" "" [])
    (MkTenantStatus "Ready" id "https://acme.peristera.app" "c1" []).
Definition world_in (id : string) (up : gset string) (visible : bool) (fs : list fault) : world (CP lagging) :=
  World (MkCP {["acme" := acme id]} ∅ (MkLagging {["i1" := "https://acme.peristera.app"]} up visible) []) ∅ ∅ 0 0 fs.
Definition world_with (id : string) := world_in id {["i1"]}.

Definition off (w : world (CP lagging)) := Reconcile (Pl := counting_platform) cfg zc "acme" w.

Lemma lag_delete i t z st b z' :
  lag_http "DELETE" (base +:+ "/system/v1/instances/" +:+ i) "" None t z = ((st, b), z') →
  ((st < 300)%Z → lg_instances z' !! i = None) ∧ (st = 404%Z → lg_instances z' = lg_instances z ∧ lg_serving z' = lg_serving z).
Proof.
  unfold lag_http. rewrite bool_decide_eq_true_2 by done.
  change (base +:+ "/system/v1/instances/" +:+ i) with ((base +:+ "/system/v1/instances/") +:+ i).
  rewrite trim_prefix_app.
  destruct (_ && _); intros [= <- <- <-]; cbn; (split; [|done]); [by rewrite lookup_delete_eq|lia].
Qed.

Lemma lag_serves i u t z :
  lg_instances z !! i = Some u → i ∈ lg_serving z → (lag_get (u +:+ "/.well-known/openid-configuration") None t z).1 = 200%Z.
Proof.
  intros H Hs. unfold lag_get. rewrite bool_decide_eq_true_2; [done|]. apply Exists_exists.
  exists (i, u). split; [by apply elem_of_map_to_list|done].
Qed.


(** An instance the system API does not see yet keeps the tenant, through discovery. *)
Example unseen_instance_holds :
  cp_tenants (w_db (off (world_with "i1" false [])).2) !! "acme" = Some (acme "i1") ∧
  (off (world_with "i1" false [])).1 = Ok 5%Z.
Proof. vm_compute. auto. Qed.

(** Three ways to lose it: the instance is fresh and serves nothing yet, the discovery
    probe is cut off, and the id was never recorded (then the search that does not see the
    instance counts as its absence). *)
Example fresh_instance_leaks :
  let w := (off (world_in "i1" ∅ false [])).2 in
  cp_tenants (w_db w) !! "acme" = None ∧ zinstances lg_instances w !! "i1" = Some "https://acme.peristera.app".
Proof. vm_compute. auto. Qed.

Example probe_cut_off_leaks :
  let w := (off (world_with "i1" false [FOk; FOk; FFail])).2 in
  cp_tenants (w_db w) !! "acme" = None ∧ zinstances lg_instances w !! "i1" = Some "https://acme.peristera.app".
Proof. vm_compute. auto. Qed.

Example unrecorded_instance_leaks :
  let w := (off (world_with "" false [])).2 in
  cp_tenants (w_db w) !! "acme" = None ∧ zinstances lg_instances w !! "i1" = Some "https://acme.peristera.app".
Proof. vm_compute. auto. Qed.
End OffboardDemo.
