(* ===== verification/Converge.v ===== *)
(** * Converge: toggling an optional app
    (control-plane/internal/controller/optional_apps.go)

    What reconcileOptionalApps computes, as a function of the stored objects; it is
    reached in one run, and a second run writes nothing, as the log of accepted writes
    shows. *)

From S2P Require Import Prelude GoText Ids World Http Json Cluster Zitadel Naming Catalog Provision TenantController ControllerFrame ControllerSafety.

(** ** The goal state *)
Section goal.
Context (r : Reconciler) (t : Tenant) (ns : string).

Definition with_callers (o : kobj) (np : NetworkPolicy) (ru : Rule) : kobj :=
  MkObj (ko_Owner o) (ko_Labels o) (KNetworkPolicy (MkNetworkPolicy (np_Pods np)
    [MkRule (ingressPeers (enabledCallersOf t "kamara")) (ru_Ports ru)] (np_Egress np))).

Definition with_env (o : kobj) (d : Deployment) (ct : Container) (cts : list Container) (env : list EnvVar) : kobj :=
  MkObj (ko_Owner o) (ko_Labels o) (KDeployment (MkDeployment (dp_Labels d)
    (MkContainer (c_Name ct) (c_Image ct) env (c_Rest ct) :: cts) (dp_Rest d) (dp_Available d))).

(** Kamara's policy with the callers the tenant has enabled. *)
Definition fix_policy (o : kobj) : kobj :=
  match ko_Body o with
  | KNetworkPolicy np =>
      match np_Ingress np with
      | [ru] => if equalStringSet (callerNames (ru_Peers ru)) (enabledCallersOf t "kamara") then o else with_callers o np ru
      | _ => o
      end
  | _ => o
  end.

(** Kamara's Deployment with the office variables the tenant needs. *)
Definition fix_deployment (o : kobj) : kobj :=
  match ko_Body o with
  | KDeployment d =>
      match dp_Containers d with
      | [] => o
      | ct :: cts =>
          let desired := withoutOfficeEnv (c_Env ct) ++ officeEnv r t ns in
          if equalEnv (c_Env ct) desired then o else with_env o d ct cts desired
      end
  | _ => o
  end.

Definition gone_keys : list okey := filter (λ a, enabled t a = false) catalog ≫= λ a, app_keys ns (a_Name a).

Definition drop_keys (l : list okey) (os : gmap okey kobj) : gmap okey kobj := foldl (λ m k, delete k m) os l.

Definition policy_key : okey := ("NetworkPolicy", ns, "np-kamara").
Definition deployment_key : okey := ("Deployment", ns, "kamara").

Definition converged (os : gmap okey kobj) : gmap okey kobj :=
  alter fix_deployment deployment_key (alter fix_policy policy_key (drop_keys gone_keys os)).

(** Objects have the body of their kind, as the API server guarantees. *)
Definition typed (os : gmap okey kobj) : Prop :=
  (∀ o, os !! policy_key = Some o → ∃ np, ko_Body o = KNetworkPolicy np) ∧
  (∀ o, os !! deployment_key = Some o → ∃ d, ko_Body o = KDeployment d).

(** ** Properties of the goal *)
Lemma lookup_drop_keys l os k : drop_keys l os !! k = if bool_decide (k ∈ l) then None else os !! k.
Proof.
  revert os. induction l as [|x l IH]; intros os; [done|]. cbn [drop_keys foldl].
  change (drop_keys l (delete x os) !! k = if bool_decide (k ∈ x :: l) then None else os !! k). rewrite IH.
  destruct (decide (k = x)) as [->|Hne].
  - rewrite lookup_delete_eq, (bool_decide_eq_true_2 (x ∈ x :: l)) by left. by case_bool_decide.
  - rewrite lookup_delete_ne by done. by rewrite (bool_decide_ext (k ∈ x :: l) (k ∈ l)) by (rewrite elem_of_cons; naive_solver).
Qed.

Lemma equalStringSet_spec a b :
  equalStringSet a b = true ↔ (list_to_set a : gset string) = list_to_set b.
Proof.
  unfold equalStringSet. rewrite andb_true_iff, !bool_decide_eq_true. split.
  - intros [Hs Hsub]. apply set_subseteq_size_eq; [|lia]. intros x Hx. by apply Hsub.
  - intros ->. split; [done|]. by intros x Hx.
Qed.

Lemma enabledCallersOf_nonempty n : n ∈ enabledCallersOf t "kamara" → n ≠ "".
Proof.
  intros H%enabledCallersOf_callersOf. change (callersOf "kamara") with ["ergonomos"; "office"] in H.
  by apply list_elem_of_In in H as [<-|[<-|[]]].
Qed.

Lemma callerNames_ingressPeers l : (∀ n, n ∈ l → n ≠ "") → callerNames (ingressPeers l) = l.
Proof.
  intros H. unfold callerNames, ingressPeers. rewrite bind_cons. cbn [traefikPeer pe_Namespace app].
  induction l as [|n l IH]; [done|]. rewrite fmap_cons, bind_cons. cbn [pe_Namespace pe_Pod nameSelector sel_Labels].
  assert (label [(name_label, n)] name_label = Some n) as -> by reflexivity. cbn [default from_option]. cbv zeta.
  rewrite bool_decide_eq_false_2 by (apply H; left). cbn [app].
  f_equal. apply IH. intros m Hm. apply H. by right.
Qed.

Lemma withoutOfficeEnv_office : withoutOfficeEnv (officeEnv r t ns) = [].
Proof. unfold officeEnv. by destruct (negb _). Qed.

Lemma withoutOfficeEnv_idem env : withoutOfficeEnv (withoutOfficeEnv env) = withoutOfficeEnv env.
Proof.
  unfold withoutOfficeEnv. rewrite list_filter_filter. apply list_filter_iff. naive_solver.
Qed.

Lemma equalEnv_refl env : equalEnv env env = true.
Proof. induction env as [|e env IH]; [done|]. cbn. by rewrite !bool_decide_eq_true_2, IH. Qed.

(** The variables that are set are those of the office app, whoever else's they
    follow. *)
Lemma desired_stable env :
  let desired := withoutOfficeEnv env ++ officeEnv r t ns in
  withoutOfficeEnv desired ++ officeEnv r t ns = desired.
Proof.
  cbv zeta. unfold withoutOfficeEnv at 1. rewrite filter_app.
  change (filter _ (officeEnv r t ns)) with (withoutOfficeEnv (officeEnv r t ns)).
  change (filter _ (withoutOfficeEnv env)) with (withoutOfficeEnv (withoutOfficeEnv env)).
  by rewrite withoutOfficeEnv_office, withoutOfficeEnv_idem, app_nil_r.
Qed.

Lemma fix_policy_idem o : fix_policy (fix_policy o) = fix_policy o.
Proof.
  unfold fix_policy at 2. destruct (ko_Body o) as [|np| |] eqn:Eb; try by (unfold fix_policy; rewrite Eb).
  destruct (np_Ingress np) as [|ru [|]] eqn:Ei; try by (unfold fix_policy; rewrite Eb, Ei).
  destruct (equalStringSet _ _) eqn:Es; [done|]. unfold fix_policy at 1. cbn [with_callers ko_Body np_Ingress ru_Peers].
  rewrite callerNames_ingressPeers by apply enabledCallersOf_nonempty.
  assert (equalStringSet (enabledCallersOf t "kamara") (enabledCallersOf t "kamara") = true) as ->; [|].
  { by apply equalStringSet_spec. }
  unfold fix_policy. by rewrite Eb, Ei, Es.
Qed.

Lemma fix_deployment_idem o : fix_deployment (fix_deployment o) = fix_deployment o.
Proof.
  unfold fix_deployment at 2. destruct (ko_Body o) as [d| | |] eqn:Eb; try by (unfold fix_deployment; rewrite Eb).
  destruct (dp_Containers d) as [|ct cts] eqn:Ei; [by (unfold fix_deployment; rewrite Eb, Ei)|]. cbv zeta.
  destruct (equalEnv _ _) eqn:Es; [done|]. unfold fix_deployment at 1.
  cbn [with_env ko_Body dp_Containers c_Env]. rewrite desired_stable, equalEnv_refl.
  unfold fix_deployment. by rewrite Eb, Ei, Es.
Qed.

(** No step of the reconcile has anything to do. *)
Definition converged_already (os : gmap okey kobj) : Prop :=
  drop_keys gone_keys os = os ∧ alter fix_policy policy_key os = os ∧ alter fix_deployment deployment_key os = os.

Lemma converged_settled os : converged_already (converged os).
Proof.
  assert (∀ k, converged os !! k = if bool_decide (k = deployment_key) then fix_deployment <$> drop_keys gone_keys os !! k
    else if bool_decide (k = policy_key) then fix_policy <$> drop_keys gone_keys os !! k else drop_keys gone_keys os !! k) as Hl.
  { intros k. unfold converged. case_bool_decide as Hd; [subst k; by rewrite lookup_alter_eq, lookup_alter_ne|].
    rewrite lookup_alter_ne by done. case_bool_decide; [subst k; by rewrite lookup_alter_eq|]. by rewrite lookup_alter_ne. }
  split_and!.
  - apply map_eq. intros k. rewrite lookup_drop_keys. case_bool_decide as Hk; [|done].
    rewrite Hl, lookup_drop_keys, (bool_decide_eq_true_2 (k ∈ _)) by done. by repeat case_bool_decide.
  - apply alter_id. intros o. rewrite Hl. rewrite bool_decide_eq_false_2, bool_decide_eq_true_2 by done.
    intros (o'&_&->)%fmap_Some. apply fix_policy_idem.
  - apply alter_id. intros o. rewrite Hl. rewrite bool_decide_eq_true_2 by done.
    intros (o'&_&->)%fmap_Some. apply fix_deployment_idem.
Qed.

(** Name and value, what equalEnv compares. *)
Definition name_value (e : EnvVar) : string * string := (e_Name e, e_Value e).

Lemma equalEnv_spec a b : equalEnv a b = true → name_value <$> a = name_value <$> b.
Proof.
  revert b. induction a as [|x a IH]; intros [|y b]; try done. cbn.
  rewrite !andb_true_iff, !bool_decide_eq_true. intros [[H1 H2] H3]. unfold name_value at 1 3. by rewrite H1, H2, (IH b).
Qed.

(** The office variables of an environment. *)
Definition office_vars (env : list EnvVar) : list (string * string) := name_value <$> filter (λ e, is_office_var e = true) env.

Lemma office_vars_of_pairs a b : name_value <$> a = name_value <$> b → office_vars a = office_vars b.
Proof.
  revert b. induction a as [|x a IH]; intros [|y b]; try done. intros [= Hn Hv Hab]. unfold office_vars.
  assert (is_office_var x = is_office_var y) as E by (unfold is_office_var; by rewrite Hn).
  specialize (IH b Hab). unfold office_vars in IH.
  destruct (is_office_var x) eqn:Ex.
  - rewrite !filter_cons_True by done. cbn. unfold name_value at 1 3. by rewrite Hn, Hv, IH.
  - by rewrite !filter_cons_False by congruence.
Qed.

Lemma office_vars_desired env : office_vars (withoutOfficeEnv env ++ officeEnv r t ns) = name_value <$> officeEnv r t ns.
Proof.
  unfold office_vars. rewrite filter_app, fmap_app.
  assert (filter (λ e, is_office_var e = true) (withoutOfficeEnv env) = []) as ->.
  { unfold withoutOfficeEnv. rewrite list_filter_filter. induction env as [|e env IH]; [done|].
    rewrite filter_cons_False; [done|]. intros [H1 H2]. congruence. }
  unfold officeEnv. by destruct (negb _).
Qed.

Lemma fix_policy_typed o : (∃ np, ko_Body o = KNetworkPolicy np) → ∃ np, ko_Body (fix_policy o) = KNetworkPolicy np.
Proof.
  intros [np H]. unfold fix_policy. rewrite H. destruct (np_Ingress np) as [|ru [|]]; eauto.
  destruct (equalStringSet _ _); eauto.
Qed.

Lemma fix_deployment_typed o : (∃ d, ko_Body o = KDeployment d) → ∃ d, ko_Body (fix_deployment o) = KDeployment d.
Proof.
  intros [d H]. unfold fix_deployment. rewrite H. destruct (dp_Containers d); eauto. cbv zeta.
  destruct (equalEnv _ _); eauto.
Qed.

Lemma lookup_converged_policy os :
  converged os !! policy_key = fix_policy <$> drop_keys gone_keys os !! policy_key.
Proof. unfold converged. by rewrite lookup_alter_ne, lookup_alter_eq. Qed.
Lemma lookup_converged_deployment os :
  converged os !! deployment_key = fix_deployment <$> drop_keys gone_keys os !! deployment_key.
Proof. unfold converged. by rewrite lookup_alter_eq, lookup_alter_ne. Qed.

Lemma drop_keys_Some (l : list okey) (os : gmap okey kobj) (k : okey) (o : kobj) : drop_keys l os !! k = Some o → os !! k = Some o.
Proof. rewrite lookup_drop_keys. by case_bool_decide. Qed.

Lemma typed_drop os : typed os → typed (drop_keys gone_keys os).
Proof. intros [H1 H2]. split; intros o Ho%drop_keys_Some; eauto. Qed.

Lemma typed_converged os : typed os → typed (converged os).
Proof.
  intros [H1 H2]%typed_drop. split; intros o.
  - rewrite lookup_converged_policy. intros (o'&Ho'&->)%fmap_Some. by apply fix_policy_typed, H1.
  - rewrite lookup_converged_deployment. intros (o'&Ho'&->)%fmap_Some. by apply fix_deployment_typed, H2.
Qed.

(** What the goal state says. *)
Lemma converged_callers os o np ru n :
  converged os !! policy_key = Some o → ko_Body o = KNetworkPolicy np → np_Ingress np = [ru] →
  n ∈ callerNames (ru_Peers ru) ↔ n ∈ enabledCallersOf t "kamara".
Proof.
  rewrite lookup_converged_policy. intros (o'&_&->)%fmap_Some. rewrite <- fix_policy_idem. unfold fix_policy at 1.
  destruct (ko_Body (fix_policy o')) as [|np'| |] eqn:Eb; try congruence.
  destruct (np_Ingress np') as [|ru' [|]] eqn:Ei; try congruence.
  destruct (equalStringSet _ _) eqn:Es.
  - rewrite Eb. intros [= <-]. rewrite Ei. intros [= <-]. apply equalStringSet_spec in Es.
    rewrite <- !(elem_of_list_to_set (C := gset string)). by rewrite Es.
  - cbn. intros [= <-]. cbn. intros [= <-]. cbn [ru_Peers]. by rewrite callerNames_ingressPeers by apply enabledCallersOf_nonempty.
Qed.

Lemma converged_env os o d ct cts :
  converged os !! deployment_key = Some o → ko_Body o = KDeployment d → dp_Containers d = ct :: cts →
  office_vars (c_Env ct) = name_value <$> officeEnv r t ns.
Proof.
  rewrite lookup_converged_deployment. intros (o'&_&->)%fmap_Some. rewrite <- fix_deployment_idem. unfold fix_deployment at 1.
  destruct (ko_Body (fix_deployment o')) as [d'| | |] eqn:Eb; try congruence.
  destruct (dp_Containers d') as [|ct' cts'] eqn:Ei; [congruence|]. cbv zeta.
  destruct (equalEnv _ _) eqn:Es.
  - rewrite Eb. intros [= <-]. rewrite Ei. intros [= <- <-]. apply equalEnv_spec, office_vars_of_pairs in Es.
    by rewrite Es, office_vars_desired.
  - cbn. intros [= <-]. cbn. intros [= <- <-]. cbn [c_Env]. apply office_vars_desired.
Qed.

Lemma converged_gone os app k :
  app ∈ catalog → enabled t app = false → k ∈ app_keys ns (a_Name app) → k ≠ policy_key → k ≠ deployment_key →
  converged os !! k = None.
Proof.
  intros Happ Hen Hk H1 H2. unfold converged. rewrite !lookup_alter_ne, lookup_drop_keys by done.
  rewrite bool_decide_eq_true_2; [done|]. apply list_elem_of_bind. exists app. split; [done|].
  by apply list_elem_of_filter.
Qed.

Lemma converged_other os k :
  k ∉ gone_keys → k ≠ policy_key → k ≠ deployment_key → converged os !! k = os !! k.
Proof.
  intros Hk H1 H2. unfold converged. rewrite !lookup_alter_ne, lookup_drop_keys by done. by rewrite bool_decide_eq_false_2.
Qed.
End goal.

(** ** Reaching it *)
Section run.
Context {ZS : Type} {Zd : ZitadelServer ZS} {Pl : Platform}.
Context (r : Reconciler) (t : Tenant) (ns : string).
Abbreviation W := (world (CP ZS)).

Definition on_objects (f : gmap okey kobj → gmap okey kobj) (w : W) : W :=
  set_db (with_kobjects (f (cp_objects (w_db w))) (w_db w)) w.

(** The objects become [f] of what they were, by writes of [ks]. *)
Definition wrote (f : gmap okey kobj → gmap okey kobj) (ks : list okey) (w : W) : W :=
  set_db (MkCP (cp_tenants (w_db w)) (f (cp_objects (w_db w))) (cp_zitadel (w_db w)) (ks ++ cp_writes (w_db w))) w.

Lemma wrote_id f (w : W) : f (cp_objects (w_db w)) = cp_objects (w_db w) → wrote f [] w = w.
Proof. unfold wrote. intros ->. by destruct w as [[? ? ? ?] ? ? ? ? ?]. Qed.

(** [m] makes [f] of the objects, and writes only where that changes something. *)
Definition makes (f : gmap okey kobj → gmap okey kobj) (m : M W unit) (w : W) : Prop :=
  ∃ ks, m w = (Ok tt, wrote f ks w) ∧ (f (cp_objects (w_db w)) = cp_objects (w_db w) → ks = []).

Lemma makes_id f (m : M W unit) (w : W) :
  m w = (Ok tt, w) → f (cp_objects (w_db w)) = cp_objects (w_db w) → makes f m w.
Proof. intros Hm Hf. exists []. split; [|done]. by rewrite wrote_id. Qed.

(** Where nothing is to be done, nothing is written. *)
Lemma makes_stays f (m : M W unit) (w : W) :
  makes f m w → f (cp_objects (w_db w)) = cp_objects (w_db w) → m w = (Ok tt, w).
Proof. intros (ks&->&Hks) Hf. by rewrite Hks, wrote_id. Qed.

Lemma makes_runs f (m : M W unit) (w : W) : makes f m w → ∃ ks, m w = (Ok tt, wrote f ks w).
Proof. intros (ks&?&_). by exists ks. Qed.

Lemma run_k_Get k (w : W) :
  w_faults w = [] →
  k_Get k w = (match cp_objects (w_db w) !! k with Some o => Ok o | None => Err ErrK8sNotFound end, w).
Proof.
  intros Hf. unfold k_Get, stmt. rewrite run_call_nil by done. destruct (cp_objects (w_db w) !! k); [|done].
  by rewrite set_db_id.
Qed.

Lemma run_k_Update k o (w : W) :
  w_faults w = [] → is_Some (cp_objects (w_db w) !! k) → k_Update k o w = (Ok tt, wrote (<[k := o]>) [k] w).
Proof. intros Hf [x Hx]. unfold k_Update, stmt. rewrite run_call_nil by done. by rewrite Hx. Qed.

Lemma run_delete_if_present k (w : W) : w_faults w = [] → makes (delete k) (delete_if_present k) w.
Proof.
  intros Hf. unfold makes, delete_if_present. setoid_rewrite run_bind. unfold attempt, k_Delete, stmt. rewrite run_call_nil by done.
  destruct (cp_objects (w_db w) !! k) eqn:E.
  - exists [k]. split; [done|]. intros H. rewrite <- H, lookup_delete_eq in E. done.
  - exists []. split; [|done]. cbn. rewrite wrote_id; [done|]. by apply delete_id.
Qed.

Lemma drop_keys_app l k os : drop_keys (l ++ k) os = drop_keys k (drop_keys l os).
Proof. unfold drop_keys. by rewrite foldl_app. Qed.

(** What is dropped is gone; so dropping it all changes nothing only if none was there. *)
Lemma drop_keys_same l os : drop_keys l os = os → ∀ k, k ∈ l → os !! k = None.
Proof. intros H k Hk. rewrite <- H, lookup_drop_keys. by rewrite bool_decide_eq_true_2. Qed.

Lemma drop_keys_absent l os : (∀ k, k ∈ l → os !! k = None) → drop_keys l os = os.
Proof. intros H. apply map_eq. intros k. rewrite lookup_drop_keys. case_bool_decide; [|done]. by rewrite H. Qed.

Lemma makes_drop l k (m m' : M W unit) (w : W) :
  makes (drop_keys l) m w → (∀ ks, makes (drop_keys k) m' (wrote (drop_keys l) ks w)) → makes (drop_keys (l ++ k)) (m ;; m') w.
Proof.
  intros (ks&Hm&Hks) Hm'. destruct (Hm' ks) as (ks'&Hm2&Hks'). exists (ks' ++ ks). rewrite (run_bind_ok _ _ _ _ _ Hm), Hm2. split.
  - unfold wrote. cbn. by rewrite drop_keys_app, app_assoc.
  - intros H. pose proof (drop_keys_same _ _ H) as Hn.
    assert (drop_keys l (cp_objects (w_db w)) = cp_objects (w_db w)) as Hl
      by (apply drop_keys_absent; intros x Hx; apply Hn, elem_of_app; by left).
    rewrite (Hks Hl), Hks'; [done|]. cbn. rewrite Hl. apply drop_keys_absent. intros x Hx. apply Hn, elem_of_app. by right.
Qed.

Lemma run_deletes l (w : W) : w_faults w = [] → makes (drop_keys l) (for_each l delete_if_present) w.
Proof.
  revert w. induction l as [|k l IH]; intros w Hf; cbn [for_each]; [by apply makes_id|].
  apply (makes_drop [k] l); [by apply run_delete_if_present|]. intros ks. by apply IH.
Qed.

Lemma run_teardown (w : W) :
  w_faults w = [] →
  makes (drop_keys (gone_keys t ns))
    (for_each catalog (λ app, if negb (a_Optional app) || tenantEnables t (a_Name app) then mret tt
                              else teardownApp ns (a_Name app))) w.
Proof.
  unfold gone_keys. revert w. induction catalog as [|a l IH]; intros w Hf; cbn [for_each]; [by apply makes_id|].
  assert (negb (a_Optional a) || tenantEnables t (a_Name a) = enabled t a) as ->
    by (unfold enabled; by destruct (a_Optional a), (tenantEnables t (a_Name a))).
  destruct (enabled t a) eqn:Ea.
  - rewrite filter_cons_False by (by rewrite Ea). match goal with |- makes (drop_keys ?l) _ _ => apply (makes_drop [] l) end; [by apply makes_id|]. intros ks. by apply IH.
  - rewrite filter_cons_True, bind_cons by done. apply makes_drop; [by apply run_deletes|]. intros ks. by apply IH.
Qed.

(** An update of one object, where it is needed. *)
Lemma makes_update (g : kobj → kobj) k o (w : W) :
  w_faults w = [] → cp_objects (w_db w) !! k = Some o → g o ≠ o → makes (alter g k) (k_Update k (g o)) w.
Proof.
  intros Hf Ho Hne. exists [k]. split.
  - rewrite run_k_Update by (done || by rewrite Ho). f_equal. unfold wrote. do 2 f_equal. apply map_eq. intros k'.
    destruct (decide (k' = k)) as [->|Hk]; [by rewrite lookup_insert_eq, lookup_alter_eq, Ho|].
    by rewrite lookup_insert_ne, lookup_alter_ne.
  - intros H. exfalso. apply Hne. apply (f_equal (.!! k)) in H. rewrite lookup_alter_eq, Ho in H. by injection H.
Qed.

Lemma makes_alter_id (g : kobj → kobj) k (m : M W unit) (w : W) :
  m w = (Ok tt, w) → (∀ o, cp_objects (w_db w) !! k = Some o → g o = o) → makes (alter g k) m w.
Proof. intros Hm Hg. apply makes_id; [done|]. by apply alter_id. Qed.

(** A policy that is rewritten did not admit the right callers, so it changes. *)
Lemma with_callers_new o np ru :
  ko_Body o = KNetworkPolicy np → np_Ingress np = [ru] →
  equalStringSet (callerNames (ru_Peers ru)) (enabledCallersOf t "kamara") = false → with_callers t o np ru ≠ o.
Proof.
  intros Hb Hi Hs H. rewrite <- H in Hb. injection Hb as Hb. apply (f_equal np_Ingress) in Hb. cbn in Hb.
  rewrite Hi in Hb. injection Hb as Hb. rewrite <- Hb in Hs. cbn [ru_Peers] in Hs. rewrite callerNames_ingressPeers in Hs by apply enabledCallersOf_nonempty.
  rewrite (proj2 (equalStringSet_spec _ _) eq_refl) in Hs. done.
Qed.

Lemma with_env_new o d ct cts env :
  ko_Body o = KDeployment d → dp_Containers d = ct :: cts → equalEnv (c_Env ct) env = false → with_env o d ct cts env ≠ o.
Proof.
  intros Hb Hi Hs H. rewrite <- H in Hb. injection Hb as Hb. apply (f_equal dp_Containers) in Hb. cbn in Hb.
  rewrite Hi in Hb. injection Hb as Hb. apply (f_equal c_Env) in Hb. cbn in Hb. rewrite <- Hb in Hs.
  by rewrite equalEnv_refl in Hs.
Qed.

Lemma run_callers (w : W) :
  w_faults w = [] → (∀ o, cp_objects (w_db w) !! policy_key ns = Some o → ∃ np, ko_Body o = KNetworkPolicy np) →
  makes (alter (fix_policy t) (policy_key ns)) (reconcileKamaraCallers t ns) w.
Proof.
  intros Hf Hty. unfold reconcileKamaraCallers. change ("NetworkPolicy", ns, "np-kamara") with (policy_key ns).
  unfold makes. setoid_rewrite run_bind. unfold attempt. rewrite run_k_Get by done.
  destruct (cp_objects (w_db w) !! policy_key ns) as [o|] eqn:E; cbn [IsNotFound].
  2: { apply makes_alter_id; [done|]. intros o. by rewrite E. }
  destruct (Hty o eq_refl) as [np Hnp]. rewrite Hnp.
  assert (fix_policy t o = o → makes (alter (fix_policy t) (policy_key ns)) (mret tt) w) as Hid.
  { intros H. apply makes_alter_id; [done|]. intros x. rewrite E. by intros [= <-]. }
  destruct (np_Ingress np) as [|ru [|]] eqn:Ei;
    [apply Hid; unfold fix_policy; by rewrite Hnp, Ei| |apply Hid; unfold fix_policy; by rewrite Hnp, Ei]. cbv zeta.
  destruct (equalStringSet _ _) eqn:Es; [apply Hid; unfold fix_policy; by rewrite Hnp, Ei, Es|].
  assert (fix_policy t o = with_callers t o np ru) as Hfix by (unfold fix_policy; by rewrite Hnp, Ei, Es).
  change (MkObj _ _ _) with (with_callers t o np ru). rewrite <- Hfix. apply makes_update; [done..|].
  rewrite Hfix. by apply with_callers_new.
Qed.

Lemma run_env (w : W) :
  w_faults w = [] → (∀ o, cp_objects (w_db w) !! deployment_key ns = Some o → ∃ d, ko_Body o = KDeployment d) →
  makes (alter (fix_deployment r t ns) (deployment_key ns)) (reconcileKamaraEnv r t ns) w.
Proof.
  intros Hf Hty. unfold reconcileKamaraEnv. change ("Deployment", ns, "kamara") with (deployment_key ns).
  unfold makes. setoid_rewrite run_bind. unfold attempt. rewrite run_k_Get by done.
  destruct (cp_objects (w_db w) !! deployment_key ns) as [o|] eqn:E; cbn [IsNotFound].
  2: { apply makes_alter_id; [done|]. intros o. by rewrite E. }
  destruct (Hty o eq_refl) as [d Hd]. rewrite Hd.
  assert (fix_deployment r t ns o = o → makes (alter (fix_deployment r t ns) (deployment_key ns)) (mret tt) w) as Hid.
  { intros H. apply makes_alter_id; [done|]. intros x. rewrite E. by intros [= <-]. }
  destruct (dp_Containers d) as [|ct cts] eqn:Ei; [apply Hid; unfold fix_deployment; by rewrite Hd, Ei|]. cbv zeta.
  destruct (equalEnv _ _) eqn:Es; [apply Hid; unfold fix_deployment; by rewrite Hd, Ei, Es|].
  assert (fix_deployment r t ns o = with_env o d ct cts (withoutOfficeEnv (c_Env ct) ++ officeEnv r t ns)) as Hfix
    by (unfold fix_deployment; by rewrite Hd, Ei, Es).
  change (MkObj _ _ _) with (with_env o d ct cts (withoutOfficeEnv (c_Env ct) ++ officeEnv r t ns)). rewrite <- Hfix. apply makes_update; [done..|].
  rewrite Hfix. by apply with_env_new.
Qed.

(** The steps, one after the other. *)
Lemma run_steps (w : W) :
  w_faults w = [] → typed ns (cp_objects (w_db w)) →
  ∃ w1 w2 w3, reconcileOptionalApps r t ns w = (Ok tt, w3) ∧
    makes (drop_keys (gone_keys t ns)) (λ w, (Ok tt, w1)) w ∧
    makes (alter (fix_policy t) (policy_key ns)) (λ w, (Ok tt, w2)) w1 ∧
    makes (alter (fix_deployment r t ns) (deployment_key ns)) (λ w, (Ok tt, w3)) w2.
Proof.
  intros Hf Hty%(typed_drop t). unfold reconcileOptionalApps, reconcileKamaraOfficeWiring.
  destruct (run_teardown w Hf) as (k1&E1&H1). set (w1 := wrote _ k1 w) in *.
  destruct (run_callers w1) as (k2&E2&H2); [done|apply Hty|]. set (w2 := wrote _ k2 w1) in *.
  destruct (run_env w2) as (k3&E3&H3); [done| |].
  { intros o. cbn. rewrite lookup_alter_ne by done. apply Hty. }
  exists w1, w2, (wrote (alter (fix_deployment r t ns) (deployment_key ns)) k3 w2). split_and!.
  - by rewrite (run_bind_ok _ _ _ _ _ E1), (run_bind_ok _ _ _ _ _ E2).
  - by exists k1.
  - by exists k2.
  - by exists k3.
Qed.

Lemma run_reconcileOptionalApps (w : W) :
  w_faults w = [] → typed ns (cp_objects (w_db w)) →
  ∃ w', reconcileOptionalApps r t ns w = (Ok tt, w') ∧ cp_objects (w_db w') = converged r t ns (cp_objects (w_db w)) ∧
    w_faults w' = [] ∧ (converged_already r t ns (cp_objects (w_db w)) → w' = w).
Proof.
  intros Hf Hty. destruct (run_steps w Hf Hty) as (w1&w2&w3&E&M1&M2&M3).
  pose proof M1 as (k1&[= W1]&_). pose proof M2 as (k2&[= W2]&_). pose proof M3 as (k3&[= W3]&_).
  exists w3. split; [done|]. split; [by rewrite W3, W2, W1|]. split; [by rewrite W3, W2, W1|].
  clear W1 W2 W3. intros (C1&C2&C3).
  pose proof (makes_stays _ _ _ M1 C1) as [= S1]. subst w1.
  pose proof (makes_stays _ _ _ M2 C2) as [= S2]. subst w2.
  by pose proof (makes_stays _ _ _ M3 C3) as [= S3].
Qed.

(** Kamara is always enabled. *)
Lemma kamara_enabled k : k ∈ gone_keys t ns → k ≠ policy_key ns ∧ k ≠ deployment_key ns.
Proof.
  unfold gone_keys. intros (app&Hk&[Hen Happ]%list_elem_of_filter)%list_elem_of_bind.
  assert (a_Name app ≠ "kamara") as Hn.
  { unfold catalog in Happ. apply list_elem_of_In in Happ as [<-|[<-|[<-|[<-|[]]]]]; done. }
  split; intros ->; apply list_elem_of_In in Hk as [H|[H|[H|[H|[]]]]]; try done.
  - injection H as H. by apply Hn.
  - injection H as H. done.
Qed.

(** Is [k] one of the objects of an app the tenant has not enabled? *)
Definition of_disabled_app (k : okey) : Prop := k ∈ gone_keys t ns.

(** [os], reached from [os0], is what the tenant's spec asks for. *)
Definition meets_spec (os0 os : gmap okey kobj) : Prop :=
  (∀ k, of_disabled_app k → os !! k = None) ∧
  (∀ o np ru n, os !! policy_key ns = Some o → ko_Body o = KNetworkPolicy np → np_Ingress np = [ru] →
     n ∈ callerNames (ru_Peers ru) ↔ n ∈ enabledCallersOf t "kamara") ∧
  (∀ o d ct cts, os !! deployment_key ns = Some o → ko_Body o = KDeployment d → dp_Containers d = ct :: cts →
     office_vars (c_Env ct) = name_value <$> officeEnv r t ns) ∧
  (∀ k, ¬ of_disabled_app k → k ≠ policy_key ns → k ≠ deployment_key ns → os !! k = os0 !! k).

(** C25: One run of the optional-app reconcile, when no call fails, reaches the state the
    tenant's spec asks for: every object of a disabled app is gone, Kamara's policy admits
    exactly the enabled callers, its Deployment carries exactly the office variables, and
    no other object is touched.  A second run writes nothing: it leaves the API server's
    log of writes, and all else, exactly as the first run left it. *)
Theorem optional_apps_converge (w : W) :
  w_faults w = [] → typed ns (cp_objects (w_db w)) →
  ∃ w' w'', reconcileOptionalApps r t ns w = (Ok tt, w') ∧ reconcileOptionalApps r t ns w' = (Ok tt, w'') ∧
    cp_writes (w_db w'') = cp_writes (w_db w') ∧ w'' = w' ∧
    meets_spec (cp_objects (w_db w)) (cp_objects (w_db w')).
Proof.
  intros Hf Hty. destruct (run_reconcileOptionalApps w Hf Hty) as (w1&E1&O1&F1&_).
  destruct (run_reconcileOptionalApps w1 F1) as (w2&E2&_&_&Hsame); [rewrite O1; by apply typed_converged|].
  assert (w2 = w1) as -> by (apply Hsame; rewrite O1; apply converged_settled).
  exists w1, w1. rewrite O1. split_and!; [done..|]. split; [|split; [|split]].
  - intros k Hk. pose proof Hk as (app&Hin&[Hen Happ]%list_elem_of_filter)%list_elem_of_bind.
    by apply (converged_gone r t ns _ app); try apply (kamara_enabled k).
  - intros o np ru n. apply converged_callers.
  - intros o d ct cts. apply converged_env.
  - intros k. apply converged_other.
Qed.
End run.
