(* ===== verification/ControllerDemo.v ===== *)
(** * ControllerDemo: a tenant from creation to Ready

    The controller evaluated against a provider that answers every call and a cluster
    whose own controllers start what was deployed; the theorems of the controller
    applied to these runs. *)

From S2P Require Import Prelude GoText Ids World Http Json Cluster Zitadel Naming Catalog Provision TenantController ControllerFrame ControllerSafety ControllerReady Converge.

Module ControllerDemo.

Definition answer : json :=
  JObj [("result", JArr [JObj [("id", JStr "1"); ("oidcConfig", JObj [("clientId", JStr "c1")])]]);
        ("instanceId", JStr "i1"); ("clientId", JStr "c1"); ("appId", JStr "a1"); ("id", JStr "p1");
        ("keyDetails", JStr "e30=")].

#[export] Instance obliging : ZitadelServer unit :=
  {| z_http := λ _ _ _ _ _ z, ((200%Z, Some answer), z); z_get := λ _ _ _ _, (200%Z, Some answer) |}.
#[export] Instance platform : Platform := counting_platform.

Definition zc : ZClient := MkZClient "https://iam.peristera.app" false.
Definition cfg : Reconciler :=
  MkReconciler true "peristera.app" "443" "" "" "https" "letsencrypt" "" "iam.peristera.app" "bucket" "s3" "k" "s" "fr-par" "age1" "".

Definition acme (apps : list string) : Tenant :=
  MkTenant "acme" 1 1 false [] (MkTenantSpec "acme" "" "" apps) (MkTenantStatus "" "" "" "" []).

(** What the cluster's own controllers do: pods start, the database comes up and its
    credentials appear. *)
Definition start (o : kobj) : kobj :=
  match ko_Body o with
  | KDeployment d => MkObj (ko_Owner o) (ko_Labels o) (KDeployment (MkDeployment (dp_Labels d) (dp_Containers d) (dp_Rest d) 1))
  | KObject sp _ => MkObj (ko_Owner o) (ko_Labels o) (KObject sp (JObj [("readyInstances", JNum 1)]))
  | _ => o
  end.
Definition settle (w : world (CP unit)) : world (CP unit) :=
  on_objects (λ os, <[("Secret", "tenant-acme", "db-app") := obj [] (KSecret {["password" := "p@ss"]})]> (start <$> os)) w.

Definition run (w : world (CP unit)) := Reconcile cfg zc "acme" w.
Definition w0 : world (CP unit) := boot (MkCP {["acme" := acme ["office"]]} ∅ tt []).
Definition w1 := settle (run w0).2.
Definition w2 := settle (run w1).2.
Definition w3 := (run w2).2.

Definition phase (w : world (CP unit)) : option string := st_Phase ∘ t_Status <$> cp_tenants (w_db w) !! "acme".

Example from_creation_to_ready :
  (run w0).1 = Ok 3%Z ∧ (run w1).1 = Ok 10%Z ∧ (run w2).1 = Ok 0%Z ∧
  phase w1 = Some "Pending" ∧ phase w2 = Some "Pending" ∧ phase w3 = Some "Ready".
Proof. vm_compute. auto 10. Qed.

(** The stored tenant. *)
Definition stored (w : world (CP unit)) : Tenant := default (acme []) (cp_tenants (w_db w) !! "acme").

Definition dek_key : okey := ("Secret", "tenant-acme", "kamara-dek").

Lemma reconcile_create_only_witness :
  (extends "acme" (own_place (ts_Slug (t_Spec (stored w2)))) (mutable_keys (ts_Slug (t_Spec (stored w2))))
     (cp_objects (w_db w2)) (cp_objects (w_db (run w2).2)) ∧
   (∀ k, ¬ own_place (ts_Slug (t_Spec (stored w2))) k → cp_objects (w_db (run w2).2) !! k = cp_objects (w_db w2) !! k) ∧
   (∀ n, n ≠ "acme" → cp_tenants (w_db (run w2).2) !! n = cp_tenants (w_db w2) !! n)) ∧
  is_Some (cp_objects (w_db w2) !! dek_key) ∧ dek_key ∉ mutable_keys "acme".
Proof.
  split; [refine (reconcile_create_only cfg zc "acme" (stored w2) w2 _ _); vm_compute; reflexivity|].
  split; [vm_compute; eauto|eval_decide].
Defined.

Lemma identity_permanent_witness :
  (t_Spec (stored (run w1).2) = t_Spec (stored w1) ∧ tenantIssuer cfg (stored (run w1).2) = tenantIssuer cfg (stored w1) ∧
   identity_kept cfg (stored w1) (t_Status (stored (run w1).2))) ∧
  st_Issuer (t_Status (stored w1)) = "" ∧ tenantIssuer cfg (stored (run w1).2) = "https://acme.peristera.app" ∧
  st_InstanceID (t_Status (stored w1)) = "1".
Proof.
  split; [refine (identity_permanent cfg zc "acme" (stored w1) (stored (run w1).2) w1 _ _ _); vm_compute; reflexivity|].
  vm_compute. auto.
Defined.


(** A pod of the tenant's office app, and one of another tenant with the same labels. *)
Definition office_pod (ns : string) : pod :=
  MkPod ns [("kubernetes.io/metadata.name", ns)] (app_labels "office").

(** The policies of the namespace, from the start. *)
Lemma stored_acme w : cp_tenants (w_db w) !! "acme" = Some (stored w) → t_Name (stored w) = "acme" →
  policed "tenant-acme" w → policed "tenant-acme" (run w).2.
Proof. intros Ht Hn Hp. by eapply policed_reconcile. Qed.

Lemma policed_settle w : policed "tenant-acme" w → policed "tenant-acme" (settle w).
Proof.
  intros Hp. assert (policies_ok "tenant-acme" (cp_objects (w_db w))) as Hok by by apply policed_ok.
  apply (policed_env _ w); [done|]. intros n. cbn. rewrite lookup_insert_ne by done. rewrite lookup_fmap.
  destruct (cp_objects (w_db w) !! _) as [o|] eqn:E; [|done]. destruct (Hok n o E) as (x&np&_&Hb&_).
  cbn. unfold start. by rewrite Hb.
Qed.

Lemma w0_policed : policed "tenant-acme" w0.
Proof. apply policed_start. intros n. reflexivity. Qed.

Lemma w2_policed : policed "tenant-acme" w2.
Proof.
  apply policed_settle, stored_acme; [vm_compute; reflexivity..|].
  apply policed_settle, stored_acme; [vm_compute; reflexivity..|exact w0_policed].
Qed.

(** The database's pods are under no policy: another tenant's pod reaches them. *)
Example database_pods_open :
  accepts (cp_objects (w_db w3)) "tenant-acme" [("cnpg.io/cluster", "db"); (name_label, "postgresql")]
    (office_pod "tenant-other") (TCP, 5432%Z).
Proof.
  apply unpoliced_open.
  - apply policed_ok, stored_acme; [vm_compute; reflexivity..|exact w2_policed].
  - intros x [= <-]. vm_compute. reflexivity.
Qed.

(** Kamara's policy after the last run. *)
Definition kamara_policy : NetworkPolicy :=
  match cp_objects (w_db w3) !! ("NetworkPolicy", "tenant-acme", "np-kamara") with
  | Some (MkObj _ _ (KNetworkPolicy np)) => np
  | _ => openFGAPolicy
  end.
Definition kamara_object : kobj :=
  default (obj [] (KObject JNull JNull)) (cp_objects (w_db w3) !! ("NetworkPolicy", "tenant-acme", "np-kamara")).
Definition kamara_rule : Rule := MkRule (ingressPeers ["ergonomos"; "office"]) [tcpPort 5580].

Lemma office_reaches_kamara :
  accepts (cp_objects (w_db w3)) "tenant-acme" (app_labels "kamara") (office_pod "tenant-acme") (TCP, 5580%Z).
Proof.
  right. exists kamara_policy, kamara_rule. split; [|split].
  - exists "np-kamara", kamara_object. vm_compute. auto.
  - assert (np_Ingress kamara_policy = [kamara_rule]) as -> by (vm_compute; reflexivity). left.
  - vm_compute. reflexivity.
Qed.


(** Office is switched off. *)
Definition no_office : Tenant := with_spec (MkTenantSpec "acme" "" "" []) (stored w3).
Definition count (w : world (CP unit)) : nat := size (cp_objects (w_db w)).
Definition toggle (w : world (CP unit)) := reconcileOptionalApps cfg no_office "tenant-acme" w.

Lemma optional_apps_converge_witness :
  (∃ w' w'', toggle w3 = (Ok tt, w') ∧ toggle w' = (Ok tt, w'') ∧
     cp_writes (w_db w'') = cp_writes (w_db w') ∧ w'' = w' ∧
     meets_spec cfg no_office "tenant-acme" (cp_objects (w_db w3)) (cp_objects (w_db w'))) ∧
  count (toggle w3).2 = count w3 - 4 ∧ length (cp_writes (w_db (toggle w3).2)) = length (cp_writes (w_db w3)) + 6.
Proof.
  split; [|vm_compute; split; reflexivity].
  refine (optional_apps_converge cfg no_office "tenant-acme" w3 _ _).
  - vm_compute. reflexivity.
  - split; intros o; vm_compute; intros [= <-]; eauto.
Defined.
End ControllerDemo.
