(* ===== verification/Dek.v ===== *)
(** * Dek: the data-encryption key from Secret to cipher
    (control-plane/internal/controller/infra.go ensureDEK,
    kamara/cmd/kamara/main.go and kamara/cmd/blobverify/main.go decodeKey)

    The controller stores a random key as base64 text; Kamara reads the mounted file
    back. *)

From S2P Require Import Prelude GoText BytesTrim Ids World Http Json Base64 ChunkCrypto Cluster Zitadel Naming Catalog Provision.

(** [None] ends the process. *)
Definition decodeKey (b : bytes) : option bytes :=
  let b := bytes_TrimSpace b in
  if bool_decide (length b = KeySize) then Some b else DecodeString (bytes_str b).

(** ** Base64 text is solid *)
Lemma std_digit_solid n : (0 <= n < 64)%Z → solid (std_digit n).
Proof.
  intros Hn.
  assert (forallb (λ k, let z := bz (std_digit (Z.of_nat k)) in (z <? 128)%Z && negb (IsSpace z)) (seq 0 64) = true)
    as H by (vm_compute; reflexivity).
  rewrite forallb_forall in H. specialize (H (Z.to_nat n)). rewrite Z2Nat.id in H by lia.
  assert (In (Z.to_nat n) (seq 0 64)) as Hin by (apply in_seq; lia). specialize (H Hin).
  cbv zeta in H. apply andb_true_iff in H as [H1 H2]. split; [by apply Z.ltb_lt|by apply negb_true_iff].
Qed.

Lemma std_encode_solid l : Forall solid (std_encode l).
Proof.
  assert (solid x3d) by done.
  induction l as [|a|a b|a b c l IH] using bytes_ind3; [constructor|..]; cbn [std_encode];
    pose proof (bz_range a); try pose proof (bz_range b); try pose proof (bz_range c);
    repeat (constructor; [first [done | apply std_digit_solid; zdiv]|]); auto.
Qed.

Lemma head_last_solid l : l ≠ [] → Forall solid l → ∃ a b, head l = Some a ∧ last l = Some b ∧ solid a ∧ solid b.
Proof.
  intros Hne Hl. destruct l as [|a l]; [done|]. destruct (last (a :: l)) as [b|] eqn:E.
  - exists a, b. split; [done|]. split; [done|]. split; [by apply Forall_cons in Hl as [? _]|].
    apply last_Some in E as [l' E]. rewrite E in Hl. by apply Forall_app in Hl as [_ [? _]%Forall_cons].
  - by apply last_None in E.
Qed.

(** The mounted text of a 32-byte key, white space around it or not, is the key. *)
Lemma decodeKey_text key ws1 ws2 :
  length key = KeySize → Forall space ws1 → Forall space ws2 →
  decodeKey (ws1 ++ str_bytes (EncodeToString key) ++ ws2) = Some key.
Proof.
  intros Hk H1 H2. unfold EncodeToString. rewrite str_bytes_str. unfold decodeKey.
  pose proof (length_std_encode key) as Hlen. rewrite Hk in Hlen. change (4 * ((KeySize + 2) / 3)) with 44 in Hlen.
  destruct (head_last_solid (std_encode key)) as (a&b&Hh&Hl&Ha&Hb); [by intros E; rewrite E in Hlen|apply std_encode_solid|].
  rewrite (bytes_TrimSpace_text ws1 ws2 _ a b) by done. cbv zeta.
  rewrite bool_decide_eq_false_2 by (rewrite Hlen; done). apply DecodeString_EncodeToString.
Qed.

(** What the stored Secret holds. *)
Section dek.
Context {ZS : Type} {Pl : Platform}.
Abbreviation W := (world (CP ZS)).

(** C27: The key the controller generates is the key Kamara encrypts with: a tenant's DEK
    Secret, once created, holds the 32 random bytes drawn for it as text that Kamara's
    and the restore check's [decodeKey] turn back into exactly those bytes, whatever
    white space the mounted file has around it. *)
Theorem dek_roundtrip t ns app (w w' : W) ws1 ws2 :
  cp_objects (w_db w) !! ("Secret", ns, app +:+ "-dek") = None →
  ensureDEK t ns app w = (Ok tt, w') → Forall space ws1 → Forall space ws2 →
  ∃ o, cp_objects (w_db w') !! ("Secret", ns, app +:+ "-dek") = Some o ∧
       decodeKey (ws1 ++ str_bytes (secret_data o dekFileName) ++ ws2) = Some (rand_bytes (w_draws w) dekKeySize).
Proof.
  intros Hnone. unfold ensureDEK, unless_exists. rewrite run_bind. unfold attempt.
  destruct (k_Get _ w) as [g w1] eqn:E. apply stmt_cases in E as (_&_&Hdr&E). rewrite Hnone in E.
  destruct E as [(e&->&Hd&_)|(?&?&[=]&_)]. destruct (IsNotFound e); [|done].
  rewrite run_bind. unfold draw. cbn [fst snd]. intros E H1 H2.
  apply stmt_cases in E as (_&_&_&[(?&[=]&_)|(a&d&E&Hw'&_)]). cbn [w_db] in E. rewrite Hd, Hnone in E.
  injection E as _ <-. rewrite Hw'. cbn [written cp_objects]. rewrite lookup_insert_eq. eexists. split; [done|].
  unfold owned, obj, secret_data. cbn [ko_Body]. rewrite lookup_singleton_eq. cbn [default from_option].
  rewrite Hdr. apply decodeKey_text; [|done|done]. apply rand_length.
Qed.
End dek.

(** A raw key is not always accepted: one that starts with a space is trimmed. *)
Example raw_key_trimmed : decodeKey (x20 :: replicate 31 x41) = None.
Proof. vm_compute. reflexivity. Qed.
Example raw_key_kept : decodeKey (replicate 32 x41) = Some (replicate 32 x41).
Proof. vm_compute. reflexivity. Qed.

Module DekDemo.
Definition acme : Tenant :=
  MkTenant "acme" 1 1 false [] (MkTenantSpec "acme" "" "" []) (MkTenantStatus "" "" "" "" []).
Definition w0 : world (CP unit) := boot (MkCP ∅ ∅ tt []).
Definition ensure := ensureDEK (Pl := counting_platform) acme "tenant-acme" "kamara" w0.

Lemma dek_roundtrip_witness :
  ∃ o, cp_objects (w_db ensure.2) !! ("Secret", "tenant-acme", "kamara-dek") = Some o ∧
       decodeKey ([] ++ str_bytes (secret_data o dekFileName) ++ [x0a]) = Some (replicate 32 x00).
Proof.
  refine (dek_roundtrip (Pl := counting_platform) acme "tenant-acme" "kamara" w0 ensure.2 [] [x0a] _ _ _ _).
  - reflexivity.
  - refine (run_result (ensureDEK (Pl := counting_platform) acme "tenant-acme" "kamara") w0 (Ok tt) _).
    vm_compute. reflexivity.
  - constructor.
  - repeat constructor.
Defined.
End DekDemo.
