(* ===== verification/Server.v ===== *)
(** * Server: the control plane's HTTP surface
    (control-plane/internal/server/auth.go, api.go, users.go, server.go)

    The operator gate, the handlers of /api/v1 and the creation of tenant users, over
    the cluster, the identity provider and the platform's OpenFGA.  The server's memory
    is the relying party's sessions and the cache of validated tokens.  The HTML body a
    redirect carries is not kept. *)

From stdpp Require Import sorting.
From S2P Require Import Prelude GoText BytesTrim Ids World Pii Authz SessionStore Http Json Base64 Oidcrp Cluster Zitadel Naming Catalog Provision TenantController ControllerFrame.
Import Pii Session.

(** ** Error texts, and what the generated code takes from its runtime *)
Class ServerText := {
  error_text : error → string;            (* err.Error() *)
  valid_email : string → bool;            (* openapi_types.Email *)
  bind_path : string → res string;        (* runtime.BindStyledParameterWithOptions, for a string of the path *)
}.

Record ServerConfig := MkServerConfig { sc_PublicURL : string; sc_Issuer : string; sc_OperatorSubs : list string }.

Record Memory := MkMemory { me_rp : Oidcrp.State; me_tokens : Store Subject }.

Definition platformObject : string := "platform:peristera".
Definition operatorRelation : string := "operator".

(** issuerHost: the host of the issuer, or the issuer when it does not parse. *)
Definition server_issuerHost (issuer : string) : string :=
  match url_host issuer with Some h => url_hostname h | None => issuer end.

(** ** audienceOK *)

(** The [aud] claim: a string or an array of strings. *)
Definition parseAud (raw : option json) : list string :=
  match raw with
  | None => []
  | Some j =>
      match as_string j with
      | Ok s => [s]
      | Err _ => match as_list_of as_string j with Ok l => l | Err _ => [] end
      end
  end.

Definition apiError (st : Z) (msg : string) : Response :=
  MkResponse st [("Content-Type", "application/json")] (BJson (JObj [("message", JStr msg)])).
Definition writeOK (st : Z) (j : json) : Response :=
  MkResponse st [("Content-Type", "application/json")] (BJson j).
Definition text_error (st : Z) (msg : string) : Response :=
  MkResponse st [("Content-Type", "text/plain; charset=utf-8"); ("X-Content-Type-Options", "nosniff")] (BBytes (str_bytes (msg +:+ String "010"%char ""))).

Definition slug_le (a b : Tenant) : Prop := String.leb (ts_Slug (t_Spec a)) (ts_Slug (t_Spec b)) = true.
#[global] Instance slug_le_dec a b : Decision (slug_le a b).
Proof. unfold slug_le. apply _. Defined.

Definition errBadEmail : error := ErrText "email must be a valid address".
Definition errNoTenant : error := ErrText "no such tenant".
Definition errNotProvisioned : error := ErrText "tenant is not provisioned yet (no issuer)".

(** The names, each once, or the first that is not an optional app. *)
Fixpoint validate_apps (seen : list string) (names : list string) : res (list string) :=
  match names with
  | [] => Ok seen
  | n :: names' =>
      if negb (IsOptionalApp n) then Err (ErrText ("not an optional app: " +:+ n))
      else if bool_decide (n ∈ seen) then validate_apps seen names'
      else validate_apps (seen ++ [n]) names'
  end.
Definition validateOptionalApps (names : list string) : res (list string) := validate_apps [] names.

Section server.
Context {ZS : Type} {Zd : ZitadelServer ZS} {Pl : Platform} {F : OpenFGA} {JT : JsonParser} {ST : ServerText}.
Context (cfg : ServerConfig) (rp : Oidcrp.Config) (clientID : string).
Abbreviation W := (world (CP ZS)).

Definition audienceOK (token : string) : bool :=
  match split_byte "."%char token with
  | [_; payload; _] =>
      match RawURLDecode payload with
      | None => true
      | Some b =>
          match json_parse b with
          | None => true
          | Some j =>
              match raw_field "aud" j with
              | Err _ => true
              | Ok raw => let auds := parseAud raw in bool_decide (auds = []) || bool_decide (clientID ∈ auds)
              end
          end
      end
  | _ => true
  end.

(** ** auth.go: the gate *)
Definition operator_of (sub : string) : Subject := MkSubject (server_issuerHost (sc_Issuer cfg)) sub.

(** The token of the Authorization header. *)
Definition bearer_token (r : Request) : option string :=
  let auth := header_get r "Authorization" in
  if (String.length auth <=? 7) || negb (EqualFold (String.substring 0 7 auth) "Bearer ") then None
  else Some (strings_TrimSpace (String.substring 7 (String.length auth - 7) auth)).

Definition operatorSubject (r : Request) (m : Memory) : M W (option Subject * Memory) :=
  now ← now;
  let '(s, st) := Session_ rp now r (me_rp m) in
  match s with
  | Some sess => mret (Some (operator_of (c_Subject (bs_Claims sess))), MkMemory st (me_tokens m))
  | None =>
      match bearer_token r with
      | None => mret (None, MkMemory st (me_tokens m))
      | Some tok =>
          if negb (audienceOK tok) then mret (None, MkMemory st (me_tokens m))
          else
            let '(c, tokens) := Get now tok (me_tokens m) in
            match c with
            | Some sub => mret (Some sub, MkMemory st tokens)
            | None =>
                u ← UserinfoSubject (sc_Issuer cfg) tok;
                match u with
                | None => mret (None, MkMemory st tokens)
                | Some sub => mret (Some (operator_of sub), MkMemory st (Put now tok (operator_of sub) tokens))
                end
            end
      end
  end.

Definition deny (isAPI : bool) (code : Z) (msg : string) : Response :=
  if isAPI then apiError code msg else text_error code msg.
Definition denyUnauthenticated (isAPI : bool) : Response :=
  if isAPI then apiError 401 "authentication required"
  else MkResponse 302 [("Location", "/auth/login")] BEmpty.

Definition requireAuth (next : Request → M W Response) (isAPI : bool) (r : Request) (m : Memory)
    : M W (Response * Memory) :=
  x ← operatorSubject r m;
  match x.1 with
  | None => mret (denyUnauthenticated isAPI, x.2)
  | Some subject =>
      a ← attempt (Check subject operatorRelation platformObject);
      match a with
      | Err _ => mret (deny isAPI 502 "authorization unavailable", x.2)
      | Ok false => mret (deny isAPI 403 "not authorized as an operator", x.2)
      | Ok true => resp ← next r; mret (resp, x.2)
      end
  end.

Definition seedOperators : M W unit :=
  for_each (sc_OperatorSubs cfg) (λ sub,
    ok ← wrap_err ("checking operator " +:+ sub) (Check (operator_of sub) operatorRelation platformObject);
    if (ok : bool) then mret tt
    else wrap_err ("seeding operator " +:+ sub) (Write (operator_of sub) operatorRelation platformObject)).

(** ** users.go *)
Definition genPassword : M W string := raw ← draw 18; mret ("Aa1!" +:+ base64url_encode raw).

Definition createTenantUser (slug email : string) : M W (string * string) :=
  let email := strings_TrimSpace email in
  match cut_byte "@"%char email with
  | None => throw errBadEmail
  | Some (local, domain) =>
      if bool_decide (local = "") || bool_decide (domain = "") then throw errBadEmail
      else
        g ← attempt (t_Get slug);
        match g with
        | Err e => if IsNotFound e then throw errNoTenant else throw e
        | Ok t =>
            let issuer := st_Issuer (t_Status t) in
            if bool_decide (issuer = "") then throw errNotProvisioned
            else
              orgID ← FirstOrgID issuer;
              password ← genPassword;
              userID ← CreateHumanUser issuer orgID email local "Admin" password;
              AddOrgMember issuer orgID userID ["ORG_OWNER"] ;;
              mret (email, password)
        end
  end.

(** ** api.go *)
Definition opt_field (k v : string) : list (string * json) := if bool_decide (v = "") then [] else [(k, JStr v)].

Definition toAPITenant (t : Tenant) : json :=
  JObj ([("apps", jstrs (ts_Apps (t_Spec t)))] ++ opt_field "clientId" (st_ClientID (t_Status t)) ++
        opt_field "displayName" (ts_DisplayName (t_Spec t)) ++ opt_field "issuer" (st_Issuer (t_Status t)) ++
        [("permalink", JStr (sc_PublicURL cfg +:+ "/api/v1/tenants/" +:+ ts_Slug (t_Spec t)));
         ("phase", JStr (st_Phase (t_Status t))); ("slug", JStr (ts_Slug (t_Spec t)))]).

(** A Get or Delete that failed. *)
Definition tenant_error (e : error) : Response :=
  if IsNotFound e then apiError 404 "no such tenant" else apiError 500 (error_text e).

Definition ListTenants (r : Request) : M W Response :=
  l ← attempt t_List;
  mret (match l with
        | Err e => apiError 500 (error_text e)
        | Ok l => writeOK 200 (JArr (toAPITenant <$> merge_sort slug_le l))
        end).

Definition errJSON : error := ErrText "invalid JSON".

(** The body decoded into the request type. *)
Definition decode_body {A} (dec : json → res A) (r : Request) : res A :=
  match rq_json r with Some j => dec j | None => Err errJSON end.

Definition dec_TenantCreate (j : json) : res (string * option string * option string) :=
  match dec_string "slug" j, dec_string_ptr "displayName" j, dec_string_ptr "domain" j with
  | Ok s, Ok n, Ok d => Ok (s, n, d)
  | Err e, _, _ | _, Err e, _ | _, _, Err e => Err e
  end.

Definition CreateTenant (r : Request) : M W Response :=
  match decode_body dec_TenantCreate r with
  | Err e => mret (apiError 400 ("invalid JSON: " +:+ error_text e))
  | Ok (slug, displayName, domain) =>
      if negb (ValidSlug slug) then mret (apiError 400 "slug must be a DNS label")
      else
        let dom := default "" domain in
        if negb (bool_decide (dom = "")) && negb (ValidDomain dom)
        then mret (apiError 400 "domain must be a valid FQDN")
        else
          g ← attempt (t_Create slug (MkTenantSpec slug (default "" displayName) dom []));
          mret (match g with
                | Ok t => writeOK 201 (toAPITenant t)
                | Err e => if errors_is e ErrK8sExists then apiError 409 "tenant exists"
                           else apiError 500 (error_text e)
                end)
  end.

Definition GetTenant (r : Request) : M W Response :=
  g ← attempt (t_Get (rq_id r));
  mret (match g with Ok t => writeOK 200 (toAPITenant t) | Err e => tenant_error e end).

Definition DeleteTenant (r : Request) : M W Response :=
  g ← attempt (t_Delete (rq_id r));
  mret (match g with Ok _ => status_only 204 | Err e => tenant_error e end).

Definition with_apps (apps : list string) (t : Tenant) : Tenant :=
  with_spec (MkTenantSpec (ts_Slug (t_Spec t)) (ts_DisplayName (t_Spec t)) (ts_Domain (t_Spec t)) apps) t.

Definition SetTenantApps (r : Request) : M W Response :=
  match decode_body (dec_strings "apps") r with
  | Err e => mret (apiError 400 ("invalid JSON: " +:+ error_text e))
  | Ok names =>
      match validateOptionalApps names with
      | Err e => mret (apiError 400 (error_text e))
      | Ok apps =>
          g ← attempt (t_Get (rq_id r));
          match g with
          | Err e => mret (tenant_error e)
          | Ok t =>
              u ← attempt (t_Update (with_apps apps t));
              mret (match u with Ok t' => writeOK 200 (toAPITenant t') | Err e => apiError 500 (error_text e) end)
          end
      end
  end.

Definition dec_TenantUserCreate (j : json) : res string :=
  match raw_field "email" j with
  | Ok None => Ok ""
  | Ok (Some v) =>
      match as_string v with
      | Ok e => if valid_email e then Ok e else Err errJSON
      | Err e => Err e
      end
  | Err e => Err e
  end.

Definition CreateTenantUser (r : Request) : M W Response :=
  match decode_body dec_TenantUserCreate r with
  | Err e => mret (apiError 400 ("invalid JSON: " +:+ error_text e))
  | Ok email =>
      g ← attempt (createTenantUser (rq_id r) email);
      mret (match g with
            | Ok (login, password) => writeOK 201 (JObj [("login", JStr login); ("password", JStr password)])
            | Err e =>
                if errors_is e errBadEmail then apiError 400 (error_text e)
                else if errors_is e errNoTenant then apiError 404 (error_text e)
                else if errors_is e errNotProvisioned then apiError 422 (error_text e)
                else if errors_is e ErrUserExists then apiError 409 "a user with this email already exists"
                else apiError 500 (error_text e)
            end)
  end.

(** The generated server (gen/api.gen.go), without middlewares.  A wrapper binds the slug of
    the path to the parameter of its operation. *)
Definition bind_slug (next : Request → M W Response) (r : Request) : M W Response :=
  match bind_path (rq_id r) with
  | Err e => mret (text_error 400 ("Invalid format for parameter slug: " +:+ error_text e))
  | Ok slug => next (set_id slug r)
  end.
Definition wrapped_DeleteTenant := bind_slug DeleteTenant.
Definition wrapped_GetTenant := bind_slug GetTenant.
Definition wrapped_SetTenantApps := bind_slug SetTenantApps.
Definition wrapped_CreateTenantUser := bind_slug CreateTenantUser.

(** HandlerWithOptions: its routes, below /api/v1. *)
Definition api_routes : list (string * list segment * (Request → M W Response)) :=
  [("GET", [Lit "tenants"], ListTenants); ("POST", [Lit "tenants"], CreateTenant);
   ("DELETE", [Lit "tenants"; Wild], wrapped_DeleteTenant); ("GET", [Lit "tenants"; Wild], wrapped_GetTenant);
   ("PUT", [Lit "tenants"; Wild; Lit "apps"], wrapped_SetTenantApps);
   ("POST", [Lit "tenants"; Wild; Lit "users"], wrapped_CreateTenantUser)].

Definition api_serve (method : string) (path : list string) (r : Request) (m : Memory) : M W (Response * Memory) :=
  requireAuth (ServeMux api_routes method path) true r m.

(** ** The gate *)

(** Nothing outside the server's memory changed. *)
Definition untouched (w w' : W) : Prop := w_db w' = w_db w ∧ w_fga w' = w_fga w.

Lemma UserinfoSubject_spec tok (w : W) g w' :
  UserinfoSubject (sc_Issuer cfg) tok w = (g, w') →
  untouched w w' ∧ ∃ u, g = Ok u ∧
    ∀ sub, u = Some sub → sub ≠ "" ∧ ∃ j, dec_string "sub" j = Ok sub ∧
      z_get (sc_Issuer cfg +:+ "/oidc/v1/userinfo") (Some tok) (w_now w) (cp_zitadel (w_db w)) = (200%Z, Some j).
Proof.
  unfold UserinfoSubject. rewrite run_bind. unfold attempt. destruct (call _ w) as [x w1] eqn:E.
  apply call_cases in E as (w0&Hd&Hr&Hn&_&E). cbn.
  assert (untouched w w1) as Hu.
  { unfold w_rest in Hr. injection Hr as _ Hf.
    destruct E as [[= _ <-]|(_&[->| ->])]; by split. }
  intros [= <- <-]. split; [done|]. eexists. split; [done|].
  destruct E as [E|[-> _]]; [|done]. cbn in E. injection E as <- _. rewrite Hd, Hn.
  destruct (z_get _ _ _ _) as [st [j|]]; [|done].
  destruct (Z.eqb_spec st 200) as [->|]; [|done]. destruct (dec_string "sub" j) as [s|] eqn:Ej; [|done].
  case_bool_decide; [done|]. intros sub [= <-]. split; [done|]. eauto.
Qed.

(** ** What the API can do to the tenants *)
Inductive tenant_change (ts : gmap string Tenant) : gmap string Tenant → Prop :=
  | change_none : tenant_change ts ts
  | change_create n sp :
      ts !! n = None → crd_valid sp = true → ts_Slug sp = n → ts_Apps sp = [] →
      tenant_change ts (<[n := MkTenant n 1 1 false [] sp (MkTenantStatus "" "" "" "" [])]> ts)
  | change_remove n t : ts !! n = Some t → t_Finalizers t = [] → tenant_change ts (delete n ts)
  | change_mark n t :
      ts !! n = Some t → t_Finalizers t ≠ [] →
      tenant_change ts (<[n := MkTenant n (t_Version t + 1) (t_Generation t) true (t_Finalizers t) (t_Spec t) (t_Status t)]> ts)
  | change_apps n t apps :
      ts !! n = Some t → NoDup apps → (∀ a, a ∈ apps → a ∈ OptionalApps) →
      tenant_change ts (<[n := with_version (t_Version t + 1) (with_apps apps t)]> ts).

Lemma validate_apps_spec seen names l :
  NoDup seen → (∀ a, a ∈ seen → a ∈ OptionalApps) → validate_apps seen names = Ok l →
  NoDup l ∧ (∀ a, a ∈ l → a ∈ OptionalApps) ∧ (∀ a, a ∈ l ↔ a ∈ seen ∨ a ∈ names).
Proof.
  revert seen. induction names as [|n names IH]; cbn [validate_apps]; intros seen Hnd Hopt.
  { intros [= <-]. split; [done|]. split; [done|]. intros a. rewrite elem_of_nil. naive_solver. }
  destruct (IsOptionalApp n) eqn:En; cbn [negb]; [|done].
  assert (n ∈ OptionalApps) as Hn.
  { unfold IsOptionalApp in En. apply existsb_exists in En as (a&Ha%list_elem_of_In&[Ho Hname]%andb_true_iff).
    apply bool_decide_eq_true in Hname as <-. apply list_elem_of_fmap. exists a. split; [done|]. by apply list_elem_of_filter. }
  case_bool_decide as Hin.
  - intros (H1&H2&H3)%IH; [|done|done]. split; [done|]. split; [done|]. intros a. rewrite H3, elem_of_cons. naive_solver.
  - intros (H1&H2&H3)%IH.
    + split; [done|]. split; [done|]. intros a. rewrite H3, elem_of_app, list_elem_of_singleton, elem_of_cons. naive_solver.
    + apply NoDup_app. split; [done|]. split; [|apply NoDup_singleton]. intros x Hx Hx2%list_elem_of_singleton. subst x. by apply Hin.
    + intros a [Ha| ->%list_elem_of_singleton]%elem_of_app; auto.
Qed.

Section effects.
Context (ts0 : gmap string Tenant) (os0 : gmap okey kobj).
Hypothesis named : ∀ n t, ts0 !! n = Some t → t_Name t = n.

Definition at_start (ts : gmap string Tenant) (os : gmap okey kobj) : Prop := ts = ts0 ∧ os = os0.
Definition changed (ts : gmap string Tenant) (os : gmap okey kobj) : Prop := tenant_change ts0 ts ∧ os = os0.

Lemma start_changed (w : W) : cluster at_start w → cluster changed w.
Proof. intros [H1 H2]. split; [rewrite H1; constructor|done]. Qed.

(** A handler that writes the tenants at most once, at the end. *)
Definition effect {A} (m : M W A) : Prop := triple (cluster at_start) m (λ _, cluster changed).

Lemma effect_keeps {A} (m : M W A) : keeps (cluster at_start) m → effect m.
Proof. intros H w Hw. apply start_changed, H, Hw. Qed.

Lemma effect_read {A B} (m : M W A) (k : A → M W B) :
  keeps (cluster at_start) m → (∀ a, effect (k a)) → effect (m ≫= k).
Proof. intros Hm Hk. apply triple_keeps; [done| |done]. intros e w. apply start_changed. Qed.

Lemma effect_stmt {A} (f : CP ZS → res (A * CP ZS)) (k : res A → Response) :
  (∀ d a d', cp_tenants d = ts0 → f d = Ok (a, d') → tenant_change ts0 (cp_tenants d') ∧ cp_objects d' = cp_objects d) →
  effect (g ← attempt (stmt f); mret (k g)).
Proof.
  intros Hf w [Ht Ho]. rewrite run_bind. unfold attempt. destruct (stmt f w) as [g w'] eqn:E. cbn.
  apply stmt_cases in E as (_&_&_&[(e&_&Hd&_)|(a&d&E&Hd&_)]); unfold cluster, changed; rewrite Hd.
  - split; [rewrite Ht; constructor|done].
  - destruct (Hf _ _ _ Ht E) as [H1 H2]. split; [done|congruence].
Qed.

Lemma effect_CreateTenant r : effect (CreateTenant r).
Proof.
  unfold CreateTenant. destruct (decode_body _ r) as [[[slug dn] dom]|e]; [|apply effect_keeps, keeps_ret].
  destruct (negb (ValidSlug slug)); [apply effect_keeps, keeps_ret|]. cbv zeta.
  destruct (_ && _); [apply effect_keeps, keeps_ret|]. apply effect_stmt. intros d a d' Hd.
  destruct (crd_valid _) eqn:Ev; cbn [negb]; [|done]. destruct (cp_tenants d !! slug) eqn:El; [done|].
  intros [= _ <-]. cbn. split; [|done]. rewrite Hd in *. by constructor.
Qed.

Lemma effect_bind_slug next : (∀ r, effect (next r)) → ∀ r, effect (bind_slug next r).
Proof. intros H r. unfold bind_slug. destruct (bind_path (rq_id r)); [apply H|apply effect_keeps, keeps_ret]. Qed.

Lemma keeps_bind_slug I next : (∀ r, keeps I (next r)) → ∀ r, keeps I (bind_slug next r).
Proof. intros H r. unfold bind_slug. destruct (bind_path (rq_id r)); [apply H|apply keeps_ret]. Qed.

Lemma effect_DeleteTenant r : effect (DeleteTenant r).
Proof.
  unfold DeleteTenant. apply effect_stmt. intros d a d' Hd. rewrite Hd.
  destruct (ts0 !! rq_id r) as [t|] eqn:Et; [|done].
  case_bool_decide; intros [= _ <-]; cbn; (split; [|done]); [by eapply change_remove|by apply change_mark].
Qed.

(** Reading a tenant. *)
Lemma effect_t_Get (n : string) (k : res Tenant → M W Response) :
  (∀ t, ts0 !! n = Some t → effect (k (Ok t))) → (∀ e, effect (k (Err e))) → effect (g ← attempt (t_Get n); k g).
Proof.
  intros Hk He w Hw. rewrite run_bind. unfold attempt.
  pose proof (keeps_t_Get at_start n w Hw) as Hw'. destruct (t_Get n w) as [g w'] eqn:E.
  apply stmt_cases in E as (_&_&_&E). destruct g as [t|e]; [|by apply He]. apply Hk; [|done].
  destruct E as [(?&[=]&_)|(a&d&E&_&[[= <-]|[=]])]. destruct Hw as [<- _].
  destruct (cp_tenants (w_db w) !! n); [|done]. by injection E as <- _.
Qed.

(** Writing the enabled apps back. *)
Lemma effect_t_Update n t apps (k : res Tenant → Response) :
  ts0 !! n = Some t → NoDup apps → (∀ a, a ∈ apps → a ∈ OptionalApps) →
  effect (u ← attempt (t_Update (with_apps apps t)); mret (k u)).
Proof.
  intros Ht Hnd Hopt. apply effect_stmt. intros d a d' Hd.
  change (t_Name (with_apps apps t)) with (t_Name t). rewrite (named _ _ Ht), Hd, Ht.
  rewrite bool_decide_eq_true_2 by done. pose proof (named _ _ Ht) as Hn.
  destruct (t_Deleting t && bool_decide (t_Finalizers (with_apps apps t) = [])) eqn:Ed; intros [= _ <-]; cbn; (split; [|done]).
  - apply andb_true_iff in Ed as [_ Ed%bool_decide_eq_true]. by eapply change_remove.
  - by apply (change_apps _ n t apps).
Qed.

Lemma effect_SetTenantApps r : effect (SetTenantApps r).
Proof.
  unfold SetTenantApps. destruct (decode_body _ r) as [names|e]; [|apply effect_keeps, keeps_ret].
  unfold validateOptionalApps. destruct (validate_apps [] names) as [apps|e] eqn:Ev; [|apply effect_keeps, keeps_ret].
  apply validate_apps_spec in Ev as (Hnd&Hopt&_); [|constructor|by intros a ?%elem_of_nil].
  apply effect_t_Get; [|intros e; apply effect_keeps, keeps_ret]. intros t Ht. by eapply effect_t_Update.
Qed.

Lemma keeps_createTenantUser slug email : keeps (cluster at_start) (createTenantUser slug email).
Proof.
  unfold createTenantUser, FirstOrgID, CreateHumanUser, AddOrgMember, genPassword. keeps_tac.
Qed.

End effects.

End server.

(** ** An operator switches office on *)
Module ServerDemo.
#[export] Instance provider : ZitadelServer unit :=
  {| z_http := λ _ _ _ _ _ z, ((200%Z, Some (JObj [])), z);
     z_get := λ _ tok _ _, if bool_decide (tok = Some "t1") then (200%Z, Some (JObj [("sub", JStr "u1")])) else (401%Z, None) |}.
#[export] Instance platform : Platform := counting_platform.
#[export] Instance tuples : OpenFGA :=
  {| fga_check := λ T t, bool_decide (t ∈ T); fga_list := λ _ _ _ _, [];
     fga_write := λ T t, Some ({[t]} ∪ T); fga_delete := λ T t, Some (T ∖ {[t]}) |}.
#[export] Instance no_json : JsonParser := {| json_parse := λ _, None |}.
#[export] Instance texts : ServerText := {| error_text := λ _, "error"; valid_email := λ _, true; bind_path := Ok |}.

Definition cfg : ServerConfig := MkServerConfig "https://cp.peristera.app" "https://iam.peristera.app" ["u1"].
Definition rp : Oidcrp.Config := Oidcrp.MkConfig "https://iam.peristera.app" "" "" "cp_session" true 0.
Definition memory : Memory := MkMemory (Oidcrp.MkState (NewStore 1) (NewStore 1)) (NewStore 60).
Definition acme : Tenant :=
  MkTenant "acme" 1 1 false [] (MkTenantSpec "acme" "" "" []) (MkTenantStatus "" "" "" "" []).
Definition w0 : world (CP unit) := (seedOperators cfg (boot (MkCP {["acme" := acme]} ∅ tt []))).2.
Definition put_apps (token : string) : Request :=
  MkRequest "" ∅ {["Authorization" := "Bearer " +:+ token]} ∅ [] (Some (JObj [("apps", jstrs ["office"; "office"])])).
Definition serve (token : string) :=
  api_serve cfg rp "cp-client" "PUT" ["tenants"; "acme"; "apps"] (put_apps token) memory w0.

Definition status {A} (x : res (Response * A) * world (CP unit)) : option Z :=
  match x.1 with Ok (resp, _) => Some (rs_status resp) | Err _ => None end.
Definition enabled_apps (w : world (CP unit)) : option (list string) := ts_Apps ∘ t_Spec <$> cp_tenants (w_db w) !! "acme".

Example only_operators :
  status (serve "t1") = Some 200%Z ∧ enabled_apps (serve "t1").2 = Some ["office"] ∧ status (serve "t2") = Some 401%Z.
Proof. vm_compute. auto. Qed.

(** A reserved slug passes the handler's check and is refused by the cluster: the
    caller's mistake is answered as the server's. *)
Definition create (slug : string) : Request :=
  MkRequest "" ∅ {["Authorization" := "Bearer t1"]} ∅ [] (Some (JObj [("slug", JStr slug)])).
Example reserved_slug_is_500 :
  (λ s, status (api_serve cfg rp "cp-client" "POST" ["tenants"] (create s) memory w0)) <$> ["iam"; "-x"; "acme"; "beta"] =
  [Some 500; Some 400; Some 409; Some 201]%Z.
Proof. vm_compute. reflexivity. Qed.
End ServerDemo.
