(* ===== verification/Userinfo.v ===== *)
(** * Userinfo: bearer authentication of the storage API
    (kamara/internal/api/auth_userinfo.go)

    [UserinfoAuth] resolves a token to a subject at the provider's userinfo endpoint
    and caches the answer in a session store.  A call reads the clock three times
    and asks the provider in between, so it carries four times; theorems are about
    any sequence of calls at any such times, against a provider whose answers change.
    Calls run one after the other. *)

From stdpp Require Import pretty.
From S2P Require Import Prelude GoText Pii SessionStore Http Json Base64 World Repo Api.
Import Pii Session.

(** The answer to a GET of the URL with the bearer token at a time: a failure to get
    one, or the status and the body ([None] when it is not JSON). *)
Class UserinfoEndpoint := { userinfo : Z → string → string → res (Z * option json) }.

Record UserinfoAuth := MkUserinfoAuth {
  ua_issuer : string;
  ua_instance : string;
  ua_cache : Store Subject;
}.

Definition userinfo_ttl (ttl : Z) : Z := if (ttl =? 0)%Z then 60 * 1000000000 else ttl.

Definition NewUserinfoAuth (issuer instance : string) (ttl : Z) : UserinfoAuth :=
  MkUserinfoAuth issuer instance (NewStore (userinfo_ttl ttl)).

(** When a call checks the expiry, reads the cache, is answered by the provider, and
    writes the cache. *)
Record CallTimes := MkCallTimes { ct_expiry : Z; ct_get : Z; ct_answer : Z; ct_put : Z }.

Section auth.
Context {JP : JsonParser} {U : UserinfoEndpoint}.
Implicit Types (a : UserinfoAuth) (t : CallTimes) (token : string).

Definition tokenExpired (token : string) (now : Z) : bool :=
  match split_byte "."%char token with
  | [_; part; _] =>
      match RawURLDecode part with
      | None => false
      | Some payload =>
          match json_parse payload with
          | None => false
          | Some j =>
              match dec_int64 "exp" j with
              | Err _ => false
              | Ok exp => if (exp =? 0)%Z then false else (exp <=? now / 1000000000)%Z
              end
          end
      end
  | _ => false
  end.

Definition with_cache (c : Store Subject) a : UserinfoAuth := MkUserinfoAuth (ua_issuer a) (ua_instance a) c.

Definition ask a t token : res (Z * option json) :=
  userinfo (ct_answer t) (ua_issuer a +:+ "/oidc/v1/userinfo") token.

(** UserinfoAuth.Subject: [Ok None] is a token that is not valid, [Err] a provider that
    cannot tell. *)
Definition Subject_of a t token : res (option Subject) * UserinfoAuth :=
  if tokenExpired token (ct_expiry t) then (Ok None, a)
  else
    let '(hit, cache) := Get (ct_get t) token (ua_cache a) in
    let a := with_cache cache a in
    match hit with
    | Some s => (Ok (Some s), a)
    | None =>
        match ask a t token with
        | Err e => (Err e, a)
        | Ok (status, body) =>
            if ((status =? 401) || (status =? 403))%Z then (Ok None, a)
            else if negb (status =? 200)%Z then
              (Err (ErrText ("userinfo: unexpected status " +:+ pretty status)), a)
            else
              match body with
              | None => (Err (ErrWrap "userinfo: decode" errDecode), a)
              | Some j =>
                  match dec_string "sub" j with
                  | Err e => (Err (ErrWrap "userinfo: decode" e), a)
                  | Ok sub =>
                      if bool_decide (sub = "") then (Err (ErrText "userinfo: no sub claim"), a)
                      else
                        let s := MkSubject (ua_instance a) sub in
                        (Ok (Some s), with_cache (Put (ct_put t) token s cache) a)
                  end
              end
        end
    end.

(** A sequence of calls. *)
Fixpoint run_calls (l : list (CallTimes * string)) a : UserinfoAuth :=
  match l with
  | [] => a
  | (t, token) :: l' => run_calls l' (Subject_of a t token).2
  end.

(** ** Where an answer comes from *)

(** At time [x] the provider of [issuer] names [user] as the subject of [token]. *)
Definition vouched (issuer : string) (x : Z) (token user : string) : Prop :=
  ∃ j, userinfo x (issuer +:+ "/oidc/v1/userinfo") token = Ok (200%Z, Some j) ∧
    dec_string "sub" j = Ok user ∧ user ≠ "".

Definition denied (issuer : string) (x : Z) (token : string) : Prop :=
  ∃ status body, userinfo x (issuer +:+ "/oidc/v1/userinfo") token = Ok (status, body) ∧
    (status = 401 ∨ status = 403)%Z.

(** A cached entry is the provider's answer to one of the calls [l]. *)
Definition cached_from (l : list (CallTimes * string)) (issuer instance : string) (ttl : Z)
    (token : string) (e : entry Subject) : Prop :=
  ∃ t user, (t, token) ∈ l ∧ vouched issuer (ct_answer t) token user ∧
    e = MkEntry (MkSubject instance user) (ct_put t + ttl).

Definition auth_inv (l : list (CallTimes * string)) (issuer instance : string) (ttl : Z) a : Prop :=
  ua_issuer a = issuer ∧ ua_instance a = instance ∧ st_ttl (ua_cache a) = ttl ∧
  ∀ token e, st_items (ua_cache a) !! token = Some e → cached_from l issuer instance ttl token e.

Lemma cached_from_snoc l x issuer instance ttl token e :
  cached_from l issuer instance ttl token e → cached_from (l ++ [x]) issuer instance ttl token e.
Proof. intros (t&u&Hin&H). exists t, u. split; [apply elem_of_app; by left|done]. Qed.

(** What one call answers, and what it leaves. *)
Lemma Subject_of_spec l issuer instance ttl a t token :
  auth_inv l issuer instance ttl a →
  let '(r, a') := Subject_of a t token in
  auth_inv (l ++ [(t, token)]) issuer instance ttl a' ∧
  match r with
  | Ok (Some s) => tokenExpired token (ct_expiry t) = false ∧ Instance s = instance ∧
      (vouched issuer (ct_answer t) token (UserID s) ∨
       ∃ t', (t', token) ∈ l ∧ vouched issuer (ct_answer t') token (UserID s) ∧
         (ct_get t <= ct_put t' + ttl)%Z)
  | Ok None => tokenExpired token (ct_expiry t) = true ∨ denied issuer (ct_answer t) token
  | Err _ => True
  end.
Proof.
  intros (Hi&Hn&Ht&Hc). unfold Subject_of.
  assert (∀ c, st_ttl c = ttl → (∀ k e, st_items c !! k = Some e → st_items (ua_cache a) !! k = Some e) →
    auth_inv (l ++ [(t, token)]) issuer instance ttl (with_cache c a)) as Hkeep.
  { intros c Hct Hcs. split_and!; [done..|]. intros k e Hk. by apply cached_from_snoc, Hc, Hcs. }
  destruct (tokenExpired token (ct_expiry t)) eqn:Ex.
  { split; [|by left]. specialize (Hkeep (ua_cache a) Ht (λ _ _ H, H)). by destruct a. }
  pose proof (Get_ttl (ct_get t) token (ua_cache a)) as Gt.
  pose proof (Get_items (ct_get t) token (ua_cache a)) as Gi.
  pose proof (Get_live (ct_get t) token (ua_cache a)) as Gl.
  destruct (Get (ct_get t) token (ua_cache a)) as [hit cache]. cbn [fst snd] in *.
  pose proof (Hkeep cache ltac:(congruence) Gi) as Hk.
  destruct hit as [s|].
  { split; [done|]. destruct (Gl s eq_refl) as (e&He&<-&Hx). destruct (Hc _ _ He) as (t'&u&Hin&Hv&->).
    cbn in *. eauto 10. }
  unfold ask. cbn [ua_issuer with_cache]. rewrite Hi.
  destruct (userinfo _ _ token) as [[status body]|e] eqn:Eu; [|done].
  destruct (Z.eqb_spec status 401) as [->|]; [split; [done|]; right; do 2 eexists; eauto|].
  destruct (Z.eqb_spec status 403) as [->|]; [split; [done|]; right; do 2 eexists; eauto|].
  destruct (Z.eqb_spec status 200) as [->|]; [|done]. cbn [orb negb].
  destruct body as [j|]; [|done]. destruct (dec_string "sub" j) as [sub|] eqn:Es; [|done].
  case_bool_decide as Hs; [done|].
  assert (vouched issuer (ct_answer t) token sub) as Hv by (by exists j).
  split; [|cbn; eauto]. split_and!; [done|done|etrans; [apply Put_ttl|congruence]|].
  intros k e [[-> ->]|H]%Put_items; [|by apply cached_from_snoc, Hc, Gi].
  exists t, sub. cbn [ua_instance with_cache]. rewrite Gt, Ht, Hn. split; [|done].
  apply elem_of_app. right. by left.
Qed.

Lemma run_calls_inv l l0 issuer instance ttl a :
  auth_inv l0 issuer instance ttl a → auth_inv (l0 ++ l) issuer instance ttl (run_calls l a).
Proof.
  revert l0 a. induction l as [|[t token] l IH]; intros l0 a HI; cbn [run_calls]; [by rewrite app_nil_r|].
  pose proof (Subject_of_spec l0 _ _ _ a t token HI) as H.
  destruct (Subject_of a t token) as [r a']. destruct H as [H _]. specialize (IH _ _ H).
  by rewrite <- app_assoc in IH.
Qed.

Lemma NewUserinfoAuth_inv issuer instance ttl :
  auth_inv [] issuer instance (userinfo_ttl ttl) (NewUserinfoAuth issuer instance ttl).
Proof. split_and!; [done..|]. intros k e H. cbn in H. by rewrite lookup_empty in H. Qed.

(** A call asks the provider after it missed the cache, and stores the answer at most
    [d] after the provider gave it. *)
Definition timely (d : Z) (x : CallTimes * string) : Prop :=
  (ct_get x.1 <= ct_answer x.1 ∧ ct_put x.1 <= ct_answer x.1 + d)%Z.

(** C34: a token is accepted only for a user the provider named for it recently, and
    denied only when it is not valid.  After any calls whose answers were stored
    within [d], a call that accepts a token was made before the token's own expiry
    and names a user of this tenant whom the provider named for this very token, no
    longer ago than the cache's lifetime and [d]: a token the provider stops vouching
    for is refused from then on.  A call that denies a token was made after its expiry
    or was told so by the provider; anything else that goes wrong is an error. *)
Theorem userinfo_sound issuer instance ttl d l t token :
  (0 <= ttl)%Z → (0 <= d)%Z → Forall (timely d) l → timely d (t, token) →
  let r := (Subject_of (run_calls l (NewUserinfoAuth issuer instance ttl)) t token).1 in
  (∀ s, r = Ok (Some s) →
     tokenExpired token (ct_expiry t) = false ∧ Instance s = instance ∧
     ∃ x, (ct_get t - (userinfo_ttl ttl + d) <= x)%Z ∧ vouched issuer x token (UserID s)) ∧
  (r = Ok None → tokenExpired token (ct_expiry t) = true ∨ denied issuer (ct_answer t) token).
Proof.
  intros Httl Hd Hl [Ht _]. cbn in Ht. pose proof (run_calls_inv l [] _ _ _ _ (NewUserinfoAuth_inv issuer instance ttl)) as HI.
  cbn [app] in HI. pose proof (Subject_of_spec _ _ _ _ _ t token HI) as H.
  assert (0 <= userinfo_ttl ttl)%Z as Hu by (unfold userinfo_ttl; destruct (ttl =? 0)%Z; lia).
  destruct (Subject_of _ t token) as [r a']. destruct H as [_ H]. cbn [fst]. split.
  - intros s ->. destruct H as (He&Hi&[Hv|(t'&Hin&Hv&Hx)]); split_and!; try done.
    + exists (ct_answer t). split; [lia|done].
    + exists (ct_answer t'). split; [|done].
      rewrite Forall_forall in Hl. destruct (Hl _ Hin) as [_ Hp]. cbn in Hp. lia.
  - by intros ->.
Qed.

(** ** The interface the API is verified against *)

(** The authenticator of one request, with the cache as it is then; every clock reading
    is the request's. *)
Definition userinfo_authenticator a : Authenticator.
Proof.
  refine {| auth_Subject := λ token w,
    ((Subject_of a (MkCallTimes (w_now w) (w_now w) (w_now w) (w_now w)) token).1, w) |}.
  by intros token w.
Defined.
End auth.

(** ** A token the provider revokes at time 100 *)
Module UserinfoDemo.
#[export] Instance parser : JsonParser :=
  {| json_parse := λ b, if bool_decide (b = str_bytes "{}") then Some (JObj [("exp", JNum 300)]) else None |}.
#[export] Instance endpoint : UserinfoEndpoint :=
  {| userinfo := λ x _ _, if (x <? 100)%Z then Ok (200%Z, Some (JObj [("sub", JStr "u1")])) else Ok (401%Z, None) |}.

(** The payload is the base64 of [{}]. *)
Definition jwt : string := "h.e30.s".
Definition at_ (x : Z) : CallTimes := MkCallTimes x x x x.
Definition answer (before : list Z) (x : Z) : res (option Subject) :=
  (Subject_of (run_calls ((λ y, (at_ y, jwt)) <$> before) (NewUserinfoAuth "https://idp" "acme.example" 10)) (at_ x) jwt).1.

Example answers :
  answer [] 95 = Ok (Some (MkSubject "acme.example" "u1")) ∧
  answer [95]%Z 105 = Ok (Some (MkSubject "acme.example" "u1")) ∧
  answer [95; 105]%Z 106 = Ok None ∧
  answer [] 105 = Ok None ∧
  tokenExpired jwt (299999999999) = false ∧ tokenExpired jwt (300000000000) = true.
Proof. vm_compute. repeat split. Qed.

Definition sound_at (before : list Z) (x : Z) : Prop :=
  let r := answer before x in
  (∀ s, r = Ok (Some s) → tokenExpired jwt x = false ∧ Instance s = "acme.example" ∧
     ∃ y, (x - (10 + 0) <= y)%Z ∧ vouched "https://idp" y jwt (UserID s)) ∧
  (r = Ok None → tokenExpired jwt x = true ∨ denied "https://idp" x jwt).

Lemma userinfo_sound_witness : sound_at [95%Z] 105 ∧ answer [95%Z] 105 = Ok (Some (MkSubject "acme.example" "u1")).
Proof.
  split; [|vm_compute; reflexivity].
  refine (userinfo_sound "https://idp" "acme.example" 10 0 [(at_ 95, jwt)] (at_ 105) jwt _ _ _ _); try lia.
  - repeat constructor; cbn; lia.
  - split; cbn; lia.
Defined.
End UserinfoDemo.
