(* ===== verification/Svcauth.v ===== *)
(** * Svcauth: service-to-service tokens (lib/svcauth/svcauth.go)

    A service exchanges a user's access token for one it can present to another service
    ([OnBehalfOf]), and a callee asks the provider about a token ([Introspect]).  Both
    authenticate with a client assertion signed by the app's key.  RSA, PEM and the text
    of JSON are parameters, and so is the provider: what it answers to a form posted to
    one of its URLs at a time. *)

From S2P Require Import Prelude GoText Url Http Forms Json Base64 Sha256.

(** ** Parameters *)

(** encoding/pem, crypto/x509 and crypto/rsa.  [SignPKCS1v15] is given a SHA-256 digest. *)
Class AppKeys := {
  PrivateKey : Type;
  PublicKey : Type;
  public : PrivateKey → PublicKey;
  pem_Decode : string → option bytes;
  ParsePKCS1PrivateKey : bytes → option PrivateKey;
  ParsePKCS8PrivateKey : bytes → res (option PrivateKey);   (* [None]: a key of another kind *)
  SignPKCS1v15 : PrivateKey → bytes → bytes;
  VerifyPKCS1v15 : PublicKey → bytes → bytes → bool;
}.

Class AppKeysOk {A : AppKeys} := {
  sign_verify : ∀ k digest, VerifyPKCS1v15 (public k) digest (SignPKCS1v15 k digest) = true;
}.

(** json.Marshal. *)
Class JsonPrinter := { json_marshal : json → bytes }.

(** Strings that are text, and integers. *)
Definition flat (v : json) : bool :=
  match v with JStr s => Forms.Valid (str_bytes s) | JNum _ => true | _ => false end.

Class JsonTextOk {JP : JsonParser} {JR : JsonPrinter} := {
  parse_marshal : ∀ l, forallb (λ kv, Forms.Valid (str_bytes kv.1) && flat kv.2) l = true →
    json_parse (json_marshal (JObj l)) = Some (JObj l);
}.

(** The answer to a POST of a form to the URL at a time: a failure to get one, or the
    status and the body ([None] when it is not JSON). *)
Class TokenProvider := { form_post : Z → string → string → res (Z * option json) }.

(** strings.TrimRight(s, "/") *)
Fixpoint trim_slashes (s : string) : string :=
  match s with String "/"%char s' => trim_slashes s' | _ => s end.
Definition TrimRight_slash (s : string) : string := string_rev (trim_slashes (string_rev s)).

Definition ProjectAudienceScope (projectID : string) : string :=
  "urn:zitadel:iam:org:project:id:" +:+ projectID +:+ ":aud".

Record appKey := MkAppKey { ak_KeyID : string; ak_Key : string; ak_ClientID : string }.

Definition dec_appKey (j : json) : res appKey :=
  match dec_string "keyId" j, dec_string "key" j, dec_string "clientId" j with
  | Ok i, Ok k, Ok c => Ok (MkAppKey i k c)
  | Err e, _, _ | _, Err e, _ | _, _, Err e => Err e
  end.

Definition jwt_bearer : string := "urn:ietf:params:oauth:client-assertion-type:jwt-bearer".
Definition access_token_type : string := "urn:ietf:params:oauth:token-type:access_token".
Definition token_exchange : string := "urn:ietf:params:oauth:grant-type:token-exchange".

Record TokenInfo := MkTokenInfo { ti_Active : bool; ti_Subject : string; ti_ActorClient : string; ti_ActorName : string }.

Section svcauth.
Context {AK : AppKeys} {JP : JsonParser} {JR : JsonPrinter} {TP : TokenProvider}.

Record Exchanger := MkExchanger {
  ex_issuer : string;
  ex_tokenURL : string;
  ex_clientID : string;
  ex_keyID : string;
  ex_key : PrivateKey;
  ex_projScope : string;
}.

Record Validator := MkValidator {
  va_introspectURL : string;
  va_clientID : string;
  va_keyID : string;
  va_key : PrivateKey;
  va_issuer : string;
}.

Definition parseRSAKey (pemStr : string) : res PrivateKey :=
  match pem_Decode pemStr with
  | None => Err (ErrText "no PEM block in app key")
  | Some block =>
      match ParsePKCS1PrivateKey block with
      | Some k => Ok k
      | None =>
          match ParsePKCS8PrivateKey block with
          | Err e => Err (ErrWrap "parsing app key" e)
          | Ok None => Err (ErrText "app key is not RSA")
          | Ok (Some k) => Ok k
          end
      end
  end.

(** json.Unmarshal into an appKey. *)
Definition unmarshal_appKey (keyJSON : bytes) : res appKey :=
  match json_parse keyJSON with
  | None => Err (ErrWrap "svcauth: parsing app key" errDecode)
  | Some j => match dec_appKey j with Ok k => Ok k | Err e => Err (ErrWrap "svcauth: parsing app key" e) end
  end.

Definition NewExchanger (issuer projectID : string) (keyJSON : bytes) : res Exchanger :=
  match unmarshal_appKey keyJSON with
  | Err e => Err e
  | Ok k =>
      if bool_decide (ak_ClientID k = "") || bool_decide (ak_Key k = "")
      then Err (ErrText "svcauth: app key missing clientId or key")
      else
        match parseRSAKey (ak_Key k) with
        | Err e => Err (ErrWrap "svcauth" e)
        | Ok priv =>
            Ok (MkExchanger issuer (TrimRight_slash issuer +:+ "/oauth/v2/token") (ak_ClientID k) (ak_KeyID k) priv
                  (ProjectAudienceScope projectID))
        end
  end.

Definition NewValidator (issuer : string) (keyJSON : bytes) : res Validator :=
  match unmarshal_appKey keyJSON with
  | Err e => Err e
  | Ok k =>
      match parseRSAKey (ak_Key k) with
      | Err e => Err (ErrWrap "svcauth" e)
      | Ok priv =>
          Ok (MkValidator (TrimRight_slash issuer +:+ "/oauth/v2/introspect") (ak_ClientID k) (ak_KeyID k) priv issuer)
      end
  end.

Definition b64json (v : json) : string := base64url_encode (json_marshal v).

(** Unix seconds of a time. *)
Definition unix (t : Z) : Z := (t / 1000000000)%Z.

(** A map is marshalled with its keys in order. *)
Definition assertion_header (keyID : string) : json :=
  JObj [("alg", JStr "RS256"); ("kid", JStr keyID); ("typ", JStr "JWT")].
Definition assertion_claims (clientID issuer : string) (now : Z) : json :=
  JObj [("aud", JStr issuer); ("exp", JNum (unix (now + 5 * 60 * 1000000000))); ("iat", JNum (unix now));
        ("iss", JStr clientID); ("sub", JStr clientID)].

Definition clientAssertion (now : Z) (clientID keyID issuer : string) (key : PrivateKey) : string :=
  let signingInput := b64json (assertion_header keyID) +:+ "." +:+ b64json (assertion_claims clientID issuer now) in
  let sum := Sha256.Sum256 (str_bytes signingInput) in
  signingInput +:+ "." +:+ base64url_encode (SignPKCS1v15 key sum).

Definition assertion (now : Z) (e : Exchanger) : string :=
  clientAssertion now (ex_clientID e) (ex_keyID e) (ex_issuer e) (ex_key e).

(** The form of the exchange, in the order Encode writes it. *)
Definition exchange_form (now : Z) (e : Exchanger) (userAccessToken : string) : list (string * string) :=
  [("client_assertion", assertion now e);
   ("client_assertion_type", jwt_bearer);
   ("grant_type", token_exchange);
   ("requested_token_type", access_token_type);
   ("scope", "openid " +:+ ex_projScope e);
   ("subject_token", userAccessToken);
   ("subject_token_type", access_token_type)].

(** An answer of the provider, decoded; the body an error quotes is not kept. *)
Definition decode_answer {A} (what : string) (dec : json → res A) (answer : res (Z * option json)) : res A :=
  match answer with
  | Err e => Err (ErrWrap ("svcauth: " +:+ what) e)
  | Ok (status, body) =>
      if (300 <=? status)%Z then Err (ErrText ("svcauth: " +:+ what +:+ ": " +:+ pretty status))
      else
        match body with
        | None => Err (ErrWrap ("svcauth: " +:+ what +:+ " response") errDecode)
        | Some j =>
            match dec j with
            | Err e => Err (ErrWrap ("svcauth: " +:+ what +:+ " response") e)
            | Ok a => Ok a
            end
        end
  end.

Definition OnBehalfOf (now : Z) (e : Exchanger) (userAccessToken : string) : res string :=
  if bool_decide (userAccessToken = "") then Err (ErrText "svcauth: no user access token to exchange")
  else
    match decode_answer "token exchange" (dec_string "access_token")
            (form_post now (ex_tokenURL e) (Encode (exchange_form now e userAccessToken))) with
    | Err err => Err err
    | Ok tok =>
        if bool_decide (tok = "") then Err (ErrText "svcauth: token exchange returned no access_token") else Ok tok
    end.

Definition introspect_form (now : Z) (v : Validator) (token : string) : list (string * string) :=
  [("client_assertion", clientAssertion now (va_clientID v) (va_keyID v) (va_issuer v) (va_key v));
   ("client_assertion_type", jwt_bearer);
   ("token", token)].

Record introspection := MkIntrospection {
  in_Active : bool; in_Sub : string; in_Azp : string; in_Username : string; in_ClientID : string }.

Definition dec_introspection (j : json) : res introspection :=
  match dec_bool "active" j, dec_string "sub" j, dec_string "azp" j, dec_string "username" j, dec_string "client_id" j with
  | Ok a, Ok s, Ok z, Ok u, Ok c => Ok (MkIntrospection a s z u c)
  | Err e, _, _, _, _ | _, Err e, _, _, _ | _, _, Err e, _, _ | _, _, _, Err e, _ | _, _, _, _, Err e => Err e
  end.

Definition Introspect (now : Z) (v : Validator) (token : string) : res TokenInfo :=
  match decode_answer "introspect" dec_introspection
          (form_post now (va_introspectURL v) (Encode (introspect_form now v token))) with
  | Err e => Err e
  | Ok out =>
      if negb (in_Active out) then Ok (MkTokenInfo false "" "" "")
      else
        let actorClient := if bool_decide (in_Azp out = "") then in_ClientID out else in_Azp out in
        Ok (MkTokenInfo true (in_Sub out) actorClient (in_Username out))
  end.

(** ** What the provider sees *)

(** The check of a self-signed token (RFC 7523): three parts, signed over the first two by
    the key, a header the provider asks for, issued by and about [who], for this audience,
    and not expired. *)
Definition jwt_accepted (pub : PublicKey) (header_ok : json → bool) (who aud : string) (now : Z) (a : string) : bool :=
  match split_byte "."%char a with
  | [h; c; sg] =>
      match RawURLDecode h ≫= json_parse, RawURLDecode c ≫= json_parse, RawURLDecode sg with
      | Some hj, Some cj, Some sig =>
          VerifyPKCS1v15 pub (Sha256.Sum256 (str_bytes (h +:+ "." +:+ c))) sig && header_ok hj &&
          bool_decide (dec_string "iss" cj = Ok who) && bool_decide (dec_string "sub" cj = Ok who) &&
          bool_decide (dec_string "aud" cj = Ok aud) &&
          match dec_int64 "iat" cj, dec_int64 "exp" cj with
          | Ok iat, Ok exp => (iat <=? unix now)%Z && (unix now <? exp)%Z
          | _, _ => false
          end
      | _, _, _ => false
      end
  | _ => false
  end.

(** For a client assertion the header names the algorithm and the key. *)
Definition assertion_accepted (pub : PublicKey) (clientID keyID issuer : string) (now : Z) (a : string) : bool :=
  jwt_accepted pub (λ hj, bool_decide (dec_string "alg" hj = Ok "RS256") && bool_decide (dec_string "kid" hj = Ok keyID))
    clientID issuer now a.

Context {AKO : AppKeysOk} {JO : JsonTextOk}.

(** Names that are text, and a time whose seconds fit an int64. *)
Definition sane (now : Z) (clientID keyID issuer : string) : Prop :=
  Forall (λ s, Forms.Valid (str_bytes s) = true) [clientID; keyID; issuer] ∧
  (0 <= now)%Z ∧ (unix now + 300 < 2 ^ 63)%Z.

(** The claims of a token signed at [now] that lives [life] seconds. *)
Definition jwt_claims (who aud : string) (now life : Z) : json :=
  JObj [("aud", JStr aud); ("exp", JNum (unix now + life)); ("iat", JNum (unix now)); ("iss", JStr who); ("sub", JStr who)].

Definition signed (key : PrivateKey) (h c : bytes) : string :=
  let input := base64url_encode h +:+ "." +:+ base64url_encode c in
  input +:+ "." +:+ base64url_encode (SignPKCS1v15 key (Sha256.Sum256 (str_bytes input))).

Lemma signed_parts key h c :
  split_byte "."%char (signed key h c) =
  [base64url_encode h; base64url_encode c;
   base64url_encode (SignPKCS1v15 key (Sha256.Sum256 (str_bytes (base64url_encode h +:+ "." +:+ base64url_encode c))))].
Proof.
  unfold signed. rewrite !string_app_assoc.
  change ("." +:+ ?u) with (String "." u). rewrite split_byte_app, split_byte_plain by apply base64url_no_dot.
  change ("." +:+ ?u) with (String "." u). rewrite split_byte_app, !split_byte_plain by apply base64url_no_dot.
  done.
Qed.

Lemma unix_later now s : unix (now + s * 1000000000) = (unix now + s)%Z.
Proof. unfold unix. by rewrite Z.div_add by lia. Qed.

(** A signed token is accepted from the moment it is signed, for as long as it lives. *)
Lemma signed_accepted key h hj header_ok who aud now now' life :
  json_parse h = Some hj → header_ok hj = true → Forall (λ s, Forms.Valid (str_bytes s) = true) [who; aud] →
  (0 <= now <= now')%Z → (0 <= life)%Z → (unix now + life < 2 ^ 63)%Z →
  jwt_accepted (public key) header_ok who aud now' (signed key h (json_marshal (jwt_claims who aud now life))) =
  (unix now' <? unix now + life)%Z.
Proof.
  intros Hh Hok Hv Hle Hl Hmax. rewrite !Forall_cons in Hv. destruct Hv as (V1&V2&_).
  unfold jwt_accepted, jwt_claims. rewrite signed_parts, !RawURLDecode_encode. change (Some ?x ≫= json_parse) with (json_parse x). rewrite Hh.
  rewrite parse_marshal by (cbn [forallb flat fst snd]; by rewrite ?V1, ?V2).
  rewrite sign_verify, Hok. change (dec_string "iss" _) with (Ok who : res string).
  change (dec_string "sub" _) with (Ok who : res string). change (dec_string "aud" _) with (Ok aud : res string).
  rewrite !bool_decide_eq_true_2 by done. cbn [andb].
  assert (∀ l, (- 2 ^ 63 <= l < 2 ^ 63)%Z → as_int64 (JNum l) = Ok l) as Hint.
  { intros l Hlt. unfold as_int64. by rewrite (proj2 (Z.leb_le _ _)), (proj2 (Z.ltb_lt _ _)) by lia. }
  assert (0 <= unix now)%Z as Hu by (apply Z.div_pos; lia).
  change (dec_int64 "iat" _) with (match as_int64 (JNum (unix now)) with Ok a => Ok a | Err e => Err e end).
  change (dec_int64 "exp" _) with (match as_int64 (JNum (unix now + life)) with Ok a => Ok a | Err e => Err e end).
  rewrite !Hint by lia. rewrite (proj2 (Z.leb_le _ _)); [done|]. apply Z.div_le_mono; lia.
Qed.

(** A client assertion lives five minutes. *)
Lemma clientAssertion_accepted now now' clientID keyID issuer key :
  sane now clientID keyID issuer → (now <= now')%Z →
  assertion_accepted (public key) clientID keyID issuer now' (clientAssertion now clientID keyID issuer key) =
  (unix now' <? unix now + 300)%Z.
Proof.
  intros (Hv&H0&Hmax) Hle. rewrite !Forall_cons in Hv. destruct Hv as (V1&V2&V3&_).
  assert (clientAssertion now clientID keyID issuer key =
    signed key (json_marshal (assertion_header keyID)) (json_marshal (jwt_claims clientID issuer now 300))) as ->.
  { unfold clientAssertion, assertion_claims. change (5 * 60 * 1000000000)%Z with (300 * 1000000000)%Z. by rewrite unix_later. }
  apply (signed_accepted _ _ (assertion_header keyID)); [|by rewrite !bool_decide_eq_true_2|by repeat constructor|lia|lia|done].
  apply parse_marshal. cbn [forallb flat fst snd]. by rewrite V2.
Qed.

Lemma decode_answer_Ok {A} what (dec : json → res A) answer a :
  decode_answer what dec answer = Ok a →
  ∃ status j, answer = Ok (status, Some j) ∧ (status < 300)%Z ∧ dec j = Ok a.
Proof.
  unfold decode_answer. destruct answer as [[status body]|e]; [|done].
  destruct (Z.leb_spec 300 status); [done|]. destruct body as [j|]; [|done].
  destruct (dec j) as [a'|] eqn:E; [|done]. intros [= <-]. eauto.
Qed.

(** The provider reads the form [pairs], posted by the client with this assertion. *)
Definition reads_as (body : string) (pairs : list (string * string)) : Prop := ParseQuery body = (pairs, true).

Definition asserted_by (now now' : Z) (clientID keyID issuer : string) (key : PrivateKey)
    (pairs : list (string * string)) : Prop :=
  first_value "client_assertion_type" pairs = Some jwt_bearer ∧
  ∃ a, first_value "client_assertion" pairs = Some a ∧
    assertion_accepted (public key) clientID keyID issuer now' a = (unix now' <? unix now + 300)%Z.

(** C35: an exchanged token is the provider's answer about exactly this user's token.
    [OnBehalfOf] succeeds only with a non-empty token that the provider returned, with
    a success status, for a form that it reads as: a token exchange of this very access
    token, whatever characters it has, into the audience of the tenant's project, by a
    client whose assertion it accepts from the moment of signing for five minutes and
    not longer.  [Introspect] yields a subject only when the provider said, for this
    very token and the same kind of assertion, that the token is active with that
    subject; for an inactive one every field is empty. *)
Theorem svcauth_answers_authentic (e : Exchanger) (v : Validator) now now' token :
  sane now (ex_clientID e) (ex_keyID e) (ex_issuer e) → sane now (va_clientID v) (va_keyID v) (va_issuer v) →
  (now <= now')%Z →
  (∀ tok, OnBehalfOf now e token = Ok tok →
     tok ≠ "" ∧ token ≠ "" ∧
     ∃ body pairs status j, form_post now (ex_tokenURL e) body = Ok (status, Some j) ∧ (status < 300)%Z ∧
       dec_string "access_token" j = Ok tok ∧ reads_as body pairs ∧
       first_value "grant_type" pairs = Some token_exchange ∧ first_value "subject_token" pairs = Some token ∧
       first_value "scope" pairs = Some ("openid " +:+ ex_projScope e) ∧
       asserted_by now now' (ex_clientID e) (ex_keyID e) (ex_issuer e) (ex_key e) pairs) ∧
  (∀ info, Introspect now v token = Ok info →
     ∃ body pairs status j out, form_post now (va_introspectURL v) body = Ok (status, Some j) ∧ (status < 300)%Z ∧
       dec_introspection j = Ok out ∧ reads_as body pairs ∧ first_value "token" pairs = Some token ∧
       asserted_by now now' (va_clientID v) (va_keyID v) (va_issuer v) (va_key v) pairs ∧
       ti_Active info = in_Active out ∧
       (if in_Active out then ti_Subject info = in_Sub out else info = MkTokenInfo false "" "" "")).
Proof.
  intros He Hv Hle. split.
  - intros tok. unfold OnBehalfOf. case_bool_decide as Ht; [done|].
    destruct (decode_answer _ _ _) as [t|] eqn:E; [|done]. apply decode_answer_Ok in E as (st&j&Hp&Hs&Hj).
    case_bool_decide as Hn; [done|]. intros [= <-]. split_and!; [done|done|]. do 4 eexists.
    split; [exact Hp|]. split; [done|]. split; [done|]. split; [apply ParseQuery_Encode|].
    do 3 (split; [done|]). split; [done|]. eexists. split; [reflexivity|]. by apply clientAssertion_accepted.
  - intros info. unfold Introspect. destruct (decode_answer _ _ _) as [out|] eqn:E; [|done].
    apply decode_answer_Ok in E as (st&j&Hp&Hs&Hj). intros Hi. do 5 eexists.
    split; [exact Hp|]. split; [done|]. split; [done|]. split; [apply ParseQuery_Encode|]. split; [done|]. split.
    { split; [done|]. eexists. split; [reflexivity|]. by apply clientAssertion_accepted. }
    destruct (in_Active out); cbn [negb] in Hi; by injection Hi as <-.
Qed.
End svcauth.

(** ** A key, a provider and a text format *)
Module SvcauthDemo.
(** Keys are names and a signature is the name before the digest. *)
#[export] Instance keys : AppKeys := {|
  PrivateKey := string; PublicKey := string; public := id;
  pem_Decode p := if has_prefix p "-----BEGIN" then Some (str_bytes p) else None;
  ParsePKCS1PrivateKey b := Some (bytes_str b);
  ParsePKCS8PrivateKey _ := Ok None;
  SignPKCS1v15 k d := str_bytes k ++ d;
  VerifyPKCS1v15 k d sg := bool_decide (sg = str_bytes k ++ d);
|}.
#[export] Instance keys_ok : AppKeysOk.
Proof. split. intros k d. by apply bool_decide_eq_true_2. Qed.

(** Flat objects as query strings, with integers in binary. *)
Fixpoint pos_text (p : positive) : string :=
  match p with xH => "" | xO p => String "0" (pos_text p) | xI p => String "1" (pos_text p) end.
Fixpoint text_pos (s : string) : positive :=
  match s with String "0"%char s => xO (text_pos s) | String _ s => xI (text_pos s) | EmptyString => xH end.
Lemma text_pos_text p : text_pos (pos_text p) = p.
Proof. induction p as [p IH|p IH|]; cbn; by rewrite ?IH. Qed.

Definition value_text (v : json) : string :=
  match v with
  | JStr s => String "s" s
  | JNum Z0 => "z"
  | JNum (Zpos p) => String "p" (pos_text p)
  | JNum (Zneg p) => String "n" (pos_text p)
  | _ => ""
  end.
Definition text_value (s : string) : json :=
  match s with
  | String "s"%char s => JStr s
  | String "z"%char _ => JNum 0
  | String "p"%char s => JNum (Zpos (text_pos s))
  | String "n"%char s => JNum (Zneg (text_pos s))
  | _ => JNull
  end.
#[export] Instance printer : JsonPrinter :=
  {| json_marshal j := match j with JObj l => str_bytes (Encode ((λ kv, (kv.1, value_text kv.2)) <$> l)) | _ => [] end |}.
#[export] Instance parser : JsonParser :=
  {| json_parse b := Some (JObj ((λ kv, (kv.1, text_value kv.2)) <$> (ParseQuery (bytes_str b)).1)) |}.
#[export] Instance text_ok : JsonTextOk.
Proof.
  split. intros l Hl. cbn [json_marshal json_parse printer parser]. rewrite bytes_str_bytes, ParseQuery_Encode. cbn [fst].
  do 2 f_equal. rewrite <- list_fmap_compose. induction l as [|[k v] l IH]; [done|].
  cbn [forallb fst snd] in Hl. apply andb_true_iff in Hl as [[_ Hv]%andb_true_iff Hl]. cbn. rewrite IH by done.
  do 2 f_equal. destruct v as [| | [|p|p]| | | |]; try done; cbn; by rewrite text_pos_text.
Qed.

(** A provider that answers an exchange of "at&1" and knows the token it returned. *)
#[export] Instance provider : TokenProvider := {| form_post _ url body :=
  let form := (ParseQuery body).1 in
  if has_suffix url "/token" then
    if bool_decide (first_value "subject_token" form = Some "at&1")
    then Ok (200%Z, Some (JObj [("access_token", JStr "obo")])) else Ok (400%Z, None)
  else Ok (200%Z, Some (JObj [("active", JBool (bool_decide (first_value "token" form = Some "at&1"))); ("sub", JStr "u1")])) |}.

Definition key_json : bytes :=
  json_marshal (JObj [("keyId", JStr "k1"); ("key", JStr "-----BEGIN"); ("clientId", JStr "ergonomos")]).
Definition issuer : string := "https://idp.acme.example/".
Definition ex : Exchanger :=
  MkExchanger issuer "https://idp.acme.example/oauth/v2/token" "ergonomos" "k1" "-----BEGIN"
    "urn:zitadel:iam:org:project:id:42:aud".
Definition va : Validator := MkValidator "https://idp.acme.example/oauth/v2/introspect" "ergonomos" "k1" "-----BEGIN" issuer.
Definition t0 : Z := 1700000000 * 1000000000.

Example built : NewExchanger issuer "42" key_json = Ok ex ∧ NewValidator issuer key_json = Ok va.
Proof. vm_compute. done. Qed.

Example introspected : Introspect t0 va "at&1" = Ok (MkTokenInfo true "u1" "" "") ∧
  Introspect t0 va "gone" = Ok (MkTokenInfo false "" "" "").
Proof. vm_compute. done. Qed.

Lemma svcauth_answers_authentic_witness :
  OnBehalfOf t0 ex "at&1" = Ok "obo" ∧ "obo" ≠ "" ∧
  ∃ body pairs status j, form_post t0 (ex_tokenURL ex) body = Ok (status, Some j) ∧ (status < 300)%Z ∧
    dec_string "access_token" j = Ok "obo" ∧ reads_as body pairs ∧
    first_value "grant_type" pairs = Some token_exchange ∧ first_value "subject_token" pairs = Some "at&1" ∧
    first_value "scope" pairs = Some ("openid " +:+ ex_projScope ex) ∧
    asserted_by t0 (t0 + 60000000000) "ergonomos" "k1" issuer ("-----BEGIN" : PrivateKey) pairs.
Proof.
  assert (sane t0 "ergonomos" "k1" issuer) as Hs by (split; [repeat constructor|vm_compute; split; [discriminate|reflexivity]]).
  assert (OnBehalfOf t0 ex "at&1" = Ok "obo") as E by (vm_compute; reflexivity). split; [exact E|].
  destruct (svcauth_answers_authentic ex va t0 (t0 + 60000000000) "at&1" Hs Hs ltac:(lia)) as [H _].
  destruct (H "obo" E) as (H1&_&H2). split; [exact H1|exact H2].
Defined.
End SvcauthDemo.
