(* ===== verification/Startup.v ===== *)
(** * Startup: configuration from the environment
    (kamara/cmd/kamara/main.go, ergonomos/cmd/ergonomos/main.go)

    What the main functions make of the environment before they serve: the keys, names
    and URLs the parts of a process are built from.  An error ends the process.  The
    calls that open the database, the blob directory, OpenFGA and the provider are not
    part of it. *)

From S2P Require Import Prelude GoText Ids World Http ChunkCrypto Cluster Naming Dek.

#[global] Instance res_ret : MRet res := λ A a, Ok a.
#[global] Instance res_bind : MBind res := λ A B k r, match r with Ok a => k a | Err e => Err e end.

Abbreviation Env := (gmap string string).

(** os.Getenv *)
Definition Getenv (e : Env) (key : string) : string := default "" (e !! key).

Definition env (e : Env) (key fallback : string) : string :=
  let v := Getenv e key in if bool_decide (v = "") then fallback else v.

Definition mustEnv (e : Env) (key : string) : res string :=
  let v := Getenv e key in if bool_decide (v = "") then Err (ErrText (key +:+ " is required")) else Ok v.

(** issuerHost: the host of the issuer, or the issuer when it does not parse. *)
Definition issuer_host (issuer : string) : string :=
  match url_host issuer with Some h => url_hostname h | None => issuer end.

Definition decode_key (b : bytes) : res bytes :=
  match decodeKey b with Some k => Ok k | None => Err (ErrText "dek: not 32 raw bytes and not valid base64") end.

(** [read] is os.ReadFile. *)
Definition loadDEK (e : Env) (read : string → res bytes) : res bytes :=
  let path := Getenv e "KAMARA_DEK_FILE" in
  if negb (bool_decide (path = "")) then b ← read path; decode_key b
  else
    let v := Getenv e "KAMARA_DEK" in
    if negb (bool_decide (v = "")) then decode_key (str_bytes v)
    else Err (ErrText "KAMARA_DEK_FILE or KAMARA_DEK is required").

(** The mounted file wins over the variable. *)
Lemma loadDEK_file e read path b :
  Getenv e "KAMARA_DEK_FILE" = path → path ≠ "" → read path = Ok b → loadDEK e read = decode_key b.
Proof.
  intros <- Hp Hr. unfold loadDEK. rewrite bool_decide_eq_false_2 by done. cbn [negb].
  unfold mbind, res_bind. by rewrite Hr.
Qed.
