(* ===== verification/KamaraMain.v ===== *)
(** * KamaraMain: the Kamara process (kamara/cmd/kamara/main.go)

    The wiring of [main] and the server it starts: one mux in front of the storage API,
    the WOPI host, the login endpoints, the static files and the browser front, over one
    world and the memory of the process (the API's cache of tokens, the sessions of the
    relying party, the discovery of the office engine). *)

From S2P Require Import Prelude GoText Ids World Pii Pseudonym Conventions Authz Chunker ChunkCrypto Blob Engine Repo FileService FolderService Wopi KamaraSafety Kamara Zip Url Http Json Headers Api WopiHost SessionStore Forms Discovery Oidcrp Web WebSafety Userinfo Dek Startup.
Import Pii Chunker.

(** The embedded files: web.Stylesheet, Script, Uploader and EditorScript. *)
Inductive asset := Stylesheet | Script | Uploader | EditorScript.
Class Assets := { asset_bytes : asset → res bytes }.

Record KamaraProc := MkKamaraProc {
  kp_issuer : string;
  kp_instance : string;
  kp_api : Handler;
  kp_wopi : Handler;
  kp_app : webApp;
  kp_addr : string;
}.

(** main, up to the server: an error ends the process. *)
Definition kamara_wiring (e : Env) (read : string → res bytes) : res KamaraProc :=
  _ ← mustEnv e "DATABASE_DSN";
  _ ← mustEnv e "OPENFGA_API_URL";
  _ ← mustEnv e "KAMARA_BLOB_DIR";
  issuer ← mustEnv e "OIDC_ISSUER";
  let instance := issuer_host issuer in
  dek ← loadDEK e read;
  cipher ← ChunkCrypto.New dek instance;
  let svc := MkService cipher true in
  let publicURL := TrimSuffix (env e "PUBLIC_URL" "http://localhost:5580") "/" in
  _ ← mustEnv e "OIDC_CLIENT_ID";
  let rp := (Oidcrp.New (MkConfig issuer "" "" "kamara_session" (has_prefix publicURL "https://") 0)).1 in
  let office := Getenv e "OFFICE_URL" in
  let wopiSrcBase :=
    if bool_decide (office = "") then "" else TrimSuffix (env e "WOPI_SRC_BASE" "http://localhost:5580") "/" in
  Ok (MkKamaraProc issuer instance (Api.New svc 0) (NewWopi svc 0)
        (MkWebApp svc rp instance (Wopi.NewSessions 0) office wopiSrcBase publicURL)
        (env e "LISTEN_ADDR" ":5580")).

Record KamaraMemory := MkKamaraMemory { km_auth : UserinfoAuth; km_web : WebMemory }.

(** The memory of a fresh process. *)
Definition kamara_memory (p : KamaraProc) : KamaraMemory :=
  let cfg := wa_rp (kp_app p) in
  MkKamaraMemory (NewUserinfoAuth (kp_issuer p) (kp_instance p) 0)
    (MkWebMemory (MkState (Session.NewStore (cfg_SessionTTL cfg)) (Session.NewStore login_ttl))
                 (NewDiscovery (wa_office (kp_app p)))).

Inductive answer := AnApi (r : Response) | AnLogin (r : Reply) | AnWeb (r : WebResponse).

Section main.
Context {Pr : Primitives} {P : Platform} {F : OpenFGA} {Mi : Mime} {FF : FormFormats} {E : OfficeEngine}.
Context {JP : JsonParser} {U : UserinfoEndpoint} {I : IdP} {As : Assets}.
Context (p : KamaraProc).
Abbreviation cfg := (wa_rp (kp_app p)).

(** ** Static files *)
Definition serve_asset (x : asset) (unavailable ctype : string) : Response :=
  match asset_bytes x with
  | Err _ => MkResponse 500 [("Content-Type", "text/plain; charset=utf-8"); ("X-Content-Type-Options", "nosniff")]
               (BBytes (str_bytes (unavailable +:+ String "010"%char "")))
  | Ok b => MkResponse 200 [("Content-Type", ctype); ("Cache-Control", "public, max-age=3600")] (BBytes b)
  end.
Definition serveCSS := serve_asset Stylesheet "stylesheet unavailable" "text/css; charset=utf-8".
Definition serveJS := serve_asset Script "script unavailable" "text/javascript; charset=utf-8".
Definition serveUploader := serve_asset Uploader "script unavailable" "text/javascript; charset=utf-8".
Definition serveEditorJS := serve_asset EditorScript "script unavailable" "text/javascript; charset=utf-8".

(** ** The API, with its cache of tokens *)

(** Whether a route of the API serves the request; only then its token is looked at. *)
Definition api_routed (method : string) (path : list string) : bool :=
  existsb (λ x, bool_decide (is_Some (match_path x.1.2 path "")) && match_method x.1.1 method) (Api.Routes (kp_api p)).

Definition api_call (now : Z) (method : string) (path : list string) (r : Request) : list (CallTimes * string) :=
  if api_routed method path && negb (bool_decide (bearer r = ""))
  then [(MkCallTimes now now now now, bearer r)] else [].

Definition serve_v1 (method : string) (path : list string) (r : Request) (m : KamaraMemory) : M KW (answer * KamaraMemory) :=
  t ← now;
  resp ← Api.serve (Au := userinfo_authenticator (km_auth m)) (kp_api p) method path r;
  mret (AnApi resp, MkKamaraMemory (run_calls (api_call t method path r) (km_auth m)) (km_web m)).

(** ** Login *)
Definition with_rp (st : Oidcrp.State) (m : KamaraMemory) : KamaraMemory :=
  MkKamaraMemory (km_auth m) (MkWebMemory st (wm_discovery (km_web m))).

Definition login_step (e : event) (m : KamaraMemory) : M KW (answer * KamaraMemory) :=
  t ← now;
  let '(rep, st) := handle cfg t e (wm_rp (km_web m)) in
  mret (AnLogin rep, with_rp st m).

(** crypto/rand, then the handler. *)
Definition serve_login (m : KamaraMemory) : M KW (answer * KamaraMemory) :=
  rnd ← draw 16; vrnd ← draw 32; login_step (ELogin rnd vrnd) m.
Definition serve_callback (r : Request) (m : KamaraMemory) : M KW (answer * KamaraMemory) :=
  srnd ← draw 32; login_step (ECallback srnd r) m.

(** ** The mux *)

(** Exact patterns with GET; then the subtrees, with the redirect to their root; then the
    browser front, which takes everything else. *)
Inductive route := RtHealth | RtAsset (x : Response) | RtLogin | RtCallback | RtLogout | RtTree (root : string) | RtApi | RtWopi | RtPage.

Definition get_route (path : list string) : option route :=
  match path with
  | ["healthz"] => Some RtHealth
  | ["style.css"] => Some (RtAsset serveCSS)
  | ["htmx.js"] => Some (RtAsset serveJS)
  | ["kamara.js"] => Some (RtAsset serveUploader)
  | ["editor.js"] => Some (RtAsset serveEditorJS)
  | ["auth"; "login"] => Some RtLogin
  | ["auth"; "callback"] => Some RtCallback
  | ["auth"; "logout"] => Some RtLogout
  | _ => None
  end.

Definition tree_route (path : list string) : route :=
  match path with
  | ["v1"] => RtTree "/v1/"
  | ["wopi"] => RtTree "/wopi/"
  | "v1" :: _ => RtApi
  | "wopi" :: _ => RtWopi
  | _ => RtPage
  end.

Definition route_of (method : string) (path : list string) : route :=
  match get_route path with
  | Some x => if match_method "GET" method then x else tree_route path
  | None => tree_route path
  end.

Definition serve_main (method : string) (path : list string) (r : Request) (m : KamaraMemory)
    : M KW (answer * KamaraMemory) :=
  match route_of method path with
  | RtHealth => mret (AnApi (MkResponse 200 [] (BBytes (str_bytes "ok"))), m)
  | RtAsset x => mret (AnApi x, m)
  | RtLogin => serve_login m
  | RtCallback => serve_callback r m
  | RtLogout => login_step (ELogout r) m
  | RtTree root => mret (AnApi (MkResponse 307 [("Location", root)] BEmpty), m)
  | RtApi => serve_v1 method path r m
  | RtWopi => resp ← serve_wopi (kp_wopi p) method path r; mret (AnApi resp, m)
  | RtPage =>
      x ← Web.serve_web (kp_app p) method path r (km_web m);
      mret (AnWeb x.1, MkKamaraMemory (km_auth m) x.2)
  end.

(** ** The life of a process *)

(** What a request does to the relying party and to the cache of tokens. *)
Definition rp_events (method : string) (path : list string) (r : Request) (w : KW) : list (Z * event) :=
  match route_of method path with
  | RtLogin => [(w_now w, ELogin (rand_bytes (w_draws w) 16) (rand_bytes (S (w_draws w)) 32))]
  | RtCallback => [(w_now w, ECallback (rand_bytes (w_draws w) 32) r)]
  | RtLogout => [(w_now w, ELogout r)]
  | RtPage => [(w_now w, ESession r)]
  | _ => []
  end.
Definition token_calls (method : string) (path : list string) (r : Request) (w : KW) : list (CallTimes * string) :=
  match route_of method path with RtApi => api_call (w_now w) method path r | _ => [] end.

(** Any requests, one after the other, from a first start with empty stores; the clock,
    the tuples and what will fail change in between, and the process may be restarted.
    [L] and [C] are what happened at the relying party and at the token cache. *)
Inductive served : list (Z * event) → list (CallTimes * string) → KW → KamaraMemory → Prop :=
  | served_boot : served [] [] (boot kdb_empty) (kamara_memory p)
  | served_env L C w w' m : served L C w m → w_db w' = w_db w → w_blobs w' = w_blobs w → served L C w' m
  | served_restart L C w m : served L C w m → served L C w (kamara_memory p)
  | served_request L C w m method path r ans m' w' :
      served L C w m → serve_main method path r m w = (Ok (ans, m'), w') →
      served (L ++ rp_events method path r w) (C ++ token_calls method path r w) w' m'.

(** ** What a request may do *)
Abbreviation svc := (wa_svc (kp_app p)).

Definition untouched (w w' : KW) : Prop := w_db w' = w_db w ∧ w_rest w' = w_rest w.

(** The answer, the memory afterwards and the effects of a request are what a program made
    of [calls] gives, in [w] and in every world with other data at the same time. *)
Definition answered_by (calls : ∀ A, M KW A → Prop) (method : string) (path : list string) (r : Request)
    (m : KamaraMemory) (w : KW) : Prop :=
  ∃ prog, built_from calls prog ∧ ∀ v, w_now v = w_now w → serve_main method path r m v = prog v.

(** The bearer token is one the provider vouched for within the lifetime of the cache. *)
Definition by_bearer (method : string) (path : list string) (r : Request) (m : KamaraMemory) (w w' : KW) : Prop :=
  ∃ x user, bearer r ≠ "" ∧ tokenExpired (bearer r) (w_now w) = false ∧
    (w_now w - 60 * 1000000000 <= x)%Z ∧ vouched (kp_issuer p) x (bearer r) user ∧
    let c := MkSubject (kp_instance p) user in
    answered_by (calls_for svc c) method path r m w ∧ run_by svc c w w'.

(** The session is one a login of this browser opened. *)
Definition by_browser (L : list (Z * event)) (method : string) (path : list string) (r : Request) (m : KamaraMemory)
    (w w' : KW) : Prop :=
  ∃ k e, rq_cookie r !! cfg_CookieName cfg = Some k ∧ opened cfg L k e ∧ (w_now w <= e_exp e)%Z ∧
    let c := MkSubject (kp_instance p) (c_Subject (bs_Claims (e_val e))) in
    answered_by (calls_for svc c) method path r m w ∧
    (untouched w w' ∨
     (method = "GET" ∨ method = "HEAD") ∧ (same_data w w' ∨ opens_session (kp_app p) c w w') ∨
     method = "POST" ∧ SameOriginGuard (wa_publicURL (kp_app p)) method r = None ∧ run_by svc c w w').

(** The token of the office engine is looked up, and the answer comes from the file the
    session is bound to, as the session's user sees it. *)
Definition in_session (method : string) (path : list string) (r : Request) (m : KamaraMemory) : Prop :=
  ∃ f, (∀ sess, built_from (calls_in (kp_wopi p) sess) (f sess)) ∧
    ∀ v, serve_main method path r m v =
      (x ← attempt (Wopi.Validate (wopiToken r));
       match x with
       | Ok sess => f sess
       | Err e => mret (AnApi (status_only (if errors_is e ErrInvalid then 401 else 500)), m)
       end) v.

(** The office engine saves the file its token is bound to. *)
Definition by_engine (method : string) (path : list string) (r : Request) (w w' : KW) : Prop :=
  ∃ sess w1, may_save w method path r sess ∧ same_data w w1 ∧
    kstep svc (Some (KWrite (ws_Subject sess) (ws_ObjectID sess)
                       (MaxBytesReader (h_maxUpload (kp_wopi p)) (rq_body r)) None)) w1 w'.
End main.

(** ** The parts of a request *)
Section parts.
Context {Pr : Primitives} {P : Platform} {F : OpenFGA} {Mi : Mime} {FF : FormFormats} {E : OfficeEngine}.
Context {JP : JsonParser} {U : UserinfoEndpoint} {I : IdP} {As : Assets}.

(** A browser request resolves its session and changes nothing else at the relying party. *)
Lemma authed_memory a deny h m r (w : KW) y w' :
  Web.authed a deny h m r w = (Ok y, w') → wm_rp y.2 = (Session_ (wa_rp a) (w_now w) r (wm_rp m)).2.
Proof.
  unfold Web.authed. rewrite run_bind. cbn [now gets]. destruct (Session_ _ _ r _) as [[x|] st]; [|by intros [= <- _]].
  rewrite run_bind. destruct (h r _ _ w) as [[z|e] w1]; [|done]. by intros [= <- _].
Qed.

Lemma serve_web_memory a method path r m (w : KW) resp m' w' :
  Web.serve_web a method path r m w = (Ok (resp, m'), w') →
  wm_rp m' = (Session_ (wa_rp a) (w_now w) r (wm_rp m)).2.
Proof.
  unfold Web.serve_web. rewrite run_bind. cbn [now gets].
  destruct (Session_ (wa_rp a) (w_now w) r (wm_rp m)) as [[x|] st] eqn:Es; [|by intros [= _ <- _]].
  pose proof (Session_stable _ _ _ _ _ _ Es) as ->. cbn [snd].
  destruct (SameOriginGuard _ _ _); [by intros [= _ <- _]|]. rewrite run_bind.
  destruct (Web.routes a _ method path r w) as [[y|e] w1] eqn:Er; [|done]. intros [= _ <- _].
  unfold Web.routes in Er. revert Er.
  destruct (serve_mux_cases (Web.no_route (MkWebMemory (wm_rp m) (wm_discovery m)))
    ((λ '(me, pat, deny, h), (me, pat, Web.authed a deny h (MkWebMemory (wm_rp m) (wm_discovery m)))) <$> Web.Routes a)
    false method path r w) as [(st&->&_)|(me&pat&nx&i&Hin&_&_&->)]; [by intros [= <- _]|].
  apply list_elem_of_fmap in Hin as ([[[me' pat'] deny] h]&[= -> -> ->]&Hin).
  intros H. rewrite (authed_memory _ _ _ _ _ _ _ _ H). cbn [wm_rp].
  change (Session_ (wa_rp a) (w_now w) (set_id i r) (wm_rp m)) with (Session_ (wa_rp a) (w_now w) r (wm_rp m)). by rewrite Es.
Qed.

(** The two sides of [served]. *)
Record proc_inv (p : KamaraProc) (L : list (Z * event)) (C : list (CallTimes * string)) (w : KW) (m : KamaraMemory) : Prop := {
  pi_run : run (wa_svc (kp_app p)) (boot kdb_empty) w;
  pi_flow : flow_inv (wa_rp (kp_app p)) L (wm_rp (km_web m));
  pi_auth : auth_inv C (kp_issuer p) (kp_instance p) (userinfo_ttl 0) (km_auth m);
  pi_calls : Forall (λ x : CallTimes * string, ct_answer x.1 = ct_put x.1) C;
}.

Context (e : Env) (read : string → res bytes) (p : KamaraProc).
Hypothesis wired : kamara_wiring e read = Ok p.
Abbreviation svc := (wa_svc (kp_app p)).
Abbreviation cfg := (wa_rp (kp_app p)).

(** One service, one instance behind every surface. *)
Lemma wiring_coherent :
  h_svc (kp_api p) = svc ∧ h_svc (kp_wopi p) = svc ∧ wa_instance (kp_app p) = kp_instance p ∧
  kp_instance p = issuer_host (kp_issuer p) ∧ s_revoker svc = true ∧ c_tenant (s_cipher svc) = kp_instance p.
Proof.
  revert wired. unfold kamara_wiring, mbind, res_bind.
  repeat match goal with |- context [match ?x with Ok _ => _ | Err _ => _ end = _] => destruct x eqn:?; [|done] end.
  intros [= <-]. cbn.
  match goal with H : ChunkCrypto.New _ _ = Ok _ |- _ => unfold ChunkCrypto.New in H end.
  destruct (negb _); [done|]. case_bool_decide; [done|]. by simplify_eq/=.
Qed.

Lemma wiring_limit : (0 <= h_maxUpload (kp_api p))%Z.
Proof.
  revert wired. unfold kamara_wiring, mbind, res_bind.
  repeat match goal with |- context [match ?x with Ok _ => _ | Err _ => _ end = _] => destruct x eqn:?; [|done] end.
  intros [= <-]. done.
Qed.

Lemma kamara_memory_inv L C w m : proc_inv p L C w m → proc_inv p L C w (kamara_memory p).
Proof.
  intros [H1 H2 H3 H4]. split; [done| | |done].
  - by repeat split; intros k x Hk; cbn in Hk; rewrite lookup_empty in Hk.
  - split_and!; [done..|]. intros k x Hk. cbn in Hk. by rewrite lookup_empty in Hk.
Qed.

Lemma boot_proc_inv : proc_inv p [] [] (boot kdb_empty) (kamara_memory p).
Proof.
  split; [apply run_refl| | |constructor].
  - by repeat split; intros k x Hk; cbn in Hk; rewrite lookup_empty in Hk.
  - split_and!; [done..|]. intros k x Hk. cbn in Hk. by rewrite lookup_empty in Hk.
Qed.

Lemma run_snoc_env w w' : run svc (boot kdb_empty) w → untouched w w' → run svc (boot kdb_empty) w'.
Proof. intros H [Hd Hr]. injection Hr as Hb _. eapply run_trans; [exact H|]. by apply (run_step svc None _ w'); [constructor|apply run_refl]. Qed.

(** *** Login, callback, logout *)
Lemma login_step_inv L C w w' m ev :
  proc_inv p L C w m → untouched w w' →
  ∃ ans m', login_step p ev m w' = (Ok (ans, m'), w') ∧ proc_inv p (L ++ [(w_now w', ev)]) C w' m'.
Proof.
  intros [H1 H2 H3 H4] Hu. unfold login_step. rewrite run_bind. cbn [now gets].
  pose proof (handle_inv cfg L (wm_rp (km_web m)) (w_now w') ev H2) as H.
  destruct (handle cfg (w_now w') ev _) as [rep st]. do 2 eexists. split; [reflexivity|].
  split; [by eapply run_snoc_env|done..].
Qed.

(** *** The API *)
Lemma api_memory L C w m method path r :
  proc_inv p L C w m →
  auth_inv (C ++ api_call p (w_now w) method path r) (kp_issuer p) (kp_instance p) (userinfo_ttl 0)
    (run_calls (api_call p (w_now w) method path r) (km_auth m)).
Proof. intros [_ _ H _]. by apply run_calls_inv. Qed.

(** The API's answer to a request, for what the cache and the provider say of its token. *)
Lemma serve_v1_answered w m method path r :
  route_of method path = RtApi →
  answered_by p (match (Subject_of (km_auth m) (MkCallTimes (w_now w) (w_now w) (w_now w) (w_now w)) (bearer r)).1 with
                 | Ok (Some c) => if bool_decide (bearer r = "") then nobody else calls_for svc c
                 | _ => nobody end) method path r m w.
Proof.
  intros Er. destruct wiring_coherent as (Hs&_).
  destruct (serve_built (Au := userinfo_authenticator (km_auth m)) (kp_api p) method path r (w_now w)
    (Subject_of (km_auth m) (MkCallTimes (w_now w) (w_now w) (w_now w) (w_now w)) (bearer r)).1) as (prog&Hb&Hp).
  { intros v <-. done. }
  rewrite Hs in Hb.
  exists (resp ← prog;
          mret (AnApi resp, MkKamaraMemory (run_calls (api_call p (w_now w) method path r) (km_auth m)) (km_web m))). split.
  - apply bf_bind; [done|intros; apply bf_ret].
  - intros v Hv. unfold serve_main. rewrite Er. unfold serve_v1. rewrite run_bind. cbn [now gets].
    rewrite !run_bind, Hp, Hv by done. done.
Qed.

Lemma serve_v1_spec L C w m method path r :
  route_of method path = RtApi → proc_inv p L C w m →
  ∃ ans m' w', serve_v1 p method path r m w = (Ok (ans, m'), w') ∧
    proc_inv p L (C ++ api_call p (w_now w) method path r) w' m' ∧
    (answered_by p nobody method path r m w ∧ untouched w w' ∨ by_bearer p method path r m w w').
Proof.
  intros Er HI. pose proof HI as [H1 H2 H3 H4]. destruct wiring_coherent as (Hs&_&_&_).
  assert (∀ x, serve_v1 p method path r m w = x → serve_main p method path r m w = x) as Hmain
    by (unfold serve_main; by rewrite Er).
  pose proof (serve_v1_answered w m method path r Er) as Hans.
  unfold serve_v1 in *. rewrite run_bind in *. cbn [now gets] in *.
  destruct (api_acts_as_caller (Au := userinfo_authenticator (km_auth m)) (kp_api p) method path r w)
    as (resp&w'&Es&Hrun&_). rewrite run_bind, Es in *. specialize (Hmain _ eq_refl).
  do 3 eexists. split; [reflexivity|]. rewrite Hs in Hrun. split.
  { split; [by eapply run_trans|done|by eapply api_memory|]. apply Forall_app. split; [done|].
    unfold api_call. destruct (_ && _); repeat constructor. }
  pose proof (Subject_of_spec C _ _ _ (km_auth m) (MkCallTimes (w_now w) (w_now w) (w_now w) (w_now w)) (bearer r) H3) as Hsp.
  destruct (Subject_of (km_auth m) _ (bearer r)) as [x a']. destruct Hsp as [_ Hsp]. cbn [fst] in Hans.
  assert (answered_by p nobody method path r m w → untouched w w') as Hnone.
  { intros (prog&Hb&Hp). specialize (Hp w eq_refl). rewrite Hmain in Hp.
    pose proof (built_nobody prog Hb w) as Hu. by rewrite <- Hp in Hu. }
  destruct x as [[caller|]|er]; [|by left; auto..]. revert Hans. case_bool_decide as Hb; intros Hans; [by left; auto|].
  right. cbn [ct_expiry ct_answer ct_get] in Hsp. destruct Hsp as (He&Hi&Hv). destruct caller as [ci cu]. cbn in Hi, Hv. subst ci.
  assert (run_by svc (MkSubject (kp_instance p) cu) w w') as Hby.
  { pose proof Hans as (prog&Hbf&Hp). specialize (Hp w eq_refl). rewrite Hmain in Hp.
    pose proof (built_acts svc _ prog Hbf w) as Ha. by rewrite <- Hp in Ha. }
  destruct Hv as [Hv|(t'&Hin&Hv&Ht)]; [exists (w_now w), cu|exists (ct_answer t'), cu]; cbv zeta; (split_and!; [done|done| |done|done|done]).
  - lia.
  - rewrite Forall_forall in H4. specialize (H4 _ Hin). cbn in H4, Ht. rewrite H4. unfold userinfo_ttl in Ht. cbn in Ht. lia.
Qed.

(** *** The office engine *)
Lemma serve_wopi_spec L C w m method path r :
  proc_inv p L C w m →
  ∃ resp w', serve_wopi (kp_wopi p) method path r w = (Ok resp, w') ∧
    run svc (boot kdb_empty) w' ∧ (same_data w w' ∨ by_engine p method path r w w').
Proof.
  intros [H1 _ _ _]. destruct wiring_coherent as (_&Hs&_&_).
  destruct (wopi_host_confined (kp_wopi p) method path r w) as (resp&w'&Es&Heff). exists resp, w'. split; [done|].
  rewrite Hs in Heff. destruct Heff as [Hd|(sess&w1&Hm&Hd1&Hk)].
  - split; [|auto]. eapply run_trans; [exact H1|]. destruct Hd. by apply (run_step svc None _ w'); [constructor|apply run_refl].
  - split; [|right; by exists sess, w1]. eapply run_trans; [exact H1|]. destruct Hd1.
    apply (run_step svc None _ w1); [by constructor|]. eapply run_step; [exact Hk|apply run_refl].
Qed.

Lemma serve_wopi_answered w m method path r :
  route_of method path = RtWopi → answered_by p nobody method path r m w ∨ in_session p method path r m.
Proof.
  intros Er. destruct (serve_wopi_built (kp_wopi p) method path r) as [Hn|(f&Hf&Hv)]; [left|right].
  - exists (resp ← serve_wopi (kp_wopi p) method path r; mret (AnApi resp, m)). split.
    + apply bf_bind; [done|intros; apply bf_ret].
    + intros v _. unfold serve_main. by rewrite Er.
  - exists (λ sess, resp ← f sess; mret (AnApi resp, m)). split.
    + intros sess. apply bf_bind; [done|intros; apply bf_ret].
    + intros v. unfold serve_main. rewrite Er, run_bind, Hv, !run_bind.
      destruct (attempt _ v) as [[[sess|e']|e'] w']; [|done..]. by rewrite run_bind.
Qed.

(** *** The browser front *)
Lemma serve_page_answered w m method path r :
  route_of method path = RtPage →
  answered_by p (match (Session_ cfg (w_now w) r (wm_rp (km_web m))).1 with
                 | Some x => calls_for svc (Web.caller_of (kp_app p) x) | None => nobody end) method path r m w.
Proof.
  intros Er. destruct (serve_web_built (kp_app p) method path r (km_web m) (w_now w)) as (prog&Hb&Hp).
  exists (x ← prog; mret (AnWeb x.1, MkKamaraMemory (km_auth m) x.2)). split.
  - apply bf_bind; [done|intros; apply bf_ret].
  - intros v Hv. unfold serve_main. by rewrite Er, !run_bind, Hp.
Qed.

Lemma serve_page_spec L C w m method path r :
  route_of method path = RtPage → proc_inv p L C w m →
  ∃ resp m' w', Web.serve_web (kp_app p) method path r (km_web m) w = (Ok (resp, m'), w') ∧
    proc_inv p (L ++ [(w_now w, ESession r)]) C w' (MkKamaraMemory (km_auth m) m') ∧
    (answered_by p nobody method path r m w ∧ untouched w w' ∨ by_browser p L method path r m w w').
Proof.
  intros Er [H1 H2 H3 H4]. destruct wiring_coherent as (_&_&Hi&_).
  destruct (web_request_confined (kp_app p) method path r (km_web m) w) as (resp&m'&w'&Es&Hrun&Heff).
  exists resp, m', w'. split; [done|]. split.
  { split; [by eapply run_trans| |done|done]. cbn [km_web]. rewrite (serve_web_memory _ _ _ _ _ _ _ _ _ Es).
    by apply (handle_inv cfg L (wm_rp (km_web m)) (w_now w) (ESession r)). }
  pose proof (serve_page_answered w m method path r Er) as Hans. unfold session_subject in Heff.
  destruct (Session_ cfg (w_now w) r (wm_rp (km_web m))) as [[x|] st] eqn:Ex; cbn [fst] in Hans.
  2: { left. split; [done|]. destruct Heff as [?|(c&?&_)]; done. }
  right. destruct (Session_opened cfg L _ _ r x st H2 Ex) as (k&en&Hk&Ho&<-&Ht).
  exists k, en. split_and!; [done..|]. cbv zeta. unfold Web.caller_of in *. rewrite Hi in *. split; [done|].
  destruct Heff as [Hu|(c&[= <-]&Heff)]; auto.
Qed.

(** *** Any request *)
Definition confined (L : list (Z * event)) (method : string) (path : list string) (r : Request) (m : KamaraMemory)
    (w w' : KW) : Prop :=
  match route_of method path with
  | RtApi => answered_by p nobody method path r m w ∧ untouched w w' ∨ by_bearer p method path r m w w'
  | RtWopi =>
      (answered_by p nobody method path r m w ∨ in_session p method path r m) ∧
      (same_data w w' ∨ by_engine p method path r w w')
  | RtPage => answered_by p nobody method path r m w ∧ untouched w w' ∨ by_browser p L method path r m w w'
  | _ => answered_by p nobody method path r m w ∧ untouched w w'
  end.

(** Login, callback, logout, health and the static files know nothing of the stores. *)
Lemma serve_rest_answered w m method path r :
  match route_of method path with RtApi | RtWopi | RtPage => True | _ => answered_by p nobody method path r m w end.
Proof.
  assert (∀ ev, built_from nobody (login_step p ev m)) as Hl.
  { intros ev. apply bf_bind; [apply bf_now|intros t]. destruct (handle cfg t ev _). apply bf_ret. }
  destruct (route_of method path) eqn:Er; try done; eexists (serve_main p method path r m);
    (split; [|done]); unfold serve_main; rewrite Er; try apply bf_ret; [| |apply Hl];
    repeat (apply bf_bind; [apply bf_draw|intros ?]); apply Hl.
Qed.

Lemma serve_main_spec L C w m method path r :
  proc_inv p L C w m →
  ∃ ans m' w', serve_main p method path r m w = (Ok (ans, m'), w') ∧
    proc_inv p (L ++ rp_events method path r w) (C ++ token_calls p method path r w) w' m' ∧
    confined L method path r m w w'.
Proof.
  intros HI. pose proof (serve_rest_answered w m method path r) as Hrest. unfold rp_events, token_calls, confined.
  assert (∀ Q : Prop, Q → ∀ ans : answer, ∃ ans' m' w', (mret (ans, m) : M KW (answer * KamaraMemory)) w = (Ok (ans', m'), w') ∧
    proc_inv p (L ++ []) (C ++ []) w' m' ∧ Q ∧ untouched w w') as Hstay.
  { intros Q HQ ans. exists ans, m, w. rewrite !app_nil_r. by repeat split; try apply HI. }
  destruct (route_of method path) eqn:Er; unfold serve_main at 1; rewrite Er; try (apply Hstay; exact Hrest); rewrite ?app_nil_r.
  - unfold serve_login. rewrite run_bind. cbn [draw]. rewrite run_bind. cbn [draw w_draws].
    match goal with |- ∃ _ _ _, login_step p ?ev m ?w2 = _ ∧ _ =>
      destruct (login_step_inv L C w w2 m ev HI (conj eq_refl eq_refl)) as (ans&m'&->&HI') end.
    do 3 eexists. split; [reflexivity|]. by split.
  - unfold serve_callback. rewrite run_bind. cbn [draw w_draws].
    match goal with |- ∃ _ _ _, login_step p ?ev m ?w2 = _ ∧ _ =>
      destruct (login_step_inv L C w w2 m ev HI (conj eq_refl eq_refl)) as (ans&m'&->&HI') end.
    do 3 eexists. split; [reflexivity|]. by split.
  - destruct (login_step_inv L C w w m (ELogout r) HI (conj eq_refl eq_refl)) as (ans&m'&->&HI').
    do 3 eexists. split; [reflexivity|]. by split.
  - by apply serve_v1_spec.
  - destruct (serve_wopi_spec L C w m method path r HI) as (resp&w'&Es&Hr&He). rewrite run_bind, Es.
    do 3 eexists. split; [reflexivity|]. split; [by split; try apply HI|]. split; [by apply serve_wopi_answered|done].
  - destruct (serve_page_spec L C w m method path r Er HI) as (resp&m'&w'&Es&HI'&He). rewrite run_bind, Es.
    do 3 eexists. by split; [reflexivity|].
Qed.

Lemma served_inv L C w m : served p L C w m → proc_inv p L C w m.
Proof.
  induction 1 as [|L C w w' m _ IH Hd Hb|L C w m _ IH|L C w m method path r ans m' w' _ IH Es].
  - apply boot_proc_inv.
  - destruct IH as [H1 H2 H3 H4]. split; [|done..]. eapply run_trans; [exact H1|].
    by apply (run_step svc None _ w'); [constructor|apply run_refl].
  - by eapply kamara_memory_inv.
  - destruct (serve_main_spec L C w m method path r IH) as (ans2&m2&w2&E2&HI&_). rewrite Es in E2. by injection E2 as -> -> ->.
Qed.
End parts.

(** ** The claim *)
Section process.
Context {Pr : Primitives} {P : Platform} {F : OpenFGA} {Mi : Mime} {FF : FormFormats} {E : OfficeEngine}.
Context {JP : JsonParser} {U : UserinfoEndpoint} {I : IdP} {As : Assets}.

(** C2: nobody gets past the front doors.  Take a process as its environment wires it,
    and any requests, changes of clock, tuples and faults, and restarts since its stores
    were empty.  The next request is answered, and the world is again one that a run of
    the file domain reaches, so what holds in all of those holds behind every surface.
    What the request reads and what it changes are both fixed.  Without one of three
    credentials it touches nothing, and its answer would be the same whatever is stored.
    An API request whose unexpired bearer token the provider vouched for at most a minute
    ago is a program that reaches the stores only through calls of the file service for
    that very user of this tenant.  A request of a browser whose own login, with state
    cookie and PKCE verifier, opened a session that is still alive is such a program for
    that session's user; it changes files only as a same-site POST, and as a GET at most
    opens an editing session for a file the user has access to.  A request of the office
    engine looks its token up and then reaches the stores only through the one file the
    session is bound to, as the session's user, and saves only with a valid token that may
    write. *)
Theorem kamara_front_doors e read p L C w m method path r :
  kamara_wiring e read = Ok p → served p L C w m →
  ∃ ans m' w', serve_main p method path r m w = (Ok (ans, m'), w') ∧
    run (wa_svc (kp_app p)) (boot kdb_empty) w' ∧ confined p L method path r m w w'.
Proof.
  intros Hw Hs. destruct (serve_main_spec e read p Hw L C w m method path r (served_inv e read p Hw _ _ _ _ Hs))
    as (ans&m'&w'&Es&HI&Hc). exists ans, m', w'. split_and!; [done|apply HI|done].
Qed.
End process.

(** ** A process: a login, an upload with a token, an upload by the browser *)
Module MainDemo.
#[export] Existing Instance toy_primitives.
#[export] Existing Instance toy_primitives_ok.
#[export] Existing Instance counting_platform.
#[export] Existing Instance owner_fga.
#[export] Existing Instance no_mime.
#[export] Existing Instance LoginDemo.idp.
#[export] Instance forms : FormFormats := {|
  ParseMediaType ct := (ct, true);
  multipart_parts _ evs := Some ([MkPart "file" "b.txt" evs], None);
  multipart_fields _ _ := [];
  query_parses _ := true;
|}.
#[export] Instance engine : OfficeEngine := {| engine_get _ _ := Err ErrExternal; xml_tokens _ := ([], None) |}.
#[export] Instance parser : JsonParser := {| json_parse _ := None |}.
#[export] Instance endpoint : UserinfoEndpoint := {|
  userinfo _ _ token := if bool_decide (token = "tok") then Ok (200%Z, Some (JObj [("sub", JStr "u1")])) else Ok (401%Z, None) |}.
#[export] Instance assets : Assets := {| asset_bytes _ := Ok [] |}.

Definition environment : Env := list_to_map [
  ("DATABASE_DSN", "dsn"); ("OPENFGA_API_URL", "http://fga"); ("KAMARA_BLOB_DIR", "/blobs");
  ("OIDC_ISSUER", "https://idp.acme.example"); ("OIDC_CLIENT_ID", "kamara");
  ("KAMARA_DEK", "0123456789abcdef0123456789abcdef"); ("PUBLIC_URL", "https://kamara.acme.example/")].
Definition no_files (path : string) : res bytes := Err ErrExternal.

Definition proc : KamaraProc :=
  match kamara_wiring environment no_files with
  | Ok p => p
  | Err _ => MkKamaraProc "" "" (MkHandler demo_service 0) (MkHandler demo_service 0)
               (MkWebApp demo_service (MkConfig "" "" "" "" false 0) "" 0 "" "" "") ""
  end.
Lemma proc_wired : kamara_wiring environment no_files = Ok proc.
Proof. vm_compute. reflexivity. Qed.

Definition step (method : string) (path : list string) (r : Request) (st : KW * KamaraMemory) : option answer * (KW * KamaraMemory) :=
  match serve_main proc method path r st.2 st.1 with
  | (Ok (ans, m'), w') => (Some ans, (w', m'))
  | (Err _, w') => (None, (w', st.2))
  end.

Lemma kamara_step_served L C st method path r :
  served proc L C st.1 st.2 →
  served proc (L ++ rp_events method path r st.1) (C ++ token_calls proc method path r st.1)
    (step method path r st).2.1 (step method path r st).2.2.
Proof.
  intros Hs. destruct (serve_main_spec _ _ proc proc_wired L C st.1 st.2 method path r (served_inv _ _ _ proc_wired _ _ _ _ Hs))
    as (ans&m'&w'&E&_). unfold step. rewrite E. by eapply served_request.
Qed.

Definition request (q h c : list (string * string)) (body : bytes) : Request :=
  MkRequest "" (list_to_map q) (list_to_map h) (list_to_map c) (NewReader body) None.

Definition state0 : string := hex_encode (replicate 16 x00).
Definition sid : string := hex_encode (replicate 32 x02).
Definition st1 := (step "GET" ["auth"; "login"] (request [] [] [] []) (boot kdb_empty, kamara_memory proc)).2.
Definition back : Request := request [("state", state0); ("code", "good")] [] [("oidc_state", state0)] [].
Definition st2 := (step "GET" ["auth"; "callback"] back st1).2.
Definition token_upload (tok : string) : Request := request [("name", "a.txt")] [("Authorization", "Bearer " +:+ tok)] [] [x61].
Definition st3 := (step "POST" ["v1"; "files"] (token_upload "tok") st2).2.
Definition browser_upload (site : string) : Request :=
  request [] [("Sec-Fetch-Site", site)] [("kamara_session", sid)] [x62].

Definition status (a : option answer) : Z :=
  match a with Some (AnApi r) => rs_status r | Some (AnLogin r) => rp_status r | Some (AnWeb r) => wr_status r | None => 0 end.
Definition owners (st : KW * KamaraMemory) : list (string * string) :=
  (λ x, (UserID (o_Owner x.2), o_Name x.2)) <$> map_to_list (objects (w_db st.1)).

Example front_doors :
  status (step "POST" ["v1"; "files"] (token_upload "tok") st2).1 = 201%Z ∧
  status (step "POST" ["v1"; "files"] (token_upload "other") st2).1 = 401%Z ∧
  status (step "POST" ["files"] (browser_upload "same-origin") st3).1 = 200%Z ∧
  status (step "POST" ["files"] (browser_upload "cross-site") st3).1 = 403%Z ∧
  status (step "POST" ["healthz"] (request [] [] [] []) st3).1 = 302%Z ∧
  status (step "GET" ["wopi"; "files"; "x"] (request [] [] [] []) st3).1 = 401%Z ∧
  status (step "GET" ["v1"] (request [] [] [] []) st3).1 = 307%Z ∧
  owners (step "POST" ["files"] (browser_upload "same-origin") st3).2 =
    [("id-" +:+ hex_encode (replicate 32 x01), "b.txt"); ("u1", "a.txt")].
Proof. vm_compute. repeat split. Qed.

Definition served3 := kamara_step_served _ _ st2 "POST" ["v1"; "files"] (token_upload "tok")
  (kamara_step_served _ _ st1 "GET" ["auth"; "callback"] back
    (kamara_step_served _ _ (boot kdb_empty, kamara_memory proc) "GET" ["auth"; "login"] (request [] [] [] []) (served_boot proc))).

Lemma kamara_front_doors_witness :
  ∃ L C ans m' w', served proc L C st3.1 st3.2 ∧
    serve_main proc "POST" ["files"] (browser_upload "same-origin") st3.2 st3.1 = (Ok (ans, m'), w') ∧
    run (wa_svc (kp_app proc)) (boot kdb_empty) w' ∧
    (answered_by proc nobody "POST" ["files"] (browser_upload "same-origin") st3.2 st3.1 ∧ untouched st3.1 w' ∨
     by_browser proc L "POST" ["files"] (browser_upload "same-origin") st3.2 st3.1 w').
Proof.
  destruct (kamara_front_doors _ _ proc _ _ _ _ "POST" ["files"] (browser_upload "same-origin") proc_wired served3)
    as (ans&m'&w'&H). do 2 eexists. exists ans, m', w'. split; [exact served3|exact H].
Defined.
End MainDemo.
