(* ===== verification/Restore.v ===== *)
(** * Restore: the restore check as a command (kamara/cmd/blobverify/main.go)

    The flags, the key and the tenant the command is given, on top of the loops of
    BlobVerify.v, and the claim that ties it to the Kamara process whose data was restored:
    with the key that process was started with and its issuer's host, the command is an
    exact test of the restored data. *)

From S2P Require Import Prelude GoText Ids World Pii Pseudonym Conventions Authz Chunker ChunkCrypto Blob Engine Repo RepoInv FileService Wopi KamaraSafety Kamara Http Headers Api WopiHost SessionStore Forms Discovery Oidcrp Web Dek Startup KamaraMain BlobVerify.
Import Pii Chunker Web.

(** ** The flags, as the package flag parses them *)
Record options := MkOptions { op_dsn : string; op_blobs : string; op_dek : string; op_tenant : string }.

(** The flags that are defined. *)
Definition flag_setter (name : string) : option (string → options → options) :=
  if bool_decide (name = "dsn") then Some (λ v o, MkOptions v (op_blobs o) (op_dek o) (op_tenant o))
  else if bool_decide (name = "blobs") then Some (λ v o, MkOptions (op_dsn o) v (op_dek o) (op_tenant o))
  else if bool_decide (name = "dek") then Some (λ v o, MkOptions (op_dsn o) (op_blobs o) v (op_tenant o))
  else if bool_decide (name = "tenant") then Some (λ v o, MkOptions (op_dsn o) (op_blobs o) (op_dek o) v)
  else None.

(** A flag is an argument that begins with one or two minus signs; [--] ends the flags. *)
Inductive argument := NotFlag | EndFlags | BadSyntax | Flag (name : string) (value : option string).

(** The name ends at the first equals sign after its first byte. *)
Fixpoint split_value (s : string) : string * option string :=
  match s with
  | EmptyString => (EmptyString, None)
  | String "="%char s' => (EmptyString, Some s')
  | String c s' => let '(n, v) := split_value s' in (String c n, v)
  end.
Definition flag_named (s : string) : argument :=
  match s with
  | EmptyString | String "-"%char _ | String "="%char _ => BadSyntax
  | String c s' => let '(n, v) := split_value s' in Flag (String c n) v
  end.
Definition read_argument (s : string) : argument :=
  match s with
  | String "-"%char (String "-"%char EmptyString) => EndFlags
  | String "-"%char (String "-"%char s') => flag_named s'
  | String "-"%char (String c s') => flag_named (String c s')
  | _ => NotFlag
  end.

(** What is left of the arguments is not looked at.  [-h] and [-help] ask for the usage;
    an unknown flag, one without a value and bad syntax are errors. *)
Inductive parsed := Parsed (o : options) | Usage | BadFlags.
Fixpoint parse_flags (o : options) (args : list string) : parsed :=
  match args with
  | [] => Parsed o
  | s :: args' =>
      match read_argument s with
      | NotFlag | EndFlags => Parsed o
      | BadSyntax => BadFlags
      | Flag name value =>
          match flag_setter name with
          | None => if bool_decide (name = "help") || bool_decide (name = "h") then Usage else BadFlags
          | Some set =>
              match value, args' with
              | Some v, _ => parse_flags (set v o) args'
              | None, v :: args'' => parse_flags (set v o) args''
              | None, [] => BadFlags
              end
          end
      end
  end.

Definition complete (o : options) : bool :=
  negb (bool_decide (op_dsn o = "") || bool_decide (op_blobs o = "") || bool_decide (op_dek o = "") || bool_decide (op_tenant o = "")).

(** ** The command *)

(** os.ReadFile, blob.NewFS (which creates its directory) and sql.Open. *)
Class RestoreHost := {
  read_file : string → res bytes;
  new_fs : string → res unit;
  open_db : string → res unit;
}.

Section command.
Context {Pr : Primitives} {P : Platform} {F : OpenFGA} {Mi : Mime} {H : RestoreHost}.

Definition check_setup (o : options) : res Cipher :=
  b ← read_file (op_dek o);
  key ← decode_key b;
  cipher ← ChunkCrypto.New key (op_tenant o);
  _ ← new_fs (op_blobs o);
  _ ← open_db (op_dsn o);
  Ok cipher.

(** main: the exit status and the report.  The world is the one the data source name and
    the directory stand for. *)
Definition blobverify (e : Env) (args : list string) : M KW (Z * list line) :=
  match parse_flags (MkOptions (Getenv e "DATABASE_DSN") "" "" "") args with
  | Usage => mret (0%Z, [])
  | BadFlags => mret (2%Z, [])
  | Parsed o =>
      if negb (complete o) then mret (2%Z, [])
      else match check_setup o with
           | Err _ => mret (1%Z, [])
           | Ok cipher => verify_main cipher
           end
  end.

(** The cipher of the command is the one of the process. *)
Lemma same_cipher e read p o b :
  kamara_wiring e read = Ok p → read_file (op_dek o) = Ok b → decode_key b = loadDEK e read → op_tenant o = kp_instance p →
  new_fs (op_blobs o) = Ok tt → open_db (op_dsn o) = Ok tt →
  check_setup o = Ok (s_cipher (wa_svc (kp_app p))) ∧ op_tenant o ≠ "".
Proof.
  intros Hw Hb Hk Ht Hfs Hdb. unfold kamara_wiring, mbind, res_bind in Hw.
  repeat match type of Hw with context [match mustEnv ?e ?k with _ => _ end] => destruct (mustEnv e k); [|done] end.
  destruct (loadDEK e read) as [dek|]; [|done].
  destruct (ChunkCrypto.New dek _) as [cipher|] eqn:En; [|done].
  destruct (mustEnv e "OIDC_CLIENT_ID"); [|done]. injection Hw as <-. cbn in Ht |- *.
  unfold check_setup, mbind, res_bind. rewrite Hb, Hk, Ht, En, Hfs, Hdb. split; [done|].
  intros E. unfold ChunkCrypto.New in En. rewrite E in En. by destruct (negb _).
Qed.
End command.

Section claims.
Context {Pr : Primitives} {PrOk : PrimitivesOk} {P : Platform} {F : OpenFGA} {Mi : Mime} {H : RestoreHost}.

(** C38: the restore check is exact.  Take the database of any world a Kamara process
    reached, with any blob directory beside it.  Given the key file and the issuer's host
    of that process, the command (when nothing fails while it reads) prints one line for
    each file, which says whether its latest version is stored, decrypts and has the
    recorded size, and a total; it exits with 0 when all do and with 1 otherwise; and
    after a 0 every caller with access can download every file from the process, and gets
    as many bytes as recorded. *)
Theorem restore_check_exact e read p e' args o b w0 w :
  kamara_wiring e read = Ok p →
  parse_flags (MkOptions (Getenv e' "DATABASE_DSN") "" "" "") args = Parsed o → complete o = true →
  read_file (op_dek o) = Ok b → decode_key b = loadDEK e read → op_tenant o = kp_instance p →
  new_fs (op_blobs o) = Ok tt → open_db (op_dsn o) = Ok tt →
  let s := wa_svc (kp_app p) in
  run s (boot kdb_empty) w0 → w_db w = w_db w0 → w_faults w = [] →
  ∃ code ls n, blobverify e' args w = (Ok (code, ls ++ [LTotal (length ls) n]), w) ∧
    Forall2 (line_of (s_cipher s) w) (latest_rows (w_db w)) ls ∧
    (code = 0 ∨ code = 1)%Z ∧
    (code = 0%Z ↔ ∀ oid v, latest_version oid (w_db w) = Some v →
       ∃ data, stored_as s w oid data ∧ blen data = v_Size v) ∧
    (code = 0%Z → ∀ oid v caller, latest_version oid (w_db w) = Some v →
       fga_check (w_fga w) (tuple caller AccessRelation (obj oid)) = true →
       ∃ data, Download s caller oid (w, []) = (Ok tt, (w, data)) ∧ blen data = v_Size v).
Proof.
  intros Hw Hp Hc Hb Hk Ht Hfs Hdb s Hr Hd Hf. destruct (same_cipher _ _ _ _ _ Hw Hb Hk Ht Hfs Hdb) as [Es _].
  unfold blobverify. rewrite Hp, Hc, Es. cbn [negb]. by apply verify_main_exact with w0.
Qed.

(** Without one of its values, and with a flag it does not know, the command does nothing
    and says so with its status. *)
Lemma blobverify_usage e args (w : KW) :
  (∀ o, parse_flags (MkOptions (Getenv e "DATABASE_DSN") "" "" "") args = Parsed o → complete o = false) →
  ∃ code, blobverify e args w = (Ok (code, []), w) ∧
    (code = 2%Z ∨ code = 0%Z ∧ parse_flags (MkOptions (Getenv e "DATABASE_DSN") "" "" "") args = Usage).
Proof.
  intros Hn. unfold blobverify. destruct (parse_flags _ args) as [o| |]; [rewrite (Hn o eq_refl)|..]; eexists; (split; [reflexivity|]); auto.
Qed.
End claims.

(** ** A process with the key and the tenant of the demo service *)
Module RestoreDemo.
#[local] Existing Instance toy_primitives.
#[local] Existing Instance toy_primitives_ok.
#[local] Existing Instance counting_platform.
#[local] Existing Instance owner_fga.
#[local] Existing Instance no_mime.
Import VerifyDemo.

Definition key_text : bytes := str_bytes (Base64.EncodeToString (replicate 32 x07)).
Definition environment : Env := list_to_map [
  ("DATABASE_DSN", "dsn"); ("OPENFGA_API_URL", "http://fga"); ("KAMARA_BLOB_DIR", "/blobs");
  ("OIDC_ISSUER", "https://t"); ("OIDC_CLIENT_ID", "kamara"); ("KAMARA_DEK_FILE", "/dek")].
Definition files (path : string) : res bytes := if bool_decide (path = "/dek") then Ok key_text else Err ErrExternal.
#[export] Instance host : RestoreHost := {| read_file := files; new_fs _ := Ok tt; open_db _ := Ok tt |}.

Definition proc : res KamaraProc := kamara_wiring environment files.
Definition args : list string := ["-dsn=postgres://restored"; "--blobs"; "/restored"; "-dek"; "/dek"; "-tenant=t"; "ignored"].

(** The data as it was, the blobs lost, a value missing, a flag misspelt, the usage. *)
Definition outcome (args : list string) (w : KW) : Z * nat :=
  match (blobverify environment args w).1 with Ok (code, ls) => (code, length ls) | Err _ => (99%Z, 0) end.
Example restore_codes :
  outcome args Demo.uploaded = (0%Z, 2) ∧ outcome args blobs_lost = (1%Z, 2) ∧
  outcome ["-dek=/dek"; "-tenant=t"] Demo.uploaded = (2%Z, 0) ∧ outcome ["-tenants=t"] Demo.uploaded = (2%Z, 0) ∧
  outcome ["-dek"] Demo.uploaded = (2%Z, 0) ∧ outcome ["-h"] Demo.uploaded = (0%Z, 0).
Proof. vm_compute. repeat split. Qed.

Lemma restore_check_exact_witness :
  ∃ code ls n, blobverify environment args blobs_lost = (Ok (code, ls ++ [LTotal (length ls) n]), blobs_lost) ∧
    (code = 0%Z ↔ ∀ oid v, latest_version oid (w_db blobs_lost) = Some v →
       ∃ data, stored_as demo_service blobs_lost oid data ∧ blen data = v_Size v).
Proof.
  destruct proc as [p|] eqn:Ep; [|vm_compute in Ep; discriminate].
  assert (wa_svc (kp_app p) = demo_service) as Es by (vm_compute in Ep; injection Ep as <-; reflexivity).
  destruct (restore_check_exact environment files p environment args (MkOptions "postgres://restored" "/restored" "/dek" "t")
    key_text Demo.uploaded blobs_lost Ep) as (code&ls&n&E1&_&_&E2&_).
  1-4: vm_compute; reflexivity.
  1: vm_compute in Ep; injection Ep as <-; reflexivity.
  1-2: reflexivity.
  1: rewrite Es; exact Demo.uploaded_run.
  1: exact blobs_lost_db.
  1: exact blobs_lost_calm.
  exists code, ls, n. split; [exact E1|]. rewrite Es in E2. exact E2.
Defined.
End RestoreDemo.
