(* ===== verification/KamaraPages.v ===== *)
(** * KamaraPages: the text of Kamara's pages (kamara/internal/web/web.go)

    The templates as they stand in the source, the functions they call, the views as
    template data, and the pages: what a browser is sent for each content of Web.v.
    Every page renders, and the browser reads in it the template's own tags, attributes
    and texts with the values of the view in place ([kamara_pages_written]).  The
    program that renders sample pages for the accessibility check
    (kamara/cmd/a11y-render/main.go) is at the end. *)

From S2P Require Import Prelude GoText Ids World Pii Pseudonym Conventions Authz Chunker ChunkCrypto Blob Engine Repo FileService FolderService Wopi KamaraSafety Kamara Zip Url Http Json Headers Api WopiHost SessionStore Forms Discovery Oidcrp Web WebSafety Userinfo Dek Startup KamaraMain GoTemplate Html.
Import Pii.

(** ** The string catalog *)
Definition msg_catalog : list (string * string) :=
  [("title", "Kamara"); ("files", "Files"); ("logout", "Log out"); ("home", "Home");
   ("empty", "This folder is empty."); ("folder", "Folder"); ("file", "File"); ("open", "Open");
   ("new_folder", "New folder"); ("upload", "Upload"); ("download", "Download"); ("rename", "Rename");
   ("move", "Move"); ("delete", "Delete"); ("details", "Details"); ("name", "Name"); ("size", "Size");
   ("breadcrumb", "Breadcrumb"); ("create", "Create"); ("move_to", "Move to");
   ("confirm_delete", "Delete this item?"); ("location", "Location"); ("permalink", "Link");
   ("created", "Created"); ("versions", "Versions"); ("versions_soon", "Version history is coming soon.");
   ("close", "Close"); ("edit_office", "Edit in office"); ("no_versions", "No versions yet.");
   ("version_current", "current"); ("editor", "Editor"); ("back_to_files", "Back to files");
   ("download_zip", "Download as zip"); ("new_text_file", "New text file");
   ("new_file_placeholder", "notes.txt"); ("edit_text", "Edit"); ("save", "Save"); ("saved", "Saved.");
   ("cancel", "Cancel"); ("text_editor", "Text editor"); ("preview_of", "Preview of");
   ("conflict", "This file changed while you were editing. Saving again will overwrite those changes.");
   ("confirm_delete_folder", "Delete this folder and everything inside it?")].

(** A key without a text is shown between marks. *)
Definition lookup_msg (catalog : list (string * string)) (k : string) : string :=
  match find (λ kv, bool_decide (kv.1 = k)) catalog with Some kv => kv.2 | None => "⟪" +:+ k +:+ "⟫" end.

(** ** Sizes *)

(** The power of 1024 below [m]: [div] and [exp] after the loop. *)
Fixpoint unit_loop (fuel : nat) (m div : Z) (exp : nat) : Z * nat :=
  match fuel with
  | O => (div, exp)
  | S fuel' => if (m <? 1024)%Z then (div, exp) else unit_loop fuel' (m / 1024) (div * 1024) (S exp)
  end.

(** [a / b], to the nearest integer, ties to the even one. *)
Definition div_even (a b : Z) : Z :=
  let q := (a / b)%Z in
  let r := (2 * (a mod b))%Z in
  if (r <? b)%Z then q else if (b <? r)%Z then q + 1 else if Z.even q then q else q + 1.
(** float64(n): 53 bits are kept. *)
Definition to_float64 (n : Z) : Z :=
  let k := (Z.log2 n - 52)%Z in if (k <=? 0)%Z then n else (div_even n (2 ^ k) * 2 ^ k)%Z.

(** The quotient by a power of two is exact, so one rounding to tenths is left to
    FormatFloat; an index outside of the units would be a panic. *)
Definition humanBytes (n : Z) : option string :=
  if (n <? 1024)%Z then Some (pretty n +:+ " B")
  else
    let '(div, exp) := unit_loop 8 (n / 1024) 1024 0 in
    let tenths := div_even (to_float64 n * 10) div in
    c ← String.get exp "KMGTPE";
    Some (pretty (tenths / 10)%Z +:+ "." +:+ pretty (tenths mod 10)%Z +:+ " " +:+ String c "iB").

Example sizes :
  humanBytes <$> [0; 1023; 1024; 1536; 512000; 1048575; 5368709120; 2 ^ 63 - 1]%Z =
  Some <$> ["0 B"; "1023 B"; "1.0 KiB"; "1.5 KiB"; "500.0 KiB"; "1024.0 KiB"; "5.0 GiB"; "8.0 EiB"].
Proof. vm_compute. reflexivity. Qed.

Lemma unit_loop_spec fuel m div exp d e :
  (1 <= m < 1024 ^ Z.of_nat (S fuel))%Z → unit_loop fuel m div exp = (d, e) →
  ∃ k, d = (div * 1024 ^ Z.of_nat k)%Z ∧ e = exp + k ∧ (1024 ^ Z.of_nat k <= m < 1024 ^ Z.of_nat (S k))%Z.
Proof.
  revert m div exp. induction fuel as [|fuel IH]; intros m div exp Hm H; cbn [unit_loop] in H.
  { injection H as <- <-. exists 0. split_and!; [lia|lia|exact (proj1 Hm)|exact (proj2 Hm)]. }
  destruct (Z.ltb_spec m 1024) as [Hlt|Hge].
  { injection H as <- <-. exists 0. split_and!; [lia|lia|exact (proj1 Hm)|exact Hlt]. }
  rewrite Nat2Z.inj_succ, Z.pow_succ_r in Hm by lia.
  assert (1 <= m / 1024 < 1024 ^ Z.of_nat (S fuel))%Z as Hq
    by (split; [apply Z.div_le_lower_bound; lia|apply Z.div_lt_upper_bound; lia]).
  destruct (IH _ _ _ Hq H) as (k&->&->&Hlo&Hhi). exists (S k).
  rewrite !Nat2Z.inj_succ, !Z.pow_succ_r in * by lia. pose proof (Z.div_mod m 1024 ltac:(lia)). pose proof (Z.mod_pos_bound m 1024 ltac:(lia)).
  split_and!; [ring|lia|nia|nia].
Qed.

(** A size is shown in the largest unit that is not larger than it, and there is such a
    unit for every int64. *)
Lemma humanBytes_unit n :
  int64 n →
  humanBytes n = Some (pretty n +:+ " B") ∧ (n < 1024)%Z ∨
  ∃ k c, (1024 ^ Z.of_nat (S k) <= n < 1024 ^ Z.of_nat (S (S k)))%Z ∧ String.get k "KMGTPE" = Some c ∧
    let tenths := div_even (to_float64 n * 10) (1024 ^ Z.of_nat (S k)) in
    humanBytes n = Some (pretty (tenths / 10)%Z +:+ "." +:+ pretty (tenths mod 10)%Z +:+ " " +:+ String c "iB").
Proof.
  intros [_ Hn]. unfold humanBytes. destruct (Z.ltb_spec n 1024) as [Hlt|Hge]; [by left|right].
  destruct (unit_loop 8 (n / 1024) 1024 0) as [d e] eqn:E. apply unit_loop_spec in E as (k&->&->&Hlo&Hhi).
  2: { split; [apply Z.div_le_lower_bound; lia|apply Z.div_lt_upper_bound; [lia|]]. eapply Z.lt_le_trans; [exact Hn|]. vm_compute. discriminate. }
  pose proof (Z.div_mod n 1024 ltac:(lia)). pose proof (Z.mod_pos_bound n 1024 ltac:(lia)).
  assert (1024 * 1024 ^ Z.of_nat k = 1024 ^ Z.of_nat (S k))%Z as Hk by (rewrite Nat2Z.inj_succ, Z.pow_succ_r; lia).
  assert (1024 * 1024 ^ Z.of_nat (S k) = 1024 ^ Z.of_nat (S (S k)))%Z as Hk' by (rewrite (Nat2Z.inj_succ (S k)), Z.pow_succ_r; lia).
  assert (k < 6) as Hk6.
  { destruct (decide (k < 6)) as [|Hk6]; [done|]. exfalso.
    pose proof (Z.pow_le_mono_r 1024 (Z.of_nat 6) (Z.of_nat k) ltac:(lia) ltac:(lia)) as Hp.
    change (1024 ^ Z.of_nat 6)%Z with (2 ^ 60)%Z in Hp. change (2 ^ 63)%Z with (8 * 2 ^ 60)%Z in Hn. lia. }
  rewrite Hk. cbn [Nat.add]. exists k.
  assert (∃ c, String.get k "KMGTPE" = Some c) as [c Hc] by (do 6 (destruct k as [|k]; [by eexists|]); lia).
  exists c. rewrite Hc. split_and!; [nia|nia|done|done].
Qed.

(** ** The templates *)
(** The document. *)
Definition page_source : string := "<!doctype html>
<html lang=`en`><head>
<meta charset=`utf-8`><meta name=`viewport` content=`width=device-width, initial-scale=1`>
<title>{{msg `title`}}</title>
{{if .Inline}}<style>{{stylesheet}}</style>{{else}}<link rel=`stylesheet` href=`/style.css`>{{end}}
<script src=`/htmx.js` defer></script>
<script src=`/kamara.js` defer></script>
</head>
<body class=`min-h-screen bg-stone-50 text-stone-900`>
<header class=`border-b border-stone-200 bg-white`>
 <div class=`mx-auto flex max-w-3xl items-center justify-between px-4 py-3`>
  <a href=`/` class=`text-lg font-semibold text-brand`>{{msg `title`}}</a>
  <a href=`/auth/logout` class=`text-sm text-stone-600 underline hover:text-stone-900`>{{msg `logout`}}</a>
 </div>
</header>
<main id=`browser` class=`mx-auto max-w-3xl px-4 py-6`>{{template `listing` .}}</main>
<aside id=`drawer` aria-live=`polite`>{{if .Drawer}}{{template `details` .Drawer}}{{end}}</aside>
</body></html>
".

(** The listing of a folder. *)
Definition listing_source : string := "{{define `listing`}}
<nav aria-label=`{{msg `breadcrumb`}}` class=`mb-4 text-sm text-stone-600`>
 <ol class=`flex flex-wrap items-center gap-1`>
  <li><a href=`/` hx-get=`/browse` hx-target=`#browser` hx-push-url=`/` class=`underline hover:text-brand`>{{msg `home`}}</a></li>
  {{range .Crumbs}}
  <li aria-hidden=`true` class=`text-stone-400`>/</li>
  <li><a href=`/?folder={{.ID}}` hx-get=`/browse?folder={{.ID}}` hx-target=`#browser` hx-push-url=`/?folder={{.ID}}` class=`underline hover:text-brand`>{{.Name}}</a></li>
  {{end}}
 </ol>
</nav>
<h1 class=`sr-only`>{{msg `files`}}</h1>
<div class=`mb-4 flex flex-wrap items-end gap-4`>
 <form hx-post=`/folders?at={{.Here}}` hx-target=`#browser` hx-swap=`innerHTML`
       hx-on::after-request=`if(event.detail.successful)this.reset()` class=`flex items-end gap-2`>
  <label class=`text-sm text-stone-700`>{{msg `new_folder`}}
   <input name=`name` required class=`mt-1 block rounded border border-stone-300 px-2 py-1 text-sm`>
  </label>
  <button type=`submit` class=`rounded-base bg-brand px-3 py-1.5 text-sm font-medium text-white hover:opacity-90`>{{msg `create`}}</button>
 </form>
 <kamara-uploader class=`block rounded-base border-2 border-dashed border-stone-300 p-2`>
  <form hx-post=`/files?at={{.Here}}` hx-encoding=`multipart/form-data` hx-target=`#browser` hx-swap=`innerHTML`
        hx-on::after-request=`if(event.detail.successful)this.reset()` class=`flex items-end gap-2`>
   <label class=`text-sm text-stone-700`>{{msg `upload`}}
    <input type=`file` name=`file` required class=`mt-1 block text-sm`>
   </label>
   <button type=`submit` class=`rounded-base bg-brand px-3 py-1.5 text-sm font-medium text-white hover:opacity-90`>{{msg `upload`}}</button>
  </form>
 </kamara-uploader>
 <form method=`post` action=`/files/new?at={{.Here}}` class=`flex items-end gap-2`>
  <label class=`text-sm text-stone-700`>{{msg `new_text_file`}}
   <input name=`name` required placeholder=`{{msg `new_file_placeholder`}}` class=`mt-1 block rounded border border-stone-300 px-2 py-1 text-sm`>
  </label>
  <button type=`submit` class=`rounded-base bg-brand px-3 py-1.5 text-sm font-medium text-white hover:opacity-90`>{{msg `create`}}</button>
 </form>
 <a href=`/zip?at={{.Here}}` class=`pb-2 text-sm text-brand underline`>{{msg `download_zip`}}</a>
</div>
{{if and (not .Folders) (not .Files)}}
<p class=`rounded-base border border-dashed border-stone-300 p-8 text-center text-stone-500`>{{msg `empty`}}</p>
{{else}}
<ul class=`divide-y divide-stone-200 rounded-base border border-stone-200 bg-white`>
 {{range .Folders}}
 <li class=`flex flex-wrap items-center gap-x-3 gap-y-2 px-4 py-3`>
  <span aria-hidden=`true` class=`text-brand`>📁</span>
  <a href=`/?folder={{.ID}}` hx-get=`/browse?folder={{.ID}}` hx-target=`#browser` hx-push-url=`/?folder={{.ID}}`
     class=`grow font-medium text-stone-900 underline-offset-2 hover:underline`>{{.Name}}</a>
  <span class=`text-xs uppercase tracking-wide text-stone-600`>{{msg `folder`}}</span>
  <a href=`/zip?at={{.ID}}` class=`text-sm text-brand underline` aria-label=`{{msg `download_zip`}} {{.Name}}`>{{msg `download_zip`}}</a>
  {{template `rename` (row `/folders` .ID .Name $)}}
  {{template `moveto` (row `/folders` .ID .Name $)}}
  {{template `delete` (row `/folders` .ID .Name $)}}
 </li>
 {{end}}
 {{range .Files}}
 <li class=`flex flex-wrap items-center gap-x-3 gap-y-2 px-4 py-3`>
  <span aria-hidden=`true` class=`text-stone-400`>📄</span>
  <span class=`grow font-medium text-stone-900`>{{.Name}}</span>
  <span class=`text-sm text-stone-500`>{{bytes .Size}}</span>
  <a href=`/files/{{.ID}}/download` class=`text-sm text-brand underline`>{{msg `download`}}</a>
  {{if .TextEditable}}<a href=`/text/{{.ID}}` class=`text-sm text-brand underline` aria-label=`{{msg `edit_text`}} {{.Name}}`>{{msg `edit_text`}}</a>{{end}}
  <button hx-get=`/files/{{.ID}}/details` hx-target=`#drawer` class=`text-sm text-brand underline` aria-label=`{{msg `details`}} {{.Name}}`>{{msg `details`}}</button>
  {{template `rename` (row `/files` .ID .Name $)}}
  {{template `moveto` (row `/files` .ID .Name $)}}
  {{template `delete` (row `/files` .ID .Name $)}}
 </li>
 {{end}}
</ul>
{{end}}
{{end}}

".

(** The controls of a row: rename, move and delete. *)
Definition rows_source : string := "{{define `rename`}}
<details class=`text-sm`>
 <summary class=`cursor-pointer text-brand`>{{msg `rename`}}</summary>
 <form hx-post=`{{.Base}}/{{.ID}}/rename?at={{.At}}` hx-target=`#browser` hx-swap=`innerHTML` class=`mt-2 flex items-center gap-2`>
  <label class=`sr-only`>{{msg `name`}}</label>
  <input name=`name` value=`{{.Name}}` required class=`rounded border border-stone-300 px-2 py-1`>
  <button class=`rounded-base bg-brand px-3 py-1.5 font-medium text-white hover:opacity-90`>{{msg `rename`}}</button>
 </form>
</details>
{{end}}

{{define `moveto`}}
<details class=`text-sm`>
 <summary class=`cursor-pointer text-brand`>{{msg `move`}}</summary>
 <form hx-post=`{{.Base}}/{{.ID}}/move?at={{.At}}` hx-target=`#browser` hx-swap=`innerHTML` class=`mt-2 flex items-center gap-2`>
  <label class=`sr-only`>{{msg `move_to`}}</label>
  <select name=`dest` class=`rounded border border-stone-300 px-2 py-1 text-sm`>
   <option value=``>{{msg `home`}}</option>
   {{range .Folders}}<option value=`{{.ID}}`>{{.Name}}</option>{{end}}
  </select>
  <button class=`rounded-base bg-brand px-3 py-1.5 text-sm font-medium text-white hover:opacity-90`>{{msg `move`}}</button>
 </form>
</details>
{{end}}

{{define `delete`}}
<form hx-post=`{{.Base}}/{{.ID}}/delete?at={{.At}}` hx-target=`#browser` hx-swap=`innerHTML` hx-confirm=`{{msg .Confirm}}`>
 <button class=`text-sm text-red-700 underline` aria-label=`{{msg `delete`}} {{.Name}}`>{{msg `delete`}}</button>
</form>
{{end}}

".

(** The drawer of a file. *)
Definition details_source : string := "{{define `details`}}
{{with .Object}}
<div role=`region` aria-label=`{{.Name}}` tabindex=`-1` data-drawer class=`fixed inset-y-0 right-0 w-80 max-w-full overflow-y-auto border-l border-stone-200 bg-white p-4 shadow-lg`>
 <div class=`flex items-start justify-between gap-2`>
  <h2 class=`text-lg font-semibold text-stone-900`>{{.Name}}</h2>
  <button type=`button` data-close-drawer class=`text-sm text-stone-600 underline` aria-label=`{{msg `close`}}`>✕</button>
 </div>
 {{if .Previewable}}
 <img src=`/files/{{.ID}}/preview` alt=`{{msg `preview_of`}} {{.Name}}` class=`mt-4 max-h-48 w-full rounded-base border border-stone-200 bg-stone-50 object-contain`>
 {{end}}
 {{if $.Office}}
 <a href=`/edit/{{.ID}}` class=`mt-4 inline-block rounded-base bg-brand px-3 py-1.5 text-sm font-medium text-white hover:opacity-90`>{{msg `edit_office`}}</a>
 {{end}}
 {{if .TextEditable}}
 <a href=`/text/{{.ID}}` class=`mt-4 inline-block rounded-base bg-brand px-3 py-1.5 text-sm font-medium text-white hover:opacity-90`>{{msg `edit_text`}}</a>
 {{end}}
 <dl class=`mt-4 space-y-3 text-sm`>
  <div><dt class=`text-stone-500`>{{msg `size`}}</dt><dd class=`text-stone-900`>{{bytes .Size}}</dd></div>
  <div><dt class=`text-stone-500`>{{msg `created`}}</dt><dd class=`text-stone-900`>{{.Created.Format `2006-01-02 15:04`}}</dd></div>
  <div><dt class=`text-stone-500`>{{msg `location`}}</dt>
   <dd><a href=`/{{if .FolderID}}?folder={{.FolderID}}{{end}}` class=`text-brand underline`>{{msg `open`}}</a></dd></div>
  <div><dt class=`text-stone-500`>{{msg `permalink`}}</dt>
   <dd><a href=`{{.Permalink}}` class=`text-brand underline break-all`>{{.Permalink}}</a></dd></div>
 </dl>
{{end}}
 <section class=`mt-6`>
  <h3 class=`text-sm font-semibold text-stone-700`>{{msg `versions`}}</h3>
  {{if .Versions}}
  <ol class=`mt-2 space-y-1 text-sm`>
   {{range .Versions}}
   <li class=`flex justify-between text-stone-700`>
    <span>v{{.Ordinal}}{{if eq .Ordinal $.Latest}} · {{msg `version_current`}}{{end}}</span>
    <span class=`text-stone-500`>{{bytes .Size}} · {{.Created.Format `2006-01-02 15:04`}}</span>
   </li>
   {{end}}
  </ol>
  {{else}}
  <p class=`mt-1 text-sm text-stone-500`>{{msg `no_versions`}}</p>
  {{end}}
 </section>
</div>
{{end}}

".

(** The page of the office editor. *)
Definition editor_source : string := "{{define `editor`}}<!doctype html>
<html lang=`en`><head>
<meta charset=`utf-8`><meta name=`viewport` content=`width=device-width, initial-scale=1`>
<title>{{.Name}} — {{msg `editor`}}</title>
<style>html,body{margin:0;height:100%}#office_frame{width:100%;height:100vh;border:0;display:block}
.bar{font:14px system-ui;padding:6px 12px;background:#fafaf9;border-bottom:1px solid #e7e5e4}
.bar a{color:#0369a1;text-decoration:none}</style>
</head>
<body>
<div class=`bar`><a href=`/`>← {{msg `back_to_files`}}</a> · {{.Name}}</div>
<form id=`office_form` method=`post` target=`office_frame` action=`{{.ActionURL}}`>
 <input type=`hidden` name=`access_token` value=`{{.AccessToken}}`>
 <input type=`hidden` name=`access_token_ttl` value=`{{.AccessTokenTTL}}`>
</form>
<iframe id=`office_frame` name=`office_frame` allow=`clipboard-read; clipboard-write`></iframe>
<script src=`/editor.js` defer></script>
</body></html>{{end}}

".

(** The page of the text editor. *)
Definition texteditor_source : string := "{{define `texteditor`}}<!doctype html>
<html lang=`en`><head>
<meta charset=`utf-8`><meta name=`viewport` content=`width=device-width, initial-scale=1`>
<title>{{.Object.Name}} — {{msg `text_editor`}}</title>
{{if .Inline}}<style>{{stylesheet}}</style>{{else}}<link rel=`stylesheet` href=`/style.css`>{{end}}
</head>
<body class=`min-h-screen bg-stone-50 text-stone-900`>
<header class=`border-b border-stone-200 bg-white`>
 <div class=`mx-auto flex max-w-3xl items-center justify-between px-4 py-3`>
  <a href=`{{.BackURL}}` class=`text-sm text-stone-600 underline hover:text-stone-900`>← {{msg `back_to_files`}}</a>
  <h1 class=`text-lg font-semibold text-stone-900`>{{.Object.Name}}</h1>
 </div>
</header>
<main class=`mx-auto max-w-3xl px-4 py-6`>
 {{if .Conflict}}<p role=`alert` class=`mb-4 rounded-base border border-red-300 bg-red-50 p-3 text-sm text-red-900`>{{msg `conflict`}}</p>{{end}}
 {{if .Saved}}<p role=`status` class=`mb-4 rounded-base border border-stone-300 bg-white p-3 text-sm text-stone-700`>{{msg `saved`}}</p>{{end}}
 <form method=`post` action=`/text/{{.Object.ID}}`>
  <input type=`hidden` name=`base` value=`{{.Base}}`>
  <label class=`sr-only` for=`content`>{{.Object.Name}}</label>
  <textarea id=`content` name=`content` rows=`24` spellcheck=`false`
   class=`block w-full rounded-base border border-stone-300 bg-white p-3 font-mono text-sm text-stone-900`>{{.Content}}</textarea>
  <div class=`mt-3 flex items-center gap-3`>
   <button type=`submit` class=`rounded-base bg-brand px-4 py-2 text-sm font-medium text-white hover:opacity-90`>{{msg `save`}}</button>
   <a href=`{{.BackURL}}` class=`text-sm text-stone-600 underline`>{{msg `cancel`}}</a>
  </div>
 </form>
</main>
</body></html>{{end}}".

Definition pageTmpl_text : string :=
  page_source +:+ listing_source +:+ rows_source +:+ details_source +:+ editor_source +:+ texteditor_source.

Definition pageTmpl : definitions := Eval vm_compute in default [] (Parse "page" pageTmpl_text).
Lemma pageTmpl_parsed : Parse "page" pageTmpl_text = Some pageTmpl.
Proof. vm_compute. reflexivity. Qed.

(** ** The functions of the templates *)

(** rowCtx, from the listing it is made in. *)
Definition row_ctx (base id name : string) (here folders : value) : value :=
  VRec [("Base", VStr base); ("ID", VStr id); ("Name", VStr name); ("At", here);
        ("Confirm", VStr (if bool_decide (base = "/folders") then "confirm_delete_folder" else "confirm_delete"));
        ("Folders", folders)].

Section pages.
Context {As : Assets}.

(** The compiled CSS; nothing when it cannot be read. *)
Definition stylesheet : string := match asset_bytes Stylesheet with Ok b => bytes_str b | Err _ => "" end.

Definition funcs (f : string) (args : list value) : option value :=
  if bool_decide (f = "msg") then match args with [VStr k] => Some (VStr (lookup_msg msg_catalog k)) | _ => None end
  else if bool_decide (f = "bytes") then match args with [VInt n] => VStr <$> humanBytes n | _ => None end
  else if bool_decide (f = "stylesheet") then match args with [] => Some (VCss stylesheet) | _ => None end
  else if bool_decide (f = "row") then
    match args with
    | [VStr base; VStr id; VStr name; VRec v] =>
        here ← field "Here" v; folders ← field "AllFolders" v; Some (row_ctx base id name here folders)
    | _ => None
    end
  else None.

(** ** The views as template data: the fields and methods the templates read *)
Definition folder_value (f : Folder) : value := VRec [("ID", VStr (f_ID f)); ("Name", VStr (f_Name f))].
Definition object_value (o : Object) : value :=
  VRec [("ID", VStr (o_ID o)); ("Name", VStr (o_Name o)); ("Size", VInt (o_Size o)); ("FolderID", VPtr (VStr <$> o_FolderID o));
        ("Created", VTime (o_Created o)); ("Permalink", VStr (o_Permalink (o_ID o)));
        ("TextEditable", VBool (TextEditable o)); ("Previewable", VBool (Previewable o))].
Definition version_value (v : Version) : value :=
  VRec [("Ordinal", VInt (v_Ordinal v)); ("Size", VInt (v_Size v)); ("Created", VTime (v_Created v))].
Definition detail_value (d : DetailView) : value :=
  VRec [("Object", object_value (dv_Object d)); ("Versions", VList (version_value <$> dv_Versions d));
        ("Latest", VInt (dv_Latest d)); ("Office", VBool (dv_Office d))].
Definition view_value (v : View) : value :=
  VRec [("Crumbs", VList (folder_value <$> vw_Crumbs v)); ("Folders", VList (folder_value <$> vw_Folders v));
        ("Files", VList (object_value <$> vw_Files v)); ("AllFolders", VList (folder_value <$> vw_AllFolders v));
        ("Inline", VBool (vw_Inline v)); ("Drawer", VPtr (detail_value <$> vw_Drawer v)); ("Here", VStr (Here v))].
Definition editor_value (v : EditorView) : value :=
  VRec [("Name", VStr (ed_Name v)); ("ActionURL", VStr (ed_ActionURL v)); ("AccessToken", VStr (ed_AccessToken v));
        ("AccessTokenTTL", VInt (ed_AccessTokenTTL v))].
Definition text_value (v : TextEditorView) : value :=
  VRec [("Object", object_value (te_Object v)); ("Content", VStr (bytes_str (te_Content v))); ("Base", VInt (te_Base v));
        ("Saved", VBool (te_Saved v)); ("Conflict", VBool (te_Conflict v)); ("Inline", VBool (te_Inline v)); ("BackURL", VStr (BackURL v))].

(** ** The pages *)
Definition template_names : list string := ["page"; "listing"; "details"; "editor"; "texteditor"].
Definition escaped : list (string * list enode) := Eval vm_compute in
  (λ n, (n, default [] (@escape_template {| charref _ := [] |} pageTmpl n))) <$> template_names.
Definition escaped_template (name : string) : list enode :=
  match find (λ x, bool_decide (x.1 = name)) escaped with Some x => x.2 | None => [] end.

Definition execute (name : string) (data : value) : option bytes := Execute funcs (escaped_template name) data.
Definition Page (v : View) : option bytes := execute "page" (view_value v).
Definition Listing (v : View) : option bytes := execute "listing" (view_value v).
Definition Details (v : DetailView) : option bytes := execute "details" (detail_value v).
Definition Editor (v : EditorView) : option bytes := execute "editor" (editor_value v).
Definition TextEditor (v : TextEditorView) : option bytes := execute "texteditor" (text_value v).

(** The template and the data of a content that is a page, and its text. *)
Definition page_data (c : content) : option (string * value) :=
  match c with
  | PPage v => Some ("page", view_value v)
  | PListing v => Some ("listing", view_value v)
  | PDetails v => Some ("details", detail_value v)
  | PEditor v => Some ("editor", editor_value v)
  | PTextEditor v => Some ("texteditor", text_value v)
  | PEmpty | PText _ | PBytes _ | PZip _ => None
  end.
Definition page_text (c : content) : option bytes :=
  match c with
  | PPage v => Page v
  | PListing v => Listing v
  | PDetails v => Details v
  | PEditor v => Editor v
  | PTextEditor v => TextEditor v
  | PEmpty | PText _ | PBytes _ | PZip _ => None
  end.
End pages.

(** ** Types *)
Definition folder_ty : ty := TyRec [("ID", TyStr); ("Name", TyStr)].
Definition object_ty : ty :=
  TyRec [("ID", TyStr); ("Name", TyStr); ("Size", TyInt); ("FolderID", TyPtr TyStr); ("Created", TyTime); ("Permalink", TyStr);
         ("TextEditable", TyBool); ("Previewable", TyBool)].
Definition version_ty : ty := TyRec [("Ordinal", TyInt); ("Size", TyInt); ("Created", TyTime)].
Definition detail_ty : ty := TyRec [("Object", object_ty); ("Versions", TyList version_ty); ("Latest", TyInt); ("Office", TyBool)].
Definition view_ty : ty :=
  TyRec [("Crumbs", TyList folder_ty); ("Folders", TyList folder_ty); ("Files", TyList object_ty); ("AllFolders", TyList folder_ty);
         ("Inline", TyBool); ("Drawer", TyPtr detail_ty); ("Here", TyStr)].
Definition editor_ty : ty := TyRec [("Name", TyStr); ("ActionURL", TyStr); ("AccessToken", TyStr); ("AccessTokenTTL", TyInt)].
Definition text_ty : ty :=
  TyRec [("Object", object_ty); ("Content", TyStr); ("Base", TyInt); ("Saved", TyBool); ("Conflict", TyBool); ("Inline", TyBool);
         ("BackURL", TyStr)].
Definition row_ty (here folders : ty) : ty :=
  TyRec [("Base", TyStr); ("ID", TyStr); ("Name", TyStr); ("At", here); ("Confirm", TyStr); ("Folders", folders)].

Definition funcs_ty (f : string) (ts : list ty) : option ty :=
  if bool_decide (f = "msg") then match ts with [TyStr] => Some TyStr | _ => None end
  else if bool_decide (f = "bytes") then match ts with [TyInt] => Some TyStr | _ => None end
  else if bool_decide (f = "stylesheet") then match ts with [] => Some TyCss | _ => None end
  else if bool_decide (f = "row") then
    match ts with
    | [TyStr; TyStr; TyStr; TyRec v] => here ← field_ty "Here" v; folders ← field_ty "AllFolders" v; Some (row_ty here folders)
    | _ => None
    end
  else None.

(** The stylesheet that is built in does not end the element it is inlined in. *)
Class AssetsOk `{Assets} : Prop := stylesheet_ok : ∀ b, asset_bytes Stylesheet = Ok b → no_end_tag b = true.

Ltac typed_args H :=
  repeat match type of H with
         | Forall2 _ _ (_ :: _) => let Hv := fresh "Hv" in let H' := fresh in
             apply Forall2_cons_inv_r in H as (?&?&Hv&H'&->); rename H' into H
         | Forall2 _ _ [] => apply Forall2_nil_inv_r in H as ->
         end.

#[export] Instance kamara_funcs_ok `{AssetsOk} : FuncsOk funcs funcs_ty.
Proof.
  split.
  - intros f ts t vs Ht Hv. unfold funcs_ty, funcs in *.
    destruct (bool_decide (f = "msg")).
    { destruct ts as [|[] []]; try done. injection Ht as <-. typed_args Hv. inversion Hv0; subst. eauto with go. }
    destruct (bool_decide (f = "bytes")).
    { destruct ts as [|[] []]; try done. injection Ht as <-. typed_args Hv. inversion Hv0; subst.
      destruct (humanBytes_unit z) as [[-> _]|(k&c&_&_&->)]; [done|..]; eauto with go. }
    destruct (bool_decide (f = "stylesheet")).
    { destruct ts; [|done]. injection Ht as <-. typed_args Hv. eexists. split; [done|]. constructor.
      unfold stylesheet. destruct (asset_bytes Stylesheet) as [b|] eqn:E; [|done]. rewrite str_bytes_str. by apply stylesheet_ok. }
    destruct (bool_decide (f = "row")); [|done].
    do 3 (destruct ts as [|[] ts]; try done). destruct ts as [|[] [|]]; try done. unfold mbind, option_bind in Ht.
    destruct (field_ty "Here" fs) as [h|] eqn:Eh; [|done]. destruct (field_ty "AllFolders" fs) as [l|] eqn:El; [|done]. injection Ht as <-.
    typed_args Hv. inversion Hv0; inversion Hv1; inversion Hv2; inversion Hv3; subst.
    match goal with Hf : Forall2 _ _ fs |- _ => destruct (field_typed _ _ _ _ Hf Eh) as (vh&Eh'&Hh); destruct (field_typed _ _ _ _ Hf El) as (vl&El'&Hl) end.
    unfold mbind, option_bind. rewrite Eh', El'. eexists. split; [done|]. constructor. repeat constructor; done.
  - intros f ts vs Ht Hb _. unfold builtin_ty in Hb. unfold funcs.
    destruct (bool_decide_reflect (f = "not")) as [->|]; [done|]. destruct (bool_decide_reflect (f = "and")) as [->|]; [done|].
    destruct (bool_decide_reflect (f = "eq")) as [->|]; [done|]. destruct (bool_decide_reflect (f = "ne")) as [->|]; done.
Qed.

(** The numbers of a view are Go's. *)
Definition object_fits (o : Object) : Prop := int64 (o_Size o).
Definition detail_fits (d : DetailView) : Prop :=
  object_fits (dv_Object d) ∧ Forall (λ v, int64 (v_Ordinal v) ∧ int64 (v_Size v)) (dv_Versions d) ∧ int64 (dv_Latest d).
Definition view_fits (v : View) : Prop :=
  Forall object_fits (vw_Files v) ∧ match vw_Drawer v with Some d => detail_fits d | None => True end.
Definition content_fits (c : content) : Prop :=
  match c with
  | PPage v | PListing v => view_fits v
  | PDetails d => detail_fits d
  | PEditor v => int64 (ed_AccessTokenTTL v)
  | PTextEditor v => object_fits (te_Object v) ∧ int64 (te_Base v)
  | _ => False
  end.

(** The fields of a record, one by one. *)
Ltac typed_rec :=
  constructor; repeat (apply Forall2_cons; split; [split; [reflexivity|]; cbn [fst snd]|]); try apply Forall2_nil_2; try (by constructor).

Lemma folders_typed l : has_type (VList (folder_value <$> l)) (TyList folder_ty).
Proof. constructor. apply Forall_fmap, Forall_true. intros f. typed_rec. Qed.
Lemma object_typed o : object_fits o → has_type (object_value o) object_ty.
Proof. intros H. typed_rec. destruct (o_FolderID o); by repeat constructor. Qed.
Lemma detail_typed d : detail_fits d → has_type (detail_value d) detail_ty.
Proof.
  intros (H1&H2&H3). typed_rec; [by apply object_typed|]. constructor. apply Forall_fmap. eapply Forall_impl; [exact H2|].
  intros v [??]. typed_rec.
Qed.
Lemma view_typed v : view_fits v → has_type (view_value v) view_ty.
Proof.
  intros [H1 H2]. typed_rec; try apply folders_typed.
  - constructor. apply Forall_fmap. eapply Forall_impl; [exact H1|]. intros o. apply object_typed.
  - destruct (vw_Drawer v); constructor. by apply detail_typed.
Qed.
Lemma editor_typed v : int64 (ed_AccessTokenTTL v) → has_type (editor_value v) editor_ty.
Proof. intros H. typed_rec. Qed.
Lemma text_typed v : object_fits (te_Object v) → int64 (te_Base v) → has_type (text_value v) text_ty.
Proof. intros H1 H2. typed_rec. by apply object_typed. Qed.

(** ** Every page of Kamara is read as it is written *)
Section written_pages.
Context {As : Assets} {Aok : AssetsOk} {R : HtmlRefs} {Rok : HtmlRefsOk}.

Lemma escaped_ok n : n ∈ template_names → escape_template pageTmpl n = Some (escaped_template n).
Proof.
  intros H. repeat (apply elem_of_cons in H as [->|H]; [vm_compute; reflexivity|]). by apply not_elem_of_nil in H.
Qed.

Lemma kamara_pages_written c :
  content_fits c →
  ∃ name data its out, page_data c = Some (name, data) ∧ exec funcs (escaped_template name) data data = Some its ∧
    page_text c = Some out ∧ written its out.
Proof.
  assert (∀ n data t, n ∈ template_names → typed funcs_ty (escaped_template n) t t None = true → has_type data t →
    ∃ its out, exec funcs (escaped_template n) data data = Some its ∧ execute n data = Some out ∧ written its out) as Hp.
  { intros n data t Hn Ht Hd. by eapply (renders funcs funcs_ty pageTmpl n); [apply escaped_ok|..]. }
  intros Hc. destruct c as [| |v|v|d|v|v| |]; try done.
  - destruct (Hp "page" (view_value v) view_ty) as (its&out&?&?&?); [set_solver|vm_compute; done|by apply view_typed|eauto 10].
  - destruct (Hp "listing" (view_value v) view_ty) as (its&out&?&?&?); [set_solver|vm_compute; done|by apply view_typed|eauto 10].
  - destruct (Hp "details" (detail_value d) detail_ty) as (its&out&?&?&?); [set_solver|vm_compute; done|by apply detail_typed|eauto 10].
  - destruct (Hp "editor" (editor_value v) editor_ty) as (its&out&?&?&?); [set_solver|vm_compute; done|by apply editor_typed|eauto 10].
  - destruct Hc. destruct (Hp "texteditor" (text_value v) text_ty) as (its&out&?&?&?); [set_solver|vm_compute; done|by apply text_typed|eauto 10].
Qed.
End written_pages.

(** ** The accessibility renderer (kamara/cmd/a11y-render/main.go) *)
Section a11y.
Context {As : Assets}.

Definition sample_owner : Subject := MkSubject "demo.example" "sample".
Definition textEditorView : TextEditorView :=
  MkTextEditorView (MkObject "019f2" sample_owner "notes.txt" 900 None "text/plain" 0 0)
    (str_bytes "Meeting notes
=============

- ship the file manager
- review the zip download
") 1 true true false.

(** The zero time of a Created that is not set. *)
Definition no_time : Z := -62135596800 * 1000000000.
Definition here : string := "019sample-folder".
Definition sample_root : Folder := MkFolder here sample_owner None "Projects" no_time no_time.
Definition sample_sub : Folder := MkFolder "019sub" sample_owner (Some here) "Designs" 0 0.
Definition sample_report : Object := MkObject "019f1" sample_owner "report.pdf" 512000 (Some here) "application/pdf" 0 0.
Definition sample_notes : Object := MkObject "019f2" sample_owner "notes.txt" 900 (Some here) "text/plain" 0 0.
Definition long_folder : Folder :=
  MkFolder "019long" sample_owner None "A deeply nested project folder with an unusually long descriptive title" no_time no_time.
Definition long_file : Object :=
  MkObject "019l" sample_owner
    "A-very-long-file-name-that-should-wrap-gracefully-without-breaking-the-layout-or-contrast.pdf" 1 None "" 0 0.

Definition a11y_view (state : string) : res View :=
  let all := [sample_root; sample_sub] in
  if bool_decide (state = "browse") then
    Ok (MkView [sample_root] [sample_sub] [sample_report; sample_notes] all false
          (Some (MkDetailView sample_report [MkVersion "" 1 512000 0; MkVersion "" 0 480000 0] 1 true)))
  else if bool_decide (state = "empty") then Ok (MkView [sample_root] [] [] all false None)
  else if bool_decide (state = "root") then Ok (MkView [] [sample_root] [] all false None)
  else if bool_decide (state = "long") then Ok (MkView [] [long_folder] [long_file] [long_folder] false None)
  else Err (ErrText "unknown state").

Definition inlined (v : View) : View :=
  MkView (vw_Crumbs v) (vw_Folders v) (vw_Files v) (vw_AllFolders v) true (vw_Drawer v).
Definition text_inlined (v : TextEditorView) : TextEditorView :=
  MkTextEditorView (te_Object v) (te_Content v) (te_Base v) (te_Saved v) (te_Conflict v) true.

(** main: what is printed, or the error it exits with; [None] is a panic. *)
Definition a11y_main (args : list string) : option (res bytes) :=
  let state := default "browse" (head args) in
  if bool_decide (state = "texteditor") then Ok <$> TextEditor (text_inlined textEditorView)
  else match a11y_view state with
       | Err e => Some (Err e)
       | Ok v => Ok <$> Page (inlined v)
       end.
End a11y.

(** It prints a page for each of its states, and panics for none. *)
Lemma a11y_view_fits state v : a11y_view state = Ok v → view_fits (inlined v).
Proof.
  unfold a11y_view. repeat match goal with |- context [bool_decide (state = ?s)] => destruct (bool_decide (state = s)) end;
    intros [= <-]; split; repeat (apply conj || constructor); vm_compute; discriminate.
Qed.

Lemma a11y_renders `{AssetsOk} {R : HtmlRefs} {Rok : HtmlRefsOk} args :
  ∃ r, a11y_main args = Some r ∧
    (default "browse" (head args) ∈ ["browse"; "empty"; "root"; "long"; "texteditor"] ↔ ∃ out, r = Ok out).
Proof.
  assert (∀ c, content_fits c → ∃ out, page_text c = Some out) as Hp
    by (intros c Hc; destruct (kamara_pages_written c Hc) as (?&?&?&out&?&?&?&?); eauto).
  unfold a11y_main. generalize (default "browse" (head args)) as state. intros state.
  destruct (bool_decide_reflect (state = "texteditor")) as [->|Ht].
  { destruct (Hp (PTextEditor (text_inlined textEditorView))) as [out Ho]; [repeat split; vm_compute; discriminate|].
    cbn [page_text] in Ho. rewrite Ho. eexists. split; [done|]. split; [eauto|]. intros _. by apply (bool_decide_unpack _). }
  destruct (a11y_view state) as [v|e] eqn:E.
  - destruct (Hp (PPage (inlined v)) (a11y_view_fits _ _ E)) as [out Ho]. cbn [page_text] in Ho. rewrite Ho.
    eexists. split; [done|]. split; [eauto|]. intros _. unfold a11y_view in E. rewrite !elem_of_cons.
    repeat match type of E with context [bool_decide (state = ?s)] => destruct (bool_decide_reflect (state = s)); [tauto|] end. done.
  - eexists. split; [done|]. split; [|intros [out [=]]]. unfold a11y_view in E. rewrite !elem_of_cons.
    repeat match type of E with context [bool_decide (state = ?s)] => destruct (bool_decide_reflect (state = s)); [done|] end.
    intros [|[|[|[|[|[]%not_elem_of_nil]]]]]; done.
Qed.

(** ** A stylesheet *)
Module StyleDemo.
#[export] Instance assets : Assets := {| asset_bytes _ := Ok (str_bytes "@property --a{syntax:'<length>'}") |}.
#[export] Instance assets_ok : AssetsOk.
Proof. intros b [= <-]. vm_compute. reflexivity. Qed.
End StyleDemo.
