(* ===== verification/TextForm.v ===== *)
(** * TextForm: the text editor's form, from the page to the save

    A browser that opens the editor's page and sends its form back unchanged: what the
    page's tokens make of the form's fields, how they are submitted, and what the save
    reads.  The text comes back byte by byte ([text_editor_roundtrip]), for a text
    without carriage returns or null bytes that does not begin with a line break; the
    demos show what happens to the others, and that a text of many lines is refused. *)

From S2P Require Import Prelude GoText Ids World Pii Pseudonym Conventions Authz Chunker ChunkCrypto Blob Engine Repo RepoInv FileService FolderService Wopi KamaraSafety Kamara Typed Zip Url Http Headers Api WopiHost SessionStore Forms Discovery Oidcrp Web WebSafety TextEdit KamaraMain GoTemplate Html KamaraPages.
Import Pii Chunker Web.

(** ** The browser's side *)

(** A textarea drops one line break at its start. *)
Definition textarea_value (s : bytes) : bytes := match s with x0a :: s' => s' | _ => s end.

Definition attr (k : string) (ats : list (string * bytes)) : option bytes :=
  snd <$> find (λ kv, bool_decide (kv.1 = k)) ats.

(** The controls of a page that are submitted, with their values: inputs and textareas
    that have a name. *)
Fixpoint fields (ts : list token) : list (string * bytes) :=
  match ts with
  | [] => []
  | TStart tag ats :: ts' =>
      (match attr "name" ats with
       | Some name =>
           if bool_decide (tag = "input") then [(bytes_str name, default [] (attr "value" ats))]
           else if bool_decide (tag = "textarea")
           then [(bytes_str name, match ts' with TChars "textarea" s :: _ => textarea_value s | _ => [] end)]
           else []
       | None => []
       end) ++ fields ts'
  | _ :: ts' => fields ts'
  end.

(** Submission: line breaks are sent as CR LF, in an URL-encoded form. *)
Definition lf_to_crlf (l : bytes) : bytes := l ≫= (λ b, if bool_decide (b = x0a) then [x0d; x0a] else [b]).
Definition form_unreserved (b : byte) : bool :=
  letter b || digit b || bool_decide (b ∈ str_bytes "*-._").
Definition form_byte (b : byte) : bytes :=
  if form_unreserved b then [b] else if bool_decide (b = x20) then [x2b] else x25 :: str_bytes (ToUpper (hex_byte b)).
Definition form_body (fs : list (string * bytes)) : string :=
  encode_with form_byte ((λ f, (f.1, bytes_str (lf_to_crlf f.2))) <$> fs).

#[export] Instance form_encoder : Encoder form_byte.
Proof. split; [unescapes|by intros []]. Qed.

Lemma crlf_lf l : x0d ∉ l → crlf_to_lf (lf_to_crlf l) = l.
Proof.
  induction l as [|b l IH]; intros H; [done|]. apply not_elem_of_cons in H as [Hb Hl].
  change (lf_to_crlf (b :: l)) with ((if bool_decide (b = x0a) then [x0d; x0a] else [b]) ++ lf_to_crlf l).
  destruct (bool_decide_reflect (b = x0a)) as [->|Hn]; cbn [app].
  - cbn. by rewrite IH.
  - rewrite <- (IH Hl) at 2. destruct b; try done.
Qed.

(** ** Numbers *)
Lemma decimal_pretty x s : decimal 0 (pretty_N_go x s) = decimal (Z.of_N x) s.
Proof.
  revert s. induction (N.lt_wf_0 x) as [x _ IH]; intros s.
  assert (x = 0 ∨ 0 < x)%N as [->|Hx] by lia; [by rewrite pretty_N_go_0|].
  rewrite pretty_N_go_step by done. rewrite IH by (by apply N.div_lt). cbn [decimal].
  pose proof (N.mod_lt x 10 ltac:(done)) as Hm. pose proof (N.div_mod x 10 ltac:(done)) as Hd.
  generalize dependent (x `mod` 10)%N. intros m Hm Hd.
  assert (Z.of_N (Ascii.N_of_ascii (pretty_N_char m)) = 48 + Z.of_N m)%Z as ->.
  { clear Hd. destruct m as [|p]; [done|]. do 4 (destruct p as [p|p|]; try done; try lia). }
  rewrite (proj2 (Z.leb_le 48 _)), (proj2 (Z.leb_le _ 57)) by lia. cbn [andb]. f_equal. lia.
Qed.

Lemma pretty_head (n : N) : ∃ c s, pretty n = String c s ∧ c ≠ "-"%char ∧ c ≠ "+"%char.
Proof.
  pose proof (pretty_bytes "-"%char n eq_refl) as H1. pose proof (pretty_bytes "+"%char n eq_refl) as H2.
  destruct (pretty n) as [|c s] eqn:E.
  - exfalso. unfold pretty, pretty_N in E. case_decide; [done|].
    pose proof (decimal_pretty n "") as Hd. rewrite E in Hd. cbn in Hd. injection Hd as Hd. lia.
  - cbn in H1, H2. apply orb_false_iff in H1 as [H1%bool_decide_eq_false _], H2 as [H2%bool_decide_eq_false _]. eauto.
Qed.

Lemma Atoi_pretty n : (0 <= n < 2 ^ 63)%Z → Atoi (pretty n) = Some n.
Proof.
  intros Hn. assert (pretty n = pretty (Z.to_N n)) as -> by (by destruct n; try lia).
  destruct (pretty_head (Z.to_N n)) as (c&s&E&H1&H2). unfold Atoi. rewrite E.
  assert (decimal 0 (String c s) = Some n) as Hd.
  { rewrite <- E. unfold pretty, pretty_N. case_decide as Hz; [assert (n = 0)%Z as -> by lia; done|].
    rewrite decimal_pretty. cbn. f_equal. lia. }
  assert ((match String c s with String "-" s' => (true, s') | String "+" s' => (false, s') | _ => (false, String c s) end) = (false, String c s)) as ->.
  { destruct c as [[] [] [] [] [] [] [] []]; done. }
  cbn [bool_decide]. rewrite bool_decide_false by done. rewrite Hd. cbv zeta beta iota delta [mbind option_bind].
  rewrite (proj2 (Z.leb_le _ _)), (proj2 (Z.ltb_lt _ _)) by lia. done.
Qed.

(** ** The tokens of the editor's page *)

(** What is read of a template, with its values still to be put in. *)
Inductive cell := Read (e : event) | Hole (c : ctl) (e : escaper) (v : bytes).
(** [f] is how a value is shown. *)
Definition realize (f : escaper → bytes → bytes) (x : cell) : event :=
  match x with Read e => e | Hole c e v => slot c (f e v) end.

Section cells.
Context {R : HtmlRefs}.
Fixpoint cells (c : ctx) (its : list item) : option (ctx * list cell) :=
  match its with
  | [] => Some (c, [])
  | IText s :: its' => x ← gread c (str_bytes s); y ← cells x.1 its'; Some (y.1, (Read <$> x.2) ++ y.2)
  | IVal e v :: its' =>
      if bool_decide (wanted c = Some e) && negb (bool_decide (e = ECss))
      then y ← cells c its'; Some (y.1, Hole c.1 e v :: y.2) else None
  end.

Lemma seen_cells c its c' l : cells c its = Some (c', l) → seen c its = Some (c', realize shown <$> l).
Proof.
  revert c l. induction its as [|[s|e v] its IH]; intros c l H; cbn [cells seen] in *; unfold mbind, option_bind in *.
  - by injection H as -> <-.
  - destruct (gread c (str_bytes s)) as [[c1 e1]|]; [|done]. cbn [fst snd] in *. destruct (cells c1 its) as [[c2 l2]|] eqn:E; [|done].
    injection H as -> <-. rewrite (IH _ _ E), fmap_app, <- list_fmap_compose. by rewrite list_fmap_id.
  - unfold css_ok. destruct (bool_decide (wanted c = Some e)), (bool_decide (e = ECss)); try done. cbn [andb negb orb] in *.
    destruct (cells c its) as [[c2 l2]|] eqn:E; [|done]. injection H as -> <-. by rewrite (IH _ _ E).
Qed.

Lemma tokens_cells its up l :
  cells (CText "" None, UNone) its = Some ((CText "" None, up), l) → template_tokens its = Some (group (realize shown <$> l)).
Proof. intros H. unfold template_tokens. by rewrite (seen_cells _ _ _ _ H). Qed.
End cells.

(** A value is not shown as nothing. *)
Lemma shown_cons e b v : shown e (b :: v) ≠ [].
Proof.
  assert (∀ b v, clean (b :: v) ≠ []) as Hc by (intros [] ?; done).
  assert (∀ n b v, ∃ b' v', processURL n (b :: v) = b' :: v') as Hp by (intros n b' v'; cbn; repeat case_match; eauto).
  destruct e; cbn [shown url_part]; try apply Hc; try done.
  - destruct (urlFilter (b :: v)) as [|b' v'] eqn:E; [unfold urlFilter in E; by case_match|].
    destruct (Hp true b' v') as (?&?&->). apply Hc.
  - destruct (Hp true b v) as (?&?&->). apply Hc.
  - destruct (Hp false b v) as (?&?&->). apply Hc.
Qed.

Section form.
Context {As : Assets} {R : HtmlRefs}.

Definition editor_view (o : Object) (data : bytes) (n : Z) (saved : bool) : TextEditorView :=
  MkTextEditorView o data n saved false false.

Lemma text_form o data n saved its :
  exec funcs (escaped_template "texteditor") (text_value (editor_view o data n saved)) (text_value (editor_view o data n saved)) = Some its →
  ∀ ts, template_tokens its = Some ts →
  fields ts = [("base", clean (str_bytes (pretty n))); ("content", textarea_value (clean data))].
Proof.
  unfold editor_view. intros Hex ts Hts.
  destruct saved; revert Hex; cbv -[pretty str_bytes bytes_str lookup_msg BackURL o_Name o_ID clean fields textarea_value]; intros [= <-];
    revert Hts; rewrite str_bytes_str;
    repeat match goal with |- context [str_bytes (lookup_msg ?c ?k)] => 
      let v := eval vm_compute in (str_bytes (lookup_msg c k)) in change (str_bytes (lookup_msg c k)) with v end;
    repeat match goal with |- context [str_bytes (?f ?x)] => generalize (str_bytes (f x)); intro end;
    match goal with |- template_tokens ?its = _ → _ = [("base", clean ?vb); ("content", textarea_value (clean ?vc))] =>
      let r := eval vm_compute in (cells (CText "" None, UNone) its) in
      match r with Some (?c', ?up, ?l) =>
        rewrite (tokens_cells its up l) by (vm_compute; reflexivity); intros [= <-];
        assert (∀ f, (∀ e b v, f e (b :: v) ≠ []) → fields (group (realize f <$> l)) = [("base", f EAttr vb); ("content", textarea_value (f ERcdata vc))]) as Hf;
        [|exact (Hf shown shown_cons)]
      end
    end; clear; intros f Hne; cbv [realize fmap list_fmap slot];
    repeat match goal with |- context [f ?e (?b :: ?v)] =>
      let E := fresh in destruct (f e (b :: v)) eqn:E; [by destruct (Hne _ _ _ E)|clear E] end;
    repeat match goal with |- context [f ?e ?v] => generalize (f e v); intro end; clear;
    repeat match goal with |- context [EvText _ ?x] => is_var x; destruct x as [|? x] end;
    vm_compute; reflexivity.
Qed.
End form.

(** ** The round trip *)
Definition urlencoded : string := "application/x-www-form-urlencoded".

(** The request a browser makes of a page's form. *)
Definition submits (ts : list token) (r : Request) : Prop :=
  header_get r "Content-Type" = urlencoded ∧ rq_body r = NewReader (str_bytes (form_body (fields ts))).

(** The media type that mime.ParseMediaType makes of a browser's form. *)
Class FormFormatsOk `{FormFormats} : Prop := urlencoded_type : ParseMediaType urlencoded = (urlencoded, true).

Lemma lf_to_crlf_none l : x0a ∉ l → lf_to_crlf l = l.
Proof.
  induction l as [|b l IH]; intros H; [done|]. apply not_elem_of_cons in H as [Hb Hl].
  change (lf_to_crlf (b :: l)) with ((if bool_decide (b = x0a) then [x0d; x0a] else [b]) ++ lf_to_crlf l).
  rewrite bool_decide_false by done. by rewrite IH.
Qed.

(** The version number passes unchanged. *)
Lemma number_shown n : (0 <= n)%Z → lf_to_crlf (clean (str_bytes (pretty n))) = str_bytes (pretty n).
Proof.
  intros Hn. assert (pretty n = pretty (Z.to_N n)) as -> by (by destruct n; try lia).
  assert (∀ c, string_forallb (λ d, bool_decide (d ≠ c)) "0123456789" = true → Ascii.byte_of_ascii c ∉ str_bytes (pretty (Z.to_N n))) as H.
  { intros c Hc Hin%contains_byte_bytes. by rewrite (pretty_bytes c) in Hin. }
  rewrite clean_id by exact (H (Ascii.ascii_of_byte x00) eq_refl). apply lf_to_crlf_none. exact (H (Ascii.ascii_of_byte x0a) eq_refl).
Qed.

Section roundtrip.
Context {Pr : Primitives} {PrOk : PrimitivesOk} {P : Platform} {F : OpenFGA} {Mi : Mime} {FF : FormFormats} {FFok : FormFormatsOk} {E : OfficeEngine}.
Context {As : Assets} {Aok : AssetsOk} {R : HtmlRefs} {Rok : HtmlRefsOk}.
Context (a : webApp).
Abbreviation s := (wa_svc a).

Lemma submitted_form ts r :
  submits ts r → (blen (str_bytes (form_body (fields ts))) <= text_limit)%Z →
  (ParseForm r (MaxBytesReader text_limit (rq_body r))).1 = (λ f, (f.1, bytes_str (lf_to_crlf f.2))) <$> fields ts.
Proof.
  intros [Hct Hb] Hlen. unfold ParseForm, parsePostForm, content_type. rewrite Hct. cbn [bool_decide].
  rewrite bool_decide_false by done. rewrite urlencoded_type. rewrite bool_decide_true by done.
  rewrite Hb, MaxBytesReader_small by (rewrite ?events_NewReader; auto using good_NewReader).
  rewrite ReadAll_good, events_NewReader, bytes_str_bytes by apply good_NewReader.
  unfold form_body. by rewrite (ParseQuery_with form_byte).
Qed.

(** Where the version numbers and sizes of a reachable world are. *)
Lemma reached_fits w oid o n :
  run s (boot kdb_empty) w → objects (w_db w) !! oid = Some o → TextEditable o = true → max_ordinal oid (w_db w) = Some n →
  object_fits o ∧ (0 <= n < 2 ^ 31)%Z.
Proof.
  intros Hr Ho Ht Hn. destruct (run_typed s _ _ Hr boot_typed) as [[H1 _ H3] _]. split.
  - destruct (H1 _ _ Ho) as (_&Hs&_). unfold TextEditable, text_editable in Ht. unfold object_fits, int64.
    destruct (Z.ltb_spec MaxTextEditBytes (o_Size o)); [done|]. unfold MaxTextEditBytes in *. lia.
  - apply max_ordinal_newest in Hn as (v&[Hv _]&<-). apply elem_of_versions_of in Hv as [k Hk].
    destruct (H3 _ _ Hk) as [[Hv _] _]. unfold int4_max in Hv. cbn in Hv. lia.
Qed.

(** What a browser has in the textarea of a page made for a text: without the line break
    a text starts with, and with a replacement character for a null byte. *)
Definition in_textarea (data : bytes) : bytes := textarea_value (clean data).

Lemma in_textarea_id data : x00 ∉ data → head data ≠ Some x0a → in_textarea data = data.
Proof.
  intros Hnul Hlf. unfold in_textarea. rewrite (clean_id data Hnul). by destruct data as [|[] data].
Qed.

Lemma in_textarea_cr data : x0d ∉ data → x0d ∉ in_textarea data.
Proof.
  intros H. assert (x0d ∉ clean data) as Hc.
  { induction data as [|b data IH]; [by apply not_elem_of_nil|]. apply not_elem_of_cons in H as [Hb Hl].
    change (clean (b :: data)) with (clean_byte b ++ clean data). apply not_elem_of_app. split; [|by apply IH].
    destruct b; cbn; rewrite ?not_elem_of_cons; split_and!; try done; by apply not_elem_of_nil. }
  unfold in_textarea, textarea_value. destruct (clean data) as [|[] l]; try done.
  by apply not_elem_of_cons in Hc as [_ ?].
Qed.

(** C12: what the editor shows is what it saves.  In every reachable world, when nothing
    fails and the file is a text (valid UTF-8, no carriage return) the caller may edit, the
    editor's page renders; the form that a browser reads in it and sends back without a
    change, when it is within the size limit of the save, carries the number of the newest
    version and the text that was in the textarea, and the save writes exactly that text
    as the next version, or changes nothing.  What is in the textarea is the stored text,
    byte by byte, unless that starts with a line break (which a browser drops) or has null
    bytes (which the template replaces). *)
Theorem text_editor_roundtrip w r c o data n :
  run s (boot kdb_empty) w → w_faults w = [] → fga_check (w_fga w) (tuple c AccessRelation (obj (rq_id r))) = true →
  objects (w_db w) !! rq_id r = Some o → TextEditable o = true → stored_as s w (rq_id r) data → Forms.Valid data = true →
  max_ordinal (rq_id r) (w_db w) = Some n → x0d ∉ data → no_collision (s_cipher s) (w_blobs w) (in_textarea data) →
  ∃ v out ts, textEditor a r c w = (Ok (html (PTextEditor v)), w) ∧ page_text (PTextEditor v) = Some out ∧ tokens out = Some ts ∧
    (x00 ∉ data → head data ≠ Some x0a → in_textarea data = data) ∧
    ∀ r2, submits ts r2 → rq_id r2 = rq_id r → (blen (str_bytes (form_body (fields ts))) <= text_limit)%Z →
      sent_base r2 = Some n ∧ sent_text r2 = in_textarea data ∧
      ∃ resp w', textSave a r2 c w = (Ok resp, w') ∧ save_outcome a (rq_id r) (Some n) (in_textarea data) w w' resp.
Proof.
  intros Hr Hf Ha Ho Ht Hst Hv Hn Hcr Hc. pose proof (run_inv s _ _ Hr (boot_inv s)) as HI.
  destruct (reached_fits _ _ _ _ Hr Ho Ht Hn) as [Hsz Hn31].
  set (saved := bool_decide (query_get r "saved" = "1")).
  destruct (kamara_pages_written (PTextEditor (editor_view o data n saved))) as (name&d&its&out&[= <- <-]&Hex&Hout&Hw).
  { split; [done|]. unfold int64, editor_view. cbn. lia. }
  destruct (wr_tokens _ _ Hw) as (ts&Hts&Htt). exists (editor_view o data n saved), out, ts.
  split_and!; [by apply textEditor_shows|done|done|apply in_textarea_id|]. intros r2 Hsub Hid Hlen.
  pose proof (text_form o data n saved its Hex ts Htt) as Hfs. fold (in_textarea data) in Hfs.
  assert (sent_base r2 = Some n) as Hb.
  { unfold sent_base, sent. rewrite (submitted_form ts r2 Hsub Hlen), Hfs. unfold form_value.
    change (first_value "base" _) with (Some (bytes_str (lf_to_crlf (clean (str_bytes (pretty n)))))).
    rewrite number_shown, bytes_str_bytes by lia. apply Atoi_pretty. lia. }
  assert (sent_text r2 = in_textarea data) as Hx.
  { unfold sent_text, sent. rewrite (submitted_form ts r2 Hsub Hlen), Hfs. unfold form_value.
    change (first_value "content" _) with (Some (bytes_str (lf_to_crlf (in_textarea data)))). cbv iota. rewrite str_bytes_str.
    by apply crlf_lf, in_textarea_cr. }
  split_and!; [done|done|].
  destruct (textSave_outcome a w r2 c Hr) as (resp&w'&Eq&Ho'); [by rewrite Hx|]. rewrite Hid, Hb, Hx in Ho'. eauto.
Qed.
End roundtrip.

(** ** Texts the editor does not give back *)
Lemma form_lines k :
  length (str_bytes (escape_with form_byte (bytes_str (lf_to_crlf (replicate k x0a))))) = 6 * k.
Proof.
  unfold escape_with. rewrite !str_bytes_str. induction k as [|k IH]; [done|].
  change (lf_to_crlf (replicate (S k) x0a)) with (x0d :: x0a :: lf_to_crlf (replicate k x0a)).
  cbn [fmap list_fmap concat]. rewrite !length_app, IH.
  change (length (form_byte x0d)) with 3. change (length (form_byte x0a)) with 3. lia.
Qed.

(** The form of a text of [k] lines, each of them empty but the first. *)
Lemma lines_form_length base k :
  (6 * Z.of_nat k < blen (str_bytes (form_body [("base", base); ("content", x61 :: replicate k x0a)])))%Z.
Proof.
  unfold form_body, encode_with, blen. cbn [fmap list_fmap join]. unfold pair_with. cbn [fst snd].
  change (lf_to_crlf (x61 :: replicate k x0a)) with ([x61] ++ lf_to_crlf (replicate k x0a)).
  assert (escape_with form_byte (bytes_str ([x61] ++ lf_to_crlf (replicate k x0a))) =
    "a" +:+ escape_with form_byte (bytes_str (lf_to_crlf (replicate k x0a)))) as ->
    by (unfold escape_with; by rewrite !str_bytes_str).
  rewrite !str_bytes_app, !length_app, form_lines. change (length (str_bytes "a")) with 1. lia.
Qed.

Lemma ReadAll_fails g e rest : good g → ReadAll (g ++ RErr e :: rest) = Err e.
Proof. induction 1 as [|x g (b&bs&->) _ IH]; [done|]. cbn. by rewrite IH. Qed.

(** A line break takes six bytes of the form, so a text of line breaks that may be edited
    is too large to be saved again. *)
Lemma many_lines_refused `{FormFormatsOk} {Pr : Primitives} {P : Platform} {F : OpenFGA} {Mi : Mime} (a : webApp) r c (w w1 : KW) o base k :
  Get_ c (rq_id r) w = (Ok o, w1) → TextEditable o = true → header_get r "Content-Type" = urlencoded →
  rq_body r = NewReader (str_bytes (form_body [("base", base); ("content", x61 :: replicate k x0a)])) →
  (text_limit <= 6 * Z.of_nat k)%Z →
  textSave a r c w = (Ok (http_error 413 "content exceeds maximum size"), w1).
Proof.
  intros Hg Ht Hct Hb Hk. unfold textSave, or_fail. rewrite run_bind. unfold attempt. rewrite Hg, Ht. cbn [negb].
  pose proof (lines_form_length base k) as Hlen.
  destruct (MaxBytesReader_large text_limit (rq_body r)) as (g&Hgood&Hmax).
  { rewrite Hb. apply good_NewReader. }
  { rewrite Hb, events_NewReader. split; [vm_compute; discriminate|]. eapply Z.le_lt_trans; [exact Hk|exact Hlen]. }
  unfold ParseForm, parsePostForm, content_type. rewrite Hct, bool_decide_false by done. rewrite urlencoded_type, bool_decide_true by done.
  rewrite Hmax, (ReadAll_fails g ErrMaxBytes [RErr ErrMaxBytes] Hgood). reflexivity.
Qed.

Example editable_but_not_savable :
  let k := (2 ^ 20 - 1)%Z in (1 + k <= MaxTextEditBytes)%Z ∧ (text_limit <= 6 * k)%Z.
Proof. vm_compute. split; discriminate. Qed.

Module FormDemo.
#[local] Existing Instance toy_primitives.
#[local] Existing Instance toy_primitives_ok.
#[local] Existing Instance counting_platform.
#[local] Existing Instance owner_fga.
#[local] Existing Instance no_mime.
Import EditDemo HtmlDemo StyleDemo.

#[export] Instance forms_ok : FormFormatsOk.
Proof. reflexivity. Qed.

(** The line break at the start of a text is lost and a null byte is replaced; markup in
    a text is only text. *)
Definition sent_back (data : bytes) : option (list (string * bytes)) :=
  fields <$> (page_text (PTextEditor (editor_view Demo.file data 3 false)) ≫= tokens).
Example first_line_break_lost :
  sent_back [x0a; x61] = Some [("base", [x33]); ("content", [x61])] ∧
  sent_back [x61; x00] = Some [("base", [x33]); ("content", [x61; xef; xbf; xbd])] ∧
  sent_back (str_bytes (source "a<b>&`'+</textarea>")) = Some [("base", [x33]); ("content", str_bytes (source "a<b>&`'+</textarea>"))].
Proof. vm_compute. repeat split. Qed.

Definition req : Request := MkRequest oid ∅ ∅ ∅ [] None.
Definition data : bytes := [x61; x62].

Lemma uploaded_stored : stored_as demo_service Demo.uploaded oid data.
Proof.
  destruct (Upload_stored demo_service demo_user None "a.txt" demo_body Demo.start Demo.file Demo.after_upload) as (_&H&_).
  - apply (boot_inv demo_service).
  - repeat constructor; do 2 eexists; reflexivity.
  - apply (Demo.start_no_collision _ [x61; x62]). vm_compute. reflexivity.
  - apply Demo.upload_ok.
  - assert (Demo.uploaded = Demo.after_upload) as ->; [|exact H]. unfold Demo.uploaded, Demo.upload_op, run_op.
    rewrite run_bind. fold Demo.upload. by rewrite Demo.upload_ok.
Defined.

Lemma uploaded_no_collision : no_collision (s_cipher demo_service) (w_blobs Demo.uploaded) data.
Proof.
  assert (chunks kamara_params data = [data]) as Ec by (vm_compute; reflexivity).
  split; rewrite Ec; [|intros x y ->%list_elem_of_singleton ->%list_elem_of_singleton _; done].
  intros x pt ->%list_elem_of_singleton (b&Hb&Ho).
  assert (Some (Ok data) = (Open (s_cipher demo_service) (ChunkHash data) <$> (w_blobs Demo.uploaded !! ChunkHash data))) as E
    by (vm_compute; reflexivity).
  rewrite Hb in E. change (Some (Ok data) = Some (Open (s_cipher demo_service) (ChunkHash data) b)) in E.
  rewrite Ho in E. by injection E as ->.
Defined.

Lemma text_editor_roundtrip_witness :
  ∃ v out ts, textEditor app req demo_user Demo.uploaded = (Ok (html (PTextEditor v)), Demo.uploaded) ∧
    page_text (PTextEditor v) = Some out ∧ tokens out = Some ts ∧
    ∃ resp w', textSave app (form (form_body (fields ts))) demo_user Demo.uploaded = (Ok resp, w') ∧
      save_outcome app oid (Some 0%Z) data Demo.uploaded w' resp.
Proof.
  destruct (text_editor_roundtrip app Demo.uploaded req demo_user Demo.file data 0%Z) as (v&out&ts&H1&H2&H3&_&H4).
  1: exact Demo.uploaded_run.
  5: exact uploaded_stored.
  7: { apply (bool_decide_unpack _). vm_compute. exact I. }
  7: exact uploaded_no_collision.
  1-6: vm_compute; reflexivity.
  exists v, out, ts. repeat (split; [assumption|]).
  destruct (H4 (form (form_body (fields ts)))) as (_&_&H); [|reflexivity| |exact H].
  - split; reflexivity.
  -
    vm_compute in H1. injection H1 as <-. vm_compute in H2. injection H2 as <-. vm_compute in H3. injection H3 as <-. vm_compute. discriminate.
Defined.
End FormDemo.
