(* ===== verification/ErgoWeb.v ===== *)
(** * ErgoWeb: the Ergonomos process
    (ergonomos/cmd/ergonomos/web.go and main.go, ergonomos/internal/kamara/client.go)

    The wiring of [main], the browser front over the task service, and the client that
    uploads to Kamara on behalf of the logged-in user.  The state of a request is the
    world of the task service, the relying party's memory, and whatever stands behind
    Kamara's URL: a parameter here, the Kamara process in Attach.v.  A page is the data
    its template is given; log lines are not modelled. *)

From S2P Require Import Prelude GoText Ids World Pii Pseudonym Conventions Authz Chunker Url SessionStore Http Forms Json Base64 Oidcrp Svcauth Startup Task.
Import Pii Chunker.

(** ** The client of Kamara *)

(** A call to the server behind a URL: method, URL, headers and body; the answer is its
    status and body ([None] when it is not JSON), or a failure to get one. *)
Class RemoteServer (X : Type) := { remote_http : string → string → list (string * string) → list rd_event → M X (Z * option json) }.

Inductive ergo_body :=
  | EbEmpty
  | EbText (msg : string)
  | EbError (e : error)
  | EbPage (l : list Task)
  | EbList (l : list Task)
  | EbJson (j : json).

Record ErgoResponse := MkErgo { er_status : Z; er_header : list (string * string); er_body : ergo_body }.

Definition maxAttachBytes : Z := 100 * 2 ^ 20.

(** The zero time.Time, in nanoseconds of the Unix epoch. *)
Definition zero_time : Z := -62135596800 * 1000000000.

Definition statusFor (e : error) : Z := if errors_is e ErrNotFound then 404 else 403.

Definition plain_error (status : Z) (b : ergo_body) : ErgoResponse :=
  MkErgo status [("Content-Type", "text/plain; charset=utf-8"); ("X-Content-Type-Options", "nosniff")] b.
Definition no_session : ErgoResponse := plain_error 401 (EbText "no session").

Section ergo.
Context {AK : AppKeys} {JP : JsonParser} {JR : JsonPrinter} {TP : TokenProvider}.
Context {P : Platform} {F : OpenFGA} {FF : FormFormats} {I : IdP} {X : Type} {RS : RemoteServer X}.

Record Client := MkClient { cl_baseURL : string; cl_ex : Exchanger }.
Definition New (baseURL : string) (ex : Exchanger) : Client := MkClient (TrimRight_slash baseURL) ex.

Definition Upload (now : Z) (c : Client) (userAccessToken name : string) (content : list rd_event) : M X string :=
  tok ← lift (OnBehalfOf now (cl_ex c) userAccessToken);
  let u := cl_baseURL c +:+ "/v1/files?name=" +:+ QueryEscape name in
  resp ← wrap_err "kamara upload"
    (remote_http "POST" u [("Authorization", "Bearer " +:+ tok); ("Content-Type", "application/octet-stream")] content);
  if negb (resp.1 =? 201)%Z then throw (ErrText ("kamara upload: " +:+ pretty resp.1))
  else
    match resp.2 with
    | None => throw (ErrWrap "kamara upload response" errDecode)
    | Some j => wrap_err "kamara upload response" (lift (dec_string "id" j))
    end.

(** ** The process *)
Record ErgoApp := MkErgoApp {
  ea_issuer : string;
  ea_instance : string;
  ea_rp : Oidcrp.Config;
  ea_publicURL : string;
  ea_scopes : list string;
  ea_kamara : option Client;
  ea_addr : string;
}.

(** main, up to the server: an error ends the process. *)
Definition ergonomos_wiring (e : Env) (read : string → res bytes) : res ErgoApp :=
  _ ← mustEnv e "DATABASE_DSN";
  _ ← mustEnv e "OPENFGA_API_URL";
  issuer ← mustEnv e "OIDC_ISSUER";
  let publicURL := TrimSuffix (env e "PUBLIC_URL" "http://localhost:5570") "/" in
  let projectID := Getenv e "OIDC_PROJECT_ID" in
  let scopes := ["openid"; "profile"; "email"] ++
    (if bool_decide (projectID = "") then [] else [ProjectAudienceScope projectID]) in
  _ ← mustEnv e "OIDC_CLIENT_ID";
  let rp := (Oidcrp.New (MkConfig issuer "" "" "ergonomos_session" (has_prefix publicURL "https://") 0)).1 in
  let keyPath := Getenv e "SVCAUTH_KEY_FILE" in
  kam ← (if negb (bool_decide (keyPath = "")) && negb (bool_decide (projectID = "")) then
           keyJSON ← read keyPath;
           ex ← NewExchanger issuer projectID keyJSON;
           url ← mustEnv e "KAMARA_URL";
           Ok (Some (New url ex))
         else Ok None);
  Ok (MkErgoApp issuer (issuer_host issuer) rp publicURL scopes kam (env e "LISTEN_ADDR" ":5570")).

(** What a request reads and writes. *)
Record EW := MkEW { ew_tasks : TW; ew_kamara : X; ew_rp : Oidcrp.State }.

Definition on_tasks {A} (m : M TW A) : M EW A := λ w,
  let '(r, t) := m (ew_tasks w) in (r, MkEW t (ew_kamara w) (ew_rp w)).
Definition on_kamara {A} (m : M X A) : M EW A := λ w,
  let '(r, x) := m (ew_kamara w) in (r, MkEW (ew_tasks w) x (ew_rp w)).

Context (a : ErgoApp).

(** rp.Session *)
Definition session_of (r : Request) : M EW (option BrowserSession) := λ w,
  let '(s, st) := Session_ (ea_rp a) (w_now (ew_tasks w)) r (ew_rp w) in
  (Ok s, MkEW (ew_tasks w) (ew_kamara w) st).

Definition user_of (sess : BrowserSession) : Subject := MkSubject (ea_instance a) (c_Subject (bs_Claims sess)).

Definition caller (r : Request) : M EW (option Subject) := s ← session_of r; mret (user_of <$> s).

(** ** The handlers *)
Definition ergo_handler : Type := Request → M EW ErgoResponse.

(** The caller, or 401. *)
Definition with_caller (r : Request) (k : Subject → M EW ErgoResponse) : M EW ErgoResponse :=
  c ← caller r; match c with None => mret no_session | Some c => k c end.

(** An error of the service is answered with the status [code] gives it. *)
Definition or_status {A} (code : error → Z) (m : M TW A) (k : A → M EW ErgoResponse) : M EW ErgoResponse :=
  x ← attempt (on_tasks m);
  match x with Err e => mret (plain_error (code e) (EbError e)) | Ok v => k v end.

Definition render (whole : bool) : ergo_handler := λ r,
  with_caller r (λ c,
    or_status (λ _, 500%Z) (Tasks.List_ c) (λ tasks,
      mret (MkErgo 200 [] (if whole then EbPage tasks else EbList tasks)))).

Definition index : ergo_handler := render true.

Definition create : ergo_handler := λ r,
  with_caller r (λ c, or_status (λ _, 400%Z) (Tasks.Create c (FormValue r "title")) (λ _, render false r)).

Definition setDone : ergo_handler := λ r,
  with_caller r (λ c,
    or_status statusFor (Tasks.SetDone c (rq_id r) (bool_decide (FormValue r "done" = "true"))) (λ _, render false r)).

Definition delete : ergo_handler := λ r,
  with_caller r (λ c, or_status (λ _, 403%Z) (Tasks.Delete c (rq_id r)) (λ _, render false r)).

(** The session's token is there and not past its expiry, when it has one. *)
Definition token_usable (now : Z) (sess : BrowserSession) : bool :=
  negb (bool_decide (bs_AccessToken sess = "")) &&
  ((bs_AccessTokenExpiry sess =? zero_time)%Z || (now <=? bs_AccessTokenExpiry sess)%Z).

Definition attach_name (r : Request) : string :=
  let name := query_get r "name" in if bool_decide (name = "") then "attachment" else name.

Definition attach : ergo_handler := λ r,
  match ea_kamara a with
  | None => mret (plain_error 501 (EbText "attach not configured"))
  | Some c =>
      s ← session_of r;
      match s with
      | None => mret no_session
      | Some sess =>
          now ← gets (λ w, w_now (ew_tasks w));
          if negb (token_usable now sess) then mret (plain_error 401 (EbText "re-authentication required"))
          else
            let body := MaxBytesReader maxAttachBytes (rq_body r) in
            x ← attempt (on_kamara (Upload now c (bs_AccessToken sess) (attach_name r) body));
            match x with
            | Err _ => mret (plain_error 502 (EbText "attach failed"))
            | Ok id => mret (MkErgo 201 [("Content-Type", "application/json")] (EbJson (JObj [("fileId", JStr id)])))
            end
      end
  end.

Definition ergo_routes : list (string * list segment * ergo_handler) :=
  [("GET", [Lit ""], index);
   ("POST", [Lit "tasks"], create);
   ("POST", [Lit "tasks"; Wild; Lit "done"], setDone);
   ("POST", [Lit "tasks"; Wild; Lit "delete"], delete);
   ("POST", [Lit "attach"], attach)].

Definition no_ergo_route (st : Z) : ErgoResponse := MkErgo st [] EbEmpty.

(** The session middleware, the cross-site guard, the routes. *)
Definition ergo_front (method : string) (path : list string) (r : Request) : M EW ErgoResponse :=
  s ← session_of r;
  match s with
  | None => mret (MkErgo 302 [("Location", "/auth/login")] EbEmpty)
  | Some _ =>
      match SameOriginGuard (ea_publicURL a) method r with
      | Some code => mret (plain_error code (EbText "cross-origin request rejected"))
      | None => serve_mux no_ergo_route false ergo_routes method path r
      end
  end.

(** ** The mux of main *)
Inductive ergo_answer := ErLogin (r : Reply) | ErPage (r : ErgoResponse).

Definition login_event (e : event) : M EW ergo_answer := λ w,
  let '(rep, st) := handle (ea_rp a) (w_now (ew_tasks w)) e (ew_rp w) in
  (Ok (ErLogin rep), MkEW (ew_tasks w) (ew_kamara w) st).

Inductive ergo_route := EgHealth | EgLogin | EgCallback | EgLogout | EgPage.
Definition ergo_route_of (method : string) (path : list string) : ergo_route :=
  if match_method "GET" method then
    match path with
    | ["healthz"] => EgHealth
    | ["auth"; "login"] => EgLogin
    | ["auth"; "callback"] => EgCallback
    | ["auth"; "logout"] => EgLogout
    | _ => EgPage
    end
  else EgPage.

Definition serve_ergo (method : string) (path : list string) (r : Request) : M EW ergo_answer :=
  match ergo_route_of method path with
  | EgHealth => mret (ErPage (MkErgo 200 [] (EbText "ok")))
  | EgLogin => rnd ← on_tasks (draw 16); vrnd ← on_tasks (draw 32); login_event (ELogin rnd vrnd)
  | EgCallback => srnd ← on_tasks (draw 32); login_event (ECallback srnd r)
  | EgLogout => login_event (ELogout r)
  | EgPage => resp ← ergo_front method path r; mret (ErPage resp)
  end.
End ergo.

(** ** The clock stands still during a request *)
Section clock.
Context {D : Type} {P : Platform} (n : Z).
Definition at_time (w : world D) : Prop := w_now w = n.

Lemma keeps_time_call {A} (m : M (world D) A) : keeps at_time m → keeps at_time (call m).
Proof.
  intros Hm. apply keeps_bind.
  - intros w Hw. destruct (next_fault_stores w) as (f&w'&E&_&_&Hn&_). rewrite E. unfold at_time in *. cbn. congruence.
  - intros []; [done|apply keeps_throw|]. apply keeps_bind; [by apply keeps_ignore|intros; apply keeps_throw].
Qed.

Lemma keeps_time_stmt {A} (f : D → res (A * D)) : keeps at_time (stmt f).
Proof. apply keeps_time_call. intros w Hw. by destruct (f (w_db w)) as [[a d]|e]. Qed.

Lemma keeps_time_query {A} (f : D → A) : keeps at_time (query f).
Proof. apply keeps_time_stmt. Qed.

Lemma keeps_time_draw k : keeps at_time (draw k).
Proof. by intros w Hw. Qed.

Lemma keeps_time_new_id : keeps at_time new_id.
Proof.
  apply keeps_bind; [apply keeps_gets|intros t].
  apply keeps_bind; [apply keeps_time_draw|intros; apply keeps_ret].
Qed.

Lemma keeps_time_InTx {A} (fn : M (world D) A) : keeps at_time fn → keeps at_time (InTx fn).
Proof.
  intros Hf. unfold InTx. apply keeps_bind; [apply keeps_time_call, keeps_ret|intros _].
  apply keeps_bind; [apply keeps_gets|intros snap]. apply keeps_bind; [by apply keeps_attempt|].
  assert (keeps at_time (modify (set_db snap))) as Hm by (by intros w Hw).
  intros [a|e]; [|apply keeps_bind; [done|intros; apply keeps_throw]].
  apply keeps_bind.
  - intros w Hw. destruct (next_fault_stores w) as (f&w'&E&_&_&Hn&_). rewrite E. unfold at_time in *. cbn. congruence.
  - intros []; [apply keeps_ret| |apply keeps_throw]. apply keeps_bind; [done|intros; apply keeps_throw].
Qed.

Lemma keeps_time_fga {F : OpenFGA} f : keeps at_time (fga_update f).
Proof. apply keeps_time_call. intros w Hw. by destruct (f (w_fga w)). Qed.

Lemma keeps_time_Check {F : OpenFGA} u r o : keeps at_time (Check u r o).
Proof. apply keeps_time_call, keeps_gets. Qed.

Lemma keeps_time_ListObjects {F : OpenFGA} u r o : keeps at_time (ListObjects u r o).
Proof. apply keeps_bind; [apply keeps_time_call, keeps_gets|intros; apply keeps_ret]. Qed.
End clock.

#[export] Hint Resolve keeps_time_stmt keeps_time_query keeps_time_draw keeps_time_new_id keeps_time_InTx
  keeps_time_fga keeps_time_Check keeps_time_ListObjects : go.

Section effects.
Context {P : Platform} {F : OpenFGA}.
Import Tasks.

Lemma keeps_time_Emit n actor action ao : keeps (at_time n) (Emit (HC := TDB_conv) actor action ao).
Proof.
  assert (keeps (at_time n) (Lookup_ps (D := TDB) actor)) by apply keeps_time_query.
  assert (∀ t, keeps (at_time n) (Save_ps (D := TDB) t actor)) by (intros t; cbn; unfold pg_Save, conv_stmt; keeps_tac).
  unfold Emit, TokenFor, newToken, Append, conv_stmt, now. keeps_tac.
Qed.
#[local] Hint Resolve keeps_time_Emit : go.

Lemma keeps_time_top n o : keeps (at_time n) (run_top o).
Proof.
  destruct o; cbn [run_top]; unfold Create, SetDone, Delete, authorize, create_tx, set_done_tx, delete_tx, Insert,
    SetDone_row, Delete_row, Feed, Upsert, Remove, SearchDelete, conv_stmt, Write, Authz.Delete, now; keeps_tac;
    apply keeps_time_InTx; keeps_tac.
Qed.

(** Reading the tasks. *)
Definition same_tasks (w w' : TW) : Prop := w_db w' = w_db w ∧ w_rest w' = w_rest w ∧ w_now w' = w_now w.

Lemma List_reads c (w : TW) : same_tasks w (List_ c w).2.
Proof.
  assert (keeps (λ w', w_db w' = w_db w ∧ w_rest w' = w_rest w) (List_ c)) as H.
  { assert (stores_only (λ w' : TW, w_db w' = w_db w ∧ w_rest w' = w_rest w)) by (intros ? ? ? ? [? ?]; split; congruence).
    unfold List_, ByIDs. keeps_tac. }
  assert (keeps (at_time (w_now w)) (List_ c)) as Ht by (unfold List_, ByIDs; keeps_tac).
  destruct (H w (conj eq_refl eq_refl)) as [H1 H2]. split_and!; [done|done|by apply Ht].
Qed.

(** The user an operation is called for. *)
Definition top_caller (o : top) : Subject :=
  match o with TCreate c _ | TSetDone c _ _ | TDelete c _ => c end.
End effects.

(** ** What a request does *)
Section front.
Context {AK : AppKeys} {JP : JsonParser} {JR : JsonPrinter} {TP : TokenProvider}.
Context {P : Platform} {F : OpenFGA} {FF : FormFormats} {I : IdP} {X : Type} {RS : RemoteServer X}.
Context (a : ErgoApp).
Implicit Types (w : EW (X := X)) (r : Request) (x : BrowserSession).
Import Tasks.

(** The session the request carries. *)
Definition live r w : option BrowserSession := (Session_ (ea_rp a) (w_now (ew_tasks w)) r (ew_rp w)).1.

Lemma session_of_live r w x : live r w = Some x → session_of a r w = (Ok (Some x), w).
Proof.
  unfold live, session_of. destruct (Session_ (ea_rp a) (w_now (ew_tasks w)) r (ew_rp w)) as [o st] eqn:E.
  cbn. intros ->. rewrite (Session_stable _ _ _ _ _ _ E). by destruct w.
Qed.

Lemma live_same r w w' : ew_rp w' = ew_rp w → w_now (ew_tasks w') = w_now (ew_tasks w) → live r w' = live r w.
Proof. unfold live. by intros -> ->. Qed.

Lemma live_set_id i r w : live (set_id i r) w = live r w.
Proof. reflexivity. Qed.

Lemma with_caller_live r w x k : live r w = Some x → with_caller a r k w = k (user_of a x) w.
Proof.
  intros H. unfold with_caller, caller. rewrite run_bind, run_bind, (session_of_live _ _ _ H). done.
Qed.

Lemma render_spec whole r w x :
  live r w = Some x →
  ∃ resp w', render a whole r w = (Ok resp, w') ∧ ew_kamara w' = ew_kamara w ∧ ew_rp w' = ew_rp w ∧
    same_tasks (ew_tasks w) (ew_tasks w').
Proof.
  intros H. unfold render. rewrite (with_caller_live _ _ _ _ H). unfold or_status. rewrite run_bind.
  unfold attempt, on_tasks. pose proof (List_reads (user_of a x) (ew_tasks w)) as HL.
  destruct (List_ (user_of a x) (ew_tasks w)) as [[l|e] t]; do 2 eexists; (split; [reflexivity|]); by split_and!.
Qed.

(** A request did one operation for the session's user; a success was reported only if
    it succeeded. *)
Definition acts_on_tasks x (resp : ErgoResponse) w w' : Prop :=
  ∃ o, top_caller o = user_of a x ∧ ew_kamara w' = ew_kamara w ∧ ew_rp w' = ew_rp w ∧
    same_tasks (run_top o (ew_tasks w)).2 (ew_tasks w') ∧ w_now (ew_tasks w') = w_now (ew_tasks w) ∧
    ((er_status resp < 400)%Z → is_ok (run_top o (ew_tasks w)).1 = true).

Lemma mutation_spec {A} r w x (code : error → Z) (m : M TW A) o :
  live r w = Some x → top_caller o = user_of a x → (∀ e, (400 <= code e)%Z) →
  (∀ t, (m t).2 = (run_top o t).2 ∧ is_ok (m t).1 = is_ok (run_top o t).1) →
  ∃ resp w', or_status code m (λ _, render a false r) w = (Ok resp, w') ∧ acts_on_tasks x resp w w'.
Proof.
  intros Hx Hc Hcode Hm. unfold or_status. rewrite run_bind. unfold attempt, on_tasks.
  destruct (Hm (ew_tasks w)) as [H1 H2]. pose proof (keeps_time_top (w_now (ew_tasks w)) o (ew_tasks w) eq_refl) as Ht.
  unfold acts_on_tasks. destruct (m (ew_tasks w)) as [v t]. cbn [fst snd] in *. rewrite <- H1 in Ht.
  destruct v as [v|e].
  - destruct (render_spec false r (MkEW t (ew_kamara w) (ew_rp w)) x) as (resp&w'&E&Hk&Hr&Hs).
    { by rewrite (live_same r w) by done. }
    exists resp, w'. split; [exact E|]. exists o. rewrite <- H1, <- H2. cbn in Hk, Hr, Hs.
    split_and!; try done. destruct Hs as (_&_&Hs). etrans; [exact Hs|exact Ht].
  - do 2 eexists. split; [reflexivity|]. exists o. rewrite <- H1. split_and!; try done.
    cbn. intros H. specialize (Hcode e). lia.
Qed.

(** The request the client sends, on the way to Kamara. *)
Definition upload_url (c : Client) r : string := cl_baseURL c +:+ "/v1/files?name=" +:+ QueryEscape (attach_name r).
Definition upload_headers (tok : string) : list (string * string) :=
  [("Authorization", "Bearer " +:+ tok); ("Content-Type", "application/octet-stream")].

(** A request sent the body to Kamara, with a token exchanged for the session's own. *)
Definition attaches x r (resp : ErgoResponse) w w' : Prop :=
  ew_tasks w' = ew_tasks w ∧ ew_rp w' = ew_rp w ∧
  ∃ c tok answer, ea_kamara a = Some c ∧ token_usable (w_now (ew_tasks w)) x = true ∧
    OnBehalfOf (w_now (ew_tasks w)) (cl_ex c) (bs_AccessToken x) = Ok tok ∧
    remote_http "POST" (upload_url c r) (upload_headers tok) (MaxBytesReader maxAttachBytes (rq_body r)) (ew_kamara w) =
      (answer, ew_kamara w') ∧
    ((400 <= er_status resp)%Z ∨
     ∃ j id, answer = Ok (201%Z, Some j) ∧ dec_string "id" j = Ok id ∧
       resp = MkErgo 201 [("Content-Type", "application/json")] (EbJson (JObj [("fileId", JStr id)]))).

Lemma attach_spec r w x :
  live r w = Some x →
  ∃ resp w', attach a r w = (Ok resp, w') ∧ (w' = w ∧ (400 <= er_status resp)%Z ∨ attaches x r resp w w').
Proof.
  intros Hx. unfold attach. destruct (ea_kamara a) as [c|] eqn:Ec; [|do 2 eexists; split; [reflexivity|]; left; split; [done|cbn; lia]].
  rewrite run_bind, (session_of_live _ _ _ Hx), run_bind. cbn [gets].
  destruct (token_usable (w_now (ew_tasks w)) x) eqn:Eu; cbn [negb];
    [|do 2 eexists; split; [reflexivity|]; left; split; [done|cbn; lia]].
  rewrite run_bind. unfold attempt, on_kamara, Upload. rewrite run_bind. cbn [lift].
  destruct (OnBehalfOf _ (cl_ex c) (bs_AccessToken x)) as [tok|e] eqn:Eo.
  2: { do 2 eexists. split; [reflexivity|]. left. split; [by destruct w|cbn; lia]. }
  rewrite run_bind. unfold wrap_err at 1. fold (upload_url c r) (upload_headers tok).
  destruct (remote_http "POST" _ _ _ (ew_kamara w)) as [answer k] eqn:Er.
  assert (∀ resp, ((400 <= er_status resp)%Z ∨ ∃ j id, answer = Ok (201%Z, Some j) ∧ dec_string "id" j = Ok id ∧
    resp = MkErgo 201 [("Content-Type", "application/json")] (EbJson (JObj [("fileId", JStr id)]))) →
    attaches x r resp w (MkEW (ew_tasks w) k (ew_rp w))) as Hat.
  { intros resp H. split_and!; [done..|]. by exists c, tok, answer. }
  destruct answer as [[st body]|e]; cbn [fst snd].
  2: { do 2 eexists. split; [reflexivity|]. right. apply Hat. left. cbn. lia. }
  destruct (Z.eqb_spec st 201) as [->|]; cbn [negb].
  2: { do 2 eexists. split; [reflexivity|]. right. apply Hat. left. cbn. lia. }
  destruct body as [j|]; [|do 2 eexists; split; [reflexivity|]; right; apply Hat; left; cbn; lia].
  unfold wrap_err, lift. destruct (dec_string "id" j) as [id|e] eqn:Ej.
  - do 2 eexists. split; [reflexivity|]. right. apply Hat. right. by exists j, id.
  - do 2 eexists. split; [reflexivity|]. right. apply Hat. left. cbn. lia.
Qed.

(** Nothing but the relying party's memory. *)
Definition still w w' : Prop := ew_kamara w' = ew_kamara w ∧ same_tasks (ew_tasks w) (ew_tasks w').

Lemma still_refl w : still w w.
Proof. by repeat split. Qed.

(** A handler changes something only as a POST, for the session's user. *)
Lemma ergo_route_spec m pat h method r w x :
  (m, pat, h) ∈ ergo_routes a → match_method m method = true → live r w = Some x →
  ∃ resp w', h r w = (Ok resp, w') ∧ ew_rp w' = ew_rp w ∧
    (still w w' ∨ method = "POST" ∧ (acts_on_tasks x resp w w' ∨ attaches x r resp w w')).
Proof.
  intros Hin Hm Hx.
  assert (m = "POST" → method = "POST") as Hpost.
  { intros ->. unfold match_method in Hm. rewrite orb_true_iff, andb_true_iff, !bool_decide_eq_true in Hm. naive_solver. }
  assert (∀ k : M EW ErgoResponse, (∃ resp w', k w = (Ok resp, w') ∧ acts_on_tasks x resp w w') → m = "POST" →
    ∃ resp w', k w = (Ok resp, w') ∧ ew_rp w' = ew_rp w ∧
      (still w w' ∨ method = "POST" ∧ (acts_on_tasks x resp w w' ∨ attaches x r resp w w'))) as Hacts.
  { intros k (resp&w'&E&H) Hp. exists resp, w'. split; [done|]. split; [destruct H as (o&_&_&H&_); done|]. right. auto. }
  repeat (apply elem_of_cons in Hin as [[= -> -> ->]|Hin]); [..|by apply not_elem_of_nil in Hin].
  - destruct (render_spec true r w x Hx) as (resp&w'&E&Hk&Hr&Hs). exists resp, w'. split; [exact E|]. split; [done|]. by left.
  - apply Hacts; [|done]. unfold create. rewrite (with_caller_live _ _ _ _ Hx).
    apply (mutation_spec r w x (λ _, 400%Z) _ (TCreate (user_of a x) (FormValue r "title")) Hx eq_refl); [done|].
    intros t. cbn [run_top]. rewrite run_bind. by destruct (Create _ _ t) as [[]].
  - apply Hacts; [|done]. unfold setDone. rewrite (with_caller_live _ _ _ _ Hx).
    apply (mutation_spec r w x statusFor _ (TSetDone (user_of a x) (rq_id r) (bool_decide (FormValue r "done" = "true"))) Hx eq_refl).
    + intros e. unfold statusFor. destruct (errors_is e ErrNotFound); lia.
    + intros t. cbn [run_top]. rewrite run_bind. by destruct (SetDone _ _ _ t) as [[]].
  - apply Hacts; [|done]. unfold delete. rewrite (with_caller_live _ _ _ _ Hx).
    by apply (mutation_spec r w x (λ _, 403%Z) _ (TDelete (user_of a x) (rq_id r)) Hx eq_refl).
  - destruct (attach_spec r w x Hx) as (resp&w'&E&H). exists resp, w'. split; [exact E|]. destruct H as [[-> _]|H].
    + split; [done|]. left. apply still_refl.
    + split; [by destruct H as (_&?&_)|]. right. split; [by apply Hpost|by right].
Qed.

Lemma ergo_front_spec method path r w :
  ∃ resp w', ergo_front a method path r w = (Ok resp, w') ∧
    ew_rp w' = (Session_ (ea_rp a) (w_now (ew_tasks w)) r (ew_rp w)).2 ∧
    (still w w' ∨ ∃ x, live r w = Some x ∧ method = "POST" ∧ SameOriginGuard (ea_publicURL a) method r = None ∧
       (acts_on_tasks x resp w w' ∨ attaches x r resp w w')).
Proof.
  unfold ergo_front. rewrite run_bind. destruct (live r w) as [x|] eqn:Hx.
  - rewrite (session_of_live _ _ _ Hx).
    assert ((Session_ (ea_rp a) (w_now (ew_tasks w)) r (ew_rp w)).2 = ew_rp w) as ->.
    { unfold live in Hx. destruct (Session_ (ea_rp a) _ r (ew_rp w)) as [o st] eqn:E. cbn in Hx |- *. subst o.
      by apply Session_stable in E. }
    destruct (SameOriginGuard _ method r) as [code|] eqn:Eg; [do 2 eexists; split; [reflexivity|]; split; [done|]; left; apply still_refl|].
    destruct (serve_mux_cases no_ergo_route (ergo_routes a) false method path r w) as [(st&->&_)|(m&pat&h&i&Hin&_&Hm&->)].
    { do 2 eexists. split; [reflexivity|]. split; [done|]. left. apply still_refl. }
    destruct (ergo_route_spec m pat h method (set_id i r) w x Hin Hm Hx) as (resp&w'&E&Hr&He). exists resp, w'.
    split; [done|]. split; [done|]. destruct He as [He|[Hp He]]; [by left|right]. by exists x.
  - unfold live in Hx. unfold session_of. destruct (Session_ (ea_rp a) _ r (ew_rp w)) as [o st]. cbn in Hx. subst o.
    do 2 eexists. split; [reflexivity|]. split; [done|]. left. by repeat split.
Qed.

(** A request to attach that is answered with success has sent its body to Kamara. *)
Lemma serve_attach_spec r w resp w' :
  serve_ergo a "POST" ["attach"] r w = (Ok (ErPage resp), w') → (er_status resp < 300)%Z →
  ∃ x, live r w = Some x ∧ SameOriginGuard (ea_publicURL a) "POST" r = None ∧ attaches x r resp w w'.
Proof.
  change (serve_ergo a "POST" ["attach"] r) with (resp ← ergo_front a "POST" ["attach"] r; mret (ErPage resp)).
  rewrite run_bind. unfold ergo_front. rewrite run_bind. destruct (live r w) as [x|] eqn:Hx.
  2: { unfold live in Hx. unfold session_of. destruct (Session_ (ea_rp a) _ r (ew_rp w)) as [o st]. cbn in Hx. subst o.
       intros [= <- _]. cbn. lia. }
  rewrite (session_of_live _ _ _ Hx). destruct (SameOriginGuard _ "POST" r) as [code|] eqn:Eg.
  { unfold SameOriginGuard in Eg. intros [= <- _]. repeat case_match; simplify_eq; cbn; lia. }
  change (serve_mux no_ergo_route false (ergo_routes a) "POST" ["attach"] r) with (attach a (set_id "" r)).
  destruct (attach_spec (set_id "" r) w x Hx) as (resp'&w1&E&H). rewrite E. intros [= <- <-] Hst.
  destruct H as [[_ H]|H]; [lia|]. by exists x.
Qed.

(** ** The life of a process *)
Definition fresh_rp : Oidcrp.State :=
  MkState (Session.NewStore (cfg_SessionTTL (ea_rp a))) (Session.NewStore login_ttl).

Definition ergo_events (method : string) (path : list string) r w : list (Z * event) :=
  let t := ew_tasks w in
  match ergo_route_of method path with
  | EgHealth => []
  | EgLogin => [(w_now t, ELogin (rand_bytes (w_draws t) 16) (rand_bytes (S (w_draws t)) 32))]
  | EgCallback => [(w_now t, ECallback (rand_bytes (w_draws t) 32) r)]
  | EgLogout => [(w_now t, ELogout r)]
  | EgPage => [(w_now t, ESession r)]
  end.

(** Any requests since the database was empty; anything but the database and the memory
    may change in between, and the process may be restarted.  [L] is what happened at the
    relying party. *)
Inductive ergo_served : list (Z * event) → EW → Prop :=
  | es_boot k : ergo_served [] (MkEW (boot tdb_empty) k fresh_rp)
  | es_env L w w' :
      ergo_served L w → w_db (ew_tasks w') = w_db (ew_tasks w) → ew_rp w' = ew_rp w → ergo_served L w'
  | es_restart L w : ergo_served L w → ergo_served L (MkEW (ew_tasks w) (ew_kamara w) fresh_rp)
  | es_request L w method path r ans w' :
      ergo_served L w → serve_ergo a method path r w = (Ok ans, w') → ergo_served (L ++ ergo_events method path r w) w'.

Record ergo_inv (L : list (Z * event)) w : Prop := {
  ei_tasks : task_inv (w_db (ew_tasks w));
  ei_flow : flow_inv (ea_rp a) L (ew_rp w);
}.

(** One operation for the user, committed with its audit event and search document, or
    nothing and an error. *)
Definition one_task_step (user : Subject) (resp : ErgoResponse) w w' : Prop :=
  ∃ o, top_caller o = user ∧ ew_kamara w' = ew_kamara w ∧
    (effect o (w_db (ew_tasks w)) (w_db (ew_tasks w')) ∨
     w_db (ew_tasks w') = w_db (ew_tasks w) ∧ (400 <= er_status resp)%Z).

Definition ergo_confined L method r (ans : ergo_answer) w w' : Prop :=
  still w w' ∨
  ∃ k e resp, rq_cookie r !! cfg_CookieName (ea_rp a) = Some k ∧ opened (ea_rp a) L k e ∧
    (w_now (ew_tasks w) <= e_exp e)%Z ∧ method = "POST" ∧ SameOriginGuard (ea_publicURL a) method r = None ∧
    ans = ErPage resp ∧
    (one_task_step (user_of a (e_val e)) resp w w' ∨ attaches (e_val e) r resp w w').

Lemma acts_on_tasks_step x resp w w' :
  task_inv (w_db (ew_tasks w)) → acts_on_tasks x resp w w' →
  one_task_step (user_of a x) resp w w' ∧ task_inv (w_db (ew_tasks w')).
Proof.
  intros HI (o&Hc&Hk&_&(Hd&_&_)&_&Hok). pose proof (run_top_spec o (ew_tasks w) HI) as H.
  destruct (run_top o (ew_tasks w)) as [v t]. cbn [fst snd] in *. rewrite Hd. destruct H as [[Hs Hno]|He].
  - split; [|by rewrite Hs]. exists o. split_and!; [done..|]. right. rewrite Hd. split; [done|].
    destruct (Z.le_gt_cases 400 (er_status resp)); [done|]. rewrite Hok in Hno by lia. done.
  - split; [|by eapply effect_inv]. exists o. rewrite Hd. auto.
Qed.

Lemma login_event_spec L w w0 ev :
  ergo_inv L w0 → still w0 w → ew_rp w = ew_rp w0 →
  ∃ ans w', login_event a ev w = (Ok ans, w') ∧ ergo_inv (L ++ [(w_now (ew_tasks w), ev)]) w' ∧ still w0 w'.
Proof.
  intros [H1 H2] Hs Hr. unfold login_event. rewrite Hr.
  pose proof (handle_inv (ea_rp a) L (ew_rp w0) (w_now (ew_tasks w)) ev H2) as H.
  destruct (handle (ea_rp a) (w_now (ew_tasks w)) ev (ew_rp w0)) as [rep st].
  do 2 eexists. split; [reflexivity|]. split; [|exact Hs]. destruct Hs as (_&Hd&_). split; [cbn; by rewrite Hd|done].
Qed.

Lemma serve_ergo_spec L method path r w :
  ergo_inv L w →
  ∃ ans w', serve_ergo a method path r w = (Ok ans, w') ∧
    ergo_inv (L ++ ergo_events method path r w) w' ∧ ergo_confined L method r ans w w'.
Proof.
  intros HI. unfold serve_ergo, ergo_events, ergo_confined. destruct (ergo_route_of method path).
  - do 2 eexists. split; [reflexivity|]. rewrite app_nil_r. split; [done|left; apply still_refl].
  - rewrite run_bind. unfold on_tasks at 1. cbn [draw]. rewrite run_bind. unfold on_tasks at 1. cbn [draw ew_tasks w_draws ew_kamara ew_rp].
    match goal with |- ∃ _ _, login_event a ?ev ?w2 = _ ∧ _ =>
      assert (still w w2) as Hst by (split; [done|by split_and!]);
      destruct (login_event_spec L w2 w ev HI Hst eq_refl) as (ans&w'&->&HI'&Hs) end. eauto 8.
  - rewrite run_bind. unfold on_tasks at 1. cbn [draw].
    match goal with |- ∃ _ _, login_event a ?ev ?w2 = _ ∧ _ =>
      assert (still w w2) as Hst by (split; [done|by split_and!]);
      destruct (login_event_spec L w2 w ev HI Hst eq_refl) as (ans&w'&->&HI'&Hs) end. eauto 8.
  - destruct (login_event_spec L w w (ELogout r) HI (still_refl w) eq_refl) as (ans&w'&->&HI'&Hs). eauto 8.
  - destruct (ergo_front_spec method path r w) as (resp&w'&E&Hr&He). rewrite run_bind, E.
    do 2 eexists. split; [reflexivity|]. destruct HI as [H1 H2].
    pose proof (handle_inv (ea_rp a) L (ew_rp w) (w_now (ew_tasks w)) (ESession r) H2) as H3. cbn [handle snd] in H3. rewrite <- Hr in H3.
    destruct He as [He|(x&Hx&Hp&Hg&He)].
    { split; [|by left]. destruct He as (_&Hd&_). split; [by rewrite Hd|done]. }
    unfold live in Hx. destruct (Session_ (ea_rp a) (w_now (ew_tasks w)) r (ew_rp w)) as [o st] eqn:Es. cbn in Hx. subst o.
    destruct (Session_opened _ L _ _ r x st H2 Es) as (k&en&Hk&Ho&<-&Ht).
    destruct He as [He|He].
    + destruct (acts_on_tasks_step _ _ _ _ H1 He) as [Hstep HI']. split; [by split|]. right. exists k, en, resp. split_and!; auto.
    + split; [split; [|done]|]. { destruct He as (->&_). done. } right. exists k, en, resp. split_and!; auto.
Qed.

Lemma ergo_served_inv L w : ergo_served L w → ergo_inv L w.
Proof.
  assert (∀ L', flow_inv (ea_rp a) L' fresh_rp) as Hfresh
    by (intros L'; by repeat split; intros k x Hk; cbn in Hk; rewrite lookup_empty in Hk).
  induction 1 as [k|L w w' _ [H1 H2] Hd Hr|L w _ [H1 H2]|L w method path r ans w' _ IH Es].
  - split; [apply empty_inv|apply Hfresh].
  - split; [by rewrite Hd|by rewrite Hr].
  - by split.
  - destruct (serve_ergo_spec L method path r w IH) as (ans2&w2&E2&HI&_). rewrite Es in E2. by injection E2 as -> ->.
Qed.

(** C4: a request to Ergonomos acts once, for the user who is logged in.  After any
    requests since the database was empty, the next one is answered and touches neither
    tasks nor Kamara, unless it is a same-site POST from a browser whose own login opened
    a session that is still alive.  Then it is either one operation on tasks, called for
    that user, that commits its row, one audit event and its search document together,
    or changes nothing and answers an error; or one upload to Kamara that carries a token
    the provider exchanged for that session's own, still usable access token.  The search
    index is always exactly what the tasks derive. *)
Theorem ergonomos_requests L w method path r :
  ergo_served L w →
  ∃ ans w', serve_ergo a method path r w = (Ok ans, w') ∧ ergo_confined L method r ans w w' ∧
    ∀ i, search_documents (t_conv (w_db (ew_tasks w'))) !! i = doc <$> tasks (w_db (ew_tasks w')) !! i.
Proof.
  intros Hs. destruct (serve_ergo_spec L method path r w (ergo_served_inv _ _ Hs)) as (ans&w'&E&[HI _]&Hc).
  exists ans, w'. split_and!; [done|done|apply (ti_index _ HI)].
Qed.
End front.
