(* ===== verification/Attach.v ===== *)
(** * Attach: from a login in Ergonomos to a file in Kamara

    The two processes joined: behind Kamara's URL stands the process of KamaraMain.v.
    A provider that keeps subjects straight is the only assumption about it: userinfo
    names whom a token was issued for, the tokens of one login are for one user, and an
    exchanged token is for the user of the token it was exchanged for. *)

From S2P Require Import Prelude GoText Ids World Pii Pseudonym Conventions Authz Chunker ChunkCrypto Blob Engine Repo FileService FolderService Wopi KamaraSafety Kamara Zip Url Http Json Headers Api WopiHost SessionStore Forms Discovery Oidcrp Web WebSafety Userinfo Dek Startup KamaraMain Svcauth Task ErgoWeb.
Import Pii Chunker.

(** ** Bodies that break off *)
Definition failing (evs : list rd_event) : Prop := ∃ g e tl, good g ∧ evs = g ++ RErr e :: RErr e :: tl.

Lemma MaxBytesReader_good n evs :
  (0 <= n)%Z → good evs → MaxBytesReader n evs = evs ∨ failing (MaxBytesReader n evs).
Proof.
  intros Hn Hg. destruct (Z.le_gt_cases (blen (events_data evs)) n) as [Hle|Hgt].
  - left. by apply MaxBytesReader_small.
  - right. destruct (MaxBytesReader_large n evs Hg) as (g&Hg'&->); [lia|]. by exists g, ErrMaxBytes, [].
Qed.

Lemma failing_cons b bs evs : failing evs → failing (RData (b :: bs) :: evs).
Proof. intros (g&e&tl&Hg&->). exists (RData (b :: bs) :: g), e, tl. split; [|done]. constructor; eauto. Qed.

Lemma failing_now e tl : failing (RErr e :: RErr e :: tl).
Proof. exists [], e, tl. split; [constructor|done]. Qed.

Lemma MaxBytesReader_failing n evs : failing evs → failing (MaxBytesReader n evs).
Proof.
  intros (g&e&tl&Hg&->). revert n. induction Hg as [|ev g (b&bs&->) Hg IH]; intros n; cbn [app MaxBytesReader].
  - apply failing_now.
  - destruct (_ <=? _)%Z; [by apply failing_cons|]. destruct (take _ _) as [|x xs]; [apply failing_now|].
    apply failing_cons, failing_now.
Qed.

Lemma Upload_failing {Pr : Primitives} {P : Platform} {F : OpenFGA} {Mi : Mime} s owner folder name body (w : KW) o w' :
  failing body → FileService.Upload s owner folder name body w ≠ (Ok o, w').
Proof.
  intros (g&e&tl&Hg&->) E. unfold FileService.Upload in E. case_bool_decide; [done|].
  apply bind_ok_inv in E as ([]&w1&_&E). apply bind_ok_inv in E as (x&w2&E&_). unfold Ingest in E.
  destruct (Split_fails kamara_params (ingest_chunk (s_cipher s) (D := KDB)) g e tl kamara_params_ok Hg) as (l&_&Hl).
  rewrite Hl, run_bind in E. destruct (for_each l _ _) as [[[]|e'] [w3 st]]; done.
Qed.

(** ** Kamara behind its URL *)
Section attach.
Context {Pr : Primitives} {PrOk : PrimitivesOk} {Pk : Platform} {Fk : OpenFGA} {Mi : Mime} {FF : FormFormats} {E : OfficeEngine}.
Context {JP : JsonParser} {U : UserinfoEndpoint} {Ik : IdP} {As : Assets}.
Context (base : string) (p : KamaraProc).

Definition remote_answer (ans : answer) : Z * option json :=
  match ans with
  | AnApi resp => (rs_status resp, match rs_body resp with BJson j => Some j | _ => None end)
  | AnLogin rep => (rp_status rep, None)
  | AnWeb resp => (wr_status resp, None)
  end.

(** What the server makes of a request line, its headers and a body that is not JSON. *)
Definition received (target : string) (headers : list (string * string)) (body : list rd_event) : list string * Request :=
  let '(path, query) := match cut_byte "?"%char target with Some x => x | None => (target, "") end in
  (split_byte "/"%char (TrimPrefix path "/"),
   MkRequest "" (list_to_map (ParseQuery query).1) (list_to_map headers) ∅ body None).

(** The network: a call may not arrive, or its answer may get lost. *)
#[local] Instance kamara_remote : RemoteServer (KW * KamaraMemory) := {|
  remote_http method url headers body := λ x,
    match trim_prefix url base with
    | None => (Err ErrExternal, x)
    | Some target =>
        let '(path, r) := received target headers body in
        match next_fault x.1 with
        | (Ok FFail, w0) => (Err ErrExternal, (w0, x.2))
        | (Ok f, w0) =>
            match serve_main (I := Ik) p method path r x.2 w0 with
            | (Ok (ans, m'), w') =>
                (match f with FLost => Err ErrExternal | _ => Ok (remote_answer ans) end, (w', m'))
            | (Err e, w') => (Err e, (w', x.2))
            end
        | (Err e, w0) => (Err e, (w0, x.2))
        end
    end |}.

(** The upload, as Kamara sees it. *)
Definition seen (tok name : string) (body : list rd_event) : Request :=
  MkRequest "" {["name" := name]} (list_to_map (upload_headers tok)) ∅ body None.

Lemma received_upload tok name body :
  received ("/v1/files?name=" +:+ QueryEscape name) (upload_headers tok) body = (["v1"; "files"], seen tok name body).
Proof.
  unfold received. change ("/v1/files?name=" +:+ QueryEscape name) with ("/v1/files" +:+ String "?" (Encode [("name", name)])).
  rewrite cut_byte_app by reflexivity. cbv zeta beta iota. rewrite ParseQuery_Encode. reflexivity.
Qed.

Lemma bearer_seen tok name body : TrimSpace tok = tok → tok ≠ "" → bearer (seen tok name body) = tok.
Proof.
  intros Ht Hne. unfold bearer. change (header_get (seen tok name body) "Authorization") with ("Bearer " +:+ tok).
  rewrite string_length_app. change (String.length "Bearer ") with 7. rewrite (proj2 (Nat.ltb_lt _ _)).
  - replace (7 + String.length tok - 7) with (String.length tok) by lia.
    change (String.substring 0 7 ("Bearer " +:+ tok)) with (String.append "Bearer " (String.substring 0 0 tok)).
    change (String.substring 7 (String.length tok) ("Bearer " +:+ tok)) with (String.substring 0 (String.length tok) tok).
    assert (String.substring 0 0 tok = "") as -> by (by destruct tok).
    change (EqualFold (String.append "Bearer " "") "Bearer ") with true. cbn [andb].
    assert (String.substring 0 (String.length tok) tok = tok) as ->; [|done].
    clear. induction tok as [|c tok IH]; [done|]. cbn. by rewrite IH.
  - destruct tok as [|c tok]; [done|]. cbn. lia.
Qed.

(** What a created answer of the API means. *)
Lemma serve_v1_created tok name body m (w : KW) resp m' w' :
  TrimSpace tok = tok → tok ≠ "" → name ≠ "" →
  serve_v1 p "POST" ["v1"; "files"] (seen tok name body) m w = (Ok (AnApi resp, m'), w') → rs_status resp = 201%Z →
  ∃ caller o,
    (Subject_of (km_auth m) (MkCallTimes (w_now w) (w_now w) (w_now w) (w_now w)) tok).1 = Ok (Some caller) ∧
    FileService.Upload (h_svc (kp_api p)) caller None name (MaxBytesReader (h_maxUpload (kp_api p)) body) w = (Ok o, w') ∧
    rs_body resp = BJson (toFile o).
Proof.
  intros Ht Hne Hn. unfold serve_v1. rewrite run_bind. cbn [now gets]. rewrite run_bind.
  change (Api.serve (Au := ?au) (kp_api p) "POST" ["v1"; "files"] (seen tok name body)) with
    (Api.authed (Au := au) (Api.upload (kp_api p)) (set_id "" (seen tok name body))).
  unfold Api.authed. change (bearer (set_id "" (seen tok name body))) with (bearer (seen tok name body)).
  rewrite bearer_seen by done. rewrite bool_decide_eq_false_2 by done. rewrite run_bind. unfold attempt.
  cbn [auth_Subject userinfo_authenticator].
  destruct (Subject_of (km_auth m) _ tok) as [x a']. cbn [fst]. destruct x as [[caller|]|e]; [|by intros [= <- _ _]..].
  unfold Api.upload. change (query_get (set_id "" (seen tok name body)) "name") with name.
  change (optStr (query_get (set_id "" (seen tok name body)) "folder")) with (None (A := string)).
  change (rq_body (set_id "" (seen tok name body))) with body.
  rewrite bool_decide_eq_false_2 by done. unfold or_fail. rewrite run_bind. unfold attempt.
  destruct (FileService.Upload _ caller None name _ w) as [[o|e] w1] eqn:Eu.
  - intros [= <- _ <-] _. by exists caller, o.
  - intros [= <- _ _] Hst. exfalso. pose proof (refused_status "file exceeds maximum upload size" e). lia.
Qed.

(** *** One upload over the network *)
Context (ke : Env) (kread : string → res bytes).
Hypothesis wired : kamara_wiring ke kread = Ok p.

(** What a call may do to Kamara: act for the user the provider names for the token. *)
Definition acts_for_token (tok : string) (w w' : KW) : Prop :=
  untouched w w' ∨
  ∃ x user, vouched (kp_issuer p) x tok user ∧ run_by (wa_svc (kp_app p)) (MkSubject (kp_instance p) user) w w'.

(** What a created file is: the whole body, under the user and the name. *)
Definition created (user : Subject) (name : string) (body : list rd_event) (id : string) (w w' : KW) : Prop :=
  ∃ o, objects (w_db w') !! id = Some o ∧ objects (w_db w) !! id = None ∧ o_Owner o = user ∧ o_Name o = name ∧
    o_FolderID o = None ∧
    (good body → no_collision (s_cipher (wa_svc (kp_app p))) (w_blobs w) (events_data body) →
     stored_as (wa_svc (kp_app p)) w' id (events_data body) ∧ o_Size o = blen (events_data body)).

Lemma created_same user name body id w0 w w' :
  w_db w0 = w_db w → w_blobs w0 = w_blobs w → created user name body id w0 w' → created user name body id w w'.
Proof. unfold created. by intros -> ->. Qed.

Lemma Upload_created owner name body n (w : KW) o w' :
  (0 <= n)%Z → kam_inv (wa_svc (kp_app p)) w →
  FileService.Upload (wa_svc (kp_app p)) owner None name (MaxBytesReader n (MaxBytesReader maxAttachBytes body)) w = (Ok o, w') →
  created owner name body (o_ID o) w w'.
Proof.
  intros Hn HI Eu. destruct (Upload_spec _ _ _ _ _ _ _ _ HI Eu) as [(_&_&[=])|(o'&(How&Hna&Hfo&Hno&Ho&_)&[[= ->]|[=]])].
  exists o'. rewrite Ho, lookup_insert_eq. split_and!; [done..|]. intros Hg Hc.
  assert (MaxBytesReader n (MaxBytesReader maxAttachBytes body) = body) as Hb.
  { destruct (MaxBytesReader_good maxAttachBytes body) as [Hb|Hb]; [unfold maxAttachBytes; lia|done| |].
    - rewrite Hb in Eu |- *. destruct (MaxBytesReader_good n body) as [Hb'|Hb']; [done|done|done|].
      by destruct (Upload_failing _ _ _ _ _ _ _ _ Hb' Eu).
    - by destruct (Upload_failing _ _ _ _ _ _ _ _ (MaxBytesReader_failing n _ Hb) Eu). }
  rewrite Hb in Eu. destruct (Upload_stored _ _ _ _ _ _ _ _ HI Hg Hc Eu) as (_&Hst&_&Hsz). by split.
Qed.

Lemma remote_upload L C w m w' m' tok name body ans :
  proc_inv p L C w m → TrimSpace tok = tok → tok ≠ "" → name ≠ "" →
  remote_http "POST" (base +:+ "/v1/files?name=" +:+ QueryEscape name) (upload_headers tok)
    (MaxBytesReader maxAttachBytes body) (w, m) = (ans, (w', m')) →
  acts_for_token tok w w' ∧
  ∀ j id, ans = Ok (201%Z, Some j) → dec_string "id" j = Ok id →
    ∃ x user, vouched (kp_issuer p) x tok user ∧ created (MkSubject (kp_instance p) user) name body id w w'.
Proof.
  intros HI Ht Hne Hn. cbn [remote_http kamara_remote fst snd]. rewrite trim_prefix_app, received_upload.
  destruct (next_fault_stores w) as (f&w0&Ef&Hd&Hr&_). rewrite Ef.
  assert (untouched w w0) as Hu by (by split). assert (w_blobs w0 = w_blobs w) as Hb by (by injection Hr).
  assert (proc_inv p L C w0 m) as HI0 by (destruct HI as [H1 H2 H3 H4]; split; [by eapply run_snoc_env|done..]).
  change (serve_main p "POST" ["v1"; "files"] (seen tok name (MaxBytesReader maxAttachBytes body)) m w0) with
    (serve_v1 p "POST" ["v1"; "files"] (seen tok name (MaxBytesReader maxAttachBytes body)) m w0).
  destruct (serve_v1_spec ke kread p wired L C w0 m "POST" ["v1"; "files"] (seen tok name (MaxBytesReader maxAttachBytes body)) eq_refl HI0)
    as (an&m1&w1&Es&_&Heff). rewrite Es.
  assert (acts_for_token tok w w1) as Hact.
  { destruct Heff as [[_ [H1 H2]]|(x&user&_&_&_&Hv&_&Hby)]; [left; split; congruence|right]. rewrite bearer_seen in Hv by done.
    exists x, user. split; [done|]. apply (by_env _ _ _ w0); [by split|done]. }
  destruct f; [| |by intros [= <- <- _]].
  2: { intros [= <- <- _]. split; [by left|done]. }
  intros [= <- <- <-]. split; [done|]. intros j id [= Hra] Hid.
  assert (∃ resp, an = AnApi resp) as [resp ->].
  { unfold serve_v1 in Es. rewrite run_bind in Es. cbn [now gets] in Es. rewrite run_bind in Es.
    destruct (Api.serve _ _ _ _ w0) as [[resp|e] w2]; [|done]. injection Es as <- _ _. eauto. }
  cbn [remote_answer] in Hra. injection Hra as Hst Hj.
  destruct (serve_v1_created tok name _ m w0 resp m1 w1 Ht Hne Hn Es Hst) as (caller&o&Hs&Eu&Hbody).
  rewrite Hbody in Hj. injection Hj as <-. change (dec_string "id" (toFile o)) with (Ok (o_ID o) : res string) in Hid. injection Hid as <-.
  pose proof (Subject_of_spec C _ _ _ (km_auth m) (MkCallTimes (w_now w0) (w_now w0) (w_now w0) (w_now w0)) tok (pi_auth _ _ _ _ _ HI0)) as Hsp.
  destruct (Subject_of (km_auth m) _ tok) as [v a']. cbn [fst] in Hs. subst v. destruct Hsp as (_&_&Hi&Hv).
  destruct (wiring_coherent ke kread p wired) as (Hsvc&_). rewrite Hsvc in Eu.
  destruct caller as [ci cu]. cbn in Hi, Hv. subst ci.
  assert (∃ x, vouched (kp_issuer p) x tok cu) as [x Hx] by (destruct Hv as [Hv|(t&_&Hv&_)]; eauto).
  exists x, cu. split; [done|]. apply (created_same _ _ _ _ w0); [done|done|].
  eapply Upload_created; [apply (wiring_limit ke kread p wired)| |exact Eu]. exact (run_inv _ _ _ (pi_run _ _ _ _ _ HI0) (boot_inv _)).
Qed.

(** ** The provider, and the claim *)

(** [subject_of] is whom the provider issued an access token for. *)
Class ProviderOk {I : IdP} {TP : TokenProvider} (issuer : string) (subject_of : string → option string) := {
  userinfo_truthful : ∀ x tok user, vouched issuer x tok user → subject_of tok = Some user;
  login_consistent : ∀ t code verifier tok c,
    Exchange t code verifier = Ok tok → Verify t (default "" (tk_id_token tok)) = Ok c →
    tk_AccessToken tok ≠ "" → subject_of (tk_AccessToken tok) = Some (c_Subject c);
  exchange_keeps_subject : ∀ t url body pairs status j token tok,
    form_post t url body = Ok (status, Some j) → (status < 300)%Z → reads_as body pairs →
    first_value "grant_type" pairs = Some token_exchange → first_value "subject_token" pairs = Some token →
    dec_string "access_token" j = Ok tok → tok ≠ "" →
    subject_of tok = subject_of token ∧ TrimSpace tok = tok;
}.

Section claim.
Context {AK : AppKeys} {JR : JsonPrinter} {TP : TokenProvider} {I : IdP} {P : Platform} {F : OpenFGA}.
Context (subject_of : string → option string) {POk : ProviderOk (kp_issuer p) subject_of}.
Context (a : ErgoApp).

Lemma OnBehalfOf_subject now ex token tok :
  OnBehalfOf now ex token = Ok tok → subject_of tok = subject_of token ∧ TrimSpace tok = tok ∧ tok ≠ "" ∧ token ≠ "".
Proof.
  unfold OnBehalfOf. case_bool_decide as Ht; [done|]. destruct (decode_answer _ _ _) as [t|] eqn:Ed; [|done].
  apply decode_answer_Ok in Ed as (st&j&Hp&Hs&Hj). case_bool_decide as Hn; [done|]. intros [= <-].
  destruct (exchange_keeps_subject _ _ _ _ _ _ token t Hp Hs (ParseQuery_Encode _) eq_refl eq_refl Hj Hn). by split_and!.
Qed.

Lemma opened_subject L k e :
  opened (I := I) (ea_rp a) L k e → bs_AccessToken (e_val e) ≠ "" →
  subject_of (bs_AccessToken (e_val e)) = Some (c_Subject (bs_Claims (e_val e))).
Proof.
  intros (l1&l2&t&srnd&r&tl&rnd&vrnd&tok&c&_&_&_&_&_&_&Hx&Hv&->&_) Hne. cbn in *. by eapply login_consistent.
Qed.

(** The user of an Ergonomos session, as Kamara names them. *)
Definition kamara_user (x : BrowserSession) : Subject := MkSubject (kp_instance p) (c_Subject (bs_Claims x)).

Lemma attaches_spec Lk C L k e c r resp (w w' : EW (X := KW * KamaraMemory)) :
  opened (I := I) (ea_rp a) L k e → proc_inv (P := Pk) (F := Fk) (I := Ik) p Lk C (ew_kamara w).1 (ew_kamara w).2 →
  ea_kamara a = Some c → cl_baseURL c = base → attaches a (e_val e) r resp w w' →
  let user := kamara_user (e_val e) in
  (untouched (ew_kamara w).1 (ew_kamara w').1 ∨ run_by (P := Pk) (F := Fk) (wa_svc (kp_app p)) user (ew_kamara w).1 (ew_kamara w').1) ∧
  ((er_status resp < 400)%Z → ∃ id, er_body resp = EbJson (JObj [("fileId", JStr id)]) ∧ er_status resp = 201%Z ∧
     created user (attach_name r) (rq_body r) id (ew_kamara w).1 (ew_kamara w').1).
Proof.
  intros Ho HI Hc Hbase (_&_&c'&tok&ans&Hc'&_&Hex&Hcall&Hresp) user. rewrite Hc in Hc'. injection Hc' as <-.
  destruct (OnBehalfOf_subject _ _ _ _ Hex) as (Hsub&Ht&Hne&Hne0). rewrite (opened_subject L k e Ho Hne0) in Hsub.
  assert (attach_name r ≠ "") as Hn by (unfold attach_name; cbv zeta; case_bool_decide; done).
  unfold upload_url in Hcall. rewrite Hbase in Hcall.
  destruct (ew_kamara w) as [kw km]. destruct (ew_kamara w') as [kw' km']. cbn [fst snd] in *.
  destruct (remote_upload Lk C kw km kw' km' tok _ _ _ HI Ht Hne Hn Hcall) as [Hact Hcr].
  assert (∀ x u, vouched (kp_issuer p) x tok u → MkSubject (kp_instance p) u = user) as Huser.
  { intros x u Hv. apply userinfo_truthful in Hv. rewrite Hsub in Hv. by injection Hv as <-. }
  split.
  - destruct Hact as [Hact|(x&u&Hv&Hby)]; [by left|right]. by rewrite <- (Huser x u Hv).
  - intros Hst. destruct Hresp as [Hresp|(j&id&->&Hid&->)]; [lia|]. exists id. split_and!; [done..|].
    destruct (Hcr j id eq_refl Hid) as (x&u&Hv&Hcd). by rewrite <- (Huser x u Hv).
Qed.

(** The users of the two processes are named alike. *)
Lemma wired_users ee eread x :
  ergonomos_wiring ee eread = Ok a → ea_issuer a = kp_issuer p → kamara_user x = user_of a x.
Proof.
  intros Hw Hiss. unfold kamara_user, user_of. f_equal.
  destruct (wiring_coherent ke kread p wired) as (_&_&_&->&_). rewrite <- Hiss.
  revert Hw. unfold ergonomos_wiring, mbind, res_bind.
  repeat match goal with |- context [match ?x with Ok _ => _ | Err _ => _ end = _] => destruct x eqn:?; [|done] end.
  by intros [= <-].
Qed.

(** C3: an attachment that Ergonomos reports lands, complete, with the user who is
    logged in.  Ergonomos and Kamara are wired to one issuer, any requests were served
    by both, and Ergonomos gets any request.  Whatever fails on the way, Kamara is left
    alone or acted on only for the user whose login, in that very browser, opened the
    live session of the request, and only by a same-site POST.  And whenever a request
    to attach is answered with success, the answer is a 201 that names a file, and that
    file is new in Kamara, belongs to that user, has the requested name, and holds the
    whole body: a body that broke off or was over either limit is never stored as a
    file, and no answer makes up a file that was not stored. *)
Theorem attach_lands_with_user ee eread Lk C L w c method path r :
  ergonomos_wiring ee eread = Ok a → ea_issuer a = kp_issuer p → ea_kamara a = Some c → cl_baseURL c = base →
  served (P := Pk) (F := Fk) (I := Ik) p Lk C (ew_kamara w).1 (ew_kamara w).2 → ergo_served a L w →
  ∃ ans w', serve_ergo a method path r w = (Ok ans, w') ∧
    (ew_kamara w' = ew_kamara w ∨
     ∃ k e, rq_cookie r !! cfg_CookieName (ea_rp a) = Some k ∧
       opened (I := I) (ea_rp a) L k e ∧ (w_now (ew_tasks w) <= e_exp e)%Z ∧
       method = "POST" ∧ SameOriginGuard (ea_publicURL a) method r = None ∧
       kamara_user (e_val e) = user_of a (e_val e) ∧
       (untouched (ew_kamara w).1 (ew_kamara w').1 ∨
        run_by (P := Pk) (F := Fk) (wa_svc (kp_app p)) (kamara_user (e_val e)) (ew_kamara w).1 (ew_kamara w').1)) ∧
    (∀ resp, method = "POST" → path = ["attach"] → ans = ErPage resp → (er_status resp < 300)%Z →
     ∃ k e id, rq_cookie r !! cfg_CookieName (ea_rp a) = Some k ∧
       opened (I := I) (ea_rp a) L k e ∧ (w_now (ew_tasks w) <= e_exp e)%Z ∧
       SameOriginGuard (ea_publicURL a) method r = None ∧
       er_status resp = 201%Z ∧ er_body resp = EbJson (JObj [("fileId", JStr id)]) ∧
       created (kamara_user (e_val e)) (attach_name r) (rq_body r) id (ew_kamara w).1 (ew_kamara w').1).
Proof.
  intros Hw Hiss Hc Hbase Hk Hs. pose proof (ergo_served_inv a _ _ Hs) as HI.
  pose proof (served_inv (P := Pk) (F := Fk) (I := Ik) ke kread p wired _ _ _ _ Hk) as HK.
  destruct (serve_ergo_spec a L method path r w HI) as (ans&w'&Es&_&Hcf).
  exists ans, w'. split_and!; [done| |].
  - destruct Hcf as [[H _]|(k&e&resp&Hck&Ho&Ht&Hm&Hg&Ha&[(o&_&H&_)|Hat])]; [by left|by left|right].
    destruct (attaches_spec Lk C L k e c r resp w w' Ho HK Hc Hbase Hat) as [H1 H2].
    exists k, e. split_and!; try done. by eapply wired_users.
  - intros resp -> -> -> Hst. destruct (serve_attach_spec a r w resp w' Es Hst) as (x&Hx&Hg&Hat).
    unfold live in Hx. destruct (Session_ (ea_rp a) (w_now (ew_tasks w)) r (ew_rp w)) as [o st] eqn:E1. cbn in Hx. subst o.
    destruct (Session_opened _ L _ _ r x st (ei_flow _ _ _ HI) E1) as (k&en&Hck&Ho&<-&Ht).
    destruct (attaches_spec Lk C L k en c r resp w w' Ho HK Hc Hbase Hat) as [_ H2].
    destruct H2 as (id&H3&H4&H5); [lia|]. exists k, en, id. by split_and!.
Qed.
End claim.
End attach.

(** ** One tenant: a login in Ergonomos, an attachment, a file in Kamara *)
Module AttachDemo.
#[local] Existing Instance toy_primitives.
#[local] Existing Instance toy_primitives_ok.
#[local] Existing Instance counting_platform.
#[local] Existing Instance owner_fga.
#[local] Existing Instance no_mime.
#[local] Existing Instance MainDemo.forms.
#[local] Existing Instance MainDemo.engine.
#[local] Existing Instance MainDemo.assets.
#[local] Existing Instance SvcauthDemo.keys.
#[local] Existing Instance SvcauthDemo.printer.
#[local] Existing Instance SvcauthDemo.parser.

(** A provider with one user, whose login yields "at" and whose exchange of it "obo". *)
#[local] Instance idp : IdP := {|
  Exchange _ code _ := if bool_decide (code = "good") then Ok (MkToken (Some "idt") "at" zero_time) else Err ErrExternal;
  Verify _ raw := if bool_decide (raw = "idt") then Ok (MkClaims "u1" "n" "e") else Err ErrExternal;
  GenerateVerifier := hex_encode;
  AuthCodeURL st _ := "https://idp.acme.example/auth?state=" +:+ st;
|}.
#[local] Instance tokens : TokenProvider := {| form_post _ url body :=
  if bool_decide (first_value "subject_token" (ParseQuery body).1 = Some "at")
  then Ok (200%Z, Some (JObj [("access_token", JStr "obo")])) else Ok (400%Z, None) |}.
#[local] Instance names : UserinfoEndpoint := {| userinfo _ _ token :=
  if bool_decide (token ∈ ["at"; "obo"]) then Ok (200%Z, Some (JObj [("sub", JStr "u1")])) else Ok (401%Z, None) |}.
Definition subject (token : string) : option string := if bool_decide (token ∈ ["at"; "obo"]) then Some "u1" else None.

Lemma provider_ok issuer : ProviderOk issuer subject.
Proof.
  split.
  - intros x tok user (j&Hu&Hj&_). cbn in Hu. unfold subject. case_bool_decide; [|done]. injection Hu as <-.
    vm_compute in Hj. by injection Hj as <-.
  - intros t code v tok c. cbn. case_bool_decide; [|done]. intros [= <-]. cbn. intros [= <-] _. reflexivity.
  - intros t url body pairs st j token tok. cbn [form_post tokens]. case_bool_decide as Eb; [|intros [= <-]; done].
    intros [= <- <-] _ Hr _ Hs Hj _. unfold reads_as in Hr. rewrite Hr in Eb. cbn [fst] in Eb. rewrite Eb in Hs. injection Hs as <-. vm_compute in Hj. injection Hj as <-. by vm_compute.
Qed.

Definition kamara_env : Env := MainDemo.environment.
Definition kproc : KamaraProc := MainDemo.proc.
Definition ergo_env : Env := list_to_map [
  ("DATABASE_DSN", "dsn"); ("OPENFGA_API_URL", "http://fga"); ("OIDC_ISSUER", "https://idp.acme.example");
  ("OIDC_CLIENT_ID", "ergonomos"); ("OIDC_PROJECT_ID", "42"); ("SVCAUTH_KEY_FILE", "/key"); ("KAMARA_URL", "http://kamara/");
  ("PUBLIC_URL", "https://tasks.acme.example")].
Definition key_file (path : string) : res bytes := Ok SvcauthDemo.key_json.
Definition app : ErgoApp :=
  match ergonomos_wiring ergo_env key_file with
  | Ok a => a
  | Err _ => MkErgoApp "" "" (MkConfig "" "" "" "" false 0) "" [] None ""
  end.

Definition kclient : Client :=
  New "http://kamara/" (MkExchanger "https://idp.acme.example" "https://idp.acme.example/oauth/v2/token" "ergonomos" "k1"
    "-----BEGIN" (ProjectAudienceScope "42")).

#[local] Instance remote : RemoteServer (KW * KamaraMemory) := kamara_remote "http://kamara" kproc.

Definition step (method : string) (path : list string) (r : Request) (w : EW) : option ergo_answer * EW :=
  match serve_ergo app method path r w with (Ok ans, w') => (Some ans, w') | (Err _, w') => (None, w') end.

Lemma ergo_step_served L w method path r :
  ergo_served app L w → ergo_served app (L ++ ergo_events method path r w) (step method path r w).2.
Proof.
  intros Hs. destruct (serve_ergo_spec app L method path r w (ergo_served_inv app _ _ Hs)) as (ans&w'&Ew&_).
  unfold step. rewrite Ew. by eapply es_request.
Qed.

Definition w0 : EW := MkEW (boot tdb_empty) (boot kdb_empty, kamara_memory kproc) (fresh_rp app).
Definition state0 : string := hex_encode (replicate 16 x00).
Definition w1 : EW := (step "GET" ["auth"; "login"] (MainDemo.request [] [] [] []) w0).2.
Definition back : Request := MainDemo.request [("state", state0); ("code", "good")] [] [("oidc_state", state0)] [].
Definition w2 : EW := (step "GET" ["auth"; "callback"] back w1).2.
Definition upload : Request :=
  MainDemo.request [("name", "Q&A report")] [("Sec-Fetch-Site", "same-origin")]
    [("ergonomos_session", hex_encode (replicate 32 x02))] [x61; x62].

Definition page_status (a : option ergo_answer) : Z :=
  match a with Some (ErPage r) => er_status r | Some (ErLogin r) => rp_status r | None => 0 end.

Example attached :
  page_status (step "POST" ["attach"] upload w2).1 = 201%Z ∧
  page_status (step "POST" ["attach"] upload w1).1 = 302%Z ∧
  MainDemo.owners (ew_kamara (step "POST" ["attach"] upload w2).2) = [("u1", "Q&A report")].
Proof. vm_compute. repeat split. Qed.

Definition served2 := ergo_step_served _ w1 "GET" ["auth"; "callback"] back
  (ergo_step_served _ w0 "GET" ["auth"; "login"] (MainDemo.request [] [] [] []) (es_boot app _)).

Lemma attach_lands_with_user_witness :
  ∃ L ans w', serve_ergo app "POST" ["attach"] upload w2 = (Ok ans, w') ∧
    ∃ k e id resp, ans = ErPage resp ∧ opened (ea_rp app) L k e ∧ er_status resp = 201%Z ∧
      created kproc (MkSubject "idp.acme.example" (c_Subject (bs_Claims (e_val e)))) "Q&A report" (rq_body upload) id
        (ew_kamara w2).1 (ew_kamara w').1.
Proof.
  assert (served kproc [] [] (ew_kamara w2).1 (ew_kamara w2).2) as Hk.
  { assert (ew_kamara w2 = (boot kdb_empty, kamara_memory kproc)) as -> by (vm_compute; reflexivity). apply served_boot. }
  assert (ergonomos_wiring ergo_env key_file = Ok app) as Hw by (vm_compute; reflexivity).
  assert (ea_kamara app = Some kclient) as Hc by (vm_compute; reflexivity).
  destruct (attach_lands_with_user "http://kamara" kproc kamara_env MainDemo.no_files MainDemo.proc_wired subject
    (POk := provider_ok (kp_issuer kproc)) app ergo_env key_file [] [] _ w2 kclient "POST" ["attach"] upload
    Hw ltac:(vm_compute; reflexivity) Hc ltac:(vm_compute; reflexivity) Hk served2) as (ans&w'&Es&_&H).
  change (serve_ergo app "POST" ["attach"] upload w2 = (Ok ans, w')) in Es.
  assert (∃ resp, ans = ErPage resp ∧ er_status resp = 201%Z) as (resp&->&Hst).
  { assert ((step "POST" ["attach"] upload w2).1 = Some ans) as E by (unfold step; by rewrite Es).
    assert (page_status (step "POST" ["attach"] upload w2).1 = 201%Z ∧
            match (step "POST" ["attach"] upload w2).1 with Some (ErPage _) => true | _ => false end = true) as [H1 H2]
      by (vm_compute; split; reflexivity).
    rewrite E in H1, H2. destruct ans as [|resp]; [discriminate H2|]. exists resp. split; [reflexivity|exact H1]. }
  eexists _, _, w'. split; [exact Es|].
  destruct (H resp eq_refl eq_refl eq_refl ltac:(lia)) as (k&e&id&_&Ho&_&_&Hs&_&Hcr).
  exists k, e, id, resp. split_and!; [done|exact Ho|exact Hs|exact Hcr].
Defined.

(** A task created by the same browser. *)
Definition add_task : Request :=
  MainDemo.request [] [("Sec-Fetch-Site", "same-origin"); ("Content-Type", "application/x-www-form-urlencoded")]
    [("ergonomos_session", hex_encode (replicate 32 x02))] (str_bytes "title=write+it").

Example task_added :
  page_status (step "POST" ["tasks"] add_task w2).1 = 200%Z ∧
  (λ x, (UserID (t_Owner x.2), t_Title x.2)) <$> map_to_list (tasks (w_db (ew_tasks (step "POST" ["tasks"] add_task w2).2))) =
    [("u1", "write it")].
Proof. vm_compute. split; reflexivity. Qed.

Lemma ergonomos_requests_witness :
  ∃ L ans w', ergo_served app L w2 ∧ serve_ergo app "POST" ["tasks"] add_task w2 = (Ok ans, w') ∧
    ergo_confined app L "POST" add_task ans w2 w' ∧
    ∀ i, search_documents (t_conv (w_db (ew_tasks w'))) !! i = Tasks.doc <$> tasks (w_db (ew_tasks w')) !! i.
Proof.
  destruct (ergonomos_requests app _ w2 "POST" ["tasks"] add_task served2) as (ans&w'&H).
  eexists _, ans, w'. split; [exact served2|exact H].
Defined.
End AttachDemo.
