(* ===== verification/ServerUi.v ===== *)
(** * ServerUi: the control plane's browser UI and its process
    (control-plane/internal/server/ui.go, server.go)

    The handlers of the operator UI, the mux that puts API, UI and login on one port, and
    the start of the server.  A page is here the data its template is given, as JSON;
    Pages.v has the text. *)

From stdpp Require Import sorting.
From S2P Require Import Prelude GoText BytesTrim Ids World Pii Authz Chunker SessionStore Http Forms Json Base64 Oidcrp Cluster Zitadel Naming Catalog Provision TenantController ControllerFrame Server.
Import Pii Session.

(** The string catalog; a key that is not in it has no text. *)
Definition messages_catalog : list (string * string) :=
  [("title", "Peristera Control Plane"); ("tenants", "Tenants"); ("slug", "Slug");
   ("display_name", "Display name"); ("domain_optional", "custom domain (optional)"); ("phase", "Phase");
   ("issuer", "Issuer"); ("actions", "Actions"); ("create", "Create tenant"); ("delete", "Delete");
   ("confirm_delete", "Delete this tenant and all its data?"); ("logged_in_as", "Logged in as");
   ("logout", "Log out"); ("no_tenants", "No tenants yet — create the first one below.");
   ("add_admin", "Add admin"); ("admin_email", "admin email"); ("login_label", "Login");
   ("password_label", "Password"); ("creds_note", "Copy the password now — it is shown once and not stored.");
   ("apps_label", "Apps")].
Definition messages (key : string) : string :=
  match find (λ kv, bool_decide (kv.1 = key)) messages_catalog with Some kv => kv.2 | None => "" end.

Record appToggle := MkToggle { at_Name : string; at_Enabled : bool }.
Record rowData := MkRow {
  rd_Slug : string; rd_DisplayName : string; rd_Phase : string; rd_Issuer : string; rd_OptionalApps : list appToggle }.

Definition tenantHasApp (t : Tenant) (name : string) : bool := existsb (λ a, bool_decide (a = name)) (ts_Apps (t_Spec t)).

Definition toRow (t : Tenant) : rowData :=
  MkRow (ts_Slug (t_Spec t)) (ts_DisplayName (t_Spec t)) (st_Phase (t_Status t)) (st_Issuer (t_Status t))
    ((λ name, MkToggle name (tenantHasApp t name)) <$> OptionalApps).

Definition json_row (d : rowData) : json :=
  JObj [("Slug", JStr (rd_Slug d)); ("DisplayName", JStr (rd_DisplayName d)); ("Phase", JStr (rd_Phase d));
        ("Issuer", JStr (rd_Issuer d));
        ("OptionalApps", JArr ((λ a, JObj [("Name", JStr (at_Name a)); ("Enabled", JBool (at_Enabled a))]) <$> rd_OptionalApps d))].

Definition rendered (data : list (string * json)) : Response := MkResponse 200 [] (BJson (JObj data)).
Definition refresh : Response := MkResponse 204 [("HX-Refresh", "true")] BEmpty.

Definition userErrMessage (e : error) : string :=
  if errors_is e errBadEmail then messages "admin_email"
  else if errors_is e errNoTenant then "no such tenant"
  else if errors_is e errNotProvisioned then "tenant is not provisioned yet"
  else if errors_is e ErrUserExists then "a user with this email already exists"
  else "could not create user".

Section ui.
Context {ZS : Type} {Zd : ZitadelServer ZS} {Pl : Platform} {F : OpenFGA} {JT : JsonParser} {ST : ServerText} {FF : FormFormats} {I : IdP}.
Context (query_values : Request → string → list string).   (* every value of a parameter of the URL *)
Context (cfg : ServerConfig) (rp : Oidcrp.Config) (clientID : string).
Abbreviation W := (world (CP ZS)).

(** ParseForm of a PUT, and a field with all its values. *)
Definition put_form (r : Request) (k : string) : res (list string) :=
  let '(vs, err) := parsePostForm false r (rq_body r) in
  match err with
  | Some e => Err e
  | None => if query_parses r then Ok ((snd <$> filter (λ kv, kv.1 = k) vs) ++ query_values r k) else Err errQuery
  end.

Definition uiSetApps (r : Request) : M W Response :=
  match put_form r "apps" with
  | Err e => mret (text_error 400 (error_text e))
  | Ok names =>
      match validateOptionalApps names with
      | Err e => mret (text_error 400 (error_text e))
      | Ok apps =>
          g ← attempt (t_Get (rq_id r));
          match g with
          | Err e => mret (if IsNotFound e then text_error 404 "no such tenant" else text_error 500 (error_text e))
          | Ok t =>
              u ← attempt (t_Update (with_apps apps t));
              mret (match u with Ok _ => refresh | Err e => text_error 500 (error_text e) end)
          end
      end
  end.

Definition uiCreateUser (r : Request) : M W Response :=
  g ← attempt (createTenantUser (rq_id r) (FormValue r "email"));
  mret (match g with
        | Err e => rendered [("Error", JStr (userErrMessage e))]
        | Ok (login, password) => rendered [("Login", JStr login); ("Password", JStr password)]
        end).

(** s.user: the claims of the session, or none. *)
Definition user_claims (now : Z) (m : Memory) (r : Request) : Claims :=
  match (Session_ rp now r (me_rp m)).1 with Some s => bs_Claims s | None => MkClaims "" "" "" end.

Definition uiIndex (m : Memory) (r : Request) : M W Response :=
  l ← attempt t_List;
  match l with
  | Err e => mret (text_error 500 (error_text e))
  | Ok l =>
      now ← now;
      let user := user_claims now m r in
      mret (rendered [("User", JObj [("Name", JStr (Oidcrp.c_Name user))]);
                      ("Tenants", JArr (json_row ∘ toRow <$> merge_sort slug_le l))])
  end.

Definition uiCreate (r : Request) : M W Response :=
  let slug := FormValue r "slug" in
  if negb (ValidSlug slug) then mret (text_error 400 (messages "slug"))
  else
    let domain := FormValue r "domain" in
    if negb (bool_decide (domain = "")) && negb (ValidDomain domain)
    then mret (text_error 400 (messages "domain_optional"))
    else
      g ← attempt (t_Create slug (MkTenantSpec slug (FormValue r "displayName") domain []));
      mret (match g with
            | Ok _ => refresh
            | Err e => if errors_is e ErrK8sExists then refresh else text_error 500 (error_text e)
            end).

Definition uiDelete (r : Request) : M W Response :=
  g ← attempt (t_Delete (rq_id r));
  mret (match g with
        | Ok _ => refresh
        | Err e => if IsNotFound e then refresh else text_error 500 (error_text e)
        end).

Definition uiRow (r : Request) : M W Response :=
  g ← attempt (t_Get (rq_id r));
  mret (match g with
        | Err _ => status_only 200
        | Ok t => MkResponse 200 [] (BJson (json_row (toRow t)))
        end).

Definition uiMux (m : Memory) : list (string * list segment * (Request → M W Response)) :=
  [("GET", [Lit ""], uiIndex m); ("POST", [Lit "ui"; Lit "tenants"], uiCreate);
   ("DELETE", [Lit "ui"; Lit "tenants"; Wild], uiDelete); ("GET", [Lit "ui"; Lit "tenants"; Wild; Lit "row"], uiRow);
   ("POST", [Lit "ui"; Lit "tenants"; Wild; Lit "users"], uiCreateUser);
   ("PUT", [Lit "ui"; Lit "tenants"; Wild; Lit "apps"], uiSetApps)].

(** The guard, then the routes. *)
Definition guarded_ui (m : Memory) (method : string) (path : list string) (r : Request) : M W Response :=
  match SameOriginGuard (sc_PublicURL cfg) method r with
  | Some code => mret (text_error code "cross-origin request rejected")
  | None => ServeMux (uiMux m) method path r
  end.

Definition ui_serve (method : string) (path : list string) (r : Request) (m : Memory) : M W (Response * Memory) :=
  requireAuth cfg rp clientID (guarded_ui m method path) false r m.

(** ** The mux of Start *)
Inductive cp_answer := CpPage (r : Response) | CpLogin (r : Reply).
Inductive cp_route := CpHealth | CpSignIn | CpCallback | CpLogout | CpTree | CpApi (rest : list string) | CpUi.

Definition cp_tree (path : list string) : cp_route :=
  match path with
  | ["api"; "v1"] => CpTree
  | "api" :: "v1" :: rest => CpApi rest
  | _ => CpUi
  end.
Definition cp_route_of (method : string) (path : list string) : cp_route :=
  if match_method "GET" method then
    match path with
    | ["healthz"] => CpHealth
    | ["auth"; "login"] => CpSignIn
    | ["auth"; "callback"] => CpCallback
    | ["auth"; "logout"] => CpLogout
    | _ => cp_tree path
    end
  else cp_tree path.

Definition cp_login (e : event) (m : Memory) : M W (cp_answer * Memory) :=
  t ← now;
  let '(rep, st) := handle rp t e (me_rp m) in
  mret (CpLogin rep, MkMemory st (me_tokens m)).

Definition serve_cp (method : string) (path : list string) (r : Request) (m : Memory) : M W (cp_answer * Memory) :=
  match cp_route_of method path with
  | CpHealth => mret (CpPage (MkResponse 200 [] (BBytes (str_bytes "ok"))), m)
  | CpSignIn => rnd ← draw 16; vrnd ← draw 32; cp_login (ELogin rnd vrnd) m
  | CpCallback => srnd ← draw 32; cp_login (ECallback srnd r) m
  | CpLogout => cp_login (ELogout r) m
  | CpTree => mret (CpPage (MkResponse 307 [("Location", "/api/v1/")] BEmpty), m)
  | CpApi rest => x ← api_serve cfg rp clientID method rest r m; mret (CpPage x.1, x.2)
  | CpUi => x ← ui_serve method path r m; mret (CpPage x.1, x.2)
  end.

(** ** The life of the server's memory *)
Definition cp_memory : Memory := MkMemory (MkState (NewStore (cfg_SessionTTL rp)) (NewStore login_ttl)) (NewStore (60 * 1000000000)).

Definition cp_events (method : string) (path : list string) (r : Request) (w : W) : list (Z * event) :=
  match cp_route_of method path with
  | CpSignIn => [(w_now w, ELogin (rand_bytes (w_draws w) 16) (rand_bytes (S (w_draws w)) 32))]
  | CpCallback => [(w_now w, ECallback (rand_bytes (w_draws w) 32) r)]
  | CpLogout => [(w_now w, ELogout r)]
  | CpApi _ | CpUi => [(w_now w, ESession r)]
  | _ => []
  end.

(** The API server stores a tenant under its name. *)
Definition named_tenants (w : W) : Prop := ∀ n t, cp_tenants (w_db w) !! n = Some t → t_Name t = n.

(** Requests at any worlds: the reconciler and others change them in between. *)
Inductive cp_served : list (Z * event) → Memory → Prop :=
  | cs_boot : cp_served [] cp_memory
  | cs_restart L m : cp_served L m → cp_served L cp_memory
  | cs_request L m method path r (w w' : W) ans m' :
      cp_served L m → named_tenants w → serve_cp method path r m w = (Ok (ans, m'), w') → cp_served (L ++ cp_events method path r w) m'.

(** ** Credentials *)

(** The provider named [sub] for the token at time [t]. *)
Definition cp_vouched (tok sub : string) (t : Z) : Prop :=
  ∃ z j, z_get (sc_Issuer cfg +:+ "/oidc/v1/userinfo") (Some tok) t z = (200%Z, Some j) ∧ dec_string "sub" j = Ok sub ∧ sub ≠ "".

Definition token_life : Z := 60 * 1000000000.

Record mem_inv (L : list (Z * event)) (m : Memory) : Prop := {
  mi_flow : flow_inv rp L (me_rp m);
  mi_ttl : st_ttl (me_tokens m) = token_life;
  mi_tokens : ∀ tok e, st_items (me_tokens m) !! tok = Some e →
    ∃ t sub, cp_vouched tok sub t ∧ e = MkEntry (operator_of cfg sub) (t + token_life);
}.

(** A live session that a login of this browser opened, or a token for this client that
    the provider vouched for within the last minute. *)
Definition credential (L : list (Z * event)) (r : Request) (w : W) (subject : Subject) : Prop :=
  (∃ k e, rq_cookie r !! cfg_CookieName rp = Some k ∧ opened rp L k e ∧ (w_now w <= e_exp e)%Z ∧
     subject = operator_of cfg (c_Subject (bs_Claims (e_val e)))) ∨
  (∃ tok sub x, bearer_token r = Some tok ∧ audienceOK clientID tok = true ∧ (w_now w - token_life <= x)%Z ∧
     cp_vouched tok sub x ∧ subject = operator_of cfg sub).

Lemma operatorSubject_spec L r m (w : W) :
  mem_inv L m →
  ∃ u m' w', operatorSubject cfg rp clientID r m w = (Ok (u, m'), w') ∧ untouched w w' ∧
    mem_inv (L ++ [(w_now w, ESession r)]) m' ∧ ∀ s, u = Some s → credential L r w s.
Proof.
  intros [H1 H2 H3]. unfold operatorSubject, now. rewrite run_bind. cbn [gets].
  pose proof (handle_inv rp L (me_rp m) (w_now w) (ESession r) H1) as Hf. cbn [handle snd] in Hf.
  destruct (Session_ rp (w_now w) r (me_rp m)) as [s st] eqn:Es. cbn [snd] in Hf.
  assert (∀ u tokens, st_ttl tokens = token_life → (∀ k e, st_items tokens !! k = Some e → st_items (me_tokens m) !! k = Some e) →
    (∀ s, u = Some s → credential L r w s) →
    ∃ u' m' w', (mret (u, MkMemory st tokens) : M W (option Subject * Memory)) w = (Ok (u', m'), w') ∧ untouched w w' ∧
      mem_inv (L ++ [(w_now w, ESession r)]) m' ∧ ∀ s, u' = Some s → credential L r w s) as Hret.
  { intros u tokens Ht Hs Hc. do 3 eexists. split; [reflexivity|]. split; [by split|]. split; [|done]. split; [done|done|]. auto. }
  destruct s as [sess|].
  { apply Hret; [done|done|]. intros x [= <-]. left.
    destruct (Session_opened rp L _ _ r sess st H1 Es) as (k&e&Hk&Ho&<-&Ht). by exists k, e. }
  destruct (bearer_token r) as [tok|] eqn:Eb; [|by apply Hret].
  destruct (audienceOK clientID tok) eqn:Ea; cbn [negb]; [|by apply Hret].
  pose proof (Get_ttl (w_now w) tok (me_tokens m)) as Gt. pose proof (Get_items (w_now w) tok (me_tokens m)) as Gi.
  pose proof (Get_live (w_now w) tok (me_tokens m)) as Gl.
  destruct (Get (w_now w) tok (me_tokens m)) as [hit tokens]. cbn [fst snd] in *.
  destruct hit as [sub|].
  { apply Hret; [congruence|done|]. intros x [= <-]. right. destruct (Gl sub eq_refl) as (e&He&<-&Hx).
    destruct (H3 _ _ He) as (t&s'&Hv&->). exists tok, s', t. cbn in Hx |- *. split_and!; [done|done|lia|done|done]. }
  rewrite run_bind. destruct (UserinfoSubject _ tok w) as [x w1] eqn:Eu.
  apply UserinfoSubject_spec in Eu as (Hu&u&->&Hsub). destruct u as [sub|].
  2: { do 3 eexists. split; [reflexivity|]. split; [done|]. split; [|done]. split; [done|cbn; congruence|]. cbn. auto. }
  destruct (Hsub sub eq_refl) as (Hne&j&Hj&Hz).
  assert (cp_vouched tok sub (w_now w)) as Hv by (by eexists _, j).
  do 3 eexists. split; [reflexivity|]. split; [done|]. split.
  - split; [done|etrans; [apply Put_ttl|congruence]|]. cbn [me_tokens]. intros k e [[-> ->]|Hk]%Put_items; [|by apply H3, Gi].
    exists (w_now w), sub. split; [done|]. by rewrite Gt, H2.
  - intros y [= <-]. right. exists tok, sub, (w_now w). split_and!; try done. unfold token_life. lia.
Qed.

(** The gate: refused and nothing done, or the handler runs for an operator. *)
Lemma requireAuth_spec L next isAPI r m (w : W) :
  mem_inv L m → (∀ w, is_ok (next r w).1 = true) →
  ∃ resp m' w', requireAuth cfg rp clientID next isAPI r m w = (Ok (resp, m'), w') ∧
    mem_inv (L ++ [(w_now w, ESession r)]) m' ∧
    (untouched w w' ∨
     ∃ subject w1, credential L r w subject ∧
       fga_check (w_fga w) (tuple subject operatorRelation platformObject) = true ∧ untouched w w1 ∧ next r w1 = (Ok resp, w')).
Proof.
  intros HI Hn. unfold requireAuth. rewrite run_bind.
  destruct (operatorSubject_spec L r m w HI) as (u&m'&w1&E&Hu&HI'&Hc). rewrite E. cbn [fst snd].
  destruct u as [subject|]; [|do 3 eexists; split; [reflexivity|]; auto].
  rewrite run_bind. unfold attempt. destruct (Check_frames_all subject operatorRelation platformObject w1) as (a&w2&Ec&Hd&Hr&_&_&Ha).
  rewrite Ec. cbn. assert (w_fga w1 = w_fga w) as Hf by apply Hu.
  assert (untouched w w2) as Hu2 by (destruct Hu as [Hu1 Hu2]; unfold w_rest in Hr; injection Hr as _ Hr; split; congruence).
  destruct a as [[]|e]; [|do 3 eexists; split; [reflexivity|]; auto..].
  rewrite run_bind. specialize (Hn w2). destruct (next r w2) as [[resp|e] w3] eqn:En; [|done].
  do 3 eexists. split; [reflexivity|]. split; [done|]. right. exists subject, w2. split; [by apply Hc|]. split; [|done].
  rewrite <- Hf. destruct Ha as [[= Ha]|[=]]. done.
Qed.

(** ** What the routes do to the tenants *)

(** A handler always answers. *)
Definition replies {A} (m : M W A) : Prop := ∀ w, is_ok (m w).1 = true.

Lemma replies_attempt {A B} (m : M W A) (k : res A → M W B) : (∀ g, replies (k g)) → replies (attempt m ≫= k).
Proof. intros Hk w. rewrite run_bind. unfold attempt. destruct (m w) as [g w1]. apply Hk. Qed.

Lemma replies_mux (routes : list (string * list segment * (Request → M W Response))) method path r :
  Forall (λ x : string * list segment * (Request → M W Response), ∀ r, replies (x.2 r)) routes → replies (ServeMux routes method path r).
Proof.
  intros Hall w. destruct (serve_mux_cases status_only routes false method path r w) as [(st&E&_)|(me&pat&h&i&Hin&_&_&E)];
    unfold ServeMux; rewrite E; [done|]. rewrite Forall_forall in Hall. apply (Hall _ Hin).
Qed.

Ltac replies_tac := repeat first
  [ done
  | apply replies_attempt; intros ?
  | match goal with |- replies (match ?x with _ => _ end) => destruct x end ].

Lemma replies_api method path r : replies (ServeMux (api_routes cfg) method path r).
Proof.
  apply replies_mux. unfold api_routes. repeat apply Forall_cons_2; try apply Forall_nil_2; cbn [snd]; intros r';
    unfold wrapped_DeleteTenant, wrapped_GetTenant, wrapped_SetTenantApps, wrapped_CreateTenantUser, bind_slug,
      ListTenants, CreateTenant, DeleteTenant, GetTenant, SetTenantApps, CreateTenantUser; cbv zeta; replies_tac.
Qed.

Lemma replies_ui m method path r : replies (guarded_ui m method path r).
Proof.
  unfold guarded_ui. destruct (SameOriginGuard _ _ _); [done|]. apply replies_mux. unfold uiMux.
  repeat apply Forall_cons_2; try apply Forall_nil_2; cbn [snd]; intros r';
    unfold uiIndex, uiCreate, uiDelete, uiRow, uiCreateUser, uiSetApps; cbv zeta; replies_tac.
Qed.

Section effects.
Context (ts0 : gmap string Tenant) (os0 : gmap okey kobj).
Hypothesis named : ∀ n t, ts0 !! n = Some t → t_Name t = n.

Lemma effect_uiCreate r : effect ts0 os0 (uiCreate r).
Proof.
  unfold uiCreate. cbv zeta. destruct (negb (ValidSlug _)); [apply effect_keeps, keeps_ret|].
  destruct (_ && _); [apply effect_keeps, keeps_ret|]. apply effect_stmt. intros d a d' Hd.
  destruct (crd_valid _) eqn:Ev; cbn [negb]; [|done]. destruct (cp_tenants d !! _) eqn:El; [done|].
  intros [= _ <-]. cbn. split; [|done]. rewrite Hd in *. by constructor.
Qed.

Lemma effect_uiDelete r : effect ts0 os0 (uiDelete r).
Proof.
  unfold uiDelete. apply effect_stmt. intros d a d' Hd. rewrite Hd.
  destruct (ts0 !! rq_id r) as [t|] eqn:Et; [|done].
  case_bool_decide; intros [= _ <-]; cbn; (split; [|done]); [by eapply change_remove|by apply change_mark].
Qed.

Lemma effect_uiSetApps r : effect ts0 os0 (uiSetApps r).
Proof.
  unfold uiSetApps. destruct (put_form r "apps") as [names|e]; [|apply effect_keeps, keeps_ret].
  unfold validateOptionalApps. destruct (validate_apps [] names) as [apps|e] eqn:Ev; [|apply effect_keeps, keeps_ret].
  apply validate_apps_spec in Ev as (Hnd&Hopt&_); [|constructor|by intros a ?%elem_of_nil].
  apply (effect_t_Get ts0 os0 named); [|intros e; apply effect_keeps, keeps_ret]. intros t Ht. by eapply effect_t_Update.
Qed.

(** Reads leave the tenants alone. *)
Lemma keeps_index m r : keeps (cluster (at_start ts0 os0)) (uiIndex m r).
Proof.
  apply keeps_bind; [apply keeps_attempt, keeps_query, cluster_stores_only|]. intros [l|e]; [|apply keeps_ret].
  apply keeps_bind; [apply keeps_gets|intros; apply keeps_ret].
Qed.

Lemma keeps_row r : keeps (cluster (at_start ts0 os0)) (uiRow r).
Proof. apply keeps_bind; [apply keeps_attempt, keeps_t_Get|intros; apply keeps_ret]. Qed.

Lemma keeps_uiCreateUser r : keeps (cluster (at_start ts0 os0)) (uiCreateUser r).
Proof. apply keeps_bind; [apply keeps_attempt, keeps_createTenantUser|intros; apply keeps_ret]. Qed.

(** A route changes at most one tenant, and a GET none. *)
Definition tame (x : string * list segment * (Request → M W Response)) : Prop :=
  x.1.1 ≠ "HEAD" ∧ ∀ r, effect ts0 os0 (x.2 r) ∧ (x.1.1 = "GET" → keeps (cluster (at_start ts0 os0)) (x.2 r)).

Lemma tame_keeps x : x.1.1 ≠ "HEAD" → (∀ r, keeps (cluster (at_start ts0 os0)) (x.2 r)) → tame x.
Proof. intros Hx H. split; [done|]. intros r. split; [by apply effect_keeps|done]. Qed.

Lemma tame_effect x : x.1.1 ≠ "HEAD" → x.1.1 ≠ "GET" → (∀ r, effect ts0 os0 (x.2 r)) → tame x.
Proof. intros Hh Hx H. split; [done|]. intros r. by split. Qed.

Lemma tame_ui m : Forall tame (uiMux m).
Proof.
  unfold uiMux. repeat apply Forall_cons_2; try apply Forall_nil_2.
  - apply tame_keeps; [done|apply keeps_index].
  - apply tame_effect; [done|done|apply effect_uiCreate].
  - apply tame_effect; [done|done|apply effect_uiDelete].
  - apply tame_keeps; [done|apply keeps_row].
  - apply tame_keeps; [done|apply keeps_uiCreateUser].
  - apply tame_effect; [done|done|apply effect_uiSetApps].
Qed.

Lemma tame_api : Forall tame (api_routes cfg).
Proof.
  unfold api_routes. repeat apply Forall_cons_2; try apply Forall_nil_2.
  - apply tame_keeps; [done|]. intros r. apply keeps_bind; [|intros; apply keeps_ret]. apply keeps_attempt, keeps_query, cluster_stores_only.
  - apply tame_effect; [done|done|apply effect_CreateTenant].
  - apply tame_effect; [done|done|apply effect_bind_slug, effect_DeleteTenant].
  - apply tame_keeps; [done|]. apply keeps_bind_slug. intros r. apply keeps_bind; [apply keeps_attempt, keeps_t_Get|intros; apply keeps_ret].
  - apply tame_effect; [done|done|by apply effect_bind_slug, effect_SetTenantApps].
  - apply tame_keeps; [done|]. apply keeps_bind_slug. intros r. unfold CreateTenantUser. destruct (decode_body _ r); [|apply keeps_ret].
    apply keeps_bind; [apply keeps_attempt, keeps_createTenantUser|intros; apply keeps_ret].
Qed.

Lemma tame_mux routes method path r (w : W) :
  Forall tame routes → cluster (at_start ts0 os0) w →
  let w' := (ServeMux routes method path r w).2 in
  cluster (changed ts0 os0) w' ∧ (method = "GET" ∨ method = "HEAD" → cluster (at_start ts0 os0) w').
Proof.
  intros Hall Hw. cbv zeta. unfold ServeMux.
  destruct (serve_mux_cases status_only routes false method path r w) as [(st&->&_)|(me&pat&h&i&Hin&_&Hm&->)].
  { split; [by apply start_changed|done]. }
  rewrite Forall_forall in Hall. destruct (Hall _ Hin) as [Hh Ht]. destruct (Ht (set_id i r)) as [He Hk]. split; [by apply He|].
  intros Hg. apply Hk; [|done]. cbn in Hh |- *. unfold match_method in Hm. rewrite orb_true_iff, andb_true_iff, !bool_decide_eq_true in Hm.
  destruct Hm as [->|[-> _]]; [|done]. by destruct Hg as [->| ->].
Qed.
End effects.

(** ** Any request *)

(** What an operator's request may do. *)
Definition operator_request (L : list (Z * event)) (method : string) (path : list string) (r : Request) (w w' : W) : Prop :=
  ∃ subject, credential L r w subject ∧
    fga_check (w_fga w) (tuple subject operatorRelation platformObject) = true ∧
    tenant_change (cp_tenants (w_db w)) (cp_tenants (w_db w')) ∧ cp_objects (w_db w') = cp_objects (w_db w) ∧
    (method = "GET" ∨ method = "HEAD" → cp_tenants (w_db w') = cp_tenants (w_db w)) ∧
    (cp_route_of method path = CpUi → SameOriginGuard (sc_PublicURL cfg) method r = None).

Lemma cp_login_spec L ev m (w0 w : W) :
  mem_inv L m → untouched w0 w →
  ∃ ans m', cp_login ev m w = (Ok (ans, m'), w) ∧ mem_inv (L ++ [(w_now w, ev)]) m'.
Proof.
  intros [H1 H2 H3] Hu. unfold cp_login. rewrite run_bind. cbn [now gets].
  pose proof (handle_inv rp L (me_rp m) (w_now w) ev H1) as H. destruct (handle rp (w_now w) ev (me_rp m)) as [rep st].
  do 2 eexists. split; [reflexivity|]. by split.
Qed.

Lemma gated_spec L next isAPI method path r m (w : W) :
  mem_inv L m → (∀ w, is_ok (next r w).1 = true) →
  (∀ w1, untouched w w1 → untouched w1 (next r w1).2 ∨
     (cp_route_of method path = CpUi → SameOriginGuard (sc_PublicURL cfg) method r = None) ∧
     cluster (changed (cp_tenants (w_db w)) (cp_objects (w_db w))) (next r w1).2 ∧
     (method = "GET" ∨ method = "HEAD" → cluster (at_start (cp_tenants (w_db w)) (cp_objects (w_db w))) (next r w1).2)) →
  ∃ resp m' w', requireAuth cfg rp clientID next isAPI r m w = (Ok (resp, m'), w') ∧
    mem_inv (L ++ [(w_now w, ESession r)]) m' ∧ (untouched w w' ∨ operator_request L method path r w w').
Proof.
  intros HI Hn He. destruct (requireAuth_spec L next isAPI r m w HI Hn) as (resp&m'&w'&E&HI'&Heff).
  exists resp, m', w'. split_and!; [done|done|]. destruct Heff as [Hu|(subject&w1&Hc&Hf&Hu&En)]; [by left|].
  specialize (He w1 Hu). rewrite En in He. cbn [snd] in He. destruct Hu as [U1 U2].
  destruct He as [[V1 V2]|(Hg&[Hch Ho]&Hr)]; [left; split; congruence|]. right. exists subject.
  split_and!; try done. intros Hm. by destruct (Hr Hm).
Qed.

Lemma serve_cp_spec L method path r m (w : W) :
  mem_inv L m → named_tenants w →
  ∃ ans m' w', serve_cp method path r m w = (Ok (ans, m'), w') ∧ mem_inv (L ++ cp_events method path r w) m' ∧
    (untouched w w' ∨ operator_request L method path r w w').
Proof.
  intros HI Hn. unfold serve_cp, cp_events. destruct (cp_route_of method path) as [| | | | |rest|] eqn:Er.
  - do 3 eexists. split; [reflexivity|]. rewrite app_nil_r. split; [done|]. left. by split.
  - rewrite run_bind. cbn [draw]. rewrite run_bind. cbn [draw w_draws].
    match goal with |- context [cp_login ?ev m ?w2] =>
      destruct (cp_login_spec L ev m w w2 HI (conj eq_refl eq_refl)) as (ans&m'&->&HI') end.
    do 3 eexists. split; [reflexivity|]. split; [done|]. left. by split.
  - rewrite run_bind. cbn [draw].
    match goal with |- context [cp_login ?ev m ?w2] =>
      destruct (cp_login_spec L ev m w w2 HI (conj eq_refl eq_refl)) as (ans&m'&->&HI') end.
    do 3 eexists. split; [reflexivity|]. split; [done|]. left. by split.
  - destruct (cp_login_spec L (ELogout r) m w w HI (conj eq_refl eq_refl)) as (ans&m'&->&HI').
    do 3 eexists. split; [reflexivity|]. split; [done|]. left. by split.
  - do 3 eexists. split; [reflexivity|]. rewrite app_nil_r. split; [done|]. left. by split.
  - destruct (gated_spec L (ServeMux (api_routes cfg) method rest) true method path r m w HI (replies_api method rest r))
      as (resp&m'&w'&E&HI'&Heff).
    { intros w1 [U1 U2]. right. split; [by rewrite Er|].
      apply tame_mux; [by apply tame_api|]. unfold cluster, at_start. by rewrite U1. }
    rewrite run_bind. unfold api_serve. rewrite E. do 3 eexists. by split; [reflexivity|].
  - destruct (gated_spec L (guarded_ui m method path) false method path r m w HI (replies_ui m method path r))
      as (resp&m'&w'&E&HI'&Heff).
    { intros w1 [U1 U2]. unfold guarded_ui. destruct (SameOriginGuard _ _ _); [left; by split|]. right. split; [done|].
      apply tame_mux; [by apply tame_ui|]. unfold cluster, at_start. by rewrite U1. }
    rewrite run_bind. unfold ui_serve. rewrite E. do 3 eexists. by split; [reflexivity|].
Qed.

Lemma cp_served_inv L m : cp_served L m → mem_inv L m.
Proof.
  assert (∀ L', mem_inv L' cp_memory) as Hfresh.
  { intros L'. split; [|done|].
    - by repeat split; intros k x Hk; cbn in Hk; rewrite lookup_empty in Hk.
    - intros tok e Hk. cbn in Hk. by rewrite lookup_empty in Hk. }
  induction 1 as [|L m _ IH|L m method path r w w' ans m' _ IH Hn Es]; [apply Hfresh..|].
  destruct (serve_cp_spec L method path r m w IH Hn) as (ans2&m2&w2&E2&HI&_). rewrite Es in E2. by injection E2 as -> -> ->.
Qed.

(** C26: only an operator operates the control plane.  After any requests, the next one,
    to the API, the UI or the login, is answered, and it changes nothing outside the
    server's memory unless it comes from a subject that OpenFGA holds to be an operator
    and that is known from a live session its own browser's login opened, or from a
    bearer token for this client that the provider vouched for within the last minute.
    Then it changes at most one tenant: it creates one with a valid spec, marks or removes
    one, or sets its enabled apps to optional apps of the catalog; a GET changes none, a
    request to the UI passed the cross-site guard, and the cluster's other objects are
    never touched. *)
Theorem control_plane_operators_only L m method path r (w : W) :
  cp_served L m → named_tenants w →
  ∃ ans m' w', serve_cp method path r m w = (Ok (ans, m'), w') ∧
    (untouched w w' ∨ operator_request L method path r w w').
Proof.
  intros Hs Hn. destruct (serve_cp_spec L method path r m w (cp_served_inv _ _ Hs) Hn) as (ans&m'&w'&E&_&H). eauto.
Qed.

(** ** Start *)
Context (zc : ZClient).

(** Start, less the connection to OpenFGA, up to the relying party: the id of the client
    the server is known under. *)
Definition cp_start : M W string :=
  orgID ← wrap_err "default org" (FirstOrgID (sc_Issuer cfg));
  clientID ← wrap_err "ensuring own OIDC app"
    (EnsureWebApp zc (sc_Issuer cfg) orgID "control-plane" [sc_PublicURL cfg +:+ "/auth/callback"] [sc_PublicURL cfg +:+ "/"]);
  seedOperators cfg ;;
  mret clientID.

(** An operator is a direct tuple: the relation of the server's model has no other way. *)
Definition direct_operators : Prop :=
  ∀ T (u : Subject), fga_check T (tuple u operatorRelation platformObject) = true ↔ tuple u operatorRelation platformObject ∈ T.

Definition operator_tuple (sub : string) : fga_tuple := tuple (operator_of cfg sub) operatorRelation platformObject.

Lemma seed_loop subs (w w' : W) :
  OpenFGAOk → direct_operators →
  for_each subs (λ sub,
    ok ← wrap_err ("checking operator " +:+ sub) (Check (operator_of cfg sub) operatorRelation platformObject);
    if (ok : bool) then mret tt
    else wrap_err ("seeding operator " +:+ sub) (Write (operator_of cfg sub) operatorRelation platformObject)) w = (Ok tt, w') →
  w_db w' = w_db w ∧ w_fga w' = list_to_set (operator_tuple <$> subs) ∪ w_fga w.
Proof.
  intros HF Hd. revert w. induction subs as [|sub subs IH]; intros w; cbn [for_each].
  { intros [= <-]. split; [done|]. set_solver. }
  intros (u&w1&E1&E)%bind_ok_inv. destruct u. apply bind_ok_inv in E1 as (ok&w0&E0&E1). unfold wrap_err in E0.
  destruct (Check_frames_all (operator_of cfg sub) operatorRelation platformObject w) as (c&wc&Ec&Hdb&Hr&_&_&Hc). rewrite Ec in E0.
  destruct c as [b|e]; [|done]. injection E0 as -> ->. destruct Hc as [[= Hb]|[=]].
  assert (w_fga w0 = w_fga w) as Hf by (unfold w_rest in Hr; by injection Hr).
  assert (w_db w1 = w_db w ∧ w_fga w1 = {[operator_tuple sub]} ∪ w_fga w) as [D1 F1].
  { destruct ok.
    - injection E1 as <-. split; [done|]. symmetry in Hb. apply Hd in Hb. unfold operator_tuple. rewrite Hf. set_solver.
    - unfold wrap_err in E1. destruct (Write _ _ _ w0) as [x wx] eqn:Ew. destruct x as [[]|e]; [|done]. injection E1 as ->.
      apply fga_update_cases in Ew as (Hdw&_&[[_ [=]]|Hw]). apply fga_write_ok in Hw. rewrite Hw, Hf. split; [congruence|done]. }
  destruct (IH _ E) as [D2 F2]. split; [congruence|]. rewrite F2, F1. cbn. set_solver.
Qed.

Lemma keeps_tuples_send T method url org body : keeps (tuples_are T) (send method url org body).
Proof. apply keeps_call; [apply tuples_stores_only|]. intros w Hw. by destruct (z_http _ _ _ _ _ _). Qed.

#[local] Hint Resolve keeps_tuples_send : go.

Lemma keeps_tuples_app T base org name redirects logouts :
  keeps (tuples_are T) (EnsureWebApp zc base org name redirects logouts).
Proof. unfold EnsureWebApp, ProjectID, projectIDByName, oidcAppByName, do_into, do_unit, do. keeps_tac; apply keeps_attempt; keeps_tac. Qed.

(** Nobody is locked out: when the server starts, whatever failed before, every configured
    subject is an operator, and nobody else became one. *)
Theorem start_seeds_operators (w w' : W) c :
  OpenFGAOk → direct_operators → cp_start w = (Ok c, w') →
  (∀ sub, sub ∈ sc_OperatorSubs cfg → fga_check (w_fga w') (operator_tuple sub) = true) ∧
  w_fga w' = list_to_set (operator_tuple <$> sc_OperatorSubs cfg) ∪ w_fga w.
Proof.
  intros HF Hd (org&w1&E1&E)%bind_ok_inv. apply bind_ok_inv in E as (cl&w2&E2&E). apply bind_ok_inv in E as ([]&w3&E3&E).
  injection E as _ <-. pose proof E3 as [_ Hf]%seed_loop; [|done|done].
  assert (w_fga w1 = w_fga w) as F1.
  { assert (keeps (tuples_are (w_fga w)) (wrap_err "default org" (FirstOrgID (sc_Issuer cfg)))) as Hk
      by (apply keeps_wrap_err; unfold FirstOrgID, do_into, do; keeps_tac). specialize (Hk w eq_refl). by rewrite E1 in Hk. }
  assert (w_fga w2 = w_fga w1) as F2.
  { pose proof (keeps_wrap_err _ "ensuring own OIDC app" _ (keeps_tuples_app (w_fga w1) (sc_Issuer cfg) org "control-plane"
      [sc_PublicURL cfg +:+ "/auth/callback"] [sc_PublicURL cfg +:+ "/"]) w1 eq_refl) as Hk. by rewrite E2 in Hk. }
  assert (w_fga w3 = list_to_set (operator_tuple <$> sc_OperatorSubs cfg) ∪ w_fga w) as H3 by congruence.
  split; [|done]. intros sub Hs. apply Hd. change (operator_tuple sub ∈ w_fga w3). rewrite H3. set_solver.
Qed.
End ui.

(** ** An operator signs in and switches office on, another site tries the same *)
Module UiDemo.
Import ServerDemo.
#[local] Existing Instance LoginDemo.idp.
#[local] Instance forms : FormFormats := {|
  ParseMediaType ct := (ct, true); multipart_parts _ _ := None; multipart_fields _ _ := []; query_parses _ := true |}.
Definition no_query (r : Request) (k : string) : list string := [].
Definition rpc : Oidcrp.Config := (Oidcrp.New rp).1.

(** The operator whom the provider of the login names. *)
Definition cfg2 : ServerConfig :=
  MkServerConfig "https://cp.peristera.app" "https://iam.peristera.app" ["id-" +:+ hex_encode (replicate 32 x01)].
Definition start_world : world (CP unit) := (seedOperators cfg2 (boot (MkCP {["acme" := acme]} ∅ tt []))).2.

Definition step (method : string) (path : list string) (r : Request) (st : Memory * world (CP unit)) :
    option cp_answer * (Memory * world (CP unit)) :=
  match serve_cp no_query cfg2 rpc "cp-client" method path r st.1 st.2 with
  | (Ok (ans, m'), w') => (Some ans, (m', w'))
  | (Err _, w') => (None, (st.1, w'))
  end.

Lemma cp_step_served L st method path r :
  cp_served no_query cfg2 rpc "cp-client" L st.1 → named_tenants st.2 →
  cp_served no_query cfg2 rpc "cp-client" (L ++ cp_events method path r st.2) (step method path r st).2.1.
Proof.
  intros Hs Hn. destruct (serve_cp_spec no_query cfg2 rpc "cp-client" L method path r st.1 st.2
    (cp_served_inv _ _ _ _ _ _ Hs) Hn) as (ans&m'&w'&E&_). unfold step. rewrite E. by eapply cs_request.
Qed.

Definition req (q h c : list (string * string)) (body : string) : Request :=
  MkRequest "" (list_to_map q) (list_to_map h) (list_to_map c) (NewReader (str_bytes body)) None.
Definition s0 : string := hex_encode (replicate 16 x00).
Definition u0 := (cp_memory rpc, start_world).
Definition u1 := (step "GET" ["auth"; "login"] (req [] [] [] "") u0).2.
Definition back : Request := req [("state", s0); ("code", "good")] [] [("oidc_state", s0)] "".
Definition u2 := (step "GET" ["auth"; "callback"] back u1).2.
Definition office (site : string) : Request :=
  req [] [("Sec-Fetch-Site", site); ("Content-Type", "application/x-www-form-urlencoded")]
    [("cp_session", hex_encode (replicate 32 x02))] "apps=office".

Definition cp_status (a : option cp_answer) : Z :=
  match a with Some (CpPage r) => rs_status r | Some (CpLogin r) => rp_status r | None => 0 end.

Example ui_statuses :
  cp_status (step "PUT" ["ui"; "tenants"; "acme"; "apps"] (office "same-origin") u2).1 = 204%Z ∧
  enabled_apps (step "PUT" ["ui"; "tenants"; "acme"; "apps"] (office "same-origin") u2).2.2 = Some ["office"] ∧
  cp_status (step "PUT" ["ui"; "tenants"; "acme"; "apps"] (office "cross-site") u2).1 = 403%Z ∧
  cp_status (step "PUT" ["ui"; "tenants"; "acme"; "apps"] (office "same-origin") u1).1 = 302%Z ∧
  cp_status (step "GET" [""] (office "") u2).1 = 200%Z.
Proof. vm_compute. repeat split. Qed.

Lemma named_at w : cp_tenants (w_db w) = {["acme" := acme]} → named_tenants (ZS := unit) w.
Proof. intros E n t. rewrite E, lookup_singleton_Some. by intros [<- <-]. Qed.

Definition served2 := cp_step_served _ u1 "GET" ["auth"; "callback"] back
  (cp_step_served _ u0 "GET" ["auth"; "login"] (req [] [] [] "") (cs_boot no_query cfg2 rpc "cp-client")
    (named_at u0.2 ltac:(vm_compute; reflexivity)))
  (named_at u1.2 ltac:(vm_compute; reflexivity)).

Lemma control_plane_operators_only_witness :
  ∃ L ans m' w', cp_served no_query cfg2 rpc "cp-client" L u2.1 ∧
    serve_cp no_query cfg2 rpc "cp-client" "PUT" ["ui"; "tenants"; "acme"; "apps"] (office "same-origin") u2.1 u2.2 = (Ok (ans, m'), w') ∧
    (untouched u2.2 w' ∨ operator_request cfg2 rpc "cp-client" L "PUT" ["ui"; "tenants"; "acme"; "apps"] (office "same-origin") u2.2 w').
Proof.
  destruct (control_plane_operators_only no_query cfg2 rpc "cp-client" _ u2.1 "PUT" ["ui"; "tenants"; "acme"; "apps"] (office "same-origin")
    u2.2 served2 ltac:(apply named_at; vm_compute; reflexivity)) as (ans&m'&w'&H).
  eexists _, ans, m', w'. split; [exact served2|exact H].
Defined.
End UiDemo.
