(* ===== verification/Fga.v ===== *)
(** * Fga: the OpenFGA client on the wire (lib/authz/authz.go)

    The client of Authz.v as it talks to the server: requests and answers in JSON, the
    set-up of a store and its model at boot ([Connect]), and the comparison that decides
    whether a model is written again.  The server is a parameter that answers calls;
    [FgaApi] is its documented behaviour for tuples.  The operations of Authz.v are what
    these do ([client_refines]). *)

From stdpp Require Import sorting.
From S2P Require Import Prelude GoText Ids World Pii Authz Http Json.
Import Pii.

(** ** Equality of JSON values *)
Fixpoint json_eqb (a b : json) {struct a} : bool :=
  match a, b with
  | JNull, JNull => true
  | JBool x, JBool y => bool_decide (x = y)
  | JNum x, JNum y => bool_decide (x = y)
  | JDec x, JDec y => bool_decide (x = y)
  | JStr x, JStr y => bool_decide (x = y)
  | JArr l, JArr k =>
      (fix go l k := match l, k with
                     | [], [] => true
                     | x :: l', y :: k' => json_eqb x y && go l' k'
                     | _, _ => false
                     end) l k
  | JObj l, JObj k =>
      (fix go l k := match l, k with
                     | [], [] => true
                     | (n, x) :: l', (m, y) :: k' => bool_decide (n = m) && json_eqb x y && go l' k'
                     | _, _ => false
                     end) l k
  | _, _ => false
  end.

(** Induction with the members of arrays and objects. *)
Fixpoint json_rect' (Q : json → Prop) (Hn : Q JNull) (Hb : ∀ b, Q (JBool b)) (Hz : ∀ z, Q (JNum z)) (Hd : ∀ d, Q (JDec d))
    (Hs : ∀ s, Q (JStr s)) (Ha : ∀ l, Forall Q l → Q (JArr l)) (Ho : ∀ l, Forall (λ kv : string * json, Q kv.2) l → Q (JObj l))
    (j : json) {struct j} : Q j :=
  let rec := json_rect' Q Hn Hb Hz Hd Hs Ha Ho in
  match j with
  | JNull => Hn
  | JBool b => Hb b
  | JNum z => Hz z
  | JDec d => Hd d
  | JStr s => Hs s
  | JArr l => Ha l ((fix go l := match l as l return Forall Q l with
                                 | [] => Forall_nil_2 _
                                 | x :: l' => Forall_cons_2 _ _ _ (rec x) (go l')
                                 end) l)
  | JObj l => Ho l ((fix go l := match l as l return Forall (λ kv : string * json, Q kv.2) l with
                                 | [] => Forall_nil_2 _
                                 | x :: l' => Forall_cons_2 _ _ _ (rec x.2) (go l')
                                 end) l)
  end.

Lemma json_eqb_eq a b : json_eqb a b = true ↔ a = b.
Proof.
  revert b. induction a as [|x|x|x|x|l IH|l IH] using json_rect'; intros b; destruct b as [|y|y|y|y|k|k]; cbn;
    rewrite ?bool_decide_eq_true; try (split; congruence).
  - revert k. induction IH as [|x l Hx _ IH]; intros [|y k]; try (split; congruence).
    rewrite andb_true_iff, Hx, IH. split; [intros [-> [= ->]]; done|intros [= -> ->]; done].
  - revert k. induction IH as [|[n x] l Hx _ IH]; intros [|[m y] k]; try (split; congruence). cbn in Hx.
    rewrite !andb_true_iff, Hx, IH, bool_decide_eq_true. split; [intros [[-> ->] [= ->]]; done|intros [= -> -> ->]; done].
Qed.

(** ** The content of a model *)

(** A decoded object has each key once, with its last value, and is written in the order
    of its keys; numbers, which models do not have, are kept as written. *)
Fixpoint last_wins (l : list (string * json)) : list (string * json) :=
  match l with
  | [] => []
  | (k, v) :: l' => if bool_decide (k ∈ l'.*1) then last_wins l' else (k, v) :: last_wins l'
  end.

Definition key_le (x y : string * json) : Prop := String.leb x.1 y.1 = true.
#[global] Instance key_le_dec : RelDecision key_le.
Proof. intros x y. unfold key_le. apply _. Defined.

Fixpoint canonical (j : json) : json :=
  match j with
  | JArr l => JArr (canonical <$> l)
  | JObj l => JObj (merge_sort key_le (last_wins ((λ kv, (kv.1, canonical kv.2)) <$> l)))
  | _ => j
  end.

Fixpoint stripMetadata (j : json) : json :=
  match j with
  | JArr l => JArr (stripMetadata <$> l)
  | JObj l =>
      JObj ((fix go l := match l with
                         | [] => []
                         | (k, v) :: l' => if bool_decide (k = "metadata") then go l' else (k, stripMetadata v) :: go l'
                         end) l)
  | _ => j
  end.

(** A text that does not decode is compared as it is. *)
Definition modelContent (raw : json) : json + json :=
  match dec_string "schema_version" raw, raw_field "type_definitions" raw with
  | Ok v, Ok td =>
      inr (JObj [("schema_version", JStr v); ("type_definitions", stripMetadata (canonical (default JNull td)))])
  | _, _ => inl raw
  end.

Definition content_eqb (a b : json + json) : bool :=
  match a, b with
  | inl x, inl y | inr x, inr y => json_eqb x y
  | _, _ => false
  end.

Lemma content_eqb_eq a b : content_eqb a b = true ↔ a = b.
Proof. destruct a, b; cbn; rewrite ?json_eqb_eq; split; congruence. Qed.

(** ** The client *)

(** Method, URL, bearer token (none when empty) and body; a failure to get an answer, or
    its status and body. *)
Class FgaServer (X : Type) := { fga_http : string → string → string → option json → M X (Z * option json) }.

Record Client := MkClient { fc_base : string; fc_storeID : string; fc_modelID : string; fc_token : string }.

Module Fga.
Section client.
Context {X : Type} {FS : FgaServer X}.

Definition do (c : Client) (method path : string) (body : option json) : M X (option json) :=
  r ← fga_http method (fc_base c +:+ path) (fc_token c) body;
  if (300 <=? r.1)%Z then throw (ErrText ("openfga " +:+ method +:+ " " +:+ path +:+ ": " +:+ pretty r.1)) else mret r.2.

Definition do_out {A} (dec : json → res A) (c : Client) (method path : string) (body : option json) : M X A :=
  r ← do c method path body;
  match r with Some j => lift (dec j) | None => throw errDecode end.

Definition dec_store (j : json) : res (string * string) :=
  match dec_string "id" j, dec_string "name" j with Ok i, Ok n => Ok (i, n) | Err e, _ | _, Err e => Err e end.

Definition findStore (c : Client) (name : string) : M X string :=
  stores ← do_out (dec_list dec_store "stores") c "GET" "/stores" None;
  mret (default "" (fst <$> head (filter (λ s, s.2 = name) stores))).

Definition createStore (c : Client) (name : string) : M X string :=
  do_out (dec_string "id") c "POST" "/stores" (Some (JObj [("name", JStr name)])).

Definition models_path (c : Client) : string := "/stores/" +:+ fc_storeID c +:+ "/authorization-models".

(** An error, and a latest model without an id, count as no match. *)
Definition latestMatchingModel (c : Client) (model : json) : M X (option string) :=
  r ← attempt (do_out (dec_list Ok "authorization_models") c "GET" (models_path c +:+ "?page_size=1") None);
  mret (match r with
        | Ok (latest :: _) =>
            if negb (content_eqb (modelContent model) (modelContent latest)) then None
            else match dec_string "id" latest with
                 | Ok i => if bool_decide (i = "") then None else Some i
                 | Err _ => None
                 end
        | _ => None
        end).

Definition writeModel (c : Client) (model : json) : M X string :=
  m ← latestMatchingModel c model;
  match m with
  | Some i => mret i
  | None => do_out (dec_string "authorization_model_id") c "POST" (models_path c) (Some model)
  end.

Definition Connect (apiURL storeName : string) (model : json) (token : string) : M X Client :=
  let c := MkClient apiURL "" "" token in
  found ← findStore c storeName;
  storeID ← (if bool_decide (found = "") then createStore c storeName else mret found);
  let c := MkClient apiURL storeID "" token in
  modelID ← writeModel c model;
  mret (MkClient apiURL storeID modelID token).

Definition json_tuple (t : fga_tuple) : json :=
  JObj [("object", JStr t.2); ("relation", JStr t.1.2); ("user", JStr t.1.1)].
Definition tuple_keys (field : string) (t : fga_tuple) : json :=
  JObj [(field, JObj [("tuple_keys", JArr [json_tuple t])])].

Definition write_path (c : Client) : string := "/stores/" +:+ fc_storeID c +:+ "/write".
Definition check_path (c : Client) : string := "/stores/" +:+ fc_storeID c +:+ "/check".
Definition list_path (c : Client) : string := "/stores/" +:+ fc_storeID c +:+ "/list-objects".

Definition update (c : Client) (field : string) (t : fga_tuple) : M X unit :=
  do c "POST" (write_path c) (Some (tuple_keys field t)) ;; mret tt.

Definition Write (c : Client) (user : Subject) (relation object : string) : M X unit :=
  update c "writes" (tuple user relation object).
Definition Delete (c : Client) (user : Subject) (relation object : string) : M X unit :=
  update c "deletes" (tuple user relation object).
Definition WriteObjectTuple (c : Client) (user relation object : string) : M X unit :=
  update c "writes" (rawTuple user relation object).
Definition DeleteObjectTuple (c : Client) (user relation object : string) : M X unit :=
  update c "deletes" (rawTuple user relation object).

Definition check_body (c : Client) (t : fga_tuple) : json :=
  JObj [("authorization_model_id", JStr (fc_modelID c)); ("tuple_key", json_tuple t)].
Definition Check (c : Client) (user : Subject) (relation object : string) : M X bool :=
  do_out (dec_bool "allowed") c "POST" (check_path c) (Some (check_body c (tuple user relation object))).

Definition list_body (c : Client) (user relation objectType : string) : json :=
  JObj [("authorization_model_id", JStr (fc_modelID c)); ("relation", JStr relation); ("type", JStr objectType); ("user", JStr user)].
Definition ListObjects (c : Client) (user : Subject) (relation objectType : string) : M X (list string) :=
  objs ← do_out (dec_strings "objects") c "POST" (list_path c) (Some (list_body c (OpenFGAObject user) relation objectType));
  mret (strip_ids objectType objs).
End client.
End Fga.

(** ** The documented API, and what the client does over it *)

(** OpenFGA's HTTP API as its reference documents it, read without the client: which
    request a path and a body are, by the names of their members, and what the answers
    say. *)
Module FgaDoc.
Definition member (k : string) (j : json) : option json :=
  match j with JObj l => snd <$> head (filter (λ kv, kv.1 = k) l) | _ => None end.
Definition text (k : string) (j : json) : option string :=
  match member k j with Some (JStr v) => Some v | _ => None end.

Definition tuple_key (j : json) : option fga_tuple :=
  user ← text "user" j; relation ← text "relation" j; object ← text "object" j;
  Some (user, relation, object).

(** The tuples under "writes" or "deletes"; either may be missing. *)
Definition tuples_under (k : string) (body : json) : option (list fga_tuple) :=
  match member k body with
  | None => Some []
  | Some x => match member "tuple_keys" x with Some (JArr l) => mapM tuple_key l | _ => None end
  end.

Inductive request :=
  | Update (writes deletes : list fga_tuple)
  | Question (model : string) (t : fga_tuple)
  | Listing (model user relation type : string).

(** POST /stores/{store_id}/write, /check and /list-objects. *)
Definition read (store path : string) (body : json) : option request :=
  if bool_decide (path = "/stores/" +:+ store +:+ "/write") then
    ws ← tuples_under "writes" body; ds ← tuples_under "deletes" body; Some (Update ws ds)
  else if bool_decide (path = "/stores/" +:+ store +:+ "/check") then
    model ← text "authorization_model_id" body; key ← member "tuple_key" body; t ← tuple_key key;
    Some (Question model t)
  else if bool_decide (path = "/stores/" +:+ store +:+ "/list-objects") then
    model ← text "authorization_model_id" body; user ← text "user" body;
    relation ← text "relation" body; type ← text "type" body;
    Some (Listing model user relation type)
  else None.

(** An answer has each of its documented members at most once; false and the empty list
    may be left out. *)
Definition reply (names : list string) (j : json) (l : list (string * json)) : Prop :=
  j = JObj l ∧ NoDup l.*1 ∧ l.*1 ⊆ names.
Definition says_allowed (b : bool) (j : json) : Prop :=
  ∃ l, reply ["allowed"; "resolution"] j l ∧ (("allowed", JBool b) ∈ l ∨ b = false ∧ "allowed" ∉ l.*1).
Definition says_objects (objs : list string) (j : json) : Prop :=
  ∃ l, reply ["objects"] j l ∧ (("objects", JArr (JStr <$> objs)) ∈ l ∨ objs = [] ∧ "objects" ∉ l.*1).
End FgaDoc.

Definition answered (r : res (Z * option json)) : bool :=
  match r with Ok (st, _) => (st <? 300)%Z | Err _ => false end.

(** The server's tuples follow an update it accepted; one it refused did nothing; one
    whose answer was lost may have happened. *)
Definition follows (f : gset fga_tuple → option (gset fga_tuple)) (T T' : gset fga_tuple) (r : res (Z * option json)) : Prop :=
  if answered r then f T = Some T' else T' = T ∨ ((∃ e, r = Err e) ∧ f T = Some T').

(** A server at the client's address, with the client's store in it, that takes the
    client's token.  It says nothing of requests it cannot read, and answers checks and
    listings for the model the client was set up with only when they name it. *)
Class FgaApi {X : Type} {FS : FgaServer X} {F : OpenFGA} (c : Client) (tuples : X → gset fga_tuple) := {
  api_write : ∀ path body t x r x',
    FgaDoc.read (fc_storeID c) path body = Some (FgaDoc.Update [t] []) →
    fga_http "POST" (fc_base c +:+ path) (fc_token c) (Some body) x = (r, x') →
    follows (λ T, fga_write T t) (tuples x) (tuples x') r;
  api_delete : ∀ path body t x r x',
    FgaDoc.read (fc_storeID c) path body = Some (FgaDoc.Update [] [t]) →
    fga_http "POST" (fc_base c +:+ path) (fc_token c) (Some body) x = (r, x') →
    follows (λ T, fga_delete T t) (tuples x) (tuples x') r;
  api_check : ∀ path body t x r x',
    FgaDoc.read (fc_storeID c) path body = Some (FgaDoc.Question (fc_modelID c) t) →
    fga_http "POST" (fc_base c +:+ path) (fc_token c) (Some body) x = (r, x') →
    tuples x' = tuples x ∧
    (answered r = true → ∃ st j, r = Ok (st, Some j) ∧ FgaDoc.says_allowed (fga_check (tuples x) t) j);
  api_list : ∀ path body user relation typ x r x',
    FgaDoc.read (fc_storeID c) path body = Some (FgaDoc.Listing (fc_modelID c) user relation typ) →
    fga_http "POST" (fc_base c +:+ path) (fc_token c) (Some body) x = (r, x') →
    tuples x' = tuples x ∧
    (answered r = true → ∃ st j, r = Ok (st, Some j) ∧ FgaDoc.says_objects (fga_list (tuples x) user relation typ) j);
}.

(** *** What is sent is read as meant *)
Section wire.
Context (c : Client).
Abbreviation reads := (FgaDoc.read (fc_storeID c)).

Lemma paths_differ (a b : string) : a ≠ b → "/stores/" +:+ fc_storeID c +:+ a ≠ "/stores/" +:+ fc_storeID c +:+ b.
Proof. by intros H ?%string_app_inv_l%string_app_inv_l. Qed.

Lemma read_writes t : reads (Fga.write_path c) (Fga.tuple_keys "writes" t) = Some (FgaDoc.Update [t] []).
Proof. unfold FgaDoc.read. rewrite bool_decide_eq_true_2 by done. by destruct t as [[u r] o]. Qed.

Lemma read_deletes t : reads (Fga.write_path c) (Fga.tuple_keys "deletes" t) = Some (FgaDoc.Update [] [t]).
Proof. unfold FgaDoc.read. rewrite bool_decide_eq_true_2 by done. by destruct t as [[u r] o]. Qed.

Lemma read_check t : reads (Fga.check_path c) (Fga.check_body c t) = Some (FgaDoc.Question (fc_modelID c) t).
Proof.
  unfold FgaDoc.read, Fga.check_path. rewrite bool_decide_eq_false_2 by by apply paths_differ.
  rewrite bool_decide_eq_true_2 by done. by destruct t as [[u r] o].
Qed.

Lemma read_list user relation typ :
  reads (Fga.list_path c) (Fga.list_body c user relation typ) = Some (FgaDoc.Listing (fc_modelID c) user relation typ).
Proof.
  unfold FgaDoc.read, Fga.list_path. do 2 rewrite bool_decide_eq_false_2 by by apply paths_differ.
  by rewrite bool_decide_eq_true_2.
Qed.

(** *** What is answered is decoded as meant *)
Lemma dec_field_absent {A} (dec : json → res A) nul k l acc :
  (∀ x, x ∈ l.*1 → EqualFold x k = true → x = k) → k ∉ l.*1 → dec_field dec nul k l acc = Ok acc.
Proof.
  induction l as [|[x v] l IH]; intros Hf Hk; [done|]. cbn [dec_field]. cbn in Hk.
  destruct (EqualFold x k) eqn:Ex; [|apply IH; [|set_solver]; intros y Hy; apply Hf; cbn; set_solver].
  exfalso. apply Hk. rewrite (Hf x); [left|cbn; left|done].
Qed.

Lemma dec_field_member {A} (dec : json → res A) nul k v a l acc :
  (∀ x, x ∈ l.*1 → EqualFold x k = true → x = k) → EqualFold k k = true → NoDup l.*1 →
  (k, v) ∈ l → v ≠ JNull → dec v = Ok a → dec_field dec nul k l acc = Ok a.
Proof.
  intros Hf Hk Hnd Hin Hv Hd. revert acc. induction l as [|[x y] l IH]; intros acc; [by apply not_elem_of_nil in Hin|].
  cbn in Hnd. apply NoDup_cons in Hnd as [Hx Hnd]. cbn [dec_field].
  assert (∀ z, z ∈ l.*1 → EqualFold z k = true → z = k) as Hf' by (intros z Hz; apply Hf; cbn; by right).
  apply elem_of_cons in Hin as [[= <- <-]|Hin].
  - rewrite Hk. assert (dec_field dec nul k l a = Ok a) as E by by apply dec_field_absent.
    destruct v; try done; by rewrite Hd.
  - destruct (EqualFold x k) eqn:Ex; [|by apply IH]. exfalso. apply Hx. rewrite (Hf x) by (cbn; (left || done)).
    apply list_elem_of_fmap. by exists (k, v).
Qed.

Lemma decodes_allowed b j : FgaDoc.says_allowed b j → dec_bool "allowed" j = Ok b.
Proof.
  intros (l&(->&Hnd&Hn)&Hm). unfold dec_bool, dec_struct. cbn [fields].
  assert (∀ x, x ∈ l.*1 → EqualFold x "allowed" = true → x = "allowed") as Hf.
  { intros x Hx%Hn. repeat (apply elem_of_cons in Hx as [->|Hx]; [by vm_compute|]). by apply not_elem_of_nil in Hx. }
  destruct Hm as [Hm|[-> Hm]]; [by eapply dec_field_member|by apply dec_field_absent].
Qed.

Lemma dec_all_strings l : dec_all as_string (JStr <$> l) = Ok l.
Proof. induction l as [|x l IH]; [done|]. cbn. by rewrite IH. Qed.

Lemma decodes_objects objs j : FgaDoc.says_objects objs j → dec_strings "objects" j = Ok objs.
Proof.
  intros (l&(->&Hnd&Hn)&Hm). unfold dec_strings, dec_ref. cbn [fields].
  assert (∀ x, x ∈ l.*1 → EqualFold x "objects" = true → x = "objects") as Hf.
  { intros x Hx%Hn. by apply list_elem_of_singleton in Hx as ->. }
  destruct Hm as [Hm|[-> Hm]]; [|by apply dec_field_absent].
  eapply dec_field_member; [done|done|done|exact Hm|done|apply dec_all_strings].
Qed.
End wire.

Section refinement.
Context {X D : Type} {FS : FgaServer X} {F : OpenFGA} (c : Client) (tuples : X → gset fga_tuple).
Context {Api : FgaApi c tuples}.

Definition with_faults (l : list fault) (w : world D) : world D :=
  World (w_db w) (w_blobs w) (w_fga w) (w_now w) (w_draws w) l.

(** Whatever the server does, the call behaves like the abstract operation under some
    fault: the same value or an error in both, and the same tuples. *)
Definition refines {A} (m : M X A) (a : M (world D) A) : Prop :=
  ∀ (x : X) (w : world D), tuples x = w_fga w → ∃ f,
    let '(r, x') := m x in
    let '(r', w') := a (with_faults [f] w) in
    tuples x' = w_fga w' ∧ w_db w' = w_db w ∧ w_blobs w' = w_blobs w ∧
    match r, r' with Ok v, Ok v' => v = v' | Err _, Err _ => True | _, _ => False end.

Lemma run_call_fault {A} f (m : M (world D) A) (w : world D) :
  call m (with_faults [f] w) =
  match f with FOk => m | FFail => throw ErrExternal | FLost => ignore m ;; throw ErrExternal end (with_faults [] w).
Proof. unfold call. rewrite run_bind. by destruct f. Qed.

Lemma do_answered method path body (x : X) :
  let '(r, x') := fga_http method (fc_base c +:+ path) (fc_token c) body x in
  Fga.do c method path body x = (match r with
    | Ok (st, b) => if (st <? 300)%Z then Ok b else Err (ErrText ("openfga " +:+ method +:+ " " +:+ path +:+ ": " +:+ pretty st))
    | Err e => Err e end, x').
Proof.
  unfold Fga.do. rewrite run_bind. destruct (fga_http _ _ _ _ x) as [[[st b]|e] x']; [|done]. cbn [fst snd].
  destruct (Z.leb_spec 300 st); destruct (Z.ltb_spec st 300); done || lia.
Qed.

(** An update is the abstract one. *)
Lemma update_refines (field : string) (t : fga_tuple) (g : gset fga_tuple → option (gset fga_tuple)) :
  (∀ (x : X) r (x' : X), fga_http "POST" (fc_base c +:+ Fga.write_path c) (fc_token c) (Some (Fga.tuple_keys field t)) x = (r, x') →
     follows g (tuples x) (tuples x') r) →
  refines (Fga.update c field t) (fga_update g).
Proof.
  intros Hapi x w Hx. unfold Fga.update, fga_update.
  pose proof (do_answered "POST" (Fga.write_path c) (Some (Fga.tuple_keys field t)) x) as Hdo.
  destruct (fga_http _ _ _ _ x) as [r x'] eqn:E. specialize (Hapi _ _ _ E). unfold follows in Hapi. rewrite run_bind, Hdo.
  destruct r as [[st b]|e]; cbn [answered] in Hapi.
  - destruct (st <? 300)%Z.
    + exists FOk. rewrite run_call_fault. cbn. rewrite <- Hx, Hapi. done.
    + exists FFail. rewrite run_call_fault. cbn. destruct Hapi as [->|[[? [=]] _]]. done.
  - destruct Hapi as [Hs|[_ Hs]].
    + exists FFail. rewrite run_call_fault. cbn. by rewrite Hs.
    + exists FLost. rewrite run_call_fault. unfold ignore. rewrite run_bind. cbn. by rewrite <- Hx, Hs.
Qed.

(** A question is the abstract one. *)
Lemma ask_refines {A} (path : string) (body : json) (dec : json → res A) (q : gset fga_tuple → A) :
  (∀ (x : X) r (x' : X), fga_http "POST" (fc_base c +:+ path) (fc_token c) (Some body) x = (r, x') →
     tuples x' = tuples x ∧ (answered r = true → ∃ st j, r = Ok (st, Some j) ∧ dec j = Ok (q (tuples x)))) →
  refines (Fga.do_out dec c "POST" path (Some body)) (call (gets (λ w, q (w_fga w)))).
Proof.
  intros Hapi x w Hx. unfold Fga.do_out. pose proof (do_answered "POST" path (Some body) x) as Hdo.
  destruct (fga_http _ _ _ _ x) as [r x'] eqn:E. destruct (Hapi _ _ _ E) as [Hs Ha]. rewrite run_bind, Hdo.
  destruct r as [[st b]|e]; cbn [answered] in Ha.
  - destruct (st <? 300)%Z.
    + destruct (Ha eq_refl) as (st'&j&[= -> ->]&Hj). exists FOk. rewrite run_call_fault. cbn. rewrite Hj, Hs, Hx. done.
    + exists FFail. rewrite run_call_fault. cbn. by rewrite Hs.
  - exists FFail. rewrite run_call_fault. cbn. by rewrite Hs.
Qed.

Lemma refines_map {A B} (m : M X A) (a : M (world D) A) (g : A → B) :
  refines m a → refines (v ← m; mret (g v)) (v ← a; mret (g v)).
Proof.
  intros H x w Hx. destruct (H x w Hx) as [f Hf]. exists f. rewrite !run_bind.
  destruct (m x) as [[v|e] x'], (a (with_faults [f] w)) as [[v'|e'] w']; naive_solver.
Qed.

(** C17: the authorization client is the abstract one.  Over a server that behaves as
    OpenFGA's API is documented, which reads each request from its path and the named
    members of its body and knows nothing of the client, each operation of the client on
    the wire behaves, for any answer, refusal or lost connection, like the operation of the
    abstract client under some fault: it returns the same value or an error in both, and
    leaves the same tuples.  So every theorem stated over the abstract client for all
    faults holds over the wire. *)
Theorem client_refines user relation object typ o1 o2 :
  refines (Fga.Write c user relation object) (Write user relation object) ∧
  refines (Fga.Delete c user relation object) (Delete user relation object) ∧
  refines (Fga.WriteObjectTuple c o1 relation o2) (WriteObjectTuple o1 relation o2) ∧
  refines (Fga.DeleteObjectTuple c o1 relation o2) (DeleteObjectTuple o1 relation o2) ∧
  refines (Fga.Check c user relation object) (Check user relation object) ∧
  refines (Fga.ListObjects c user relation typ) (ListObjects user relation typ).
Proof.
  split_and!.
  - apply update_refines. intros x r x'. apply api_write, read_writes.
  - apply update_refines. intros x r x'. apply api_delete, read_deletes.
  - apply update_refines. intros x r x'. apply api_write, read_writes.
  - apply update_refines. intros x r x'. apply api_delete, read_deletes.
  - apply (ask_refines _ _ _ (λ T, fga_check T (tuple user relation object))). intros x r x' E.
    destruct (api_check _ _ _ _ _ _ (read_check c _) E) as [Hx Ha]. split; [done|].
    intros H. destruct (Ha H) as (st&j&->&Hj). eauto using decodes_allowed.
  - apply refines_map, (ask_refines _ _ _ (λ T, fga_list T (OpenFGAObject user) relation typ)). intros x r x' E.
    destruct (api_list _ _ _ _ _ _ _ _ (read_list c _ _ _) E) as [Hx Ha]. split; [done|].
    intros H. destruct (Ha H) as (st&j&->&Hj). eauto using decodes_objects.
Qed.
End refinement.

(** ** Booting again *)

(** The documented API of stores and models, for a server that answers: models are
    append-only, the latest comes first, and a model it accepts is stored with the content
    it was sent with under an id of its own. *)
Class StoreApi {X : Type} {FS : FgaServer X} (url token : string) (accepted : json → Prop)
    (stores : X → list (string * string)) (models : X → string → list json) := {
  stores_named : ∀ x i n, (i, n) ∈ stores x → i ≠ "";
  get_stores : ∀ x, ∃ j, fga_http "GET" (url +:+ "/stores") token None x = (Ok (200, Some j)%Z, x) ∧
    dec_list Fga.dec_store "stores" j = Ok (stores x);
  post_store : ∀ n x, ∃ j i x',
    fga_http "POST" (url +:+ "/stores") token (Some (JObj [("name", JStr n)])) x = (Ok (201, Some j)%Z, x') ∧
    dec_string "id" j = Ok i ∧ stores x' = stores x ++ [(i, n)] ∧ models x' i = [];
  get_latest : ∀ s x, s ∈ (stores x).*1 → ∃ j,
    fga_http "GET" (url +:+ ("/stores/" +:+ s +:+ "/authorization-models") +:+ "?page_size=1") token None x = (Ok (200, Some j)%Z, x) ∧
    dec_list Ok "authorization_models" j = Ok (take 1 (models x s));
  post_model : ∀ s m x, s ∈ (stores x).*1 → accepted m → ∃ j i m' x',
    fga_http "POST" (url +:+ "/stores/" +:+ s +:+ "/authorization-models") token (Some m) x = (Ok (201, Some j)%Z, x') ∧
    dec_string "authorization_model_id" j = Ok i ∧ i ≠ "" ∧ dec_string "id" m' = Ok i ∧ modelContent m' = modelContent m ∧
    models x' s = m' :: models x s ∧ stores x' = stores x;
}.

Section boot.
Context {X : Type} {FS : FgaServer X} (url token : string) (accepted : json → Prop).
Context (stores : X → list (string * string)) (models : X → string → list json).
Context {Api : StoreApi url token accepted stores models}.

Lemma do_out_ok {A} (dec : json → res A) c method path body (x x' : X) st j v :
  fc_base c = url → fc_token c = token → fga_http method (url +:+ path) token body x = (Ok (st, Some j), x') → dec j = Ok v →
  (300 <=? st)%Z = false → Fga.do_out dec c method path body x = (Ok v, x').
Proof.
  intros <- <- E Hd Hst. unfold Fga.do_out, Fga.do. rewrite !run_bind, E. cbn [fst snd].
  rewrite Hst. unfold lift. cbn. by rewrite Hd.
Qed.

(** The first store of that name. *)
Definition store_of (name : string) (x : X) : option string := fst <$> head (filter (λ s, s.2 = name) (stores x)).

Lemma findStore_run name s m (x : X) :
  Fga.findStore (MkClient url s m token) name x = (Ok (default "" (store_of name x)), x).
Proof.
  destruct (get_stores x) as (j&E&Hd). unfold Fga.findStore. rewrite run_bind.
  by rewrite (do_out_ok _ (MkClient url s m token) _ _ _ _ _ _ _ _ eq_refl eq_refl E Hd eq_refl).
Qed.

Lemma store_of_named name (x : X) s : store_of name x = Some s → s ≠ "" ∧ s ∈ (stores x).*1.
Proof.
  unfold store_of. destruct (filter _ _) as [|[i n] l] eqn:E; [done|]. intros [= <-].
  assert ((i, n) ∈ stores x) as Hin.
  { assert ((i, n) ∈ filter (λ s : string * string, s.2 = name) (stores x)) as H by (rewrite E; left).
    by apply list_elem_of_filter in H as [_ H]. }
  split; [by eapply stores_named|]. apply list_elem_of_fmap. by exists (i, n).
Qed.

(** The id the latest model answers to, when its content is the wanted one. *)
Definition matching (model : json) (l : list json) : option string :=
  match l with
  | latest :: _ =>
      if negb (content_eqb (modelContent model) (modelContent latest)) then None
      else match dec_string "id" latest with
           | Ok i => if bool_decide (i = "") then None else Some i
           | Err _ => None
           end
  | [] => None
  end.

Lemma latestMatchingModel_run s model (x : X) :
  s ∈ (stores x).*1 →
  Fga.latestMatchingModel (MkClient url s "" token) model x = (Ok (matching model (models x s)), x).
Proof.
  intros Hin. destruct (get_latest s x Hin) as (j&E&Hd). unfold Fga.latestMatchingModel, Fga.models_path, attempt. cbn [fc_storeID].
  rewrite run_bind.
  rewrite (do_out_ok _ (MkClient url s "" token) _ _ _ _ _ _ _ _ eq_refl eq_refl E Hd eq_refl).
  by destruct (models x s).
Qed.

(** A store whose latest model has the wanted content is taken as it is. *)
Lemma Connect_found name model (x : X) s i :
  store_of name x = Some s → matching model (models x s) = Some i →
  Fga.Connect url name model token x = (Ok (MkClient url s i token), x).
Proof.
  intros Hs Hm. destruct (store_of_named _ _ _ Hs) as [Hne Hin]. unfold Fga.Connect. rewrite run_bind, findStore_run, Hs. cbn [default].
  rewrite bool_decide_eq_false_2 by done. rewrite run_bind. cbn.
  rewrite run_bind. unfold Fga.writeModel. rewrite run_bind, latestMatchingModel_run, Hm by done. done.
Qed.

Lemma matching_posted model m' i l :
  dec_string "id" m' = Ok i → i ≠ "" → modelContent m' = modelContent model → matching model (m' :: l) = Some i.
Proof.
  intros Hi Hne Hc. unfold matching. rewrite (proj2 (content_eqb_eq _ _) (eq_sym Hc)), Hi. cbn.
  by rewrite bool_decide_eq_false_2.
Qed.

Lemma writeModel_run s model (x : X) :
  s ∈ (stores x).*1 → accepted model → ∃ i x', Fga.writeModel (MkClient url s "" token) model x = (Ok i, x') ∧
    matching model (models x' s) = Some i ∧ stores x' = stores x.
Proof.
  intros Hin Ha. unfold Fga.writeModel. setoid_rewrite run_bind. rewrite latestMatchingModel_run by done.
  destruct (matching model (models x s)) as [i|] eqn:Em; [by exists i, x|].
  destruct (post_model s model x Hin Ha) as (j&i&m'&x'&E&Hd&Hne&Hi&Hc&Hm&Hs). exists i, x'. split_and!; [|rewrite Hm; by apply matching_posted|done].
  exact (do_out_ok _ (MkClient url s "" token) _ _ _ _ _ _ _ _ eq_refl eq_refl E Hd eq_refl).
Qed.

Lemma storeID_run name (x : X) :
  ∃ s x', (found ← Fga.findStore (MkClient url "" "" token) name;
           if bool_decide (found = "") then Fga.createStore (MkClient url "" "" token) name else mret found) x = (Ok s, x') ∧
    store_of name x' = Some s.
Proof.
  setoid_rewrite run_bind. rewrite findStore_run. destruct (store_of name x) as [s|] eqn:Es; cbn [default].
  - destruct (store_of_named _ _ _ Es) as [Hne _]. rewrite bool_decide_eq_false_2 by done. by exists s, x.
  - rewrite bool_decide_eq_true_2 by done. destruct (post_store name x) as (j&i&x'&E&Hd&Hs&_). exists i, x'. split.
    + exact (do_out_ok _ (MkClient url "" "" token) _ _ _ _ _ _ _ _ eq_refl eq_refl E Hd eq_refl).
    + unfold store_of in *. rewrite Hs, filter_app, head_app. destruct (head (filter _ (stores x))); [done|].
      cbn. by rewrite decide_True.
Qed.

(** booting again changes nothing.  Over a server that answers as documented,
    [Connect] gives a client whose store carries the wanted name and whose model has the
    wanted content, and connecting again, as every boot does, gives the same client and
    leaves the server as it is: no second store, no further model. *)
Theorem connect_idempotent name model (x : X) :
  accepted model →
  ∃ s i x', Fga.Connect url name model token x = (Ok (MkClient url s i token), x') ∧
    store_of name x' = Some s ∧ matching model (models x' s) = Some i ∧
    Fga.Connect url name model token x' = (Ok (MkClient url s i token), x').
Proof.
  intros Ha. destruct (storeID_run name x) as (s&x1&E1&Hs). destruct (store_of_named _ _ _ Hs) as [_ Hin].
  destruct (writeModel_run s model x1 Hin Ha) as (i&x2&E2&Hm&Hst). exists s, i, x2.
  assert (store_of name x2 = Some s) as Hs2 by (unfold store_of in *; by rewrite Hst).
  split_and!; [|done|done|by apply Connect_found].
  unfold Fga.Connect. rewrite run_bind in E1. rewrite run_bind.
  destruct (Fga.findStore _ name x) as [[f|e] x0]; [|done].
  rewrite run_bind, E1. by rewrite run_bind, E2.
Qed.
End boot.

(** ** A server of tuples, with the faults it will have *)
Module TupleDemo.
#[local] Existing Instance owner_fga.
Definition State : Type := gset fga_tuple * list fault.

(** A refused update, or a body it cannot read, is a 400. *)
Definition put (o : option (gset fga_tuple)) (T : gset fga_tuple) : (Z * option json) * gset fga_tuple :=
  match o with Some T' => ((200%Z, Some (JObj [])), T') | None => ((400%Z, None), T) end.

Definition serve (url token : string) (b : json) (T : gset fga_tuple) : (Z * option json) * gset fga_tuple :=
  if negb (bool_decide (token = "key")) then ((401%Z, None), T)
  else
    match trim_prefix url "http://fga" ≫= λ path, FgaDoc.read "01" path b with
    | Some (FgaDoc.Update [t] []) => put (fga_write T t) T
    | Some (FgaDoc.Update [] [t]) => put (fga_delete T t) T
    | Some (FgaDoc.Question "m1" t) =>
        ((200%Z, Some (JObj [("allowed", JBool (fga_check T t)); ("resolution", JStr "")])), T)
    | Some (FgaDoc.Listing "m1" u r y) => ((200%Z, Some (JObj [("objects", jstrs (fga_list T u r y))])), T)
    | _ => ((400%Z, None), T)
    end.

#[local] Instance server : FgaServer State := {| fga_http _ url token b x :=
  let '(r, T') := serve url token (default JNull b) x.1 in
  match x.2 with
  | [] => (Ok r, (T', []))
  | FOk :: l => (Ok r, (T', l))
  | FFail :: l => (Err ErrExternal, (x.1, l))
  | FLost :: l => (Err ErrExternal, (T', l))
  end |}.

Definition c : Client := MkClient "http://fga" "01" "m1" "key".

Lemma put_follows (f : gset fga_tuple → option (gset fga_tuple)) T l r x' :
  (let '(r, T') := put (f T) T in
   match l with
   | [] => (Ok r, (T', []))
   | FOk :: l => (Ok r, (T', l))
   | FFail :: l => (Err ErrExternal, (T, l))
   | FLost :: l => (Err ErrExternal, (T', l))
   end) = (r, x') → follows f T x'.1 r.
Proof.
  unfold put, follows. destruct (f T) as [T'|] eqn:E; destruct l as [|[] l]; intros [= <- <-]; cbn; eauto.
Qed.

Lemma serve_path path b T :
  serve (fc_base c +:+ path) (fc_token c) b T =
  match FgaDoc.read "01" path b with
  | Some (FgaDoc.Update [t] []) => put (fga_write T t) T
  | Some (FgaDoc.Update [] [t]) => put (fga_delete T t) T
  | Some (FgaDoc.Question "m1" t) =>
      ((200%Z, Some (JObj [("allowed", JBool (fga_check T t)); ("resolution", JStr "")])), T)
  | Some (FgaDoc.Listing "m1" u r y) => ((200%Z, Some (JObj [("objects", jstrs (fga_list T u r y))])), T)
  | _ => ((400%Z, None), T)
  end.
Proof. unfold serve. cbn [negb]. by rewrite trim_prefix_app. Qed.

Ltac at_path Hr E :=
  change (fc_storeID c) with "01" in Hr; cbn -[serve] in E;
  change "http://fga" with (fc_base c) in E; change "key" with (fc_token c) in E; rewrite serve_path, Hr in E.

Lemma tuple_api : FgaApi c (fst : State → gset fga_tuple).
Proof.
  split.
  - intros path body t [T l] r x' Hr E. at_path Hr E.
    exact (put_follows (λ T, fga_write T t) T l r x' E).
  - intros path body t [T l] r x' Hr E. at_path Hr E.
    exact (put_follows (λ T, fga_delete T t) T l r x' E).
  - intros path body t [T l] r x' Hr E. at_path Hr E. cbn in E.
    assert (FgaDoc.says_allowed (fga_check T t) (JObj [("allowed", JBool (fga_check T t)); ("resolution", JStr "")])) as Hs.
    { eexists. split; [split; [reflexivity|split; [apply (bool_decide_unpack _); reflexivity|done]]|]. left. left. }
    destruct l as [|[] l]; injection E as <- <-; split; eauto; intros [=]; eauto.
  - intros path body u rel typ [T l] r x' Hr E. at_path Hr E. cbn in E.
    assert (FgaDoc.says_objects (fga_list T u rel typ) (JObj [("objects", jstrs (fga_list T u rel typ))])) as Hs.
    { eexists. split; [split; [reflexivity|split; [apply NoDup_singleton|done]]|]. left. left. }
    destruct l as [|[] l]; injection E as <- <-; split; eauto; intros [=]; eauto.
Qed.

(** A check whose answer is lost, then one that is answered. *)
Lemma client_refines_witness :
  FgaApi c (fst : State → gset fga_tuple) ∧
  refines (D := unit) fst (Fga.Check c (MkSubject "acme" "alice") "owner" "kamara/file:1")
    (Check (MkSubject "acme" "alice") "owner" "kamara/file:1") ∧
  Fga.Check c (MkSubject "acme" "alice") "owner" "kamara/file:1" (∅, [FLost]) = (Err ErrExternal, (∅, [])) ∧
  (Fga.WriteObjectTuple c "user:acme/alice" "owner" "kamara/file:1" (∅, [])).1 = Ok tt.
Proof.
  split; [exact tuple_api|]. split; [|vm_compute; split; reflexivity].
  destruct (@client_refines State unit server owner_fga c fst tuple_api (MkSubject "acme" "alice") "owner" "kamara/file:1"
    "kamara/file" "" "") as (_&_&_&_&H&_). exact H.
Defined.
End TupleDemo.

(** ** A server of stores and models *)
Module StoreDemo.
(** Stores are numbered as they come. *)
Record State := MkState { st_names : list string; st_models : gmap string (list json) }.

Definition id_of (k : nat) : string := "s" +:+ pretty k.
Definition stores (x : State) : list (string * string) := imap (λ k n, (id_of k, n)) (st_names x).

Definition models (x : State) (s : string) : list json := default [] (st_models x !! s).
Definition at_store (path : string → string) (url : string) (x : State) : option string :=
  head (filter (λ s, url = path s) (stores x).*1).
Definition path_of (s : string) : string := "http://fga/stores/" +:+ s +:+ "/authorization-models".
Definition latest_of (s : string) : string := "http://fga/stores/" +:+ (s +:+ "/authorization-models") +:+ "?page_size=1".

(** The stored model: the content it was sent with, under its id. *)
Definition stored (i : string) (m : json) : option json :=
  match dec_string "schema_version" m, raw_field "type_definitions" m with
  | Ok v, Ok td => Some (JObj [("id", JStr i); ("schema_version", JStr v); ("type_definitions", default JNull td)])
  | _, _ => None
  end.
Definition accepted (m : json) : Prop := is_Some (stored "" m).

Definition json_store (s : string * string) : json := JObj [("id", JStr s.1); ("name", JStr s.2)].
Definition refused : Z * option json := (400%Z, None).

Definition model_id (s : string) (x : State) : string := "m" +:+ pretty (length (models x s)).

Definition serve (method url : string) (b : json) (x : State) : (Z * option json) * State :=
  if bool_decide (url = "http://fga/stores") then
    if bool_decide (method = "GET") then ((200%Z, Some (JObj [("stores", JArr (json_store <$> stores x))])), x)
    else match dec_string "name" b with
         | Ok n => let i := id_of (length (st_names x)) in
                   ((201%Z, Some (JObj [("id", JStr i)])), MkState (st_names x ++ [n]) (<[i := []]> (st_models x)))
         | Err _ => (refused, x)
         end
  else if bool_decide (method = "GET") then
    match at_store latest_of url x with
    | Some s => ((200%Z, Some (JObj [("authorization_models", JArr (take 1 (models x s)))])), x)
    | None => (refused, x)
    end
  else match at_store path_of url x with
       | Some s => let i := model_id s x in
           match stored i b with
           | Some m' => ((201%Z, Some (JObj [("authorization_model_id", JStr i)])), MkState (st_names x) (<[s := m' :: models x s]> (st_models x)))
           | None => (refused, x)
           end
       | None => (refused, x)
       end.

#[local] Instance server : FgaServer State := {| fga_http method url _ b x :=
  let '(r, x') := serve method url (default JNull b) x in (Ok r, x') |}.

Lemma at_store_in path s x :
  s ∈ (stores x).*1 → (∀ a b, path a = path b → a = b) → at_store path (path s) x = Some s.
Proof.
  intros Hin Hinj. unfold at_store. induction (stores x).*1 as [|a l IH]; [by apply not_elem_of_nil in Hin|]. cbn.
  case_decide as Hd; [cbn; by rewrite (Hinj _ _ Hd)|]. apply IH. apply elem_of_cons in Hin as [->|]; done.
Qed.

Lemma path_of_inj a b : path_of a = path_of b → a = b.
Proof. by intros H%string_app_inv_l%Ids.string_app_inj_tail. Qed.
Lemma latest_inj a b : latest_of a = latest_of b → a = b.
Proof. by intros H%string_app_inv_l%Ids.string_app_inj_tail%Ids.string_app_inj_tail. Qed.

Lemma dec_all_map {A} (dec : json → res A) (f : A → json) l : (∀ a, dec (f a) = Ok a) → dec_all dec (f <$> l) = Ok l.
Proof. intros H. induction l as [|a l IH]; [done|]. cbn. by rewrite H, IH. Qed.

Lemma dec_list_of {A} (dec : json → res A) (f : A → json) k l :
  EqualFold k k = true → (∀ a, dec (f a) = Ok a) → dec_list dec k (JObj [(k, JArr (f <$> l))]) = Ok l.
Proof. intros Hk H. unfold dec_list, dec_ref. cbn. rewrite Hk. unfold as_list_of. cbn. by rewrite dec_all_map. Qed.

Lemma serve_latest s b x : s ∈ (stores x).*1 →
  serve "GET" (latest_of s) b x = ((200%Z, Some (JObj [("authorization_models", JArr (take 1 (models x s)))])), x).
Proof.
  intros Hin. unfold serve. rewrite (bool_decide_eq_false_2 (latest_of s = _)) by done. rewrite bool_decide_eq_true_2 by done.
  by rewrite at_store_in by (done || apply latest_inj).
Qed.

Lemma serve_model s b m' x : s ∈ (stores x).*1 → stored (model_id s x) b = Some m' →
  serve "POST" (path_of s) b x = ((201%Z, Some (JObj [("authorization_model_id", JStr (model_id s x))])),
                                  MkState (st_names x) (<[s := m' :: models x s]> (st_models x))).
Proof.
  intros Hin Hm. unfold serve. rewrite (bool_decide_eq_false_2 (path_of s = _)) by done. rewrite bool_decide_eq_false_2 by done.
  rewrite at_store_in by (done || apply path_of_inj). by rewrite Hm.
Qed.

Lemma stored_of i m :
  accepted m → ∃ m', stored i m = Some m' ∧ dec_string "id" m' = Ok i ∧ modelContent m' = modelContent m.
Proof.
  unfold accepted, stored, modelContent. destruct (dec_string "schema_version" m) as [v|], (raw_field "type_definitions" m) as [td|];
    intros [? [=]]. eexists. by split_and!.
Qed.

Lemma store_api : StoreApi "http://fga" "key" accepted stores models.
Proof.
  split.
  - intros x i n (k&m&[= -> ->]&_)%elem_of_lookup_imap. done.
  - intros x. eexists. split; [reflexivity|]. apply (dec_list_of _ json_store); [reflexivity|by intros []].
  - intros n x. eexists _, (id_of (length (st_names x))), _. split; [reflexivity|]. split; [done|]. split.
    + unfold stores. cbn. rewrite imap_app. cbn. by rewrite Nat.add_0_r.
    + unfold models. cbn. by rewrite lookup_insert_eq.
  - intros s x Hin. eexists. split.
    + change (fga_http _ _ _ _ x) with (let '(r, x') := serve "GET" (latest_of s) JNull x in (Ok r : res (Z * option json), x')).
      by rewrite serve_latest.
    + rewrite <- (list_fmap_id (take 1 (models x s))) at 1. apply (dec_list_of Ok id); [reflexivity|done].
  - intros s m x Hin Ha. destruct (stored_of (model_id s x) m Ha) as (m'&E&Hi&Hc).
    eexists _, (model_id s x), m', _. split.
    + change (fga_http _ _ _ _ x) with (let '(r, x') := serve "POST" (path_of s) m x in (Ok r : res (Z * option json), x')).
      by rewrite (serve_model s m m').
    + split_and!; [done|done|done|done|unfold models; cbn; by rewrite lookup_insert_eq|done].
Qed.

(** The models of the control plane: only a user can be an operator, or a group as well. *)
Definition operator_model (types : list string) : json :=
  JObj [("schema_version", JStr "1.1"); ("type_definitions", JArr [
    JObj [("type", JStr "user")]; JObj [("type", JStr "group")];
    JObj [("type", JStr "platform"); ("relations", JObj [("operator", JObj [("this", JObj [])])]);
          ("metadata", JObj [("relations", JObj [("operator", JObj [("directly_related_user_types",
             JArr ((λ t, JObj [("type", JStr t)]) <$> types))])])])]])].
Definition booted (types : list string) (x : State) : res Client * State :=
  Fga.Connect "http://fga" "peristera" (operator_model types) "key" x.

Lemma connect_idempotent_witness :
  StoreApi "http://fga" "key" accepted stores models ∧ accepted (operator_model ["user"]) ∧
  ∃ s i x', booted ["user"] (MkState ["other"] ∅) = (Ok (MkClient "http://fga" s i "key"), x') ∧
    booted ["user"] x' = (Ok (MkClient "http://fga" s i "key"), x').
Proof.
  assert (accepted (operator_model ["user"])) as Ha by (vm_compute; eauto).
  split; [exact store_api|]. split; [exact Ha|].
  destruct (@connect_idempotent State server "http://fga" "key" accepted stores models store_api "peristera"
    (operator_model ["user"]) (MkState ["other"] ∅) Ha) as (s&i&x'&E&_&_&E'). by exists s, i, x'.
Defined.

(** A changed model is installed when its relations change, but not when only the types
    allowed in them do: those are written under "metadata", which the comparison drops, so
    a boot with a tightened model keeps the looser one in force. *)
Example changed_restrictions_not_installed :
  let x := (booted ["user"; "group"] (MkState [] ∅)).2 in
  booted ["user"] x = (Ok (MkClient "http://fga" "s0" "m0" "key"), x) ∧
  modelContent (operator_model ["user"]) = modelContent (operator_model ["user"; "group"]) ∧
  operator_model ["user"] ≠ operator_model ["user"; "group"] ∧
  (Fga.Connect "http://fga" "peristera" (JObj [("schema_version", JStr "1.2")]) "key" x).1 = Ok (MkClient "http://fga" "s0" "m1" "key").
Proof. vm_compute. split_and!; try reflexivity. intros [=]. Qed.
End StoreDemo.
