(* ===== verification/FgaModels.v ===== *)
(** * FgaModels: the authorization models the programs install
    (kamara/cmd/kamara/main.go, ergonomos/cmd/ergonomos/main.go,
    control-plane/internal/server/auth.go)

    The three models as the programs send them, and who they let in.  OpenFGA evaluates
    them: [grants] is its documented meaning of a model over a set of tuples, and
    [FgaFollows] says that checks are answered by it.  Under Kamara's model access is
    ownership of the object or of a folder above it, so the tuples an upload and a move
    write decide exactly who can reach a file. *)

From S2P Require Import Prelude GoText World Pii Pseudonym Conventions Authz ChunkCrypto Chunker Engine Http Json Repo FileService FolderService.
From S2P Require Import Cluster Zitadel Server ServerUi Fga.
Import Pii.

(** ** The models *)
Definition user_only : json := JObj [("directly_related_user_types", JArr [JObj [("type", JStr "user")]])].
Definition folder_only : json := JObj [("directly_related_user_types", JArr [JObj [("type", JStr "kamara/folder")]])].
Definition this : json := JObj [("this", JObj [])].

(** A folder and a file: owner, parent, and access by either. *)
Definition kamara_type (name : string) : json :=
  JObj [("type", JStr name);
    ("relations", JObj [
       ("owner", this);
       ("parent", this);
       ("can_access", JObj [("union", JObj [("child", JArr [
          JObj [("computedUserset", JObj [("relation", JStr "owner")])];
          JObj [("tupleToUserset", JObj [("tupleset", JObj [("relation", JStr "parent")]);
                                         ("computedUserset", JObj [("relation", JStr "can_access")])])]])])])]);
    ("metadata", JObj [("relations", JObj [("owner", user_only); ("parent", folder_only)])])].

Definition kamara_fgaModel : json :=
  JObj [("schema_version", JStr "1.1");
        ("type_definitions", JArr [JObj [("type", JStr "user")]; kamara_type "kamara/folder"; kamara_type "kamara/file"])].

(** A type whose only relation is direct. *)
Definition direct_type (name rel : string) : json :=
  JObj [("type", JStr name); ("relations", JObj [(rel, this)]); ("metadata", JObj [("relations", JObj [(rel, user_only)])])].

Definition ergonomos_fgaModel : json :=
  JObj [("schema_version", JStr "1.1");
        ("type_definitions", JArr [JObj [("type", JStr "user")]; direct_type "ergonomos/task" "owner"])].

Definition operatorModel : json :=
  JObj [("schema_version", JStr "1.1");
        ("type_definitions", JArr [JObj [("type", JStr "user")]; direct_type "platform" "operator"])].

(** ** What a model means *)
Definition field (k : string) (j : json) : option json :=
  match j with JObj l => snd <$> find (λ kv, bool_decide (kv.1 = k)) l | _ => None end.
Definition text (j : option json) : string := match j with Some (JStr s) => s | _ => "" end.
Definition items (j : option json) : list json := match j with Some (JArr l) => l | _ => [] end.

(** The type of "type:id". *)
Definition type_of (o : string) : string := default "" (fst <$> cut_byte ":"%char o).

Definition type_def (m : json) (typ : string) : option json :=
  find (λ d, bool_decide (text (field "type" d) = typ)) (items (field "type_definitions" m)).

(** The definition of a relation, and the types its tuples may start from. *)
Definition relation_of (m : json) (typ rel : string) : option json :=
  d ← type_def m typ; rs ← field "relations" d; field rel rs.
Definition direct_types (m : json) (typ rel : string) : list string :=
  (λ t, text (field "type" t)) <$>
    items (d ← type_def m typ; md ← field "metadata" d; rs ← field "relations" md; r ← field rel rs; field "directly_related_user_types" r).

Section meaning.
Context (m : json) (T : gset fga_tuple).

(** A tuple counts when its user has a type the relation allows. *)
Definition valid_tuple (u rel o : string) : Prop := (u, rel, o) ∈ T ∧ type_of u ∈ direct_types m (type_of o) rel.

(** OpenFGA, "Configuration language": a relation holds by its definition, which is a
    direct tuple, another relation of the object, a relation of an object it points to, or
    one of several. *)
Inductive grants : string → string → string → Prop :=
  | grants_relation u rel o def : relation_of m (type_of o) rel = Some def → holds def u rel o → grants u rel o
with holds : json → string → string → string → Prop :=
  | holds_this x u rel o : valid_tuple u rel o → holds (JObj [("this", x)]) u rel o
  | holds_computed r u rel o : grants u r o → holds (JObj [("computedUserset", JObj [("relation", JStr r)])]) u rel o
  | holds_from ts r p u rel o : valid_tuple p ts o → grants u r p →
      holds (JObj [("tupleToUserset", JObj [("tupleset", JObj [("relation", JStr ts)]);
                                            ("computedUserset", JObj [("relation", JStr r)])])]) u rel o
  | holds_union cs c u rel o : c ∈ cs → holds c u rel o → holds (JObj [("union", JObj [("child", JArr cs)])]) u rel o.
End meaning.

Scheme grants_min := Minimality for grants Sort Prop
  with holds_min := Minimality for holds Sort Prop.
Combined Scheme grants_holds_ind from grants_min, holds_min.

Class FgaFollows {F : OpenFGA} (m : json) : Prop :=
  follows_model : ∀ T u rel o, fga_check T (u, rel, o) = true ↔ grants m T u rel o.

(** ** Lemmas *)
Lemma type_of_Obj typ i : contains_byte ":"%char typ = false → type_of (Obj typ i) = typ.
Proof. intros H. unfold type_of, Obj. change (":" +:+ i) with (String ":"%char i). by rewrite cut_byte_app. Qed.

Lemma type_of_user (s : Subject) : type_of (OpenFGAObject s) = "user".
Proof. exact (type_of_Obj "user" (subject_string s) eq_refl). Qed.
Lemma type_of_file i : type_of (obj i) = Type_.
Proof. by apply type_of_Obj. Qed.
Lemma type_of_folder i : type_of (folderObj i) = FolderType.
Proof. by apply type_of_Obj. Qed.

(** A relation defined as "this" is its tuples. *)
Lemma grants_direct m T u rel o :
  relation_of m (type_of o) rel = Some this → grants m T u rel o ↔ valid_tuple m T u rel o.
Proof.
  intros Hr. split.
  - inversion 1 as [? ? ? def Hd Hh]; subst. rewrite Hr in Hd. injection Hd as <-. by inversion Hh; subst.
  - intros H. eapply grants_relation; [exact Hr|]. by constructor.
Qed.

(** ** Direct models *)
Lemma user_of_type (s : Subject) (l : list string) : "user" ∈ l → type_of (OpenFGAObject s) ∈ l.
Proof. by rewrite type_of_user. Qed.

Lemma direct_check {F : OpenFGA} m T rel o (s : Subject) :
  FgaFollows m → relation_of m (type_of o) rel = Some this → "user" ∈ direct_types m (type_of o) rel →
  fga_check T (tuple s rel o) = true ↔ tuple s rel o ∈ T.
Proof.
  intros HF Hr Hu. unfold tuple, rawTuple. rewrite follows_model, grants_direct by done.
  unfold valid_tuple. split; [by intros [? _]|]. split; [done|by apply user_of_type].
Qed.

(** Tasks: the owner.  The control plane: the operators that were seeded. *)
Lemma task_owner_direct {F : OpenFGA} T (s : Subject) i :
  FgaFollows ergonomos_fgaModel →
  fga_check T (tuple s "owner" (Obj "ergonomos/task" i)) = true ↔ tuple s "owner" (Obj "ergonomos/task" i) ∈ T.
Proof. intros HF. apply (direct_check _ _ _ _ _ HF); rewrite type_of_Obj by done; [reflexivity|vm_compute; left]. Qed.

Lemma operators_direct {F : OpenFGA} : FgaFollows operatorModel → direct_operators.
Proof. intros HF T s. apply (direct_check _ _ _ _ _ HF); [reflexivity|vm_compute; left]. Qed.

(** When the control plane starts, every configured subject passes the operator check,
    and no tuple but theirs was added. *)
Corollary configured_operators_admitted {ZS : Type} {Zd : ZitadelServer ZS} {F : OpenFGA} cfg zc (w w' : world (CP ZS)) clientID :
  OpenFGAOk → FgaFollows operatorModel → cp_start cfg zc w = (Ok clientID, w') →
  (∀ sub, sub ∈ sc_OperatorSubs cfg → fga_check (w_fga w') (operator_tuple cfg sub) = true) ∧
  w_fga w' = list_to_set (operator_tuple cfg <$> sc_OperatorSubs cfg) ∪ w_fga w.
Proof. intros HO HF. apply start_seeds_operators; [done|]. by apply operators_direct. Qed.

(** ** Kamara's model *)
Definition kamara_object (o : string) : Prop := type_of o = Type_ ∨ type_of o = FolderType.

(** Ownership of the object, or of a folder above it. *)
Inductive inherits (T : gset fga_tuple) (u : string) : string → Prop :=
  | inh_owner o : (u, Relation, o) ∈ T → inherits T u o
  | inh_parent o p : (p, ParentRelation, o) ∈ T → type_of p = FolderType → inherits T u p → inherits T u o.

(** The definition of access, and its two ways in. *)
Definition own_way : json := JObj [("computedUserset", JObj [("relation", JStr Relation)])].
Definition parent_way : json :=
  JObj [("tupleToUserset", JObj [("tupleset", JObj [("relation", JStr ParentRelation)]);
                                 ("computedUserset", JObj [("relation", JStr AccessRelation)])])].
Definition access_def : json := JObj [("union", JObj [("child", JArr [own_way; parent_way])])].

Lemma kamara_table o rel : kamara_object o →
  relation_of kamara_fgaModel (type_of o) rel =
  if bool_decide (Relation = rel) then Some this else if bool_decide (ParentRelation = rel) then Some this
  else if bool_decide (AccessRelation = rel) then Some access_def else None.
Proof.
  intros [-> | ->].
  all: match goal with |- relation_of ?m ?t _ = _ =>
         change (relation_of m t rel) with (field rel (JObj [(Relation, this); (ParentRelation, this); (AccessRelation, access_def)])) end.
  all: unfold field; cbn [find fst]; by repeat case_bool_decide.
Qed.

Lemma kamara_type_def typ :
  type_def kamara_fgaModel typ =
  if bool_decide ("user" = typ) then Some (JObj [("type", JStr "user")])
  else if bool_decide (FolderType = typ) then Some (kamara_type FolderType)
  else if bool_decide (Type_ = typ) then Some (kamara_type Type_) else None.
Proof. reflexivity. Qed.

Lemma relation_of_kamara o rel def :
  relation_of kamara_fgaModel (type_of o) rel = Some def ↔
  kamara_object o ∧ ((rel = Relation ∨ rel = ParentRelation) ∧ def = this ∨ rel = AccessRelation ∧ def = access_def).
Proof.
  assert (kamara_object o → relation_of kamara_fgaModel (type_of o) rel = Some def ↔
    (rel = Relation ∨ rel = ParentRelation) ∧ def = this ∨ rel = AccessRelation ∧ def = access_def) as Hr.
  { intros Ho. rewrite kamara_table by done. repeat case_bool_decide; subst; split;
      first [by intros [= <-]; auto|intros [[[?|?] ->]|[? ->]]; first [done|congruence|exfalso; congruence]]. }
  split; [|intros [Ho H]; by apply Hr]. intros H. assert (kamara_object o) as Ho; [|split; [done|by apply Hr]].
  unfold kamara_object. revert H. unfold relation_of. rewrite kamara_type_def.
  repeat case_bool_decide; [intros [=]|auto..|intros [=]].
Qed.

Lemma direct_types_kamara o : kamara_object o →
  direct_types kamara_fgaModel (type_of o) Relation = ["user"] ∧ direct_types kamara_fgaModel (type_of o) ParentRelation = [FolderType].
Proof. by intros [-> | ->]. Qed.

Lemma valid_owner T u o : kamara_object o →
  valid_tuple kamara_fgaModel T u Relation o ↔ (u, Relation, o) ∈ T ∧ type_of u = "user".
Proof. intros Ho. unfold valid_tuple. by rewrite (proj1 (direct_types_kamara o Ho)), list_elem_of_singleton. Qed.

Lemma valid_parent T p o : kamara_object o →
  valid_tuple kamara_fgaModel T p ParentRelation o ↔ (p, ParentRelation, o) ∈ T ∧ type_of p = FolderType.
Proof. intros Ho. unfold valid_tuple. by rewrite (proj2 (direct_types_kamara o Ho)), list_elem_of_singleton. Qed.

Lemma grants_owner T u o : kamara_object o →
  grants kamara_fgaModel T u Relation o ↔ (u, Relation, o) ∈ T ∧ type_of u = "user".
Proof. intros Ho. rewrite <- valid_owner by done. apply grants_direct, relation_of_kamara. auto. Qed.

Lemma grants_parent T p o : kamara_object o →
  grants kamara_fgaModel T p ParentRelation o ↔ (p, ParentRelation, o) ∈ T ∧ type_of p = FolderType.
Proof. intros Ho. rewrite <- valid_parent by done. apply grants_direct, relation_of_kamara. auto. Qed.

Lemma inherits_grants T u o :
  type_of u = "user" → inherits T u o → kamara_object o → grants kamara_fgaModel T u AccessRelation o.
Proof.
  intros Hu. induction 1 as [o Ho|o p Hp Ht _ IH]; intros Hk; (eapply grants_relation; [apply relation_of_kamara; eauto|]).
  - eapply holds_union; [left|]. constructor. by apply grants_owner.
  - eapply holds_union; [right; left|]. apply (holds_from _ _ _ _ p); [by apply valid_parent|]. apply IH. by right.
Qed.

Lemma grants_inherits_ind T :
  (∀ u rel o, grants kamara_fgaModel T u rel o → kamara_object o ∧ (rel = AccessRelation → type_of u = "user" ∧ inherits T u o)) ∧
  (∀ def u rel o, holds kamara_fgaModel T def u rel o →
     kamara_object o → def = access_def ∨ def = own_way ∨ def = parent_way → type_of u = "user" ∧ inherits T u o).
Proof.
  apply grants_holds_ind.
  - intros u rel o def Hd _ IH. apply relation_of_kamara in Hd as [Ho Hd]. split; [done|]. intros ->.
    destruct Hd as [[[[=]|[=]] _]|[_ ->]]. auto.
  - intros x u rel o _ _ [[=]|[[=]|[=]]].
  - intros r u rel o Hg _ Ho [[=]|[[= ->]|[=]]]. apply grants_owner in Hg as [Hg Hu]; [|done]. split; [done|by apply inh_owner].
  - intros ts r p u rel o Hv _ [_ IH] Ho [[=]|[[=]|[= -> ->]]].
    apply valid_parent in Hv as [Hp Ht]; [|done]. destruct (IH eq_refl) as [Hu Hi]. split; [done|by eapply inh_parent].
  - intros cs c u rel o Hc _ IH Ho [[= ->]|[[=]|[=]]]. apply IH; [done|]. set_solver.
Qed.

Lemma grants_access T u o :
  grants kamara_fgaModel T u AccessRelation o ↔ kamara_object o ∧ type_of u = "user" ∧ inherits T u o.
Proof.
  split; [|intros (?&?&?); by apply inherits_grants].
  intros H. destruct (proj1 (grants_inherits_ind T) _ _ _ H) as [Ho Hi]. split; [done|auto].
Qed.

Lemma can_access_iff {F : OpenFGA} T (s : Subject) o :
  FgaFollows kamara_fgaModel → kamara_object o →
  fga_check T (tuple s AccessRelation o) = true ↔ inherits T (OpenFGAObject s) o.
Proof.
  intros HF Ho. unfold tuple, rawTuple. rewrite follows_model, grants_access, type_of_user. naive_solver.
Qed.

(** ** Who reaches a file *)

(** The tuples of a file that has this owner and lies in this folder, and no others. *)
Definition filed (T : gset fga_tuple) (owner : Subject) (folder : option string) (i : string) : Prop :=
  ∀ x rel, (x, rel, obj i) ∈ T ↔
    (x = OpenFGAObject owner ∧ rel = Relation) ∨ (∃ f, folder = Some f ∧ x = folderObj f ∧ rel = ParentRelation).

Lemma inherits_filed T owner folder i u :
  filed T owner folder i →
  inherits T u (obj i) ↔ u = OpenFGAObject owner ∨ (∃ f, folder = Some f ∧ inherits T u (folderObj f)).
Proof.
  intros Hf. split.
  - inversion 1 as [? Ho|? p Hp Ht Hi]; subst.
    + apply Hf in Ho as [[-> _]|(f&_&_&[=])]. by left.
    + apply Hf in Hp as [[_ [=]]|(f&->&->&_)]. right. eauto.
  - intros [-> | (f&->&Hi)].
    + apply inh_owner, Hf. by left.
    + eapply inh_parent; [|apply type_of_folder|exact Hi]. apply Hf. right. eauto.
Qed.

(** Tuples on files do not give access to folders. *)
Definition same_folders (T T' : gset fga_tuple) : Prop :=
  ∀ x rel o, type_of o = FolderType → (x, rel, o) ∈ T ↔ (x, rel, o) ∈ T'.

Lemma same_folders_inherits T T' u o :
  same_folders T T' → type_of o = FolderType → inherits T u o → inherits T' u o.
Proof.
  intros Hs Ht Hi. induction Hi as [o Ho|o p Hp Htp _ IH]; [apply inh_owner; by apply Hs|].
  eapply inh_parent; [by apply Hs|done|auto].
Qed.

Section files.
Context {Pr : Primitives} {P : Platform} {F : OpenFGA} {Mi : Mime} (s : Service).
Context (HO : OpenFGAOk).

(** *** The tuples of an upload and of a move *)
Lemma keeps_tuples_stmt {A} T (f : KDB → res (A * KDB)) : keeps (tuples_are T) (stmt f).
Proof. apply keeps_stmt; [apply tuples_stores_only|done]. Qed.

Lemma keeps_tuples_stmt_now {A} T (f : Z → KDB → res (A * KDB)) : keeps (tuples_are T) (stmt_now f).
Proof. apply keeps_bind; [apply keeps_gets|intros t]. apply keeps_tuples_stmt. Qed.

Lemma tuples_ignores_conv T : ignores_conv (D := KDB) (tuples_are T).
Proof. split; [apply tuples_stores_only|done]. Qed.

Lemma keeps_tuples_InTx {A} T (m : M KW A) : keeps (tuples_are T) m → keeps (tuples_are T) (InTx m).
Proof.
  intros Hm. pose proof (tuples_stores_only (D := KDB) T). unfold InTx.
  apply keeps_bind; [apply keeps_call; [done|apply keeps_ret]|intros _]. apply keeps_bind; [apply keeps_gets|intros d].
  apply keeps_bind; [by apply keeps_attempt|intros [a|e]].
  - apply keeps_bind; [by apply keeps_next_fault|intros []]; [apply keeps_ret| |apply keeps_throw].
    apply keeps_bind; [by intros w Hw|intros _; apply keeps_throw].
  - apply keeps_bind; [by intros w Hw|intros _; apply keeps_throw].
Qed.

#[local] Hint Resolve keeps_tuples_InTx keeps_tuples_stmt tuples_stores_only tuples_ignores_conv : go.

Lemma wrap_err_ok {A} msg (m : M KW A) w a w' : wrap_err msg m w = (Ok a, w') → m w = (Ok a, w').
Proof. unfold wrap_err. destruct (m w) as [[]]; congruence. Qed.

Lemma keeps_tuples_authorize T caller o : keeps (tuples_are T) (authorizeAccess caller o).
Proof. unfold authorizeAccess. keeps_tac. Qed.

Lemma keeps_tuples_Ingest T body : keeps (tuples_are (D := KDB) T) (Ingest (s_cipher s) body).
Proof. intros w Hw. destruct (Ingest_spec (s_cipher s) body w) as (l&o&_&(_&Hf&_)&_). unfold tuples_are in *. congruence. Qed.

Lemma keeps_tuples_manifest T verID idx refs : keeps (tuples_are T) (insert_manifest verID idx refs).
Proof. revert idx. induction refs as [|ref refs IH]; intros idx; cbn; [apply keeps_ret|]. repeat (apply keeps_bind; [apply keeps_tuples_stmt|intros _]). apply IH. Qed.

Lemma keeps_tuples_upload_tx T o verID refs : keeps (tuples_are T) (upload_tx o verID refs).
Proof.
  apply keeps_tuples_InTx. apply keeps_bind; [apply keeps_tuples_stmt|intros _]. apply keeps_bind; [|intros _].
  - apply keeps_bind; [apply keeps_attempt, keeps_tuples_stmt_now|intros r]. apply keeps_bind; [by apply keeps_lift|intros _]. apply keeps_tuples_manifest.
  - apply keeps_bind; [apply keeps_Emit|intros _; apply keeps_Feed]; apply tuples_ignores_conv.
Qed.

(** A step that keeps the tuples, and returned. *)
Lemma kept {A} (m : M KW A) w a w' : (∀ T, keeps (tuples_are T) m) → m w = (Ok a, w') → w_fga w' = w_fga w.
Proof. intros Hk E. specialize (Hk (w_fga w) w eq_refl). by rewrite E in Hk. Qed.

Definition parent_tuples (folder : option string) (child : string) : gset fga_tuple :=
  match folder with Some f => {[rawTuple (folderObj f) ParentRelation child]} | None => ∅ end.

Lemma write_parent msg folder child (w w' : KW) :
  match folder with
  | None => mret tt
  | Some f => wrap_err msg (WriteObjectTuple (folderObj f) ParentRelation child)
  end w = (Ok tt, w') → w_fga w' = parent_tuples folder child ∪ w_fga w.
Proof.
  destruct folder as [f|]; cbn.
  - intros E%wrap_err_ok%fga_update_ok. by apply fga_write_ok in E.
  - intros [= <-]. set_solver.
Qed.

Lemma Upload_tuples owner folder name body (w w' : KW) o :
  Upload s owner folder name body w = (Ok o, w') →
  w_fga w' = parent_tuples folder (obj (o_ID o)) ∪ ({[tuple owner Relation (obj (o_ID o))]} ∪ w_fga w).
Proof.
  unfold Upload. case_bool_decide; [done|]. intros ([]&w1&E1&E)%bind_ok_inv.
  assert (w_fga w1 = w_fga w) as F1.
  { refine (kept _ _ _ _ _ E1). intros T. destruct folder; [apply keeps_tuples_authorize|apply keeps_ret]. }
  apply bind_ok_inv in E as ([refs total]&w2&E2&E). pose proof (kept _ _ _ _ (λ T, keeps_tuples_Ingest T body) E2) as F2.
  unfold upload_commit in E. apply bind_ok_inv in E as (t&w3&E3&E). apply bind_ok_inv in E as (i&w4&E4&E).
  apply bind_ok_inv in E as (verID&w5&E5&E). apply bind_ok_inv in E as ([]&w6&E6&E). apply bind_ok_inv in E as ([]&w7&E7&E).
  apply bind_ok_inv in E as ([]&w8&E8&E). injection E as <- <-. cbn [o_ID].
  apply write_parent in E8. apply wrap_err_ok, fga_update_ok, fga_write_ok in E7.
  pose proof (kept _ _ _ _ (λ T, keeps_tuples_upload_tx T _ _ _) E6) as F6.
  pose proof (kept _ _ _ _ (λ T, keeps_new_id _ (tuples_stores_only T)) E5) as F5.
  pose proof (kept _ _ _ _ (λ T, keeps_new_id _ (tuples_stores_only T)) E4) as F4.
  injection E3 as _ <-. rewrite E8, E7, F6, F5, F4, F2, F1. done.
Qed.

(** A file nobody has named yet, after its upload. *)
Lemma Upload_filed owner folder name body (w w' : KW) o :
  Upload s owner folder name body w = (Ok o, w') → (∀ x rel, (x, rel, obj (o_ID o)) ∉ w_fga w) →
  filed (w_fga w') owner folder (o_ID o) ∧ same_folders (w_fga w) (w_fga w').
Proof.
  intros ->%Upload_tuples Hnew. split.
  - intros x rel. specialize (Hnew x rel). unfold parent_tuples, tuple, rawTuple. destruct folder; set_solver.
  - intros x rel o' Ht. assert (o' ≠ obj (o_ID o)) by (intros ->; by rewrite type_of_file in Ht).
    unfold parent_tuples, tuple, rawTuple. destruct folder; set_solver.
Qed.

Lemma clear_parent_tuples folder child (w w' : KW) :
  match folder with
  | None => mret tt
  | Some f => wrap_err "file: clearing old parent tuple" (DeleteObjectTuple (folderObj f) ParentRelation child)
  end w = (Ok tt, w') → w_fga w' = w_fga w ∖ parent_tuples folder child.
Proof.
  destruct folder as [f|]; cbn.
  - intros E%wrap_err_ok%fga_update_ok. by apply fga_delete_ok in E.
  - intros [= <-]. set_solver.
Qed.

Lemma keeps_db_authorize d caller o : keeps (λ w : KW, w_db w = d) (authorizeAccess caller o).
Proof. unfold authorizeAccess. assert (stores_only (λ w : KW, w_db w = d)) by (intros w w' Hd _ <-; done). keeps_tac. Qed.

Lemma MoveFile_tuples caller i dest (w w' : KW) o :
  MoveFile caller i dest w = (Ok tt, w') → objects (w_db w) !! i = Some o →
  w_fga w' = parent_tuples dest (obj i) ∪ w_fga w ∖ parent_tuples (o_FolderID o) (obj i).
Proof.
  unfold MoveFile. intros ([]&w1&E1&E)%bind_ok_inv Ho. apply bind_ok_inv in E as ([]&w2&E2&E).
  apply bind_ok_inv in E as (o'&w3&E3&E).
  assert (w_fga w1 = w_fga w ∧ w_db w1 = w_db w) as [F1 D1].
  { split; [exact (kept _ _ _ _ (λ T, keeps_tuples_authorize T caller (obj i)) E1)|].
    pose proof (keeps_db_authorize (w_db w) caller (obj i) w eq_refl) as H. unfold authorize in E1. by rewrite E1 in H. }
  assert (w_fga w2 = w_fga w1 ∧ w_db w2 = w_db w1) as [F2 D2].
  { unfold authorize_dest, authorizeFolder in E2. destruct dest as [f|]; [|by injection E2 as <-].
    split; [exact (kept _ _ _ _ (λ T, keeps_tuples_authorize T caller (folderObj f)) E2)|].
    pose proof (keeps_db_authorize (w_db w1) caller (folderObj f) w1 eq_refl) as H. by rewrite E2 in H. }
  apply query_cases in E3 as (_&[= _ F3]&_&_&[[= Ho']|[=]]). rewrite D2, D1, Ho in Ho'. subst o'.
  apply bind_ok_inv in E as ([]&w4&E4&E). apply bind_ok_inv in E as ([]&w5&E5&E).
  apply write_parent in E. apply clear_parent_tuples in E5.
  assert (w_fga w4 = w_fga w3) as F4.
  { refine (kept _ _ _ _ _ E4). intros T. apply keeps_tuples_InTx. apply keeps_bind; [|intros _; apply keeps_Emit, tuples_ignores_conv].
    apply keeps_tuples_stmt_now. }
  by rewrite E, E5, F4, F3, F2, F1.
Qed.

Lemma MoveFile_filed caller i dest (w w' : KW) o :
  MoveFile caller i dest w = (Ok tt, w') → objects (w_db w) !! i = Some o →
  filed (w_fga w) (o_Owner o) (o_FolderID o) i →
  filed (w_fga w') (o_Owner o) dest i ∧ same_folders (w_fga w) (w_fga w').
Proof.
  intros E Ho Hf. rewrite (MoveFile_tuples _ _ _ _ _ _ E Ho). split.
  - intros x rel. specialize (Hf x rel). unfold parent_tuples, rawTuple in *.
    assert (Relation ≠ ParentRelation) as Hne by done.
    destruct dest as [d|], (o_FolderID o) as [f|]; rewrite ?elem_of_union, ?elem_of_difference, ?elem_of_singleton, ?elem_of_empty, Hf, ?pair_equal_spec;
      clear - Hne; revert Hne; generalize Relation ParentRelation (OpenFGAObject (o_Owner o)); naive_solver.
  - intros x rel o' Ht. assert (o' ≠ obj i) by (intros ->; by rewrite type_of_file in Ht).
    unfold parent_tuples, rawTuple. destruct dest, (o_FolderID o); set_solver.
Qed.

(** *** Access *)
Context (HF : FgaFollows kamara_fgaModel).

Definition may (T : gset fga_tuple) (u : Subject) (o : string) : Prop := fga_check T (tuple u AccessRelation o) = true.

Lemma may_filed T T' owner folder i u :
  filed T' owner folder i → same_folders T T' →
  may T' u (obj i) ↔ OpenFGAObject u = OpenFGAObject owner ∨ (∃ f, folder = Some f ∧ may T u (folderObj f)).
Proof.
  intros Hf Hs. unfold may. rewrite can_access_iff, (inherits_filed _ _ _ _ _ Hf) by (done || (left; apply type_of_file)).
  apply or_iff_compat_l. split; intros (f&->&Hi); exists f; (split; [done|]);
    rewrite can_access_iff in * by (done || (right; apply type_of_folder));
    (eapply same_folders_inherits; [|apply type_of_folder|exact Hi]); [|done].
  intros x rel o Ho. symmetry. by apply Hs.
Qed.

End files.

(** ** An evaluator of Kamara's model *)
Module Evaluator.
Lemma size_list_le (l : list string) : size (list_to_set l : gset string) ≤ length l.
Proof.
  induction l as [|x l IH]; cbn; [by rewrite size_empty|].
  rewrite size_union_alt, size_singleton. transitivity (1 + size (list_to_set l : gset string)); [|lia].
  apply Nat.add_le_mono_l, subseteq_size, subseteq_difference_l. done.
Qed.

Section reach.
Context (T : gset fga_tuple) (u : string).

(** The objects [u] owns, and those one step below. *)
Definition owned : gset string := set_map (λ t : fga_tuple, t.2) (filter (λ t : fga_tuple, t.1 = (u, Relation)) T).
Definition below (S : gset string) : gset string :=
  set_map (λ t : fga_tuple, t.2)
    (filter (λ t : fga_tuple, t.1.2 = ParentRelation ∧ type_of t.1.1 = FolderType ∧ t.1.1 ∈ S) T).

Fixpoint reach (n : nat) : gset string :=
  match n with O => owned | S n' => let R := reach n' in R ∪ below R end.

Lemma elem_of_owned_objects o : o ∈ owned ↔ (u, Relation, o) ∈ T.
Proof.
  unfold owned. rewrite elem_of_map. split.
  - intros ([[x rel] o']&->&[Ht Hin]%elem_of_filter). cbn in *. by simplify_eq.
  - intros Hin. exists (u, Relation, o). by rewrite elem_of_filter.
Qed.

Lemma elem_of_below S o : o ∈ below S ↔ ∃ p, (p, ParentRelation, o) ∈ T ∧ type_of p = FolderType ∧ p ∈ S.
Proof.
  unfold below. rewrite elem_of_map. split.
  - intros ([[p rel] o']&->&[(Hr&Ht&Hp) Hin]%elem_of_filter). cbn in *. subst rel. eauto.
  - intros (p&Hin&Ht&Hp). exists (p, ParentRelation, o). by rewrite elem_of_filter.
Qed.

Lemma reach_sound n o : o ∈ reach n → inherits T u o.
Proof.
  revert o. induction n as [|n IH]; intros o; cbn.
  - intros H%elem_of_owned_objects. by apply inh_owner.
  - rewrite elem_of_union, elem_of_below. intros [?|(p&Hp&Ht&Hin)]; [auto|]. eapply inh_parent; eauto.
Qed.

(** The objects of tuples: [reach] stays inside. *)
Definition objects_of : gset string := set_map (λ t : fga_tuple, t.2) T.

Lemma size_objects_of : size objects_of ≤ size T.
Proof.
  unfold objects_of, set_map. etrans; [apply size_list_le|]. by rewrite length_fmap.
Qed.

Lemma below_objects S : below S ⊆ objects_of.
Proof. intros o (p&Hp&_)%elem_of_below. apply elem_of_map. by exists (p, ParentRelation, o). Qed.

Lemma below_mono S S' : S ⊆ S' → below S ⊆ below S'.
Proof. intros H o (p&?&?&?)%elem_of_below. apply elem_of_below. exists p. auto. Qed.

Definition closed (n : nat) : Prop := below (reach n) ⊆ reach n.

Lemma closed_S n : closed n → closed (S n).
Proof. unfold closed. cbn. intros H. transitivity (below (reach n)); [apply below_mono|]; set_solver. Qed.

Lemma closed_le n m : n ≤ m → closed n → closed m.
Proof. induction 1; auto using closed_S. Qed.

(** Each round that is not the last adds an object. *)
Lemma closes k n : size (objects_of ∖ reach n) ≤ k → closed (n + k).
Proof.
  revert n. induction k as [|k IH]; intros n Hk.
  - apply (closed_le n); [lia|]. assert (objects_of ∖ reach n = ∅) as He by (apply leibniz_equiv, size_empty_iff; lia).
    intros o Ho%below_objects. set_solver.
  - destruct (decide (below (reach n) ⊆ reach n)) as [Hc|Hc]; [apply (closed_le n); [lia|done]|].
    replace (n + S k) with (S n + k) by lia. apply IH.
    assert (objects_of ∖ reach (S n) ⊂ objects_of ∖ reach n) as Hs; [|apply subset_size in Hs; lia].
    split; [cbn; set_solver|]. intros Hsub. apply Hc. intros o Ho. pose proof (below_objects _ _ Ho). cbn in Hsub.
    destruct (decide (o ∈ reach n)) as [|Hn]; [done|].
    assert (o ∈ objects_of ∖ (reach n ∪ below (reach n))) as [_ Hx]%elem_of_difference by (apply Hsub, elem_of_difference; done).
    destruct Hx. apply elem_of_union. by right.
Qed.

Lemma reach_complete o : inherits T u o → o ∈ reach (size T).
Proof.
  assert (closed (size T)) as Hc.
  { refine (closes (size T) 0 _ : closed (size T)). transitivity (size objects_of); [|apply size_objects_of]. apply subseteq_size, subseteq_difference_l. done. }
  induction 1 as [o Ho|o p Hp Ht _ IH].
  - assert (∀ n, owned ⊆ reach n) as Hn by (induction n; cbn; set_solver). by apply Hn, elem_of_owned_objects.
  - apply Hc, elem_of_below. eauto.
Qed.
End reach.

Definition is_object (o : string) : bool := bool_decide (type_of o = Type_) || bool_decide (type_of o = FolderType).
Definition check (T : gset fga_tuple) (t : fga_tuple) : bool :=
  let '(u, rel, o) := t in
  is_object o &&
  if bool_decide (rel = AccessRelation) then bool_decide (type_of u = "user") && bool_decide (o ∈ reach T u (size T))
  else if bool_decide (rel = Relation) then bool_decide (type_of u = "user") && bool_decide (t ∈ T)
  else if bool_decide (rel = ParentRelation) then bool_decide (type_of u = FolderType) && bool_decide (t ∈ T)
  else false.

#[local] Instance kamara_fga : OpenFGA := {|
  fga_check := check;
  fga_list T u rel typ := filter (λ o, type_of o = typ ∧ check T (u, rel, o) = true) (elements (objects_of T));
  fga_write := @fga_write owner_fga;
  fga_delete := @fga_delete owner_fga |}.

Lemma kamara_fga_ok : OpenFGAOk.
Proof. destruct owner_fga_ok. by split. Qed.

Lemma evaluates : FgaFollows kamara_fgaModel.
Proof.
  intros T u rel o. cbn. rewrite andb_true_iff. unfold is_object. rewrite orb_true_iff, !bool_decide_eq_true.
  change (_ ∨ _) with (kamara_object o).
  assert (grants kamara_fgaModel T u rel o → kamara_object o) as Hk by apply (proj1 (grants_inherits_ind T)).
  destruct (decide (rel = AccessRelation)) as [->|Ha]; [|rewrite (bool_decide_eq_false_2 (rel = AccessRelation)) by done].
  { rewrite (bool_decide_eq_true_2 (AccessRelation = AccessRelation)) by done. rewrite andb_true_iff, !bool_decide_eq_true, grants_access.
    split; [intros (?&?&?%reach_sound)|intros (?&?&?%reach_complete)]; auto. }
  destruct (decide (rel = Relation)) as [->|Ho]; [|rewrite (bool_decide_eq_false_2 (rel = Relation)) by done].
  { rewrite (bool_decide_eq_true_2 (Relation = Relation)) by done. rewrite andb_true_iff, !bool_decide_eq_true.
    split; [intros (?&?&?); by apply grants_owner|]. intros Hg. pose proof (Hk Hg). apply grants_owner in Hg as [? ?]; auto. }
  destruct (decide (rel = ParentRelation)) as [->|Hp]; [|rewrite (bool_decide_eq_false_2 (rel = ParentRelation)) by done].
  { rewrite (bool_decide_eq_true_2 (ParentRelation = ParentRelation)) by done. rewrite andb_true_iff, !bool_decide_eq_true.
    split; [intros (?&?&?); by apply grants_parent|]. intros Hg. pose proof (Hk Hg). apply grants_parent in Hg as [? ?]; auto. }
  split; [by intros [_ [=]]|]. inversion 1 as [? ? ? def Hd _]; subst. apply relation_of_kamara in Hd as [_ [[[?|?] _]|[? _]]]; done.
Qed.
End Evaluator.

(** ** A file in a shared folder, moved out of it *)
Module AccessDemo.
Import Evaluator.
#[local] Existing Instance toy_primitives.
#[local] Existing Instance counting_platform.
#[local] Existing Instance no_mime.
#[local] Existing Instance Evaluator.kamara_fga.

Definition bob : Subject := MkSubject "acme.example" "bob".
Definition id_of {A} (f : A → string) (r : res A) : string := match r with Ok a => f a | Err _ => "" end.

(** Two folders of the user's; the first is also open to Bob. *)
Definition run_a := CreateFolder demo_user None "shared" (boot kdb_empty).
Definition run_b := CreateFolder demo_user None "private" run_a.2.
Definition a : string := id_of f_ID run_a.1.
Definition b : string := id_of f_ID run_b.1.
Definition w0 : KW := set_fga ({[tuple bob Relation (folderObj a)]} ∪ w_fga run_b.2) run_b.2.

Definition upload := Upload demo_service demo_user (Some a) "a.txt" demo_body w0.
Definition file : Object := match upload.1 with Ok o => o | Err _ => MkObject "" demo_user "" 0 None "" 0 0 end.
Definition move := MoveFile demo_user (o_ID file) (Some b) upload.2.

Definition names (o : string) (T : gset fga_tuple) : bool := existsb (λ t : fga_tuple, bool_decide (t.2 = o)) (elements T).

Lemma names_false o T : names o T = false → ∀ x rel, (x, rel, o) ∉ T.
Proof.
  intros H x rel Hin. apply not_true_iff_false in H. destruct H. apply existsb_exists. exists (x, rel, o).
  rewrite bool_decide_eq_true, <- list_elem_of_In. split; [by apply elem_of_elements|done].
Qed.

Lemma unnamed : ∀ x rel, (x, rel, obj (o_ID file)) ∉ w_fga w0.
Proof. apply names_false. vm_compute. reflexivity. Qed.

End AccessDemo.
