(* ===== verification/ControllerMain.v ===== *)
(** * ControllerMain: the control-plane process
    (control-plane/cmd/controller/main.go and the credentials of
    control-plane/internal/zitadel/client.go)

    The configuration of the controller and of the server from the environment, the
    system user's key, and the token the client signs with it and keeps until two minutes
    before it ends.  The registration with the cluster's manager is not modelled. *)

From S2P Require Import Prelude GoText World Http Json Base64 Sha256 Cluster Naming Zitadel Server ServerUi Startup Forms Svcauth.

(** strings.TrimSpace is on ASCII white space; subjects are identifiers. *)
Definition splitList (v : string) : list string :=
  filter (λ p, p ≠ "") (TrimSpace <$> split_byte ","%char v).

Section main.
Context {AK : AppKeys} {JR : JsonPrinter}.

(** The client, with the system user's name and key. *)
Record SystemClient := MkSystemClient { sy_client : ZClient; sy_UserID : string; sy_key : PrivateKey }.

Definition NewFromKeyFile (read : string → res bytes) (baseURL userID keyPath : string) : res SystemClient :=
  match read keyPath with
  | Err e => Err e
  | Ok raw =>
      match pem_Decode (bytes_str raw) with
      | None => Err (ErrText ("no PEM block in " +:+ keyPath))
      | Some block =>
          match ParsePKCS8PrivateKey block with
          | Err e => Err (ErrWrap ("parsing " +:+ keyPath) e)
          | Ok None => Err (ErrText (keyPath +:+ " is not an RSA key"))
          | Ok (Some key) => Ok (MkSystemClient (MkZClient baseURL (negb (has_prefix baseURL "https://"))) userID key)
          end
      end
  end.

(** The token the client holds, and when it ends. *)
Record TokenState := MkTokenState { ts_token : string; ts_exp : Z }.
Definition no_token : TokenState := MkTokenState "" 0.

Definition dq : string := String "034"%char "".
Definition quoted (s : string) : string := dq +:+ s +:+ dq.
Definition system_header : bytes :=
  str_bytes ("{" +:+ quoted "alg" +:+ ":" +:+ quoted "RS256" +:+ "," +:+ quoted "typ" +:+ ":" +:+ quoted "JWT" +:+ "}").

Definition hour : Z := 3600 * 1000000000.
Definition two_minutes : Z := 2 * 60 * 1000000000.

Definition system_claims (c : SystemClient) (now : Z) : json :=
  JObj [("aud", JStr (zc_BaseURL (sy_client c))); ("exp", JNum (unix (now + hour))); ("iat", JNum (unix now));
        ("iss", JStr (sy_UserID c)); ("sub", JStr (sy_UserID c))].

(** The clock is read for the test and again for the token. *)
Definition bearer (c : SystemClient) (t1 t2 : Z) (st : TokenState) : string * TokenState :=
  if negb (bool_decide (ts_token st = "")) && (t1 <? ts_exp st - two_minutes)%Z then (ts_token st, st)
  else
    let head := base64url_encode system_header in
    let signing := head +:+ "." +:+ base64url_encode (json_marshal (system_claims c t2)) in
    let digest := Sha256.Sum256 (str_bytes signing) in
    let sig := SignPKCS1v15 (sy_key c) digest in
    let st' := MkTokenState (signing +:+ "." +:+ base64url_encode sig) (t2 + hour) in
    (ts_token st', st').

(** The environment of the controller: the reconciler, and with a key the client and the
    server. *)
Definition controller_wiring (e : Env) (read : string → res bytes) : res (Reconciler * option (SystemClient * ServerConfig)) :=
  let rec iam := MkReconciler iam
    (env e "TENANT_BASE_DOMAIN" "127.0.0.1.sslip.io") (env e "TENANT_EXTERNAL_PORT" "9080")
    (env e "IMAGE_PREFIX" "peristera-") (env e "IMAGE_TAG" "dev") (env e "TENANT_SCHEME" "http")
    (env e "TENANT_TLS_ISSUER" "") (env e "TENANT_TLS_ISSUER_HTTP01" "")
    (env e "ZITADEL_EXTERNAL_DOMAIN" "iam.127.0.0.1.sslip.io")
    (env e "BACKUP_BUCKET" "") (env e "BACKUP_ENDPOINT" "") (env e "BACKUP_S3_KEY_ID" "") (env e "BACKUP_S3_SECRET" "")
    (env e "BACKUP_REGION" "") (env e "BACKUP_AGE_RECIPIENT" "") (env e "BACKUP_HEARTBEAT_URL" "") in
  let keyPath := Getenv e "SYSTEM_USER_KEY" in
  if bool_decide (keyPath = "") then Ok (rec false, None)
  else
    let base := env e "ZITADEL_BASE_URL" "http://iam.127.0.0.1.sslip.io:9080" in
    match NewFromKeyFile read base (env e "SYSTEM_USER_ID" "admin-client") keyPath with
    | Err err => Err (ErrWrap "loading system user key" err)
    | Ok iam =>
        Ok (rec true, Some (iam, MkServerConfig (env e "CP_PUBLIC_URL" "http://localhost:8090") base
                                   (splitList (Getenv e "OPERATOR_SUBJECTS"))))
    end.

(** ** The token the provider is shown *)
Context {JP : JsonParser} {AKO : AppKeysOk} {JO : JsonTextOk}.

(** What the provider asks of a system user's token. *)
Definition system_accepted (c : SystemClient) (now : Z) (tok : string) : bool :=
  jwt_accepted (public (sy_key c)) (λ hj, bool_decide (dec_string "alg" hj = Ok "RS256")) (sy_UserID c) (zc_BaseURL (sy_client c)) now tok.

(** The client's state after calls whose clock readings do not go back. *)
Inductive used (c : SystemClient) : Z → TokenState → Prop :=
  | used_new t : (0 <= t)%Z → used c t no_token
  | used_call t t1 t2 st : used c t st → (t <= t1 <= t2)%Z → used c t2 (bearer c t1 t2 st).2.

(** The held token was signed at some time, and ends an hour later. *)
Definition held (c : SystemClient) (t : Z) (st : TokenState) : Prop :=
  ts_token st = "" ∨
  ∃ t0, (0 <= t0 <= t)%Z ∧ ts_exp st = (t0 + hour)%Z ∧
    ts_token st = signed (sy_key c) system_header (json_marshal (jwt_claims (sy_UserID c) (zc_BaseURL (sy_client c)) t0 3600)).

Lemma bearer_signs c t2 :
  signed (sy_key c) system_header (json_marshal (jwt_claims (sy_UserID c) (zc_BaseURL (sy_client c)) t2 3600)) =
  let signing := base64url_encode system_header +:+ "." +:+ base64url_encode (json_marshal (system_claims c t2)) in
  signing +:+ "." +:+ base64url_encode (SignPKCS1v15 (sy_key c) (Sha256.Sum256 (str_bytes signing))).
Proof. unfold signed, system_claims, hour. by rewrite unix_later. Qed.

Lemma used_time c t st : used c t st → (0 <= t)%Z.
Proof. induction 1; lia. Qed.

Lemma used_held c t st : used c t st → held c t st.
Proof.
  induction 1 as [t _|t t1 t2 st Hu IH Hle]; [by left|]. unfold bearer.
  destruct (_ && _); cbn [snd]; [destruct IH as [?|(t0&?&?&?)]; [by left|right; exists t0; split; [lia|done]]|].
  right. exists t2. pose proof (used_time _ _ _ Hu). split; [lia|]. rewrite bearer_signs. done.
Qed.

Lemma unix_before now t s : (now < t + s * 1000000000)%Z → (unix now <= unix t + s)%Z.
Proof. intros H. rewrite <- unix_later. apply Z.div_le_mono; lia. Qed.

(** Every call carries a good token: the one the client shows is accepted when it is
    shown and for almost two minutes after, however long the client has been running. *)
Theorem bearer_accepted c t t1 t2 st now' :
  json_parse system_header = Some (JObj [("alg", JStr "RS256"); ("typ", JStr "JWT")]) →
  Forall (λ s, Forms.Valid (str_bytes s) = true) [sy_UserID c; zc_BaseURL (sy_client c)] →
  used c t st → (t <= t1 <= t2)%Z → (t2 <= now' <= t1 + 119 * 1000000000)%Z → (unix t2 + 3600 < 2 ^ 63)%Z →
  system_accepted c now' (bearer c t1 t2 st).1 = true.
Proof.
  intros Hj Hv Hu Ht Hn Hmax. pose proof (used_time _ _ _ Hu) as H0. unfold system_accepted.
  assert (∃ t0, (0 <= t0 <= t2)%Z ∧ (now' < t0 + 3599 * 1000000000)%Z ∧ (bearer c t1 t2 st).1 =
    signed (sy_key c) system_header (json_marshal (jwt_claims (sy_UserID c) (zc_BaseURL (sy_client c)) t0 3600))) as (t0&Hle&Hlt&->).
  { unfold bearer. destruct (_ && _) eqn:E; cbn [fst].
    - apply andb_true_iff in E as [E1%negb_true_iff%bool_decide_eq_false E2%Z.ltb_lt].
      destruct (used_held _ _ _ Hu) as [?|(t0&Hle&He&->)]; [done|]. exists t0. unfold hour, two_minutes in *. split; [lia|]. split; [lia|done].
    - exists t2. rewrite bearer_signs. split; [lia|]. split; [lia|done]. }
  assert (unix t0 <= unix t2)%Z by (apply Z.div_le_mono; lia).
  rewrite (signed_accepted _ _ _ _ _ _ t0 now' 3600 Hj); [|by rewrite bool_decide_eq_true_2|done|lia..].
  apply Z.ltb_lt. pose proof (unix_before now' t0 3599 Hlt). lia.
Qed.
End main.

(** Operators are listed by commas; blanks around them and empty entries do not count. *)
Example split_operators : splitList " u1, u2 ,,u3" = ["u1"; "u2"; "u3"] ∧ splitList "" = [].
Proof. vm_compute. split; reflexivity. Qed.

(** ** The setting that permits delegation *)
Section impersonation.
Context {ZS : Type} {Zd : ZitadelServer ZS} {ST : ServerText}.

Definition EnableImpersonation (base : string) : M (world (CP ZS)) unit :=
  r ← attempt (do_unit "PUT" (base +:+ "/admin/v1/policies/security") "" (Some (JObj [("enableImpersonation", JBool true)])));
  match r with
  | Err e => if contains (error_text e) "No changes" then mret tt else throw e
  | Ok _ => mret tt
  end.

(** It can be repeated: an answer that says that nothing changed is a success, and no call
    touches the cluster. *)
Lemma EnableImpersonation_repeats base status body z (w : world (CP ZS)) :
  w_faults w = [] →
  z_http "PUT" (base +:+ "/admin/v1/policies/security") "" (Some (JObj [("enableImpersonation", JBool true)]))
    (w_now w) (cp_zitadel (w_db w)) = ((status, body), z) →
  (300 <= status)%Z → status ≠ 404%Z → contains (error_text (ErrAPI status (message_of body))) "No changes" = true →
  ∃ w', EnableImpersonation base w = (Ok tt, w') ∧ cp_tenants (w_db w') = cp_tenants (w_db w) ∧ cp_objects (w_db w') = cp_objects (w_db w).
Proof.
  intros Hf Hz Hs Hn Hc. unfold EnableImpersonation. rewrite run_bind. unfold attempt, do_unit. rewrite run_bind.
  unfold do. rewrite run_bind. unfold send. rewrite run_call_nil by done. rewrite Hz. cbn [fst snd].
  rewrite (proj2 (Z.eqb_neq _ _)), (proj2 (Z.leb_le _ _)) by done. cbn [throw fst snd]. rewrite Hc.
  eexists. by split_and!.
Qed.
End impersonation.
