(* ===== verification/Stub.v ===== *)
(** * Stub: the relying party every app copies (iam/cmd/stub/main.go)

    The stub logs a user in and shows who it is: the wiring of [main] and its four
    routes over the relying party.  The world's database is the relying party's memory.
    A page is here the data its template is given; Pages.v has the text. *)

From S2P Require Import Prelude GoText Ids World Url SessionStore Http Oidcrp Startup.

Record StubApp := MkStubApp { sb_issuer : string; sb_rp : Oidcrp.Config; sb_redirect : string; sb_addr : string }.

Definition publicURL (e : Env) : string := TrimSuffix (env e "PUBLIC_URL" "http://localhost:5556") "/".

Definition stub_wiring (e : Env) : res StubApp :=
  let issuer := env e "OIDC_ISSUER" "http://demo.127.0.0.1.sslip.io:9080" in
  if bool_decide (Getenv e "OIDC_CLIENT_ID" = "") then Err (ErrText "OIDC_CLIENT_ID is required")
  else Ok (MkStubApp issuer (Oidcrp.New (MkConfig issuer "" "" "stub_session" false 0)).1
             (publicURL e +:+ "/auth/callback") (env e "LISTEN_ADDR" ":5556")).

Inductive stub_answer :=
  | SbNone (status : Z)
  | SbLogin (r : Reply)
  | SbPage (issuer : string) (loggedIn : bool) (name email : string).

Section stub.
Context {I : IdP} {P : Platform} (a : StubApp).
Abbreviation W := (world Oidcrp.State).

Definition stub_event (e : event) : M W stub_answer := λ w,
  let '(rep, st) := handle (sb_rp a) (w_now w) e (w_db w) in (Ok (SbLogin rep), set_db st w).

(** The claims of no session are empty. *)
Definition stub_index (r : Request) : M W stub_answer := λ w,
  let '(sess, st) := Session_ (sb_rp a) (w_now w) r (w_db w) in
  let c := match sess with Some s => bs_Claims s | None => MkClaims "" "" "" end in
  (Ok (SbPage (sb_issuer a) (bool_decide (is_Some sess)) (c_Name c) (c_Email c)), set_db st w).

(** The four patterns of the mux, all for GET. *)
Inductive stub_route := SrIndex | SrLogin | SrCallback | SrLogout.
Definition stub_route_of (path : list string) : option stub_route :=
  match path with
  | [""] => Some SrIndex
  | ["auth"; "login"] => Some SrLogin
  | ["auth"; "callback"] => Some SrCallback
  | ["auth"; "logout"] => Some SrLogout
  | _ => None
  end.

Definition serve_stub (method : string) (path : list string) (r : Request) : M W stub_answer :=
  match stub_route_of path with
  | None => mret (SbNone 404)
  | Some rt =>
      if negb (match_method "GET" method) then mret (SbNone 405)
      else match rt with
           | SrIndex => stub_index r
           | SrLogin => rnd ← draw 16; vrnd ← draw 32; stub_event (ELogin rnd vrnd)
           | SrCallback => srnd ← draw 32; stub_event (ECallback srnd r)
           | SrLogout => stub_event (ELogout r)
           end
  end.

(** ** Who the page names *)

(** The event a request is to the relying party. *)
Definition stub_events (method : string) (path : list string) (r : Request) (w : W) : list (Z * event) :=
  match stub_route_of path with
  | Some rt =>
      if match_method "GET" method then
        [(w_now w, match rt with
                   | SrIndex => ESession r
                   | SrLogin => ELogin (rand_bytes (w_draws w) 16) (rand_bytes (S (w_draws w)) 32)
                   | SrCallback => ECallback (rand_bytes (w_draws w) 32) r
                   | SrLogout => ELogout r
                   end)]
      else []
  | None => []
  end.

(** The process after the requests it served, with their events. *)
Inductive stub_served : list (Z * event) → W → Prop :=
  | ss_start w : flow_inv (sb_rp a) [] (w_db w) → stub_served [] w
  | ss_wait L w w' : stub_served L w → w_db w' = w_db w → stub_served L w'
  | ss_request L w method path r : stub_served L w →
      stub_served (L ++ stub_events method path r w) (serve_stub method path r w).2.

Lemma serve_stub_flow method path r L (w : W) :
  flow_inv (sb_rp a) L (w_db w) →
  flow_inv (sb_rp a) (L ++ stub_events method path r w) (w_db (serve_stub method path r w).2).
Proof.
  intros H. unfold serve_stub, stub_events. destruct (stub_route_of path) as [rt|]; [|by rewrite app_nil_r].
  destruct (match_method "GET" method); cbn [negb]; [|by rewrite app_nil_r].
  destruct rt; rewrite ?run_bind; cbn [draw]; rewrite ?run_bind; cbn [draw].
  - unfold stub_index. pose proof (handle_inv (sb_rp a) L (w_db w) (w_now w) (ESession r) H) as Hi. cbn in Hi.
    destruct (Session_ (sb_rp a) (w_now w) r (w_db w)) as [o st]. exact Hi.
  - exact (handle_inv (sb_rp a) L (w_db w) (w_now w) (ELogin _ _) H).
  - unfold stub_event. cbn. pose proof (handle_inv (sb_rp a) L (w_db w) (w_now w) (ECallback (rand_bytes (w_draws w) 32) r) H) as Hi.
    cbn [handle] in Hi. by destruct (Callback _ _ _ _ _).
  - unfold stub_event. pose proof (handle_inv (sb_rp a) L (w_db w) (w_now w) (ELogout r) H) as Hi. by destruct (handle _ _ _ _).
Qed.

Lemma stub_served_inv L w : stub_served L w → flow_inv (sb_rp a) L (w_db w).
Proof. induction 1 as [w H|L w w' _ IH Hd|L w method path r _ IH]; [done|by rewrite Hd|by apply serve_stub_flow]. Qed.

(** The page names a user only for the session a login of the same browser opened, with
    the claims the provider vouched for, and before it ends. *)
Theorem stub_names_the_user L (w w' : W) method path r issuer name email :
  stub_served L w → serve_stub method path r w = (Ok (SbPage issuer true name email), w') →
  issuer = sb_issuer a ∧
  ∃ k e, rq_cookie r !! cfg_CookieName (sb_rp a) = Some k ∧ opened (sb_rp a) L k e ∧ (w_now w <= e_exp e)%Z ∧
    name = c_Name (bs_Claims (e_val e)) ∧ email = c_Email (bs_Claims (e_val e)).
Proof.
  intros Hs. apply stub_served_inv in Hs. unfold serve_stub. destruct (stub_route_of path) as [rt|]; [|done].
  destruct (match_method "GET" method); [|done]. cbn [negb]. destruct rt; rewrite ?run_bind; cbn [draw]; rewrite ?run_bind; cbn [draw];
    unfold stub_event; try (destruct (handle _ _ _ _); done).
  unfold stub_index. destruct (Session_ (sb_rp a) (w_now w) r (w_db w)) as [[x|] st] eqn:E; [|done].
  intros [= <- <- <- _]. split; [done|]. destruct (Session_opened _ _ _ _ _ _ _ Hs E) as (k&e&Hk&Ho&<-&He). exists k, e. done.
Qed.
End stub.

(** The cookies of the stub are not marked Secure, also when it is served over HTTPS. *)
Example stub_cookies_not_secure :
  let e : Env := list_to_map [("OIDC_CLIENT_ID", "c"); ("PUBLIC_URL", "https://stub.acme.example")] in
  match stub_wiring e with Ok a => cfg_Secure (sb_rp a) | Err _ => true end = false.
Proof. vm_compute. reflexivity. Qed.
