(* ===== verification/Boot.v ===== *)
(** * Boot: the processes of a tenant from their environment
    (the main functions of kamara/cmd/kamara, ergonomos/cmd/ergonomos and iam/cmd/stub,
    Open and Migrate of their stores, oidcrp.New)

    What a process opens before it serves: the database and its schema, OpenFGA with the
    process's authorization model, the blob directory, the identity provider.  A process
    that comes up is the one the theorems about its requests are stated for, and starting
    it again leaves OpenFGA as it is.  The database server, the migrations, the file system
    and the provider are parameters that answer or fail. *)

From S2P Require Import Prelude GoText Ids World Pii Authz ChunkCrypto Http Json Headers Api WopiHost SessionStore Forms Discovery Oidcrp Web Svcauth Startup KamaraMain ErgoWeb Fga FgaModels Stub.
Import Web.

Class Backing := {
  sql_open : string → res unit;        (* sql.Open for the driver pgx *)
  db_ping : string → res unit;         (* db.Ping *)
  goose_up : string → res unit;        (* goose.Up with the embedded migrations *)
  mkdir_all : string → res unit;       (* os.MkdirAll *)
  new_provider : string → res unit;    (* oidc.NewProvider *)
}.

Section boot.
Context {B : Backing} {X : Type} {FS : FgaServer X} {AK : AppKeys} {JP : JsonParser}.

(** store.Open and DB.Migrate, which the two stores share word by word. *)
Record DB := MkDB { db_dsn : string }.
Definition store_Open (dsn : string) : res DB :=
  _ ← sql_open dsn;
  match db_ping dsn with Err e => Err (ErrWrap "store: ping" e) | Ok _ => Ok (MkDB dsn) end.
Definition Migrate (d : DB) : res unit := goose_up (db_dsn d).

(** blob.NewFS *)
Definition NewFS (dir : string) : res string := _ ← mkdir_all dir; Ok dir.

(** oidcrp.New: [Oidcrp.New] is what follows the discovery. *)
Definition oidcrp_New (c : Config) : res (Config * State) :=
  match new_provider (cfg_Issuer c) with
  | Err e => Err (ErrWrap "oidcrp: discovery" e)
  | Ok _ => Ok (Oidcrp.New c)
  end.

(** How both apps begin. *)
Definition open_stores (e : Env) (name : string) (model : json) : M X Client :=
  dsn ← lift (mustEnv e "DATABASE_DSN");
  db ← wrap_err "database" (lift (store_Open dsn));
  wrap_err "migrations" (lift (Migrate db)) ;;
  url ← lift (mustEnv e "OPENFGA_API_URL");
  wrap_err "openfga" (Fga.Connect url name model (Getenv e "OPENFGA_API_TOKEN")).

(** The main functions, up to the listener: an error ends the process.  The wiring reads
    the environment again, and what of it can fail comes in the order of the source, but
    that Ergonomos discovers its provider before it reads the key of its exchanger. *)
Definition kamara_boot (e : Env) (read : string → res bytes) : M X (KamaraProc * Client) :=
  az ← open_stores e "kamara" kamara_fgaModel;
  dir ← lift (mustEnv e "KAMARA_BLOB_DIR");
  wrap_err "blob store" (lift (NewFS dir)) ;;
  p ← lift (kamara_wiring e read);
  wrap_err "oidc" (lift (oidcrp_New (wa_rp (kp_app p)))) ;;
  mret (p, az).

Definition ergonomos_boot (e : Env) (read : string → res bytes) : M X (ErgoApp * Client) :=
  az ← open_stores e "ergonomos" ergonomos_fgaModel;
  a ← lift (ergonomos_wiring e read);
  wrap_err "oidc" (lift (oidcrp_New (ea_rp a))) ;;
  mret (a, az).

Definition stub_boot (e : Env) : res StubApp :=
  a ← stub_wiring e;
  match oidcrp_New (sb_rp a) with Err err => Err (ErrWrap "oidcrp" err) | Ok _ => Ok a end.

(** ** Coming up *)

(** What of the backing is up: the database of [dsn] and the provider [issuer]. *)
Definition database_up (dsn : string) : Prop := sql_open dsn = Ok tt ∧ db_ping dsn = Ok tt ∧ goose_up dsn = Ok tt.

Lemma run_lift {A} (r : res A) (x : X) : lift r x = (r, x).
Proof. done. Qed.
Lemma run_wrapped {A} msg (m : M X A) (x : X) a x' : m x = (Ok a, x') → wrap_err msg m x = (Ok a, x').
Proof. intros H. unfold wrap_err. by rewrite H. Qed.

Lemma oidcrp_New_up c : new_provider (cfg_Issuer c) = Ok tt → oidcrp_New c = Ok (Oidcrp.New c).
Proof. intros H. unfold oidcrp_New. by rewrite H. Qed.

Lemma store_up dsn : database_up dsn → store_Open dsn = Ok (MkDB dsn) ∧ Migrate (MkDB dsn) = Ok tt.
Proof. intros (H1&H2&H3). unfold store_Open, Migrate, mbind, res_bind. by rewrite H1, H2. Qed.

Section up.
Context (e : Env) (read : string → res bytes).
Context (dsn url : string) (accepted : json → Prop).
Context (stores : X → list (string * string)) (models : X → string → list json).
Abbreviation token := (Getenv e "OPENFGA_API_TOKEN").
Context {SApi : StoreApi url token accepted stores models}.
Hypothesis dsn_given : mustEnv e "DATABASE_DSN" = Ok dsn.
Hypothesis url_given : mustEnv e "OPENFGA_API_URL" = Ok url.
Hypothesis up : database_up dsn.

(** The store of a process is there, with the model the process wants. *)
Definition installed (name : string) (model : json) (az : Client) (x : X) : Prop :=
  az = MkClient url (fc_storeID az) (fc_modelID az) token ∧
  store_of stores name x = Some (fc_storeID az) ∧ matching model (models x (fc_storeID az)) = Some (fc_modelID az).

Lemma open_stores_up name model (x : X) :
  accepted model → ∃ az x', open_stores e name model x = (Ok az, x') ∧ installed name model az x' ∧
    open_stores e name model x' = (Ok az, x').
Proof.
  intros Ha. destruct (store_up dsn up) as [Ho Hm].
  assert (∀ (x : X), open_stores e name model x = wrap_err "openfga" (Fga.Connect url name model token) x) as Hr.
  { intros y. unfold open_stores. rewrite run_bind, run_lift, dsn_given. rewrite run_bind, (run_wrapped _ _ _ _ _ (f_equal (λ r, (r, y)) Ho)).
    rewrite run_bind, (run_wrapped _ _ _ _ _ (f_equal (λ r, (r, y)) Hm)). by rewrite run_bind, run_lift, url_given. }
  destruct (connect_idempotent url token accepted stores models name model x Ha) as (s&i&x'&E1&Hs&Hi&E2).
  exists (MkClient url s i token), x'. rewrite !Hr. split_and!; [by apply run_wrapped|by split_and!|by apply run_wrapped].
Qed.

(** Over a database, an OpenFGA and a provider that answer, Kamara comes up as its wiring
    says, with its model installed; starting it again changes nothing. *)
Lemma kamara_comes_up p dir (x : X) :
  accepted kamara_fgaModel → mustEnv e "KAMARA_BLOB_DIR" = Ok dir → mkdir_all dir = Ok tt →
  kamara_wiring e read = Ok p → new_provider (cfg_Issuer (wa_rp (kp_app p))) = Ok tt →
  ∃ az x', kamara_boot e read x = (Ok (p, az), x') ∧ installed "kamara" kamara_fgaModel az x' ∧
    kamara_boot e read x' = (Ok (p, az), x').
Proof.
  intros Ha Hd Hm Hw Hp. destruct (open_stores_up "kamara" kamara_fgaModel x Ha) as (az&x'&E1&Hi&E2). exists az, x'.
  assert (NewFS dir = Ok dir) as Hfs by (unfold NewFS, mbind, res_bind; by rewrite Hm).
  assert (∀ y y', open_stores e "kamara" kamara_fgaModel y = (Ok az, y') → kamara_boot e read y = (Ok (p, az), y')) as H.
  { intros y y' E. unfold kamara_boot. rewrite run_bind, E, run_bind, run_lift, Hd.
    rewrite run_bind, (run_wrapped _ _ _ _ _ (f_equal (λ r, (r, y')) Hfs)). rewrite run_bind, run_lift, Hw.
    by rewrite run_bind, (run_wrapped _ _ _ _ _ (f_equal (λ r, (r, y')) (oidcrp_New_up _ Hp))). }
  split_and!; auto.
Qed.

Lemma ergonomos_comes_up a (x : X) :
  accepted ergonomos_fgaModel → ergonomos_wiring e read = Ok a → new_provider (cfg_Issuer (ea_rp a)) = Ok tt →
  ∃ az x', ergonomos_boot e read x = (Ok (a, az), x') ∧ installed "ergonomos" ergonomos_fgaModel az x' ∧
    ergonomos_boot e read x' = (Ok (a, az), x').
Proof.
  intros Ha Hw Hp. destruct (open_stores_up "ergonomos" ergonomos_fgaModel x Ha) as (az&x'&E1&Hi&E2). exists az, x'.
  assert (∀ y y', open_stores e "ergonomos" ergonomos_fgaModel y = (Ok az, y') → ergonomos_boot e read y = (Ok (a, az), y')) as H.
  { intros y y' E. unfold ergonomos_boot. rewrite run_bind, E, run_bind, run_lift, Hw.
    by rewrite run_bind, (run_wrapped _ _ _ _ _ (f_equal (λ r, (r, y')) (oidcrp_New_up _ Hp))). }
  split_and!; auto.
Qed.
End up.

(** A process that comes up, whatever failed before, is the one its wiring gives. *)
Lemma booted_is_wired e read (x x' : X) :
  (∀ p az, kamara_boot e read x = (Ok (p, az), x') → kamara_wiring e read = Ok p) ∧
  (∀ a az, ergonomos_boot e read x = (Ok (a, az), x') → ergonomos_wiring e read = Ok a) ∧
  (∀ a, stub_boot e = Ok a → stub_wiring e = Ok a).
Proof.
  split_and!.
  - intros p az (?&?&_&H)%bind_ok_inv. apply bind_ok_inv in H as (?&?&_&H). apply bind_ok_inv in H as (?&?&_&H).
    apply bind_ok_inv in H as (p'&y&[= H1 _]&H). apply bind_ok_inv in H as (?&?&_&H). by injection H as <- <- _.
  - intros a az (?&?&_&H)%bind_ok_inv. apply bind_ok_inv in H as (a'&y&[= H1 _]&H). apply bind_ok_inv in H as (?&?&_&H).
    by injection H as <- <- _.
  - intros a. unfold stub_boot, mbind, res_bind. destruct (stub_wiring e) as [a'|]; [|done]. destruct (oidcrp_New _); [|done]. by intros [= ->].
Qed.
End boot.

(** ** A boot over a fresh OpenFGA, twice, and one that finds its provider down *)
Module BootDemo.
Import StoreDemo.
#[local] Existing Instance server.
#[export] Instance backing : Backing := {| sql_open _ := Ok tt; db_ping _ := Ok tt; goose_up _ := Ok tt; mkdir_all _ := Ok tt; new_provider _ := Ok tt |}.
Definition provider_down : Backing := {| sql_open _ := Ok tt; db_ping _ := Ok tt; goose_up _ := Ok tt; mkdir_all _ := Ok tt; new_provider _ := Err ErrExternal |}.
Definition environment : Env := list_to_map [
  ("DATABASE_DSN", "dsn"); ("OPENFGA_API_URL", "http://fga"); ("OPENFGA_API_TOKEN", "key"); ("KAMARA_BLOB_DIR", "/blobs");
  ("OIDC_ISSUER", "https://idp.acme.example"); ("OIDC_CLIENT_ID", "kamara"); ("KAMARA_DEK", "0123456789abcdef0123456789abcdef")].
Definition no_files (path : string) : res bytes := Err ErrExternal.
Definition fresh : State := MkState ["other"] ∅.

Lemma kamara_comes_up_demo :
  ∃ p az x', kamara_boot environment no_files fresh = (Ok (p, az), x') ∧ kamara_boot environment no_files x' = (Ok (p, az), x') ∧
    st_names x' = ["other"; "kamara"].
Proof.
  destruct (kamara_wiring environment no_files) as [p|] eqn:Ep; [|vm_compute in Ep; discriminate].
  assert (accepted kamara_fgaModel) as Ha by (vm_compute; eauto).
  destruct (@kamara_comes_up backing State server environment no_files "dsn" "http://fga" accepted stores models store_api
    eq_refl eq_refl (conj eq_refl (conj eq_refl eq_refl)) p "/blobs" fresh Ha eq_refl eq_refl Ep eq_refl) as (az&x'&E1&_&E2).
  exists p, az, x'. split_and!; [exact E1|exact E2|].
  assert (Ok (st_names x') = Ok ["other"; "kamara"]) as [= ->]; [|reflexivity].
  transitivity (match kamara_boot environment no_files fresh with (Ok _, y) => Ok (st_names y) | (Err e, _) => Err e end);
    [by rewrite E1|vm_compute; reflexivity].
Qed.

(** OpenFGA is set up before the provider is asked. *)
Example provider_is_down :
  let r := @kamara_boot provider_down State server environment no_files fresh in
  is_ok r.1 = false ∧ st_names r.2 = ["other"; "kamara"].
Proof. vm_compute. done. Qed.
End BootDemo.
