(* ===== verification/Pages.v ===== *)
(** * Pages: the pages of the whole suite

    The templates of Ergonomos (ergonomos/internal/web/web.go), of the control plane's UI
    (control-plane/internal/server/ui.go) and of the stub (iam/cmd/stub/main.go) as they
    stand in the sources, with the data their handlers give them, and the claim about
    all pages, those of KamaraPages.v included: each renders, and a browser reads in it
    the template's tags, attributes and texts with the values in place.  The program that
    renders Ergonomos's page for the accessibility check is at the end. *)

From S2P Require Import Prelude GoText Ids World Pii Pseudonym Conventions Authz Chunker ChunkCrypto Blob Engine Repo FileService FolderService Wopi KamaraSafety Kamara Zip Url Http Json Headers Api WopiHost SessionStore Forms Discovery Oidcrp Web WebSafety Userinfo Dek Startup KamaraMain Task ErgoWeb Cluster Zitadel Server ServerUi Stub GoTemplate Html KamaraPages.
Import Pii.

(** Templates whose only function is the catalog. *)
Definition msg_funcs (catalog : list (string * string)) (f : string) (args : list value) : option value :=
  if bool_decide (f = "msg") then match args with [VStr k] => Some (VStr (lookup_msg catalog k)) | _ => None end else None.
Definition msg_funcs_ty (f : string) (ts : list ty) : option ty :=
  if bool_decide (f = "msg") then match ts with [TyStr] => Some TyStr | _ => None end else None.

#[export] Instance msg_funcs_ok catalog : FuncsOk (msg_funcs catalog) msg_funcs_ty.
Proof.
  split.
  - intros f ts t vs Ht Hv. unfold msg_funcs_ty, msg_funcs in *. destruct (bool_decide (f = "msg")); [|done].
    destruct ts as [|[] []]; try done. injection Ht as <-. typed_args Hv. inversion Hv0; subst. eauto with go.
  - intros f ts vs Ht Hb _. unfold builtin_ty in Hb. unfold msg_funcs.
    destruct (bool_decide_reflect (f = "msg")) as [->|]; [|done]. done.
Qed.

(** The escaped form of each of a set's templates. *)
Definition escape_all (ds : definitions) (names : list string) : list (string * list enode) :=
  (λ n, (n, default [] (@escape_template {| charref _ := [] |} ds n))) <$> names.
Definition escaped_in (l : list (string * list enode)) (name : string) : list enode :=
  match find (λ x, bool_decide (x.1 = name)) l with Some x => x.2 | None => [] end.

(** ** Ergonomos *)
Module Ergonomos.
Definition msg_catalog : list (string * string) :=
  [("title", "Ergonomos"); ("tasks", "Tasks"); ("add", "Add task"); ("new_placeholder", "What needs doing?");
   ("logout", "Log out"); ("done", "Done"); ("reopen", "Reopen"); ("delete", "Delete");
   ("empty", "No tasks yet.")].

Definition pageTmpl_text : string := "<!doctype html>
<html lang=`en`><head>
<meta charset=`utf-8`><meta name=`viewport` content=`width=device-width, initial-scale=1`>
<title>{{msg `title`}}</title>
<script src=`https://unpkg.com/htmx.org@2.0.4`></script>
<style>
 body{font-family:system-ui,sans-serif;margin:2rem auto;max-width:40rem;color:#1c1917}
 header{display:flex;justify-content:space-between;align-items:baseline}
 ul{list-style:none;padding:0} li{display:flex;gap:.5rem;align-items:center;padding:.4rem 0;border-bottom:1px solid #e7e5e4}
 li.done label{text-decoration:line-through;color:#57534e} li form{margin:0}
 .grow{flex:1} form.add{display:flex;gap:.5rem;margin-top:1rem}
 button{cursor:pointer} a{color:#0f766e}
</style></head>
<body>
<header><h1>{{msg `title`}}</h1><a href=`/auth/logout`>{{msg `logout`}}</a></header>
<main id=`tasks`>{{template `list` .}}</main>
<form class=`add` hx-post=`/tasks` hx-target=`#tasks` hx-swap=`innerHTML`>
 <input class=`grow` name=`title` placeholder=`{{msg `new_placeholder`}}` required aria-label=`{{msg `new_placeholder`}}`>
 <button type=`submit`>{{msg `add`}}</button>
</form>
</body></html>
{{define `list`}}
<h2>{{msg `tasks`}}</h2>
{{if not .Tasks}}<p>{{msg `empty`}}</p>{{end}}
<ul>
 {{range .Tasks}}
 <li{{if .Done}} class=`done`{{end}} id=`task-{{.ID}}`>
  <form hx-post=`/tasks/{{.ID}}/done` hx-target=`#tasks` hx-swap=`innerHTML`>
   <input type=`hidden` name=`done` value=`{{if .Done}}false{{else}}true{{end}}`>
   <button type=`submit` aria-label=`{{if .Done}}{{msg `reopen`}}{{else}}{{msg `done`}}{{end}}: {{.Title}}`>{{if .Done}}↺{{else}}✓{{end}}</button>
  </form>
  <label class=`grow`>{{.Title}}</label>
  <form hx-post=`/tasks/{{.ID}}/delete` hx-target=`#tasks` hx-swap=`innerHTML`>
   <button type=`submit` aria-label=`{{msg `delete`}}: {{.Title}}`>✕</button>
  </form>
 </li>
 {{end}}
</ul>
{{end}}".

Definition pageTmpl : definitions := Eval vm_compute in default [] (Parse "page" pageTmpl_text).
Lemma ergo_parsed : Parse "page" pageTmpl_text = Some pageTmpl.
Proof. vm_compute. reflexivity. Qed.
Definition template_names : list string := ["page"; "list"].
Definition escaped : list (string * list enode) := Eval vm_compute in escape_all pageTmpl template_names.

Definition task_value (t : Task) : value := VRec [("ID", VStr (t_ID t)); ("Title", VStr (t_Title t)); ("Done", VBool (t_Done t))].
Definition data_value (l : list Task) : value := VRec [("Tasks", VList (task_value <$> l))].
Definition data_ty : ty := TyRec [("Tasks", TyList (TyRec [("ID", TyStr); ("Title", TyStr); ("Done", TyBool)]))].

Definition execute (name : string) (l : list Task) : option bytes :=
  Execute (msg_funcs msg_catalog) (escaped_in escaped name) (data_value l).
Definition Page (l : list Task) : option bytes := execute "page" l.
Definition List_ (l : list Task) : option bytes := execute "list" l.

Lemma data_typed l : has_type (data_value l) data_ty.
Proof. typed_rec. constructor. apply Forall_fmap, Forall_true. intros t. typed_rec. Qed.
End Ergonomos.

(** ** The control plane *)
Module Operator.
Definition pageTmpl_text : string := "<!doctype html>
<html lang=`en`>
<head>
  <meta charset=`utf-8`>
  <meta name=`viewport` content=`width=device-width, initial-scale=1`>
  <title>{{msg `title`}}</title>
  <script src=`https://unpkg.com/htmx.org@2.0.4`></script>
  <style>
    body { font-family: system-ui, sans-serif; margin: 2rem auto; max-width: 60rem; }
    table { border-collapse: collapse; width: 100%; }
    th, td { text-align: left; padding: .5rem .75rem; border-bottom: 1px solid #ddd; }
    form.create { margin-top: 1.5rem; display: flex; gap: .5rem; }
    header { display: flex; justify-content: space-between; align-items: baseline; }
  </style>
</head>
<body>
<header>
  <h1>{{msg `title`}}</h1>
  <p>{{msg `logged_in_as`}} <strong>{{.User.Name}}</strong>
     — <a href=`/auth/logout`>{{msg `logout`}}</a></p>
</header>
<main>
  <h2>{{msg `tenants`}}</h2>
  {{if not .Tenants}}<p>{{msg `no_tenants`}}</p>{{end}}
  <table>
    <thead><tr>
      <th>{{msg `slug`}}</th><th>{{msg `display_name`}}</th>
      <th>{{msg `phase`}}</th><th>{{msg `issuer`}}</th><th>{{msg `actions`}}</th>
    </tr></thead>
    <tbody>
      {{range .Tenants}}{{template `row` .}}{{end}}
    </tbody>
  </table>
  <form class=`create` hx-post=`/ui/tenants` hx-swap=`none`>
    <input name=`slug` placeholder=`{{msg `slug`}}` required
           pattern=`[a-z0-9]([a-z0-9-]{0,61}[a-z0-9])?`>
    <input name=`displayName` placeholder=`{{msg `display_name`}}`>
    <input name=`domain` placeholder=`{{msg `domain_optional`}}`
           pattern=`([a-z0-9]([a-z0-9-]{0,61}[a-z0-9])?\.)+[a-z]{2,}`>
    <button type=`submit`>{{msg `create`}}</button>
  </form>
</main>
</body>
</html>
{{define `row`}}
<tr id=`tenant-{{.Slug}}`{{if ne .Phase `Ready`}} hx-get=`/ui/tenants/{{.Slug}}/row` hx-trigger=`every 3s` hx-swap=`outerHTML`{{end}}>
  <td>{{.Slug}}</td>
  <td>{{.DisplayName}}</td>
  <td>{{.Phase}}</td>
  <td>{{if .Issuer}}<a href=`{{.Issuer}}`>{{.Issuer}}</a>{{end}}</td>
  <td>
    <button hx-delete=`/ui/tenants/{{.Slug}}` hx-swap=`none`
        hx-confirm=`{{msg `confirm_delete`}}`>{{msg `delete`}}</button>
    {{if eq .Phase `Ready`}}
    <form hx-post=`/ui/tenants/{{.Slug}}/users` hx-target=`#creds-{{.Slug}}`
          hx-swap=`innerHTML` style=`display:inline; margin-left:.5rem`>
      <input name=`email` type=`email` placeholder=`{{msg `admin_email`}}` required>
      <button type=`submit`>{{msg `add_admin`}}</button>
    </form>
    <div id=`creds-{{.Slug}}`></div>
    {{if .OptionalApps}}
    <form hx-put=`/ui/tenants/{{.Slug}}/apps` hx-trigger=`change` hx-swap=`none`
          style=`display:inline; margin-left:.5rem`>
      <span>{{msg `apps_label`}}:</span>
      {{range .OptionalApps}}
      <label style=`margin-left:.25rem`><input type=`checkbox` name=`apps`
        value=`{{.Name}}`{{if .Enabled}} checked{{end}}> {{.Name}}</label>
      {{end}}
    </form>
    {{end}}
    {{end}}
  </td>
</tr>
{{end}}
{{define `creds`}}
{{if .Error}}<p class=`err`>{{.Error}}</p>{{else}}
<p class=`creds`><strong>{{msg `login_label`}}:</strong> {{.Login}}
   &nbsp; <strong>{{msg `password_label`}}:</strong> <code>{{.Password}}</code></p>
<p><em>{{msg `creds_note`}}</em></p>
{{end}}{{end}}".

Definition pageTmpl : definitions := Eval vm_compute in default [] (Parse "page" pageTmpl_text).
Lemma operator_parsed : Parse "page" pageTmpl_text = Some pageTmpl.
Proof. vm_compute. reflexivity. Qed.
Definition template_names : list string := ["page"; "row"; "creds"].
Definition escaped : list (string * list enode) := Eval vm_compute in escape_all pageTmpl template_names.

(** The data of the handlers.  The map [creds] is given has either an error or a login
    and a password; a key it does not have is as false as an empty text, and is not
    printed. *)
Definition row_value (d : rowData) : value :=
  VRec [("Slug", VStr (rd_Slug d)); ("DisplayName", VStr (rd_DisplayName d)); ("Phase", VStr (rd_Phase d)); ("Issuer", VStr (rd_Issuer d));
        ("OptionalApps", VList ((λ a, VRec [("Name", VStr (at_Name a)); ("Enabled", VBool (at_Enabled a))]) <$> rd_OptionalApps d))].
Definition index_value (user : string) (rows : list rowData) : value :=
  VRec [("User", VRec [("Name", VStr user)]); ("Tenants", VList (row_value <$> rows))].
Definition creds_value (error login password : string) : value :=
  VRec [("Error", VStr error); ("Login", VStr login); ("Password", VStr password)].

Definition row_ty : ty :=
  TyRec [("Slug", TyStr); ("DisplayName", TyStr); ("Phase", TyStr); ("Issuer", TyStr);
         ("OptionalApps", TyList (TyRec [("Name", TyStr); ("Enabled", TyBool)]))].
Definition index_ty : ty := TyRec [("User", TyRec [("Name", TyStr)]); ("Tenants", TyList row_ty)].
Definition creds_ty : ty := TyRec [("Error", TyStr); ("Login", TyStr); ("Password", TyStr)].

Definition execute (name : string) (data : value) : option bytes :=
  Execute (msg_funcs messages_catalog) (escaped_in escaped name) data.

Lemma row_typed d : has_type (row_value d) row_ty.
Proof. typed_rec. constructor. apply Forall_fmap, Forall_true. intros a. typed_rec. Qed.
Lemma index_typed user rows : has_type (index_value user rows) index_ty.
Proof. typed_rec; [typed_rec|]. constructor. apply Forall_fmap, Forall_true. intros d. apply row_typed. Qed.
Lemma creds_typed error login password : has_type (creds_value error login password) creds_ty.
Proof. typed_rec. Qed.
End Operator.

(** ** The stub *)
Module StubPage.
Definition page_text : string := "<!doctype html>
<html lang=`en`><head><meta charset=`utf-8`><title>Peristera IAM stub</title></head>
<body>
<h1>Peristera IAM — stub</h1>
<p>Issuer: <code>{{.Issuer}}</code></p>
{{if .LoggedIn}}
<p>Logged in as <strong>{{.Name}}</strong> ({{.Email}})</p>
<p><a href=`/auth/logout`>Log out</a></p>
{{else}}
<p><a href=`/auth/login`>Log in</a></p>
{{end}}
</body></html>
".

Definition page : definitions := Eval vm_compute in default [] (Parse "" page_text).
Lemma stub_parsed : Parse "" page_text = Some page.
Proof. vm_compute. reflexivity. Qed.
Definition escaped : list (string * list enode) := Eval vm_compute in escape_all page [""].

Definition data_value (issuer : string) (loggedIn : bool) (name email : string) : value :=
  VRec [("Issuer", VStr issuer); ("LoggedIn", VBool loggedIn); ("Name", VStr name); ("Email", VStr email)].
Definition data_ty : ty := TyRec [("Issuer", TyStr); ("LoggedIn", TyBool); ("Name", TyStr); ("Email", TyStr)].
Definition execute (data : value) : option bytes := Execute (msg_funcs []) (escaped_in escaped "") data.

Lemma stub_data_typed issuer loggedIn name email : has_type (data_value issuer loggedIn name email) data_ty.
Proof. typed_rec. Qed.
End StubPage.

(** ** All pages *)
Inductive page :=
  | PgKamara (c : content)
  | PgTasks (l : list Task)
  | PgTaskList (l : list Task)
  | PgTenants (user : string) (rows : list rowData)
  | PgTenantRow (d : rowData)
  | PgCreds (error login password : string)
  | PgStub (issuer : string) (loggedIn : bool) (name email : string).

Section all.
Context {As : Assets}.

(** What a page's template is executed to, and the text that is sent. *)
Definition page_items (p : page) : option (list item) :=
  let run funcs es data := exec funcs es data data in
  match p with
  | PgKamara c => x ← page_data c; run funcs (escaped_template x.1) x.2
  | PgTasks l => run (msg_funcs Ergonomos.msg_catalog) (escaped_in Ergonomos.escaped "page") (Ergonomos.data_value l)
  | PgTaskList l => run (msg_funcs Ergonomos.msg_catalog) (escaped_in Ergonomos.escaped "list") (Ergonomos.data_value l)
  | PgTenants user rows => run (msg_funcs messages_catalog) (escaped_in Operator.escaped "page") (Operator.index_value user rows)
  | PgTenantRow d => run (msg_funcs messages_catalog) (escaped_in Operator.escaped "row") (Operator.row_value d)
  | PgCreds error login password =>
      run (msg_funcs messages_catalog) (escaped_in Operator.escaped "creds") (Operator.creds_value error login password)
  | PgStub issuer loggedIn name email =>
      run (msg_funcs []) (escaped_in StubPage.escaped "") (StubPage.data_value issuer loggedIn name email)
  end.
Definition page_html (p : page) : option bytes :=
  match p with
  | PgKamara c => page_text c
  | PgTasks l => Ergonomos.Page l
  | PgTaskList l => Ergonomos.List_ l
  | PgTenants user rows => Operator.execute "page" (Operator.index_value user rows)
  | PgTenantRow d => Operator.execute "row" (Operator.row_value d)
  | PgCreds error login password => Operator.execute "creds" (Operator.creds_value error login password)
  | PgStub issuer loggedIn name email => StubPage.execute (StubPage.data_value issuer loggedIn name email)
  end.
Definition page_fits (p : page) : Prop := match p with PgKamara c => content_fits c | _ => True end.

Context {Aok : AssetsOk} {R : HtmlRefs} {Rok : HtmlRefsOk}.

(** A template of a set without functions but the catalog's. *)
Lemma catalog_page catalog ds (names : list string) l n data t :
  (∀ n, n ∈ names → escape_template ds n = Some (escaped_in l n)) → n ∈ names →
  typed msg_funcs_ty (escaped_in l n) t t None = true → has_type data t →
  ∃ its out, exec (msg_funcs catalog) (escaped_in l n) data data = Some its ∧
    Execute (msg_funcs catalog) (escaped_in l n) data = Some out ∧ written its out.
Proof. intros Hesc Hn Ht Hd. by eapply (renders (msg_funcs catalog) msg_funcs_ty ds n); [apply Hesc|..]. Qed.

Ltac escaped_each := let H := fresh in
  intros ? H; repeat (apply elem_of_cons in H as [->|H]; [vm_compute; reflexivity|]); by apply not_elem_of_nil in H.

Lemma ergo_escaped n : n ∈ Ergonomos.template_names → escape_template Ergonomos.pageTmpl n = Some (escaped_in Ergonomos.escaped n).
Proof. revert n. escaped_each. Qed.
Lemma operator_escaped n : n ∈ Operator.template_names → escape_template Operator.pageTmpl n = Some (escaped_in Operator.escaped n).
Proof. revert n. escaped_each. Qed.
Lemma stub_escaped n : n ∈ [""] → escape_template StubPage.page n = Some (escaped_in StubPage.escaped n).
Proof. revert n. escaped_each. Qed.

(** C11: no value can change a page.  Every page of the suite renders, whatever is stored:
    names, titles, texts, domains, error messages.  What a browser reads is exactly the
    template's tags, attributes and texts with each value, character by character, in
    the one text or attribute it was written into (a null byte shows as the replacement
    character, a part of a URL as its percent-encoding); its tags and attributes are the
    same as if every value were empty; and a link or form target that is a value has no
    scheme, or one of http, https and mailto.  (The sizes and numbers of a view are
    Go's 64-bit integers, and the stylesheet does not end its own element.) *)
Theorem pages_as_written p :
  page_fits p → ∃ its out, page_items p = Some its ∧ page_html p = Some out ∧ written its out.
Proof.
  destruct p as [c|l|l|user rows|d|e login pw|issuer li name email]; intros Hp.
  - destruct (kamara_pages_written c Hp) as (name&data&its&out&Hd&He&Ho&Hw). exists its, out. split_and!; [|done|done].
    cbn. by rewrite Hd.
  - eapply (catalog_page _ _ _ _ "page" _ Ergonomos.data_ty); [apply ergo_escaped|left|vm_compute; reflexivity|apply Ergonomos.data_typed].
  - eapply (catalog_page _ _ _ _ "list" _ Ergonomos.data_ty); [apply ergo_escaped|right; left|vm_compute; reflexivity|apply Ergonomos.data_typed].
  - eapply (catalog_page _ _ _ _ "page" _ Operator.index_ty); [apply operator_escaped|left|vm_compute; reflexivity|apply Operator.index_typed].
  - eapply (catalog_page _ _ _ _ "row" _ Operator.row_ty); [apply operator_escaped|right; left|vm_compute; reflexivity|apply Operator.row_typed].
  - eapply (catalog_page _ _ _ _ "creds" _ Operator.creds_ty); [apply operator_escaped|right; right; left|vm_compute; reflexivity|apply Operator.creds_typed].
  - eapply (catalog_page _ _ _ _ "" _ StubPage.data_ty); [apply stub_escaped|left|vm_compute; reflexivity|apply StubPage.stub_data_typed].
Qed.
End all.

(** ** A task with a hostile title *)
Module PagesDemo.
Import HtmlDemo StyleDemo.

Definition hostile : string := source "`><script>alert('x')</script>".
Definition object : Object := MkObject "019" (MkSubject "t" "u") hostile 1536 (Some "f") "image/png" 0 0.
Definition details : content := PDetails (MkDetailView object [MkVersion "v" 0 1536 0] 0 true).

(** The name stands in the heading, in the label and in the description of the picture;
    no tag of the page is a script. *)
Definition is_name (t : token) : bool := bool_decide (t = TChars "" (str_bytes hostile)).
Definition names_in (attr : string) (v : bytes) (t : token) : bool :=
  match t with TStart _ ats => bool_decide ((attr, v) ∈ ats) | _ => false end.
Definition is_script (t : token) : bool := match t with TStart tag _ => bool_decide (tag = "script") | _ => false end.
Example hostile_details :
  (λ ts, (existsb is_name ts, existsb (names_in "aria-label" (str_bytes hostile)) ts,
          existsb (names_in "alt" (str_bytes ("Preview of " +:+ hostile))) ts, existsb is_script ts)) <$>
    (page_html (PgKamara details) ≫= tokens) = Some (true, true, true, false).
Proof. vm_compute. reflexivity. Qed.

Lemma pages_as_written_witness :
  ∃ its out, page_items (PgKamara details) = Some its ∧ page_html (PgKamara details) = Some out ∧ written its out ∧
    IVal EAttr (str_bytes hostile) ∈ its.
Proof.
  destruct (pages_as_written (PgKamara details)) as (its&out&H1&H2&H3).
  { repeat (apply conj || constructor); vm_compute; discriminate. }
  exists its, out. repeat (split; [assumption|]). vm_compute in H1. injection H1 as <-. apply (bool_decide_unpack _). vm_compute. exact I.
Defined.
End PagesDemo.

(** ** The accessibility renderer of Ergonomos (ergonomos/cmd/a11y-render/main.go) *)
Definition ergo_a11y_tasks : list Task :=
  [MkTask "019f2e2a-0000-7000-8000-000000000001" sample_owner "Buy milk" false 0 0;
   MkTask "019f2e2a-0000-7000-8000-000000000002" sample_owner "Write the report" true 0 0].
Definition ergo_a11y_main : option bytes := Ergonomos.Page ergo_a11y_tasks.

Example ergo_a11y_prints : is_Some ergo_a11y_main.
Proof. vm_compute. by eexists. Qed.
